(* ===== verification/_CoqProject ===== *)
-Q . S2P
Prelude.v
Str.v
Heapless.v
OtaUrl.v
OtaManifest.v
OtaCrypto.v
OtaFlash.v
NtpServers.v
HttpBody.v
HttpResponse.v
HttpWriter.v
HttpRequest.v
HttpClient.v
TlsBuffer.v
TlsKeys.v
TlsMessages.v
TlsRecord.v
TlsConn.v
TlsStream.v
TlsHandshake.v
Sync.v
ConfigRules.v
RtcSchema.v
F32.v
Rubicson.v
EuDst.v
TimeSync.v
Messages.v
Telemetry.v
KaruMenu.v
Publish.v
RsaVerify.v
TlsPki.v
OtaTasks.v
Settings.v
Radio.v
Bus.v
MqttTask.v
System.v
PulseCapture.v
SwCapture.v
Display.v
Panel.v
Encoder.v
