(* ===== verification/Prelude.v ===== *)
(** * motonet-of-things

    A verification development for the firmware of a battery-powered gateway
    (an ESP32-S3): it receives the 433 MHz bursts of Rubicson thermometers,
    decodes them, shows them on a small display, publishes them over MQTT and
    sleeps in between; it keeps its settings in RTC memory, its time by SNTP,
    and replaces its own image by signed, encrypted updates over HTTPS.

    ** The program and its parts

    Bursts. [PulseCapture] turns the symbols of the receiver into gaps, or
    [SwCapture] the edges of its data pin; [Rubicson] turns gaps into readings,
    [Telemetry] drops repeats and queues the rest, [Bus] routes them to the MQTT
    task, [Publish] writes topic and payload, [MqttTask] publishes them. [Radio]
    is the receiver chip with its settings. [System] puts the tasks next to each
    other and interleaves them.

    Updates. A manifest that arrives over MQTT is handed to the update task
    ([OtaTasks], again await by await in [System]), which checks its signature
    and content ([OtaManifest], [OtaUrl]), downloads the image ([OtaFlash],
    over [HttpClient], [HttpRequest], [HttpWriter], [HttpResponse] and
    [HttpBody]), decrypts and authenticates it chunk by chunk ([OtaCrypto]),
    reads it back and selects the slot.

    TLS. A connection ([TlsConn]) runs the handshake and then carries data in
    records ([TlsRecord]) under the keys of the schedule ([TlsKeys]); messages
    are read and written in [TlsMessages] over the buffers of [TlsBuffer]. The
    server's certificates and its signature are judged by [TlsPki], which gets
    its RSA verifier from [RsaVerify]. [TlsStream] and [TlsHandshake] add no
    code: they hold the theorems about connections and the handshake. The HTTP
    files are proved against connections given as the classes [Sink] and
    [Reads]; the transport below TLS is one of these.

    Settings, display, time. [ConfigRules] holds the bounds and the sleep
    policy, [RtcSchema] the encoded words, [Settings] applies, persists and
    restores them; [KaruMenu] is the menu library, [Display] the controller and
    the task on top of it, [Panel] what the task draws and [Encoder] the knob it
    listens to; [TimeSync], [NtpServers] and [EuDst] are the
    clock.

    ** Files and sources (paths below [src/])

    - [Prelude], [Str], [Heapless], [Sync], [F32]: results with the bind of the
      [?] operator, integers at their width ([wrap], [sat_add], [clamp]; [usize]
      is 32 bits), bytes, Rust's [str] operations, the [heapless] containers
      and the [embassy-sync] watches and channels as classes with laws and
      bounded instances, single-precision floats;
    - [OtaUrl], [OtaManifest]: [crates/ota-core/src/lib.rs];
    - [OtaCrypto]: [firmware/src/ota/encrypted.rs];
    - [OtaFlash]: [firmware/src/ota/flash_write.rs], [ota/boot_metadata.rs];
    - [HttpBody], [HttpResponse], [HttpWriter], [HttpRequest], [HttpClient]: the
      HTTP client in [tools/reqwless/src], from the bottom up: body readers and
      the writer of chunks; response heads; the buffering writer; requests and
      connections; the client that opens them;
    - [TlsBuffer], [TlsKeys], [TlsMessages], [TlsRecord], [TlsConn], [TlsPki]:
      the TLS library in [tools/embedded-tls/src], from the bottom up:
      [parse_buffer.rs], [buffer.rs], [alert.rs]; [key_schedule.rs];
      [extensions/] and [handshake/]; [record.rs], [write_buffer.rs],
      [record_reader.rs], [read_buffer.rs], [common/] and the protection of
      [connection.rs]; the handshake of [connection.rs] and [asynch.rs];
      [pki.rs] and [der_certificate.rs];
    - [OtaTasks]: the coordination part of [ota-core], [firmware/src/tasks/ota.rs],
      [tasks/ota_confirm.rs] and the hand-over in [tasks/mqtt];
    - [RsaVerify]: [crates/rsa-verify-core/src/lib.rs], [firmware/src/ota/hw_rsa.rs];
    - [ConfigRules], [RtcSchema], [NtpServers]: [crates/app-core/src];
    - [Settings]: [firmware/src/radio_settings.rs], [firmware/src/power];
    - [Rubicson]: [crates/rubicson/src/lib.rs];  [EuDst]: [crates/eu-dst/src/lib.rs];
    - [Messages]: [firmware/src/messages.rs], [domain_map.rs];
    - [Telemetry]: [crates/telemetry-core/src], [firmware/src/telemetry.rs];
    - [KaruMenu]: [crates/karu-menu/src];  [Display]: [firmware/src/tasks/display];
    - [Panel]: [firmware/src/display_driver.rs] and the loop of
      [tasks/display.rs] with its drawing;  [Encoder]: [firmware/src/ui_input.rs];
    - [TimeSync]: [firmware/src/time_sync.rs];
    - [Publish], [MqttTask]: [firmware/src/tasks/mqtt];
    - [Bus], [System]: [firmware/src/app_bus.rs], [tls_workspace.rs],
      [startup/spawn.rs] and the tasks named there;
    - [Radio], [PulseCapture], [SwCapture]: [firmware/src/radio_433.rs],
      [pulse_capture.rs], [pulse_capture_rmt.rs] and [pulse_capture_sw.rs],
      [tasks/radio_433.rs].

    Names are the source's, with the type in front where several types have a
    method of that name. A function that can fail returns a [result], one that
    can panic an [option]; a method on [&mut self] takes the old value and
    gives the new one; an async task is a machine whose states are its awaits
    and whose steps lead from one await to the next, with the result of the
    await as input. Third-party crates and peripherals are type classes:
    operations, and laws that state their documented behaviour; each file ends
    with a [Sample] module whose concrete instances show that the laws and the
    hypotheses of the theorems can be met, and run the program on examples.

    ** What is shown

    Updates. Whatever the network, the flash and the boot metadata do, the next
    boot image is the old one or one that was verified in full against the
    manifest ([boot_image_verified], [writes_contained]); a manifest is
    accepted exactly when it is valid and signed ([parse_and_verify_spec]), and
    its signature covers every field ([canonical_unsigned_json_inj]);
    authenticated chunks are bound to their place ([chunk_tag_binds]); each
    request goes to an approved address with the certificate it must have
    ([requests_follow_policy], [url_policy_spec]); an image packed for the
    device arrives in the slot when a server reached over TLS with the right
    certificate sends it, through the client and the readers as they are
    ([update_over_https]); the update task resets the device
    only for such an image ([ota_task_spec]), and the image is marked as valid
    only after a heartbeat, and then is ([ota_confirm_spec]). An RSA signature is
    accepted exactly when the peripheral's answer is an encoding of RFC 8017,
    which below the modulus is the power the RFC asks for; that a signature is
    below the modulus is not checked ([rsa_verify_spec]).

    HTTP. Responses are read as they were sent ([response_roundtrip]) and
    reading one always ends ([response_read_safe]); requests are sent as they
    were built over each kind of connection ([request_sent]); chunked bodies
    survive writer and reader ([chunked_roundtrip]), also through the buffering
    writer, for every sequence of writes and flushes ([buffering_writer_spec]):
    with a buffer of at least six bytes these two panic in exactly one state of
    the buffer; a read of a body of
    fixed length is within it only when the caller sees to it
    ([fixed_read_bounds]).

    TLS. The key schedule is RFC 8446's ([key_schedule_rfc]); a handshake with a
    server that answers in one flight of one protected record opens the
    connection on both sides with the RFC's keys ([open_establishes]); what is
    written to an open connection over a transport that takes it is what the
    other side reads ([stream_roundtrip]), in records whose nonces are different
    ([record_nonces_distinct]); messages are read as they were written
    ([handshake_roundtrip], [client_hello_roundtrip]), and reading one ends
    without panic on any bytes ([server_handshake_total]). A server whose
    certificate and signature are accepted signed the handshake with the key of
    a certificate that names the host and chains to the pinned one
    ([verified_server], [hostname_match_exact]); but a server may leave both
    out ([unauthenticated_server_accepted]), and an open connection can be made
    to panic by its peer ([peer_stops_reader]) and uses a nonce again after a
    failed write ([failed_write_keeps_nonce]).

    Readings. A transmitted burst is decoded to the reading of the sensor
    ([decode_gaps_roundtrip], [capture_delivers], [sw_capture_delivers]), the
    same by both back ends but for the number of symbols the peripheral's task
    asks for ([backends_agree]); errors of up to three bits are
    detected ([flipped_bits_rejected]); the duplicate filter refines a map
    with expiry ([dedupe_refines]); in every interleaving of the tasks readings
    stay in order and none is lost between the radio's channel and the call that
    publishes it, whose acknowledgement the task does not await
    ([pipeline_fifo], [mqtt_delivery]); payloads are exact ([payload_roundtrip]).

    Tasks. In every reachable interleaving the shared TLS buffers have one
    owner and the flags follow the owners ([tasks_exclusive]); the device does
    not sleep while the confirmation task waits and no manifest is forwarded
    ([sleep_awaits_confirmation]); when no call to the chip fails the radio is
    ready on the right profile ([radio_ready]); sessions, capture and
    the radio keep their protocols ([mqtt_sessions_spec], [capture_safety],
    [sw_safety], [sweep_spec], [pending_settings_spec]).

    Settings and display. Settings survive sleep and reset ([boot_valid],
    [settings_survive_sleep], [single_byte_corruption_rejected]); the menu
    refines a specification without a viewport ([menu_refines]), shows what it
    saves ([settings_wysiwyg]) and the panel shows the current frame
    ([redraw_spec]), stroke by stroke ([panel_current]); an event of the knob is
    one gesture after any number of bounces ([next_event_spec]). Daylight saving
    time follows the directive ([dst_spec]); the time task asks the servers in
    order, retries, and publishes every success and nothing else
    ([time_sync_loop_spec], over a network that logs its calls).

    Some theorems state that the code does less than it means to: consecutive
    chunks share key stream ([keystream_reuse]); a failing setter leaves the
    radio deaf ([pending_settings_spec]); an update can be starved of the TLS
    buffers and sleep can come before the confirmation (the examples
    [early_manifest_starves_update] and [sleeps_before_confirmation] of
    [System]).

    ** Fuel and bounds

    Loops that are not structural run on fuel and give [None] when it is used
    up; each has a theorem or lemma that the fuel given is enough: the length of
    the buffer for the readers and writers of HTTP ([read_head_total],
    [read_loop_chunked], [write_all_spec]), one step per 365 days for the
    calendar, the number of allowed redirects plus one for a download, the
    length of the input for the parsers. In TLS a record's header takes five
    reads and its body as many as it has bytes, a handshake without a
    certificate request four steps, a list of names as many rounds as it has
    bytes ([general_names_fuel]); reading application data takes one round for
    each record. Positions inside buffers are [nat]
    where the code's checks keep them inside the buffer; every other integer is
    a [Z] with its wrap-around or saturation written out.

    ** Not modelled

    Construction of peripherals, Wi-Fi association, the entry into deep sleep
    and the self-tests at start-up are input and output without state of their
    own; turning texts and rectangles into pixels is the graphics crates'. Of the
    HTTP client, [discard] and reading a body in place into the head's buffer are
    left out. Of the TLS library, the blocking connection (the
    same code without [await]), the connection split into a reader and a writer,
    the [webpki] and [ed25519] builds, the encoders of a server and the hello
    retry request are left out; hashes, AEAD, elliptic curves and DER are
    crates' and interfaces here. Waiting for the network's configuration
    ([wait_for_config_up]), a request over HTTP in [OtaFlash] and a question to a
    time server are total functions: that they may wait for ever is not modelled.
    Of the CC1101 the registers that the settings name are modelled; every other
    call of the driver is assumed to leave them alone, and a call that fails to
    have had its whole effect or none. Log output is left out throughout. *)
From stdpp Require Export prelude list list_numbers strings.
From Stdlib Require Export ZArith Lia.

#[global] Open Scope Z_scope.

(** ** Results *)

(** Rust's [Result<T, E>], with the error type first so that [result E] is a
    type constructor and stdpp's bind notation [x ← c; k] plays the role of
    the [?] operator. *)
Inductive result (E A : Type) : Type :=
| Ok (a : A)
| Err (e : E).
Arguments Ok {E A} a.
Arguments Err {E A} e.

#[export] Instance result_ret {E} : MRet (result E) := fun A a => Ok a.
#[export] Instance result_bind {E} : MBind (result E) :=
  fun A B f r => match r with Ok a => f a | Err e => Err e end.

#[export] Instance result_eq_dec {E A} `{EqDecision E, EqDecision A} :
  EqDecision (result E A).
Proof. solve_decision. Defined.

(** [guard_ok b e] is [if !b { return Err(e) }]. *)
Definition guard_ok {E} (b : bool) (e : E) : result E unit :=
  if b then Ok tt else Err e.

Definition is_ok {E A} (r : result E A) : bool :=
  match r with Ok _ => true | Err _ => false end.

Definition ok {E A} (r : result E A) : option A :=
  match r with Ok a => Some a | Err _ => None end.

Definition map_err {E F A} (f : E -> F) (r : result E A) : result F A :=
  match r with Ok a => Ok a | Err e => Err (f e) end.

Definition ok_or {E A} (o : option A) (e : E) : result E A :=
  match o with Some a => Ok a | None => Err e end.

Lemma guard_ok_inv {E A} (b : bool) (e : E) (k : unit -> result E A) (a : A) :
  (u ← guard_ok b e; k u) = Ok a <-> b = true /\ k tt = Ok a.
Proof. destruct b; cbn; naive_solver. Qed.

Lemma bind_ok_inv {E A B} (r : result E A) (k : A -> result E B) (b : B) :
  (x ← r; k x) = Ok b <-> exists a, r = Ok a /\ k a = Ok b.
Proof. destruct r; cbn; naive_solver. Qed.

Lemma ok_inj {E A} (a b : A) : @Ok E A a = Ok b -> a = b.
Proof. congruence. Qed.

(** Inverts a chain of [?] operators that ended in [Ok]. *)
Ltac ok_steps H :=
  repeat match type of H with
  | (_ ≫= _) = Ok _ =>
      let a := fresh "j" in let E := fresh "E" in
      apply bind_ok_inv in H as (a & E & H)
  end.

(** ** Machine integers

    A w-bit unsigned integer is a [Z]; [uint w x] states its range, [wrap w]
    is wrap-around arithmetic and [sat_add]/[sat_sub] Rust's saturating
    operations. *)
Definition uint (w x : Z) : Prop := 0 <= x < 2 ^ w.
Definition sint (w x : Z) : Prop := - 2 ^ (w - 1) <= x < 2 ^ (w - 1).
Definition wrap (w x : Z) : Z := x mod 2 ^ w.
(** Wrap-around of a signed w-bit integer. *)
Definition wraps (w x : Z) : Z := (x + 2 ^ (w - 1)) mod 2 ^ w - 2 ^ (w - 1).
Definition umax (w : Z) : Z := 2 ^ w - 1.
Definition smax (w : Z) : Z := 2 ^ (w - 1) - 1.
Definition smin (w : Z) : Z := - 2 ^ (w - 1).
Definition sat_add (w x y : Z) : Z := Z.min (x + y) (umax w).
Definition sat_sub (x y : Z) : Z := Z.max (x - y) 0.
Definition sat_mul (w x y : Z) : Z := Z.min (x * y) (umax w).
(** Saturating addition of two signed integers. *)
Definition sat_adds (w x y : Z) : Z := Z.max (smin w) (Z.min (x + y) (smax w)).
(** [T::try_from(x)] to a w-bit unsigned type, and [.checked_add]/[.checked_sub]. *)
Definition try_from_u (w x : Z) : option Z :=
  if (0 <=? x) && (x <=? umax w) then Some x else None.
(** [x.clamp(lo, hi)]; Rust asserts [lo <= hi], so the checked version is partial. *)
Definition clamp (lo hi x : Z) : Z := Z.min hi (Z.max lo x).
Definition clamp_checked (lo hi x : Z) : option Z :=
  if lo <=? hi then Some (clamp lo hi x) else None.
Definition between (lo hi x : Z) : bool := (lo <=? x) && (x <=? hi).
(** [x.div_ceil(y)]. *)
Definition div_ceil (x y : Z) : Z := (x + y - 1) / y.
(** [usize] on the Xtensa target is 32 bits wide. *)
Definition usize_bits : Z := 32.

Abbreviation u8 := (uint 8).
Abbreviation u16 := (uint 16).
Abbreviation u32 := (uint 32).
Abbreviation u64 := (uint 64).
Abbreviation bytes := (list Z).
Abbreviation is_bytes := (Forall (uint 8)).

#[export] Instance uint_dec w x : Decision (uint w x).
Proof. unfold uint. apply _. Defined.

(** [num] normalises the range facts and the powers of two that occur in the
    development, for [lia]. *)
Ltac num_unfold :=
  unfold uint, sint, sat_add, sat_sub, sat_mul, sat_adds, umax, smax, smin, clamp,
    usize_bits in *;
  change (2 ^ 8) with 256 in *; change (2 ^ 16) with 65536 in *;
  change (2 ^ 32) with 4294967296 in *;
  change (2 ^ 64) with 18446744073709551616 in *;
  change (2 ^ (8 - 1)) with 128 in *; change (2 ^ (16 - 1)) with 32768 in *;
  change (2 ^ (32 - 1)) with 2147483648 in *;
  change (2 ^ (64 - 1)) with 9223372036854775808 in *.
Ltac num := num_unfold; lia.

Lemma wraps_small w x : 0 < w -> sint w x -> wraps w x = x.
Proof.
  unfold sint, wraps. intros Hw Hx. assert (2 ^ w = 2 * 2 ^ (w - 1)) as ->.
  { rewrite <- Z.pow_succ_r by lia. f_equal. lia. }
  rewrite Z.mod_small; lia.
Qed.

(** Turns boolean tests in the context and goal into propositions. *)
Ltac bools :=
  repeat match goal with
  | H : (_ && _) = true |- _ => apply andb_true_iff in H as [? ?]
  | H : (_ || _) = false |- _ => apply orb_false_iff in H as [? ?]
  | H : negb _ = true |- _ => apply negb_true_iff in H
  | H : negb _ = false |- _ => apply negb_false_iff in H
  | H : (_ <=? _) = true |- _ => apply Z.leb_le in H
  | H : (_ <=? _) = false |- _ => apply Z.leb_gt in H
  | H : (_ <? _) = true |- _ => apply Z.ltb_lt in H
  | H : (_ <? _) = false |- _ => apply Z.ltb_ge in H
  | H : (_ =? _) = true |- _ => apply Z.eqb_eq in H
  | H : (_ =? _) = false |- _ => apply Z.eqb_neq in H
  | H : bool_decide _ = true |- _ => apply bool_decide_eq_true in H
  | H : bool_decide _ = false |- _ => apply bool_decide_eq_false in H
  end.

(** Destructs the scrutinee of an [if] or [match] in the goal. *)
Ltac case_goal :=
  match goal with
  | |- context [if ?b then _ else _] => destruct b eqn:?
  | |- context [match ?x with _ => _ end] => destruct x eqn:?
  end.
Ltac case_hyp H :=
  match type of H with
  | context [if ?b then _ else _] => destruct b eqn:?
  | context [match ?x with _ => _ end] => destruct x eqn:?
  end.

(** [Forall P [x1; ...; xn]] from the facts about the elements. *)
Ltac forall_list tac :=
  repeat (apply Forall_cons_2; [solve [tac] |]); try apply Forall_nil_2.

(** ** Exhaustive checks over small integer ranges *)

(** A boolean property checked by evaluation on [0 .. n-1] holds for every
    integer of the range. *)
Lemma forall_below (n : nat) (f : Z -> bool) :
  forallb f (seqZ 0 (Z.of_nat n)) = true ->
  forall x, 0 <= x < Z.of_nat n -> f x = true.
Proof.
  rewrite forallb_forall. intros H x Hx. apply H.
  apply list_elem_of_In, elem_of_seqZ. lia.
Qed.

Lemma forall_u8 (f : Z -> bool) :
  forallb f (seqZ 0 256) = true -> forall x, u8 x -> f x = true.
Proof. intros H x Hx. apply (forall_below 256); [done | num]. Qed.

Lemma forall_u8_pair (f : Z -> Z -> bool) :
  forallb (fun x => forallb (f x) (seqZ 0 256)) (seqZ 0 256) = true ->
  forall x y, u8 x -> u8 y -> f x y = true.
Proof.
  intros H x y Hx Hy. apply (forall_u8 (f x)); [|done].
  by apply (forall_u8 (fun x => forallb (f x) (seqZ 0 256))).
Qed.

(** ** Bytes and words *)

(** [n] little-endian bytes of [z] and back. *)
Fixpoint le_bytes (n : nat) (z : Z) : bytes :=
  match n with
  | O => []
  | S n => (z mod 256) :: le_bytes n (z / 256)
  end.

Fixpoint of_le_bytes (l : bytes) : Z :=
  match l with
  | [] => 0
  | b :: l => b + 256 * of_le_bytes l
  end.

Definition be_bytes (n : nat) (z : Z) : bytes := rev (le_bytes n z).
Definition of_be_bytes (l : bytes) : Z := of_le_bytes (rev l).

Lemma length_le_bytes n z : length (le_bytes n z) = n.
Proof. revert z; induction n; intros; cbn; auto. Qed.

Lemma length_be_bytes n z : length (be_bytes n z) = n.
Proof. unfold be_bytes. by rewrite length_rev, length_le_bytes. Qed.

Lemma le_bytes_is_bytes n z : is_bytes (le_bytes n z).
Proof.
  revert z; induction n; intros; cbn; constructor; auto.
  unfold uint. apply Z.mod_pos_bound; lia.
Qed.

Lemma be_bytes_is_bytes n z : is_bytes (be_bytes n z).
Proof. apply Forall_rev, le_bytes_is_bytes. Qed.

Lemma of_le_bytes_range l :
  is_bytes l -> 0 <= of_le_bytes l < 256 ^ Z.of_nat (length l).
Proof.
  induction 1 as [|b l Hb _ IH]; cbn [of_le_bytes length]; [lia|].
  rewrite Nat2Z.inj_succ, Z.pow_succ_r by lia. num.
Qed.

Lemma of_le_le n z : 0 <= z < 256 ^ Z.of_nat n -> of_le_bytes (le_bytes n z) = z.
Proof.
  revert z; induction n as [|n IH]; intros z Hz; [cbn in *; lia|].
  cbn [le_bytes of_le_bytes]. rewrite Nat2Z.inj_succ, Z.pow_succ_r in Hz by lia.
  rewrite IH; [pose proof (Z.div_mod z 256); lia|].
  split; [apply Z.div_pos; lia | apply Z.div_lt_upper_bound; lia].
Qed.

Lemma le_of_le l : is_bytes l -> le_bytes (length l) (of_le_bytes l) = l.
Proof.
  induction 1 as [|b l Hb _ IH]; cbn [of_le_bytes length le_bytes]; [done|].
  rewrite (Z.mul_comm 256), Z.mod_add, Z.mod_small by num.
  rewrite Z.div_add, Z.div_small by num. by rewrite Z.add_0_l, IH.
Qed.

Lemma of_be_be n z : 0 <= z < 256 ^ Z.of_nat n -> of_be_bytes (be_bytes n z) = z.
Proof. intros. unfold of_be_bytes, be_bytes. by rewrite rev_involutive, of_le_le. Qed.

Lemma be_of_be l : is_bytes l -> be_bytes (length l) (of_be_bytes l) = l.
Proof.
  intros H. unfold of_be_bytes, be_bytes.
  rewrite <- (length_rev l), le_of_le by (by apply Forall_rev). apply rev_involutive.
Qed.

Lemma of_le_bytes_app l1 l2 :
  of_le_bytes (l1 ++ l2) = of_le_bytes l1 + 256 ^ Z.of_nat (length l1) * of_le_bytes l2.
Proof.
  induction l1 as [|b l1 IH]; cbn [app of_le_bytes length]; [lia|].
  rewrite Nat2Z.inj_succ, Z.pow_succ_r, IH by lia. ring.
Qed.

Lemma le_bytes_app k m w t :
  0 <= w < 256 ^ Z.of_nat k ->
  le_bytes (k + m) (w + 256 ^ Z.of_nat k * t) = le_bytes k w ++ le_bytes m t.
Proof.
  revert w. induction k as [|k IH]; intros w Hw.
  { cbn [Nat.add le_bytes app]. change (256 ^ Z.of_nat 0) with 1 in *. f_equal. lia. }
  rewrite Nat2Z.inj_succ, Z.pow_succ_r in * by lia. cbn [Nat.add le_bytes app].
  replace (w + 256 * 256 ^ Z.of_nat k * t) with (w + (256 ^ Z.of_nat k * t) * 256) by ring.
  rewrite Z.mod_add, Z.div_add by lia. f_equal. apply IH.
  split; [apply Z.div_pos; lia | apply Z.div_lt_upper_bound; lia].
Qed.

(** The bytes of an ASCII string literal, and the same with the apostrophe
    standing for the double quote (JSON literals). *)
Fixpoint lit (s : string) : bytes :=
  match s with
  | EmptyString => []
  | String c s => Z.of_N (Ascii.N_of_ascii c) :: lit s
  end.
Definition qlit (s : string) : bytes := (fun b => if b =? 39 then 34 else b) <$> lit s.

Definition byte_char (c : Ascii.ascii) : Z := Z.of_N (Ascii.N_of_ascii c).

Create HintDb motonet.
#[export] Hint Resolve le_bytes_is_bytes be_bytes_is_bytes : motonet.
