(* ===== verification/Str.v ===== *)
(** * Rust's [str] operations

    A [str] is its UTF-8 byte list. The source searches and splits only at
    ASCII characters, for which the byte and the character view agree; the
    operations below are those of [core::str] the source calls, with the
    lemmas the URL, manifest and server-list parsers share. *)
From S2P Require Import Prelude.

(** ** Predicates on bytes *)
Definition is_digit (b : Z) : bool := between 48 57 b.
Definition is_upper (b : Z) : bool := between 65 90 b.
Definition is_lower (b : Z) : bool := between 97 122 b.
Definition is_alphanumeric (b : Z) : bool := is_digit b || is_upper b || is_lower b.
Definition is_hexdigit (b : Z) : bool := is_digit b || between 65 70 b || between 97 102 b.
Definition to_ascii_lowercase (b : Z) : Z := if is_upper b then b + 32 else b.
Definition eq_ignore_ascii_case (a b : bytes) : bool :=
  bool_decide (to_ascii_lowercase <$> a = to_ascii_lowercase <$> b).

(** ** Searching and splitting *)
Definition contains (c : Z) (s : bytes) : bool := existsb (Z.eqb c) s.

Fixpoint strip_prefix (p s : bytes) : option bytes :=
  match p, s with
  | [], _ => Some s
  | x :: p, y :: s => if x =? y then strip_prefix p s else None
  | _ :: _, [] => None
  end.
Definition starts_with (p s : bytes) : bool :=
  match strip_prefix p s with Some _ => true | None => false end.
Definition ends_with (p s : bytes) : bool := starts_with (rev p) (rev s).

(** [s.split_once(c)] at the first, [s.rsplit_once(c)] at the last [c]. *)
Fixpoint split_once (c : Z) (s : bytes) : option (bytes * bytes) :=
  match s with
  | [] => None
  | b :: s =>
      if b =? c then Some ([], s)
      else match split_once c s with
           | Some (l, r) => Some (b :: l, r)
           | None => None
           end
  end.
Definition rsplit_once (c : Z) (s : bytes) : option (bytes * bytes) :=
  match split_once c (rev s) with
  | Some (r, l) => Some (rev l, rev r)
  | None => None
  end.

(** [s.split(c)]: the fields between the separators, never an empty list. *)
Fixpoint split (c : Z) (s : bytes) : list bytes :=
  match s with
  | [] => [[]]
  | b :: s =>
      if b =? c then [] :: split c s
      else match split c s with
           | f :: fs => (b :: f) :: fs
           | [] => [[b]]
           end
  end.

(** The text with the fields [fs] separated by [c]. *)
Fixpoint join (c : Z) (fs : list bytes) : bytes :=
  match fs with
  | [] => []
  | [f] => f
  | f :: fs => f ++ c :: join c fs
  end.

Lemma contains_spec c s : contains c s = true <-> c ∈ s.
Proof.
  unfold contains. rewrite existsb_exists. split.
  - intros (x & Hx & ?%Z.eqb_eq). subst. by apply list_elem_of_In.
  - intros H. exists c. split; [by apply list_elem_of_In | apply Z.eqb_refl].
Qed.

Lemma contains_false c s : contains c s = false <-> c ∉ s.
Proof. rewrite <- contains_spec. destruct (contains c s); naive_solver. Qed.

Lemma strip_prefix_spec p s r : strip_prefix p s = Some r <-> s = p ++ r.
Proof.
  revert s; induction p as [|x p IH]; intros s; cbn; [naive_solver|].
  destruct s as [|y s]; [naive_solver|].
  destruct (Z.eqb_spec x y); rewrite ?IH; naive_solver.
Qed.

Lemma starts_with_spec p s : starts_with p s = true <-> exists r, s = p ++ r.
Proof.
  unfold starts_with. destruct (strip_prefix p s) eqn:H.
  - apply strip_prefix_spec in H. naive_solver.
  - split; [done|]. intros [r Hr%strip_prefix_spec]. congruence.
Qed.

Lemma ends_with_spec p s : ends_with p s = true <-> exists r, s = r ++ p.
Proof.
  unfold ends_with. rewrite starts_with_spec. split; intros [r Hr].
  - exists (rev r). rewrite <- (rev_involutive s), Hr, rev_app_distr. by rewrite rev_involutive.
  - exists (rev r). by rewrite Hr, rev_app_distr.
Qed.

Lemma split_once_spec c s l r :
  split_once c s = Some (l, r) <-> s = l ++ c :: r /\ (c ∉ l).
Proof.
  revert l; induction s as [|b s IH]; intros l; cbn.
  - split; [done|]. intros [H _]. by destruct l.
  - destruct (Z.eqb_spec b c) as [->|Hne].
    + split.
      * intros [= <- <-]. split; [done | apply not_elem_of_nil].
      * intros [H Hc]. destruct l as [|x l]; cbn in H; [naive_solver|].
        simplify_eq. exfalso. apply Hc, list_elem_of_here.
    + destruct (split_once c s) as [[l' r']|] eqn:E.
      * split.
        -- intros [= <- <-]. destruct (IH l') as [IH1 _]. specialize (IH1 eq_refl) as [-> ?].
           split; [done|]. rewrite elem_of_cons. naive_solver.
        -- intros [H Hc]. destruct l as [|x l]; cbn in H; simplify_eq.
           rewrite elem_of_cons in Hc.
           destruct (IH l) as [_ IH2].
           ospecialize (IH2 _); [naive_solver|]. congruence.
      * split; [done|]. intros [H Hc]. destruct l as [|x l]; cbn in H; simplify_eq.
        destruct (IH l) as [_ IH2]. rewrite elem_of_cons in Hc.
        ospecialize (IH2 _); [naive_solver|]. congruence.
Qed.

Lemma split_once_None c s : split_once c s = None <-> c ∉ s.
Proof.
  split.
  - intros H Hin. apply list_elem_of_split in Hin.
    induction s as [|b s IH]; cbn in H.
    + destruct Hin as (l & r & Hlr). by destruct l.
    + destruct (Z.eqb_spec b c) as [|Hne]; [done|].
      destruct (split_once c s) as [[? ?]|] eqn:E; [done|].
      apply IH; [done|]. destruct Hin as (l & r & Hlr).
      destruct l as [|x l]; cbn in Hlr; simplify_eq. eauto.
  - intros Hin. destruct (split_once c s) as [[l r]|] eqn:E; [|done].
    apply split_once_spec in E as [-> _]. exfalso. apply Hin. set_solver.
Qed.

Lemma elem_of_rev (c : Z) (s : bytes) : c ∈ rev s <-> c ∈ s.
Proof. rewrite !list_elem_of_In. symmetry. apply in_rev. Qed.

Lemma rsplit_once_spec c s l r :
  rsplit_once c s = Some (l, r) <-> s = l ++ c :: r /\ (c ∉ r).
Proof.
  unfold rsplit_once. split.
  - destruct (split_once c (rev s)) as [[r' l']|] eqn:E; [|done].
    intros [= <- <-]. apply split_once_spec in E as [E Hc]. split.
    + rewrite <- (rev_involutive s), E, rev_app_distr. cbn. by rewrite <- app_assoc.
    + by rewrite elem_of_rev.
  - intros [-> Hc].
    assert (split_once c (rev (l ++ c :: r)) = Some (rev r, rev l)) as ->.
    { apply split_once_spec. split.
      - rewrite rev_app_distr. cbn. by rewrite <- app_assoc.
      - by rewrite elem_of_rev. }
    by rewrite !rev_involutive.
Qed.

Lemma rsplit_once_None c s : rsplit_once c s = None <-> c ∉ s.
Proof.
  rewrite <- elem_of_rev, <- split_once_None. unfold rsplit_once.
  destruct (split_once c (rev s)) as [[? ?]|]; naive_solver.
Qed.

Lemma split_not_nil c s : split c s <> [].
Proof. destruct s as [|b s]; cbn; [done|]. destruct (b =? c); [done|]. by destruct (split c s). Qed.

Lemma join_split c s : join c (split c s) = s.
Proof.
  induction s as [|b s IH]; cbn; [done|].
  pose proof (split_not_nil c s).
  destruct (Z.eqb_spec b c) as [->|].
  - destruct (split c s) as [|f fs]; [done|]. cbn in *. by rewrite IH.
  - destruct (split c s) as [|f fs]; [done|]. cbn in *. destruct fs; cbn in *; congruence.
Qed.

Lemma split_fields c s : Forall (fun f => c ∉ f) (split c s).
Proof.
  induction s as [|b s IH]; cbn.
  - constructor; [apply not_elem_of_nil | constructor].
  - destruct (Z.eqb_spec b c) as [->|].
    + constructor; [apply not_elem_of_nil | done].
    + destruct (split c s) as [|f fs].
      * constructor; [|constructor]. set_solver.
      * inversion IH; subst. constructor; [|done]. set_solver.
Qed.

Lemma split_app c l r : c ∉ l -> split c (l ++ c :: r) = l :: split c r.
Proof.
  induction l as [|b l IH]; intros H; cbn.
  - by rewrite Z.eqb_refl.
  - destruct (Z.eqb_spec b c) as [->|]; [set_solver|]. rewrite IH by set_solver. done.
Qed.

Lemma split_no_sep c s : c ∉ s -> split c s = [s].
Proof.
  induction s as [|b s IH]; intros H; cbn; [done|].
  destruct (Z.eqb_spec b c) as [->|]; [set_solver|]. rewrite IH by set_solver. done.
Qed.

Lemma split_join c fs :
  fs <> [] -> Forall (fun f => c ∉ f) fs -> split c (join c fs) = fs.
Proof.
  induction fs as [|f fs IH]; intros Hne Hfs; [done|].
  inversion Hfs; subst. destruct fs as [|g fs]; cbn [join].
  - by apply split_no_sep.
  - rewrite split_app by done. f_equal. by apply IH.
Qed.

(** ** Decimal numbers *)

(** [parse_decimal ds] is the value of a digit string, most significant first. *)
Definition decimal_value (ds : bytes) : Z :=
  fold_left (fun v b => v * 10 + (b - 48)) ds 0.

Lemma decimal_value_snoc ds b :
  decimal_value (ds ++ [b]) = decimal_value ds * 10 + (b - 48).
Proof. unfold decimal_value. by rewrite fold_left_app. Qed.

(** [{}] of an unsigned integer: the digits without leading zeros. The fuel
    bounds the number of digits; 20 are enough for a [u64]. *)
Fixpoint dec_aux (fuel : nat) (n : Z) (acc : bytes) : bytes :=
  match fuel with
  | O => acc
  | S fuel =>
      let acc := (48 + n mod 10) :: acc in
      if n / 10 =? 0 then acc else dec_aux fuel (n / 10) acc
  end.
Definition dec (n : Z) : bytes := dec_aux 20 n [].

Lemma decimal_value_app ds es :
  decimal_value (ds ++ es) = decimal_value ds * 10 ^ Z.of_nat (length es) + decimal_value es.
Proof.
  induction es as [|b es IH] using rev_ind.
  - rewrite app_nil_r. cbn. lia.
  - rewrite app_assoc, !decimal_value_snoc, IH, length_app, Nat2Z.inj_add. cbn [length].
    rewrite Z.pow_add_r by lia. change (10 ^ Z.of_nat 1) with 10. ring.
Qed.

Lemma dec_aux_spec fuel n acc :
  0 <= n < 10 ^ Z.of_nat fuel ->
  Forall (fun b => is_digit b = true) acc ->
  Forall (fun b => is_digit b = true) (dec_aux fuel n acc) /\
  exists pre, dec_aux fuel n acc = pre ++ acc /\ decimal_value pre = n /\
              (fuel <> O -> pre <> []).
Proof.
  revert n acc; induction fuel as [|fuel IH]; intros n acc Hn Hacc.
  - cbn in *. split; [done|]. exists []. cbn. split; [done|]. split; [lia | done].
  - cbn [dec_aux]. pose proof (Z.mod_pos_bound n 10).
    assert (is_digit (48 + n mod 10) = true) as Hd.
    { unfold is_digit, between. apply andb_true_iff. split; apply Z.leb_le; lia. }
    destruct (Z.eqb_spec (n / 10) 0) as [Hz|Hz].
    + split; [by constructor|]. exists [48 + n mod 10]. cbn. split; [done|].
      split; [|done]. pose proof (Z.div_mod n 10). lia.
    + rewrite Nat2Z.inj_succ, Z.pow_succ_r in Hn by lia.
      destruct (IH (n / 10) ((48 + n mod 10) :: acc)) as (H1 & pre & H2 & H3 & _).
      * split; [apply Z.div_pos; lia | apply Z.div_lt_upper_bound; lia].
      * by constructor.
      * split; [done|]. exists (pre ++ [48 + n mod 10]).
        rewrite H2, <- app_assoc. split; [done|]. split.
        -- rewrite decimal_value_snoc, H3. pose proof (Z.div_mod n 10). lia.
        -- intros _ E. by destruct pre.
Qed.

Lemma dec_spec n : 0 <= n < 10 ^ 20 ->
  Forall (fun b => is_digit b = true) (dec n) /\ decimal_value (dec n) = n /\ dec n <> [].
Proof.
  intros Hn. unfold dec. destruct (dec_aux_spec 20 n []) as (H1 & pre & H2 & H3 & H4).
  - done.
  - constructor.
  - rewrite app_nil_r in H2. rewrite H2 in *. split; [done|]. split; [done|]. by apply H4.
Qed.

(** A non-digit after a printed number makes the number readable back. *)
Lemma digits_prefix_inj (ds es r1 r2 : bytes) :
  Forall (fun b => is_digit b = true) ds -> Forall (fun b => is_digit b = true) es ->
  (forall b t, r1 = b :: t -> is_digit b = false) ->
  (forall b t, r2 = b :: t -> is_digit b = false) ->
  ds ++ r1 = es ++ r2 -> ds = es /\ r1 = r2.
Proof.
  intros Hds; revert es; induction Hds as [|d ds Hd Hds IH]; intros es Hes H1 H2 H.
  - destruct Hes as [|e es He Hes]; [done|]. cbn in H. subst r1.
    specialize (H1 e _ eq_refl). congruence.
  - destruct Hes as [|e es He Hes]; cbn in H.
    + subst r2. specialize (H2 d _ eq_refl). congruence.
    + simplify_eq. destruct (IH es) as [-> ->]; auto.
Qed.

Lemma dec_inj n m r1 r2 :
  0 <= n < 10 ^ 20 -> 0 <= m < 10 ^ 20 ->
  (forall b t, r1 = b :: t -> is_digit b = false) ->
  (forall b t, r2 = b :: t -> is_digit b = false) ->
  dec n ++ r1 = dec m ++ r2 -> n = m /\ r1 = r2.
Proof.
  intros Hn Hm H1 H2 H.
  destruct (dec_spec n Hn) as (Dn & Vn & _), (dec_spec m Hm) as (Dm & Vm & _).
  destruct (digits_prefix_inj _ _ _ _ Dn Dm H1 H2 H) as [E ->]. split; [congruence | done].
Qed.

Example dec_example : dec 1057808 = lit "1057808".
Proof. reflexivity. Qed.
Example split_example : split 46 (lit "1..2") = [lit "1"; []; lit "2"].
Proof. reflexivity. Qed.

(** ** [write!] into a bounded string

    The pieces of a template are written one after the other into a string of
    the given capacity; a piece that does not fit is an error. *)
Definition write_pieces (capacity : Z) (pieces : list bytes) : option bytes :=
  fold_left (fun o piece =>
    out ← o;
    if Z.of_nat (length out + length piece) <=? capacity then Some (out ++ piece) else None)
    pieces (Some []).
(** What the string holds when the error is ignored: the pieces before the
    first that does not fit. *)
Fixpoint written (capacity : Z) (out : bytes) (pieces : list bytes) : bytes :=
  match pieces with
  | [] => out
  | piece :: pieces =>
      if Z.of_nat (length out + length piece) <=? capacity
      then written capacity (out ++ piece) pieces else out
  end.

Lemma write_one capacity piece :
  Z.of_nat (length piece) <= capacity -> write_pieces capacity [piece] = Some piece.
Proof. intros Hl. cbn. by rewrite (proj2 (Z.leb_le _ _) Hl). Qed.

Lemma write_fits_from capacity pieces out :
  Z.of_nat (length out + length (mjoin pieces)) <= capacity ->
  fold_left (fun o piece =>
    out ← o;
    if Z.of_nat (length out + length piece) <=? capacity then Some (out ++ piece) else None)
    pieces (Some out) = Some (out ++ mjoin pieces) /\
  written capacity out pieces = out ++ mjoin pieces.
Proof.
  revert out. induction pieces as [|p ps IH]; intros out Hl; [cbn; by rewrite app_nil_r|].
  change (mjoin (p :: ps)) with (p ++ mjoin ps) in *. rewrite length_app in Hl. cbn.
  rewrite (proj2 (Z.leb_le _ _)) by lia.
  destruct (IH (out ++ p)) as [H1 H2]; [rewrite length_app; lia|].
  by rewrite H1, H2, <- app_assoc.
Qed.

Lemma write_fits capacity pieces : Z.of_nat (length (mjoin pieces)) <= capacity ->
  write_pieces capacity pieces = Some (mjoin pieces) /\ written capacity [] pieces = mjoin pieces.
Proof. intros Hl. by apply (write_fits_from capacity pieces []). Qed.

Lemma write_pieces_fits capacity pieces out : mjoin pieces = out ->
  Z.of_nat (length out) <= capacity -> write_pieces capacity pieces = Some out.
Proof. intros <- Hl. apply write_fits, Hl. Qed.

(** The number of digits. *)
Lemma dec_aux_length fuel n acc :
  (length (dec_aux fuel n acc) <= fuel + length acc)%nat.
Proof.
  revert n acc. induction fuel as [|fuel IH]; intros n acc; cbn [dec_aux]; [lia|].
  destruct (n / 10 =? 0); [cbn; lia|]. etransitivity; [apply IH|]. cbn. lia.
Qed.

Lemma dec_aux_fuel k fuel n acc : 0 <= n < 10 ^ Z.of_nat k -> (1 <= k <= fuel)%nat ->
  dec_aux fuel n acc = dec_aux k n acc.
Proof.
  revert fuel n acc. induction k as [|k IH]; intros fuel n acc Hn Hk; [lia|].
  destruct fuel as [|fuel]; [lia|]. cbn [dec_aux].
  destruct (Z.eqb_spec (n / 10) 0) as [|Hq]; [done|].
  rewrite Nat2Z.inj_succ, Z.pow_succ_r in Hn by lia.
  destruct k as [|k]; [cbn in Hn; pose proof (Z.div_small n 10); lia|].
  apply IH; [|lia]. split; [apply Z.div_pos; lia | apply Z.div_lt_upper_bound; lia].
Qed.

Lemma dec_length k n : 0 <= n < 10 ^ Z.of_nat k -> (1 <= k <= 20)%nat -> (length (dec n) <= k)%nat.
Proof.
  intros Hn Hk. unfold dec. rewrite (dec_aux_fuel k) by done.
  etransitivity; [apply dec_aux_length|]. cbn. lia.
Qed.

(** [{:02}] of a number below 100. *)
Definition dec2 (n : Z) : bytes := if n <? 10 then 48 :: dec n else dec n.
