(* ===== verification/Heapless.v ===== *)
(** * Fixed-capacity containers

    The [heapless] crate is not part of the repository, so its containers are
    interfaces: operations with the laws its documentation states, against
    which the clients are proved. The bounded lists at the end are instances
    on which witnesses evaluate. *)
From S2P Require Import Prelude.

(** [Vec<T, N>]: [push] gives the element back when the vector is full,
    [remove] shifts the tail left and panics ([None]) out of range.
    [vec_update i a] is a write through [get_mut(i)], [vec_map f] the writes of
    [iter_mut().for_each]. *)
Class FixedVec (V : Type -> nat -> Type) := {
  vec_new {A N} : V A N;
  vec_list {A N} : V A N -> list A;
  vec_push {A N} : A -> V A N -> result A (V A N);
  vec_retain {A N} : (A -> bool) -> V A N -> V A N;
  vec_remove {A N} : nat -> V A N -> option (A * V A N);
  vec_update {A N} : nat -> A -> V A N -> V A N;
  vec_map {A N} : (A -> A) -> V A N -> V A N
}.

Class FixedVecLaws (V : Type -> nat -> Type) `{FixedVec V} := {
  vec_new_list A N : vec_list (@vec_new V _ A N) = [];
  vec_capacity {A N} (v : V A N) : (length (vec_list v) <= N)%nat;
  vec_push_room {A N} (a : A) (v : V A N) :
    (length (vec_list v) < N)%nat ->
    exists v', vec_push a v = Ok v' /\ vec_list v' = vec_list v ++ [a];
  vec_push_full {A N} (a : A) (v : V A N) :
    length (vec_list v) = N -> vec_push a v = Err a;
  vec_retain_list {A N} (p : A -> bool) (v : V A N) :
    vec_list (vec_retain p v) = filter (fun a => p a = true) (vec_list v);
  vec_remove_some {A N} (i : nat) (v : V A N) (a : A) :
    vec_list v !! i = Some a ->
    exists v', vec_remove i v = Some (a, v') /\ vec_list v' = delete i (vec_list v);
  vec_remove_none {A N} (i : nat) (v : V A N) :
    vec_list v !! i = None -> vec_remove i v = None;
  vec_update_list {A N} (i : nat) (a : A) (v : V A N) :
    vec_list (vec_update i a v) = <[i := a]> (vec_list v);
  vec_map_list {A N} (f : A -> A) (v : V A N) : vec_list (vec_map f v) = f <$> vec_list v
}.

(** [Deque<T, N>], front first. *)
Class FixedDeque (Q : Type -> nat -> Type) := {
  deq_new {A N} : Q A N;
  deq_list {A N} : Q A N -> list A;
  deq_push_back {A N} : A -> Q A N -> result A (Q A N);
  deq_pop_front {A N} : Q A N -> option (A * Q A N)
}.

Class FixedDequeLaws (Q : Type -> nat -> Type) `{FixedDeque Q} := {
  deq_new_list A N : deq_list (@deq_new Q _ A N) = [];
  deq_capacity {A N} (q : Q A N) : (length (deq_list q) <= N)%nat;
  deq_push_room {A N} (a : A) (q : Q A N) :
    (length (deq_list q) < N)%nat ->
    exists q', deq_push_back a q = Ok q' /\ deq_list q' = deq_list q ++ [a];
  deq_push_full {A N} (a : A) (q : Q A N) :
    length (deq_list q) = N -> deq_push_back a q = Err a;
  deq_pop_cons {A N} (q : Q A N) (a : A) (l : list A) :
    deq_list q = a :: l -> exists q', deq_pop_front q = Some (a, q') /\ deq_list q' = l;
  deq_pop_nil {A N} (q : Q A N) : deq_list q = [] -> deq_pop_front q = None
}.

(** ** Bounded lists *)

Definition bounded (A : Type) (N : nat) : Type :=
  { l : list A | bool_decide (length l <= N)%nat = true }.
Definition bounded_list {A N} (b : bounded A N) : list A := proj1_sig b.

(** The bounded list of [l] when it fits. *)
Definition bounded_of {A} (N : nat) (l : list A) : option (bounded A N) :=
  match bool_decide (length l <= N)%nat as b
    return bool_decide (length l <= N)%nat = b -> option (bounded A N) with
  | true => fun H => Some (exist _ l H)
  | false => fun _ => None
  end eq_refl.

Lemma bounded_le {A N} (b : bounded A N) : (length (bounded_list b) <= N)%nat.
Proof. destruct b as [l H]. cbn. by apply bool_decide_eq_true in H. Qed.

Lemma bounded_of_some {A} N (l : list A) :
  (length l <= N)%nat -> exists b, bounded_of N l = Some b /\ bounded_list b = l.
Proof.
  intros H. unfold bounded_of.
  assert (forall b (E : bool_decide (length l <= N)%nat = b), b = true ->
    exists x, match b as b return bool_decide (length l <= N)%nat = b -> option (bounded A N) with
      | true => fun H => Some (exist _ l H) | false => fun _ => None end E = Some x /\
      bounded_list x = l) as Hb.
  { intros b E ->. eauto. }
  apply Hb. by apply bool_decide_eq_true.
Qed.

Definition bounded_nil {A N} : bounded A N := exist _ [] eq_refl.
Definition bounded_set {A N} (b : bounded A N) (l : list A) : bounded A N :=
  default b (bounded_of N l).

Lemma bounded_set_list {A N} (b : bounded A N) l :
  (length l <= N)%nat -> bounded_list (bounded_set b l) = l.
Proof.
  intros H. unfold bounded_set. destruct (bounded_of_some N l H) as (x & -> & Hx). exact Hx.
Qed.

Definition bounded_push {A N} (a : A) (b : bounded A N) : result A (bounded A N) :=
  if bool_decide (length (bounded_list b) < N)%nat
  then Ok (bounded_set b (bounded_list b ++ [a])) else Err a.

Lemma bounded_push_room {A N} (a : A) (b : bounded A N) :
  (length (bounded_list b) < N)%nat ->
  exists b', bounded_push a b = Ok b' /\ bounded_list b' = bounded_list b ++ [a].
Proof.
  intros H. unfold bounded_push. rewrite bool_decide_eq_true_2 by done.
  eexists; split; [done|]. apply bounded_set_list. rewrite length_app. cbn. lia.
Qed.

Lemma bounded_push_full {A N} (a : A) (b : bounded A N) :
  length (bounded_list b) = N -> bounded_push a b = Err a.
Proof. intros H. unfold bounded_push. rewrite bool_decide_eq_false_2; [done|lia]. Qed.

#[export] Instance bounded_vec : FixedVec bounded := {
  vec_new A N := bounded_nil;
  vec_list A N := bounded_list;
  vec_push A N := bounded_push;
  vec_retain A N p b := bounded_set b (filter (fun a => p a = true) (bounded_list b));
  vec_remove A N i b :=
    a ← bounded_list b !! i; Some (a, bounded_set b (delete i (bounded_list b)));
  vec_update A N i a b := bounded_set b (<[i := a]> (bounded_list b));
  vec_map A N f b := bounded_set b (f <$> bounded_list b)
}.

#[export] Instance bounded_vec_laws : FixedVecLaws bounded.
Proof.
  split; cbn.
  - done.
  - intros. apply bounded_le.
  - intros. by apply bounded_push_room.
  - intros. by apply bounded_push_full.
  - intros A N p b. apply bounded_set_list.
    etransitivity; [apply length_filter | apply bounded_le].
  - intros A N i b a Hi. rewrite Hi. cbn. eexists; split; [done|]. apply bounded_set_list.
    pose proof (bounded_le b). rewrite length_delete by eauto. lia.
  - intros A N i b Hi. by rewrite Hi.
  - intros A N i a b. apply bounded_set_list. rewrite length_insert. apply bounded_le.
  - intros A N f b. apply bounded_set_list. rewrite length_fmap. apply bounded_le.
Qed.

#[export] Instance bounded_deque : FixedDeque bounded := {
  deq_new A N := bounded_nil;
  deq_list A N := bounded_list;
  deq_push_back A N := bounded_push;
  deq_pop_front A N b :=
    match bounded_list b with
    | [] => None
    | a :: l => Some (a, bounded_set b l)
    end
}.

#[export] Instance bounded_deque_laws : FixedDequeLaws bounded.
Proof.
  split; cbn.
  - done.
  - intros. apply bounded_le.
  - intros. by apply bounded_push_room.
  - intros. by apply bounded_push_full.
  - intros A N b a l Hl. rewrite Hl. eexists; split; [done|]. apply bounded_set_list.
    pose proof (bounded_le b) as Hb. rewrite Hl in Hb. cbn in Hb. lia.
  - intros A N b Hl. by rewrite Hl.
Qed.
