(* ===== verification/OtaUrl.v ===== *)
(** * OTA download policy: URLs and ESP image prefixes

    [crates/ota-core/src/lib.rs]: [validate_ota_url_policy] and its helpers,
    and [validate_esp_image_prefix]. The error enums keep the source's
    constructors; every early return is an [Err]. The specifications
    [LocalUrl] and [HttpsUrl] describe the accepted URLs declaratively. *)
From S2P Require Import Prelude Str.

Inductive OtaUrlPolicyError :=
| InvalidScheme | UserInfoNotAllowed | HostMustBeIpv4 | InvalidHttpsHost
| MissingPort | EmptyPath | QueryNotAllowed | FragmentNotAllowed.

#[export] Instance OtaUrlPolicyError_eq_dec : EqDecision OtaUrlPolicyError.
Proof. solve_decision. Defined.

(** ** Operations *)

(** The [for byte in port.bytes()] loop on a [u32]; [None] is the early
    [return false]. *)
Fixpoint valid_port_loop (value : Z) (port : bytes) : option Z :=
  match port with
  | [] => Some value
  | b :: port =>
      let value := wrap 32 (wrap 32 (value * 10) + wrap 8 (b - 48)) in
      if 65535 <? value then None else valid_port_loop value port
  end.

Definition valid_port (port : bytes) : bool :=
  if bool_decide (port = []) || negb (forallb is_digit port) then false
  else match valid_port_loop 0 port with
       | None => false
       | Some value => negb (value =? 0)
       end.

(** The [u16] accumulation of one octet. *)
Definition octet_value (octet : bytes) : Z :=
  fold_left (fun value b => wrap 16 (wrap 16 (value * 10) + wrap 8 (b - 48))) octet 0.

Definition validate_ipv4_octet (octet : bytes) : result OtaUrlPolicyError unit :=
  if bool_decide (octet = []) || (3 <? Z.of_nat (length octet)) || negb (forallb is_digit octet)
  then Err HostMustBeIpv4
  else if 255 <? octet_value octet then Err HostMustBeIpv4 else Ok tt.

Fixpoint validate_each {A E} (f : A -> result E unit) (l : list A) : result E unit :=
  match l with
  | [] => Ok tt
  | x :: l => u ← f x; validate_each f l
  end.

Definition validate_ipv4_host (host : bytes) : result OtaUrlPolicyError unit :=
  if bool_decide (host = []) || negb (Z.of_nat (length (split 46 host)) =? 4)
  then Err HostMustBeIpv4
  else validate_each validate_ipv4_octet (split 46 host).

Definition host_byte (b : Z) : bool := is_alphanumeric b || (b =? 46) || (b =? 45).

Definition validate_https_label (label : bytes) : result OtaUrlPolicyError unit :=
  if bool_decide (label = []) || (63 <? Z.of_nat (length label))
     || starts_with [45] label || ends_with [45] label
  then Err InvalidHttpsHost else Ok tt.

Definition validate_https_host (host : bytes) : result OtaUrlPolicyError unit :=
  if bool_decide (host = []) || (253 <? Z.of_nat (length host))
     || starts_with [46] host || ends_with [46] host || negb (forallb host_byte host)
  then Err InvalidHttpsHost
  else validate_each validate_https_label (split 46 host).

Definition validate_local_http_url (rest : bytes) : result OtaUrlPolicyError unit :=
  if contains 35 rest then Err FragmentNotAllowed
  else if contains 63 rest then Err QueryNotAllowed
  else match split_once 47 rest with
  | None => Err EmptyPath
  | Some (authority, path) =>
      if contains 64 authority then Err UserInfoNotAllowed
      else if bool_decide (path = []) then Err EmptyPath
      else match rsplit_once 58 authority with
      | None => Err MissingPort
      | Some (host, port) =>
          if negb (valid_port port) then Err MissingPort
          else validate_ipv4_host host
      end
  end.

Definition https_host_port (authority : bytes) : bytes * option bytes :=
  match rsplit_once 58 authority with
  | None => (authority, None)
  | Some (host, port) =>
      if forallb is_digit port then (host, Some port) else (authority, None)
  end.

Definition validate_https_url (rest : bytes) : result OtaUrlPolicyError unit :=
  if contains 35 rest then Err FragmentNotAllowed
  else match split_once 47 rest with
  | None => Err EmptyPath
  | Some (authority, path_and_query) =>
      if contains 64 authority then Err UserInfoNotAllowed
      else if bool_decide (path_and_query = []) || starts_with [63] path_and_query
      then Err EmptyPath
      else
        let (host, port) := https_host_port authority in
        match port with
        | Some p => if negb (valid_port p) then Err MissingPort else validate_https_host host
        | None => validate_https_host host
        end
  end.

Definition validate_ota_url_policy (url : bytes) : result OtaUrlPolicyError unit :=
  match strip_prefix (lit "http://") url with
  | Some rest => validate_local_http_url rest
  | None =>
      match strip_prefix (lit "https://") url with
      | Some rest => validate_https_url rest
      | None => Err InvalidScheme
      end
  end.

(** ** ESP image prefix *)

Inductive EspImagePrefixError :=
| TooShort | WrongMagic | InvalidSegmentCount | InvalidFlashMode
| InvalidFlashSizeFrequency | ZeroEntryAddress.

Definition validate_esp_image_prefix (prefix : bytes) : result EspImagePrefixError unit :=
  match prefix with
  | p0 :: p1 :: p2 :: p3 :: p4 :: p5 :: p6 :: p7 :: _ =>
      if negb (p0 =? 0xe9) then Err WrongMagic
      else if negb (between 1 16 p1) then Err InvalidSegmentCount
      else if negb (between 0 3 p2) then Err InvalidFlashMode
      else
        let frequency := Z.land p3 0x0f in
        let size := Z.shiftr p3 4 in
        if negb (existsb (Z.eqb frequency) [0x0; 0x1; 0x2; 0xf]) || negb (between 0 8 size)
        then Err InvalidFlashSizeFrequency
        else
          let entry := of_le_bytes [p4; p5; p6; p7] in
          if entry =? 0 then Err ZeroEntryAddress else Ok tt
  | _ => Err TooShort
  end.

(** ** Specifications *)

(** A port: a non-empty digit string with a value from 1 to 65535. *)
Definition PortText (p : bytes) : Prop :=
  p <> [] /\ Forall (fun b => is_digit b = true) p /\ 1 <= decimal_value p <= 65535.

(** A dotted IPv4 octet: one to three digits with a value up to 255. *)
Definition OctetText (o : bytes) : Prop :=
  (1 <= length o <= 3)%nat /\ Forall (fun b => is_digit b = true) o /\
  decimal_value o <= 255.

(** A DNS label: 1 to 63 letters, digits or inner hyphens. *)
Definition LabelText (l : bytes) : Prop :=
  (1 <= length l <= 63)%nat /\
  Forall (fun b => is_alphanumeric b = true \/ b = 45) l /\
  head l <> Some 45 /\ last l <> Some 45.

Definition HostText (h : bytes) : Prop :=
  (length h <= 253)%nat /\
  exists ls, ls <> [] /\ h = join 46 ls /\ Forall LabelText ls.

(** [http://a.b.c.d:port/path], without query or fragment. *)
Definition LocalUrl (url : bytes) : Prop :=
  exists a b c d port path,
    url = lit "http://" ++ (join 46 [a; b; c; d] ++ 58 :: port) ++ 47 :: path /\
    OctetText a /\ OctetText b /\ OctetText c /\ OctetText d /\ PortText port /\
    path <> [] /\ (35 ∉ path) /\ (63 ∉ path).

(** [https://host[:port]/path[?query]], without fragment. *)
Definition HttpsUrl (url : bytes) : Prop :=
  exists host authority path,
    url = lit "https://" ++ authority ++ 47 :: path /\
    HostText host /\
    (authority = host \/ (exists port, authority = host ++ 58 :: port /\ PortText port)) /\
    path <> [] /\ head path <> Some 63 /\ (35 ∉ path).

(** ** Ports and addresses *)

Lemma digits_forallb s : forallb is_digit s = true <-> Forall (fun b => is_digit b = true) s.
Proof. by rewrite forallb_forall, Forall_forall; setoid_rewrite list_elem_of_In. Qed.

Lemma digit_range b : is_digit b = true -> 48 <= b <= 57.
Proof. unfold is_digit, between. intros. bools. lia. Qed.

Lemma digit_value_range ds :
  Forall (fun b => is_digit b = true) ds ->
  0 <= decimal_value ds < 10 ^ Z.of_nat (length ds).
Proof.
  induction ds as [|b ds IH] using rev_ind; intros H; [cbn; lia|].
  apply Forall_app in H as [H1 H2]. inversion H2; subst.
  rewrite decimal_value_snoc, length_app, Nat2Z.inj_add, Z.pow_add_r by lia.
  change (10 ^ Z.of_nat (length [b])) with 10.
  pose proof (digit_range b ltac:(done)). specialize (IH H1). lia.
Qed.

Lemma wrap_small w x : uint w x -> wrap w x = x.
Proof. unfold uint, wrap. intros. by apply Z.mod_small. Qed.

Lemma valid_port_loop_spec v s :
  Forall (fun b => is_digit b = true) s -> 0 <= v <= 65535 ->
  valid_port_loop v s =
    let n := v * 10 ^ Z.of_nat (length s) + decimal_value s in
    if 65535 <? n then None else Some n.
Proof.
  intros Hs; revert v; induction Hs as [|b s Hb Hs IH]; intros v Hv.
  - cbv zeta. replace (v * _ + _) with v by (cbn; lia).
    destruct (Z.ltb_spec 65535 v); [lia | done].
  - apply digit_range in Hb. cbn [valid_port_loop].
    rewrite (wrap_small 32 (v * 10)), (wrap_small 8 (b - 48)), wrap_small by num.
    change (b :: s) with ([b] ++ s).
    rewrite decimal_value_app, length_app. cbn [length].
    rewrite Nat2Z.inj_add, Z.pow_add_r by lia. change (10 ^ Z.of_nat 1) with 10.
    change (decimal_value [b]) with (b - 48).
    pose proof (digit_value_range s Hs) as Hr.
    assert (0 < 10 ^ Z.of_nat (length s)) as Hp by (apply Z.pow_pos_nonneg; lia).
    set (p := 10 ^ Z.of_nat (length s)) in *.
    destruct (Z.ltb_spec 65535 (v * 10 + (b - 48))) as [Hlt|Hge].
    + cbv zeta. destruct (Z.ltb_spec 65535 (v * (10 * p) + ((b - 48) * p + decimal_value s))); [done|].
      exfalso. nia.
    + rewrite IH by lia. cbv zeta. fold p.
      replace ((v * 10 + (b - 48)) * p) with (v * (10 * p) + (b - 48) * p) by ring.
      by rewrite Z.add_assoc.
Qed.

(** [valid_port] accepts exactly the digit strings whose value is a
    non-zero 16-bit number; the [u32] accumulation never wraps because the
    loop leaves at the first prefix above 65535. *)
Theorem valid_port_spec p : valid_port p = true <-> PortText p.
Proof.
  unfold valid_port, PortText.
  destruct (bool_decide_reflect (p = [])) as [->|Hne]; cbn [orb].
  { naive_solver. }
  destruct (forallb is_digit p) eqn:Hd; cbn [negb].
  - apply digits_forallb in Hd. rewrite valid_port_loop_spec by (done || lia).
    cbv zeta. rewrite Z.mul_0_l, Z.add_0_l.
    pose proof (digit_value_range p Hd).
    destruct (Z.ltb_spec 65535 (decimal_value p)); [naive_solver lia|].
    rewrite negb_true_iff, Z.eqb_neq. naive_solver lia.
  - split; [done|]. intros (_ & H & _). apply digits_forallb in H. congruence.
Qed.

Lemma octet_value_spec o :
  Forall (fun b => is_digit b = true) o -> (length o <= 4)%nat -> octet_value o = decimal_value o.
Proof.
  induction o as [|b o IH] using rev_ind; intros H Hl; [done|].
  rewrite length_app in Hl. cbn in Hl.
  apply Forall_app in H as [H1 H2]. inversion H2; subst.
  unfold octet_value. rewrite fold_left_app. fold (octet_value o). cbn [fold_left].
  rewrite IH by (done || lia). rewrite decimal_value_snoc.
  pose proof (digit_value_range o H1) as Hr.
  assert (10 ^ Z.of_nat (length o) <= 10 ^ 3) by (apply Z.pow_le_mono_r; lia).
  change (10 ^ 3) with 1000 in *.
  pose proof (digit_range b ltac:(done)).
  assert (0 <= decimal_value o < 1000) as Hv by lia. clear Hr.
  rewrite (wrap_small 16 (decimal_value o * 10)), (wrap_small 8 (b - 48)), wrap_small by num.
  done.
Qed.

Lemma validate_each_ok {A E} (f : A -> result E unit) l :
  validate_each f l = Ok tt <-> Forall (fun x => f x = Ok tt) l.
Proof.
  induction l as [|x l IH]; cbn [validate_each].
  - naive_solver.
  - rewrite bind_ok_inv, Forall_cons, <- IH. split; [|naive_solver]. by intros ([] & ? & ?).
Qed.

Lemma validate_ipv4_octet_ok o : validate_ipv4_octet o = Ok tt <-> OctetText o.
Proof.
  unfold validate_ipv4_octet, OctetText.
  destruct (bool_decide_reflect (o = [])) as [->|Hne]; cbn [orb].
  { split; [done|]. cbn. lia. }
  assert (1 <= length o)%nat by (destruct o; cbn; [done | lia]).
  destruct (Z.ltb_spec 3 (Z.of_nat (length o))); cbn [orb]; [naive_solver lia|].
  destruct (forallb is_digit o) eqn:Hd; cbn [negb].
  - apply digits_forallb in Hd. rewrite octet_value_spec by (done || lia).
    destruct (Z.ltb_spec 255 (decimal_value o)); naive_solver lia.
  - split; [done|]. intros (_ & H' & _). apply digits_forallb in H'. congruence.
Qed.

Lemma digits_no_sep c s : Forall (fun b => is_digit b = true) s -> is_digit c = false -> c ∉ s.
Proof. rewrite Forall_forall. intros H Hc Hin. apply H in Hin. congruence. Qed.

Lemma validate_ipv4_host_ok h :
  validate_ipv4_host h = Ok tt <->
  exists a b c d, h = join 46 [a; b; c; d] /\
    OctetText a /\ OctetText b /\ OctetText c /\ OctetText d.
Proof.
  unfold validate_ipv4_host. split.
  - destruct (_ || _) eqn:Hb; [done|]. bools.
    intros Hv. apply validate_each_ok in Hv.
    rewrite <- (join_split 46 h).
    destruct (split 46 h) as [|a [|b [|c [|d [|? ?]]]]]; cbn in *; try lia.
    exists a, b, c, d. split; [done|].
    rewrite !Forall_cons, !validate_ipv4_octet_ok in Hv. naive_solver.
  - intros (a & b & c & d & -> & Ha & Hb & Hc & Hd).
    rewrite split_join.
    + assert (a <> []) as Hne by (destruct a; [by destruct Ha as [? _]; cbn in *; lia | done]).
      rewrite bool_decide_eq_false_2 by (destruct a; done).
      change (negb (Z.of_nat (length [a; b; c; d]) =? 4)) with false. cbn [orb].
      apply validate_each_ok. rewrite !Forall_cons, !validate_ipv4_octet_ok.
      split_and!; done.
    + done.
    + rewrite !Forall_cons. split_and!;
        first [by constructor | eapply digits_no_sep; [|done]; unfold OctetText in *; naive_solver].
Qed.

(** ** Host names *)

Lemma validate_https_label_ok l :
  Forall (fun b => host_byte b = true) l -> (46 ∉ l) ->
  validate_https_label l = Ok tt <-> LabelText l.
Proof.
  intros Hb Hdot. unfold validate_https_label, LabelText.
  assert (Forall (fun b => is_alphanumeric b = true \/ b = 45) l) as Hchars.
  { apply Forall_forall. intros b Hin. rewrite Forall_forall in Hb. specialize (Hb b Hin).
    unfold host_byte in Hb. rewrite !orb_true_iff in Hb.
    destruct Hb as [[Hb| ->%Z.eqb_eq]| ->%Z.eqb_eq]; auto. }
  destruct (bool_decide_reflect (l = [])) as [->|Hne]; cbn [orb].
  { split; [done|]. cbn. lia. }
  assert (1 <= length l)%nat by (destruct l; cbn; [done | lia]).
  destruct (Z.ltb_spec 63 (Z.of_nat (length l))); cbn [orb]; [naive_solver lia|].
  destruct (starts_with [45] l) eqn:Hs; cbn [orb].
  { split; [done|]. intros (_ & _ & Hh & _). apply starts_with_spec in Hs as [r ->]. done. }
  destruct (ends_with [45] l) eqn:He.
  { split; [done|]. intros (_ & _ & _ & Hl). apply ends_with_spec in He as [r ->].
    by rewrite last_snoc in Hl. }
  split; [intros _ | done]. repeat split; [lia | lia | done | |].
  - intros Hh. destruct l; [done|]. simplify_eq/=.
  - intros Hl. apply last_Some in Hl as [r ->].
    enough (ends_with [45] (r ++ [45]) = true) by congruence. apply ends_with_spec. eauto.
Qed.

Lemma host_byte_label b : is_alphanumeric b = true \/ b = 45 -> host_byte b = true.
Proof. unfold host_byte. intros [-> | ->]; [done|]. by rewrite !orb_true_r. Qed.

Lemma in_join c b fs : b ∈ join c fs -> b = c \/ exists f, f ∈ fs /\ b ∈ f.
Proof.
  induction fs as [|f fs IH]; [set_solver|].
  destruct fs as [|g fs]; [set_solver|]. cbn [join] in *. set_solver.
Qed.

Lemma in_split_field c b f s : f ∈ split c s -> b ∈ f -> b ∈ s.
Proof.
  rewrite <- (join_split c s) at 2. generalize (split c s). intros fs.
  induction fs as [|g fs IH]; [set_solver|].
  destruct fs as [|h fs]; [set_solver|]. cbn [join] in *. set_solver.
Qed.

Lemma label_no_dot l : LabelText l -> 46 ∉ l.
Proof.
  intros (_ & H & _) Hin. rewrite Forall_forall in H. by destruct (H 46 Hin).
Qed.

Lemma HostText_bytes h : HostText h -> Forall (fun b => host_byte b = true) h.
Proof.
  intros (_ & ls & _ & -> & Hls). apply Forall_forall. intros b Hb.
  apply in_join in Hb as [-> |(f & Hf & Hb)]; [done|].
  rewrite Forall_forall in Hls. destruct (Hls f Hf) as (_ & H & _).
  rewrite Forall_forall in H. by apply host_byte_label, H.
Qed.

Lemma join_head c fs : fs <> [] -> Forall (fun f => f <> []) fs ->
  exists f r, head fs = Some f /\ join c fs = f ++ r /\ f <> [].
Proof.
  intros Hne H. destruct fs as [|f fs]; [done|]. inversion H; subst.
  destruct fs; [exists f, []; by rewrite app_nil_r | exists f; by eexists].
Qed.

Lemma join_last c fs : fs <> [] -> Forall (fun f => f <> []) fs ->
  exists f r, f ∈ fs /\ join c fs = r ++ f /\ f <> [].
Proof.
  intros Hne H. induction H as [|f fs Hf Hfs IH]; [done|].
  destruct fs as [|g fs]; [exists f, []; set_solver|].
  destruct IH as (x & r & Hx & Hr & Hn); [done|].
  exists x, (f ++ c :: r). cbn [join] in *. rewrite Hr, <- app_assoc. set_solver.
Qed.

Lemma validate_https_host_ok h : validate_https_host h = Ok tt <-> HostText h.
Proof.
  unfold validate_https_host. split.
  - destruct (_ || _) eqn:Hb; [done|]. bools. intros Hv. apply validate_each_ok in Hv.
    split; [lia|]. exists (split 46 h). split; [apply split_not_nil|].
    split; [by rewrite join_split|].
    apply Forall_forall. intros l Hl. rewrite Forall_forall in Hv. specialize (Hv l Hl).
    apply validate_https_label_ok; [| |done].
    + apply Forall_forall. intros b Hb. pose proof (in_split_field _ _ _ _ Hl Hb).
      match goal with H : forallb _ _ = true |- _ => rewrite forallb_forall in H; apply H end.
      by apply list_elem_of_In.
    + pose proof (split_fields 46 h) as Hf. rewrite Forall_forall in Hf. by apply Hf.
  - intros Hh. pose proof (HostText_bytes h Hh) as Hbytes.
    destruct Hh as (Hlen & ls & Hne & -> & Hls).
    assert (Forall (fun f : bytes => f <> []) ls) as Hfne.
    { eapply Forall_impl; [exact Hls|]. intros l (? & _) ->. cbn in *; lia. }
    destruct (join_head 46 ls) as (f & r & Hf & Hjoin & Hfn); [done..|].
    destruct (join_last 46 ls) as (g & q & Hg & Hjoin' & Hgn); [done..|].
    rewrite Forall_forall in Hls.
    rewrite bool_decide_eq_false_2 by (rewrite Hjoin; by destruct f).
    destruct (Z.ltb_spec 253 (Z.of_nat (length (join 46 ls)))); [lia|]. cbn [orb].
    destruct (starts_with [46] (join 46 ls)) eqn:Hs.
    { exfalso. apply starts_with_spec in Hs as [s Hs]. rewrite Hjoin in Hs.
      destruct f as [|x f]; [done|]. simplify_eq/=.
      apply head_Some_elem_of in Hf. apply (label_no_dot (46 :: f)); [auto | set_solver]. }
    destruct (ends_with [46] (join 46 ls)) eqn:He.
    { exfalso. apply ends_with_spec in He as [s Hq]. rewrite Hjoin' in Hq.
      destruct g as [|x g _] using rev_ind; [done|]. rewrite app_assoc in Hq.
      apply app_inj_tail in Hq as [_ ->].
      apply (label_no_dot (g ++ [46])); [auto | set_solver]. }
    assert (forallb host_byte (join 46 ls) = true) as ->.
    { apply forallb_forall. intros b Hb. rewrite Forall_forall in Hbytes.
      by apply Hbytes, list_elem_of_In. }
    cbn [orb negb]. rewrite split_join; [|done|].
    + apply validate_each_ok, Forall_forall. intros l Hl. apply validate_https_label_ok.
      * destruct (Hls l Hl) as (_ & Hc & _). eapply Forall_impl; [exact Hc|]. apply host_byte_label.
      * by apply label_no_dot, Hls.
      * by apply Hls.
    + apply Forall_forall. intros l Hl. by apply label_no_dot, Hls.
Qed.

(** ** The URL policy *)

Lemma no_host_colon h : HostText h -> 58 ∉ h.
Proof.
  intros Hh Hin. apply HostText_bytes in Hh. rewrite Forall_forall in Hh.
  by specialize (Hh 58 Hin).
Qed.

Lemma PortText_digits p : PortText p -> forallb is_digit p = true.
Proof. intros (_ & H & _). by apply digits_forallb. Qed.

Definition LocalRest (rest : bytes) : Prop :=
  exists a b c d port path,
    rest = (join 46 [a; b; c; d] ++ 58 :: port) ++ 47 :: path /\
    OctetText a /\ OctetText b /\ OctetText c /\ OctetText d /\ PortText port /\
    path <> [] /\ (35 ∉ path) /\ (63 ∉ path).

(** An address text holds only digits, dots and the port colon. *)
Lemma address_byte a b c d port x :
  OctetText a -> OctetText b -> OctetText c -> OctetText d -> PortText port ->
  x ∈ join 46 [a; b; c; d] ++ 58 :: port -> is_digit x = true \/ x = 46 \/ x = 58.
Proof.
  intros (_ & Ha & _) (_ & Hb & _) (_ & Hc & _) (_ & Hd & _) (_ & Hp & _) Hx.
  rewrite Forall_forall in Ha, Hb, Hc, Hd, Hp. cbn [join] in Hx.
  repeat (rewrite elem_of_app in Hx || rewrite elem_of_cons in Hx). naive_solver.
Qed.

Lemma validate_local_http_url_ok rest :
  validate_local_http_url rest = Ok tt <-> LocalRest rest.
Proof.
  unfold validate_local_http_url, LocalRest. split.
  - destruct (contains 35 rest) eqn:H35; [done|]. destruct (contains 63 rest) eqn:H63; [done|].
    destruct (split_once 47 rest) as [[authority path]|] eqn:Hs; [|done].
    destruct (contains 64 authority); [done|].
    destruct (bool_decide_reflect (path = [])) as [|Hne]; [done|].
    destruct (rsplit_once 58 authority) as [[host port]|] eqn:Hr; [|done].
    destruct (valid_port port) eqn:Hp; cbn [negb]; [|done]. intros Hv.
    apply validate_ipv4_host_ok in Hv as (a & b & c & d & -> & Hv).
    apply split_once_spec in Hs as [-> _]. apply rsplit_once_spec in Hr as [-> _].
    apply valid_port_spec in Hp. apply contains_false in H35, H63.
    exists a, b, c, d, port, path. set_solver.
  - intros (a & b & c & d & port & path & -> & Ha & Hb & Hc & Hd & Hp & Hne & H35 & H63).
    pose proof (fun x => address_byte a b c d port x Ha Hb Hc Hd Hp) as Hbyte.
    set (addr := join 46 [a; b; c; d]) in *. set (auth := addr ++ 58 :: port) in *.
    assert (forall x, is_digit x = false -> x <> 46 -> x <> 58 -> x ∉ auth) as Hno.
    { intros x Hx ? ? Hin. destruct (Hbyte x Hin) as [?|[?|?]]; congruence. }
    assert (forall x, x ∉ auth -> x <> 47 -> x ∉ path -> contains x (auth ++ 47 :: path) = false)
      as Hcont.
    { intros x ? ? ?. apply contains_false. set_solver. }
    rewrite (Hcont 35), (Hcont 63) by (done || apply Hno; done).
    rewrite (proj2 (split_once_spec 47 (auth ++ 47 :: path) auth path)) by (split; [done | by apply Hno]).
    rewrite (proj2 (contains_false 64 auth)) by (by apply Hno).
    rewrite bool_decide_eq_false_2 by done.
    rewrite (proj2 (rsplit_once_spec 58 auth addr port)).
    + rewrite (proj2 (valid_port_spec port) Hp). cbn [negb].
      apply validate_ipv4_host_ok. by exists a, b, c, d.
    + split; [done|]. destruct Hp as (_ & Hp & _). by eapply digits_no_sep.
Qed.

(** the accepted plain-HTTP URLs are exactly
    [http://a.b.c.d:port/path]: a literal IPv4 address whose octets are at most
    255, a port from 1 to 65535, a non-empty path, no user info, query or
    fragment. In particular no plain-HTTP download from a host name is
    possible. *)
Theorem http_policy_spec rest :
  validate_ota_url_policy (lit "http://" ++ rest) = Ok tt <->
  LocalUrl (lit "http://" ++ rest).
Proof.
  unfold validate_ota_url_policy, LocalUrl.
  rewrite (proj2 (strip_prefix_spec (lit "http://") (lit "http://" ++ rest) rest) eq_refl).
  rewrite validate_local_http_url_ok. unfold LocalRest.
  split; intros (a & b & c & d & port & path & H & ?);
    exists a, b, c, d, port, path; [by rewrite H | by apply app_inv_head in H].
Qed.

Lemma https_host_port_spec authority host port :
  https_host_port authority = (host, port) ->
  validate_https_host host = Ok tt ->
  match port with
  | Some p => authority = host ++ 58 :: p
  | None => authority = host
  end.
Proof.
  unfold https_host_port. destruct (rsplit_once 58 authority) as [[h p]|] eqn:Hr.
  - apply rsplit_once_spec in Hr as [-> _]. destruct (forallb is_digit p); naive_solver.
  - naive_solver.
Qed.

Lemma https_host_port_host host : HostText host -> https_host_port host = (host, None).
Proof.
  intros H. unfold https_host_port.
  by rewrite (proj2 (rsplit_once_None 58 host)) by by apply no_host_colon.
Qed.

Lemma https_host_port_port host port :
  PortText port -> https_host_port (host ++ 58 :: port) = (host, Some port).
Proof.
  intros H. unfold https_host_port.
  rewrite (proj2 (rsplit_once_spec 58 (host ++ 58 :: port) host port)).
  - by rewrite PortText_digits.
  - split; [done|]. destruct H as (_ & H & _). by eapply digits_no_sep.
Qed.

Definition HttpsRest (rest : bytes) : Prop :=
  exists host authority path,
    rest = authority ++ 47 :: path /\ HostText host /\
    (authority = host \/ (exists port, authority = host ++ 58 :: port /\ PortText port)) /\
    path <> [] /\ head path <> Some 63 /\ (35 ∉ path).

Lemma starts_with_head c s : starts_with [c] s = true <-> head s = Some c.
Proof.
  rewrite starts_with_spec. split; [by intros [r ->]|].
  destruct s as [|x s]; [done|]. intros [= ->]. by exists s.
Qed.

Lemma validate_https_url_sound rest : validate_https_url rest = Ok tt -> HttpsRest rest.
Proof.
  unfold validate_https_url, HttpsRest.
  destruct (contains 35 rest) eqn:H35; [done|].
  destruct (split_once 47 rest) as [[authority path]|] eqn:Hs; [|done].
  destruct (contains 64 authority); [done|].
  destruct (_ || _) eqn:Hpath; [done|]. bools.
  destruct (https_host_port authority) as [host port] eqn:Hhp. intros Hv.
  assert (validate_https_host host = Ok tt) as Hh.
  { destruct port as [p|]; [|done]. by destruct (valid_port p). }
  pose proof (https_host_port_spec _ _ _ Hhp Hh) as Ha.
  apply split_once_spec in Hs as [-> _]. apply contains_false in H35.
  exists host, authority, path. split; [done|]. split; [by apply validate_https_host_ok|].
  split; [|split; [done|split; [|set_solver]]].
  - destruct port as [p|]; [right | by left]. exists p. split; [done|].
    apply valid_port_spec. by destruct (valid_port p).
  - intros Hp%starts_with_head. congruence.
Qed.

Lemma https_authority_byte host authority x :
  HostText host ->
  (authority = host \/ (exists port, authority = host ++ 58 :: port /\ PortText port)) ->
  x ∈ authority -> host_byte x = true \/ x = 58.
Proof.
  intros Hh%HostText_bytes Ha Hx. rewrite Forall_forall in Hh.
  destruct Ha as [->|(port & -> & _ & Hp & _)]; [auto|].
  rewrite Forall_forall in Hp. rewrite elem_of_app, elem_of_cons in Hx.
  destruct Hx as [?|[?|Hx]]; auto. left. unfold host_byte, is_alphanumeric.
  by rewrite (Hp x Hx).
Qed.

Lemma validate_https_url_complete rest : HttpsRest rest -> validate_https_url rest = Ok tt.
Proof.
  intros (host & authority & path & -> & Hh & Ha & Hne & Hq & H35).
  unfold validate_https_url.
  assert (forall x, host_byte x = false -> x <> 58 -> x ∉ authority) as Hno.
  { intros x ? ? Hin. destruct (https_authority_byte host authority x); congruence. }
  rewrite (proj2 (contains_false 35 _))
    by (rewrite elem_of_app, elem_of_cons; pose proof (Hno 35 eq_refl); naive_solver).
  rewrite (proj2 (split_once_spec 47 (authority ++ 47 :: path) authority path))
    by (split; [done | by apply Hno]).
  rewrite (proj2 (contains_false 64 authority)) by (by apply Hno).
  rewrite bool_decide_eq_false_2 by done.
  destruct (starts_with [63] path) eqn:Hs; [by apply starts_with_head in Hs|]. cbn [orb].
  destruct Ha as [->|(port & -> & Hp)].
  - rewrite https_host_port_host by done. by apply validate_https_host_ok.
  - rewrite https_host_port_port by done. rewrite (proj2 (valid_port_spec port) Hp).
    by apply validate_https_host_ok.
Qed.

(** C38: the accepted HTTPS URLs are exactly [https://host[:port]/path[?query]]
    with a DNS host name (labels of 1 to 63 letters, digits and inner hyphens,
    at most 253 bytes), an optional port from 1 to 65535, a non-empty path and
    no fragment or user info; every other scheme is rejected. *)
Theorem url_policy_spec url :
  validate_ota_url_policy url = Ok tt <-> LocalUrl url \/ HttpsUrl url.
Proof.
  assert (forall r, HttpsUrl (lit "https://" ++ r) <-> validate_https_url r = Ok tt) as Hs.
  { intros r. split.
    - intros (h & a & p & Hu & ?). apply validate_https_url_complete. exists h, a, p.
      by apply app_inv_head in Hu.
    - intros (h & a & p & -> & ?)%validate_https_url_sound. by exists h, a, p. }
  assert (forall r, LocalUrl (lit "http://" ++ r) <-> validate_local_http_url r = Ok tt) as Hl.
  { intros r. rewrite validate_local_http_url_ok.
    split; intros (a & b & c & d & port & path & H & ?);
      exists a, b, c, d, port, path; [by apply app_inv_head in H | by rewrite H]. }
  unfold validate_ota_url_policy.
  destruct (strip_prefix (lit "http://") url) as [r|] eqn:Eh.
  { apply strip_prefix_spec in Eh as ->. rewrite <- Hl. split; [auto|].
    intros [?|(h & a & p & Hu & _)]; [done|]. done. }
  destruct (strip_prefix (lit "https://") url) as [r|] eqn:Es.
  { apply strip_prefix_spec in Es as ->. rewrite <- Hs. split; [auto|].
    intros [(a & b & c & d & port & path & Hu & _)|?]; [|done]. done. }
  split; [done|]. intros [(a & b & c & d & port & path & Hu & _)|(h & a & p & Hu & _)];
    apply strip_prefix_spec in Hu; congruence.
Qed.

(** an image prefix is accepted exactly when it has at least eight bytes:
    magic 0xe9, 1 to 16 segments, a known flash mode, a known frequency nibble
    and size nibble, and a non-zero little-endian entry address. Bytes after
    the eighth are never looked at. *)
Theorem esp_prefix_spec prefix :
  validate_esp_image_prefix prefix = Ok tt <->
  exists segs mode fs e0 e1 e2 e3 rest,
    prefix = 0xe9 :: segs :: mode :: fs :: e0 :: e1 :: e2 :: e3 :: rest /\
    1 <= segs <= 16 /\ 0 <= mode <= 3 /\
    (Z.land fs 15 = 0 \/ Z.land fs 15 = 1 \/ Z.land fs 15 = 2 \/ Z.land fs 15 = 15) /\
    0 <= Z.shiftr fs 4 <= 8 /\ of_le_bytes [e0; e1; e2; e3] <> 0.
Proof.
  split.
  - unfold validate_esp_image_prefix.
    destruct prefix as [|p0 [|p1 [|p2 [|p3 [|p4 [|p5 [|p6 [|p7 rest]]]]]]]]; try done.
    unfold between. repeat case_goal; try done; intros _; bools.
    exists p1, p2, p3, p4, p5, p6, p7, rest. subst.
    repeat match goal with H : existsb _ _ = true |- _ =>
      apply existsb_exists in H as (? & Hin & ->%Z.eqb_eq) end.
    cbn in Hin. split; [done|]. split; [lia|]. split; [lia|]. split; [|done].
    intuition.
  - intros (segs & mode & fs & e0 & e1 & e2 & e3 & rest & -> & H1 & H2 & H3 & H4 & H5).
    unfold validate_esp_image_prefix, between.
    repeat (rewrite (proj2 (Z.leb_le _ _)) by lia). cbn [andb negb Z.eqb Pos.eqb].
    rewrite (proj2 (Z.eqb_neq _ _)) by done.
    by destruct H3 as [->|[->|[->| ->]]].
Qed.
