(* ===== verification/OtaManifest.v ===== *)
(** * OTA manifests: validation, canonical JSON, signature check

    [crates/ota-core/src/lib.rs], the v2 manifest model. The serde_json and
    ed25519-dalek crates are parameters: [SerdeJson] and [Dalek] are their
    interfaces; [SignatureVerifier] is the source's trait of that name. *)
From S2P Require Import Prelude Str.

Definition SCHEMA_VERSION : Z := 2.
Definition TARGET : bytes := lit "motonet-of-things/esp32".
Definition CHIP : bytes := lit "esp32-wroom".
Definition MAX_MANIFEST_BYTES : Z := 1024.
Definition MAX_URL_LEN : Z := 512.
Definition MAX_VERSION_LEN : Z := 32.
Definition MAX_TARGET_LEN : Z := 48.
Definition MAX_CHIP_LEN : Z := 24.
Definition SHA256_HEX_LEN : Z := 64.
Definition ED25519_SIGNATURE_HEX_LEN : Z := 128.
Definition ENC_NONCE_PREFIX_HEX_LEN : Z := 24.
Definition ENC_CHUNK_SIZE : Z := 4096.
Definition ENC_ALG : bytes := lit "AES-256-CTR-HMAC-SHA256".
Definition DEV_TEST_KEY_ID : Z := 1001.
Definition RELEASE_KEY_ID : Z := 1.

Record EncMetadata := {
  alg : bytes;
  enc_key_id : Z;
  chunk_size : Z;
  nonce_prefix : bytes
}.

Record OtaManifest := {
  schema : Z;
  key_id : Z;
  target : bytes;
  chip : bytes;
  version : bytes;
  build : Z;
  force : bool;
  url : bytes;
  download_size : Z;
  image_size : Z;
  image_sha256 : bytes;
  enc : EncMetadata;
  signature : bytes
}.

Inductive ManifestError :=
| Oversized | Malformed | WrongSchema | WrongTarget | WrongChip
| FieldTooLong (field : string)
| InvalidImageSha256 | MissingSignature | SignatureRejected
| InvalidEncAlgorithm | InvalidEncChunkSize | InvalidEncNoncePrefix
| InvalidImageSize | InvalidDownloadSize.

#[export] Instance EncMetadata_eq_dec : EqDecision EncMetadata.
Proof. solve_decision. Defined.
#[export] Instance OtaManifest_eq_dec : EqDecision OtaManifest.
Proof. solve_decision. Defined.
#[export] Instance ManifestError_eq_dec : EqDecision ManifestError.
Proof. solve_decision. Defined.

(** ** Interfaces of the external crates *)

(** serde_json: [from_slice::<OtaManifest>] with its schema errors as [None],
    and [to_string] of a [str]. *)
Class SerdeJson := {
  from_slice : bytes -> option OtaManifest;
  to_string : bytes -> option bytes
}.

(** The JSON text of a string is a self-delimiting literal: a JSON reader
    positioned at its start yields the string and the text after it. *)
Class SerdeJsonLaws (J : SerdeJson) := {
  read_string : bytes -> option (bytes * bytes);
  read_to_string s j rest :
    to_string s = Some j -> read_string (j ++ rest) = Some (s, rest)
}.

(** ed25519-dalek: [VerifyingKey::from_bytes] and [Verifier::verify]. *)
Class Dalek := {
  verifying_key : Type;
  verifying_key_from_bytes : bytes -> option verifying_key;
  dalek_verify : verifying_key -> bytes -> bytes -> bool
}.

(** The source's [trait SignatureVerifier]. *)
Class SignatureVerifier (V : Type) :=
  verify : V -> Z -> bytes -> bytes -> bool.

(** ** Hex decoding *)

Definition hex_nibble_runtime (byte : Z) : result unit Z :=
  if between 48 57 byte then Ok (byte - 48)
  else if between 97 102 byte then Ok (byte - 97 + 10)
  else if between 65 70 byte then Ok (byte - 65 + 10)
  else Err tt.

(** The [chunks_exact(2)] loop; the length test makes the chunks cover
    [value]. *)
Fixpoint hex_pairs (value : bytes) : result unit bytes :=
  match value with
  | c0 :: c1 :: value =>
      h ← hex_nibble_runtime c0;
      l ← hex_nibble_runtime c1;
      rest ← hex_pairs value;
      Ok (Z.lor (wrap 8 (Z.shiftl h 4)) l :: rest)
  | _ => Ok []
  end.

(** [hex_into(value, out)] with [out.len() = n]; the new contents of [out]. *)
Definition hex_into (value : bytes) (n : nat) : result unit bytes :=
  if negb (Nat.eqb (length value) (n * 2)) then Err tt else hex_pairs value.

Definition hex_signature (value : bytes) : result unit bytes :=
  if negb (Z.of_nat (length value) =? ED25519_SIGNATURE_HEX_LEN) then Err tt
  else hex_into value 64.

(** ** The Ed25519 verifier *)

Record Ed25519ManifestVerifier := { trusted_keys : list (Z * bytes) }.

Definition RELEASE_PUBLIC_KEY_BYTES : bytes :=
  [0x8d; 0xfc; 0x99; 0x90; 0x9d; 0xe5; 0x00; 0x6d; 0xfa; 0xd1; 0x53; 0xfa; 0x9f; 0x31; 0x41; 0x81;
   0xc8; 0x10; 0x09; 0x38; 0xf6; 0xf5; 0xc0; 0xf5; 0xfc; 0xa5; 0x4c; 0x8b; 0x1e; 0x87; 0x09; 0x7d].
Definition DEV_TEST_PUBLIC_KEY_BYTES : bytes :=
  [0x8a; 0x88; 0xe3; 0xdd; 0x74; 0x09; 0xf1; 0x95; 0xfd; 0x52; 0xdb; 0x2d; 0x3c; 0xba; 0x5d; 0x72;
   0xca; 0x67; 0x09; 0xbf; 0x1d; 0x94; 0x12; 0x1b; 0xf3; 0x74; 0x88; 0x01; 0xb4; 0x0f; 0x6f; 0x5c].
Definition DEV_TEST_PUBLIC_KEY_HEX : bytes :=
  lit "8a88e3dd7409f195fd52db2d3cba5d72ca6709bf1d94121bf3748801b40f6f5c".

Definition dev_ota : Ed25519ManifestVerifier :=
  {| trusted_keys := [(DEV_TEST_KEY_ID, DEV_TEST_PUBLIC_KEY_BYTES)] |}.
Definition dev_test : Ed25519ManifestVerifier := dev_ota.
Definition release_ota : Ed25519ManifestVerifier :=
  {| trusted_keys := [(RELEASE_KEY_ID, RELEASE_PUBLIC_KEY_BYTES)] |}.

#[export] Instance ed25519_verify `{Dalek} : SignatureVerifier Ed25519ManifestVerifier :=
  fun self key_id canonical_manifest signature =>
    match List.find (fun k => k.1 =? key_id) (trusted_keys self) with
    | None => false
    | Some (_, public_key) =>
        match hex_signature signature with
        | Err _ => false
        | Ok signature_bytes =>
            match verifying_key_from_bytes public_key with
            | None => false
            | Some vk => dalek_verify vk canonical_manifest signature_bytes
            end
        end
    end.

(** ** Validation *)

Definition validate_len (field : string) (value : bytes) (max : Z) : result ManifestError unit :=
  if max <? Z.of_nat (length value) then Err (FieldTooLong field) else Ok tt.

(** [download_size = 16 (header) + image_size + 36 per chunk], in [u64]. *)
Definition expected_download (image_size : Z) : Z :=
  let num_chunks := div_ceil image_size ENC_CHUNK_SIZE in
  wrap 64 (wrap 64 (16 + image_size) + wrap 64 (num_chunks * 36)).

Definition validate (m : OtaManifest) : result ManifestError unit :=
  guard_ok (schema m =? SCHEMA_VERSION) WrongSchema;;
  guard_ok (bool_decide (target m = TARGET)) WrongTarget;;
  guard_ok (bool_decide (chip m = CHIP)) WrongChip;;
  validate_len "target" (target m) MAX_TARGET_LEN;;
  validate_len "chip" (chip m) MAX_CHIP_LEN;;
  validate_len "version" (version m) MAX_VERSION_LEN;;
  validate_len "url" (url m) MAX_URL_LEN;;
  guard_ok ((Z.of_nat (length (image_sha256 m)) =? SHA256_HEX_LEN)
            && forallb is_hexdigit (image_sha256 m)) InvalidImageSha256;;
  guard_ok (negb (bool_decide (signature m = []))) MissingSignature;;
  guard_ok ((Z.of_nat (length (signature m)) =? ED25519_SIGNATURE_HEX_LEN)
            && forallb is_hexdigit (signature m)) SignatureRejected;;
  guard_ok (bool_decide (alg (enc m) = ENC_ALG)) InvalidEncAlgorithm;;
  guard_ok (chunk_size (enc m) =? ENC_CHUNK_SIZE) InvalidEncChunkSize;;
  guard_ok ((Z.of_nat (length (nonce_prefix (enc m))) =? ENC_NONCE_PREFIX_HEX_LEN)
            && forallb is_hexdigit (nonce_prefix (enc m))) InvalidEncNoncePrefix;;
  guard_ok (negb (image_size m =? 0)) InvalidImageSize;;
  guard_ok (download_size m =? expected_download (image_size m)) InvalidDownloadSize.

(** ** Canonical JSON *)

Section Json.
Context `{J : SerdeJson}.

Definition json_string (value : bytes) : result ManifestError bytes :=
  ok_or (to_string value) Malformed.

Definition show_bool (b : bool) : bytes := if b then lit "true" else lit "false".

Definition canonical_enc_json (enc : EncMetadata) : result ManifestError bytes :=
  alg_json ← json_string (alg enc);
  nonce_json ← json_string (nonce_prefix enc);
  Ok (qlit "{'alg':" ++ alg_json ++ qlit ",'key_id':" ++ dec (enc_key_id enc)
      ++ qlit ",'chunk_size':" ++ dec (chunk_size enc)
      ++ qlit ",'nonce_prefix':" ++ nonce_json ++ lit "}").

(** The common fields, up to and including [enc]: the two [format!] templates
    of the source agree on them. *)
Definition canonical_fields (m : OtaManifest) : result ManifestError bytes :=
  target_json ← json_string (target m);
  chip_json ← json_string (chip m);
  version_json ← json_string (version m);
  url_json ← json_string (url m);
  sha_json ← json_string (image_sha256 m);
  enc_json ← canonical_enc_json (enc m);
  Ok (qlit "{'schema':" ++ dec (schema m) ++ qlit ",'key_id':" ++ dec (key_id m)
      ++ qlit ",'target':" ++ target_json ++ qlit ",'chip':" ++ chip_json
      ++ qlit ",'version':" ++ version_json ++ qlit ",'build':" ++ dec (build m)
      ++ qlit ",'force':" ++ show_bool (force m) ++ qlit ",'url':" ++ url_json
      ++ qlit ",'download_size':" ++ dec (download_size m)
      ++ qlit ",'image_size':" ++ dec (image_size m)
      ++ qlit ",'image_sha256':" ++ sha_json ++ qlit ",'enc':" ++ enc_json).

Definition canonical_unsigned_json (m : OtaManifest) : result ManifestError bytes :=
  fields ← canonical_fields m;
  Ok (fields ++ lit "}").

Definition canonical_signed_json (m : OtaManifest) : result ManifestError bytes :=
  fields ← canonical_fields m;
  signature_json ← json_string (signature m);
  Ok (fields ++ qlit ",'signature':" ++ signature_json ++ lit "}").

(** ** Parsing and verification *)

Definition parse (text : bytes) : result ManifestError OtaManifest :=
  if MAX_MANIFEST_BYTES <? Z.of_nat (length text) then Err Oversized
  else
    manifest ← ok_or (from_slice text) Malformed;
    validate manifest;;
    Ok manifest.

Definition parse_and_verify {V} `{SignatureVerifier V} (text : bytes) (verifier : V)
  : result ManifestError OtaManifest :=
  manifest ← parse text;
  canonical ← canonical_unsigned_json manifest;
  if verify verifier (key_id manifest) canonical (signature manifest)
  then Ok manifest
  else Err SignatureRejected.

End Json.

(** ** Specifications *)

(** The ranges the Rust field types guarantee. *)
Record ManifestTyped (m : OtaManifest) : Prop := {
  typed_schema : u8 (schema m);
  typed_key_id : u32 (key_id m);
  typed_build : u32 (build m);
  typed_download_size : u32 (download_size m);
  typed_image_size : u32 (image_size m);
  typed_enc_key_id : u32 (enc_key_id (enc m));
  typed_chunk_size : u32 (chunk_size (enc m))
}.

Definition HexText (n : Z) (s : bytes) : Prop :=
  Z.of_nat (length s) = n /\ Forall (fun b => is_hexdigit b = true) s.

(** What a validated manifest promises the downloader. *)
Record ManifestValid (m : OtaManifest) : Prop := {
  valid_schema : schema m = 2;
  valid_target : target m = TARGET;
  valid_chip : chip m = CHIP;
  valid_version : Z.of_nat (length (version m)) <= 32;
  valid_url : Z.of_nat (length (url m)) <= 512;
  valid_sha : HexText 64 (image_sha256 m);
  valid_signature : HexText 128 (signature m);
  valid_alg : alg (enc m) = ENC_ALG;
  valid_chunk_size : chunk_size (enc m) = 4096;
  valid_nonce : HexText 24 (nonce_prefix (enc m));
  valid_image_size : image_size m <> 0;
  valid_download_size :
    download_size m = 16 + image_size m + 36 * div_ceil (image_size m) 4096
}.

Lemma hex_text_test n s :
  (Z.of_nat (length s) =? n) && forallb is_hexdigit s = true <-> HexText n s.
Proof.
  unfold HexText. rewrite andb_true_iff, Z.eqb_eq, forallb_forall, Forall_forall.
  by setoid_rewrite list_elem_of_In.
Qed.

Lemma expected_download_exact n :
  u32 n -> expected_download n = 16 + n + 36 * div_ceil n 4096.
Proof.
  intros Hn. unfold expected_download, div_ceil, ENC_CHUNK_SIZE, wrap.
  assert (0 <= (n + 4096 - 1) / 4096 < 1048577).
  { split; [apply Z.div_pos; num | apply Z.div_lt_upper_bound; num]. }
  set (q := (n + 4096 - 1) / 4096) in *. clearbody q.
  rewrite (Z.mod_small (16 + n)), (Z.mod_small (q * 36)), Z.mod_small by num. lia.
Qed.

Lemma validate_len_ok f v mx : validate_len f v mx = Ok tt <-> Z.of_nat (length v) <= mx.
Proof.
  unfold validate_len. destruct (Z.ltb_spec mx (Z.of_nat (length v))); split; try done; lia.
Qed.

Lemma bind_unit_ok {E} (r s : result E unit) :
  (r;; s) = Ok tt <-> r = Ok tt /\ s = Ok tt.
Proof. destruct r as [[]|]; cbn; naive_solver. Qed.

Lemma guard_ok_true {E} b (e : E) : guard_ok b e = Ok tt <-> b = true.
Proof. by destruct b. Qed.

Lemma result_unit {E} (r : result E unit) u : r = Ok u <-> r = Ok tt.
Proof. by destruct u. Qed.

(** [validate] accepts exactly the manifests with the device's schema,
    target and chip, bounded text fields, well-shaped hash, signature and
    encryption metadata, a non-empty image and the download size the stream
    format implies. The [u64] size computation cannot overflow. *)
Theorem validate_spec m :
  ManifestTyped m -> validate m = Ok tt <-> ManifestValid m.
Proof.
  intros Ht. unfold validate.
  rewrite !bind_unit_ok, !guard_ok_true, !validate_len_ok, !hex_text_test.
  rewrite !bool_decide_eq_true, !negb_true_iff, !bool_decide_eq_false, !Z.eqb_eq, Z.eqb_neq.
  rewrite expected_download_exact by apply Ht.
  split.
  - intros H. decompose [and] H. by constructor.
  - intros []. split_and!; try done.
    + by replace (target m) with TARGET.
    + by replace (chip m) with CHIP.
    + intros Hs. destruct valid_signature0 as [Hl _]. by rewrite Hs in Hl.
Qed.

(** ** Hex decoding *)

Definition hex_digit (n : Z) : Z := if n <? 10 then 48 + n else 87 + n.
Definition hex_encode (l : bytes) : bytes :=
  b ← l; [hex_digit (Z.shiftr b 4); hex_digit (Z.land b 15)].

Lemma hex_byte_roundtrip b :
  u8 b ->
  hex_nibble_runtime (hex_digit (Z.shiftr b 4)) = Ok (Z.shiftr b 4) /\
  hex_nibble_runtime (hex_digit (Z.land b 15)) = Ok (Z.land b 15) /\
  Z.lor (wrap 8 (Z.shiftl (Z.shiftr b 4) 4)) (Z.land b 15) = b.
Proof.
  intros Hb.
  pose proof (forall_u8 (fun b =>
    bool_decide (hex_nibble_runtime (hex_digit (Z.shiftr b 4)) = Ok (Z.shiftr b 4) /\
      hex_nibble_runtime (hex_digit (Z.land b 15)) = Ok (Z.land b 15) /\
      Z.lor (wrap 8 (Z.shiftl (Z.shiftr b 4) 4)) (Z.land b 15) = b))) as H.
  specialize (H ltac:(vm_compute; reflexivity) b Hb).
  by apply bool_decide_eq_true in H.
Qed.

Lemma length_hex_encode l : length (hex_encode l) = (length l * 2)%nat.
Proof. unfold hex_encode. induction l; cbn in *; lia. Qed.

(** decoding undoes the lowercase hex encoding the packing tools and
    [sha256_hex] write. *)
Theorem hex_roundtrip l : is_bytes l -> hex_into (hex_encode l) (length l) = Ok l.
Proof.
  intros Hl. unfold hex_into. rewrite length_hex_encode, Nat.eqb_refl. cbn [negb].
  induction Hl as [|b l Hb Hl IH]; [done|].
  destruct (hex_byte_roundtrip b Hb) as (H1 & H2 & H3).
  unfold hex_encode in *. cbn [mbind list_bind app hex_pairs].
  rewrite H1, H2. cbn. cbn in IH. rewrite IH. cbn. by rewrite H3.
Qed.

(** ** Canonical JSON is unambiguous *)

(** Splits a list equation between two texts built from the same template. *)
Ltac same_lit H := apply app_inv_head in H.

Section Canonical.
Context `{J : SerdeJson} `{L : !SerdeJsonLaws J}.

Lemma json_string_inj s1 s2 j1 j2 r1 r2 :
  json_string s1 = Ok j1 -> json_string s2 = Ok j2 ->
  j1 ++ r1 = j2 ++ r2 -> s1 = s2 /\ r1 = r2.
Proof.
  unfold json_string, ok_or.
  destruct (to_string s1) as [t1|] eqn:E1; [|done].
  destruct (to_string s2) as [t2|] eqn:E2; [|done].
  intros [= <-] [= <-] H.
  pose proof (read_to_string _ _ r1 E1) as R1.
  pose proof (read_to_string _ _ r2 E2) as R2.
  rewrite H in R1. rewrite R1 in R2. by simplify_eq.
Qed.

Lemma qlit_nondigit s c r b t :
  qlit (String c s) ++ r = b :: t ->
  is_digit (if byte_char c =? 39 then 34 else byte_char c) = false -> is_digit b = false.
Proof. cbn. intros [= <- _]. done. Qed.

Lemma show_bool_inj b1 b2 r1 r2 :
  show_bool b1 ++ r1 = show_bool b2 ++ r2 -> b1 = b2 /\ r1 = r2.
Proof. destruct b1, b2; cbn; intros; simplify_eq; done. Qed.

(** Reads one number off the front of two equal texts. *)
Lemma dec_field_inj n m c s r1 r2 :
  0 <= n < 10 ^ 20 -> 0 <= m < 10 ^ 20 ->
  is_digit (if byte_char c =? 39 then 34 else byte_char c) = false ->
  dec n ++ qlit (String c s) ++ r1 = dec m ++ qlit (String c s) ++ r2 ->
  n = m /\ r1 = r2.
Proof.
  intros Hn Hm Hc H. apply dec_inj in H as [-> H]; try done.
  - split; [done|]. by apply app_inv_head in H.
  - intros b t Hb. by eapply qlit_nondigit.
  - intros b t Hb. by eapply qlit_nondigit.
Qed.

Lemma json_field_inj s1 s2 j1 j2 q r1 r2 :
  json_string s1 = Ok j1 -> json_string s2 = Ok j2 ->
  j1 ++ qlit q ++ r1 = j2 ++ qlit q ++ r2 -> s1 = s2 /\ r1 = r2.
Proof.
  intros E1 E2 H. destruct (json_string_inj _ _ _ _ _ _ E1 E2 H) as [-> H'].
  split; [done|]. by apply app_inv_head in H'.
Qed.

Lemma canonical_enc_json_inj e1 e2 j1 j2 r1 r2 :
  u32 (enc_key_id e1) -> u32 (enc_key_id e2) ->
  u32 (chunk_size e1) -> u32 (chunk_size e2) ->
  canonical_enc_json e1 = Ok j1 -> canonical_enc_json e2 = Ok j2 ->
  j1 ++ r1 = j2 ++ r2 -> e1 = e2 /\ r1 = r2.
Proof.
  unfold canonical_enc_json. intros Hk1 Hk2 Hc1 Hc2 H1 H2 H.
  ok_steps H1. ok_steps H2. apply ok_inj in H1 as <-. apply ok_inj in H2 as <-.
  rewrite <- !app_assoc in H. same_lit H.
  eapply json_field_inj in H as [Ha H]; [|eassumption..].
  eapply dec_field_inj in H as [Hk H]; [|num|num|done].
  eapply dec_field_inj in H as [Hc H]; [|num|num|done].
  eapply json_string_inj in H as [Hn H]; [|eassumption..].
  same_lit H. split; [|done]. destruct e1, e2; cbn in *; congruence.
Qed.

Definition unsigned_part (m : OtaManifest) : OtaManifest :=
  {| schema := schema m; key_id := key_id m; target := target m; chip := chip m;
     version := version m; build := build m; force := force m; url := url m;
     download_size := download_size m; image_size := image_size m;
     image_sha256 := image_sha256 m; enc := enc m; signature := [] |}.

Lemma canonical_fields_inj m1 m2 j1 j2 r1 r2 :
  ManifestTyped m1 -> ManifestTyped m2 ->
  canonical_fields m1 = Ok j1 -> canonical_fields m2 = Ok j2 ->
  j1 ++ r1 = j2 ++ r2 -> unsigned_part m1 = unsigned_part m2 /\ r1 = r2.
Proof.
  unfold canonical_fields. intros [] [] H1 H2 H.
  ok_steps H1. ok_steps H2. apply ok_inj in H1 as <-. apply ok_inj in H2 as <-.
  rewrite <- !app_assoc in H. same_lit H.
  eapply dec_field_inj in H as [Hs H]; [|num|num|done].
  eapply dec_field_inj in H as [Hk H]; [|num|num|done].
  eapply json_field_inj in H as [Ht H]; [|eassumption..].
  eapply json_field_inj in H as [Hc H]; [|eassumption..].
  eapply json_field_inj in H as [Hv H]; [|eassumption..].
  eapply dec_field_inj in H as [Hb H]; [|num|num|done].
  apply show_bool_inj in H as [Hf H]. same_lit H.
  eapply json_field_inj in H as [Hu H]; [|eassumption..].
  eapply dec_field_inj in H as [Hd H]; [|num|num|done].
  eapply dec_field_inj in H as [Hi H]; [|num|num|done].
  eapply json_field_inj in H as [Hsha H]; [|eassumption..].
  apply (canonical_enc_json_inj (enc m1) (enc m2)) in H as [He H]; [|done..].
  split; [|done]. unfold unsigned_part. by rewrite Hs, Hk, Ht, Hc, Hv, Hb, Hf, Hu, Hd, Hi, Hsha, He.
Qed.

(** the signed bytes determine the manifest. Two manifests with the same
    canonical unsigned JSON agree on every field except the signature, so a
    signature covers version, build, URL, sizes, hash and encryption metadata
    without ambiguity. *)
Theorem canonical_unsigned_json_inj m1 m2 c :
  ManifestTyped m1 -> ManifestTyped m2 ->
  canonical_unsigned_json m1 = Ok c -> canonical_unsigned_json m2 = Ok c ->
  unsigned_part m1 = unsigned_part m2.
Proof.
  unfold canonical_unsigned_json. intros T1 T2 H1 H2.
  ok_steps H1. ok_steps H2. apply ok_inj in H1 as <-. apply ok_inj in H2 as H.
  symmetry in H.
  by eapply canonical_fields_inj in H as [H _].
Qed.

(** the signed form is the unsigned form with the [signature] member
    inserted before the closing brace, as its last member. *)
Theorem canonical_signed_extends_unsigned m s :
  canonical_signed_json m = Ok s ->
  exists body sig,
    canonical_unsigned_json m = Ok (body ++ lit "}") /\
    json_string (signature m) = Ok sig /\
    s = body ++ qlit ",'signature':" ++ sig ++ lit "}".
Proof.
  unfold canonical_signed_json, canonical_unsigned_json. intros H. ok_steps H.
  apply ok_inj in H as <-. exists j, j0. by rewrite E, E0.
Qed.

(** C2: [parse_and_verify] returns a manifest only when the text is at most
    1024 bytes, deserialises to it, the manifest is valid, and the verifier
    accepts the signature over its canonical unsigned JSON under its key id;
    and in that case it returns that manifest. *)
Theorem parse_and_verify_spec {V} `{SignatureVerifier V} text (v : V) m :
  (forall m', from_slice text = Some m' -> ManifestTyped m') ->
  parse_and_verify text v = Ok m <->
  Z.of_nat (length text) <= 1024 /\ from_slice text = Some m /\ ManifestValid m /\
  exists canonical, canonical_unsigned_json m = Ok canonical /\
    verify v (key_id m) canonical (signature m) = true.
Proof.
  intros Ht. unfold parse_and_verify, parse, MAX_MANIFEST_BYTES.
  destruct (Z.ltb_spec 1024 (Z.of_nat (length text))) as [Hl|Hl]; [split; [done|lia]|].
  destruct (from_slice text) as [m'|] eqn:E; [|naive_solver].
  specialize (Ht m' eq_refl). pose proof (validate_spec m' Ht) as Hv.
  cbn. destruct (validate m') as [[]|e] eqn:Ev; cbn.
  - rewrite bind_ok_inv. split.
    + intros (c & Hc & Hs). case_hyp Hs; [|done]. apply ok_inj in Hs as <-.
      split_and!; [done | done | by apply Hv | by exists c].
    + intros (_ & [= <-] & _ & c & Hc & Hs). exists c. by rewrite Hs.
  - split; [done|]. intros (_ & [= ->] & Hm & _). apply Hv in Hm. congruence.
Qed.

End Canonical.

(** ** The Ed25519 verifier *)

Lemma hex_into_length v n b : hex_into v n = Ok b -> length b = n.
Proof.
  unfold hex_into. destruct (Nat.eqb_spec (length v) (n * 2)) as [Hs|]; cbn [negb]; [|done].
  revert v b Hs. induction n as [|n IH]; intros v b Hs.
  - destruct v; [|done]. by intros [= <-].
  - destruct v as [|c0 [|c1 v]]; try done. cbn [hex_pairs]. intros Hb. ok_steps Hb.
    apply ok_inj in Hb as <-. cbn. f_equal. eapply IH; [|done]. cbn in Hs. lia.
Qed.

(** the Ed25519 verifier accepts only under a key whose id the device
    trusts, and only when dalek accepts the decoded 64-byte signature under
    the first trusted key with that id. *)
Theorem ed25519_verify_spec `{Dalek} (self : Ed25519ManifestVerifier) kid msg sig :
  verify self kid msg sig = true <->
  exists pk vk sig_bytes,
    List.find (fun k => k.1 =? kid) (trusted_keys self) = Some (kid, pk) /\
    verifying_key_from_bytes pk = Some vk /\
    hex_signature sig = Ok sig_bytes /\ length sig_bytes = 64%nat /\
    dalek_verify vk msg sig_bytes = true.
Proof.
  unfold verify, ed25519_verify.
  destruct (List.find _ _) as [[k pk]|] eqn:Ef; [|naive_solver].
  apply find_some in Ef as Hk. destruct Hk as [_ Hk%Z.eqb_eq]. cbn in Hk. subst k.
  destruct (hex_signature sig) as [b|] eqn:Eh; [|naive_solver].
  pose proof Eh as Eh'. unfold hex_signature in Eh'. case_hyp Eh'; [done|].
  pose proof (hex_into_length _ _ _ Eh') as Hlen.
  destruct (verifying_key_from_bytes pk) as [vk|] eqn:Ek; naive_solver.
Qed.

Example dev_key_matches_hex :
  hex_into DEV_TEST_PUBLIC_KEY_HEX 32 = Ok DEV_TEST_PUBLIC_KEY_BYTES.
Proof. vm_compute. reflexivity. Qed.

(** ** A concrete serialiser, and the theorems at the test suite's manifest *)

Module Sample.

(** A JSON string writer escaping quote and backslash, with its reader. *)
Fixpoint escape (s : bytes) : bytes :=
  match s with
  | [] => [34]
  | b :: s => if (b =? 34) || (b =? 92) then 92 :: b :: escape s else b :: escape s
  end.
Fixpoint unescape (s : bytes) : option (bytes * bytes) :=
  match s with
  | [] => None
  | b :: s =>
      if b =? 34 then Some ([], s)
      else if b =? 92 then
        match s with
        | c :: s => match unescape s with Some (v, r) => Some (c :: v, r) | None => None end
        | [] => None
        end
      else match unescape s with Some (v, r) => Some (b :: v, r) | None => None end
  end.

Definition manifest : OtaManifest :=
  {| schema := 2; key_id := 1001; target := TARGET; chip := CHIP;
     version := lit "0.2.0"; build := 42; force := false;
     url := lit "http://192.168.1.10:8000/firmware.bin";
     download_size := 1057808; image_size := 1048576;
     image_sha256 := lit "0123456789abcdef0123456789abcdef0123456789abcdef0123456789abcdef";
     enc := {| alg := ENC_ALG; enc_key_id := 1001; chunk_size := 4096;
               nonce_prefix := lit "abcdef0123456789abcdef01" |};
     signature := hex_encode (replicate 64 0) |}.

(** The reader knows the one document the examples use. *)
Definition document : bytes := lit "sample".

#[export] Instance sample_json : SerdeJson := {|
  from_slice := fun text => if bool_decide (text = document) then Some manifest else None;
  to_string := fun s => Some (34 :: escape s)
|}.

Lemma unescape_escape s rest : unescape (escape s ++ rest) = Some (s, rest).
Proof.
  induction s as [|b s IH]; [done|]. cbn [escape].
  destruct ((b =? 34) || (b =? 92)) eqn:E; cbn [app unescape].
  - by rewrite IH.
  - apply orb_false_iff in E as [-> ->]. by rewrite IH.
Qed.

#[export] Instance sample_json_laws : SerdeJsonLaws sample_json.
Proof.
  refine {| read_string := fun t => match t with _ :: t => unescape t | [] => None end |}.
  intros s j rest [= <-]. cbn. apply unescape_escape.
Defined.

(** A verifier that accepts the all-zero signature under key 1001. *)
#[export] Instance zero_verifier : SignatureVerifier unit :=
  fun _ kid _ sig => (kid =? 1001) && bool_decide (sig = hex_encode (replicate 64 0)).

Lemma manifest_typed : ManifestTyped manifest.
Proof. split; by apply (bool_decide_eq_true_1 _). Defined.

(** The canonical text the Rust test suite pins down. *)
Example canonical_text :
  canonical_unsigned_json manifest = Ok (qlit
    "{'schema':2,'key_id':1001,'target':'motonet-of-things/esp32','chip':'esp32-wroom','version':'0.2.0','build':42,'force':false,'url':'http://192.168.1.10:8000/firmware.bin','download_size':1057808,'image_size':1048576,'image_sha256':'0123456789abcdef0123456789abcdef0123456789abcdef0123456789abcdef','enc':{'alg':'AES-256-CTR-HMAC-SHA256','key_id':1001,'chunk_size':4096,'nonce_prefix':'abcdef0123456789abcdef01'}}").
Proof. vm_compute. reflexivity. Qed.

Lemma validate_spec_witness : validate manifest = Ok tt /\ ManifestValid manifest.
Proof.
  assert (validate manifest = Ok tt) as H by (vm_compute; reflexivity).
  split; [exact H|]. apply (proj1 (validate_spec manifest manifest_typed)). exact H.
Defined.

Lemma canonical_unsigned_json_inj_witness :
  exists m c, canonical_unsigned_json manifest = Ok c /\ canonical_unsigned_json m = Ok c /\
    signature m <> signature manifest /\ unsigned_part m = unsigned_part manifest.
Proof.
  pose (m := {| schema := schema manifest; key_id := key_id manifest;
    target := target manifest; chip := chip manifest; version := version manifest;
    build := build manifest; force := force manifest; url := url manifest;
    download_size := download_size manifest; image_size := image_size manifest;
    image_sha256 := image_sha256 manifest; enc := enc manifest; signature := lit "00" |}).
  exists m. eexists. split; [vm_compute; reflexivity|]. split; [vm_compute; reflexivity|].
  split; [discriminate|].
  eapply (canonical_unsigned_json_inj m manifest).
  - split; by apply (bool_decide_eq_true_1 _).
  - apply manifest_typed.
  - vm_compute. reflexivity.
  - vm_compute. reflexivity.
Defined.

Lemma canonical_signed_extends_unsigned_witness :
  exists s body sig, canonical_signed_json manifest = Ok s /\
    canonical_unsigned_json manifest = Ok (body ++ lit "}") /\
    json_string (signature manifest) = Ok sig /\
    s = body ++ qlit ",'signature':" ++ sig ++ lit "}".
Proof.
  assert (exists s, canonical_signed_json manifest = Ok s) as [s Hs]
    by (eexists; vm_compute; reflexivity).
  destruct (canonical_signed_extends_unsigned manifest s Hs) as (body & sig & H).
  exists s, body, sig. split; [exact Hs | exact H].
Defined.

Lemma parse_and_verify_spec_witness :
  parse_and_verify document tt = Ok manifest /\ ManifestValid manifest.
Proof.
  assert (parse_and_verify document tt = Ok manifest) as H by (vm_compute; reflexivity).
  split; [exact H|].
  assert (forall m', from_slice document = Some m' -> ManifestTyped m') as Ht.
  { intros m' Hm. cbn in Hm. injection Hm as <-. apply manifest_typed. }
  apply (proj1 (parse_and_verify_spec document tt manifest Ht)) in H. apply H.
Defined.

Lemma hex_roundtrip_witness : hex_into (lit "00ff7a") 3 = Ok [0; 255; 122].
Proof.
  apply (hex_roundtrip [0; 255; 122]).
  repeat constructor; by apply (bool_decide_eq_true_1 _).
Defined.

End Sample.
