(* ===== verification/OtaCrypto.v ===== *)
(** * Cryptography of the encrypted OTA stream

    [firmware/src/ota/encrypted.rs]: key derivation, HMAC-SHA256, the chunk
    tag, AES-256-CTR, and the parsing of the nonce prefix and the stream
    header. SHA-256 (the [sha2] crate and the SHA peripheral) and the AES
    peripheral in counter mode are interfaces; a hasher is the bytes it has
    absorbed. *)
From S2P Require Import Prelude OtaManifest.

(** ** Interfaces *)

Class Sha256 := { sha256 : bytes -> bytes }.
Class Sha256Laws `{Sha256} := {
  sha256_length m : length (sha256 m) = 32%nat;
  sha256_bytes m : is_bytes (sha256 m)
}.

(** [AesContext::new(Ctr::new(nonce), Encrypt, key).process_in_place(data)]. *)
Class AesCtr := { ctr_process : bytes -> bytes -> bytes -> bytes }.

(** Counter mode: block [j] of the data is masked with the cipher's image of
    the big-endian counter [nonce + j]. *)
Class AesCtrLaws `{AesCtr} := {
  aes_block : bytes -> bytes -> bytes;
  aes_block_length k b : length (aes_block k b) = 16%nat;
  ctr_process_length k n d : length (ctr_process k n d) = length d;
  ctr_process_lookup k n d i b :
    d !! i = Some b ->
    ctr_process k n d !! i =
      Some (Z.lxor b (nth (i mod 16)
        (aes_block k (be_bytes 16 ((of_be_bytes n + Z.of_nat (i / 16)) mod 2 ^ 128))) 0))
}.

Section Encrypted.
Context `{Sha256} `{AesCtr}.

Definition USE_HARDWARE_SHA : bool := true.
Definition SHA256_OUTPUT_SIZE : nat := 32.
Definition AES_KEY_SIZE : nat := 32.
Definition HMAC_KEY_SIZE : nat := 32.
Definition HMAC_BLOCK_SIZE : nat := 64.
Definition IPAD : Z := 0x36.
Definition OPAD : Z := 0x5C.
Definition CHUNK_HMAC_CONTEXT : bytes := lit "MOTONET-OTA-CHUNK-v2".
Definition AES_KEY_INFO : bytes := lit "motonet-ota aes-256-ctr key v1".
Definition HMAC_KEY_INFO : bytes := lit "motonet-ota hmac-sha256 key v1".
Definition OTA_HEADER_MAGIC : bytes := lit "MOTOTA2" ++ [0].
Definition OTA_V2_HEADER_VERSION : Z := 2.
Definition OTA_V2_HEADER_SIZE : nat := 16.
Definition HMAC_TAG_SIZE : nat := SHA256_OUTPUT_SIZE.
Definition CHUNK_WIRE_OVERHEAD : nat := 4 + HMAC_TAG_SIZE.

(** *** SHA-256 over parts *)

Definition hw_sha256_prefixed_parts (prefix : bytes) (parts : list bytes) : bytes :=
  let ctx := if bool_decide (prefix = []) then [] else prefix in
  let ctx := fold_left (fun ctx part => ctx ++ part) parts ctx in
  sha256 ctx.
Definition hw_sha256_parts (parts : list bytes) : bytes := hw_sha256_prefixed_parts [] parts.
Definition sw_sha256_parts (parts : list bytes) : bytes :=
  sha256 (fold_left (fun hasher part => hasher ++ part) parts []).

(** *** HMAC-SHA256 and key derivation *)

(** The [for i in 0..HMAC_KEY_SIZE] loop xors the key into a pad. *)
Definition xor_pad (pad : Z) (key : bytes) : bytes :=
  fold_left (fun k i => alter (fun b => Z.lxor b (nth i key 0)) i k)
    (seq 0 HMAC_KEY_SIZE) (replicate HMAC_BLOCK_SIZE pad).

Definition hmac_sha256_raw (key : bytes) (parts : list bytes) : bytes :=
  let k_inner := xor_pad IPAD key in
  let k_outer := xor_pad OPAD key in
  let inner :=
    if USE_HARDWARE_SHA then hw_sha256_prefixed_parts k_inner parts
    else sha256 (fold_left (fun hasher part => hasher ++ part) parts k_inner) in
  if USE_HARDWARE_SHA then hw_sha256_parts [k_outer; inner]
  else sha256 (k_outer ++ inner).

Definition hkdf_expand (prk info : bytes) (key_id : Z) : bytes :=
  hmac_sha256_raw prk [info; be_bytes 4 key_id].

Definition derive_subkeys (master : bytes) (key_id : Z) : bytes * bytes :=
  let aes_key := hkdf_expand master AES_KEY_INFO key_id in
  let hmac_key := hkdf_expand master HMAC_KEY_INFO key_id in
  (aes_key, hmac_key).

Definition compute_manifest_digest (canonical_json : bytes) : bytes :=
  if USE_HARDWARE_SHA then hw_sha256_parts [canonical_json] else sw_sha256_parts [canonical_json].
Definition sha256_digest (data : bytes) : bytes := sw_sha256_parts [data].

(** *** Chunk tags *)

Definition compute_chunk_hmac (hmac_key manifest_digest : bytes)
    (chunk_index plaintext_offset plaintext_len : Z) (ciphertext : bytes) : bytes :=
  hmac_sha256_raw hmac_key
    [CHUNK_HMAC_CONTEXT; manifest_digest; be_bytes 4 chunk_index;
     be_bytes 4 plaintext_offset; be_bytes 4 plaintext_len; ciphertext].

Fixpoint diff_bytes (diff : Z) (a b : bytes) : Z :=
  match a, b with
  | x :: a, y :: b => diff_bytes (Z.lor diff (Z.lxor x y)) a b
  | _, _ => diff
  end.
Definition constant_time_eq (a b : bytes) : bool :=
  if negb (Nat.eqb (length a) (length b)) then false else diff_bytes 0 a b =? 0.

Definition verify_chunk_hmac (hmac_key manifest_digest : bytes)
    (chunk_index plaintext_offset plaintext_len : Z) (ciphertext tag : bytes) : bool :=
  constant_time_eq
    (compute_chunk_hmac hmac_key manifest_digest chunk_index plaintext_offset plaintext_len
       ciphertext) tag.

(** *** AES-256-CTR in place: the new contents of [data] *)

Inductive AesError := OperationFailed.

Definition aes_ctr_crypt_in_place (key nonce_prefix : bytes) (chunk_index : Z) (data : bytes)
  : result AesError bytes :=
  if bool_decide (data = []) then Ok data
  else
    let nonce := nonce_prefix ++ be_bytes 4 chunk_index in
    Ok (ctr_process key nonce data).

(** *** Nonce prefix and stream header *)

Inductive NoncePrefixError := InvalidLength | InvalidHex.

Definition hex_nibble (b : Z) : result NoncePrefixError Z :=
  if between 48 57 b then Ok (b - 48)
  else if between 97 102 b then Ok (b - 97 + 10)
  else if between 65 70 b then Ok (b - 65 + 10)
  else Err InvalidHex.

(** The [chunks(2)] loop. *)
Fixpoint nonce_pairs (hex : bytes) : result NoncePrefixError bytes :=
  match hex with
  | [] => Ok []
  | [_] => Err InvalidLength
  | c0 :: c1 :: hex =>
      h ← hex_nibble c0;
      l ← hex_nibble c1;
      rest ← nonce_pairs hex;
      Ok (Z.lor (wrap 8 (Z.shiftl h 4)) l :: rest)
  end.

Definition parse_nonce_prefix (hex : bytes) : result NoncePrefixError bytes :=
  if negb (Nat.eqb (length hex) 24) then Err InvalidLength else nonce_pairs hex.

Inductive OtaHeaderError := TooShort | InvalidMagic | InvalidVersion | ReservedNonZero.

Definition validate_ota_header (header : bytes) : result OtaHeaderError unit :=
  guard_ok (Nat.leb OTA_V2_HEADER_SIZE (length header)) TooShort;;
  guard_ok (bool_decide (take 8 header = OTA_HEADER_MAGIC)) InvalidMagic;;
  guard_ok (nth 8 header 0 =? OTA_V2_HEADER_VERSION) InvalidVersion;;
  guard_ok (negb (existsb (fun b => negb (b =? 0)) (take 7 (drop 9 header)))) ReservedNonZero.
End Encrypted.

(** ** Properties *)

Section Properties.
Context `{Sha256Laws} `{AesCtrLaws}.

Lemma fold_left_app_parts (acc : bytes) parts :
  fold_left (fun ctx part => ctx ++ part) parts acc = acc ++ mjoin parts.
Proof.
  revert acc. induction parts as [|p parts IH]; intros acc; cbn [fold_left mjoin list_join].
  - by rewrite app_nil_r.
  - by rewrite IH, <- app_assoc.
Qed.

Lemma hw_sha256_parts_spec prefix parts :
  hw_sha256_prefixed_parts prefix parts = sha256 (prefix ++ mjoin parts).
Proof.
  unfold hw_sha256_prefixed_parts. rewrite fold_left_app_parts.
  case_bool_decide; by subst.
Qed.

Lemma xor_pad_lookup f n s (l : bytes) j :
  fold_left (fun k i => alter (f i) i k) (seq s n) l !! j =
    if decide (s <= j < s + n)%nat then f j <$> l !! j else l !! j.
Proof.
  revert s l. induction n as [|n IH]; intros s l; cbn [seq fold_left].
  { case_decide; [lia | done]. }
  rewrite IH. destruct (decide (j = s)) as [-> | Hne].
  - rewrite decide_False, decide_True by lia. apply list_lookup_alter_eq.
  - rewrite list_lookup_alter_ne by done. repeat case_decide; (done || lia).
Qed.

(** The key padded with zeros to the block size, xored with the pad. *)
Definition padded (pad : Z) (key : bytes) : bytes :=
  zip_with Z.lxor (key ++ replicate (HMAC_BLOCK_SIZE - length key) 0)
    (replicate HMAC_BLOCK_SIZE pad).

Lemma xor_pad_spec pad key : length key = 32%nat -> xor_pad pad key = padded pad key.
Proof.
  intros Hk. apply list_eq. intros j. unfold xor_pad, padded.
  rewrite xor_pad_lookup, lookup_zip_with, Hk.
  destruct (decide (j < 64)%nat) as [Hj|].
  2:{ assert (replicate HMAC_BLOCK_SIZE pad !! j = None) as ->
        by (apply lookup_ge_None; rewrite length_replicate; unfold HMAC_BLOCK_SIZE; lia).
      rewrite decide_False by (unfold HMAC_KEY_SIZE; lia). by destruct (_ !! j). }
  rewrite lookup_replicate_2 by (unfold HMAC_BLOCK_SIZE; lia).
  case_decide as Hc.
  - unfold HMAC_KEY_SIZE in Hc. rewrite lookup_app_l by lia.
    destruct (lookup_lt_is_Some_2 key j ltac:(lia)) as [b Hb]. rewrite Hb. cbn.
    f_equal. rewrite (nth_lookup_Some _ _ _ b) by done. apply Z.lxor_comm.
  - unfold HMAC_KEY_SIZE in Hc. rewrite lookup_app_r by lia.
    rewrite lookup_replicate_2 by (unfold HMAC_BLOCK_SIZE; lia). cbn. by rewrite Z.lxor_0_l.
Qed.

(** The tag is RFC 2104's HMAC. *)
Lemma hmac_sha256_raw_spec key parts : length key = 32%nat ->
  hmac_sha256_raw key parts =
    sha256 (padded OPAD key ++ sha256 (padded IPAD key ++ mjoin parts)).
Proof.
  intros Hk. unfold hmac_sha256_raw, hw_sha256_parts, USE_HARDWARE_SHA.
  rewrite !hw_sha256_parts_spec, !xor_pad_spec by done. cbn [mjoin list_join app].
  by rewrite app_nil_r.
Qed.

Lemma length_padded pad key : length key = 32%nat -> length (padded pad key) = 64%nat.
Proof.
  intros Hk. unfold padded.
  rewrite length_zip_with, length_app, !length_replicate, Hk. done.
Qed.

Lemma diff_bytes_zero d a b :
  is_bytes a -> is_bytes b -> length a = length b -> 0 <= d ->
  diff_bytes d a b = 0 <-> d = 0 /\ a = b.
Proof.
  intros Ha. revert d b. induction Ha as [|x a Hx _ IH]; intros d [|y b] Hb Hl Hd;
    try discriminate Hl; cbn [diff_bytes]; [naive_solver|].
  inversion_clear Hb. injection Hl as Hl.
  assert (0 <= Z.lor d (Z.lxor x y))
    by (apply Z.lor_nonneg; split; [done | apply Z.lxor_nonneg; num]).
  rewrite IH by done.
  rewrite Z.lor_eq_0_iff, Z.lxor_eq_0_iff. naive_solver.
Qed.

Lemma constant_time_eq_spec a b :
  is_bytes a -> is_bytes b -> constant_time_eq a b = true <-> a = b.
Proof.
  intros Ha Hb. unfold constant_time_eq. destruct (Nat.eqb_spec (length a) (length b)); cbn [negb].
  - rewrite Z.eqb_eq, diff_bytes_zero by done. naive_solver.
  - split; [done | intros ->; done].
Qed.

Lemma compute_chunk_hmac_bytes k dg i o l ct : length k = 32%nat ->
  is_bytes (compute_chunk_hmac k dg i o l ct) /\
  length (compute_chunk_hmac k dg i o l ct) = 32%nat.
Proof.
  intros Hk. unfold compute_chunk_hmac. rewrite hmac_sha256_raw_spec by done.
  split; [apply sha256_bytes | apply sha256_length].
Qed.

Lemma verify_chunk_hmac_spec k dg i o l ct tag :
  length k = 32%nat -> is_bytes tag ->
  verify_chunk_hmac k dg i o l ct tag = true <-> tag = compute_chunk_hmac k dg i o l ct.
Proof.
  intros Hk Htag. unfold verify_chunk_hmac.
  rewrite constant_time_eq_spec by (try done; by apply compute_chunk_hmac_bytes). naive_solver.
Qed.

Definition collision : Prop := exists m m', m <> m' /\ sha256 m = sha256 m'.

Lemma sha256_eq_or_collision m m' : sha256 m = sha256 m' -> m = m' \/ collision.
Proof. intros Heq. destruct (decide (m = m')); [auto | right; by exists m, m']. Qed.

Lemma be_bytes_inj n x y :
  0 <= x < 256 ^ Z.of_nat n -> 0 <= y < 256 ^ Z.of_nat n -> be_bytes n x = be_bytes n y -> x = y.
Proof. intros Hx Hy Heq. by rewrite <- (of_be_be n x), <- (of_be_be n y), Heq by done. Qed.

(** a chunk tag binds the whole chunk: if one tag is accepted for two
    chunks, they agree in the manifest's digest, the chunk index, the
    plaintext offset, the length and every ciphertext byte, or else the
    run exhibits two different messages with the same SHA-256. A chunk can
    not be replayed at another place or under another manifest. *)
Theorem chunk_tag_binds (key tag dg dg' ct ct' : bytes) (i i' o o' l l' : Z)
    (Hkey : length key = 32%nat) (Htag : is_bytes tag)
    (Hdg : length dg = 32%nat) (Hdg' : length dg' = 32%nat)
    (Hu : u32 i /\ u32 i' /\ u32 o /\ u32 o' /\ u32 l /\ u32 l')
    (Hv : verify_chunk_hmac key dg i o l ct tag = true)
    (Hw : verify_chunk_hmac key dg' i' o' l' ct' tag = true) :
  (dg = dg' /\ i = i' /\ o = o' /\ l = l' /\ ct = ct') \/ collision.
Proof.
  apply verify_chunk_hmac_spec in Hv; [|done..]. apply verify_chunk_hmac_spec in Hw; [|done..].
  rewrite Hv in Hw. unfold compute_chunk_hmac in Hw. rewrite !hmac_sha256_raw_spec in Hw by done.
  apply sha256_eq_or_collision in Hw as [Hw | ?]; [|by right].
  apply app_inj_1 in Hw as [_ Hw]; [|done].
  apply sha256_eq_or_collision in Hw as [Hw | ?]; [|by right]. left.
  apply app_inj_1 in Hw as [_ Hw]; [|done]. cbn [mjoin list_join] in Hw.
  apply app_inj_1 in Hw as [_ Hw]; [|done].
  apply app_inj_1 in Hw as [-> Hw]; [|congruence].
  apply app_inj_1 in Hw as [Hi Hw]; [|by rewrite !length_be_bytes].
  apply app_inj_1 in Hw as [Ho Hw]; [|by rewrite !length_be_bytes].
  apply app_inj_1 in Hw as [Hl Hw]; [|by rewrite !length_be_bytes].
  apply be_bytes_inj in Hi; [|num..]. apply be_bytes_inj in Ho; [|num..].
  apply be_bytes_inj in Hl; [|num..]. apply app_inv_tail in Hw. auto.
Qed.

(** *** Counter mode *)

Definition keystream (k n : bytes) (i : nat) : Z :=
  nth (i mod 16) (aes_block k (be_bytes 16 ((of_be_bytes n + Z.of_nat (i / 16)) mod 2 ^ 128))) 0.

Lemma crypt_ok k np c d :
  exists d', aes_ctr_crypt_in_place k np c d = Ok d' /\ length d' = length d /\
    forall i b, d !! i = Some b ->
      d' !! i = Some (Z.lxor b (keystream k (np ++ be_bytes 4 c) i)).
Proof.
  unfold aes_ctr_crypt_in_place. case_bool_decide as Hd.
  - exists d. subst d. done.
  - eexists. split; [done|]. split; [apply ctr_process_length|].
    intros i b Hb. by apply ctr_process_lookup.
Qed.

Lemma crypt_twice k np c d d' :
  aes_ctr_crypt_in_place k np c d = Ok d' -> aes_ctr_crypt_in_place k np c d' = Ok d.
Proof.
  intros Hc. destruct (crypt_ok k np c d) as (x & Hx & Hl & Hi). rewrite Hc in Hx. simplify_eq.
  destruct (crypt_ok k np c x) as (y & Hy & Hl' & Hi'). rewrite Hy. f_equal.
  apply list_eq. intros i. destruct (d !! i) as [b|] eqn:E.
  - rewrite (Hi' _ _ (Hi _ _ E)). f_equal. by rewrite Z.lxor_assoc, Z.lxor_nilpotent, Z.lxor_0_r.
  - apply lookup_ge_None in E. apply lookup_ge_None. lia.
Qed.

Lemma of_be_bytes_app l k :
  of_be_bytes (l ++ k) = of_be_bytes l * 256 ^ Z.of_nat (length k) + of_be_bytes k.
Proof. unfold of_be_bytes. rewrite rev_app_distr, of_le_bytes_app, length_rev. lia. Qed.

(** consecutive chunks share their key stream: the counter of a chunk
    starts at the chunk's index and advances by one per 16-byte block, so
    block [j + 1] of a chunk is masked like block [j] of the next one. For
    the ciphertexts of two consecutive chunks of a stream, the xor of
    ciphertext bytes sixteen apart is the xor of the plaintext bytes,
    whatever the key. *)
Theorem keystream_reuse (key nonce_prefix : bytes) (chunk_index : Z) (p1 p2 c1 c2 : bytes)
    (i : nat) (x1 x2 y1 y2 : Z)
    (Hindex : 0 <= chunk_index < 2 ^ 32 - 1)
    (Hv : aes_ctr_crypt_in_place key nonce_prefix chunk_index p1 = Ok c1)
    (Hw : aes_ctr_crypt_in_place key nonce_prefix (chunk_index + 1) p2 = Ok c2)
    (Hx1 : p1 !! (16 + i)%nat = Some x1) (Hx2 : p2 !! i = Some x2)
    (Hy1 : c1 !! (16 + i)%nat = Some y1) (Hy2 : c2 !! i = Some y2) :
  Z.lxor y1 y2 = Z.lxor x1 x2.
Proof.
  destruct (crypt_ok key nonce_prefix chunk_index p1) as (d1 & E1 & _ & L1).
  destruct (crypt_ok key nonce_prefix (chunk_index + 1) p2) as (d2 & E2 & _ & L2).
  rewrite Hv in E1. rewrite Hw in E2. simplify_eq.
  rewrite (L1 _ _ Hx1) in Hy1. rewrite (L2 _ _ Hx2) in Hy2. simplify_eq.
  assert (keystream key (nonce_prefix ++ be_bytes 4 chunk_index) (16 + i) =
          keystream key (nonce_prefix ++ be_bytes 4 (chunk_index + 1)) i) as ->.
  { unfold keystream. rewrite !of_be_bytes_app, !of_be_be by num. rewrite !length_be_bytes.
    replace (16 + i)%nat with (i + 1 * 16)%nat by lia.
    rewrite Nat.Div0.mod_add, Nat.div_add by lia.
    do 4 f_equal. lia. }
  rewrite (Z.lxor_comm x2), Z.lxor_assoc, <- (Z.lxor_assoc _ _ x2), Z.lxor_nilpotent.
  by rewrite Z.lxor_0_l.
Qed.
End Properties.

Section Parsing.
Lemma validate_ota_header_spec h :
  is_ok (validate_ota_header h) = true <->
  exists rest, h = OTA_HEADER_MAGIC ++ [2] ++ replicate 7 0 ++ rest.
Proof.
  unfold validate_ota_header, OTA_V2_HEADER_SIZE, OTA_V2_HEADER_VERSION. split.
  - destruct (Nat.leb_spec 16 (length h)) as [Hl|]; cbn [guard_ok mbind result_bind]; [|done].
    case_bool_decide as Hm; cbn [guard_ok mbind result_bind]; [|done].
    destruct (Z.eqb_spec (nth 8 h 0) 2) as [Hv|]; cbn [guard_ok mbind result_bind]; [|done].
    destruct (existsb _ _) eqn:Hz; cbn [guard_ok negb]; [done|]. intros _.
    do 16 (destruct h as [|? h]; [cbn in Hl; lia|]).
    cbn [take drop nth] in *. cbn [existsb] in Hz.
    repeat (apply orb_false_iff in Hz as [?%negb_false_iff%Z.eqb_eq Hz]).
    exists h. subst. rewrite (app_assoc OTA_HEADER_MAGIC), <- Hm. done.
  - intros (rest & ->). reflexivity.
Qed.

Lemma hex_nibble_agrees b :
  hex_nibble b = match hex_nibble_runtime b with Ok n => Ok n | Err _ => Err InvalidHex end.
Proof. unfold hex_nibble, hex_nibble_runtime. repeat case_goal; done. Qed.

(** The nonce prefix parser and the signature decoder read hex alike. *)
Lemma parse_nonce_prefix_spec h b :
  parse_nonce_prefix h = Ok b <-> hex_into h 12 = Ok b.
Proof.
  unfold parse_nonce_prefix, hex_into. change (12 * 2)%nat with 24%nat.
  destruct (Nat.eqb_spec (length h) 24) as [Hl|]; cbn [negb]; [|by split].
  assert (forall n h b, length h = (n * 2)%nat -> nonce_pairs h = Ok b <-> hex_pairs h = Ok b)
    as Hgen; [|by apply (Hgen 12%nat)].
  clear. induction n as [|n IH]; intros h b Hl.
  { apply length_zero_iff_nil in Hl as ->. cbn. split; intros Heq; by simplify_eq. }
  destruct h as [|c0 [|c1 h]]; try discriminate Hl. cbn [nonce_pairs hex_pairs].
  rewrite !hex_nibble_agrees.
  destruct (hex_nibble_runtime c0) as [n0|]; cbn [mbind result_bind]; [|by split].
  destruct (hex_nibble_runtime c1) as [n1|]; cbn [mbind result_bind]; [|by split].
  specialize (IH h). cbn in Hl. rewrite !bind_ok_inv.
  split; intros (r & Hr & Hb); exists r; (split; [apply IH; [lia | done] | by simplify_eq]).
Qed.
End Parsing.

(** ** Concrete functions in place of SHA-256 and AES, for evaluation *)
Module Sample.
#[export] Instance mix_sha : Sha256 := {
  sha256 m := le_bytes 32 (fold_left (fun h b => h * 257 + b + 1) m 7)
}.
#[export] Instance mix_sha_laws : Sha256Laws.
Proof. split; intros; [apply length_le_bytes | apply le_bytes_is_bytes]. Qed.

Definition mix_block (k b : bytes) : bytes := le_bytes 16 (of_le_bytes k * 31 + of_be_bytes b * 101).
Definition mask (k n : bytes) (i : nat) (b : Z) : Z :=
  Z.lxor b (nth (i mod 16)
    (mix_block k (be_bytes 16 ((of_be_bytes n + Z.of_nat (i / 16)) mod 2 ^ 128))) 0).
#[export] Instance mix_ctr : AesCtr := { ctr_process k n d := imap (mask k n) d }.
#[export] Instance mix_ctr_laws : AesCtrLaws.
Proof.
  refine {| aes_block := mix_block |}.
  - intros. apply length_le_bytes.
  - intros. apply length_imap.
  - intros k n d i b Hb. cbn. by rewrite list_lookup_imap, Hb.
Qed.

Definition key : bytes := replicate 32 9.
Definition prefix : bytes := replicate 12 5.

Example chunk_tag_binds_witness :
  let tag := compute_chunk_hmac key key 3 12288 2 [1; 2] in
  (key = key /\ 3 = 3 /\ 12288 = 12288 /\ 2 = 2 /\ [1; 2] = [1; 2]) \/ collision.
Proof.
  intros tag.
  assert (verify_chunk_hmac key key 3 12288 2 [1; 2] tag = true) as Hv by (vm_compute; reflexivity).
  apply (chunk_tag_binds key tag key key [1; 2] [1; 2] 3 3 12288 12288 2 2);
    [reflexivity | apply compute_chunk_hmac_bytes; reflexivity | reflexivity | reflexivity
    | split_and!; num | exact Hv | exact Hv].
Defined.

Example keystream_reuse_witness :
  exists c1 c2 y1 y2,
    aes_ctr_crypt_in_place key prefix 0 (replicate 20 65) = Ok c1 /\
    aes_ctr_crypt_in_place key prefix 1 [66; 67] = Ok c2 /\
    c1 !! 17%nat = Some y1 /\ c2 !! 1%nat = Some y2 /\ Z.lxor y1 y2 = Z.lxor 65 67.
Proof.
  do 4 eexists. split; [vm_compute; reflexivity|]. split; [vm_compute; reflexivity|].
  split; [reflexivity|]. split; [reflexivity|].
  apply (keystream_reuse key prefix 0 (replicate 20 65) [66; 67]
    (match aes_ctr_crypt_in_place key prefix 0 (replicate 20 65) with Ok c => c | _ => [] end)
    (match aes_ctr_crypt_in_place key prefix 1 [66; 67] with Ok c => c | _ => [] end) 1 65 67);
    try (vm_compute; reflexivity). lia.
Defined.
End Sample.
