(* ===== verification/OtaFlash.v ===== *)
(** * Streaming an OTA image into the inactive slot

    [firmware/src/ota/flash_write.rs] with the slot operations of
    [firmware/src/ota/boot_metadata.rs] and the shared TLS workspace of
    [firmware/src/tls_workspace.rs]. The flash driver with the ESP-IDF boot
    metadata, the HTTP client and the body reader are interfaces. A step
    returns [None] for a panic; the loops over a reader run on fuel, which is
    proved enough, so [None] is never returned. *)
From S2P Require Import Prelude Str Heapless OtaUrl OtaManifest OtaCrypto.

(** ** Interfaces *)

(** The flash storage with its OTA boot metadata: the inactive partition's
    region and the operations of [OtaUpdater]. Every operation may fail and
    may have changed the flash when it does. *)
Class OtaDevice (D : Type) := {
  partition_error : Type;
  flash_error : Type;
  partition_size : D -> Z;
  region_erase : Z -> Z -> D -> result flash_error unit * D;
  region_write : Z -> bytes -> D -> result flash_error unit * D;
  region_read : Z -> nat -> D -> result flash_error bytes * D;
  updater_new : D -> result partition_error unit * D;
  updater_next_partition : D -> result partition_error unit * D;
  updater_activate_next_partition : D -> result partition_error unit * D;
  updater_set_current_new : D -> result partition_error unit * D
}.

(** An asynchronous buffered reader: the bytes available (none at the end of
    the body), an I/O error, or the read timeout elapsing. *)
Inductive fill := Ready (available : bytes) | FillFailed | FillTimeout.
Class BufRead (R : Type) := {
  fill_buf : R -> fill * R;
  consume : nat -> R -> R
}.

Inductive TlsVerify := VerifyNone | VerifyCertificate (ca : bytes).

(** A response whose head has been received. *)
Record Response (R : Type) := {
  status : Z;
  headers : list (bytes * bytes);
  content_length : option Z;
  transfer_encoding_chunked : bool;
  body : R
}.
Arguments status {R}. Arguments headers {R}. Arguments content_length {R}.
Arguments transfer_encoding_chunked {R}. Arguments body {R}.

(** The network: one GET request with its TLS configuration, [None] when the
    connection, the request or the response head fails; and the flag that
    guards the shared TLS buffers ([TLS_WORKSPACE_IN_USE]), which other tasks
    may release while this one waits. *)
Class HttpClient (N R : Type) := {
  http_get : bytes -> option TlsVerify -> N -> option (Response R) * N;
  tls_in_use : N -> bool * N
}.

(** ** Errors *)

Inductive OtaFlashWriteError {PE FE : Type} :=
| Partition (e : PE)
| Flash (e : FE)
| HttpConnect
| HttpStatus (status : Z)
| RedirectWithoutLocation
| RedirectLocationTooLong
| RedirectRejected
| TooManyRedirects
| MissingContentLength
| ContentLengthMismatch
| ChunkedRejected
| ReadFailed
| SizeMismatch
| ShaMismatch
| InvalidImagePrefix (e : EspImagePrefixError)
| FlashVerifyFailed
| ImageTooLargeForSlot (image_size slot_size : Z)
| InvalidNoncePrefix
| HmacMismatch
| AesError_ (e : AesError)
| HeaderTooShort
| HeaderInvalidMagic
| HeaderInvalidVersion
| HeaderInvalidReserved
| ChunkTruncated
| OutOfMemory
| ManifestCanonical (e : ManifestError).
Arguments OtaFlashWriteError PE FE : clear implicits.

(** ** A state and error monad that may panic *)

Definition M (E S A : Type) : Type := S -> option (result E A * S).
#[export] Instance M_ret {E S} : MRet (M E S) := fun A a s => Some (Ok a, s).
#[export] Instance M_bind {E S} : MBind (M E S) := fun A B f m s =>
  match m s with
  | Some (Ok a, s) => f a s
  | Some (Err e, s) => Some (Err e, s)
  | None => None
  end.
Definition throw {E S A} (e : E) : M E S A := fun s => Some (Err e, s).
Definition panic {E S A} : M E S A := fun _ => None.
Definition lift {E S A} (r : result E A) : M E S A := fun s => Some (r, s).
Definition ensure {E S} (b : bool) (e : E) : M E S unit := lift (guard_ok b e).
(** An operation on one component of the state. *)
Definition on_fst {E S T A} (m : M E S A) : M E (S * T) A := fun '(s, t) =>
  match m s with Some (r, s) => Some (r, (s, t)) | None => None end.
Definition on_snd {E S T A} (m : M E T A) : M E (S * T) A := fun '(s, t) =>
  match m t with Some (r, t) => Some (r, (s, t)) | None => None end.
Definition prim {E F S A} (f : F -> E) (op : S -> result F A * S) : M E S A := fun s =>
  let '(r, s) := op s in Some (map_err f r, s).

(** ** Constants *)

Definition MAX_REDIRECTS : Z := 3.
Definition MAX_REDIRECT_URL_LEN : Z := 2048.
Definition FLASH_SECTOR_SIZE : Z := 4096.
Definition TLS_WORKSPACE_WAIT_ATTEMPTS : nat := Z.to_nat 250.
Definition ESP_IMAGE_PREFIX_LEN : nat := 64.
Definition FLASH_READBACK_LEN : nat := Z.to_nat 4096.

(** ** Text helpers *)

Definition HEX : bytes := lit "0123456789abcdef".
Definition sha256_hex (digest : bytes) : bytes :=
  mjoin ((fun byte => [nth (Z.to_nat (Z.shiftr byte 4)) HEX 0;
                       nth (Z.to_nat (Z.land byte 0xF)) HEX 0]) <$> digest).

(** [parse_ipv4_literal]: four decimal octets of at most three digits. *)
Fixpoint literal_octets (parts : list bytes) : option (list Z) :=
  match parts with
  | [] => Some []
  | part :: parts =>
      if bool_decide (part = []) || Nat.ltb 3 (length part) || negb (forallb is_digit part) then None
      else
        value ← try_from_u 8 (fold_left (fun v byte => v * 10 + (byte - 48)) part 0);
        rest ← literal_octets parts;
        Some (value :: rest)
  end.
Definition parse_ipv4_literal (host : bytes) : option (list Z) :=
  if bool_decide (host = []) || negb (Nat.eqb (length (split 46 host)) 4) then None
  else literal_octets (split 46 host).

(** [core::str::from_utf8]: well-formed UTF-8 (Unicode table 3-7). *)
Definition cont (b : Z) : bool := between 0x80 0xBF b.
Fixpoint utf8_valid (fuel : nat) (s : bytes) : bool :=
  match fuel with
  | O => bool_decide (s = [])
  | S fuel =>
      match s with
      | [] => true
      | b0 :: s =>
          if between 0 0x7F b0 then utf8_valid fuel s
          else if between 0xC2 0xDF b0 then
            match s with b1 :: s => cont b1 && utf8_valid fuel s | _ => false end
          else if between 0xE0 0xEF b0 then
            match s with
            | b1 :: b2 :: s =>
                between (if b0 =? 0xE0 then 0xA0 else 0x80) (if b0 =? 0xED then 0x9F else 0xBF) b1
                && cont b2 && utf8_valid fuel s
            | _ => false
            end
          else if between 0xF0 0xF4 b0 then
            match s with
            | b1 :: b2 :: b3 :: s =>
                between (if b0 =? 0xF0 then 0x90 else 0x80) (if b0 =? 0xF4 then 0x8F else 0xBF) b1
                && cont b2 && cont b3 && utf8_valid fuel s
            | _ => false
            end
          else false
      end
  end.
Definition from_utf8 (s : bytes) : option bytes :=
  if utf8_valid (length s) s then Some s else None.

(** [trim_matches(|ch| ch.is_ascii_whitespace())]. *)
Definition is_ascii_whitespace (b : Z) : bool := existsb (Z.eqb b) [0x20; 0x09; 0x0A; 0x0C; 0x0D].
Fixpoint trim_start (p : Z -> bool) (s : bytes) : bytes :=
  match s with
  | b :: s' => if p b then trim_start p s' else s
  | [] => []
  end.
Definition trim_matches (p : Z -> bool) (s : bytes) : bytes :=
  rev (trim_start p (rev (trim_start p s))).

Section Download.
Context {D R N : Type} `{OtaDevice D} `{BufRead R} `{HttpClient N R}.
Context `{Sha256} `{AesCtr} `{SerdeJson}.
(** The build's secrets. *)
Context (OTA_TLS_ALLOW_INVALID_CA : bool)
        (OTA_TLS_CA_CERT_DER OTA_ASSET_TLS_CA_CERT_DER : bytes).

Abbreviation Error := (OtaFlashWriteError partition_error flash_error).

Definition from_header_error (e : OtaHeaderError) : Error :=
  match e with
  | OtaCrypto.TooShort => HeaderTooShort
  | OtaCrypto.InvalidMagic => HeaderInvalidMagic
  | InvalidVersion => HeaderInvalidVersion
  | ReservedNonZero => HeaderInvalidReserved
  end.

(** ** The inactive slot *)

Definition prepare_inactive_slot (image_bytes : Z) : M Error D unit := fun d =>
  let slot_size := wrap 32 (partition_size d) in
  let max_writable := sat_sub slot_size FLASH_SECTOR_SIZE in
  if max_writable <? image_bytes then
    Some (Err (ImageTooLargeForSlot image_bytes slot_size), d)
  else
    let aligned := wrap 32 (div_ceil image_bytes FLASH_SECTOR_SIZE * FLASH_SECTOR_SIZE) in
    prim Flash (region_erase 0 aligned) d.

(** ** Reading the body *)

(** The [while offset < buf.len()] loop; [buf] is what has been filled. *)
Fixpoint read_exact_loop (fuel len : nat) (buf : bytes) : M Error R bytes := fun r =>
  if Nat.leb len (length buf) then Some (Ok buf, r)
  else match fuel with
  | O => None
  | S fuel =>
      match fill_buf r with
      | (FillTimeout, r) => Some (Err ReadFailed, r)
      | (FillFailed, r) => Some (Err ReadFailed, r)
      | (Ready available, r) =>
          if bool_decide (available = []) then Some (Err ReadFailed, r)
          else
            let copy := Nat.min (length available) (len - length buf) in
            read_exact_loop fuel len (buf ++ take copy available) (consume copy r)
      end
  end.
Definition read_exact (len : nat) : M Error R bytes := read_exact_loop len len [].

(** ** Processing the body *)

Record EncryptedResult := {
  total_plaintext : Z;
  digest : bytes;
  readback_len : nat;
  readback_digest : bytes
}.

(** The loop's local variables; [first_filled] is the length of
    [first_bytes], a hasher is what it has absorbed. *)
Record Progress := {
  first_bytes : bytes;
  prefix_validated : bool;
  progress_plaintext : Z;
  flash_offset : Z;
  sha_hasher : bytes;
  readback_hasher : bytes;
  progress_readback_len : nat
}.

Definition initial_progress : Progress := {|
  first_bytes := []; prefix_validated := false; progress_plaintext := 0; flash_offset := 0;
  sha_hasher := []; readback_hasher := []; progress_readback_len := 0 |}.

Definition check_prefix (p : Progress) (plaintext : bytes) : result Error (bytes * bool) :=
  if prefix_validated p then Ok (first_bytes p, true)
  else
    let copy := Nat.min (length plaintext) (ESP_IMAGE_PREFIX_LEN - length (first_bytes p)) in
    let first := first_bytes p ++ take copy plaintext in
    if Nat.leb 8 (length first) then
      map_err InvalidImagePrefix (validate_esp_image_prefix first);;
      Ok (first, true)
    else Ok (first, false).

Definition expected_chunk_len (image_size num_chunks chunk_index : Z) : Z :=
  if chunk_index =? wrap 32 (num_chunks - 1)
  then wrap 32 (image_size - wrap 32 (chunk_index * ENC_CHUNK_SIZE))
  else ENC_CHUNK_SIZE.

Section Body.
Context (nonce hmac_key aes_key manifest_digest : bytes) (image_size num_chunks : Z).

(** One iteration of the [for chunk_index] loop. *)
Definition process_chunk (chunk_index : Z) (p : Progress) : M Error (R * D) Progress :=
  len_buf ← on_fst (read_exact 4);
  let ciphertext_len := of_be_bytes len_buf in
  ensure (ciphertext_len =? expected_chunk_len image_size num_chunks chunk_index) ChunkTruncated;;
  (if ENC_CHUNK_SIZE <? ciphertext_len then panic else mret tt);;
  ct ← on_fst (read_exact (Z.to_nat ciphertext_len));
  tag_buf ← on_fst (read_exact HMAC_TAG_SIZE);
  ensure (verify_chunk_hmac hmac_key manifest_digest chunk_index (flash_offset p)
            ciphertext_len ct tag_buf) HmacMismatch;;
  plaintext ← lift (map_err AesError_ (aes_ctr_crypt_in_place aes_key nonce chunk_index ct));
  '(first, validated) ← lift (check_prefix p plaintext);
  on_snd (prim Flash (region_write (flash_offset p) plaintext));;
  let readback_remaining := (FLASH_READBACK_LEN - progress_readback_len p)%nat in
  let copy := Nat.min (length plaintext) readback_remaining in
  mret {|
    first_bytes := first;
    prefix_validated := validated;
    progress_plaintext := wrap 32 (progress_plaintext p + ciphertext_len);
    flash_offset := wrap 32 (flash_offset p + ciphertext_len);
    sha_hasher := sha_hasher p ++ plaintext;
    readback_hasher :=
      if Nat.ltb 0 readback_remaining then readback_hasher p ++ take copy plaintext
      else readback_hasher p;
    progress_readback_len :=
      if Nat.ltb 0 readback_remaining then (progress_readback_len p + copy)%nat
      else progress_readback_len p
  |}.

Fixpoint process_chunks (chunks : list Z) (p : Progress) : M Error (R * D) Progress :=
  match chunks with
  | [] => mret p
  | chunk_index :: chunks => p ← process_chunk chunk_index p; process_chunks chunks p
  end.
End Body.

Definition process_encrypted_body (nonce hmac_key aes_key manifest_digest : bytes)
    (image_size : Z) : M Error (R * D) EncryptedResult :=
  header ← on_fst (read_exact OTA_V2_HEADER_SIZE);
  lift (map_err from_header_error (validate_ota_header header));;
  let num_chunks := div_ceil image_size ENC_CHUNK_SIZE in
  p ← process_chunks nonce hmac_key aes_key manifest_digest image_size num_chunks
        (seqZ 0 num_chunks) initial_progress;
  mret {|
    total_plaintext := progress_plaintext p;
    digest := sha256 (sha_hasher p);
    readback_len := progress_readback_len p;
    readback_digest := sha256 (readback_hasher p)
  |}.

(** ** Fetching with redirects *)

Definition is_redirection (status : Z) : bool := between 300 399 status.

Definition validate_response_metadata (response : Response R) (expected_size : Z)
  : result Error unit :=
  guard_ok (status response =? 200) (HttpStatus (status response));;
  content_length ← ok_or (content_length response) MissingContentLength;
  guard_ok (content_length =? expected_size) ContentLengthMismatch;;
  guard_ok (negb (transfer_encoding_chunked response)) ChunkedRejected.

Fixpoint redirect_location (headers : list (bytes * bytes)) : result Error bytes :=
  match headers with
  | [] => Err RedirectWithoutLocation
  | (name, value) :: headers =>
      if eq_ignore_ascii_case name (lit "location") then
        value ← ok_or (from_utf8 value) RedirectRejected;
        let location := trim_matches is_ascii_whitespace value in
        guard_ok (Z.of_nat (length location) <=? MAX_REDIRECT_URL_LEN) RedirectLocationTooLong;;
        Ok location
      else redirect_location headers
  end.

Definition ota_tls_verify_for_url (url : bytes) : TlsVerify :=
  if OTA_TLS_ALLOW_INVALID_CA then VerifyNone
  else if starts_with (lit "https://github.com/") url then VerifyCertificate OTA_TLS_CA_CERT_DER
  else VerifyCertificate OTA_ASSET_TLS_CA_CERT_DER.

(** [acquire_ota_tls_workspace]: a bounded number of attempts. *)
Fixpoint acquire_ota_tls_workspace (attempts : nat) : M Error N unit := fun n =>
  match attempts with
  | O => Some (Err OutOfMemory, n)
  | S attempts =>
      let '(in_use, n) := tls_in_use n in
      if in_use then acquire_ota_tls_workspace attempts n else Some (Ok tt, n)
  end.

Definition tls_for_url (url : bytes) : M Error N (option TlsVerify) :=
  if starts_with (lit "https://") url then
    acquire_ota_tls_workspace TLS_WORKSPACE_WAIT_ATTEMPTS;;
    mret (Some (ota_tls_verify_for_url url))
  else mret None.
Definition get_response (url : bytes) (tls : option TlsVerify) : M Error N (Response R) := fun n =>
  let '(response, n) := http_get url tls n in Some (ok_or response HttpConnect, n).
Definition send_request (url : bytes) : M Error N (Response R) :=
  tls ← tls_for_url url; get_response url tls.

(** The [loop] over redirects; it runs at most [MAX_REDIRECTS + 1] times. *)
Fixpoint fetch_loop (fuel : nat) (redirects : Z) (current_url : bytes) (m : OtaManifest)
    (nonce hmac_key aes_key manifest_digest : bytes) : M Error (N * D) EncryptedResult :=
  match fuel with
  | O => panic
  | S fuel =>
      response ← on_fst (send_request current_url);
      if is_redirection (status response) then
        next_url ← lift (redirect_location (headers response));
        ensure (redirects <? MAX_REDIRECTS) TooManyRedirects;;
        ensure (starts_with (lit "https://") next_url && is_ok (validate_ota_url_policy next_url))
          RedirectRejected;;
        fetch_loop fuel (redirects + 1) next_url m nonce hmac_key aes_key manifest_digest
      else
        lift (validate_response_metadata response (download_size m));;
        on_snd (fun d =>
          match process_encrypted_body nonce hmac_key aes_key manifest_digest (image_size m)
                  (body response, d) with
          | Some (r, (_, d)) => Some (r, d)
          | None => None
          end)
  end.

Definition fetch_and_process_encrypted (m : OtaManifest)
    (nonce hmac_key aes_key manifest_digest : bytes) : M Error (N * D) EncryptedResult :=
  ensure (Z.of_nat (length (url m)) <=? MAX_REDIRECT_URL_LEN) RedirectLocationTooLong;;
  fetch_loop (Z.to_nat (MAX_REDIRECTS + 1)) 0 (url m) m nonce hmac_key aes_key manifest_digest.

(** ** Verification and activation *)

Definition post_verify (result : EncryptedResult) (m : OtaManifest)
  : Prelude.result Error unit :=
  guard_ok (total_plaintext result =? image_size m) SizeMismatch;;
  guard_ok (eq_ignore_ascii_case (sha256_hex (digest result)) (image_sha256 m)) ShaMismatch.

Definition verify_flash_readback (result : EncryptedResult) : M Error D unit :=
  readback ← prim Flash (region_read 0 (readback_len result));
  ensure (bool_decide (sha256 readback = readback_digest result)) FlashVerifyFailed.

(** [boot_metadata.rs]. *)
Definition OtaBootMetadata_new : M Error D unit := prim Partition updater_new.
Definition inactive_partition : M Error D unit := prim Partition updater_next_partition.
Definition activate_next_partition : M Error D unit :=
  prim Partition updater_activate_next_partition.
Definition mark_current_app_new : M Error D unit := prim Partition updater_set_current_new.

Definition download_and_write_to_flash (m : OtaManifest) (master_key : bytes)
  : M Error (N * D) unit :=
  let '(aes_key, hmac_key) := derive_subkeys master_key (enc_key_id (enc m)) in
  nonce ← lift (map_err (fun _ => InvalidNoncePrefix) (parse_nonce_prefix (nonce_prefix (enc m))));
  canonical ← lift (map_err ManifestCanonical (canonical_unsigned_json m));
  let manifest_digest := compute_manifest_digest canonical in
  on_snd OtaBootMetadata_new;;
  on_snd inactive_partition;;
  on_snd (prepare_inactive_slot (image_size m));;
  stream_result ← fetch_and_process_encrypted m nonce hmac_key aes_key manifest_digest;
  lift (post_verify stream_result m);;
  on_snd inactive_partition;;
  on_snd (verify_flash_readback stream_result);;
  on_snd activate_next_partition;;
  on_snd mark_current_app_new.
End Download.

(** ** Reasoning about the monad

    [wp m s Q]: from [s], [m] does not panic and its outcome, an error or a
    value, satisfies [Q] in the final state. *)
Definition wp {E S A} (m : M E S A) (s : S) (Q : result E A -> S -> Prop) : Prop :=
  match m s with Some (r, s') => Q r s' | None => False end.

Section Wp.
Context {E S : Type}.

Lemma wp_bind {A B} (m : M E S A) (f : A -> M E S B) s Q :
  wp m s (fun r s' => match r with Ok a => wp (f a) s' Q | Err e => Q (Err e) s' end) ->
  wp (m ≫= f) s Q.
Proof.
  unfold wp, mbind, M_bind. destruct (m s) as [[[a|e] s']|]; auto.
Qed.
Lemma wp_bind_inv {A B} (m : M E S A) (f : A -> M E S B) s Q :
  wp (m ≫= f) s Q ->
  wp m s (fun r s' => match r with Ok a => wp (f a) s' Q | Err e => Q (Err e) s' end).
Proof.
  unfold wp, mbind, M_bind. destruct (m s) as [[[a|e] s']|]; auto.
Qed.
Lemma wp_ret {A} (a : A) (s : S) (Q : result E A -> S -> Prop) : Q (Ok a) s -> wp (mret a) s Q.
Proof. done. Qed.
Lemma wp_lift {A} (r : result E A) (s : S) (Q : result E A -> S -> Prop) :
  Q r s -> wp (lift r) s Q.
Proof. done. Qed.
Lemma wp_ensure b (e : E) (s : S) (Q : result E unit -> S -> Prop) :
  (b = true -> Q (Ok tt) s) -> (b = false -> Q (Err e) s) -> wp (ensure b e) s Q.
Proof. unfold wp, ensure, lift. destruct b; auto. Qed.
Lemma wp_mono {A} (m : M E S A) s (Q Q' : result E A -> S -> Prop) :
  wp m s Q -> (forall r s', Q r s' -> Q' r s') -> wp m s Q'.
Proof. unfold wp. destruct (m s) as [[r s']|]; auto. Qed.
Lemma wp_fst {T A} (m : M E S A) (s : S) (t : T) (Q : result E A -> S * T -> Prop) :
  wp m s (fun r s' => Q r (s', t)) -> wp (on_fst m) (s, t) Q.
Proof. unfold wp, on_fst. destruct (m s) as [[r s']|]; auto. Qed.
Lemma wp_snd {T A} (m : M E S A) (s : S) (t : T) (Q : result E A -> T * S -> Prop) :
  wp m s (fun r s' => Q r (t, s')) -> wp (on_snd m) (t, s) Q.
Proof. unfold wp, on_snd. destruct (m s) as [[r s']|]; auto. Qed.
Lemma wp_prim {F A} (f : F -> E) (op : S -> result F A * S) s Q :
  (forall r s', op s = (r, s') -> Q (map_err f r) s') -> wp (prim f op) s Q.
Proof. unfold wp, prim. destruct (op s) as [r s']. auto. Qed.
Lemma wp_some {A} (m : M E S A) s (Q : result E A -> S -> Prop) :
  wp m s Q -> exists r s', m s = Some (r, s') /\ Q r s'.
Proof. unfold wp. destruct (m s) as [[r s']|]; [eauto | done]. Qed.
End Wp.

(** ** Laws of the interfaces *)

(** [slot d] is what the inactive partition holds, [boot_image d] what the
    partition selected for the next boot holds. Only activation changes the
    selection, to the slot that was inactive; a failed write or erase may
    have changed any byte of its own range. *)
Class OtaDeviceLaws (D : Type) `{OtaDevice D} := {
  slot : D -> bytes;
  boot_image : D -> bytes;
  partition_size_slot d : partition_size d = Z.of_nat (length (slot d));
  partition_size_u32 d : partition_size d < 2 ^ 32;
  erase_spec from to d r d' :
    region_erase from to d = (r, d') -> 0 <= from <= to -> to <= partition_size d ->
    boot_image d' = boot_image d /\ length (slot d') = length (slot d) /\
    (forall i, Z.of_nat i < from \/ to <= Z.of_nat i -> slot d' !! i = slot d !! i);
  write_spec o bs d r d' :
    region_write o bs d = (r, d') -> 0 <= o -> o + Z.of_nat (length bs) <= partition_size d ->
    boot_image d' = boot_image d /\ length (slot d') = length (slot d) /\
    (forall i, Z.of_nat i < o \/ o + Z.of_nat (length bs) <= Z.of_nat i ->
       slot d' !! i = slot d !! i) /\
    (r = Ok tt -> forall i b, bs !! i = Some b -> slot d' !! (Z.to_nat o + i)%nat = Some b);
  read_spec o n d r d' :
    region_read o n d = (r, d') ->
    slot d' = slot d /\ boot_image d' = boot_image d /\
    (forall bs, r = Ok bs -> bs = take n (drop (Z.to_nat o) (slot d)));
  updater_new_spec d r d' :
    updater_new d = (r, d') -> slot d' = slot d /\ boot_image d' = boot_image d;
  updater_next_spec d r d' :
    updater_next_partition d = (r, d') -> slot d' = slot d /\ boot_image d' = boot_image d;
  updater_activate_spec d r d' :
    updater_activate_next_partition d = (r, d') ->
    (boot_image d' = boot_image d \/ boot_image d' = slot d) /\
    (r = Ok tt -> boot_image d' = slot d);
  updater_set_spec d r d' :
    updater_set_current_new d = (r, d') -> boot_image d' = boot_image d
}.

(** [delivers r w]: the reader will yield exactly the bytes [w]. *)
Class BufReadLaws (R : Type) `{BufRead R} := {
  delivers : R -> bytes -> Prop;
  delivers_fill r w :
    delivers r w -> w <> [] ->
    exists a r', fill_buf r = (Ready a, r') /\ a <> [] /\ a `prefix_of` w /\
      forall n, (n <= length a)%nat -> delivers (consume n r') (drop n w)
}.

Section ReadExact.
Context {D R : Type} `{OtaDevice D} `{BufReadLaws R}.

Lemma read_exact_loop_wp fuel len buf (r : R) :
  (length buf <= len)%nat -> (len <= length buf + fuel)%nat ->
  wp (read_exact_loop (D := D) fuel len buf) r (fun res _ =>
    match res with Ok b => length b = len | Err e => e = ReadFailed end).
Proof.
  revert buf r. induction fuel as [|fuel IH]; intros buf r Hle Hf; unfold wp;
    cbn [read_exact_loop]; destruct (Nat.leb_spec len (length buf)); try lia.
  destruct (fill_buf r) as [[a| |] r']; try done.
  case_bool_decide as Ha; [done|].
  assert (0 < length a)%nat by (destruct a; [done | cbn; lia]).
  apply IH; rewrite length_app, length_take; lia.
Qed.

Lemma read_exact_wp len (r : R) :
  wp (read_exact (D := D) len) r (fun res _ =>
    match res with Ok b => length b = len | Err e => e = ReadFailed end).
Proof. apply read_exact_loop_wp; cbn; lia. Qed.

(** A reader that delivers enough bytes yields exactly the next ones. *)
Lemma read_exact_loop_delivers fuel len buf (r : R) w :
  (length buf <= len)%nat -> (len <= length buf + fuel)%nat ->
  (len - length buf <= length w)%nat -> delivers r w ->
  wp (read_exact_loop (D := D) fuel len buf) r (fun res r' =>
    res = Ok (buf ++ take (len - length buf) w) /\ delivers r' (drop (len - length buf) w)).
Proof.
  revert buf r w. induction fuel as [|fuel IH]; intros buf r w Hle Hf Hw Hd; unfold wp;
    cbn [read_exact_loop]; destruct (Nat.leb_spec len (length buf)); try lia.
  1,2: replace (len - length buf)%nat with 0%nat by lia; by rewrite take_0, app_nil_r, drop_0.
  destruct (delivers_fill r w Hd) as (a & r' & -> & Ha & [k ->] & Hc);
    [intros ->; cbn in Hw; lia|].
  rewrite bool_decide_eq_false_2 by done.
  assert (0 < length a)%nat by (destruct a; [done | cbn; lia]).
  set (n := Nat.min (length a) (len - length buf)).
  pose proof (Hc n ltac:(lia)) as Hd'.
  assert (length (buf ++ take n a) = length buf + n)%nat as Hlen
    by (rewrite length_app, length_take; lia).
  rewrite length_app in Hw.
  specialize (IH (buf ++ take n a) (consume n r') (drop n (a ++ k)) ltac:(lia) ltac:(lia)).
  rewrite Hlen, length_drop, length_app in IH. specialize (IH ltac:(lia) Hd').
  eapply wp_mono; [exact IH|]. intros res r'' [-> Hr]. split.
  - rewrite <- app_assoc. do 2 f_equal.
    replace (len - length buf)%nat with (n + (len - (length buf + n)))%nat by lia.
    rewrite <- (take_take_drop (a ++ k) n (len - (length buf + n))).
    by rewrite (take_app_le a k n) by lia.
  - rewrite drop_drop in Hr. by replace (len - length buf)%nat
      with (n + (len - (length buf + n)))%nat by lia.
Qed.

Lemma read_exact_delivers len (r : R) w :
  (len <= length w)%nat -> delivers r w ->
  wp (read_exact (D := D) len) r (fun res r' =>
    res = Ok (take len w) /\ delivers r' (drop len w)).
Proof.
  intros Hw Hd. pose proof (read_exact_loop_delivers len len [] r w) as Hx. cbn in Hx.
  rewrite Nat.sub_0_r in Hx. apply Hx; (done || lia).
Qed.
End ReadExact.

(** ** What the writing phase guarantees *)

Lemma div_ceil_spec n k : 0 <= n -> 0 < k ->
  n <= k * div_ceil n k < n + k.
Proof.
  intros Hn Hk. unfold div_ceil. pose proof (Z.div_mod (n + k - 1) k ltac:(lia)).
  pose proof (Z.mod_pos_bound (n + k - 1) k Hk). lia.
Qed.

Lemma esp_prefix_app l k :
  validate_esp_image_prefix l = Ok tt -> validate_esp_image_prefix (l ++ k) = Ok tt.
Proof.
  destruct l as [|a0 [|a1 [|a2 [|a3 [|a4 [|a5 [|a6 [|a7 l]]]]]]]]; try discriminate. done.
Qed.

Lemma chunk_count_facts size i :
  1 <= size < 2 ^ 32 -> 0 <= i < div_ceil size ENC_CHUNK_SIZE ->
  let len := expected_chunk_len size (div_ceil size ENC_CHUNK_SIZE) i in
  1 <= len <= 4096 /\ Z.min (4096 * i) size = 4096 * i /\
  Z.min (4096 * (i + 1)) size = 4096 * i + len.
Proof.
  intros Hs Hi. unfold expected_chunk_len, ENC_CHUNK_SIZE in *.
  pose proof (div_ceil_spec size 4096 ltac:(lia) ltac:(lia)) as Hc.
  set (n := div_ceil size 4096) in *.
  unfold wrap. rewrite !(Z.mod_small (n - 1)), (Z.mod_small (i * 4096)) by lia.
  destruct (Z.eqb_spec i (n - 1)) as [-> | Hne]; [rewrite Z.mod_small by lia|]; lia.
Qed.

Section Safety.
Context {D R N : Type} `{OtaDeviceLaws D} `{BufRead R} `{HttpClient N R}.
Context `{Sha256Laws} `{AesCtrLaws} `{SerdeJson}.

Section Phase.
Context (nonce hmac_key aes_key manifest_digest : bytes) (image_size : Z).
Context (Hsize : 1 <= image_size < 2 ^ 32).

Definition image_chunk (image : bytes) (j : Z) : bytes := take (Z.to_nat 4096) (drop (Z.to_nat (4096 * j)) image).

(** Chunk [j] of the image is the decryption of a ciphertext whose tag was
  accepted for that place. *)
Definition authentic_chunk (image : bytes) (j : Z) : Prop :=
exists ct tag,
  verify_chunk_hmac hmac_key manifest_digest j (4096 * j) (Z.of_nat (length ct)) ct tag = true /\
  aes_ctr_crypt_in_place aes_key nonce j ct = Ok (image_chunk image j).

(** The slot starts with [bs]. *)
Definition holds_prefix (d : D) (bs : bytes) : Prop :=
forall j b, bs !! j = Some b -> slot d !! j = Some b.

Record Inv (i : Z) (p : Progress) (d : D) : Prop := {
inv_len : Z.of_nat (length (sha_hasher p)) = Z.min (4096 * i) image_size;
inv_total : progress_plaintext p = Z.of_nat (length (sha_hasher p));
inv_offset : flash_offset p = Z.of_nat (length (sha_hasher p));
inv_slot : holds_prefix d (sha_hasher p);
inv_prefix :
  if prefix_validated p then validate_esp_image_prefix (sha_hasher p) = Ok tt
  else first_bytes p = sha_hasher p /\ (length (sha_hasher p) < 8)%nat;
inv_readback : readback_hasher p = take FLASH_READBACK_LEN (sha_hasher p);
inv_readback_len : progress_readback_len p = length (readback_hasher p);
inv_auth : forall j, 0 <= j < i -> authentic_chunk (sha_hasher p) j
}.

(** Only the image's own range of the slot has changed. *)
Record Frame (d d' : D) : Prop := {
frame_boot : boot_image d' = boot_image d;
frame_len : length (slot d') = length (slot d);
frame_rest : forall j, image_size <= Z.of_nat j -> slot d' !! j = slot d !! j
}.
Lemma frame_refl d : Frame d d.
Proof. by split. Qed.
Lemma frame_trans d1 d2 d3 : Frame d1 d2 -> Frame d2 d3 -> Frame d1 d3.
Proof. intros [? ? H12] [? ? H23]. split; try congruence. intros. rewrite H23; auto. Qed.

Lemma check_prefix_spec p d i plaintext first validated :
Inv i p d -> check_prefix (D := D) p plaintext = Ok (first, validated) ->
if validated then validate_esp_image_prefix (sha_hasher p ++ plaintext) = Ok tt
else first = sha_hasher p ++ plaintext /\ (length (sha_hasher p ++ plaintext) < 8)%nat.
Proof.
intros Hi Hc. pose proof (inv_prefix _ _ _ Hi) as Hp. unfold check_prefix in Hc.
destruct (prefix_validated p).
{ simplify_eq. by apply esp_prefix_app. }
destruct Hp as [Hfb Hlt]. rewrite Hfb in Hc.
set (t := take _ _) in Hc.
destruct (Nat.leb_spec 8 (length (sha_hasher p ++ t))) as [H8|H8].
- destruct (validate_esp_image_prefix (sha_hasher p ++ t)) as [[]|] eqn:E; [|done].
  cbn in Hc. simplify_eq. rewrite <- (take_drop
    (Nat.min (length plaintext) (ESP_IMAGE_PREFIX_LEN - length (sha_hasher p))) plaintext).
  rewrite app_assoc. by apply esp_prefix_app.
- apply ok_inj in Hc. simplify_eq.
  assert (t = plaintext) as ->; [|done]. subst t. apply take_ge.
  rewrite length_app, length_take in H8. unfold ESP_IMAGE_PREFIX_LEN in *. lia.
Qed.

Lemma image_chunk_app image plaintext j :
0 <= j -> 4096 * (j + 1) <= Z.of_nat (length image) ->
image_chunk (image ++ plaintext) j = image_chunk image j.
Proof.
intros Hj Hl. unfold image_chunk. rewrite drop_app_le, take_app_le; [done|..];
  rewrite ?length_drop; lia.
Qed.

Lemma image_chunk_last image plaintext j :
0 <= j -> 4096 * j = Z.of_nat (length image) -> (length plaintext <= Z.to_nat 4096)%nat ->
image_chunk (image ++ plaintext) j = plaintext.
Proof.
intros Hj Hl Hp. unfold image_chunk. rewrite drop_app_ge by lia.
replace (Z.to_nat (4096 * j) - length image)%nat with 0%nat by lia.
rewrite drop_0. by apply take_ge.
Qed.

Lemma holds_prefix_app d d' bs plaintext :
holds_prefix d bs -> (forall i, (i < length bs)%nat -> slot d' !! i = slot d !! i) ->
(forall i b, plaintext !! i = Some b -> slot d' !! (length bs + i)%nat = Some b) ->
holds_prefix d' (bs ++ plaintext).
Proof.
intros Hd Hs Hp j b Hj. apply lookup_app_Some in Hj as [Hj | [Hge Hj]].
- rewrite Hs by (by eapply lookup_lt_Some). by apply Hd.
- apply Hp in Hj. by replace (length bs + (j - length bs))%nat with j in Hj by lia.
Qed.

Lemma take_extend n (l k : bytes) :
take n (l ++ k) = take n l ++ take (Nat.min (length k) (n - length l)) k.
Proof.
rewrite take_app. f_equal. destruct (decide (length k <= n - length l)%nat).
- rewrite Nat.min_l by lia. by rewrite !take_ge by lia.
- by rewrite Nat.min_r by lia.
Qed.
Abbreviation num_chunks := (div_ceil image_size ENC_CHUNK_SIZE).

(** The progress a chunk adds, once its plaintext is in the slot. *)
Lemma inv_step i p d d' plaintext first validated rb_len :
Inv i p d -> 0 <= i < num_chunks ->
Z.of_nat (length plaintext) = expected_chunk_len image_size num_chunks i ->
check_prefix (D := D) p plaintext = Ok (first, validated) ->
holds_prefix d' (sha_hasher p ++ plaintext) ->
(exists ct tag, verify_chunk_hmac hmac_key manifest_digest i (4096 * i)
   (Z.of_nat (length ct)) ct tag = true /\
   aes_ctr_crypt_in_place aes_key nonce i ct = Ok plaintext) ->
let rem := (FLASH_READBACK_LEN - progress_readback_len p)%nat in
let copy := Nat.min (length plaintext) rem in
rb_len = expected_chunk_len image_size num_chunks i ->
Inv (i + 1) {|
  first_bytes := first; prefix_validated := validated;
  progress_plaintext := wrap 32 (progress_plaintext p + rb_len);
  flash_offset := wrap 32 (flash_offset p + rb_len);
  sha_hasher := sha_hasher p ++ plaintext;
  readback_hasher := if Nat.ltb 0 rem then readback_hasher p ++ take copy plaintext
                     else readback_hasher p;
  progress_readback_len := if Nat.ltb 0 rem then (progress_readback_len p + copy)%nat
                           else progress_readback_len p |} d'.
Proof.
intros Hi Hr Hl Hc Hs (ct & tag & Hv & Ha) rem copy ->.
destruct (chunk_count_facts image_size i Hsize Hr) as (Hn & Hmin & Hmin').
assert (Z.of_nat (length (sha_hasher p)) = 4096 * i) as Hlen by (rewrite (inv_len _ _ _ Hi); done).
assert (Z.of_nat (length (sha_hasher p ++ plaintext)) = Z.min (4096 * (i + 1)) image_size) as Hlen'
  by (rewrite length_app; lia).
assert (copy = Nat.min (length plaintext) (FLASH_READBACK_LEN - length (sha_hasher p))) as Hcopy.
{ subst copy rem. rewrite (inv_readback_len _ _ _ Hi), (inv_readback _ _ _ Hi), length_take. lia. }
assert ((if Nat.ltb 0 rem then readback_hasher p ++ take copy plaintext else readback_hasher p)
  = take FLASH_READBACK_LEN (sha_hasher p ++ plaintext)) as Hrb.
{ rewrite take_extend, <- (inv_readback _ _ _ Hi), <- Hcopy.
  destruct (Nat.ltb_spec 0 rem); [done|].
  assert (copy = 0%nat) as -> by (subst copy; lia). by rewrite take_0, app_nil_r. }
split; cbn [sha_hasher progress_plaintext flash_offset prefix_validated first_bytes
  readback_hasher progress_readback_len].
- done.
- rewrite (inv_total _ _ _ Hi), length_app. unfold wrap. rewrite Z.mod_small; lia.
- rewrite (inv_offset _ _ _ Hi), length_app. unfold wrap. rewrite Z.mod_small; lia.
- done.
- pose proof (check_prefix_spec _ _ _ _ _ _ Hi Hc). by destruct validated.
- exact Hrb.
- rewrite (inv_readback_len _ _ _ Hi). destruct (Nat.ltb_spec 0 rem); [|done].
  rewrite length_app, length_take. subst copy. lia.
- intros j Hj. destruct (decide (j = i)) as [-> | Hne].
  + exists ct, tag. rewrite image_chunk_last by lia. done.
  + destruct (inv_auth _ _ _ Hi j ltac:(lia)) as (ct' & tag' & Hv' & Ha').
    exists ct', tag'. rewrite image_chunk_app by lia. done.
Qed.

Lemma process_chunk_wp i p (r : R) d :
Inv i p d -> 0 <= i < num_chunks -> image_size <= partition_size d ->
wp (process_chunk nonce hmac_key aes_key manifest_digest image_size num_chunks i p) (r, d)
  (fun res s => Frame d s.2 /\ forall p', res = Ok p' -> Inv (i + 1) p' s.2).
Proof.
intros Hi Hr Hfit. destruct (chunk_count_facts image_size i Hsize Hr) as (Hn & Hmin & Hmin').
unfold process_chunk. apply wp_bind, wp_fst. eapply wp_mono; [apply read_exact_wp|].
intros [len_buf|e] r1; [intros _ | intros _; split; [apply frame_refl | done]].
apply wp_bind, wp_ensure; [intros Hlen%Z.eqb_eq | intros _; split; [apply frame_refl | done]].
rewrite Hlen. destruct (Z.ltb_spec ENC_CHUNK_SIZE (expected_chunk_len image_size num_chunks i))
  as [Hbad|_]; [unfold ENC_CHUNK_SIZE in *; lia|].
apply wp_bind, wp_ret. apply wp_bind, wp_fst. eapply wp_mono; [apply read_exact_wp|].
intros [ct|e] r2; [intros Hct | intros _; split; [apply frame_refl | done]].
apply wp_bind, wp_fst. eapply wp_mono; [apply read_exact_wp|].
intros [tag|e] r3; [intros Htag | intros _; split; [apply frame_refl | done]].
apply wp_bind, wp_ensure; [intros Hv | intros _; split; [apply frame_refl | done]].
destruct (crypt_ok aes_key nonce i ct) as (plaintext & Hpt & Hptl & _).
apply wp_bind, wp_lift. rewrite Hpt. cbn [map_err].
apply wp_bind, wp_lift. destruct (check_prefix p plaintext) as [[first validated]|e] eqn:Hc;
  [|split; [apply frame_refl | done]].
apply wp_bind, wp_snd, wp_prim. intros res d' Hw.
assert (Z.of_nat (length (sha_hasher p)) = 4096 * i) as Hshalen
  by (rewrite (inv_len _ _ _ Hi); done).
rewrite (inv_offset _ _ _ Hi) in Hw.
apply write_spec in Hw as (Hb & Hlen' & Hout & Hin); [|lia|rewrite Hptl, Hct; lia].
assert (Frame d d') as Hframe.
{ split; [done | done |]. intros j Hj. apply Hout. rewrite Hptl, Hct. lia. }
destruct res as [[]|e]; cbn [map_err]; [|split; [exact Hframe | done]].
apply wp_ret. split; [exact Hframe|]. intros p' Hp'. apply ok_inj in Hp' as <-. cbn [snd].
eapply inv_step; try done.
- rewrite Hptl, Hct. lia.
- eapply holds_prefix_app; [apply (inv_slot _ _ _ Hi) | |].
  + intros j Hj. apply Hout. lia.
  + intros j b Hj. rewrite <- (Hin eq_refl j b Hj). f_equal. lia.
- exists ct, tag. split; [|done]. rewrite <- Hshalen, <- (inv_offset _ _ _ Hi), Hct, Z2Nat.id by lia.
  exact Hv.
Qed.

Lemma process_chunks_wp n i p (r : R) d :
Inv i p d -> 0 <= i -> i + Z.of_nat n = num_chunks -> image_size <= partition_size d ->
wp (process_chunks nonce hmac_key aes_key manifest_digest image_size num_chunks
      (seqZ i (Z.of_nat n)) p) (r, d)
  (fun res s => Frame d s.2 /\ forall p', res = Ok p' -> Inv num_chunks p' s.2).
Proof.
revert i p r d. induction n as [|n IH]; intros i p r d Hi H0i Hn Hfit.
- cbn. unfold wp; cbn. split; [apply frame_refl|].
  intros p' Hp'. apply ok_inj in Hp' as <-. by replace num_chunks with i by lia.
- rewrite seqZ_cons by lia. cbn [process_chunks]. apply wp_bind.
  eapply wp_mono; [by apply process_chunk_wp; [| lia |]|].
  intros [p1|e] [r1 d1] [Hf Hp]; cbn [snd] in *; [|by split].
  replace (Z.pred (Z.of_nat (S n))) with (Z.of_nat n) by lia.
  replace (Z.succ i) with (i + 1) by lia.
  eapply wp_mono.
  + apply IH; [by apply Hp | lia | lia |].
    rewrite partition_size_slot, (frame_len _ _ Hf), <- partition_size_slot. done.
  + intros res s [Hf' Hp']. split; [by eapply frame_trans | done].
Qed.

(** What a completed stream has put into the slot. *)
Record Streamed (x : EncryptedResult) (d : D) (image : bytes) : Prop := {
st_total : total_plaintext x = image_size;
st_length : Z.of_nat (length image) = image_size;
st_digest : digest x = sha256 image;
st_slot : holds_prefix d image;
st_prefix : 8 <= image_size -> validate_esp_image_prefix image = Ok tt;
st_auth : forall j, 0 <= j < num_chunks -> authentic_chunk image j;
st_readback_len : readback_len x = length (take FLASH_READBACK_LEN image);
st_readback : readback_digest x = sha256 (take FLASH_READBACK_LEN image)
}.

Lemma num_chunks_pos : 0 < num_chunks.
Proof. pose proof (div_ceil_spec image_size ENC_CHUNK_SIZE). unfold ENC_CHUNK_SIZE in *. lia. Qed.

Lemma process_encrypted_body_wp (r : R) d :
image_size <= partition_size d ->
wp (process_encrypted_body nonce hmac_key aes_key manifest_digest image_size) (r, d)
  (fun res s => Frame d s.2 /\ forall x, res = Ok x -> exists image, Streamed x s.2 image).
Proof.
intros Hfit. unfold process_encrypted_body. apply wp_bind, wp_fst.
eapply wp_mono; [apply read_exact_wp|].
intros [header|e] r1; [intros _ | intros _; split; [apply frame_refl | done]].
apply wp_bind, wp_lift. destruct (validate_ota_header header) as [[]|e]; cbn [map_err];
  [|split; [apply frame_refl | done]].
apply wp_bind. pose proof num_chunks_pos.
replace (seqZ 0 num_chunks) with (seqZ 0 (Z.of_nat (Z.to_nat num_chunks))) by (f_equal; lia).
eapply wp_mono; [apply process_chunks_wp; [|lia|lia|done]|].
{ split; cbn; try done; [lia | split; [done | lia] | lia]. }
intros [p|e] [r2 d2] [Hf Hp]; cbn [snd] in *; [|by split].
specialize (Hp p eq_refl). apply wp_ret. split; [done|]. intros x Hx. apply ok_inj in Hx as <-.
exists (sha_hasher p). pose proof (div_ceil_spec image_size ENC_CHUNK_SIZE ltac:(lia)
  ltac:(unfold ENC_CHUNK_SIZE; lia)) as Hc. unfold ENC_CHUNK_SIZE in Hc at 1.
assert (Z.of_nat (length (sha_hasher p)) = image_size) as Hlen by (rewrite (inv_len _ _ _ Hp); lia).
split; cbn.
- by rewrite (inv_total _ _ _ Hp).
- done.
- done.
- apply (inv_slot _ _ _ Hp).
- intros Hge. pose proof (inv_prefix _ _ _ Hp) as Hpre.
  destruct (prefix_validated p); [done | lia].
- apply (inv_auth _ _ _ Hp).
- by rewrite (inv_readback_len _ _ _ Hp), (inv_readback _ _ _ Hp).
- by rewrite (inv_readback _ _ _ Hp).
Qed.
End Phase.

(** ** Preparation, redirects and activation *)

Context (allow_invalid_ca : bool) (ca_github ca_asset : bytes).

(** Erased or written only below [limit]. *)
Record Contained (limit : Z) (d d' : D) : Prop := {
  ct_boot : boot_image d' = boot_image d;
  ct_len : length (slot d') = length (slot d);
  ct_rest : forall j, limit <= Z.of_nat j -> slot d' !! j = slot d !! j
}.
Lemma contained_refl l d : Contained l d d.
Proof. by split. Qed.
Lemma contained_trans l d1 d2 d3 : Contained l d1 d2 -> Contained l d2 d3 -> Contained l d1 d3.
Proof. intros [? ? H12] [? ? H23]. split; try congruence. intros. rewrite H23; auto. Qed.
Lemma contained_quiet l d d' : slot d' = slot d -> boot_image d' = boot_image d -> Contained l d d'.
Proof. intros Hs Hb. by split; rewrite ?Hs. Qed.
Lemma contained_size l d d' : Contained l d d' -> partition_size d' = partition_size d.
Proof. intros Hc. by rewrite !partition_size_slot, (ct_len _ _ _ Hc). Qed.
Lemma frame_contained size l d d' : size <= l -> Frame size d d' -> Contained l d d'.
Proof. intros Hl [? ? ?]. split; auto with lia. Qed.

Definition sector_end (image_size : Z) : Z :=
  div_ceil image_size FLASH_SECTOR_SIZE * FLASH_SECTOR_SIZE.

Lemma sector_end_bounds size : 0 <= size -> size <= sector_end size < size + 4096.
Proof.
  intros Hs. unfold sector_end, FLASH_SECTOR_SIZE.
  pose proof (div_ceil_spec size 4096 Hs ltac:(lia)). lia.
Qed.

Lemma prepare_wp size d :
  1 <= size < 2 ^ 32 ->
  wp (prepare_inactive_slot size) d (fun res d' =>
    Contained (sector_end size) d d' /\
    (res = Ok tt -> size + 4096 <= partition_size d)).
Proof.
  intros Hs. unfold prepare_inactive_slot, wp. pose proof (partition_size_u32 d) as Hu.
  assert (0 <= partition_size d) as Hpos by (rewrite partition_size_slot; lia).
  pose proof (sector_end_bounds size ltac:(lia)) as Hend. unfold sector_end in *.
  replace (wrap 32 (partition_size d)) with (partition_size d)
    by (unfold wrap; rewrite Z.mod_small; lia).
  unfold sat_sub, FLASH_SECTOR_SIZE in *.
  destruct (Z.ltb_spec (Z.max (partition_size d - 4096) 0) size).
  - split; [apply contained_refl | done].
  - unfold wrap. rewrite Z.mod_small by lia. unfold prim.
    destruct (region_erase 0 _ d) as [r d'] eqn:E.
    apply erase_spec in E as (Hb & Hl & Hr); [|lia..].
    split; [|intros _; lia]. split; [done..|]. intros j Hj. apply Hr. lia.
Qed.

Lemma acquire_wp k (n : N) :
  wp (acquire_ota_tls_workspace (D := D) (R := R) k) n (fun _ _ => True).
Proof.
  revert n. induction k as [|k IH]; intros n; unfold wp; cbn [acquire_ota_tls_workspace]; [done|].
  destruct (tls_in_use n) as [[] n']; [apply IH | done].
Qed.

Lemma send_request_wp (u : bytes) (n : N) :
  wp (send_request (D := D) allow_invalid_ca ca_github ca_asset u) n (fun _ _ => True).
Proof.
  unfold send_request, tls_for_url. apply wp_bind.
  eapply (wp_mono _ _ (fun _ _ => True)).
  - destruct (starts_with _ u); [|done]. apply wp_bind.
    eapply wp_mono; [apply acquire_wp|]. by intros [] ?.
  - intros [tls|e] n' _; [|done]. unfold wp, get_response. by destruct (http_get u tls n').
Qed.

Section Fetch.
Context (m : OtaManifest) (nonce hmac_key aes_key manifest_digest : bytes).
Context (Hm : 1 <= image_size m < 2 ^ 32).

Definition streamed : EncryptedResult -> D -> bytes -> Prop :=
Streamed nonce hmac_key aes_key manifest_digest (image_size m).
Definition fetch_post (d : D) (res : result (OtaFlashWriteError partition_error flash_error)
  EncryptedResult) (s : N * D) : Prop :=
Frame (image_size m) d s.2 /\ forall x, res = Ok x -> exists image, streamed x s.2 image.

Lemma fetch_loop_wp fuel redirects u (n : N) d :
Z.of_nat fuel = MAX_REDIRECTS + 1 - redirects -> redirects <= MAX_REDIRECTS ->
image_size m <= partition_size d ->
wp (fetch_loop allow_invalid_ca ca_github ca_asset fuel redirects u m nonce hmac_key aes_key
      manifest_digest) (n, d) (fetch_post d).
Proof.
revert redirects u n d. induction fuel as [|fuel IH]; intros redirects u n d Hf Hr Hfit; [lia|].
assert (Hrefl : forall e n', fetch_post d (Err e) (n', d))
  by (intros; split; [apply frame_refl | done]).
cbn [fetch_loop]. apply wp_bind, wp_fst. eapply wp_mono; [apply send_request_wp|].
intros [response|e] n' _; [|by apply Hrefl].
destruct (is_redirection (status response)).
- apply wp_bind, wp_lift. destruct (redirect_location (headers response)); [|by apply Hrefl].
  apply wp_bind, wp_ensure; [intros Hlt%Z.ltb_lt | intros _; by apply Hrefl].
  apply wp_bind, wp_ensure; [intros _ | intros _; by apply Hrefl].
  apply IH; (done || lia).
- apply wp_bind, wp_lift. destruct (validate_response_metadata response (download_size m));
    [|by apply Hrefl].
  apply wp_snd. unfold wp.
  pose proof (process_encrypted_body_wp nonce hmac_key aes_key manifest_digest (image_size m) Hm
    (body response) d Hfit) as Hw. unfold wp in Hw.
  destruct (process_encrypted_body _ _ _ _ _ _) as [[res [r1 d1]]|]; [exact Hw | done].
Qed.

Lemma fetch_wp (n : N) d :
image_size m <= partition_size d ->
wp (fetch_and_process_encrypted allow_invalid_ca ca_github ca_asset m nonce hmac_key aes_key
      manifest_digest) (n, d) (fetch_post d).
Proof.
intros Hfit. unfold fetch_and_process_encrypted.
apply wp_bind, wp_ensure; [intros _ | intros _; split; [apply frame_refl | done]].
apply fetch_loop_wp; (done || reflexivity).
Qed.
End Fetch.

(** The block of the source that writes the slot. *)
Definition write_phase (m : OtaManifest) (nonce hmac_key aes_key manifest_digest : bytes)
  : M (OtaFlashWriteError partition_error flash_error) (N * D) EncryptedResult :=
  on_snd (prepare_inactive_slot (image_size m));;
  fetch_and_process_encrypted allow_invalid_ca ca_github ca_asset m nonce hmac_key aes_key
    manifest_digest.

Lemma write_phase_wp m nonce hmac_key aes_key manifest_digest (n : N) d :
  1 <= image_size m < 2 ^ 32 ->
  wp (write_phase m nonce hmac_key aes_key manifest_digest) (n, d) (fun res s =>
    Contained (sector_end (image_size m)) d s.2 /\
    (forall x, res = Ok x -> exists image,
       streamed m nonce hmac_key aes_key manifest_digest x s.2 image)).
Proof.
  intros Hm. unfold write_phase. apply wp_bind, wp_snd.
  eapply wp_mono; [by apply prepare_wp|].
  intros [[]|e] d1 [Hc Hfit]; [|by split].
  eapply wp_mono; [apply fetch_wp; [done|]|].
  - rewrite (contained_size _ _ _ Hc). specialize (Hfit eq_refl). lia.
  - intros res [n2 d2] [Hf Hx]. split; [|done]. eapply contained_trans; [done|].
    eapply frame_contained; [|done]. apply sector_end_bounds. lia.
Qed.

(** A partition the bootloader may start under manifest [m]: it begins with
    an image of the manifest's size and digest, with a plausible ESP header,
    each of whose chunks was decrypted from a ciphertext authenticated for
    its place under the manifest's own digest and key. *)
Definition bootable (m : OtaManifest) (master_key : bytes) (partition : bytes) : Prop :=
  exists nonce canonical image,
    let '(aes_key, hmac_key) := derive_subkeys master_key (enc_key_id (enc m)) in
    parse_nonce_prefix (nonce_prefix (enc m)) = Ok nonce /\
    canonical_unsigned_json m = Ok canonical /\
    image `prefix_of` partition /\ Z.of_nat (length image) = image_size m /\
    eq_ignore_ascii_case (sha256_hex (sha256 image)) (image_sha256 m) = true /\
    (8 <= image_size m -> validate_esp_image_prefix image = Ok tt) /\
    forall j, 0 <= j < div_ceil (image_size m) ENC_CHUNK_SIZE ->
      authentic_chunk nonce hmac_key aes_key (compute_manifest_digest canonical) image j.

Lemma holds_prefix_prefix d image : holds_prefix d image -> image `prefix_of` slot d.
Proof.
  intros Hp. exists (drop (length image) (slot d)).
  rewrite <- (take_drop (length image) (slot d)) at 1. f_equal.
  apply list_eq. intros j. destruct (decide (j < length image)%nat) as [Hj|].
  - rewrite lookup_take_lt by done. destruct (lookup_lt_is_Some_2 _ _ Hj) as [b Hb].
    rewrite Hb. by apply Hp.
  - rewrite lookup_take_ge by lia. symmetry. apply lookup_ge_None. lia.
Qed.

Lemma readback_wp x d :
  wp (verify_flash_readback x) d (fun _ d' => slot d' = slot d /\ boot_image d' = boot_image d).
Proof.
  unfold verify_flash_readback. apply wp_bind, wp_prim. intros [bs|e] d' Hr;
    apply read_spec in Hr as (Hs & Hb & _); cbn [map_err]; [|done].
  apply wp_ensure; done.
Qed.

Lemma download_wp m master_key (n : N) d :
  1 <= image_size m < 2 ^ 32 ->
  wp (download_and_write_to_flash allow_invalid_ca ca_github ca_asset m master_key) (n, d)
    (fun res s =>
      (boot_image s.2 = boot_image d \/ bootable m master_key (boot_image s.2)) /\
      (res = Ok tt -> bootable m master_key (boot_image s.2))).
Proof.
  intros Hm. unfold download_and_write_to_flash.
  destruct (derive_subkeys master_key (enc_key_id (enc m))) as [aes_key hmac_key] eqn:Hkeys.
  assert (Herr : forall d' e, boot_image d' = boot_image d ->
    (boot_image d' = boot_image d \/ bootable m master_key (boot_image d')) /\
    (@Err (OtaFlashWriteError partition_error flash_error) unit e = Ok tt ->
     bootable m master_key (boot_image d'))) by (intros; split; [by left | done]).
  apply wp_bind, wp_lift. destruct (parse_nonce_prefix _) as [nonce|] eqn:Hnonce; [|by apply Herr].
  apply wp_bind, wp_lift. destruct (canonical_unsigned_json m) as [canonical|] eqn:Hcan;
    [|by apply Herr]. cbn [map_err].
  apply wp_bind, wp_snd, wp_prim. intros [[]|e] d1 Ho%updater_new_spec; destruct Ho as [_ Hb1];
    [|by apply Herr].
  apply wp_bind, wp_snd, wp_prim. intros [[]|e] d2 Ho%updater_next_spec; destruct Ho as [_ Hb2];
    [|apply Herr; cbn [snd]; congruence].
  set (dg := compute_manifest_digest canonical).
  pose proof (write_phase_wp m nonce hmac_key aes_key dg n d2 Hm) as Hw. unfold write_phase in Hw.
  apply wp_bind. eapply wp_mono; [exact (wp_bind_inv _ _ _ _ Hw)|]. clear Hw.
  intros [[]|e] [n3 d3] Hw; [|apply Herr; destruct Hw as [Hc _]; cbn [snd] in Hc;
    cbn [snd]; rewrite (ct_boot _ _ _ Hc); congruence].
  apply wp_bind. eapply wp_mono; [exact Hw|]. clear Hw.
  intros [x|e] [n4 d4] Hw; [|apply Herr; destruct Hw as [Hc _]; cbn [snd] in Hc;
    cbn [snd]; rewrite (ct_boot _ _ _ Hc); congruence].
  destruct Hw as [Hc Hx]. destruct (Hx x eq_refl) as (image & Hst). cbn [snd] in *.
  assert (boot_image d4 = boot_image d) as Hb4 by (rewrite (ct_boot _ _ _ Hc); congruence).
  apply wp_bind, wp_lift. unfold post_verify at 1.
  destruct (total_plaintext x =? image_size m); cbn [guard_ok mbind result_bind]; [|by apply Herr].
  destruct (eq_ignore_ascii_case _ _) eqn:Hsha; cbn [guard_ok]; [|by apply Herr].
  assert (Hgood : forall d', boot_image d' = slot d4 -> bootable m master_key (boot_image d')).
  { intros d' ->. exists nonce, canonical, image. rewrite Hkeys.
    split_and!; try done; [by apply holds_prefix_prefix, (st_slot _ _ _ _ _ _ _ _ Hst) |
      apply (st_length _ _ _ _ _ _ _ _ Hst) |
      by rewrite <- (st_digest _ _ _ _ _ _ _ _ Hst) |
      apply (st_prefix _ _ _ _ _ _ _ _ Hst) | apply (st_auth _ _ _ _ _ _ _ _ Hst)]. }
  apply wp_bind, wp_snd, wp_prim. intros [[]|e] d5 Ho%updater_next_spec; destruct Ho as [Hs5 Hb5];
    [|apply Herr; cbn [snd]; congruence].
  apply wp_bind, wp_snd. eapply wp_mono; [apply readback_wp|].
  intros [[]|e] d6 [Hs6 Hb6]; [|apply Herr; cbn [snd]; congruence].
  apply wp_bind, wp_snd, wp_prim. intros res7 d7 Ho%updater_activate_spec.
  destruct Ho as [Hb7 Hok7]. destruct res7 as [[]|e]; cbn [map_err].
  - apply wp_snd, wp_prim. intros res8 d8 Hb8%updater_set_spec. cbn [snd].
    assert (bootable m master_key (boot_image d8)) as Hg.
    { apply Hgood. rewrite Hb8, (Hok7 eq_refl). congruence. }
    split; [by right | done].
  - cbn [snd]. split; [|done]. destruct Hb7 as [-> | Hb7]; [left; congruence|].
    right. apply Hgood. congruence.
Qed.

(** C1: what the device boots next. Whatever the network, the flash or the
    boot metadata do, the update routine does not panic, and afterwards the
    partition selected for the next boot holds what it held before or an
    image fully verified against the signed manifest; when the routine
    succeeds it is the latter. *)
Theorem boot_image_verified (m : OtaManifest) (master_key : bytes) (n : N) (d : D)
    (Hm : 1 <= image_size m < 2 ^ 32) :
  exists res n' d',
    download_and_write_to_flash allow_invalid_ca ca_github ca_asset m master_key (n, d) =
      Some (res, (n', d')) /\
    (boot_image d' = boot_image d \/ bootable m master_key (boot_image d')) /\
    (res = Ok tt -> bootable m master_key (boot_image d')).
Proof.
  destruct (wp_some _ _ _ (download_wp m master_key n d Hm)) as (res & [n' d'] & Hr & Hq).
  exists res, n', d'. split; [done | exact Hq].
Qed.

(** C36: while an image is erased and written, whatever is received and
    however it ends, the boot selection and the bytes of the slot past the
    image's last sector stay as they were, and with a sector-aligned
    partition its last sector is never touched. *)
Theorem writes_contained (m : OtaManifest) (nonce hmac_key aes_key manifest_digest : bytes)
    (n : N) (d : D) (Hm : 1 <= image_size m < 2 ^ 32)
    (Haligned : partition_size d mod 4096 = 0) :
  exists res n' d',
    write_phase m nonce hmac_key aes_key manifest_digest (n, d) = Some (res, (n', d')) /\
    boot_image d' = boot_image d /\ length (slot d') = length (slot d) /\
    (forall j, sector_end (image_size m) <= Z.of_nat j -> slot d' !! j = slot d !! j) /\
    (forall x, res = Ok x -> sector_end (image_size m) <= partition_size d - 4096).
Proof.
  destruct (wp_some _ _ _ (write_phase_wp m nonce hmac_key aes_key manifest_digest n d Hm))
    as (res & [n' d'] & Hr & Hc & _). exists res, n', d'. cbn [snd] in Hc.
  split_and!; [done | apply (ct_boot _ _ _ Hc) | apply (ct_len _ _ _ Hc) | apply (ct_rest _ _ _ Hc) |].
  intros x ->. unfold write_phase, mbind, M_bind, on_snd in Hr.
  pose proof (prepare_wp (image_size m) d Hm) as Hp. unfold wp in Hp.
  destruct (prepare_inactive_slot (image_size m) d) as [[[[]|e] d1]|]; [|done..].
  destruct Hp as [_ Hp]. specialize (Hp eq_refl).
  assert (sector_end (image_size m) < partition_size d) as Hlt.
  { pose proof (sector_end_bounds (image_size m) ltac:(lia)). lia. }
  unfold sector_end, FLASH_SECTOR_SIZE in *.
  pose proof (div_ceil_spec (image_size m) 4096 ltac:(lia) ltac:(lia)) as Hd.
  pose proof (Z.div_mod (partition_size d) 4096 ltac:(lia)). nia.
Qed.
End Safety.

(** ** The packing tool's stream

    [pack] is the container [scripts/ota-pack.sh] writes: the header, then per
    chunk its length, its ciphertext and its tag. *)
Lemma esp_prefix_take l k :
  validate_esp_image_prefix (l ++ k) = Ok tt -> (8 <= length l)%nat ->
  validate_esp_image_prefix l = Ok tt.
Proof.
  destruct l as [|a0 [|a1 [|a2 [|a3 [|a4 [|a5 [|a6 [|a7 l]]]]]]]]; cbn [length]; try lia. done.
Qed.

Lemma wp_and {E S A} (m : M E S A) s (Q Q' : result E A -> S -> Prop) :
  wp m s Q -> wp m s Q' -> wp m s (fun r s' => Q r s' /\ Q' r s').
Proof. unfold wp. destruct (m s) as [[r s']|]; auto. Qed.

Section Roundtrip.
Context {D R : Type} `{OtaDeviceLaws D} `{BufReadLaws R} `{Sha256Laws} `{AesCtrLaws}.
Context (nonce hmac_key aes_key manifest_digest image : bytes) (image_size : Z).
Context (Hsize : 1 <= image_size < 2 ^ 32) (Himage : Z.of_nat (length image) = image_size).
Context (Hkey : length hmac_key = 32%nat).

Definition seal (j : Z) : bytes :=
  default [] (ok (aes_ctr_crypt_in_place aes_key nonce j (image_chunk image j))).
Definition pack_chunk (j : Z) : bytes :=
  let n := Z.of_nat (length (image_chunk image j)) in
  be_bytes 4 n ++ seal j ++ compute_chunk_hmac hmac_key manifest_digest j (4096 * j) n (seal j).
Definition pack_header : bytes := OTA_HEADER_MAGIC ++ [OTA_V2_HEADER_VERSION] ++ replicate 7 0.
Definition pack : bytes :=
  pack_header ++ mjoin (pack_chunk <$> seqZ 0 (div_ceil image_size ENC_CHUNK_SIZE)).

Lemma seal_spec j :
  aes_ctr_crypt_in_place aes_key nonce j (seal j) = Ok (image_chunk image j) /\
  length (seal j) = length (image_chunk image j).
Proof.
  destruct (crypt_ok aes_key nonce j (image_chunk image j)) as (ct & Hct & Hl & _).
  unfold seal. rewrite Hct. cbn [ok default from_option id].
  split; [by apply crypt_twice | done].
Qed.

Abbreviation num_chunks := (div_ceil image_size ENC_CHUNK_SIZE).

Lemma length_image_chunk j :
  0 <= j < num_chunks ->
  Z.of_nat (length (image_chunk image j)) = expected_chunk_len image_size num_chunks j.
Proof.
  intros Hj. destruct (chunk_count_facts image_size j Hsize Hj) as (Hn & Hmin & Hmin').
  unfold image_chunk. rewrite length_take, length_drop. lia.
Qed.

(** Every write within the partition succeeds. *)
Context (Hwrites : forall o bs (d : D), 0 <= o -> o + Z.of_nat (length bs) <= partition_size d ->
  exists d', region_write o bs d = (Ok tt, d')).
Context (Hesp : 8 <= image_size -> validate_esp_image_prefix image = Ok tt).

Definition received (i : Z) (p : Progress) : Prop :=
  sha_hasher p = take (Z.to_nat (4096 * i)) image.

Lemma take_next i : 0 <= i ->
  take (Z.to_nat (4096 * (i + 1))) image =
    take (Z.to_nat (4096 * i)) image ++ image_chunk image i.
Proof.
  intros Hi. unfold image_chunk. rewrite take_take_drop. f_equal. lia.
Qed.

Lemma check_prefix_ok i p d :
  0 <= i -> Inv nonce hmac_key aes_key manifest_digest image_size i p d -> received i p ->
  exists first validated,
    check_prefix (D := D) p (image_chunk image i) = Ok (first, validated).
Proof.
  intros Hi Hinv Hrec. unfold check_prefix. pose proof (inv_prefix _ _ _ _ _ _ _ _ Hinv) as Hp.
  destruct (prefix_validated p); [by do 2 eexists|].
  destruct Hp as [Hfb Hlt]. rewrite Hfb.
  set (t := take _ _). destruct (Nat.leb_spec 8 (length (sha_hasher p ++ t))) as [Hge|];
    [|by do 2 eexists].
  assert (exists k, image = (sha_hasher p ++ t) ++ k) as [k Hk].
  { exists (drop (Nat.min (length (image_chunk image i))
      (ESP_IMAGE_PREFIX_LEN - length (sha_hasher p))) (image_chunk image i) ++
      drop (Z.to_nat (4096 * (i + 1))) image).
    subst t. rewrite <- app_assoc, (app_assoc (take _ _)), take_drop, app_assoc, Hrec, <- take_next,
      take_drop by done. done. }
  rewrite (esp_prefix_take _ k); [by do 2 eexists | | done].
  rewrite <- Hk. apply Hesp. rewrite <- Himage, Hk, length_app. lia.
Qed.

Lemma process_chunk_ok i p (r : R) d w :
  Inv nonce hmac_key aes_key manifest_digest image_size i p d -> 0 <= i < num_chunks ->
  image_size <= partition_size d -> received i p -> delivers r (pack_chunk i ++ w) ->
  wp (process_chunk nonce hmac_key aes_key manifest_digest image_size num_chunks i p) (r, d)
    (fun res s => exists p', res = Ok p' /\ received (i + 1) p' /\ delivers s.1 w).
Proof.
  intros Hi Hr Hfit Hrec Hd.
  destruct (chunk_count_facts image_size i Hsize Hr) as (Hn & Hmin & Hmin').
  pose proof (length_image_chunk i Hr) as Hl. destruct (seal_spec i) as [Hseal Hsl].
  unfold pack_chunk in Hd. rewrite Hl in Hd.
  set (n := expected_chunk_len image_size num_chunks i) in *.
  set (tag := compute_chunk_hmac hmac_key manifest_digest i (4096 * i) n (seal i)) in *.
  destruct (compute_chunk_hmac_bytes hmac_key manifest_digest i (4096 * i) n (seal i) Hkey)
    as [Htag Htagl]. fold tag in Htag, Htagl.
  rewrite <- !app_assoc in Hd.
  unfold process_chunk. apply wp_bind, wp_fst. eapply wp_mono.
  { apply (read_exact_delivers 4 r); [|exact Hd]. rewrite length_app, length_be_bytes. lia. }
  intros res r1 [-> Hd1]. 
  rewrite (take_app_length' (be_bytes 4 n)) by (by rewrite length_be_bytes).
  rewrite (drop_app_length' (be_bytes 4 n)) in Hd1 by (by rewrite length_be_bytes).
  rewrite of_be_be by (change (256 ^ Z.of_nat 4) with (2 ^ 32); lia).
  apply wp_bind, wp_ensure; [intros _ | intros Hbad%Z.eqb_neq; done].
  destruct (Z.ltb_spec ENC_CHUNK_SIZE n) as [Hbad|_]; [unfold ENC_CHUNK_SIZE in *; lia|].
  apply wp_bind, wp_ret. apply wp_bind, wp_fst. eapply wp_mono.
  { apply (read_exact_delivers (Z.to_nat n) r1); [|exact Hd1]. rewrite length_app. lia. }
  intros res r2 [-> Hd2]. 
  rewrite (take_app_length' (seal i)) by lia. rewrite (drop_app_length' (seal i)) in Hd2 by lia.
  apply wp_bind, wp_fst. eapply wp_mono.
  { apply (read_exact_delivers HMAC_TAG_SIZE r2); [|exact Hd2]. rewrite length_app, Htagl.
    unfold HMAC_TAG_SIZE, SHA256_OUTPUT_SIZE. lia. }
  intros res r3 [-> Hd3].
  rewrite (take_app_length' tag w HMAC_TAG_SIZE) by (by rewrite Htagl).
  rewrite (drop_app_length' tag w HMAC_TAG_SIZE) in Hd3 by (by rewrite Htagl).
  assert (flash_offset p = 4096 * i) as Hoff.
  { rewrite (inv_offset _ _ _ _ _ _ _ _ Hi), (inv_len _ _ _ _ _ _ _ _ Hi). done. }
  apply wp_bind, wp_ensure.
  2:{ intros Hbad. rewrite Hoff in Hbad. assert (verify_chunk_hmac hmac_key manifest_digest i
        (4096 * i) n (seal i) tag = true) by (by apply verify_chunk_hmac_spec). congruence. }
  intros _. apply wp_bind, wp_lift. rewrite Hseal. cbn [map_err].
  apply wp_bind, wp_lift. destruct (check_prefix_ok i p d ltac:(lia) Hi Hrec) as (first & v & ->).
  apply wp_bind, wp_snd, wp_prim. intros res d' Hw. rewrite Hoff in Hw.
  destruct (Hwrites (4096 * i) (image_chunk image i) d) as [d'' Hw']; [lia | lia |].
  rewrite Hw in Hw'. simplify_eq. cbn [map_err]. apply wp_ret.
  eexists. split; [done|]. split; [|done]. unfold received in *. cbn [sha_hasher].
  by rewrite take_next, Hrec by lia.
Qed.

Lemma process_chunks_ok n i p (r : R) d w :
  Inv nonce hmac_key aes_key manifest_digest image_size i p d -> 0 <= i ->
  i + Z.of_nat n = num_chunks -> image_size <= partition_size d -> received i p ->
  delivers r (mjoin (pack_chunk <$> seqZ i (Z.of_nat n)) ++ w) ->
  wp (process_chunks nonce hmac_key aes_key manifest_digest image_size num_chunks
        (seqZ i (Z.of_nat n)) p) (r, d)
    (fun res s => exists p', res = Ok p' /\ received num_chunks p').
Proof.
  revert i p r d. induction n as [|n IH]; intros i p r d Hi H0i Hn Hfit Hrec Hd.
  { unfold wp. cbn. eexists. split; [done|]. by replace num_chunks with i by lia. }
  rewrite seqZ_cons in * by lia. rewrite fmap_cons in Hd. cbn [mjoin list_join] in Hd.
  rewrite <- app_assoc in Hd. cbn [process_chunks]. apply wp_bind.
  replace (Z.pred (Z.of_nat (S n))) with (Z.of_nat n) in * by lia.
  replace (Z.succ i) with (i + 1) in * by lia.
  eapply wp_mono; [apply wp_and; [eapply process_chunk_ok | eapply process_chunk_wp]; try done; lia|].
  intros res [r1 d1] [(p1 & -> & Hrec1 & Hd1) [Hf Hinv]]. cbn [fst snd] in *.
  apply IH; try done; [by apply Hinv | lia | lia |].
  rewrite partition_size_slot, (frame_len _ _ _ Hf), <- partition_size_slot. done.
Qed.

(** a stream packed for the device is accepted: when the body delivers
    what the packing tool writes for an image of the manifest's size, the
    flash accepts writes and the image has a plausible ESP header, the
    stream is processed to the end and leaves exactly that image at the
    start of the slot, with its size and its SHA-256 as the result. *)
Theorem packed_stream_accepted (r : R) (d : D) (rest : bytes)
    (Hdelivers : delivers r (pack ++ rest)) (Hfit : image_size <= partition_size d) :
  exists x r' d',
    process_encrypted_body nonce hmac_key aes_key manifest_digest image_size (r, d) =
      Some (Ok x, (r', d')) /\
    take (length image) (slot d') = image /\
    total_plaintext x = image_size /\ digest x = sha256 image.
Proof.
  assert (wp (process_encrypted_body nonce hmac_key aes_key manifest_digest image_size) (r, d)
    (fun res s => (exists x, res = Ok x) /\ forall x i, res = Ok x ->
      Streamed nonce hmac_key aes_key manifest_digest image_size x s.2 i -> i = image)) as Hok.
  { unfold process_encrypted_body, pack in *. rewrite <- !app_assoc in Hdelivers.
    apply wp_bind, wp_fst. eapply wp_mono.
    { apply (read_exact_delivers OTA_V2_HEADER_SIZE r); [|exact Hdelivers].
      rewrite length_app. change (length pack_header) with 16%nat. unfold OTA_V2_HEADER_SIZE. lia. }
    intros res r1 [-> Hd1]. rewrite take_app_length' by done. rewrite drop_app_length' in Hd1 by done.
    apply wp_bind, wp_lift. change (validate_ota_header pack_header) with (@Ok OtaHeaderError _ tt).
    cbn [map_err]. apply wp_bind. pose proof (num_chunks_pos image_size Hsize) as Hpos.
    replace (seqZ 0 num_chunks) with (seqZ 0 (Z.of_nat (Z.to_nat num_chunks))) in * by (f_equal; lia).
    assert (Inv nonce hmac_key aes_key manifest_digest image_size 0 initial_progress d) as Hinv.
    { split; cbn; try done; [lia | split; [done | lia] | lia]. }
    eapply wp_mono; [apply wp_and; [eapply process_chunks_ok | eapply process_chunks_wp]; try done; lia|].
    intros res [r2 d2] [(p & -> & Hrec) [Hf Hi]]. specialize (Hi p eq_refl). cbn [snd] in *.
    apply wp_ret. split; [by eexists|]. intros x im Hx Hst. apply ok_inj in Hx.
    pose proof (st_slot _ _ _ _ _ _ _ _ Hst) as Hs. pose proof (st_length _ _ _ _ _ _ _ _ Hst) as Hsl.
    pose proof (inv_slot _ _ _ _ _ _ _ _ Hi) as Hs'. unfold received in Hrec.
    assert (take (Z.to_nat (4096 * num_chunks)) image = image) as Hall.
    { apply take_ge. pose proof (div_ceil_spec image_size ENC_CHUNK_SIZE ltac:(lia)
        ltac:(unfold ENC_CHUNK_SIZE; lia)). unfold ENC_CHUNK_SIZE in *. lia. }
    rewrite Hrec, Hall in Hs'. apply holds_prefix_prefix in Hs as [k1 Hk1].
    apply holds_prefix_prefix in Hs' as [k2 Hk2].
    cbn [snd] in Hk1, Hk2. rewrite Hk1 in Hk2. cbn [snd] in *.
    apply app_inj_1 in Hk2 as [-> _]; [done | lia]. }
  destruct (wp_some _ _ _ (wp_and _ _ _ _ Hok
    (process_encrypted_body_wp nonce hmac_key aes_key manifest_digest image_size Hsize r d Hfit)))
    as (res & [r' d'] & Hr & [[x ->] Huniq] & Hf & Hst).
  destruct (Hst x eq_refl) as (im & Him). pose proof (Huniq x im eq_refl Him) as ->.
  exists x, r', d'. split_and!; [exact Hr | | apply (st_total _ _ _ _ _ _ _ _ Him) |
    apply (st_digest _ _ _ _ _ _ _ _ Him)].
  destruct (holds_prefix_prefix _ _ (st_slot _ _ _ _ _ _ _ _ Him)) as [k Hk]. cbn [snd] in Hk.
  by rewrite Hk, take_app_length.
Qed.
End Roundtrip.

(** ** Which servers are contacted *)
Section Requests.
Context {D R N : Type} `{OtaDevice D} `{BufRead R} `{HttpClient N R}.
Context `{Sha256} `{AesCtr}.
Context (allow_invalid_ca : bool) (ca_github ca_asset : bytes).
(** The requests a network has made, in order. *)
Context (log : N -> list (bytes * option TlsVerify)).
Context (Hget : forall u t n r n', http_get u t n = (r, n') -> log n' = log n ++ [(u, t)]).
Context (Htls : forall n b n', tls_in_use n = (b, n') -> log n' = log n).

(** The TLS configuration each URL must be fetched with. *)
Definition required_tls (u : bytes) : option TlsVerify :=
  if starts_with (lit "https://") u then
    Some (if allow_invalid_ca then VerifyNone
          else VerifyCertificate (if starts_with (lit "https://github.com/") u
                                  then ca_github else ca_asset))
  else None.

Definition approved_redirect (x : bytes * option TlsVerify) : Prop :=
  starts_with (lit "https://") x.1 = true /\ is_ok (validate_ota_url_policy x.1) = true /\
  x.2 = required_tls x.1.

Lemma acquire_log k n :
  wp (acquire_ota_tls_workspace (D := D) (R := R) k) n (fun _ n' => log n' = log n).
Proof.
  revert n. induction k as [|k IH]; intros n; unfold wp; cbn [acquire_ota_tls_workspace]; [done|].
  destruct (tls_in_use n) as [[] n'] eqn:E; apply Htls in E; [|done].
  eapply wp_mono; [apply IH|]. cbn. congruence.
Qed.

Lemma send_request_log u n :
  wp (send_request (D := D) allow_invalid_ca ca_github ca_asset u) n (fun res n' =>
    log n' = log n ++ [(u, required_tls u)] \/ log n' = log n /\ is_ok res = false).
Proof.
  unfold send_request, tls_for_url. apply wp_bind.
  eapply (wp_mono _ _ (fun r n' => log n' = log n /\
    match r with Ok t => t = required_tls u | Err _ => True end)).
  - unfold required_tls, ota_tls_verify_for_url. destruct (starts_with (lit "https://") u); [|done].
    apply wp_bind. eapply wp_mono; [apply acquire_log|]. intros [] n' Hn; [|done].
    apply wp_ret. split; [done|]. destruct allow_invalid_ca; [done|]. by destruct (starts_with _ u).
  - intros [tls|e] n' [Hn Ht]; [|by right]. unfold wp, get_response.
    destruct (http_get u tls n') as [r n''] eqn:E. apply Hget in E. left. by rewrite E, Hn, Ht.
Qed.

Definition fetch_trace (u : bytes) (fuel : nat) (n : N) (s : N * D) : Prop :=
  exists trace, log s.1 = log n ++ trace /\ (length trace <= fuel)%nat /\
    (trace = [] \/ exists redirects, trace = (u, required_tls u) :: redirects /\
                                     Forall approved_redirect redirects).

Lemma fetch_loop_trace fuel redirects u m nonce hk ak dg n d res s :
  fetch_loop allow_invalid_ca ca_github ca_asset fuel redirects u m nonce hk ak dg (n, d) =
    Some (res, s) -> fetch_trace u fuel n s.
Proof.
  revert redirects u n d. induction fuel as [|fuel IH]; intros redirects u n d Hrun; [done|].
  cbn [fetch_loop] in Hrun. unfold mbind at 1, M_bind at 1, on_fst in Hrun.
  pose proof (send_request_log u n) as Hs. unfold wp in Hs.
  destruct (send_request _ _ _ u n) as [[[response|e] n1]|]; [|simplify_eq|done].
  2:{ unfold fetch_trace; cbn [fst]; destruct Hs as [Hs | [Hs _]]; [exists [(u, required_tls u)] | exists []];
        rewrite Hs, ?app_nil_r; (split; [done|]); cbn; (split; [lia|]); eauto. }
  destruct Hs as [Hs | [_ [=]]].
  assert (Hone : forall d', fetch_trace u (S fuel) n (n1, d')).
  { intros d'. exists [(u, required_tls u)]. cbn [fst length]. split; [done|].
    split; [lia | eauto]. }
  destruct (is_redirection (status response)).
  - unfold mbind, M_bind, lift in Hrun.
    destruct (redirect_location (headers response)) as [next|]; [|simplify_eq; apply Hone].
    unfold ensure, lift in Hrun.
    destruct (redirects <? MAX_REDIRECTS); cbn [guard_ok] in Hrun; [|simplify_eq; apply Hone].
    destruct (starts_with (lit "https://") next && is_ok (validate_ota_url_policy next)) eqn:Hp;
      cbn [guard_ok] in Hrun; [|simplify_eq; apply Hone].
    apply andb_true_iff in Hp as [Hp1 Hp2].
    apply IH in Hrun as (trace & Hlog & Hlen & Htrace).
    exists ((u, required_tls u) :: trace). cbn [fst] in Hlog. rewrite Hlog, Hs, <- app_assoc.
    split; [done|].
    cbn. split; [lia|]. right. exists trace. split; [done|].
    destruct Htrace as [-> | (redirs & -> & Hr)]; [constructor|].
    constructor; [by split_and! | done].
  - unfold mbind, M_bind, lift, on_snd in Hrun.
    destruct (validate_response_metadata _ _) as [[]|]; [|simplify_eq; apply Hone].
    destruct (process_encrypted_body _ _ _ _ _ _) as [[x [r' d']]|]; [|done].
    simplify_eq. apply Hone.
Qed.

(** the download contacts at most four servers, the first at the
    manifest's URL and every other at a redirect target that is [https]
    and passes the URL policy; each [https] request pins the certificate
    authority of its host unless the build allows invalid ones. *)
Theorem requests_follow_policy (m : OtaManifest) (nonce hk ak dg : bytes) (n : N) (d : D)
    (res : result (OtaFlashWriteError partition_error flash_error) EncryptedResult) (s : N * D)
    (Hrun : fetch_and_process_encrypted allow_invalid_ca ca_github ca_asset m nonce hk ak dg (n, d)
      = Some (res, s)) :
  exists trace, log s.1 = log n ++ trace /\ (length trace <= 4)%nat /\
    (trace = [] \/ exists redirects, trace = (url m, required_tls (url m)) :: redirects /\
                                     Forall approved_redirect redirects).
Proof.
  unfold fetch_and_process_encrypted, mbind, M_bind, ensure, lift in Hrun.
  destruct (Z.of_nat (length (url m)) <=? MAX_REDIRECT_URL_LEN); cbn [guard_ok] in Hrun.
  - apply fetch_loop_trace in Hrun. exact Hrun.
  - simplify_eq. exists []. rewrite app_nil_r. cbn. split; [done|]. split; [lia | by left].
Qed.
End Requests.

(** ** A concrete device, network and stream *)
Module Sample.
Export OtaManifest.Sample OtaCrypto.Sample.

(** A flash with an 8 KiB inactive partition. *)
Definition partition := bounded Z (Z.to_nat 8192).
Record sim_device := { sim_slot : partition; sim_boot : bytes }.
Definition contents (d : sim_device) : bytes := bounded_list (sim_slot d).

Definition patch (d : sim_device) (from : Z) (bs : bytes) : result unit unit * sim_device :=
  if (0 <=? from) && (from + Z.of_nat (length bs) <=? Z.of_nat (length (contents d))) then
    let l := contents d in
    (Ok tt, {| sim_slot := bounded_set (sim_slot d)
                 (take (Z.to_nat from) l ++ bs ++ drop (Z.to_nat from + length bs) l);
               sim_boot := sim_boot d |})
  else (Err tt, d).

#[export] Instance sim : OtaDevice sim_device := {
  partition_error := unit; flash_error := unit;
  partition_size d := Z.of_nat (length (contents d));
  region_erase from to d := patch d from (replicate (Z.to_nat (to - from)) 255);
  region_write o bs d := patch d o bs;
  region_read o n d := (Ok (take n (drop (Z.to_nat o) (contents d))), d);
  updater_new d := (Ok tt, d);
  updater_next_partition d := (Ok tt, d);
  updater_activate_next_partition d :=
    (Ok tt, {| sim_slot := sim_slot d; sim_boot := contents d |});
  updater_set_current_new d := (Ok tt, d)
}.

Lemma patch_spec d from bs r d' :
  patch d from bs = (r, d') -> 0 <= from -> from + Z.of_nat (length bs) <= Z.of_nat (length (contents d)) ->
  sim_boot d' = sim_boot d /\ length (contents d') = length (contents d) /\
  (forall i, Z.of_nat i < from \/ from + Z.of_nat (length bs) <= Z.of_nat i ->
     contents d' !! i = contents d !! i) /\
  (forall i b, bs !! i = Some b -> contents d' !! (Z.to_nat from + i)%nat = Some b).
Proof.
  intros Hp H0 Hfit. unfold patch in Hp. rewrite (proj2 (Z.leb_le _ _) H0),
    (proj2 (Z.leb_le _ _) Hfit) in Hp. cbn [andb] in Hp. injection Hp as <- <-.
  assert (length (take (Z.to_nat from) (contents d)) = Z.to_nat from) as Ht
    by (rewrite length_take; lia).
  assert (length (take (Z.to_nat from) (contents d) ++ bs ++
    drop (Z.to_nat from + length bs) (contents d)) = length (contents d)) as Hl
    by (rewrite !length_app, length_drop, Ht; lia).
  set (l' := take _ _ ++ bs ++ _) in *.
  set (d' := {| sim_slot := bounded_set (sim_slot d) l'; sim_boot := sim_boot d |}).
  assert (contents d' = l') as Hc
    by (apply bounded_set_list; rewrite Hl; apply bounded_le).
  rewrite Hc. subst l'. split_and!; [done | done | |].
  - intros i [Hi | Hi].
    + rewrite lookup_app_l by lia. apply lookup_take_lt. lia.
    + rewrite lookup_app_r, lookup_app_r by lia. rewrite lookup_drop. f_equal. lia.
  - intros i b Hb. pose proof (lookup_lt_Some _ _ _ Hb).
    rewrite lookup_app_r by lia. rewrite lookup_app_l by lia. rewrite <- Hb. f_equal. lia.
Qed.

#[export] Instance sim_laws : OtaDeviceLaws sim_device.
Proof.
  refine {| slot := contents; boot_image := sim_boot |}; cbn [partition_size region_erase
    region_write region_read updater_new updater_next_partition updater_activate_next_partition
    updater_set_current_new sim].
  - done.
  - intros d. pose proof (bounded_le (sim_slot d)). unfold contents. lia.
  - intros from to d r d' Hp Hr Hfit.
    destruct (patch_spec _ _ _ _ _ Hp) as (Hb & Hl & Ho & _); [lia | rewrite length_replicate; lia|].
    split_and!; [done..|]. intros i Hi. apply Ho. rewrite length_replicate. lia.
  - intros o bs d r d' Hp Ho Hfit.
    destruct (patch_spec _ _ _ _ _ Hp Ho Hfit) as (Hb & Hl & Hout & Hin). by split_and!.
  - intros o n d r d' Hr. injection Hr as <- <-. split_and!; [done..|]. intros bs Hbs.
    by apply ok_inj in Hbs.
  - intros d r d' Hr. by injection Hr as _ <-.
  - intros d r d' Hr. by injection Hr as _ <-.
  - intros d r d' Hr. injection Hr as <- <-. split; [by right | done].
  - intros d r d' Hr. by injection Hr as _ <-.
Defined.

(** A reader hands out at most seven bytes at a time. *)
#[export] Instance byte_reader : BufRead bytes := {
  fill_buf r := (Ready (take 7 r), r);
  consume n r := drop n r
}.
#[export] Instance byte_reader_laws : BufReadLaws bytes.
Proof.
  refine {| delivers := fun r w => r = w |}. intros r w -> Hw. exists (take 7 w), w.
  split_and!; [done | by destruct w | | done]. exists (drop 7 w). by rewrite take_drop.
Defined.

(** Manifests for a 16-byte image, whose stream the network serves after
    one redirect to the asset host. *)
Definition image : bytes := [0xe9; 1; 0; 0; 1; 0; 0; 0] ++ replicate 8 7.
Definition master : bytes := replicate 32 3.
Definition small : OtaManifest :=
  {| schema := 2; key_id := 1001; target := TARGET; chip := CHIP; version := lit "0.2.0";
     build := 42; force := false; url := lit "https://github.com/LVK-96/fw.bin";
     download_size := 68; image_size := 16; image_sha256 := sha256_hex (sha256 image);
     enc := {| alg := ENC_ALG; enc_key_id := 7; chunk_size := 4096;
               nonce_prefix := lit "abcdef0123456789abcdef01" |};
     signature := [] |}.
Definition nonce : bytes := default [] (ok (parse_nonce_prefix (nonce_prefix (enc small)))).
Definition digest : bytes :=
  compute_manifest_digest (default [] (ok (canonical_unsigned_json small))).
Definition stream : bytes :=
  pack nonce (derive_subkeys master 7).2 (derive_subkeys master 7).1 digest image 16.

Definition asset : bytes := lit "https://objects.githubusercontent.com/fw.bin".
Definition served (u : bytes) : Response bytes :=
  if bool_decide (u = asset) then
    {| status := 200; headers := []; content_length := Some 68;
       transfer_encoding_chunked := false; body := stream |}
  else
    {| status := 302; headers := [(lit "Location", asset)]; content_length := None;
       transfer_encoding_chunked := false; body := [] |}.
Definition requests := list (bytes * option TlsVerify).
#[export] Instance served_network : HttpClient requests bytes := {
  http_get u t n := (Some (served u), n ++ [(u, t)]);
  tls_in_use n := (false, n)
}.

Definition blank : sim_device :=
  {| sim_slot := default bounded_nil (bounded_of (Z.to_nat 8192) (replicate (Z.to_nat 8192) 0));
     sim_boot := [1] |}.

Definition boots (o : option (result (OtaFlashWriteError unit unit) unit * (requests * sim_device)))
  : bool :=
  match o with
  | Some (Ok _, (_, d)) => bool_decide (take 16 (sim_boot d) = image)
  | _ => false
  end.

(** The whole update runs to the end and selects the new image. *)
Example update_runs :
  boots (download_and_write_to_flash (D := sim_device) false [1] [2] small master ([], blank)) = true.
Proof. vm_compute. reflexivity. Qed.

Example boot_image_verified_witness :
  exists (res : result (OtaFlashWriteError unit unit) unit) (n' : requests) (d' : sim_device),
    download_and_write_to_flash (D := sim_device) false [1] [2] small master ([], blank) =
      Some (res, (n', d')) /\
    (sim_boot d' = [1] \/ bootable small master (sim_boot d')).
Proof.
  destruct (boot_image_verified (D := sim_device) (R := bytes) (N := requests)
    false [1] [2] small master [] blank ltac:(cbn; lia)) as (res & n' & d' & Hrun & Hboot & _).
  exists res, n', d'. split; [exact Hrun | exact Hboot].
Defined.

Lemma blank_aligned : partition_size blank mod 4096 = 0.
Proof. vm_compute. reflexivity. Qed.
Lemma blank_fits : 16 <= partition_size blank.
Proof. vm_compute. discriminate. Qed.
Lemma stream_delivered :
  delivers (stream ++ []) (pack nonce (derive_subkeys master 7).2 (derive_subkeys master 7).1
    digest image 16 ++ []).
Proof. reflexivity. Qed.
Lemma hmac_key_length : length (derive_subkeys master 7).2 = 32%nat.
Proof. vm_compute. reflexivity. Qed.

Example writes_contained_witness :
  exists (res : result (OtaFlashWriteError unit unit) EncryptedResult) (n' : requests)
    (d' : sim_device),
    write_phase (D := sim_device) (R := bytes) false [1] [2] small nonce master master digest
      ([], blank) = Some (res, (n', d')) /\ sim_boot d' = [1].
Proof.
  destruct (writes_contained (D := sim_device) (R := bytes) (N := requests)
    false [1] [2] small nonce master master digest [] blank ltac:(cbn; lia)
    blank_aligned) as (res & n' & d' & Hrun & Hboot & _).
  exists res, n', d'. split; [exact Hrun | exact Hboot].
Defined.

Lemma image_prefix_ok : 8 <= 16 -> validate_esp_image_prefix image = Ok tt.
Proof. intros _. vm_compute. reflexivity. Qed.

Lemma sim_writes o bs (d : sim_device) :
  0 <= o -> o + Z.of_nat (length bs) <= partition_size d ->
  exists d', region_write o bs d = (Ok tt, d').
Proof.
  intros Ho Hfit. cbn in *. unfold patch.
  rewrite (proj2 (Z.leb_le _ _) Ho), (proj2 (Z.leb_le _ _) Hfit). by eexists.
Qed.

Example packed_stream_accepted_witness :
  exists x r' d',
    process_encrypted_body (D := sim_device) (R := bytes) nonce (derive_subkeys master 7).2
      (derive_subkeys master 7).1 digest 16 (stream ++ [], blank) = Some (Ok x, (r', d')) /\
    take 16 (contents d') = image.
Proof.
  destruct (packed_stream_accepted (D := sim_device) (R := bytes) nonce (derive_subkeys master 7).2
    (derive_subkeys master 7).1 digest image 16 ltac:(lia) eq_refl
    hmac_key_length sim_writes image_prefix_ok (stream ++ []) blank []
    stream_delivered blank_fits) as (x & r' & d' & Hrun & Hslot & _).
  exists x, r', d'. split; [exact Hrun | exact Hslot].
Defined.

Lemma served_log (u : bytes) (t : option TlsVerify) (n : requests)
    (r : option (Response bytes)) (n' : requests) :
  http_get u t n = (r, n') -> n' = n ++ [(u, t)].
Proof. cbn. by intros [= _ <-]. Qed.

Lemma tls_log (n : requests) (b : bool) (n' : requests) :
  tls_in_use n = (b, n') -> n' = n.
Proof. cbn. by intros [= _ <-]. Qed.

Example requests_follow_policy_witness :
  exists (s : requests * sim_device) res trace,
    fetch_and_process_encrypted (R := bytes) false [1] [2] small nonce master master digest
      ([], blank) = Some (res, s) /\
    s.1 = [] ++ trace /\ (length trace <= 4)%nat.
Proof.
  destruct (fetch_and_process_encrypted (R := bytes) false [1] [2] small nonce master master digest
    (([] : requests), blank)) as [[res s]|] eqn:Hrun; [|vm_compute in Hrun; discriminate Hrun].
  destruct (requests_follow_policy (D := sim_device) (R := bytes) (N := requests) false [1] [2]
    (fun n => n) served_log tls_log
    small nonce master master digest [] blank res s Hrun) as (trace & Hlog & Hlen & _).
  exists s, res, trace. split; [exact Hrun|]. split; [exact Hlog | exact Hlen].
Defined.
End Sample.
