(* ===== verification/NtpServers.v ===== *)
(** * The NTP server list

    [crates/app-core/src/ntp_servers.rs]: parsing the configured list of IPv4
    addresses into the fixed array of at most four servers, with the fallback
    list when nothing parses. [str::trim] and the [FromStr] of [Ipv4Addr] are
    the Standard Library's. *)
From S2P Require Import Prelude Str.

(** ** [str::trim] on UTF-8

    The encodings of the characters with the [White_Space] property; they are
    removed from both ends. *)
Definition white_space : list bytes :=
  [[9]; [10]; [11]; [12]; [13]; [32]; [0xC2; 0x85]; [0xC2; 0xA0]; [0xE1; 0x9A; 0x80]]
  ++ ((fun b => [0xE2; 0x80; b]) <$> [0x80; 0x81; 0x82; 0x83; 0x84; 0x85; 0x86; 0x87; 0x88; 0x89;
                                      0x8A; 0xA8; 0xA9; 0xAF])
  ++ [[0xE2; 0x81; 0x9F]; [0xE3; 0x80; 0x80]].

Fixpoint strip_first (es : list bytes) (s : bytes) : option bytes :=
  match es with
  | [] => None
  | e :: es => match strip_prefix e s with Some r => Some r | None => strip_first es s end
  end.
(** Every removal shortens the text, whose length is fuel enough. *)
Fixpoint strip_all (fuel : nat) (es : list bytes) (s : bytes) : bytes :=
  match fuel with
  | O => s
  | S fuel => match strip_first es s with Some r => strip_all fuel es r | None => s end
  end.
Definition trim (s : bytes) : bytes :=
  let s := strip_all (length s) white_space s in
  rev (strip_all (length s) ((fun e => rev e) <$> white_space) (rev s)).

(** ** [Ipv4Addr::from_str]

    Four fields of one to three digits without a leading zero, each at most
    255. *)
Record Ipv4Addr := { octet1 : Z; octet2 : Z; octet3 : Z; octet4 : Z }.
#[export] Instance Ipv4Addr_eq_dec : EqDecision Ipv4Addr.
Proof. solve_decision. Defined.

Definition parse_octet (s : bytes) : option Z :=
  let n := length s in
  if Nat.leb 1 n && Nat.leb n 3 && forallb is_digit s
     && negb (starts_with [48] s && Nat.ltb 1 n) && (decimal_value s <=? 255)
  then Some (decimal_value s) else None.
Definition parse_ipv4 (s : bytes) : option Ipv4Addr :=
  match split 46 s with
  | [a; b; c; d] =>
      o1 ← parse_octet a; o2 ← parse_octet b; o3 ← parse_octet c; o4 ← parse_octet d;
      Some {| octet1 := o1; octet2 := o2; octet3 := o3; octet4 := o4 |}
  | _ => None
  end.
Definition UNSPECIFIED : Ipv4Addr := {| octet1 := 0; octet2 := 0; octet3 := 0; octet4 := 0 |}.

(** ** The list ([ntp_servers.rs]) *)

Definition MAX_NTP_SERVERS : nat := 4.

(** The array has [MAX_NTP_SERVERS] elements. *)
Record NtpServerList := { servers : list Ipv4Addr; len : nat }.
Definition as_slice (self : NtpServerList) : list Ipv4Addr := take (len self) (servers self).

Definition holds (self : NtpServerList) (addr : Ipv4Addr) : bool :=
  bool_decide (addr ∈ take (len self) (servers self)).
(** [servers[len] = addr; len += 1]. *)
Definition append (self : NtpServerList) (addr : Ipv4Addr) : NtpServerList :=
  {| servers := <[len self := addr]> (servers self); len := S (len self) |}.

Fixpoint candidates_loop (candidates : list bytes) (self : NtpServerList) : NtpServerList :=
  match candidates with
  | [] => self
  | candidate :: candidates =>
      if Nat.eqb (len self) MAX_NTP_SERVERS then self
      else
        let trimmed := trim candidate in
        candidates_loop candidates
          match parse_ipv4 trimmed with
          | Some addr => if negb (holds self addr) then append self addr else self
          | None => self
          end
  end.

Fixpoint fallback_loop (fallback : list Ipv4Addr) (self : NtpServerList) : NtpServerList :=
  match fallback with
  | [] => self
  | addr :: fallback =>
      fallback_loop fallback
        (if Nat.eqb (len self) MAX_NTP_SERVERS || holds self addr then self else append self addr)
  end.

Definition parse_ntp_server_list (raw : bytes) (fallback : list Ipv4Addr) : NtpServerList :=
  let self := {| servers := replicate MAX_NTP_SERVERS UNSPECIFIED; len := 0 |} in
  let self := candidates_loop (split 44 raw) self in
  if Nat.eqb (len self) 0 then fallback_loop fallback self else self.

(** ** Properties *)

(** The distinct elements of a list in the order of their first
    occurrence. *)
Definition distinct (acc l : list Ipv4Addr) : list Ipv4Addr :=
  fold_left (fun acc a => if decide (a ∈ acc) then acc else acc ++ [a]) l acc.
(** The addresses a text lists. *)
Definition addresses (raw : bytes) : list Ipv4Addr :=
  omap (fun candidate => parse_ipv4 (trim candidate)) (split 44 raw).

Lemma distinct_cons acc a l :
  distinct acc (a :: l) = distinct (if decide (a ∈ acc) then acc else acc ++ [a]) l.
Proof. done. Qed.

Lemma distinct_prefix acc l : exists l', distinct acc l = acc ++ l'.
Proof.
  revert acc. induction l as [|a l IH]; intros acc; [exists []; by rewrite app_nil_r|].
  rewrite distinct_cons. destruct (decide (a ∈ acc)); [apply IH|].
  destruct (IH (acc ++ [a])) as [l' Hl']. exists (a :: l'). rewrite Hl'. by rewrite <- app_assoc.
Qed.

Lemma distinct_first a l n : take (S n) (distinct [] (a :: l)) <> [].
Proof.
  rewrite distinct_cons. destruct (decide (a ∈ [])) as [Ha|_]; [inversion Ha|].
  by destruct (distinct_prefix ([] ++ [a]) l) as [l' ->].
Qed.

Lemma distinct_nodup acc l : NoDup acc -> NoDup (distinct acc l).
Proof.
  revert acc. induction l as [|a l IH]; intros acc Hacc; [done|].
  rewrite distinct_cons. destruct (decide (a ∈ acc)) as [|Hn]; apply IH; [done|].
  apply NoDup_app. split_and!; [done | | apply NoDup_singleton].
  intros x Hx ->%list_elem_of_singleton. done.
Qed.

Lemma distinct_id acc l : NoDup (acc ++ l) -> distinct acc l = acc ++ l.
Proof.
  revert acc. induction l as [|a l IH]; intros acc Hnd; [by rewrite app_nil_r|].
  rewrite distinct_cons. destruct (decide (a ∈ acc)) as [Ha|Ha].
  - exfalso. apply NoDup_app in Hnd as (_ & Hd & _). eapply Hd; [exact Ha | apply list_elem_of_here].
  - rewrite IH by (by rewrite <- app_assoc). by rewrite <- app_assoc.
Qed.

(** The array holds a list of at most four servers. *)
Record Lists (self : NtpServerList) (l : list Ipv4Addr) : Prop := {
  l_array : length (servers self) = MAX_NTP_SERVERS;
  l_slice : as_slice self = l;
  l_len : len self = length l
}.

Lemma lists_bound self l : Lists self l -> (length l <= MAX_NTP_SERVERS)%nat.
Proof.
  intros [Ha Hs Hl]. rewrite <- Hs. unfold as_slice. rewrite length_take. lia.
Qed.

Lemma append_lists self l a : Lists self l -> (length l < MAX_NTP_SERVERS)%nat ->
  Lists (append self a) (l ++ [a]).
Proof.
  intros [Ha Hs Hl] Hlt. split; cbn.
  - by rewrite length_insert.
  - unfold as_slice in *. cbn. rewrite <- Hs.
    rewrite (take_S_r _ _ a) by (apply list_lookup_insert_eq; lia).
    by rewrite take_insert_ge by lia.
  - rewrite length_app. cbn. lia.
Qed.

Lemma holds_spec self l a : Lists self l -> holds self a = bool_decide (a ∈ l).
Proof. intros [_ Hs _]. unfold holds. fold (as_slice self). by rewrite Hs. Qed.

Lemma take_distinct_full l rest : length l = MAX_NTP_SERVERS ->
  take MAX_NTP_SERVERS (distinct l rest) = l.
Proof.
  intros Hl. destruct (distinct_prefix l rest) as [l' ->]. rewrite <- Hl. apply take_app_length.
Qed.

Lemma candidates_lists cs self l : Lists self l ->
  Lists (candidates_loop cs self)
    (take MAX_NTP_SERVERS (distinct l (omap (fun c => parse_ipv4 (trim c)) cs))).
Proof.
  revert self l. induction cs as [|c cs IH]; intros self l Hl; cbn [candidates_loop].
  - cbn. by rewrite take_ge by (by eapply lists_bound).
  - pose proof (lists_bound _ _ Hl) as Hb. pose proof (l_len _ _ Hl) as Hlen.
    destruct (Nat.eqb_spec (len self) MAX_NTP_SERVERS) as [Hf|Hf].
    { rewrite take_distinct_full by lia. done. }
    cbn [omap list_omap]. destruct (parse_ipv4 (trim c)) as [a|]; [|by apply IH].
    rewrite (holds_spec _ _ a Hl). rewrite distinct_cons.
    case_bool_decide as Ha; cbn [negb]; destruct (decide (a ∈ l)); try done; apply IH; [done|].
    apply append_lists; [done | lia].
Qed.

Lemma fallback_lists fs self l : Lists self l ->
  Lists (fallback_loop fs self) (take MAX_NTP_SERVERS (distinct l fs)).
Proof.
  revert self l. induction fs as [|a fs IH]; intros self l Hl; cbn [fallback_loop].
  - cbn. by rewrite take_ge by (by eapply lists_bound).
  - pose proof (lists_bound _ _ Hl) as Hb. pose proof (l_len _ _ Hl) as Hlen.
    rewrite (holds_spec _ _ a Hl). destruct (Nat.eqb_spec (len self) MAX_NTP_SERVERS) as [Hf|Hf].
    + cbn [orb]. pose proof (IH self l Hl) as Hi. rewrite take_distinct_full in * by lia. done.
    + cbn [orb]. rewrite distinct_cons.
      case_bool_decide as Ha; destruct (decide (a ∈ l)); try done; apply IH; [done|].
      apply append_lists; [done | lia].
Qed.

Lemma parse_lists raw fallback :
  as_slice (parse_ntp_server_list raw fallback) =
    take MAX_NTP_SERVERS
      (distinct [] (match addresses raw with [] => fallback | l => l end)).
Proof.
  assert (Lists {| servers := replicate MAX_NTP_SERVERS UNSPECIFIED; len := 0 |} []) as H0 by done.
  pose proof (candidates_lists (split 44 raw) _ _ H0) as Hc. fold (addresses raw) in Hc.
  unfold parse_ntp_server_list. rewrite (l_len _ _ Hc).
  destruct (addresses raw) as [|a l] eqn:Ea.
  - cbn [distinct fold_left take length Nat.eqb]. rewrite take_nil in *.
    apply (l_slice _ _ (fallback_lists fallback _ _ Hc)).
  - destruct (Nat.eqb_spec (length (take MAX_NTP_SERVERS (distinct [] (a :: l)))) 0) as [Hz|_].
    + exfalso. by apply length_zero_iff_nil, distinct_first in Hz.
    + apply (l_slice _ _ Hc).
Qed.

(** *** Reading back a printed list *)

Definition show_addr (a : Ipv4Addr) : bytes :=
  join 46 [dec (octet1 a); dec (octet2 a); dec (octet3 a); dec (octet4 a)].
Definition AddrBytes (a : Ipv4Addr) : Prop :=
  u8 (octet1 a) /\ u8 (octet2 a) /\ u8 (octet3 a) /\ u8 (octet4 a).
(** An entry: an address between white space. *)
Record entry := { before : list bytes; addr : Ipv4Addr; behind : list bytes }.
Definition EntryOk (e : entry) : Prop :=
  Forall (fun w => w ∈ white_space) (before e) /\ AddrBytes (addr e) /\
  Forall (fun w => w ∈ white_space) (behind e).
Definition show_entry (e : entry) : bytes :=
  mjoin (before e) ++ show_addr (addr e) ++ mjoin (behind e).

Lemma strip_first_space w s : w ∈ white_space -> strip_first white_space (w ++ s) = Some s.
Proof.
  revert w. apply Forall_forall. unfold white_space. cbn. repeat constructor.
Qed.

Lemma strip_first_space_rev w s : w ∈ (fun e => rev e) <$> white_space ->
  strip_first ((fun e => rev e) <$> white_space) (w ++ s) = Some s.
Proof.
  revert w. apply Forall_forall. unfold white_space. cbn. repeat constructor.
Qed.

Lemma strip_first_other es b s : Forall (fun e => exists h r, e = h :: r /\ h <> b) es ->
  strip_first es (b :: s) = None.
Proof.
  induction 1 as [|e es (h & r & -> & Hh) _ IH]; [done|]. cbn.
  by rewrite (proj2 (Z.eqb_neq h b)) by done.
Qed.

Lemma no_space_digit b : is_digit b = true ->
  Forall (fun e => exists h r, e = h :: r /\ h <> b) white_space /\
  Forall (fun e => exists h r, e = h :: r /\ h <> b) ((fun e => rev e) <$> white_space).
Proof.
  intros Hb. unfold is_digit, between in Hb. bools. unfold white_space. cbn.
  split; repeat (constructor; [eexists _, _; split; [reflexivity | lia]|]); constructor.
Qed.

Lemma strip_all_spaces es ws s fuel :
  (forall w s', w ∈ es -> strip_first es (w ++ s') = Some s') ->
  Forall (fun w => w ∈ es) ws -> strip_first es s = None -> (length ws < fuel)%nat ->
  strip_all fuel es (mjoin ws ++ s) = s.
Proof.
  intros Hes Hws Hs. revert fuel. induction Hws as [|w ws Hw _ IH]; intros [|fuel] Hf;
    cbn in Hf; try lia; cbn [strip_all mjoin list_join app].
  - cbn. by rewrite Hs.
  - rewrite <- app_assoc, Hes by done. apply IH. lia.
Qed.

Lemma length_spaces (es ws : list bytes) : Forall (fun w => w ∈ es) ws -> Forall (fun e => e <> []) es ->
  (length ws <= length (mjoin ws))%nat.
Proof.
  intros Hws Hes. induction Hws as [|w ws Hw _ IH]; [cbn; lia|].
  change (mjoin (w :: ws)) with (w ++ mjoin ws). rewrite length_app.
  pose proof (proj1 (Forall_forall _ _) Hes w Hw) as Hn. destruct w; [done|]. cbn in *. lia.
Qed.

Lemma spaces_nonempty :
  Forall (fun e => e <> []) white_space /\ Forall (fun e => e <> []) ((fun e => rev e) <$> white_space).
Proof. unfold white_space. cbn. split; repeat constructor; discriminate. Qed.

Lemma rev_mjoin (ws : list bytes) : rev (mjoin ws) = mjoin ((fun e => rev e) <$> rev ws).
Proof.
  induction ws as [|w ws IH]; [done|]. change (mjoin (w :: ws)) with (w ++ mjoin ws).
  cbn [rev]. rewrite rev_app_distr, fmap_app, join_app, <- IH. cbn. by rewrite app_nil_r.
Qed.

(** Trimming removes exactly the white space around a text that starts and
    ends with a digit. *)
Lemma trim_padded pre post s b1 b2 s1 s2 :
  Forall (fun w => w ∈ white_space) pre -> Forall (fun w => w ∈ white_space) post ->
  s = b1 :: s1 -> s = s2 ++ [b2] -> is_digit b1 = true -> is_digit b2 = true ->
  trim (mjoin pre ++ s ++ mjoin post) = s.
Proof.
  intros Hpre Hpost E1 E2 H1 H2. unfold trim.
  destruct (no_space_digit b1 H1) as [Hn1 _], (no_space_digit b2 H2) as [_ Hn2].
  rewrite (strip_all_spaces white_space pre); [| apply strip_first_space | done | |].
  2:{ rewrite E1. by apply strip_first_other. }
  2:{ rewrite E1, length_app. cbn. pose proof (length_spaces _ _ Hpre (proj1 spaces_nonempty)). lia. }
  rewrite rev_app_distr, rev_mjoin, strip_all_spaces; [by rewrite rev_involutive | | | |].
  - apply strip_first_space_rev.
  - apply Forall_fmap, Forall_rev. eapply Forall_impl; [exact Hpost|].
    intros w Hw. by apply list_elem_of_fmap_2.
  - rewrite E2, rev_app_distr. by apply strip_first_other.
  - pose proof (length_spaces _ _ Hpost (proj1 spaces_nonempty)).
    rewrite length_fmap, length_rev, E1, length_app. cbn. lia.
Qed.

Definition octet_reads (x : Z) : bool :=
  bool_decide (parse_octet (dec x) = Some x) && forallb is_digit (dec x)
  && Nat.ltb 0 (length (dec x)).

Lemma dec_octet x : u8 x ->
  parse_octet (dec x) = Some x /\ Forall (fun b => is_digit b = true) (dec x) /\ dec x <> [].
Proof.
  intros Hx. assert (octet_reads x = true) as Hr.
  { revert x Hx. apply forall_u8. vm_compute. reflexivity. }
  apply andb_true_iff in Hr as [[Hp%bool_decide_eq_true Hd]%andb_true_iff Hl].
  split_and!; [done | | by intros E; rewrite E in *].
  apply Forall_forall. intros b Hb. apply list_elem_of_In in Hb.
  by apply (proj1 (forallb_forall _ _) Hd).
Qed.

Lemma digits_avoid c (ds : bytes) : is_digit c = false ->
  Forall (fun b => is_digit b = true) ds -> c ∉ ds.
Proof.
  intros Hc Hds Hin. rewrite (proj1 (Forall_forall _ _) Hds c Hin) in Hc. discriminate Hc.
Qed.

Lemma read_address a : AddrBytes a -> parse_ipv4 (show_addr a) = Some a.
Proof.
  intros (H1 & H2 & H3 & H4). unfold parse_ipv4, show_addr.
  destruct (dec_octet _ H1) as (P1 & D1 & _), (dec_octet _ H2) as (P2 & D2 & _),
    (dec_octet _ H3) as (P3 & D3 & _), (dec_octet _ H4) as (P4 & D4 & _).
  pose proof (fun ds => digits_avoid 46 ds eq_refl) as Hdot.
  rewrite split_join; [| by intros ? |].
  2: { constructor; [exact (Hdot _ D1)|]. constructor; [exact (Hdot _ D2)|]. constructor; [exact (Hdot _ D3)|].
       constructor; [exact (Hdot _ D4) | constructor]. }
  rewrite P1, P2, P3, P4. by destruct a.
Qed.

Lemma digits_start ds : Forall (fun b => is_digit b = true) ds -> ds <> [] ->
  exists b r, ds = b :: r /\ is_digit b = true.
Proof. intros Hd Hne. destruct Hd as [|b r Hb _]; [done | by exists b, r]. Qed.

Lemma digits_end ds : Forall (fun b => is_digit b = true) ds -> ds <> [] ->
  exists b r, ds = r ++ [b] /\ is_digit b = true.
Proof.
  intros Hd Hne. destruct (exists_last Hne) as (r & b & ->).
  apply Forall_app in Hd as [_ Hb]. exists b, r.
  split; [done | by inversion Hb].
Qed.

Lemma read_entry e : EntryOk e -> parse_ipv4 (trim (show_entry e)) = Some (addr e).
Proof.
  intros (Hb & Ha & He). pose proof Ha as (H1 & _ & _ & H4).
  destruct (dec_octet _ H1) as (_ & D1 & N1), (dec_octet _ H4) as (_ & D4 & N4).
  destruct (digits_start _ D1 N1) as (b1 & r1 & E1 & B1), (digits_end _ D4 N4) as (b2 & r2 & E2 & B2).
  unfold show_entry. rewrite (trim_padded _ _ _ b1 b2
    (r1 ++ 46 :: dec (octet2 (addr e)) ++ 46 :: dec (octet3 (addr e)) ++ 46 :: dec (octet4 (addr e)))
    (dec (octet1 (addr e)) ++ 46 :: dec (octet2 (addr e)) ++ 46 :: dec (octet3 (addr e)) ++ 46 :: r2));
    [by apply read_address | done | done | | | done | done];
    unfold show_addr; cbn [join].
  - by rewrite E1.
  - rewrite E2. by rewrite <- !app_assoc; cbn; rewrite <- !app_assoc; cbn; rewrite <- !app_assoc.
Qed.

Lemma mjoin_avoid c ws : Forall (fun w => w ∈ white_space) ws ->
  Forall (fun w => c ∉ w) white_space -> c ∉ mjoin ws.
Proof.
  intros Hws Hc. induction Hws as [|w ws Hw _ IH]; [cbn; set_solver|].
  change (mjoin (w :: ws)) with (w ++ mjoin ws). apply not_elem_of_app. split; [|done].
  by apply (proj1 (Forall_forall _ _) Hc).
Qed.

Lemma entry_no_comma e : EntryOk e -> 44 ∉ show_entry e.
Proof.
  intros (Hb & (H1 & H2 & H3 & H4) & He).
  assert (Forall (fun w => 44 ∉ w) white_space) as Hw.
  { apply (bool_decide_unpack _). vm_compute. exact I. }
  pose proof (mjoin_avoid 44 _ Hb Hw). pose proof (mjoin_avoid 44 _ He Hw).
  pose proof (fun x Hx => digits_avoid 44 _ eq_refl (proj1 (proj2 (dec_octet x Hx)))) as Hd.
  pose proof (Hd _ H1). pose proof (Hd _ H2). pose proof (Hd _ H3). pose proof (Hd _ H4).
  unfold show_entry, show_addr. cbn [join].
  repeat (rewrite ?not_elem_of_app, ?not_elem_of_cons).
  split_and!; first [assumption | lia].
Qed.

Lemma read_entries es : es <> [] -> Forall EntryOk es ->
  addresses (join 44 (show_entry <$> es)) = addr <$> es.
Proof.
  intros Hne Hes. unfold addresses. rewrite split_join.
  - clear Hne. induction Hes as [|e es He _ IH]; [done|]. cbn.
    rewrite read_entry by done. f_equal. exact IH.
  - by destruct es.
  - apply Forall_fmap. eapply Forall_impl; [exact Hes | apply entry_no_comma].
Qed.

Lemma list_nodup raw fallback : NoDup (as_slice (parse_ntp_server_list raw fallback)).
Proof.
  rewrite parse_lists. eapply sublist_NoDup; [|apply sublist_take].
  apply distinct_nodup, NoDup_nil_2.
Qed.

Lemma list_bounded raw fallback :
  (length (as_slice (parse_ntp_server_list raw fallback)) <= MAX_NTP_SERVERS)%nat.
Proof. rewrite parse_lists, length_take. lia. Qed.

Lemma list_nonempty raw fallback : fallback <> [] ->
  as_slice (parse_ntp_server_list raw fallback) <> [].
Proof.
  intros Hf. rewrite parse_lists.
  destruct (addresses raw) as [|a l]; [destruct fallback as [|a l]; [done|]|]; apply distinct_first.
Qed.

(** whatever the configured text, the server list has at most four
    servers, none twice: the addresses that parse, in the order of their
    first occurrence and cut to four, or the fallback list treated the same
    way when no entry of the text parses. *)
Theorem ntp_list_spec raw fallback :
  let l := as_slice (parse_ntp_server_list raw fallback) in
  l = take MAX_NTP_SERVERS (distinct [] (match addresses raw with [] => fallback | l => l end)) /\
  NoDup l /\ (length l <= MAX_NTP_SERVERS)%nat /\
  (l = [] <-> addresses raw = [] /\ fallback = []).
Proof.
  cbv zeta. split_and!; [apply parse_lists | apply list_nodup | apply list_bounded |].
  rewrite parse_lists. destruct (addresses raw) as [|a l].
  - destruct fallback as [|a l]; [done|].
    split; [by intros E%distinct_first | by intros [_ E]].
  - split; [by intros E%distinct_first | by intros [E _]].
Qed.

(** a text that lists at most four different addresses in dotted
    decimal, each between any white space and separated by commas, is read
    back as exactly these addresses in order. *)
Theorem ntp_list_roundtrip es fallback :
  es <> [] -> Forall EntryOk es -> NoDup (addr <$> es) -> (length es <= MAX_NTP_SERVERS)%nat ->
  as_slice (parse_ntp_server_list (join 44 (show_entry <$> es)) fallback) = addr <$> es.
Proof.
  intros Hne Hes Hnd Hl. rewrite parse_lists, read_entries by done.
  destruct es as [|e es]; [done|]. cbn [fmap list_fmap].
  rewrite distinct_id by done. apply take_ge. cbn. rewrite length_fmap. cbn in Hl. lia.
Qed.

Module Sample.
Definition entries : list entry :=
  [ {| before := []; addr := {| octet1 := 216; octet2 := 239; octet3 := 35; octet4 := 0 |};
       behind := [] |};
    {| before := [[32]; [0xC2; 0xA0]];
       addr := {| octet1 := 129; octet2 := 6; octet3 := 15; octet4 := 28 |};
       behind := [[32]; [13]; [10]] |} ].

Example limited : as_slice (parse_ntp_server_list (lit "1.1.1.1,2.2.2.2,1.1.1.1,300.1.1.1, 3.3.3.3,4.4.4.4,5.5.5.5") [])
  = (fun x => {| octet1 := x; octet2 := x; octet3 := x; octet4 := x |}) <$> [1; 2; 3; 4].
Proof. vm_compute. reflexivity. Qed.

Lemma ntp_list_roundtrip_witness :
  as_slice (parse_ntp_server_list (join 44 (show_entry <$> entries)) []) = addr <$> entries.
Proof.
  apply ntp_list_roundtrip; [done | | | cbn; unfold MAX_NTP_SERVERS; lia].
  - apply (bool_decide_unpack _). vm_compute. exact I.
  - apply (bool_decide_unpack _). vm_compute. exact I.
Defined.
End Sample.
