(* ===== verification/HttpBody.v ===== *)
(** * HTTP bodies

    [tools/reqwless]: the reader over what was received with the response
    head ([src/reader.rs]), the readers of bodies of a fixed length, chunked
    and up to the end of the connection ([src/response/]), and the writer of
    chunked bodies ([src/body_writer/chunked.rs]). The connection and the
    [hex] crate are interfaces. [usize] is 32 bits wide and, in the release
    profile of the firmware, wraps. *)
From S2P Require Import Prelude Str OtaManifest OtaFlash.

(** ** Errors *)

(** [embedded_io::ErrorKind]; [Kind] is any other kind. *)
Inductive ErrorKind := AbortedKind | OtherKind | Kind (code : Z).
(** The crate's errors, without what [nourl] and the TLS crate say in theirs. *)
Inductive HttpError :=
| Dns
| Network (kind : ErrorKind)
| Codec
| InvalidUrl
| Tls
| BufferTooSmall
| AlreadySent
| IncorrectBodyWritten
| ConnectionAborted.
Definition kind (e : HttpError) : ErrorKind :=
  match e with
  | Network kind => kind
  | ConnectionAborted => AbortedKind
  | _ => OtherKind
  end.

(** ** Interfaces *)

(** A connection: [read] into a buffer of the given size, and the internal
    buffer a TLS connection has ([TryBufRead]). *)
Class Connection (C : Type) := {
  conn_read : nat -> C -> result ErrorKind bytes * C;
  try_fill_buf : C -> option (result ErrorKind bytes) * C;
  try_consume : nat -> C -> C
}.

(** [Read] and [BufRead] of [embedded-io-async], for a raw body. *)
Class RawBody (B : Type) := {
  raw_read : nat -> B -> result ErrorKind bytes * B;
  raw_fill : B -> result ErrorKind bytes * B;
  raw_consume : nat -> B -> B
}.

(** The [hex] crate. *)
Class Hex := {
  hex_to_slice : bytes -> result unit bytes;
  hex_of_slice : bytes -> bytes
}.

(** [at_end r]: the answer of a reader without further bytes. *)
Definition at_end {E} (r : result E bytes) : Prop := match r with Ok a => a = [] | Err _ => True end.

(** [incoming] are the bytes still to come before the connection ends or
    fails: reading yields them in order, in pieces the connection chooses.
    [buffered]: it has a buffer of its own. *)
Class ConnectionLaws (C : Type) `{Connection C} := {
  incoming : C -> bytes;
  buffered : C -> bool;
  read_some n c : (0 < n)%nat -> incoming c <> [] -> exists a c', conn_read n c = (Ok a, c') /\
    a <> [] /\ (length a <= n)%nat /\ incoming c = a ++ incoming c' /\ buffered c' = buffered c;
  read_nothing n c : n = 0%nat \/ incoming c = [] -> exists r c', conn_read n c = (r, c') /\
    at_end r /\ incoming c' = incoming c /\ buffered c' = buffered c;
  fill_none c : buffered c = false -> exists c', try_fill_buf c = (None, c') /\
    incoming c' = incoming c /\ buffered c' = false;
  fill_some c : buffered c = true -> exists r c', try_fill_buf c = (Some r, c') /\
    incoming c' = incoming c /\ buffered c' = true /\
    match r with
    | Ok a => (a = [] <-> incoming c = []) /\ a `prefix_of` incoming c /\
        forall n, (n <= length a)%nat ->
          incoming (try_consume n c') = drop n (incoming c) /\ buffered (try_consume n c') = true
    | Err _ => incoming c = []
    end
}.

(** The same of a raw body; [raw_ok] is its invariant. *)
Class RawBodyLaws (B : Type) `{RawBody B} := {
  raw_rest : B -> bytes;
  raw_ok : B -> Prop;
  raw_read_some n b : raw_ok b -> (0 < n)%nat -> raw_rest b <> [] -> exists a b',
    raw_read n b = (Ok a, b') /\ a <> [] /\ (length a <= n)%nat /\ raw_rest b = a ++ raw_rest b' /\ raw_ok b';
  raw_read_nothing n b : raw_ok b -> n = 0%nat \/ raw_rest b = [] -> exists r b',
    raw_read n b = (r, b') /\ at_end r /\ raw_rest b' = raw_rest b /\ raw_ok b';
  raw_fill_spec b : raw_ok b -> exists r b', raw_fill b = (r, b') /\ raw_rest b' = raw_rest b /\ raw_ok b' /\
    match r with
    | Ok a => (a = [] <-> raw_rest b = []) /\ a `prefix_of` raw_rest b /\
        forall n, (n <= length a)%nat -> raw_rest (raw_consume n b') = drop n (raw_rest b) /\ raw_ok (raw_consume n b')
    | Err _ => raw_rest b = []
    end
}.

(** Lower-case digits, and back again. *)
Class HexLaws `{Hex} := {
  hex_slice_length l b : hex_to_slice l = Ok b -> length l = (2 * length b)%nat /\ is_bytes b;
  hex_of_slice_digits b : is_bytes b -> hex_of_slice b = hex_encode b;
  hex_slice_of_slice b : is_bytes b -> hex_to_slice (hex_of_slice b) = Ok b
}.

(** ** The reader over the head's buffer ([reader.rs]) *)

(** [buffer] is the whole memory, [loaded] bytes of it are the body's. *)
Record ReadBuffer := { buffer : bytes; loaded : nat }.
Definition ReadBuffer_is_empty (self : ReadBuffer) : bool := (loaded self =? 0)%nat.

(** Returns how many bytes there were too few. *)
Definition ReadBuffer_consume (self : ReadBuffer) (amt : nat) : nat * ReadBuffer :=
  let to_consume := (amt `min` loaded self)%nat in
  let kept := take (loaded self - to_consume) (drop to_consume (buffer self)) in
  ((amt - to_consume)%nat,
   {| buffer := kept ++ drop (length kept) (buffer self); loaded := (loaded self - to_consume)%nat |}).
Definition ReadBuffer_read (self : ReadBuffer) (n : nat) : bytes * ReadBuffer :=
  let amt := (loaded self `min` n)%nat in
  (take amt (buffer self), (ReadBuffer_consume self amt).2).
Definition ReadBuffer_fill_buf (self : ReadBuffer) : bytes := take (loaded self) (buffer self).

Record BufferingReader (C : Type) := { rb : ReadBuffer; stream : C; force_local_buffer : bool }.
Arguments rb {C} b.
Arguments stream {C} b.
Arguments force_local_buffer {C} b.

Section Reader.
Context {C : Type} `{Connection C}.

Definition BufferingReader_new (buffer : bytes) (loaded : nat) (stream : C) : BufferingReader C :=
  {| rb := {| buffer := buffer; loaded := loaded |}; stream := stream; force_local_buffer := false |}.
Definition with_stream (self : BufferingReader C) (c : C) : BufferingReader C :=
  {| rb := rb self; stream := c; force_local_buffer := force_local_buffer self |}.
Definition with_rb (self : BufferingReader C) (b : ReadBuffer) : BufferingReader C :=
  {| rb := b; stream := stream self; force_local_buffer := force_local_buffer self |}.

Definition BufferingReader_read (n : nat) (self : BufferingReader C) : result ErrorKind bytes * BufferingReader C :=
  if negb (ReadBuffer_is_empty (rb self)) then
    let (a, b) := ReadBuffer_read (rb self) n in (Ok a, with_rb self b)
  else let (r, c) := conn_read n (stream self) in (r, with_stream self c).

(** What [read] leaves in the buffer, and how much of it is new. *)
Definition load (a : bytes) (b : ReadBuffer) : ReadBuffer :=
  {| buffer := a ++ drop (length a) (buffer b); loaded := length a |}.
Definition fill_local (self : BufferingReader C) : result ErrorKind bytes * BufferingReader C :=
  match conn_read (length (buffer (rb self))) (stream self) with
  | (Err e, c) => (Err e, with_stream self c)
  | (Ok a, c) =>
      let b := load a (rb self) in
      (Ok (ReadBuffer_fill_buf b), with_rb (with_stream self c) b)
  end.

(** The second call of [try_fill_buf] answers as the first does; [unreachable!]
    would be the case in which it does not, here the answer of the local
    buffer. *)
Definition BufferingReader_fill_buf (self : BufferingReader C) : result ErrorKind bytes * BufferingReader C :=
  if ReadBuffer_is_empty (rb self) then
    if negb (force_local_buffer self) then
      match try_fill_buf (stream self) with
      | (Some _, c) =>
          match try_fill_buf c with
          | (Some r, c) => (r, with_stream self c)
          | (None, c) => fill_local (with_stream self c)
          end
      | (None, c) => fill_local (with_stream self c)
      end
    else fill_local self
  else (Ok (ReadBuffer_fill_buf (rb self)), self).

Definition BufferingReader_consume (amt : nat) (self : BufferingReader C) : BufferingReader C :=
  let (unconsumed, b) := ReadBuffer_consume (rb self) amt in
  let self := with_rb self b in
  if (0 <? unconsumed)%nat then with_stream self (try_consume unconsumed (stream self)) else self.

#[export] Instance BufferingReader_raw : RawBody (BufferingReader C) := {
  raw_read := BufferingReader_read;
  raw_fill := BufferingReader_fill_buf;
  raw_consume := BufferingReader_consume
}.
End Reader.

(** ** Body readers ([response/]) *)

Record FixedLengthBodyReader (B : Type) := { raw_body : B; remaining : Z }.
Arguments raw_body {B} f.
Arguments remaining {B} f.

Inductive ChunkState := NoChunk | NotEmpty (remaining : Z) | Empty.
#[export] Instance ChunkState_eq_dec : EqDecision ChunkState.
Proof. solve_decision. Defined.
Definition ChunkState_consume (self : ChunkState) (amt : Z) : Z * ChunkState :=
  match self with
  | NotEmpty remaining =>
      let consumed := Z.min (wrap 32 amt) remaining in (consumed, NotEmpty (remaining - consumed))
  | _ => (0, self)
  end.
Definition ChunkState_len (self : ChunkState) : Z := match self with NotEmpty len => len | _ => 0 end.

Record ChunkedBodyReader (B : Type) := { chunked_body : B; chunk_remaining : ChunkState }.
Arguments chunked_body {B} c.
Arguments chunk_remaining {B} c.

Inductive BodyReader (B : Type) :=
| EmptyBody
| FixedLength (reader : FixedLengthBodyReader B)
| Chunked (reader : ChunkedBodyReader B)
| ToEnd (body : B).
Arguments EmptyBody {B}.
Arguments FixedLength {B} reader.
Arguments Chunked {B} reader.
Arguments ToEnd {B} body.

(** [&s[..n]] and lengths as [usize]. *)
Definition ztake (n : Z) (s : bytes) : bytes := take (Z.to_nat n) s.
Definition zlen (s : bytes) : Z := Z.of_nat (length s).

Section Bodies.
Context {B : Type} `{RawBody B}.

(** Operations on a reader: [Result]s that thread its state. *)
Definition Rd (S A : Type) : Type := S -> result HttpError A * S.
#[local] Instance Rd_ret S : MRet (Rd S) := fun A a s => (Ok a, s).
#[local] Instance Rd_bind S : MBind (Rd S) := fun A B f m s =>
  match m s with (Ok a, s) => f a s | (Err e, s) => (Err e, s) end.
Definition fail {S A} (e : HttpError) : Rd S A := fun s => (Err e, s).

(** *** A fixed length *)

Definition fixed_read (n : nat) : Rd (FixedLengthBodyReader B) bytes := fun self =>
  if remaining self =? 0 then (Ok [], self)
  else match raw_read n (raw_body self) with
       | (Err e, b) => (Err (Network e), {| raw_body := b; remaining := remaining self |})
       | (Ok a, b) => (Ok a, {| raw_body := b; remaining := wrap usize_bits (remaining self - zlen a) |})
       end.

Definition fixed_fill_buf : Rd (FixedLengthBodyReader B) bytes := fun self =>
  if remaining self =? 0 then (Ok [], self)
  else match raw_fill (raw_body self) with
       | (Err e, b) => (Err (Network e), {| raw_body := b; remaining := remaining self |})
       | (Ok data, b) =>
           let loaded := ztake (Z.min (zlen data) (remaining self)) data in
           ((if bool_decide (loaded = []) then Err ConnectionAborted else Ok loaded),
            {| raw_body := b; remaining := remaining self |})
       end.

Definition fixed_consume (amt : nat) (self : FixedLengthBodyReader B) : FixedLengthBodyReader B :=
  let amt := Z.min (Z.of_nat amt) (remaining self) in
  {| raw_body := raw_consume (Z.to_nat amt) (raw_body self); remaining := remaining self - amt |}.

(** *** Chunks *)

Definition ChunkedBodyReader_new (b : B) : ChunkedBodyReader B :=
  {| chunked_body := b; chunk_remaining := NoChunk |}.
Definition chunked_is_done (self : ChunkedBodyReader B) : bool :=
  bool_decide (chunk_remaining self = Empty).

(** [read_exact] of [embedded-io-async]: it fails at the end of the input. *)
Fixpoint read_exact_raw (fuel n : nat) (b : B) : result HttpError bytes * B :=
  match n, fuel with
  | O, _ => (Ok [], b)
  | _, O => (Err ConnectionAborted, b)
  | _, S fuel =>
      match raw_read n b with
      | (Err e, b) => (Err (Network e), b)
      | (Ok a, b) =>
          if bool_decide (a = []) then (Err ConnectionAborted, b)
          else match read_exact_raw fuel (n - length a) b with
               | (Ok a', b) => (Ok (a ++ a'), b)
               | (Err e, b) => (Err e, b)
               end
      end
  end.
Definition raw_read_exact (n : nat) : Rd (ChunkedBodyReader B) bytes := fun self =>
  let (r, b) := read_exact_raw n n (chunked_body self) in
  (r, {| chunked_body := b; chunk_remaining := chunk_remaining self |}).
Definition set_chunk (s : ChunkState) : Rd (ChunkedBodyReader B) unit := fun self =>
  (Ok tt, {| chunked_body := chunked_body self; chunk_remaining := s |}).
Definition get_chunk : Rd (ChunkedBodyReader B) ChunkState := fun self => (Ok (chunk_remaining self), self).
Definition on_error {S A} (f : HttpError -> HttpError) (m : Rd S A) : Rd S A := fun s =>
  let (r, s) := m s in (map_err f r, s).

Definition CHUNK_HEADER : nat := 8 + 2.

(** The loop over the bytes of a chunk's header; it gives the bytes in front
    of the newline. *)
Fixpoint read_size (room : nat) (header_buf : bytes) : Rd (ChunkedBodyReader B) bytes :=
  match room with
  | O => fail Codec
  | S room =>
      byte ← on_error (fun e => Network (kind e)) (raw_read_exact 1);
      match byte with
      | [10] =>
          if bool_decide (last header_buf = Some 13) then mret header_buf else fail Codec
      | _ =>
          match room with
          | O => fail Codec
          | _ => read_size room (header_buf ++ byte)
          end
      end
  end.

Context `{Hex}.

Definition read_next_chunk_length : Rd (ChunkedBodyReader B) unit :=
  header_buf ← read_size CHUNK_HEADER [];
  let hex_digits := (length header_buf - 1)%nat in
  let hex := replicate (8 - hex_digits) 48 ++ take hex_digits header_buf in
  match hex_to_slice hex with
  | Err _ => fail Codec
  | Ok bytes =>
      let chunk_length := of_be_bytes bytes in
      set_chunk (if chunk_length =? 0 then Empty else NotEmpty chunk_length)
  end.

Definition read_chunk_end : Rd (ChunkedBodyReader B) unit :=
  newline_buf ← raw_read_exact 2;
  if bool_decide (newline_buf = [13; 10]) then mret tt else fail Codec.

Definition handle_chunk_boundary : Rd (ChunkedBodyReader B) Z :=
  chunk ← get_chunk;
  if bool_decide (chunk = Empty) then mret 0
  else
    match chunk with
    | NoChunk => read_next_chunk_length
    | NotEmpty remaining => if remaining =? 0 then read_chunk_end;; read_next_chunk_length else mret tt
    | Empty => mret tt
    end;;
    chunk ← get_chunk;
    (if bool_decide (chunk = Empty) then read_chunk_end else mret tt);;
    chunk ← get_chunk;
    mret (ChunkState_len chunk).

Definition chunk_take (amt : Z) (self : ChunkedBodyReader B) : ChunkedBodyReader B :=
  {| chunked_body := chunked_body self; chunk_remaining := (ChunkState_consume (chunk_remaining self) amt).2 |}.

Definition chunked_read (n : nat) : Rd (ChunkedBodyReader B) bytes :=
  remaining ← handle_chunk_boundary;
  (fun self =>
    let max_len := Z.min (Z.of_nat n) remaining in
    match raw_read (Z.to_nat max_len) (chunked_body self) with
    | (Err e, b) => (Err (Network e), {| chunked_body := b; chunk_remaining := chunk_remaining self |})
    | (Ok a, b) =>
        (Ok a, chunk_take (zlen a) {| chunked_body := b; chunk_remaining := chunk_remaining self |})
    end) : Rd (ChunkedBodyReader B) bytes.

Definition chunked_fill_buf : Rd (ChunkedBodyReader B) bytes :=
  remaining ← handle_chunk_boundary;
  (fun self =>
    if remaining =? 0 then (Ok [], self)
    else match raw_fill (chunked_body self) with
         | (Err e, b) => (Err (Network e), {| chunked_body := b; chunk_remaining := chunk_remaining self |})
         | (Ok buf, b) =>
             (Ok (ztake (Z.min (zlen buf) remaining) buf),
              {| chunked_body := b; chunk_remaining := chunk_remaining self |})
         end) : Rd (ChunkedBodyReader B) bytes.

Definition chunked_consume (amt : nat) (self : ChunkedBodyReader B) : ChunkedBodyReader B :=
  let (consumed, chunk) := ChunkState_consume (chunk_remaining self) (Z.of_nat amt) in
  {| chunked_body := raw_consume (Z.to_nat consumed) (chunked_body self); chunk_remaining := chunk |}.

(** *** Any body *)

Definition lift_reader {S} (k : S -> BodyReader B) (m : Rd S bytes) (s : S)
  : result HttpError bytes * BodyReader B :=
  let (r, s) := m s in (r, k s).
Definition body_is_done (self : BodyReader B) : bool :=
  match self with
  | EmptyBody => true
  | FixedLength reader => remaining reader =? 0
  | Chunked reader => chunked_is_done reader
  | ToEnd _ => false
  end.
Definition raw_op (m : B -> result ErrorKind bytes * B) : Rd B bytes := fun b =>
  let (r, b) := m b in (map_err Network r, b).
Definition body_read (n : nat) (self : BodyReader B) : result HttpError bytes * BodyReader B :=
  match self with
  | EmptyBody => (Ok [], self)
  | FixedLength reader => lift_reader FixedLength (fixed_read n) reader
  | Chunked reader => lift_reader Chunked (chunked_read n) reader
  | ToEnd conn => lift_reader ToEnd (raw_op (raw_read n)) conn
  end.
Definition body_fill_buf (self : BodyReader B) : result HttpError bytes * BodyReader B :=
  match self with
  | EmptyBody => (Ok [], self)
  | FixedLength reader => lift_reader FixedLength fixed_fill_buf reader
  | Chunked reader => lift_reader Chunked chunked_fill_buf reader
  | ToEnd conn => lift_reader ToEnd (raw_op raw_fill) conn
  end.
Definition body_consume (amt : nat) (self : BodyReader B) : BodyReader B :=
  match self with
  | EmptyBody => self
  | FixedLength reader => FixedLength (fixed_consume amt reader)
  | Chunked reader => Chunked (chunked_consume amt reader)
  | ToEnd conn => ToEnd (raw_consume amt conn)
  end.

(** [BodyReader::read_to_end] into a buffer of [room] bytes: the loop, and
    what decides that there was more. [None]: out of fuel. *)
Fixpoint read_loop (fuel room : nat) (acc : bytes) (self : BodyReader B)
  : option (result HttpError bytes * BodyReader B) :=
  if (length acc <? room)%nat then
    match fuel with
    | O => None
    | S fuel =>
        match body_read (room - length acc) self with
        | (Err e, self) => Some (Err e, self)
        | (Ok a, self) => if bool_decide (a = []) then Some (Ok acc, self) else read_loop fuel room (acc ++ a) self
        end
    end
  else Some (Ok acc, self).
Definition body_read_to_end (room : nat) (self : BodyReader B)
  : option (result HttpError bytes * BodyReader B) :=
  '(r, self) ← read_loop room room [] self;
  match r with
  | Err e => Some (Err e, self)
  | Ok body =>
      if body_is_done self then Some (Ok body, self)
      else
        let '(more, self) :=
          match self with
          | FixedLength _ => (true, self)
          | ToEnd reader =>
              if bool_decide (length body = room) then
                let (r, reader) := raw_read 1 reader in
                (match r with Ok [_] => true | _ => false end, ToEnd reader)
              else (false, self)
          | _ => (true, self)
          end in
        Some (if more then Err BufferTooSmall else Ok body, self)
  end.
End Bodies.

(** [BufRead] for the downloads of [OtaFlash]. *)
#[export] Instance BodyReader_bufread {B} `{RawBody B} `{Hex} : BufRead (BodyReader B) := {
  fill_buf r :=
    match body_fill_buf r with
    | (Ok a, r) => (Ready a, r)
    | (Err _, r) => (FillFailed, r)
    end;
  consume := body_consume
}.

(** ** The writer of chunked bodies ([body_writer/chunked.rs]) *)

Section Writer.
Context `{Hex}.

Definition EMPTY_CHUNK : bytes := [48; 13; 10; 13; 10].
Definition NEWLINE : bytes := [13; 10].

(** The first digit that is not zero; the last one if all are. *)
Definition leading_zeros (hex : bytes) : nat :=
  match list_find (fun d => d <> 48) hex with
  | Some (position, _) => position
  | None => (length hex - 1)%nat
  end.
Definition write_chunked_header (chunk_len : Z) : bytes :=
  let hex := hex_of_slice (be_bytes 4 chunk_len) in
  drop (leading_zeros hex) hex ++ NEWLINE.

(** What a [write_all] sends, and [terminate]. *)
Definition write_all (buf : bytes) : bytes :=
  if (length buf =? 0)%nat then []
  else write_chunked_header (zlen buf) ++ buf ++ NEWLINE.
Definition terminate : bytes := EMPTY_CHUNK.
End Writer.

(** ** The reader in front of the connection is a raw body *)

Section ReaderLaws.
Context {C : Type} `{ConnectionLaws C}.

Definition reader_rest (r : BufferingReader C) : bytes :=
  take (loaded (rb r)) (buffer (rb r)) ++ incoming (stream r).
Definition reader_ok (r : BufferingReader C) : Prop :=
  (loaded (rb r) <= length (buffer (rb r)))%nat /\ (0 < length (buffer (rb r)))%nat.

Lemma consume_spec (b : ReadBuffer) (n : nat) :
  (loaded b <= length (buffer b))%nat -> (n <= loaded b)%nat ->
  exists b', ReadBuffer_consume b n = (0%nat, b') /\
    take (loaded b') (buffer b') = drop n (take (loaded b) (buffer b)) /\
    (loaded b' <= length (buffer b'))%nat /\ length (buffer b') = length (buffer b).
Proof.
  intros Hl Hn. unfold ReadBuffer_consume. rewrite Nat.min_l by done.
  rewrite Nat.sub_diag. eexists. split; [done|]. cbn [buffer loaded].
  set (kept := take (loaded b - n) (drop n (buffer b))).
  assert (length kept = loaded b - n)%nat as Hk
    by (unfold kept; rewrite length_take, length_drop; lia).
  split_and!.
  - rewrite take_app_le by lia. rewrite <- Hk, take_ge by lia. unfold kept. by rewrite skipn_firstn_comm.
  - rewrite length_app. lia.
  - rewrite length_app, length_drop. lia.
Qed.

Lemma consume_none (b : ReadBuffer) (n : nat) : loaded b = 0%nat -> ReadBuffer_consume b n = (n, b).
Proof.
  intros Hz. unfold ReadBuffer_consume. destruct b as [buffer loaded]. cbn in Hz |- *. subst loaded.
  by rewrite Nat.min_0_r, !Nat.sub_0_r.
Qed.

Lemma not_loaded (r : BufferingReader C) : ReadBuffer_is_empty (rb r) = true -> reader_rest r = incoming (stream r).
Proof. unfold ReadBuffer_is_empty, reader_rest. by intros ->%Nat.eqb_eq. Qed.
Lemma some_loaded (r : BufferingReader C) : reader_ok r -> ReadBuffer_is_empty (rb r) = false ->
  take (loaded (rb r)) (buffer (rb r)) <> [].
Proof.
  unfold ReadBuffer_is_empty. intros [Hl Hb] He%Nat.eqb_neq Hn.
  apply (f_equal length) in Hn. rewrite length_take in Hn. cbn in Hn. lia.
Qed.

(** What a read into a buffer that is not empty gives. *)
Lemma conn_read_spec n (c : C) : (0 < n)%nat -> exists res c', conn_read n c = (res, c') /\
  match res with
  | Ok a => (a = [] <-> incoming c = []) /\ (length a <= n)%nat /\ incoming c = a ++ incoming c'
  | Err _ => incoming c = [] /\ incoming c' = []
  end.
Proof.
  intros Hn. destruct (decide (incoming c = [])) as [Hi|Hi].
  - destruct (read_nothing n c (or_intror Hi)) as (res & c' & E & Hend & Hin & _). exists res, c'. split; [done|].
    destruct res as [a|e]; cbn in Hend; [subst a; rewrite Hin, Hi; by split; [|split; [cbn; lia|]] | by rewrite Hin, Hi].
  - destruct (read_some n c Hn Hi) as (a & c' & E & Ha & Hl & Hin & _). exists (Ok a), c'. by split_and!.
Qed.

(** Reading into the local buffer. *)
Lemma fill_local_spec (r : BufferingReader C) : reader_ok r -> ReadBuffer_is_empty (rb r) = true ->
  exists res r', fill_local r = (res, r') /\ reader_rest r' = reader_rest r /\ reader_ok r' /\
    match res with
    | Ok a => (a = [] <-> reader_rest r = []) /\ a `prefix_of` reader_rest r /\
        forall n, (n <= length a)%nat ->
          reader_rest (BufferingReader_consume n r') = drop n (reader_rest r) /\ reader_ok (BufferingReader_consume n r')
    | Err _ => reader_rest r = []
    end.
Proof.
  intros [Hl Hb] He. rewrite (not_loaded r He). unfold fill_local.
  assert (loaded (rb r) = 0%nat) as Hz by by apply Nat.eqb_eq.
  destruct (conn_read_spec (length (buffer (rb r))) (stream r) Hb) as ([a|e] & c' & -> & Hres); last first.
  { destruct Hres as [Hi Hi']. do 2 eexists. split; [done|]. unfold reader_rest, reader_ok. cbn. rewrite Hz, Hi, Hi'. by split_and!; [|lia|lia|]. }
  destruct Hres as (Ha & Hla & Hin). set (r' := with_rb (with_stream r c') (load a (rb r))).
  assert (take (length a) (a ++ drop (length a) (buffer (rb r))) = a) as Ht by (by rewrite take_app_length).
  assert (length (a ++ drop (length a) (buffer (rb r))) = length (buffer (rb r))) as Hlen
    by (rewrite length_app, length_drop; lia).
  do 2 eexists. split; [done|]. unfold ReadBuffer_fill_buf. cbn [load loaded buffer]. rewrite Ht.
  assert (reader_rest r' = incoming (stream r)) as Hr' by (unfold reader_rest; cbn; by rewrite Ht, Hin).
  split; [exact Hr'|]. split; [unfold reader_ok; cbn; rewrite Hlen; lia|].
  split; [done|]. split; [by exists (incoming c')|].
  intros n Hn. unfold BufferingReader_consume. cbn [rb with_rb].
  destruct (consume_spec (load a (rb r)) n) as (b' & Ec & Hb' & Hok & Hcap); [cbn; lia|done|].
  change (ReadBuffer_consume _ n) with (ReadBuffer_consume (load a (rb r)) n). rewrite Ec. cbn [load loaded buffer] in *.
  cbn [Nat.ltb Nat.leb]. unfold reader_rest, reader_ok. cbn. rewrite Hb', Ht, Hin, drop_app_le by lia. split; [done|]. lia.
Qed.

Lemma reader_fill_spec (r : BufferingReader C) : reader_ok r ->
  exists res r', BufferingReader_fill_buf r = (res, r') /\ reader_rest r' = reader_rest r /\ reader_ok r' /\
    match res with
    | Ok a => (a = [] <-> reader_rest r = []) /\ a `prefix_of` reader_rest r /\
        forall n, (n <= length a)%nat ->
          reader_rest (BufferingReader_consume n r') = drop n (reader_rest r) /\ reader_ok (BufferingReader_consume n r')
    | Err _ => reader_rest r = []
    end.
Proof.
  intros Hok. unfold BufferingReader_fill_buf. destruct (ReadBuffer_is_empty (rb r)) eqn:He; last first.
  - pose proof (some_loaded r Hok He) as Hne. destruct Hok as [Hl Hb]. do 2 eexists. split; [done|]. split; [done|]. split; [done|].
    unfold ReadBuffer_fill_buf, reader_rest at 1 2 3. split; [|split].
    + split; [done|]. by intros [? _]%app_nil.
    + by exists (incoming (stream r)).
    + intros n Hn. unfold BufferingReader_consume. rewrite length_take in Hn.
      destruct (consume_spec (rb r) n Hl) as (b' & -> & Hb' & Hok' & Hcap); [lia|].
      cbn [Nat.ltb Nat.leb]. unfold reader_rest, reader_ok. cbn. rewrite Hb', drop_app_le by (rewrite length_take; lia).
      split; [done|]. lia.
  - assert (forall c', incoming c' = incoming (stream r) ->
      exists res r', fill_local (with_stream r c') = (res, r') /\ reader_rest r' = reader_rest r /\ reader_ok r' /\
      match res with
      | Ok a => (a = [] <-> reader_rest r = []) /\ a `prefix_of` reader_rest r /\
          forall n, (n <= length a)%nat ->
            reader_rest (BufferingReader_consume n r') = drop n (reader_rest r) /\ reader_ok (BufferingReader_consume n r')
      | Err _ => reader_rest r = []
      end) as Hlocal.
    { intros c' Hc'. destruct (fill_local_spec (with_stream r c') Hok He) as (res & r' & E & Hs).
      exists res, r'. split; [done|]. assert (reader_rest (with_stream r c') = reader_rest r) as <-; [|done].
      unfold reader_rest. cbn. by rewrite Hc'. }
    destruct (force_local_buffer r); cbn [negb].
    { destruct (Hlocal (stream r) eq_refl) as (res & r' & E & Hs). exists res, r'. split; [|done]. by destruct r. }
    destruct (buffered (stream r)) eqn:Eb; last first.
    { destruct (fill_none _ Eb) as (c' & -> & Hin & _). by apply Hlocal. }
    destruct (fill_some _ Eb) as (r0 & c0 & -> & Hin0 & Hb0 & _).
    destruct (fill_some _ Hb0) as (res & c1 & -> & Hin1 & Hb1 & Hres). rewrite Hin0 in Hin1, Hres.
    do 2 eexists. split; [done|]. rewrite (not_loaded r He), (not_loaded (with_stream r c1) He). cbn [stream with_stream].
    split; [done|]. split; [done|]. destruct res as [a|e]; [|done]. destruct Hres as (Hn & Hp & Hc). split; [done|]. split; [done|].
    intros n Hle. specialize (Hc n Hle). unfold BufferingReader_consume. cbn [rb with_stream].
    rewrite (consume_none (rb r) n) by (by apply Nat.eqb_eq).
    assert (reader_ok r) as Hok' by exact Hok. destruct n as [|n]; cbn [Nat.ltb Nat.leb].
    + split; [|exact Hok']. rewrite drop_0. rewrite <- Hin1. by apply (not_loaded (with_stream r c1)).
    + split; [|exact Hok']. rewrite <- (proj1 Hc). by apply (not_loaded (with_stream r (try_consume (S n) c1))).
Qed.

#[export] Instance BufferingReader_laws : RawBodyLaws (BufferingReader C).
Proof.
  refine {| raw_rest := reader_rest; raw_ok := reader_ok |}.
  - intros n r Hok Hn Hr. cbn. unfold BufferingReader_read. destruct (ReadBuffer_is_empty (rb r)) eqn:He; cbn [negb].
    + rewrite (not_loaded r He) in Hr |- *. destruct (read_some n (stream r) Hn Hr) as (a & c' & -> & Ha & Hl & Hin & _).
      exists a, (with_stream r c'). split; [done|]. split; [done|]. split; [done|].
      rewrite (not_loaded (with_stream r c') He). by split.
    + pose proof (some_loaded r Hok He) as Hne. destruct Hok as [Hl Hb]. unfold ReadBuffer_read.
      destruct (consume_spec (rb r) (loaded (rb r) `min` n)%nat Hl) as (b' & -> & Hb' & Hok' & Hcap); [lia|].
      do 2 eexists. split; [done|]. unfold reader_rest, reader_ok. cbn. rewrite length_take. split_and!.
      * intros E. apply (f_equal length) in E. rewrite length_take in E. cbn in E.
        apply Nat.eqb_neq in He. lia.
      * lia.
      * rewrite Hb', app_assoc. f_equal.
        rewrite <- (take_drop (loaded (rb r) `min` n) (take (loaded (rb r)) (buffer (rb r)))) at 1.
        f_equal. rewrite take_take. f_equal. lia.
      * done.
      * lia.
  - intros n r Hok Hn. cbn. unfold BufferingReader_read. destruct (ReadBuffer_is_empty (rb r)) eqn:He; cbn [negb].
    + assert (n = 0%nat \/ incoming (stream r) = []) as Hn' by (rewrite (not_loaded r He) in Hn; tauto).
      destruct (read_nothing n (stream r) Hn') as (res & c' & -> & Hend & Hin & _).
      do 2 eexists. split; [done|]. split; [done|]. rewrite (not_loaded r He), (not_loaded (with_stream r c') He). by split.
    + pose proof (some_loaded r Hok He) as Hne. destruct Hn as [-> | Hn]; [|unfold reader_rest in Hn; by apply app_nil in Hn as [? _]].
      destruct Hok as [Hl Hb]. unfold ReadBuffer_read. rewrite Nat.min_0_r.
      destruct (consume_spec (rb r) 0 Hl) as (b' & -> & Hb' & Hok' & Hcap); [lia|].
      do 2 eexists. split; [done|]. unfold reader_rest, reader_ok. cbn. rewrite Hb', drop_0. split; [done|]. split; [done|]. lia.
  - intros r Hok. apply reader_fill_spec, Hok.
Defined.
End ReaderLaws.

(** ** What the body readers deliver *)

Section BodyLaws.
Context {B : Type} `{RawBodyLaws B} `{HexLaws}.
#[local] Existing Instances Rd_ret Rd_bind.

Lemma rd_ok {S A A'} (m : Rd S A) (f : A -> Rd S A') s a s' :
  m s = (Ok a, s') -> (m ≫= f) s = f a s'.
Proof. intros E. unfold mbind, Rd_bind. by rewrite E. Qed.

(** *** A fixed length *)

(** At least [remaining] bytes are to come, and these are delivered. *)
Record FixedOk (r : FixedLengthBodyReader B) (w : bytes) : Prop := {
  fo_raw : raw_ok (raw_body r);
  fo_prefix : w `prefix_of` raw_rest (raw_body r);
  fo_length : zlen w = remaining r
}.

Lemma ztake_all (s : bytes) n : zlen s <= n -> ztake n s = s.
Proof. unfold ztake, zlen. intros Hn. apply take_ge. lia. Qed.
Lemma ztake_app (s k : bytes) : ztake (zlen s) (s ++ k) = s.
Proof. unfold ztake, zlen. by rewrite Nat2Z.id, take_app_length. Qed.

(** Two prefixes of the same bytes. *)
Lemma prefix_cut (a w s : bytes) : a `prefix_of` s -> w `prefix_of` s ->
  ztake (Z.min (zlen a) (zlen w)) a `prefix_of` w.
Proof.
  intros [k ->] Hw. unfold ztake, zlen. destruct (prefix_weak_total w a (a ++ k)) as [[t ->] | [t ->]];
    [done | by exists k | |].
  - rewrite length_app, Z.min_r, Nat2Z.id, take_app_length by lia. done.
  - rewrite length_app, Z.min_l, Nat2Z.id, take_ge by lia. by exists t.
Qed.

Lemma fixed_fill_ok r w : FixedOk r w -> w <> [] -> exists a r', fixed_fill_buf r = (Ok a, r') /\
  a <> [] /\ a `prefix_of` w /\ forall n, (n <= length a)%nat -> FixedOk (fixed_consume n r') (drop n w).
Proof.
  intros [Hok Hp Hl] Hw. assert (0 < zlen w) as Hpos by (destruct w; [done | unfold zlen; cbn; lia]).
  unfold fixed_fill_buf. rewrite (proj2 (Z.eqb_neq _ _)) by lia.
  destruct (raw_fill_spec (raw_body r) Hok) as (res & b & -> & Hrest & Hok' & Hres).
  assert (raw_rest (raw_body r) <> []) as Hne by (intros E; rewrite E in Hp; by apply prefix_nil_inv in Hp).
  destruct res as [a|e]; [|done]. destruct Hres as (Hnil & Hpre & Hcon). rewrite <- Hl.
  pose proof (prefix_cut a w _ Hpre Hp) as Hcut. set (l := ztake _ a) in *.
  assert (0 < zlen a) as Ha by (destruct a; [by destruct Hne; apply Hnil | unfold zlen; cbn; lia]).
  assert (l <> []) as Hne'.
  { intros E. apply (f_equal length) in E. unfold l, ztake, zlen in *. rewrite length_take in E. cbn in E. lia. }
  rewrite bool_decide_eq_false_2 by done. do 2 eexists. split; [done|]. split; [done|]. split; [done|].
  assert (length l <= length a)%nat as Hla by (unfold l, ztake; rewrite length_take; lia).
  apply prefix_length in Hcut as Hlw. intros n Hn. unfold fixed_consume. cbn [raw_body remaining].
  rewrite Z.min_l, Nat2Z.id by (unfold zlen; lia). destruct (Hcon n ltac:(lia)) as [Hd Hok''].
  split; cbn [raw_body remaining]; [done | |].
  - rewrite Hd. destruct Hp as [k ->]. rewrite drop_app_le by lia. by exists k.
  - unfold zlen. rewrite length_drop. lia.
Qed.

(** *** Chunks *)

(** The digits of a chunk's length, and a chunked body: what it encodes and
    what follows it. *)
Definition ChunkLength (digits : bytes) (n : Z) : Prop :=
  (length digits <= 8)%nat /\ (10 ∉ digits) /\
  exists b, hex_to_slice (replicate (8 - length digits) 48 ++ digits) = Ok b /\ of_be_bytes b = n.

Inductive Chunks (extra : bytes) : bytes -> bytes -> Prop :=
| chunks_end digits : ChunkLength digits 0 -> Chunks extra (digits ++ NEWLINE ++ NEWLINE ++ extra) []
| chunks_cons digits d raw w : ChunkLength digits (zlen d) -> d <> [] -> Chunks extra raw w ->
    Chunks extra (digits ++ NEWLINE ++ d ++ NEWLINE ++ raw) (d ++ w).

Definition ChunkedOk (extra : bytes) (r : ChunkedBodyReader B) (w : bytes) : Prop :=
  raw_ok (chunked_body r) /\
  match chunk_remaining r with
  | NoChunk => Chunks extra (raw_rest (chunked_body r)) w
  | NotEmpty k => u32 k /\ exists d raw w', raw_rest (chunked_body r) = d ++ NEWLINE ++ raw /\ zlen d = k /\
      w = d ++ w' /\ Chunks extra raw w'
  | Empty => w = [] /\ raw_rest (chunked_body r) = extra
  end.

Lemma read_exact_raw_ok fuel l t (b : B) : raw_ok b -> raw_rest b = l ++ t -> (length l <= fuel)%nat ->
  exists b', read_exact_raw fuel (length l) b = (Ok l, b') /\ raw_rest b' = t /\ raw_ok b'.
Proof.
  revert l b. induction fuel as [|fuel IH]; intros l b Hok Hr Hf.
  { assert (l = []) as -> by (destruct l; [done | cbn in Hf; lia]). by exists b. }
  destruct l as [|x l]; [by exists b|]. cbn [read_exact_raw length].
  destruct (raw_read_some (S (length l)) b Hok) as (a & b1 & -> & Ha & Hla & Hr1 & Hok1);
    [lia | by rewrite Hr|].
  rewrite bool_decide_eq_false_2 by done.
  assert (exists k, x :: l = a ++ k /\ raw_rest b1 = k ++ t) as (k & Ek & Ek').
  { rewrite Hr in Hr1. exists (drop (length a) (x :: l)). apply app_eq_inv in Hr1 as [(k & -> & E)|(k & -> & E)].
    - rewrite drop_app_length. by split.
    - rewrite length_app in Hla. cbn in Hla. assert (k = []) as -> by (destruct k; [done | cbn in Hla; lia]).
      rewrite app_nil_r, drop_all. cbn in *. by rewrite E, app_nil_r. }
  rewrite Ek. assert (S (length l) = length a + length k)%nat as El
    by (rewrite <- length_app, <- Ek; done).
  assert (0 < length a)%nat by (destruct a; [done | cbn; lia]).
  replace (S (length l) - length a)%nat with (length k) by lia.
  destruct (IH k b1 Hok1 Ek') as (b' & -> & Hr' & Hok'); [cbn in Hf; lia|]. by exists b'.
Qed.

Lemma raw_read_exact_ok l t (r : ChunkedBodyReader B) : raw_ok (chunked_body r) ->
  raw_rest (chunked_body r) = l ++ t -> exists b',
  raw_read_exact (length l) r = (Ok l, {| chunked_body := b'; chunk_remaining := chunk_remaining r |}) /\
  raw_rest b' = t /\ raw_ok b'.
Proof.
  intros Hok Hr. destruct (read_exact_raw_ok (length l) l t (chunked_body r) Hok Hr) as (b' & E & Hr' & Hok'); [done|].
  exists b'. unfold raw_read_exact. by rewrite E.
Qed.

(** Reading the bytes in front of a newline. *)
Lemma read_size_ok room acc l t (r : ChunkedBodyReader B) : raw_ok (chunked_body r) ->
  raw_rest (chunked_body r) = l ++ 10 :: t -> 10 ∉ l -> last (acc ++ l) = Some 13 -> (length l < room)%nat ->
  exists b', read_size room acc r = (Ok (acc ++ l), {| chunked_body := b'; chunk_remaining := chunk_remaining r |}) /\
  raw_rest b' = t /\ raw_ok b'.
Proof.
  revert acc l r. induction room as [|room IH]; intros acc l r Hok Hr Hnl Hlast Hroom; [lia|].
  cbn [read_size].
  assert (exists x l', l ++ 10 :: t = [x] ++ l' /\ match l with [] => x = 10 /\ l' = t | y :: k => x = y /\ l' = k ++ 10 :: t end)
    as (x & l' & El & Hx) by (destruct l as [|y k]; [by exists 10, t | by exists y, (k ++ 10 :: t)]).
  rewrite El in Hr. destruct (raw_read_exact_ok [x] l' r Hok Hr) as (b1 & E1 & Hr1 & Hok1). cbn [length] in E1.
  erewrite rd_ok; [|unfold on_error; by rewrite E1]. destruct l as [|y k].
  - destruct Hx as [-> ->]. rewrite app_nil_r in Hlast |- *. rewrite bool_decide_eq_true_2 by done.
    exists b1. by split.
  - destruct Hx as [-> ->]. apply not_elem_of_cons in Hnl as [Hy Hk].
    assert (forall P : Rd (ChunkedBodyReader B) bytes, match [y] with [10] => P | _ =>
      match room with O => fail Codec | S _ => read_size room (acc ++ [y]) end end = read_size room (acc ++ [y])) as ->.
    { intros P. assert (room <> 0%nat) by (cbn in Hroom; lia). destruct room; [done|].
      destruct y as [|p|p]; try done. do 4 (destruct p as [p|p|]; try done). }
    destruct (IH (acc ++ [y]) k {| chunked_body := b1; chunk_remaining := chunk_remaining r |}) as (b' & E & Hr' & Hok'); try done.
    + by rewrite <- app_assoc.
    + cbn in Hroom. lia.
    + exists b'. rewrite E, <- app_assoc. by split.
Qed.

Lemma read_next_ok digits n t (r : ChunkedBodyReader B) : raw_ok (chunked_body r) -> ChunkLength digits n ->
  raw_rest (chunked_body r) = digits ++ NEWLINE ++ t -> exists b',
  read_next_chunk_length r = (Ok tt, {| chunked_body := b'; chunk_remaining := if n =? 0 then Empty else NotEmpty n |}) /\
  raw_rest b' = t /\ raw_ok b'.
Proof.
  intros Hok (Hlen & Hnl & b & Hb & <-) Hr. unfold read_next_chunk_length.
  destruct (read_size_ok CHUNK_HEADER [] (digits ++ [13]) t r Hok) as (b' & E & Hr' & Hok').
  - rewrite Hr, <- app_assoc. done.
  - rewrite not_elem_of_app. split; [done|]. by intros [=]%list_elem_of_singleton.
  - rewrite app_nil_l. by rewrite last_snoc.
  - unfold CHUNK_HEADER. rewrite length_app. cbn. lia.
  - erewrite rd_ok by exact E. cbn [app]. rewrite length_app. cbn [length].
    replace (length digits + 1 - 1)%nat with (length digits) by lia.
    rewrite take_app_length, Hb. exists b'. by split.
Qed.

Lemma read_end_ok t (r : ChunkedBodyReader B) : raw_ok (chunked_body r) ->
  raw_rest (chunked_body r) = NEWLINE ++ t -> exists b',
  read_chunk_end r = (Ok tt, {| chunked_body := b'; chunk_remaining := chunk_remaining r |}) /\
  raw_rest b' = t /\ raw_ok b'.
Proof.
  intros Hok Hr. destruct (raw_read_exact_ok NEWLINE t r Hok Hr) as (b' & E & Hr' & Hok').
  exists b'. unfold read_chunk_end. erewrite rd_ok by exact E. by rewrite bool_decide_eq_true_2.
Qed.

Lemma chunk_length_u32 digits n : ChunkLength digits n -> u32 n.
Proof.
  intros (Hl & _ & b & Hb & <-). apply hex_slice_length in Hb as [Hlen Hbytes].
  rewrite length_app, length_replicate in Hlen. unfold of_be_bytes.
  pose proof (of_le_bytes_range (rev b) (Forall_rev Hbytes)) as Hr.
  rewrite length_rev in Hr. assert (length b = 4%nat) as Eb by lia. rewrite Eb in Hr. num.
Qed.

(** At a chunk boundary, and inside a chunk: the number of bytes that may be
    read, zero exactly when the body is over and its end has been read. *)
Lemma read_header_ok extra w (r : ChunkedBodyReader B) : raw_ok (chunked_body r) ->
  Chunks extra (raw_rest (chunked_body r)) w -> exists r1,
  read_next_chunk_length r = (Ok tt, r1) /\ raw_ok (chunked_body r1) /\
  match w with
  | [] => chunk_remaining r1 = Empty /\ raw_rest (chunked_body r1) = NEWLINE ++ extra
  | _ => exists k, chunk_remaining r1 = NotEmpty k /\ 0 < k /\ ChunkedOk extra r1 w
  end.
Proof.
  intros Hok Hc. inversion Hc as [digits Hd E Ew | digits d raw w' Hd Hne Hc' E Ew]; symmetry in E.
  - destruct (read_next_ok digits 0 _ r Hok Hd E) as (b' & -> & Hr & Hok'). by eexists.
  - assert (0 < zlen d) as Hpos by (destruct d; [done | unfold zlen; cbn; lia]).
    destruct (read_next_ok digits (zlen d) _ r Hok Hd E) as (b' & -> & Hr & Hok').
    rewrite (proj2 (Z.eqb_neq _ _)) by lia. eexists. split; [done|]. split; [done|].
    assert (d ++ w' <> []) as Hw by (by intros [? _]%app_nil). destruct (d ++ w') as [|y k] eqn:Ek; [done|].
    exists (zlen d). split; [done|]. split; [done|]. split; [done|]. cbn [chunk_remaining chunked_body].
    split; [by eapply chunk_length_u32|]. by exists d, raw, w'.
Qed.

Lemma boundary_ok extra w (r : ChunkedBodyReader B) : ChunkedOk extra r w -> exists k r',
  handle_chunk_boundary r = (Ok k, r') /\ ChunkedOk extra r' w /\
  match w with
  | [] => k = 0 /\ chunk_remaining r' = Empty
  | _ => 0 < k /\ chunk_remaining r' = NotEmpty k
  end.
Proof.
  intros [Hok Hc]. unfold handle_chunk_boundary. erewrite rd_ok by done.
  destruct (decide (chunk_remaining r = Empty)) as [E|Hne].
  { rewrite bool_decide_eq_true_2 by done. rewrite E in Hc. destruct Hc as [-> Hr].
    exists 0, r. split; [done|]. split; [|done]. split; [done|]. by rewrite E. }
  rewrite bool_decide_eq_false_2 by done.
  assert (exists r1, (match chunk_remaining r with
      | NoChunk => read_next_chunk_length
      | NotEmpty remaining => if remaining =? 0 then read_chunk_end;; read_next_chunk_length else mret tt
      | Empty => mret tt end) r = (Ok tt, r1) /\ raw_ok (chunked_body r1) /\
    match w with
    | [] => chunk_remaining r1 = Empty /\ raw_rest (chunked_body r1) = NEWLINE ++ extra
    | _ => exists k, chunk_remaining r1 = NotEmpty k /\ 0 < k /\ ChunkedOk extra r1 w
    end) as (r1 & E1 & Hok1 & Hw).
  { destruct (chunk_remaining r) as [|k|] eqn:Ek; [by apply read_header_ok| |done].
    destruct Hc as (Hk & d & raw & w' & Hr & Hl & -> & Hc). destruct (Z.eqb_spec k 0) as [->|Hk0].
    - assert (d = []) as -> by (destruct d; [done | unfold zlen in Hl; cbn in Hl; lia]). cbn [app] in Hr |- *.
      destruct (read_end_ok raw r Hok Hr) as (b' & E & Hr' & Hok').
      erewrite rd_ok by exact E. rewrite Ek. apply read_header_ok; [done|]. by rewrite <- Hr' in Hc.
    - exists r. split; [done|]. split; [done|]. assert (d ++ w' <> []) as Hne'.
      { destruct d; [by unfold zlen in Hl | done]. }
      destruct (d ++ w') eqn:Ew; [done|]. exists k. split; [done|]. split; [num|]. split; [done|]. rewrite Ek.
      split; [done|]. exists d, raw, w'. by split_and!. }
  erewrite rd_ok by exact E1. erewrite rd_ok by done. destruct w as [|y w].
  - destruct Hw as [Hemp Hr]. rewrite bool_decide_eq_true_2 by done.
    destruct (read_end_ok extra r1 Hok1 Hr) as (b' & E & Hr' & Hok').
    erewrite rd_ok by exact E. erewrite rd_ok by done. cbn [chunk_remaining]. rewrite Hemp.
    eexists _, _. split; [done|]. split; [|done]. by split.
  - destruct Hw as (k & Hk & Hpos & Hr1). rewrite bool_decide_eq_false_2 by (by rewrite Hk).
    erewrite rd_ok by done. erewrite rd_ok by done. rewrite Hk. by eexists _, _.
Qed.

(** Giving out [n] bytes of the chunk. *)
Lemma chunk_advance extra w k n (b : B) (r : ChunkedBodyReader B) :
  ChunkedOk extra r w -> chunk_remaining r = NotEmpty k -> raw_ok b -> Z.of_nat n <= k ->
  raw_rest b = drop n (raw_rest (chunked_body r)) ->
  ChunkedOk extra {| chunked_body := b; chunk_remaining := NotEmpty (k - Z.of_nat n) |} (drop n w).
Proof.
  intros [_ Hc] Hk Hok Hn Hr. rewrite Hk in Hc. destruct Hc as (Hu & d & raw & w' & Hd & Hl & -> & Hc).
  split; [done|]. cbn. split; [num|]. exists (drop n d), raw, w'. unfold zlen in *. split_and!; [| | |done].
  - by rewrite Hr, Hd, drop_app_le by lia.
  - rewrite length_drop. lia.
  - by rewrite drop_app_le by lia.
Qed.

Lemma chunk_prefix extra w k (r : ChunkedBodyReader B) : ChunkedOk extra r w -> chunk_remaining r = NotEmpty k ->
  exists d, zlen d = k /\ d `prefix_of` w /\ d `prefix_of` raw_rest (chunked_body r) /\ u32 k.
Proof.
  intros [_ Hc] Hk. rewrite Hk in Hc. destruct Hc as (Hu & d & raw & w' & Hd & Hl & -> & Hc).
  exists d. split_and!; [done | by exists w' | rewrite Hd; by eexists | exact Hu].
Qed.

Lemma chunked_fill_ok extra w (r : ChunkedBodyReader B) : ChunkedOk extra r w -> w <> [] ->
  exists a r', chunked_fill_buf r = (Ok a, r') /\ a <> [] /\ a `prefix_of` w /\
  forall n, (n <= length a)%nat -> ChunkedOk extra (chunked_consume n r') (drop n w).
Proof.
  intros Hc Hw. destruct (boundary_ok extra w r Hc) as (k & r1 & E & Hc1 & Hk).
  unfold chunked_fill_buf. erewrite rd_ok by exact E. destruct w as [|y w]; [done|]. destruct Hk as [Hpos Hk].
  rewrite (proj2 (Z.eqb_neq _ _)) by lia. destruct (chunk_prefix _ _ _ _ Hc1 Hk) as (d & Hl & Hdw & Hdr & Hu).
  destruct (raw_fill_spec (chunked_body r1) (proj1 Hc1)) as (res & b & -> & Hrest & Hok' & Hres).
  assert (raw_rest (chunked_body r1) <> []) as Hne.
  { intros E'. rewrite E' in Hdr. apply prefix_nil_inv in Hdr. subst d. unfold zlen in Hl. cbn in Hl. lia. }
  destruct res as [a|e]; [|done]. destruct Hres as (Hnil & Hpre & Hcon). rewrite <- Hl.
  pose proof (prefix_cut a d _ Hpre Hdr) as Hcut. set (l := ztake _ a) in *.
  assert (0 < zlen a) as Ha by (destruct a; [by destruct Hne; apply Hnil | unfold zlen; cbn; lia]).
  do 2 eexists. split; [done|]. split.
  { intros E'. apply (f_equal length) in E'. unfold l, ztake, zlen in *. rewrite length_take in E'. cbn in E'. lia. }
  split; [by etrans|]. intros n Hn. apply prefix_length in Hcut.
  assert (length l <= length a)%nat as Hla by (unfold l, ztake; rewrite length_take; lia).
  destruct (Hcon n ltac:(lia)) as [Hd' Hok'']. unfold chunked_consume. cbn [chunk_remaining chunked_body].
  rewrite Hk. cbn [ChunkState_consume]. unfold wrap. rewrite Z.mod_small by (unfold zlen in *; num).
  rewrite Z.min_l, Nat2Z.id by (unfold zlen in *; lia). apply (chunk_advance extra (y :: w) k n _ r1); try done.
  unfold zlen in Hl. lia.
Qed.

Lemma chunked_read_more extra w n (r : ChunkedBodyReader B) : ChunkedOk extra r w -> (0 < n)%nat -> w <> [] ->
  exists a r', chunked_read n r = (Ok a, r') /\ a <> [] /\ (length a <= n)%nat /\
  a `prefix_of` w /\ ChunkedOk extra r' (drop (length a) w) /\ chunk_remaining r' <> Empty.
Proof.
  intros Hc Hn Hw. destruct (boundary_ok extra w r Hc) as (k & r1 & E & Hc1 & Hk).
  unfold chunked_read. erewrite rd_ok by exact E. destruct w as [|y w]; [done|]. destruct Hk as [Hpos Hk].
  destruct (chunk_prefix _ _ _ _ Hc1 Hk) as (d & Hl & Hdw & Hdr & Hu). set (m := Z.to_nat (Z.min (Z.of_nat n) k)).
  destruct (raw_read_some m (chunked_body r1) (proj1 Hc1)) as (a & b & -> & Ha & Hla & Hr & Hok).
  { lia. }
  { intros E'. rewrite E' in Hdr. apply prefix_nil_inv in Hdr. subst d. unfold zlen in Hl. cbn in Hl. lia. }
  assert (a `prefix_of` d) as Had.
  { destruct (prefix_weak_total a d (raw_rest (chunked_body r1))) as [?|[t Ht]]; [by eexists | done | done |].
    exists []. rewrite app_nil_r. assert (t = []) as ->; [|by rewrite app_nil_r in Ht].
    apply (f_equal length) in Ht. rewrite length_app in Ht. unfold zlen in Hl. destruct t; [done | cbn in Ht; lia]. }
  do 2 eexists. split; [done|]. split; [done|]. split; [lia|]. split; [by etrans|].
  unfold chunk_take. cbn [chunked_body chunk_remaining]. rewrite Hk. cbn [ChunkState_consume snd].
  apply prefix_length in Had. unfold wrap. rewrite Z.mod_small by (unfold zlen in *; num).
  unfold zlen in *. rewrite Z.min_l by lia. split; [|done].
  apply (chunk_advance extra (y :: w) k (length a) b r1); try done; [lia|]. by rewrite Hr, drop_app_length.
Qed.

Lemma chunked_read_over extra n (r : ChunkedBodyReader B) : ChunkedOk extra r [] ->
  exists res r', chunked_read n r = (res, r') /\ at_end res /\ ChunkedOk extra r' [] /\ chunk_remaining r' = Empty /\
  ((forall b : B, raw_ok b -> exists b', raw_read 0 b = (Ok [], b')) -> res = Ok []).
Proof.
  intros Hc. destruct (boundary_ok extra [] r Hc) as (k & r1 & E & Hc1 & -> & Hk).
  unfold chunked_read. erewrite rd_ok by exact E. cbv beta zeta. rewrite Z.min_r by lia.
  change (Z.to_nat 0) with 0%nat.
  destruct (raw_read_nothing 0 (chunked_body r1) (proj1 Hc1) (or_introl eq_refl)) as (res & b & Er & Hend & Hr & Hok).
  rewrite Er. destruct Hc1 as [Hok1 Hc1]. rewrite Hk in Hc1. destruct Hc1 as [_ Hc1].
  destruct res as [a|e]; cbn in Hend.
  - subst a. do 2 eexists. split; [done|]. split; [done|]. unfold chunk_take. cbn [chunk_remaining]. rewrite Hk.
    cbn [ChunkState_consume snd]. split; [|by split]. split; [done|]. cbn. by rewrite Hr.
  - do 2 eexists. split; [done|]. split; [done|]. split; [|split; [done|]].
    + split; [done|]. cbn. rewrite Hk. by rewrite Hr.
    + intros He. destruct (He (chunked_body r1) Hok1) as (b' & E'). rewrite E' in Er. done.
Qed.

(** *** Any body *)

(** The readers as [OtaFlash] uses them: they yield exactly [w]. *)
Definition body_delivers (r : BodyReader B) (w : bytes) : Prop :=
  match r with
  | EmptyBody => w = []
  | FixedLength f => FixedOk f w
  | Chunked c => exists extra, ChunkedOk extra c w
  | ToEnd b => raw_ok b /\ raw_rest b = w
  end.

#[export] Instance BodyReader_laws : BufReadLaws (BodyReader B).
Proof.
  refine {| delivers := body_delivers |}. intros r w Hd Hw. cbn.
  destruct r as [|f|c|b]; cbn in Hd |- *.
  - done.
  - destruct (fixed_fill_ok f w Hd Hw) as (a & f' & E & Ha & Hp & Hc). unfold lift_reader. rewrite E.
    exists a, (FixedLength f'). by split_and!.
  - destruct Hd as [extra Hd]. destruct (chunked_fill_ok extra w c Hd Hw) as (a & c' & E & Ha & Hp & Hc).
    unfold lift_reader. rewrite E. exists a, (Chunked c'). split_and!; [done..|]. intros n Hn. exists extra. by apply Hc.
  - destruct Hd as [Hok <-]. destruct (raw_fill_spec b Hok) as (res & b' & E & Hr & Hok' & Hres).
    unfold lift_reader, raw_op. rewrite E. destruct res as [a|e]; [|done]. destruct Hres as (Hn & Hp & Hc).
    exists a, (ToEnd b'). split_and!; [done | by intros ?%Hn | done |]. intros n Hle. destruct (Hc n Hle). by split.
Defined.

(** *** What the writer sends is read back *)

Lemma hex_encode_digits b : is_bytes b -> Forall (fun d => is_hexdigit d = true) (hex_encode b).
Proof.
  unfold hex_encode. induction 1 as [|x b Hx _ IH]; [constructor|].
  assert (is_hexdigit (hex_digit (Z.shiftr x 4)) && is_hexdigit (hex_digit (Z.land x 15)) = true) as Hd.
  { apply (forall_u8 (fun x => is_hexdigit (hex_digit (Z.shiftr x 4)) && is_hexdigit (hex_digit (Z.land x 15)))); [|done].
    vm_compute. reflexivity. }
  apply andb_true_iff in Hd as [? ?]. cbn. by repeat constructor.
Qed.

Lemma drop_leading_zeros hex : hex <> [] ->
  replicate (length hex - length (drop (leading_zeros hex) hex)) 48 ++ drop (leading_zeros hex) hex = hex.
Proof.
  intros Hne. unfold leading_zeros. rewrite length_drop.
  assert (forall i, (i <= length hex)%nat -> Forall (eq 48) (take i hex) ->
    replicate (length hex - (length hex - i)) 48 ++ drop i hex = hex) as Hz.
  { intros i Hi Hall. replace (length hex - (length hex - i))%nat with i by lia.
    rewrite <- (take_drop i hex) at 2. f_equal. apply list_eq_same_length with i;
      rewrite ?length_replicate, ?length_take; try lia. intros j x y Hj Hx Hy.
    apply lookup_replicate in Hx as [-> _]. by eapply (Forall_lookup_1 _ _ _ _ Hall). }
  destruct (list_find _ hex) as [[i x]|] eqn:E.
  - apply list_find_Some in E as (Hi & _ & Hbefore). apply lookup_lt_Some in Hi. apply Hz; [lia|].
    apply Forall_lookup. intros j y Hj. apply lookup_take_Some in Hj as [Hj Hlt].
    destruct (decide (48 = y)) as [|n]; [done|]. destruct (Hbefore j y Hj Hlt). done.
  - apply list_find_None in E. apply Hz; [lia|]. apply Forall_take. eapply Forall_impl; [exact E|].
    intros y Hy. destruct (decide (48 = y)); [done|]. exfalso. by apply Hy.
Qed.

Lemma written_length n : u32 n ->
  ChunkLength (drop (leading_zeros (hex_of_slice (be_bytes 4 n))) (hex_of_slice (be_bytes 4 n))) n.
Proof.
  intros Hn. assert (is_bytes (be_bytes 4 n)) as Hb by apply be_bytes_is_bytes.
  pose proof (hex_slice_of_slice _ Hb) as Hs. pose proof (hex_of_slice_digits _ Hb) as Hd.
  set (hex := hex_of_slice (be_bytes 4 n)) in *.
  assert (length hex = 8%nat) as Hl by (rewrite Hd, length_hex_encode, length_be_bytes; done).
  pose proof (drop_leading_zeros hex ltac:(by intros E; rewrite E in Hl)) as Hz. rewrite Hl in Hz. split; [|split].
  - rewrite length_drop. lia.
  - intros Hin. assert (Forall (fun d => is_hexdigit d = true) (drop (leading_zeros hex) hex)) as Hall
      by (apply Forall_drop; rewrite Hd; by apply hex_encode_digits).
    rewrite Forall_forall in Hall. by specialize (Hall _ Hin).
  - exists (be_bytes 4 n). rewrite Hz. split; [done|]. apply of_be_be. num.
Qed.

Lemma zero_length : ChunkLength [48] 0.
Proof.
  split; [cbn; lia|]. split; [by intros [=]%list_elem_of_singleton|]. exists [0; 0; 0; 0].
  assert (is_bytes [0; 0; 0; 0]) as Hb by (forall_list ltac:(num)).
  pose proof (hex_slice_of_slice _ Hb) as Hs. rewrite (hex_of_slice_digits _ Hb) in Hs. split; [exact Hs | done].
Qed.

Lemma write_chunks extra pieces : Forall (fun p => zlen p < 2 ^ 32) pieces ->
  Chunks extra (mjoin (write_all <$> pieces) ++ terminate ++ extra) (mjoin pieces).
Proof.
  induction 1 as [|p pieces Hp _ IH].
  - apply (chunks_end extra [48]), zero_length.
  - cbn [fmap list_fmap mjoin list_join]. unfold write_all at 1. destruct (Nat.eqb_spec (length p) 0) as [E|E].
    { apply length_zero_iff_nil in E as ->. exact IH. }
    unfold write_chunked_header. rewrite <- !app_assoc. apply chunks_cons; [|by intros -> | exact IH].
    apply written_length. unfold zlen in *. num.
Qed.

Lemma read_loop_chunked extra fuel room acc w (c : ChunkedBodyReader B) :
  (forall b : B, raw_ok b -> exists b', raw_read 0 b = (Ok [], b')) ->
  ChunkedOk extra c w -> (room - length acc <= fuel)%nat -> exists c',
  read_loop fuel room acc (Chunked c) = Some (Ok (acc ++ take (room - length acc) w), Chunked c') /\
  ChunkedOk extra c' (drop (room - length acc) w) /\
  ((length acc + length w < room)%nat -> chunk_remaining c' = Empty) /\
  ((room <= length acc + length w)%nat -> chunk_remaining c <> Empty -> chunk_remaining c' <> Empty).
Proof.
  intros Hempty. revert acc w c. induction fuel as [|fuel IH]; intros acc w c Hc Hf; cbn [read_loop];
    destruct (Nat.ltb_spec (length acc) room) as [Hlt|Hge]; try lia.
  1, 3: exists c; replace (room - length acc)%nat with 0%nat by lia; rewrite app_nil_r; split_and!; (done || lia).
  cbn [body_read]. unfold lift_reader. destruct (decide (w = [])) as [->|Hw].
  - destruct (chunked_read_over extra (room - length acc) c Hc) as (res & c' & -> & _ & Hc' & Hk & Hres).
    rewrite (Hres Hempty). rewrite bool_decide_eq_true_2 by done. exists c'. rewrite take_nil, drop_nil, app_nil_r.
    split_and!; try done. cbn. lia.
  - destruct (chunked_read_more extra w (room - length acc) c Hc) as (a & c1 & -> & Ha & Hla & [k ->] & Hc1 & Hk1); [lia|done|].
    rewrite bool_decide_eq_false_2 by done. rewrite drop_app_length in Hc1.
    assert (0 < length a)%nat by (destruct a; [done | cbn; lia]).
    destruct (IH (acc ++ a) k c1 Hc1) as (c' & E & Hc' & Hend & Hopen); [rewrite length_app; lia|].
    rewrite length_app in *. exists c'. rewrite E.
    replace (room - length acc)%nat with (length a + (room - (length acc + length a)))%nat by lia.
    rewrite take_app_add, drop_app_add, app_assoc. split_and!; [done | done | intros; apply Hend; lia | intros; apply Hopen; [lia|done]].
Qed.

(** C32: reading a body of a declared length through [Read]. What a read gives
    is the body's next bytes as long as it stays within what remains, which is
    sure when the caller's buffer is no larger than that; nothing in [read]
    sees to it. A larger read that meets bytes after the body hands these
    out as the body's, takes them from the connection and leaves a remaining
    length close to 2^32 behind, so that the body is not done. *)
Theorem fixed_read_bounds (r : FixedLengthBodyReader B) (w : bytes) (n : nat)
    (Hok : FixedOk r w) (Hn : (0 < n)%nat) (Hw : w <> []) (Hlong : Z.of_nat n < 2 ^ 32) :
  0 <= remaining r < 2 ^ 32 -> exists a r', fixed_read n r = (Ok a, r') /\ a <> [] /\ (length a <= n)%nat /\
  raw_rest (raw_body r) = a ++ raw_rest (raw_body r') /\
  (zlen a <= remaining r -> a `prefix_of` w /\ FixedOk r' (drop (length a) w)) /\
  (remaining r < zlen a -> w `prefix_of` a /\ remaining r' = 2 ^ 32 - (zlen a - zlen w) /\
    body_is_done (FixedLength r') = false).
Proof.
  intros Hu. destruct Hok as [Hok [k Hp] Hl]. assert (0 < zlen w) by (destruct w; [done | unfold zlen; cbn; lia]).
  unfold fixed_read. rewrite (proj2 (Z.eqb_neq _ _)) by lia.
  destruct (raw_read_some n (raw_body r) Hok Hn) as (a & b & -> & Ha & Hla & Hr & Hok'); [by rewrite Hp; destruct w|].
  do 2 eexists. split_and!; [done..| |]; cbn [raw_body remaining].
  - intros Hle. rewrite Hp in Hr. unfold zlen in *. unfold wrap, usize_bits.
    apply app_eq_inv in Hr as [(t & -> & Ht)|(t & -> & Ht)].
    + split; [by exists t|]. rewrite drop_app_length. split; cbn [raw_body remaining]; [done | by exists k |].
      rewrite Z.mod_small, <- Hl by lia. unfold zlen. rewrite length_app. lia.
    + rewrite length_app in Hle, Hla. destruct t; [|cbn in *; lia]. rewrite app_nil_r. split; [done|].
      rewrite drop_all. split; cbn [raw_body remaining]; [done | apply prefix_nil |].
      rewrite Hl, Z.sub_diag. done.
  - intros Hgt. rewrite Hp in Hr. assert (wrap usize_bits (remaining r - zlen a) = 2 ^ 32 - (zlen a - zlen w)) as Hwrap.
    { unfold wrap, usize_bits, zlen in *. rewrite <- (Z.mod_small (2 ^ 32 - _) (2 ^ 32)) by lia.
      rewrite <- (Z.mod_add _ 1) by lia. f_equal. lia. }
    split_and!; [| exact Hwrap |].
    + apply app_eq_inv in Hr as [(t & -> & _)|(t & -> & _)]; [|by exists t]. unfold zlen in *. rewrite length_app in *. lia.
    + cbn. rewrite Hwrap. apply Z.eqb_neq. unfold zlen in *. lia.
Qed.

(** C31: what the writer of chunked bodies sends, piece by piece and then the
    terminating chunk, the reader of chunked bodies gives back, however the
    connection cuts it up: [read_to_end] into a larger buffer gives exactly the
    pieces joined, and leaves the connection at the first byte after the body.
    A buffer that is not larger is refused, even when the body fits exactly:
    the terminating chunk is not read then. *)
Theorem chunked_roundtrip (pieces : list bytes) (extra : bytes) (b : B) (room : nat)
    (Hok : raw_ok b) (Hempty : forall b : B, raw_ok b -> exists b', raw_read 0 b = (Ok [], b'))
    (Hpieces : Forall (fun p => zlen p < 2 ^ 32) pieces)
    (Hsent : raw_rest b = mjoin (write_all <$> pieces) ++ terminate ++ extra) :
  exists c, body_read_to_end room (Chunked (ChunkedBodyReader_new b)) =
    Some ((if (length (mjoin pieces) <? room)%nat then Ok (mjoin pieces) else Err BufferTooSmall), Chunked c) /\
  ((length (mjoin pieces) < room)%nat -> chunked_is_done c = true /\ raw_rest (chunked_body c) = extra).
Proof.
  assert (ChunkedOk extra (ChunkedBodyReader_new b) (mjoin pieces)) as Hc
    by (split; [done|]; cbn; rewrite Hsent; by apply write_chunks).
  destruct (read_loop_chunked extra room room [] _ _ Hempty Hc) as (c & E & Hc' & Hend & Hopen); [lia|].
  cbn [length] in *. rewrite Nat.sub_0_r in *. exists c. unfold body_read_to_end. rewrite E. cbn [mbind option_bind app].
  cbn [body_is_done]. unfold chunked_is_done. destruct (Nat.ltb_spec (length (mjoin pieces)) room) as [Hlt|Hge].
  - rewrite bool_decide_eq_true_2 by (by apply Hend). rewrite take_ge by lia. split; [done|]. intros _. split; [done|].
    destruct Hc' as [_ Hc']. rewrite (Hend Hlt) in Hc'. apply Hc'.
  - rewrite bool_decide_eq_false_2 by (by apply Hopen). split; [done|]. lia.
Qed.
End BodyLaws.

(** ** A concrete connection *)
Module Sample.

(** Seven bytes arrive at a time, and there is no buffer. *)
Record Wire := { on_wire : bytes }.
#[export] Instance wire : Connection Wire := {
  conn_read n c := (Ok (take (Nat.min 7 n) (on_wire c)), {| on_wire := drop (Nat.min 7 n) (on_wire c) |});
  try_fill_buf c := (None, c);
  try_consume _ c := c
}.
#[export] Instance wire_laws : ConnectionLaws Wire.
Proof.
  refine {| incoming := on_wire; buffered := fun _ => false |}; cbn [conn_read try_fill_buf try_consume wire on_wire].
  - intros n c Hn Hc. do 2 eexists. split; [done|]. cbn [on_wire]. rewrite take_drop, length_take. split_and!; [|lia|done..].
    destruct (on_wire c); [done|]. destruct n; [lia|]. done.
  - intros n c Hn. do 2 eexists. split; [done|]. cbn [at_end]. destruct Hn as [->|E].
    + by split_and!.
    + by rewrite E, take_nil, drop_nil.
  - intros c _. by exists c.
  - done.
Defined.

#[export] Instance hex : Hex := {
  hex_to_slice l := hex_into l (length l / 2);
  hex_of_slice := hex_encode
}.
Lemma nibble_value c v : hex_nibble_runtime c = Ok v -> 0 <= v < 16.
Proof. unfold hex_nibble_runtime, between. repeat case_match; intros [= <-]; lia. Qed.
Lemma nibbles_byte h l : 0 <= h < 16 -> 0 <= l < 16 -> u8 (Z.lor (wrap 8 (Z.shiftl h 4)) l).
Proof.
  intros Hh Hl. pose proof (forall_u8 (fun b => bool_decide (0 <= Z.lor (wrap 8 (Z.shiftl (b / 16) 4)) (b mod 16) < 256))) as Hb.
  specialize (Hb ltac:(vm_compute; reflexivity) (16 * h + l) ltac:(num)). apply bool_decide_eq_true in Hb.
  replace ((16 * h + l) / 16) with h in Hb by (Z.div_mod_to_equations; lia).
  replace ((16 * h + l) mod 16) with l in Hb by (Z.div_mod_to_equations; lia). num.
Qed.
Lemma hex_pairs_bytes n l b : (length l <= n)%nat -> hex_pairs l = Ok b -> is_bytes b.
Proof.
  revert l b. induction n as [|n IH]; intros [|c0 [|c1 l]] b Hn; cbn in *; try lia; try (by intros [= <-]).
  intros Hb. ok_steps Hb. apply ok_inj in Hb as <-. constructor; [apply nibbles_byte; by eapply nibble_value | apply (IH l); [lia|done]].
Qed.
#[export] Instance hex_laws : HexLaws.
Proof.
  split; cbn [hex_to_slice hex_of_slice hex].
  - intros l b Hb. pose proof (hex_into_length _ _ _ Hb) as Hl. unfold hex_into in Hb.
    destruct (Nat.eqb_spec (length l) (length l / 2 * 2)) as [E|]; cbn [negb] in Hb; [|done].
    split; [lia | by apply (hex_pairs_bytes (length l) l)].
  - done.
  - intros b Hb. rewrite length_hex_encode, Nat.div_mul by lia. by apply hex_roundtrip.
Defined.

(** A reader over the wire, with the first bytes of the body in its buffer. *)
Definition reader (loaded rest : bytes) : BufferingReader Wire :=
  BufferingReader_new (loaded ++ replicate 8 0) (length loaded) {| on_wire := rest |}.
Lemma reader_rests loaded rest : raw_ok (reader loaded rest) /\ raw_rest (reader loaded rest) = loaded ++ rest.
Proof.
  cbn. unfold reader_ok, reader_rest. cbn. rewrite take_app_length, length_app. cbn. split; [lia | done].
Qed.

Lemma read_empty (b : BufferingReader Wire) : raw_ok b -> exists b', raw_read 0 b = (Ok [], b').
Proof.
  intros _. cbn [raw_read BufferingReader_raw]. unfold BufferingReader_read.
  destruct (ReadBuffer_is_empty (rb b)); cbn; [by eexists | rewrite Nat.min_0_r; by eexists].
Qed.

Definition pieces : list bytes := [lit "Hello, "; []; lit "world"].
Definition next_response : bytes := lit "HTTP/1.1".
Definition transmission : bytes := mjoin (write_all <$> pieces) ++ terminate ++ next_response.

Example chunked_roundtrip_witness :
  exists c, body_read_to_end 64 (Chunked (ChunkedBodyReader_new (reader (take 5 transmission) (drop 5 transmission)))) =
    Some (Ok (lit "Hello, world"), Chunked c) /\ raw_rest (chunked_body c) = next_response.
Proof.
  destruct (reader_rests (take 5 transmission) (drop 5 transmission)) as [Hok Hr].
  destruct (chunked_roundtrip pieces next_response (reader (take 5 transmission) (drop 5 transmission)) 64 Hok
    read_empty
    ltac:(repeat constructor) (eq_trans Hr (take_drop 5 transmission))) as (c & E & Hc).
  exists c. split; [exact E | apply Hc]. vm_compute. lia.
Defined.

(** Two bytes of a body and what follows it. *)
Definition two : FixedLengthBodyReader (BufferingReader Wire) :=
  {| raw_body := reader (lit "abc") (lit "next"); remaining := 2 |}.
Lemma two_ok : FixedOk two (lit "ab").
Proof.
  destruct (reader_rests (lit "abc") (lit "next")) as [Hok Hr]. split; [exact Hok | | reflexivity].
  exists (lit "cnext"). exact Hr.
Qed.

Example fixed_read_bounds_witness :
  exists a r', fixed_read 16 two = (Ok a, r') /\ remaining r' = 2 ^ 32 - (zlen a - 2) /\ a = lit "abc".
Proof.
  destruct (fixed_read_bounds two (lit "ab") 16 two_ok ltac:(lia) ltac:(discriminate)
    ltac:(vm_compute; reflexivity) ltac:(cbn; lia)) as (a & r' & E & _ & _ & _ & _ & Hover).
  exists a, r'. split; [exact E|]. assert (a = lit "abc") as -> by (vm_compute in E; injection E as <- _; reflexivity).
  split; [apply Hover; vm_compute; reflexivity | reflexivity].
Defined.
End Sample.
