(* ===== verification/HttpResponse.v ===== *)
(** * HTTP responses

    [tools/reqwless/src/response/mod.rs] and [src/headers.rs]: reading the head
    of a response, the headers the client knows, and the reader of its body.
    The [httparse] crate is an interface, as is the connection. *)
From S2P Require Import Prelude Str Heapless NtpServers OtaUrl OtaManifest OtaCrypto OtaFlash HttpBody.

(** ** The head parser *)

(** What [httparse::Response::parse] makes of the bytes received so far. *)
Inductive parsed :=
| Complete (head_len : nat) (code : Z) (headers : list (bytes * bytes))
| Partial
| Malformed.
Class HttpParse := { parse : bytes -> parsed }.

(** A head is complete at its first blank line, whatever follows it; before
    that it is partial. *)
Class HttpParseLaws `{HttpParse} := {
  parse_length p n code headers : parse p = Complete n code headers -> (0 < n <= length p)%nat;
  parse_prefix p n code headers : parse p = Complete n code headers ->
    parse (take n p) = Complete n code headers;
  parse_more h code headers k : parse h = Complete (length h) code headers ->
    parse (h ++ k) = Complete (length h) code headers;
  parse_less h code headers p k : parse h = Complete (length h) code headers -> h = p ++ k -> k <> [] ->
    parse p = Partial
}.

(** ** Known headers ([headers.rs]) *)

Inductive ContentType := TextHtml | TextPlain | ApplicationJson | ApplicationCbor | ApplicationOctetStream.
Definition content_type_from (from : bytes) : ContentType :=
  if bool_decide (from = lit "application/json") then ApplicationJson
  else if bool_decide (from = lit "application/cbor") then ApplicationCbor
  else if bool_decide (from = lit "text/html") then TextHtml
  else if bool_decide (from = lit "text/plain") then TextPlain
  else ApplicationOctetStream.

Inductive TransferEncoding := ChunkedEncoding | Compress | Deflate | Gzip.
#[export] Instance TransferEncoding_eq_dec : EqDecision TransferEncoding.
Proof. solve_decision. Defined.
Definition transfer_encoding_try_from (value : bytes) : option TransferEncoding :=
  if bool_decide (value = lit "chunked") then Some ChunkedEncoding
  else if bool_decide (value = lit "compress") then Some Compress
  else if bool_decide (value = lit "deflate") then Some Deflate
  else if bool_decide (value = lit "gzip") then Some Gzip
  else None.

(** [str::parse] to an unsigned type of [w] bits. *)
Definition parse_uint (w : Z) (s : bytes) : option Z :=
  let digits := match s with 43 :: (_ :: _) as s => tail s | _ => s end in
  if bool_decide (digits = []) || negb (forallb is_digit digits) then None
  else if decimal_value digits <=? umax w then Some (decimal_value digits) else None.

Record KeepAlive := { timeout : option Z; max : option Z }.
Definition keep_alive_part (self : KeepAlive) (part : bytes) : KeepAlive :=
  match trim <$> split 61 part with
  | key :: value :: _ =>
      if eq_ignore_ascii_case key (lit "timeout") then {| timeout := parse_uint 8 value; max := max self |}
      else if eq_ignore_ascii_case key (lit "max") then {| timeout := timeout self; max := parse_uint 8 value |}
      else self
  | _ => self
  end.
Definition keep_alive_try_from (from : bytes) : option KeepAlive :=
  from ← from_utf8 from;
  Some (fold_left keep_alive_part (split 44 from) {| timeout := None; max := None |}).

(** ** Responses *)

Inductive Method := GET | PUT | POST | DELETE | HEAD | PATCH | OPTIONS | CONNECT | TRACE.
#[export] Instance Method_eq_dec : EqDecision Method.
Proof. solve_decision. Defined.

Definition is_informational (status : Z) : bool := between 100 199 status.
Definition NO_CONTENT : Z := 204.

Section Responses.
Context {V : Type -> nat -> Type} `{FixedVec V} `{HttpParse}.

(** The headers the client reads while it walks over all of them. *)
Record Known := {
  known_type : option ContentType;
  known_length : option Z;
  known_encoding : V TransferEncoding 4;
  known_keep_alive : option KeepAlive
}.
Definition nothing_known : Known := {|
  known_type := None; known_length := None; known_encoding := vec_new; known_keep_alive := None |}.
Definition know (header : bytes * bytes) (k : Known) : result HttpError Known :=
  let (name, value) := header in
  if eq_ignore_ascii_case name (lit "content-type") then
    Ok {| known_type := Some (content_type_from value); known_length := known_length k;
          known_encoding := known_encoding k; known_keep_alive := known_keep_alive k |}
  else if eq_ignore_ascii_case name (lit "content-length") then
    text ← ok_or (from_utf8 value) Codec;
    length ← ok_or (parse_uint usize_bits text) Codec;
    Ok {| known_type := known_type k; known_length := Some length;
          known_encoding := known_encoding k; known_keep_alive := known_keep_alive k |}
  else if eq_ignore_ascii_case name (lit "transfer-encoding") then
    encoding ← ok_or (transfer_encoding_try_from value) Codec;
    encodings ← map_err (fun _ => Codec) (vec_push encoding (known_encoding k));
    Ok {| known_type := known_type k; known_length := known_length k;
          known_encoding := encodings; known_keep_alive := known_keep_alive k |}
  else if eq_ignore_ascii_case name (lit "keep-alive") then
    keep_alive ← ok_or (keep_alive_try_from value) Codec;
    Ok {| known_type := known_type k; known_length := known_length k;
          known_encoding := known_encoding k; known_keep_alive := Some keep_alive |}
  else Ok k.
Fixpoint know_all (headers : list (bytes * bytes)) (k : Known) : result HttpError Known :=
  match headers with
  | [] => Ok k
  | header :: headers => k ← know header k; know_all headers k
  end.

(** A response without a body must not have a length. *)
Definition body_length (status : Z) (length : option Z) : result HttpError (option Z) :=
  if is_informational status || (status =? NO_CONTENT) then
    guard_ok (default 0 length =? 0) Codec;; Ok (Some 0)
  else Ok length.

Section Read.
Context {C : Type} `{Connection C}.

Record HttpResponse := {
  conn : C;
  method : Method;
  http_status : Z;
  known : Known;
  length_of_body : option Z;
  header_buf : bytes;
  header_len : nat;
  raw_body_read : nat
}.

(** The loop over reads: what has been received, and where the head ends.
    [None]: out of fuel. *)
Fixpoint read_head (fuel : nat) (capacity : nat) (received : bytes) (c : C)
  : option (result HttpError (nat * bytes) * C) :=
  if (length received <? capacity)%nat then
    match fuel with
    | O => None
    | S fuel =>
        match conn_read (capacity - length received) c with
        | (Err e, c) => Some (Err (Network e), c)
        | (Ok a, c) =>
            if bool_decide (a = []) then Some (Err ConnectionAborted, c)
            else
              let received := received ++ a in
              match parse received with
              | Malformed => Some (Err Codec, c)
              | Complete head_len _ _ => Some (Ok (head_len, received), c)
              | Partial => read_head fuel capacity received c
              end
        end
    end
  else Some (Ok (0%nat, received), c).

(** [Response::read] into [buf]; [None] is a panic or out of fuel. *)
Definition Response_read (c : C) (m : Method) (buf : bytes) : option (result HttpError HttpResponse * C) :=
  '(r, c) ← read_head (length buf) (length buf) [] c;
  match r with
  | Err e => Some (Err e, c)
  | Ok (head_len, received) =>
      if (head_len =? 0)%nat then Some (Err BufferTooSmall, c)
      else
        match parse (take head_len received) with
        | Complete _ code headers =>
            Some (k ← know_all headers nothing_known;
                  length_of_body ← body_length code (known_length k);
                  let raw_body_read := (length received - head_len)%nat in
                  guard_ok (match length_of_body with
                            | Some n => Z.of_nat raw_body_read <=? n
                            | None => true
                            end) Codec;;
                  Ok {| conn := c; method := m; http_status := code; known := k;
                        length_of_body := length_of_body;
                        header_buf := received ++ drop (length received) buf;
                        header_len := head_len; raw_body_read := raw_body_read |}, c)
        | _ => None
        end
  end.

Definition MAX_HEADERS : nat := 64.
(** The iterator walks over the whole array of headers. *)
Definition response_headers (r : HttpResponse) : option (list (bytes * bytes)) :=
  match parse (take (header_len r) (header_buf r)) with
  | Complete _ _ headers => Some (headers ++ replicate (MAX_HEADERS - length headers) ([], []))
  | _ => None
  end.

Inductive ReaderHint := HintEmpty | HintFixedLength (length : Z) | HintChunked | HintToEnd.
Definition reader_hint (r : HttpResponse) : ReaderHint :=
  if decide (method r = HEAD) then HintEmpty
  else match length_of_body r with
       | Some content_length => HintFixedLength content_length
       | None =>
           if bool_decide (ChunkedEncoding ∈ vec_list (known_encoding (known r))) then HintChunked
           else HintToEnd
       end.
(** [body] moves the bytes of the body to the start of the buffer. *)
Definition body_buf (r : HttpResponse) : bytes :=
  let moved := take (raw_body_read r) (drop (header_len r) (header_buf r)) in
  moved ++ drop (length moved) (header_buf r).
Definition hint_reader {B} (hint : ReaderHint) (raw : B) : BodyReader B :=
  match hint with
  | HintEmpty => EmptyBody
  | HintFixedLength content_length => FixedLength {| raw_body := raw; remaining := content_length |}
  | HintChunked => Chunked (ChunkedBodyReader_new raw)
  | HintToEnd => ToEnd raw
  end.
Definition response_reader (r : HttpResponse) : BodyReader (BufferingReader C) :=
  hint_reader (reader_hint r) (BufferingReader_new (body_buf r) (raw_body_read r) (conn r)).
End Read.

(** The response as [OtaFlash] sees it. *)
Definition ota_response {C} (r : HttpResponse (C := C)) : OtaFlash.Response (BodyReader (BufferingReader C)) := {|
  status := http_status r;
  headers := default [] (response_headers r);
  content_length := length_of_body r;
  transfer_encoding_chunked := bool_decide (ChunkedEncoding ∈ vec_list (known_encoding (known r)));
  body := response_reader r |}.
End Responses.
Arguments Known V : clear implicits.

(** ** What is read is what was sent *)

Section Properties.
Context {V : Type -> nat -> Type} `{FixedVecLaws V} `{HttpParseLaws}.
Context {C : Type} `{ConnectionLaws C} `{HexLaws}.
#[local] Abbreviation Response := (HttpResponse (V := V) (C := C)).

Lemma read_head_total fuel capacity received (c : C) :
  (length received <= capacity)%nat -> (capacity - length received <= fuel)%nat ->
  exists r c', read_head fuel capacity received c = Some (r, c') /\
  match r with
  | Err e => e <> BufferTooSmall
  | Ok (n, received') => received ++ incoming c = received' ++ incoming c' /\ (length received' <= capacity)%nat /\
      if (n =? 0)%nat then length received' = capacity /\ (received' = received \/ parse received' = Partial)
      else exists code headers, parse received' = Complete n code headers
  end.
Proof.
  revert received c. induction fuel as [|fuel IH]; intros received c Hl Hf; cbn [read_head];
    destruct (Nat.ltb_spec (length received) capacity) as [Hlt|Hge]; try lia.
  1, 3: do 2 eexists; split; [done|]; split_and!; [done | lia |]; cbn; split; [lia | by left].
  destruct (conn_read_spec (capacity - length received) c ltac:(lia)) as ([a|e] & c1 & -> & Hr); [|by do 2 eexists].
  destruct Hr as (Ha & Hla & Hin). case_bool_decide; [by do 2 eexists|].
  assert (0 < length a)%nat by (destruct a; [done | cbn; lia]).
  destruct (parse (received ++ a)) as [n code headers| |] eqn:Ep; [| |by do 2 eexists].
  - do 2 eexists. split; [done|]. rewrite Hin, app_assoc, length_app. split_and!; [done | lia |].
    pose proof (parse_length _ _ _ _ Ep). rewrite (proj2 (Nat.eqb_neq _ _)) by lia. by do 2 eexists.
  - destruct (IH (received ++ a) c1) as (r & c' & E & Hr'); [rewrite length_app; lia..|].
    exists r, c'. split; [exact E|]. destruct r as [[n received']|e]; [|exact Hr'].
    rewrite <- app_assoc, <- Hin in Hr'. destruct Hr' as (? & ? & Hn). split_and!; [done..|].
    destruct (n =? 0)%nat; [|exact Hn]. destruct Hn as [? [-> | ?]]; split; auto.
Qed.

Lemma read_head_ok fuel capacity head raw received code headers (c : C) :
  parse head = Complete (length head) code headers -> received ++ incoming c = head ++ raw ->
  (length received < length head)%nat -> (length head <= capacity)%nat -> (capacity - length received <= fuel)%nat ->
  exists received' c', read_head fuel capacity received c = Some (Ok (length head, received'), c') /\
    received' ++ incoming c' = head ++ raw /\ (length head <= length received' <= capacity)%nat.
Proof.
  intros Hp. revert received c. induction fuel as [|fuel IH]; intros received c Hin Hlt Hcap Hf; [lia|].
  cbn [read_head]. rewrite (proj2 (Nat.ltb_lt _ _)) by lia.
  destruct (conn_read_spec (capacity - length received) c ltac:(lia)) as (res & c1 & -> & Hr).
  assert (incoming c <> []) as Hne.
  { intros E. rewrite E, app_nil_r in Hin. apply (f_equal length) in Hin. rewrite length_app in Hin. lia. }
  destruct res as [a|e]; [|by destruct Hr as [? _]]. destruct Hr as (Ha & Hla & Hc).
  rewrite bool_decide_eq_false_2 by (by intros ?%Ha). rewrite Hc, app_assoc in Hin.
  assert (0 < length a)%nat by (destruct a; [exfalso; apply Hne, Ha; reflexivity | cbn; lia]).
  destruct (decide (length head <= length (received ++ a))%nat) as [Hall|Hpart].
  - assert (exists k, received ++ a = head ++ k) as [k Ek].
    { apply app_eq_inv in Hin as [(k & E & _)|(k & E & _)]; [by exists k|].
      exists []. rewrite app_nil_r. rewrite E, length_app in Hall. destruct k; [by rewrite app_nil_r in E | cbn in Hall; lia]. }
    rewrite Ek, (parse_more _ _ _ _ Hp). exists (head ++ k), c1. split; [done|]. rewrite <- Ek. split; [done|].
    rewrite length_app in *. lia.
  - assert (exists k, head = (received ++ a) ++ k /\ k <> []) as (k & Ek & Hk).
    { apply app_eq_inv in Hin as [(k & E & _)|(k & E & _)].
      - rewrite E, length_app in Hpart. lia.
      - exists k. split; [done|]. intros ->. rewrite app_nil_r in E. rewrite E in Hpart. lia. }
    rewrite (parse_less head code headers (received ++ a) k Hp Ek Hk).
    rewrite length_app in Hpart. destruct (IH (received ++ a) c1) as (received' & c' & E & Hr); try done.
    + rewrite length_app. lia.
    + rewrite length_app. lia.
    + by exists received', c'.
Qed.

Lemma response_buffer (r : Response) received buf :
  header_buf r = received ++ drop (length received) buf -> (header_len r <= length received)%nat ->
  raw_body_read r = (length received - header_len r)%nat -> (length received <= length buf)%nat -> (0 < length buf)%nat ->
  let reader := BufferingReader_new (body_buf r) (raw_body_read r) (conn r) in
  raw_ok reader /\ raw_rest reader = drop (header_len r) received ++ incoming (conn r).
Proof.
  intros Hb Hh Hr Hl Hpos. cbn zeta. unfold body_buf. rewrite Hb, Hr.
  rewrite drop_app_le, take_app_le by (rewrite ?length_drop; lia).
  rewrite (take_ge (drop _ received)) by (rewrite length_drop; lia).
  set (b := drop (header_len r) received).
  assert (length b = (length received - header_len r)%nat) as Hlb by (unfold b; rewrite length_drop; lia).
  split.
  - unfold reader_ok. cbn. unfold reader_ok. cbn. rewrite !length_app, !length_drop, length_app, length_drop, Hlb. lia.
  - cbn. unfold reader_rest. cbn. rewrite <- Hlb, take_app_length. done.
Qed.
(** What the bytes after the head deliver, by the rules of [Response::body]. *)
Definition body_of (m : Method) (length : option Z) (chunked : bool) (raw w : bytes) : Prop :=
  if decide (m = HEAD) then w = []
  else match length with
       | Some n => w `prefix_of` raw /\ zlen w = n
       | None => if chunked then exists extra, Chunks extra raw w else w = raw
       end.
Definition chunked_encoding (k : Known V) : bool := bool_decide (ChunkedEncoding ∈ vec_list (known_encoding k)).

Lemma reader_delivers (r : Response) raw w :
  let reader := BufferingReader_new (body_buf r) (raw_body_read r) (conn r) in
  raw_ok reader -> raw_rest reader = raw ->
  body_of (method r) (length_of_body r) (chunked_encoding (known r)) raw w ->
  delivers (response_reader r) w.
Proof.
  cbn zeta. intros Hok Hraw Hw. cbn [delivers BodyReader_laws]. unfold response_reader, reader_hint, body_of in *.
  unfold chunked_encoding in Hw. destruct (decide (method r = HEAD)); [exact Hw|].
  destruct (length_of_body r) as [clen|].
  - destruct Hw as [Hp Hlen]. split; cbn [raw_body remaining]; [exact Hok | by rewrite Hraw | exact Hlen].
  - destruct (bool_decide _); [|split; [exact Hok | by rewrite Hw]].
    destruct Hw as [extra Hw]. exists extra. split; [exact Hok|]. cbn [chunk_remaining ChunkedBodyReader_new chunked_body].
    by rewrite Hraw.
Qed.

(** What [Response::read] accepts of a head. *)
Definition accepts (code : Z) (headers : list (bytes * bytes)) : result HttpError (Known V * option Z) :=
  k ← know_all headers nothing_known;
  length ← body_length code (known_length k);
  Ok (k, length).

Lemma know_codec header k e : know header k = Err e -> e = Codec.
Proof.
  unfold know. destruct header as [name value].
  repeat match goal with |- context [if ?b then _ else _] => destruct b end; try (by intros [= <-]).
  - destruct (from_utf8 value); cbn; [|by intros [= <-]]. destruct (parse_uint _ _); cbn; by intros [= <-].
  - destruct (transfer_encoding_try_from value); cbn; [|by intros [= <-]].
    destruct (vec_push _ _); cbn; by intros [= <-].
  - destruct (keep_alive_try_from value); cbn; by intros [= <-].
Qed.
Lemma accepts_codec code headers e : accepts code headers = Err e -> e = Codec.
Proof.
  unfold accepts. destruct (know_all headers nothing_known) as [k|e'] eqn:Ek; cbn.
  - unfold body_length. destruct (_ || _); cbn; [|done]. unfold guard_ok. destruct (_ =? 0); cbn; by intros [= <-].
  - intros [= ->]. revert Ek. generalize nothing_known. induction headers as [|header headers IH]; intros k; cbn; [done|].
    destruct (know header k) as [k'|e'] eqn:Ek; cbn; [apply IH | intros [= ->]; by eapply know_codec].
Qed.

(** [Response::read] of a head and what comes after it. *)
Lemma read_response (c : C) (m : Method) (buf head raw : bytes) code headers :
  parse head = Complete (length head) code headers -> (length head <= length buf)%nat -> incoming c = head ++ raw ->
  exists res c', Response_read c m buf = Some (res, c') /\
  match accepts code headers with
  | Err e => res = Err e
  | Ok (k, length) =>
      match length with Some n => zlen raw <= n | None => True end ->
      exists r : Response, res = Ok r /\ http_status r = code /\ known r = k /\ length_of_body r = length /\
        response_headers r = Some (headers ++ replicate (MAX_HEADERS - List.length headers) ([], [])) /\
        forall w, body_of m length (chunked_encoding k) raw w -> delivers (response_reader r) w
  end.
Proof.
  intros Hhead Hfit Hsent.   pose proof (parse_length _ _ _ _ Hhead) as Hpos.
  destruct (read_head_ok (length buf) (length buf) head raw [] code headers c Hhead Hsent ltac:(cbn; lia) Hfit
    ltac:(cbn; lia)) as (received & c' & E & Hr & Hl).
  assert (take (length head) received = head) as Htake.
  { rewrite <- (take_app_le received (incoming c')), Hr by lia. apply take_app_length. }
  assert (drop (length head) received ++ incoming c' = raw) as Hdrop.
  { apply (f_equal (drop (length head))) in Hr. by rewrite drop_app_le, drop_app_length in Hr by lia. }
  unfold Response_read. rewrite E. cbn [mbind option_bind].
  rewrite (proj2 (Nat.eqb_neq _ _)), Htake, Hhead by lia. do 2 eexists. split; [done|]. unfold accepts.
  destruct (know_all headers nothing_known) as [k|e]; [|done]. cbn [mbind result_bind].
  destruct (body_length code (known_length k)) as [l|e]; [|done]. cbn [mbind result_bind]. intros Hlen.
  assert (match l with Some n => Z.of_nat (length received - length head) <=? n | None => true end = true) as ->.
  { destruct l as [clen|]; [|done]. apply Z.leb_le. unfold zlen in Hlen. rewrite <- Hdrop, length_app, length_drop in Hlen. lia. }
  eexists. split; [done|]. cbn [http_status known length_of_body]. do 3 (split; [done|]). split.
  - unfold response_headers. cbn [header_buf header_len]. rewrite take_app_le, Htake, Hhead by lia. done.
  - intros w Hw.
    edestruct (response_buffer {| conn := c'; method := m; http_status := code; known := k; length_of_body := l;
      header_buf := received ++ drop (length received) buf; header_len := length head;
      raw_body_read := length received - length head |} received buf) as [Hok Hrest]; [done | cbn; lia.. |].
    eapply reader_delivers; [exact Hok | exact Hrest |]. cbn [header_len conn]. by rewrite Hdrop.
Qed.


(** C23: [Response::read] ends for every connection, method and buffer, and never
    panics; when it succeeds, what came in starts with a head that the parser
    and [accepts] take as the response says, and the reader of the body stands
    at the first byte after it, no more of which than the declared length has
    been read; and the buffer is only called too small when no head is
    complete within it. *)
Theorem response_read_safe (c : C) (m : Method) (buf : bytes) :
  exists res c', Response_read c m buf = Some (res, c') /\
  match res with
  | Ok r => exists head raw headers, incoming c = head ++ raw /\ (length head <= length buf)%nat /\
      parse head = Complete (length head) (http_status r) headers /\
      accepts (http_status r) headers = Ok (known r, length_of_body r) /\ method (C := C) (V := V) r = m /\
      raw_rest (BufferingReader_new (body_buf r) (raw_body_read r) (conn r)) = raw /\
      match length_of_body r with Some n => Z.of_nat (raw_body_read r) <= n | None => True end
  | Err BufferTooSmall => buf = [] \/ parse (take (length buf) (incoming c)) = Partial
  | Err _ => True
  end.
Proof.
  destruct (read_head_total (length buf) (length buf) [] c ltac:(cbn; lia) ltac:(cbn; lia)) as (res & c' & E & Hr).
  unfold Response_read. rewrite E. cbn [mbind option_bind]. destruct res as [[n received]|e].
  2:{ do 2 eexists. split; [done|]. by destruct e. }
  destruct Hr as (Hin & Hl & Hn). cbn [app] in Hin. destruct (Nat.eqb_spec n 0) as [->|Hne].
  { do 2 eexists. split; [done|]. destruct Hn as [Hc Hn]. rewrite Hin, <- Hc, take_app_length.
    destruct Hn as [-> | Hn]; [|by right]. left. by apply length_zero_iff_nil. }
  destruct Hn as (code & headers & Hp). pose proof (parse_length _ _ _ _ Hp) as Hpos.
  rewrite (parse_prefix _ _ _ _ Hp). do 2 eexists. split; [done|].
  pose proof (accepts_codec code headers) as Hcodec. unfold accepts in *.
  destruct (know_all headers nothing_known) as [k|e] eqn:Ek; cbn [mbind result_bind] in *; [|by rewrite (Hcodec e)].
  destruct (body_length code (known_length k)) as [l|e] eqn:El; cbn [mbind result_bind] in *; [|by rewrite (Hcodec e)].
  unfold guard_ok. destruct (match l with Some _ => _ | None => true end) eqn:Eg; cbn [mbind result_bind]; [|done].
  exists (take n received), (drop n received ++ incoming c'), headers. cbn [http_status known length_of_body raw_body_read].
  rewrite Ek. cbn [mbind result_bind]. rewrite El. cbn [mbind result_bind].
  rewrite length_take, Nat.min_l, app_assoc, take_drop by lia. split_and!; try done; [lia | by eapply parse_prefix | |].
  - eapply (response_buffer (Build_HttpResponse _ _ _ _ _ _ _ _) received buf); cbn; [done|lia..].
  - destruct l as [clen|]; [|done]. by apply Z.leb_le.
Qed.
End Properties.

(** ** The firmware image over HTTP *)
Section Update.
Context {V : Type -> nat -> Type} `{FixedVecLaws V} `{HttpParseLaws}.
Context {C : Type} `{ConnectionLaws C} `{HexLaws}.
Context {D : Type} `{OtaDeviceLaws D} `{Sha256Laws} `{AesCtrLaws}.
Context (nonce hmac_key aes_key manifest_digest image : bytes) (image_size : Z).
Context (Hsize : 1 <= image_size < 2 ^ 32) (Himage : Z.of_nat (length image) = image_size).
Context (Hkey : length hmac_key = 32%nat).
Context (Hwrites : forall o bs (d : D), 0 <= o -> o + Z.of_nat (length bs) <= partition_size d ->
  exists d', region_write o bs d = (Ok tt, d')).
Context (Hprefix : 8 <= image_size -> validate_esp_image_prefix image = Ok tt).
#[local] Abbreviation stream := (pack nonce hmac_key aes_key manifest_digest image image_size).

(** an image survives the way from the packing tool over a connection into
    the flash: when a GET is answered with a head for status 200 and the length
    of the packed stream, without a chunked encoding, and then with the stream,
    the response is read, passes the checks of its metadata, and processing its
    body to the end leaves exactly the image at the start of the slot. *)
Theorem image_over_http (c : C) (buf head : bytes) headers (k : Known V) (d : D)
    (Hhead : parse head = Complete (length head) 200 headers) (Hfit : (length head <= length buf)%nat)
    (Hknown : accepts 200 headers = Ok (k, Some (zlen stream))) (Hplain : chunked_encoding k = false)
    (Hsent : incoming c = head ++ stream) (Hslot : image_size <= partition_size d) :
  exists (r : HttpResponse (V := V) (C := C)) c' x r' d',
    Response_read c GET buf = Some (Ok r, c') /\
    validate_response_metadata (D := D) (ota_response r) (zlen stream) = Ok tt /\
    process_encrypted_body nonce hmac_key aes_key manifest_digest image_size (body (ota_response r), d) =
      Some (Ok x, (r', d')) /\
    take (length image) (slot d') = image /\ total_plaintext x = image_size /\ digest x = sha256 image.
Proof.
  destruct (read_response c GET buf head stream 200 headers Hhead Hfit Hsent) as (res & c' & E & Hres).
  rewrite Hknown in Hres. destruct (Hres ltac:(lia)) as (r & -> & Hs & Hk & Hl & Hh & Hd).
  destruct (packed_stream_accepted nonce hmac_key aes_key manifest_digest image image_size Hsize Himage Hkey
    Hwrites Hprefix (response_reader r) d [] ltac:(rewrite app_nil_r; apply Hd; by split) Hslot)
    as (x & r' & d' & Hrun & Himg & Hn & Hx).
  exists r, c', x, r', d'. split_and!; [exact E | | exact Hrun | exact Himg | exact Hn | exact Hx].
  unfold validate_response_metadata, ota_response. cbn [status content_length transfer_encoding_chunked].
  rewrite Hs, Hl, Hk. unfold chunked_encoding in Hplain. rewrite Hplain. cbn. by rewrite Z.eqb_refl.
Qed.
End Update.

(** ** A concrete response *)
Module Sample.
Export HttpBody.Sample.

(** A small parser: a head ends at the first blank line. *)
Definition blank_line : bytes := [13; 10; 13; 10].
Fixpoint find_blank (p : bytes) : option nat :=
  if starts_with blank_line p then Some 4%nat
  else match p with
       | [] => None
       | _ :: p => S <$> find_blank p
       end.
Definition header_line (line : bytes) : bytes * bytes :=
  match split 58 line with
  | name :: value => (name, trim (mjoin value))
  | [] => ([], [])
  end.
Definition parse_lines (head : bytes) : Z * list (bytes * bytes) :=
  match List.filter (fun line => negb (bool_decide (line = []))) (trim <$> split 10 head) with
  | status :: headers => (decimal_value (take 3 (drop 9 status)), header_line <$> headers)
  | [] => (0, [])
  end.
#[export] Instance lines : HttpParse := {
  parse p := match find_blank p with
             | Some n => let (code, headers) := parse_lines (take n p) in Complete n code headers
             | None => Partial
             end
}.

Lemma starts_app p k : starts_with blank_line p = true -> starts_with blank_line (p ++ k) = true.
Proof. rewrite !starts_with_spec. intros [r ->]. exists (r ++ k). by rewrite app_assoc. Qed.
Lemma find_blank_length p n : find_blank p = Some n -> (4 <= n <= length p)%nat.
Proof.
  revert n. induction p as [|x p IH]; intros n; cbn [find_blank]; [by vm_compute|].
  destruct (starts_with blank_line (x :: p)) eqn:E.
  - intros [= <-]. apply starts_with_spec in E as [r ->]. cbn. lia.
  - destruct (find_blank p) as [k|]; [|done]. cbn. intros [= <-]. specialize (IH k eq_refl). lia.
Qed.
Lemma find_blank_app p k n : find_blank p = Some n -> find_blank (p ++ k) = Some n.
Proof.
  revert n. induction p as [|x p IH]; intros n; cbn [find_blank app]; [by vm_compute|].
  destruct (starts_with blank_line (x :: p)) eqn:E.
  - intros [= <-]. pose proof (starts_app _ k E) as E'. cbn [app] in E'. by rewrite E'.
  - destruct (find_blank p) as [j|] eqn:Ej; [|done]. cbn. intros [= <-]. rewrite (IH j eq_refl).
    destruct (starts_with blank_line (x :: p ++ k)) eqn:E'; [|done]. exfalso.
    pose proof (find_blank_length _ _ Ej). apply starts_with_spec in E' as [r Hr].
    assert (starts_with blank_line (x :: p) = true) as Hs; [|by rewrite Hs in E].
    apply starts_with_spec. exists (drop 4 (x :: p)). rewrite <- (take_drop 4 (x :: p)) at 1. f_equal.
    rewrite <- (take_app_le (x :: p) k) by (cbn; lia). cbn [app]. by rewrite Hr.
Qed.
Lemma find_blank_take p n : find_blank p = Some n -> find_blank (take n p) = Some n.
Proof.
  revert n. induction p as [|x p IH]; intros n; cbn [find_blank]; [by vm_compute|].
  destruct (starts_with blank_line (x :: p)) eqn:E.
  - intros [= <-]. apply starts_with_spec in E as [r ->]. done.
  - destruct (find_blank p) as [k|] eqn:Ek; [|done]. cbn [fmap option_fmap option_map]. intros [= <-].
    change (take (S k) (x :: p)) with (x :: take k p). cbn [find_blank].
    destruct (starts_with blank_line (x :: take k p)) eqn:E'; [|by rewrite (IH k eq_refl)].
    apply (starts_app _ (drop k p)) in E'. cbn [app] in E'. by rewrite take_drop, E in E'.
Qed.

#[export] Instance lines_laws : HttpParseLaws.
Proof.
  split; cbn [parse lines].
  - intros p n code headers. destruct (find_blank p) as [k|] eqn:E; [|done]. destruct (parse_lines _).
    intros [= <- _ _]. apply find_blank_length in E. lia.
  - intros p n code headers. destruct (find_blank p) as [k|] eqn:E; [|done]. destruct (parse_lines (take k p)) eqn:El.
    intros [= <- <- <-]. by rewrite (find_blank_take p k E), take_take, Nat.min_id, El.
  - intros h code headers k. destruct (find_blank h) as [n|] eqn:E; [|done]. destruct (parse_lines (take n h)) eqn:El.
    intros [= -> <- <-]. rewrite (find_blank_app h k _ E), take_app_length. rewrite take_ge in El by lia. by rewrite El.
  - intros h code headers p k. destruct (find_blank h) as [n|] eqn:E; [|done]. destruct (parse_lines (take n h)).
    intros [= -> _ _] -> Hk. destruct (find_blank p) as [n|] eqn:Ep; [|done]. exfalso.
    pose proof (find_blank_length _ _ Ep). rewrite (find_blank_app p k n Ep) in E. apply (inj Some) in E.
    rewrite E, length_app in *. destruct k; [done | cbn in *; lia].
Defined.

Definition crlf (line : bytes) : bytes := line ++ [13; 10].
Definition chunked_head : bytes := mjoin (crlf <$>
  [lit "HTTP/1.1 200 OK"; lit "Content-Type: text/plain"; lit "Transfer-Encoding: chunked"; []]).
Definition chunked_wire : Wire := {| on_wire := chunked_head ++ transmission |}.
Definition chunked_headers : list (bytes * bytes) :=
  [(lit "Content-Type", lit "text/plain"); (lit "Transfer-Encoding", lit "chunked")].

(** The body behind a chunked head, read to its end. *)
Example chunked_runs :
  ('(r, _) ← Response_read (V := bounded) chunked_wire GET (replicate 128 0);
   r ← ok r;
   '(b, _) ← body_read_to_end 64 (response_reader r);
   ok b) = Some (lit "Hello, world").
Proof. vm_compute. reflexivity. Qed.

Lemma chunked_head_parsed : parse chunked_head = Complete (length chunked_head) 200 chunked_headers.
Proof. vm_compute. reflexivity. Qed.
Lemma chunked_head_fits : (length chunked_head <= length (replicate 128 0%Z))%nat.
Proof. vm_compute. lia. Qed.
Lemma chunked_sent : incoming chunked_wire = chunked_head ++ transmission.
Proof. reflexivity. Qed.
Definition encoded (r : result HttpError (Known bounded * option Z)) : bool :=
  match r with Ok (k, _) => chunked_encoding k | Err _ => false end.
Lemma chunked_accepted : encoded (accepts 200 chunked_headers) = true.
Proof. vm_compute. reflexivity. Qed.


Example response_read_safe_witness :
  exists r c' head raw, Response_read (V := bounded) chunked_wire GET (replicate 128 0) = Some (Ok r, c') /\
    incoming chunked_wire = head ++ raw /\ raw_rest (BufferingReader_new (body_buf r) (raw_body_read r) (conn r)) = raw.
Proof.
  destruct (response_read_safe (V := bounded) chunked_wire GET (replicate 128 0)) as (res & c' & E & Hres).
  destruct res as [r|e]; [|vm_compute in E; discriminate E].
  destruct Hres as (head & raw & headers & Hin & _ & _ & _ & _ & Hrest & _).
  exists r, c', head, raw. split; [exact E|]. split; [exact Hin | exact Hrest].
Defined.
End Sample.

Module ImageSample.
Export OtaFlash.Sample Sample.

Definition image_head : bytes := mjoin (crlf <$> [lit "HTTP/1.1 200 OK"; lit "Content-Length: 68"; []]).
Definition image_headers : list (bytes * bytes) := [(lit "Content-Length", lit "68")].
Definition packed : bytes :=
  pack nonce (derive_subkeys master 7).2 (derive_subkeys master 7).1 digest image 16.
Definition image_wire : Wire := {| on_wire := image_head ++ packed |}.
Lemma image_head_parsed : parse image_head = Complete (length image_head) 200 image_headers.
Proof. vm_compute. reflexivity. Qed.
Lemma image_head_fits : (length image_head <= length (replicate 64 0%Z))%nat.
Proof. vm_compute. lia. Qed.
Lemma image_sent : incoming image_wire = image_head ++ packed.
Proof. reflexivity. Qed.
Definition plain_length (r : result HttpError (Known bounded * option Z)) : bool :=
  match r with Ok (k, Some n) => (n =? zlen packed) && negb (chunked_encoding k) | _ => false end.
Lemma image_accepted : plain_length (accepts 200 image_headers) = true.
Proof. vm_compute. reflexivity. Qed.

Example image_over_http_witness :
  exists (r : HttpResponse (V := bounded)) c' x r' d',
    Response_read image_wire GET (replicate 64 0) = Some (Ok r, c') /\
    process_encrypted_body (D := sim_device) nonce (derive_subkeys master 7).2 (derive_subkeys master 7).1 digest 16
      (body (ota_response r), blank) = Some (Ok x, (r', d')) /\
    take 16 (contents d') = image.
Proof.
  destruct (accepts (V := bounded) 200 image_headers) as [[k [n|]]|e] eqn:Ea; pose proof image_accepted as Hk;
    rewrite Ea in Hk; cbv beta iota delta [plain_length] in Hk; [|discriminate Hk..].
  apply andb_true_iff in Hk as [Hn%Z.eqb_eq Hk%negb_true_iff]. rewrite Hn in Ea.
  destruct (image_over_http (V := bounded) nonce (derive_subkeys master 7).2 (derive_subkeys master 7).1 digest image 16
    ltac:(lia) eq_refl hmac_key_length sim_writes image_prefix_ok image_wire (replicate 64 0) image_head image_headers k blank
    image_head_parsed image_head_fits Ea Hk image_sent blank_fits)
    as (r & c' & x & r' & d' & E & _ & Hrun & Himg & _).
  exists r, c', x, r', d'. split; [exact E|]. split; [exact Hrun | exact Himg].
Defined.
End ImageSample.
