(* ===== verification/HttpWriter.v ===== *)
(** * The buffering writer of chunked bodies

    [tools/reqwless/src/body_writer/buffering_chunked.rs]: chunks are put
    together in a buffer, behind space for a header of the largest size, and
    leave it in as few writes as possible. A panic is [None]. *)
From S2P Require Import Prelude Str OtaManifest OtaFlash HttpBody.

(** ** Where the bytes go *)

(** [Write] of [embedded-io-async]: [write_all], which loops over [write] until
    everything is written, and [flush]. *)
Class Sink (C : Type) := {
  sink_write_all : bytes -> C -> result ErrorKind unit * C;
  sink_flush : C -> result ErrorKind unit * C
}.

(** [sent] is what a sink has taken. *)
Class SinkLaws (C : Type) `{Sink C} := {
  sent : C -> bytes;
  write_all_sent d c c' : sink_write_all d c = (Ok tt, c') -> sent c' = sent c ++ d;
  flush_sent c c' : sink_flush c = (Ok tt, c') -> sent c' = sent c
}.

(** A sink that never fails. *)
Definition Reliable (C : Type) `{Sink C} : Prop :=
  (forall d (c : C), exists c', sink_write_all d c = (Ok tt, c')) /\ forall c : C, exists c', sink_flush c = (Ok tt, c').

(** ** The writer *)

Record BufferingChunkedBodyWriter (C : Type) := {
  bw_conn : C;
  bw_buf : bytes;
  header_pos : nat;
  allocated_header : nat;
  bw_pos : nat;
  terminated : bool
}.
Arguments bw_conn {C} b.
Arguments bw_buf {C} b.
Arguments header_pos {C} b.
Arguments allocated_header {C} b.
Arguments bw_pos {C} b.
Arguments terminated {C} b.

Definition get_num_hex_chars (number : Z) : nat :=
  if number =? 0 then 1 else Z.to_nat (div_ceil (Z.log2 number + 1) 4).
Definition get_max_chunk_header_size (buffer_size : nat) : nat :=
  if (4 <=? buffer_size)%nat then (get_num_hex_chars (Z.of_nat (buffer_size - 4)) + 2)%nat else 0.

(** [buf[at..at + data.len()].copy_from_slice(data)]; a range outside the
    buffer panics. *)
Definition copy_from_slice (at_ : nat) (data buf : bytes) : option bytes :=
  if (at_ + length data <=? length buf)%nat then
    Some (take at_ buf ++ data ++ drop (at_ + length data) buf)
  else None.
Definition assert (b : bool) : option unit := if b then Some tt else None.

Section Writer.
Context {C : Type} `{Sink C} `{Hex}.
#[local] Abbreviation Writer := (BufferingChunkedBodyWriter C).

Definition place (self : Writer) (buf : bytes) (h a p : nat) : Writer :=
  {| bw_conn := bw_conn self; bw_buf := buf; header_pos := h; allocated_header := a; bw_pos := p;
     terminated := terminated self |}.

Definition new_with_data (conn : C) (buf : bytes) (written : nat) : option Writer :=
  assert (written <=? length buf)%nat;;
  let allocated_header := get_max_chunk_header_size (length buf - written) in
  assert (allocated_header + length NEWLINE <? length buf)%nat;;
  Some {| bw_conn := conn; bw_buf := buf; header_pos := written; allocated_header := allocated_header;
          bw_pos := written + allocated_header; terminated := false |}.

(** Gives how many bytes were appended. *)
Definition append_current_chunk (buf : bytes) (self : Writer) : option (nat * Writer) :=
  let buffered := Nat.min (length buf) (length (bw_buf self) - (length NEWLINE + bw_pos self)) in
  if (0 <? buffered)%nat then
    b ← copy_from_slice (bw_pos self) (take buffered buf) (bw_buf self);
    Some (buffered, place self b (header_pos self) (allocated_header self) (bw_pos self + buffered))
  else Some (buffered, self).

Definition finish_current_chunk (self : Writer) : option Writer :=
  let chunk_len := (bw_pos self - header_pos self - allocated_header self)%nat in
  let header := write_chunked_header (Z.of_nat chunk_len) in
  assert (length header <=? allocated_header self)%nat;;
  b ← copy_from_slice (header_pos self) header (bw_buf self);
  let spacing := (allocated_header self - length header)%nat in
  '(b, pos) ←
    (if (0 <? spacing)%nat then
       let payload := take chunk_len (drop (header_pos self + allocated_header self) b) in
       b ← copy_from_slice (header_pos self + length header) payload b;
       Some (b, (bw_pos self - spacing)%nat)
     else Some (b, bw_pos self));
  b ← copy_from_slice pos NEWLINE b;
  let pos := (pos + 2)%nat in
  let allocated_header := get_max_chunk_header_size (length b - pos) in
  Some (place self b pos allocated_header (pos + allocated_header)).

Definition current_chunk_is_full (self : Writer) : bool :=
  (bw_pos self + length NEWLINE =? length (bw_buf self))%nat.

Definition emit_buffered (self : Writer) : result ErrorKind unit * Writer :=
  match sink_write_all (take (header_pos self) (bw_buf self)) (bw_conn self) with
  | (Err e, c) => (Err e, {| bw_conn := c; bw_buf := bw_buf self; header_pos := header_pos self;
      allocated_header := allocated_header self; bw_pos := bw_pos self; terminated := terminated self |})
  | (Ok _, c) =>
      let allocated_header := get_max_chunk_header_size (length (bw_buf self)) in
      (Ok tt, {| bw_conn := c; bw_buf := bw_buf self; header_pos := 0; allocated_header := allocated_header;
                 bw_pos := allocated_header; terminated := terminated self |})
  end.

(** Results that thread the writer; [None] is a panic. *)
Definition Wr (A : Type) : Type := Writer -> option (result ErrorKind A * Writer).
#[local] Instance Wr_ret : MRet Wr := fun A a self => Some (Ok a, self).
#[local] Instance Wr_bind : MBind Wr := fun A B f m self =>
  '(r, self) ← m self;
  match r with Ok a => f a self | Err e => Some (Err e, self) end.
Definition emitting : Wr unit := fun self => Some (emit_buffered self).
Definition updating (f : Writer -> option Writer) : Wr unit := fun self => self ← f self; Some (Ok tt, self).
Definition appending (buf : bytes) : Wr nat := fun self =>
  '(n, self) ← append_current_chunk buf self; Some (Ok n, self).
Definition when_writer (b : Writer -> bool) (m : Wr unit) : Wr unit := fun self =>
  if b self then m self else Some (Ok tt, self).

Definition bytes_in_chunk (self : Writer) : bool := (header_pos self + allocated_header self <? bw_pos self)%nat.

(** [Write::write] for a buffer. *)
Definition bw_write (buf : bytes) : Wr nat :=
  if bool_decide (buf = []) then mret 0%nat
  else
    written ← appending buf;
    written ← (if (written =? 0)%nat then emitting;; appending buf else mret written : Wr nat);
    when_writer current_chunk_is_full (updating finish_current_chunk;; emitting);;
    mret written.

(** [Write::write_all] of [embedded-io-async] on top of it; a write that takes
    nothing panics. [fuel] is the length of the buffer. *)
Fixpoint bw_write_all (fuel : nat) (buf : bytes) : Wr unit :=
  if bool_decide (buf = []) then mret tt
  else
    match fuel with
    | O => fun _ => None
    | S fuel =>
        n ← bw_write buf;
        (if (n =? 0)%nat then (fun _ => None) else bw_write_all fuel (drop n buf)) : Wr unit
    end.

Definition flushing : Wr unit := fun self =>
  let (r, c) := sink_flush (bw_conn self) in
  Some (r, {| bw_conn := c; bw_buf := bw_buf self; header_pos := header_pos self;
              allocated_header := allocated_header self; bw_pos := bw_pos self; terminated := terminated self |}).
Definition bw_flush : Wr unit := fun self =>
  ((if bytes_in_chunk self then updating finish_current_chunk;; emitting
    else if (0 <? header_pos self)%nat then emitting
    else mret tt);;
   flushing) self.

Definition bw_terminate : Wr unit :=
  updating (fun self => assert (negb (terminated self));; Some self);;
  when_writer bytes_in_chunk (updating finish_current_chunk);;
  when_writer (fun self => (length (bw_buf self) <? header_pos self + length EMPTY_CHUNK)%nat) emitting;;
  updating (fun self =>
    b ← copy_from_slice (header_pos self) EMPTY_CHUNK (bw_buf self);
    let header_pos := (header_pos self + length EMPTY_CHUNK)%nat in
    Some (place self b header_pos 0 (header_pos + 0)));;
  emitting;;
  updating (fun self => Some {| bw_conn := bw_conn self; bw_buf := bw_buf self; header_pos := header_pos self;
    allocated_header := allocated_header self; bw_pos := bw_pos self; terminated := true |}).

(** What a request body does with a writer. *)
Inductive BodyOp := WriteAll (data : bytes) | Flush.
Fixpoint bw_run (ops : list BodyOp) : Wr unit :=
  match ops with
  | [] => mret tt
  | WriteAll data :: ops => bw_write_all (length data) data;; bw_run ops
  | Flush :: ops => bw_flush;; bw_run ops
  end.
Definition write_chunked_body (conn : C) (buf : bytes) (written : nat) (ops : list BodyOp)
  : option (result ErrorKind unit * Writer) :=
  self ← new_with_data conn buf written;
  (bw_run ops;; bw_terminate) self.
End Writer.

(** ** Sizes of headers *)

Lemma hex_chars_pos n : (1 <= get_num_hex_chars n)%nat.
Proof.
  unfold get_num_hex_chars. destruct (n =? 0); [lia|]. pose proof (Z.log2_nonneg n). unfold div_ceil.
  Z.div_mod_to_equations; lia.
Qed.
Lemma hex_chars_mono m n : 0 <= m <= n -> (get_num_hex_chars m <= get_num_hex_chars n)%nat.
Proof.
  intros Hm. pose proof (hex_chars_pos n). unfold get_num_hex_chars in *. destruct (Z.eqb_spec m 0); [lia|].
  rewrite (proj2 (Z.eqb_neq n 0)) in * by lia. apply Z2Nat.inj_le; [| |apply Z.div_le_mono; [lia|]];
    pose proof (Z.log2_le_mono m n ltac:(lia)); pose proof (Z.log2_nonneg m); unfold div_ceil; try lia;
    apply Z.div_pos; lia.
Qed.
Lemma hex_chars_bound n : 0 <= n -> n < 16 ^ Z.of_nat (get_num_hex_chars n).
Proof.
  intros Hn. unfold get_num_hex_chars. destruct (Z.eqb_spec n 0) as [->|Hne]; [done|].
  pose proof (Z.log2_nonneg n) as Hl. pose proof (Z.log2_spec n ltac:(lia)) as [_ Hlt].
  eapply Z.lt_le_trans; [exact Hlt|]. change 16 with (2 ^ 4). rewrite <- Z.pow_mul_r by lia.
  apply Z.pow_le_mono_r; [lia|]. unfold div_ceil. Z.div_mod_to_equations; lia.
Qed.
Lemma hex_chars_room k : 2 <= k -> (Z.of_nat (get_num_hex_chars k) < k).
Proof.
  intros Hk. unfold get_num_hex_chars. rewrite (proj2 (Z.eqb_neq k 0)) by lia.
  pose proof (Z.log2_lt_lin k ltac:(lia)). pose proof (Z.log2_nonneg k). unfold div_ceil. Z.div_mod_to_equations; lia.
Qed.

Lemma digits_of_byte m : 0 <= m -> Z.shiftr (m mod 256) 4 = m / 16 mod 16 /\ Z.land (m mod 256) 15 = m mod 16.
Proof.
  intros Hm. rewrite Z.shiftr_div_pow2 by lia. change 15 with (Z.ones 4). rewrite Z.land_ones by lia.
  change (2 ^ 4) with 16. split; Z.div_mod_to_equations; lia.
Qed.
Lemma be_bytes_digits n : 0 <= n ->
  hex_encode (be_bytes 4 n) = (fun j => hex_digit (n / 16 ^ j mod 16)) <$> [7; 6; 5; 4; 3; 2; 1; 0].
Proof.
  intros Hn. unfold be_bytes, hex_encode. cbn [le_bytes rev app mbind list_bind fmap list_fmap].
  assert (forall m, 0 < m -> n / m / 256 = n / (m * 256) /\ n / m / 16 = n / (m * 16)) as Hdd
    by (intros; rewrite !Z.div_div by lia; done).
  rewrite (proj1 (Hdd 256 ltac:(lia))), (proj1 (Hdd (256 * 256) ltac:(lia))).
  assert (forall j, 0 < j -> 0 <= n / j) as Hdiv by (intros; apply Z.div_pos; lia).
  destruct (digits_of_byte n Hn) as [-> ->].
  destruct (digits_of_byte (n / 256) (Hdiv 256 ltac:(lia))) as [-> ->].
  destruct (digits_of_byte (n / (256 * 256)) (Hdiv (256 * 256) ltac:(lia))) as [-> ->].
  destruct (digits_of_byte (n / (256 * 256 * 256)) (Hdiv (256 * 256 * 256) ltac:(lia))) as [-> ->].
  rewrite (proj2 (Hdd 256 ltac:(lia))), (proj2 (Hdd (256 * 256) ltac:(lia))), (proj2 (Hdd (256 * 256 * 256) ltac:(lia))).
  rewrite Z.pow_0_r, Z.div_1_r. done.
Qed.
Lemma leading_zeros_ge k hex : (k < length hex)%nat -> Forall (fun d => d = 48) (take k hex) -> (k <= leading_zeros hex)%nat.
Proof.
  intros Hk Hz. unfold leading_zeros. destruct (list_find _ hex) as [[p x]|] eqn:E; [|lia].
  apply list_find_Some in E as (Hp & Hx & _). destruct (Nat.le_gt_cases k p) as [|Hlt]; [done|]. destruct Hx.
  rewrite Forall_lookup in Hz. apply (Hz p). by rewrite lookup_take_lt.
Qed.

Lemma header_length `{HexLaws} n : u32 n -> (length (write_chunked_header n) <= get_num_hex_chars n + 2)%nat.
Proof.
  intros Hn. unfold write_chunked_header. rewrite hex_of_slice_digits by (auto with motonet). rewrite length_app, length_drop.
  change (length NEWLINE) with 2%nat. pose proof (hex_chars_pos n) as Hpos. pose proof (hex_chars_bound n ltac:(num)) as Hb.
  set (k := get_num_hex_chars n) in *. rewrite length_hex_encode, length_be_bytes.
  destruct (Nat.le_gt_cases 8 k); [lia|].
  assert (8 - k <= leading_zeros (hex_encode (be_bytes 4 n)))%nat; [|lia].
  apply leading_zeros_ge; [rewrite length_hex_encode, length_be_bytes; lia|]. rewrite be_bytes_digits by num.
  assert (forall j, Z.of_nat k <= j -> n / 16 ^ j = 0) as Hzero.
  { intros j Hj. apply Z.div_small. split; [num|]. eapply Z.lt_le_trans; [exact Hb|]. apply Z.pow_le_mono_r; lia. }
  rewrite <- fmap_take. apply Forall_fmap, Forall_lookup. intros i j Hi. cbn.
  apply lookup_take_Some in Hi as [Hi Hlt]. rewrite Hzero; [done|].
  do 8 (destruct i as [|i]; [cbn in Hi; injection Hi as <-; lia|]). done.
Qed.

Lemma max_header_spec r : (r < 4 -> get_max_chunk_header_size r = 0)%nat /\
  (4 <= r -> 3 <= get_max_chunk_header_size r < r)%nat /\ (6 <= r -> get_max_chunk_header_size r + 3 <= r)%nat /\
  (r < 6 -> get_max_chunk_header_size r <= 3)%nat.
Proof.
  unfold get_max_chunk_header_size. pose proof (hex_chars_pos (Z.of_nat (r - 4))).
  destruct (Nat.leb_spec 4 r); [|lia]. split; [lia|].
  destruct (Nat.le_gt_cases 6 r); [pose proof (hex_chars_room (Z.of_nat (r - 4)) ltac:(lia)); lia|].
  assert (r = 4 \/ r = 5)%nat as [-> | ->] by lia; vm_compute; lia.
Qed.

Lemma copy_at p x y t i : length p = i -> length x = length y ->
  copy_from_slice i y (p ++ x ++ t) = Some (p ++ y ++ t).
Proof.
  intros <- Hx. unfold copy_from_slice. rewrite !length_app, (proj2 (Nat.leb_le _ _)) by lia.
  rewrite take_app_length. do 3 f_equal. rewrite app_assoc, drop_app_length' by (rewrite length_app; lia). done.
Qed.
Lemma split_at k (x : bytes) : (k <= length x)%nat -> exists x0 x1, x = x0 ++ x1 /\ length x0 = k.
Proof. intros Hk. exists (take k x), (drop k x). rewrite take_drop, length_take. split; [done | lia]. Qed.

(** ** What the buffer holds *)

Section Writing.
Context {C : Type} `{SinkLaws C} `{HexLaws}.
#[local] Abbreviation Writer := (BufferingChunkedBodyWriter C).
#[local] Existing Instances Wr_ret Wr_bind.

(** [out] has been sent or is ready to be, [d] is the data of the chunk that
    is being put together, behind the space for its header. *)
Record Holds (w : Writer) (out d : bytes) : Prop := {
  h_parts : exists p x t, bw_buf w = p ++ x ++ d ++ t /\ length p = header_pos w /\ length x = allocated_header w /\
    sent (bw_conn w) ++ p = out;
  h_alloc : allocated_header w = get_max_chunk_header_size (length (bw_buf w) - header_pos w);
  h_pos : bw_pos w = (header_pos w + allocated_header w + length d)%nat;
  h_data : d <> [] -> (bw_pos w + 2 <= length (bw_buf w) /\ 3 <= allocated_header w)%nat;
  h_open : terminated w = false
}.

Lemma append_spec w out d buf : Holds w out d -> (length (bw_buf w) - header_pos w <> 3)%nat ->
  exists n w', append_current_chunk buf w = Some (n, w') /\ Holds w' out (d ++ take n buf) /\
    n = Nat.min (length buf) (length (bw_buf w) - (2 + bw_pos w)) /\ header_pos w' = header_pos w /\
    length (bw_buf w') = length (bw_buf w) /\ allocated_header w' = allocated_header w.
Proof.
  intros [(p & x & t & Hb & Hp & Hx & Hout) Ha Hpos Hd Hopen] H3. unfold append_current_chunk.
  change (length NEWLINE) with 2%nat. set (n := Nat.min _ _). destruct (Nat.ltb_spec 0 n) as [Hn|Hn].
  - assert (length (bw_buf w) = length p + length x + length d + length t)%nat as Hlb by (rewrite Hb, !length_app; lia).
    destruct (split_at n t) as (t0 & t1 & -> & Ht0); [lia|].
    assert (length (take n buf) = n) as Htn by (rewrite length_take; lia).
    rewrite Hb, (app_assoc x), (app_assoc p). rewrite (copy_at (p ++ x ++ d) t0 (take n buf) t1); cycle 1.
    { rewrite !length_app. lia. }
    { lia. }
    do 2 eexists. split; [done|]. cbn [place bw_buf header_pos allocated_header bw_pos terminated bw_conn].
    assert (length ((p ++ x ++ d) ++ take n buf ++ t1) = length (bw_buf w)) as Hl'
      by (rewrite Hlb, !length_app, Htn; lia).
    split_and!; try done; [|rewrite !length_app; lia].
    split; cbn [place bw_buf header_pos allocated_header bw_pos terminated bw_conn].
    + exists p, x, t1. rewrite <- !app_assoc. done.
    + by rewrite Hl'.
    + rewrite length_app, Htn. lia.
    + intros _. rewrite Hl'. pose proof (max_header_spec (length (bw_buf w) - header_pos w)). lia.
    + done.
  - do 2 eexists. split; [done|]. split_and!; try done. assert (n = 0%nat) as -> by lia. rewrite app_nil_r.
    split; try done. by exists p, x, t.
Qed.

Lemma finish_spec w out d : Holds w out d -> d <> [] -> Z.of_nat (length (bw_buf w)) < 2 ^ 32 ->
  exists w', finish_current_chunk w = Some w' /\ Holds w' (out ++ write_all d) [] /\
    length (bw_buf w') = length (bw_buf w) /\ bytes_in_chunk w' = false.
Proof.
  intros [(p & x & t & Hb & Hp & Hx & Hout) Ha Hpos Hd Hopen] Hne Hlong. destruct (Hd Hne) as [Hfit Ha3].
  assert (length (bw_buf w) = length p + length x + length d + length t)%nat as Hlb by (rewrite Hb, !length_app; lia).
  unfold finish_current_chunk. replace (bw_pos w - header_pos w - allocated_header w)%nat with (length d) by lia.
  set (h := write_chunked_header _).
  assert (length h <= length x)%nat as Hh.
  { pose proof (header_length (Z.of_nat (length d)) ltac:(num)) as Hl. fold h in Hl.
    assert (4 <= length (bw_buf w) - header_pos w)%nat by (pose proof (max_header_spec (length (bw_buf w) - header_pos w)); lia).
    unfold get_max_chunk_header_size in Ha. rewrite (proj2 (Nat.leb_le _ _)) in Ha by lia.
    pose proof (hex_chars_mono (Z.of_nat (length d)) (Z.of_nat (length (bw_buf w) - header_pos w - 4)) ltac:(lia)). lia. }
  unfold assert. rewrite (proj2 (Nat.leb_le _ _)) by lia. cbn [mbind option_bind].
  destruct (split_at (length h) x Hh) as (x0 & x1 & -> & Hx0). rewrite Hb, <- !app_assoc.
  rewrite (copy_at p x0 h) by (done || lia). cbn [mbind option_bind].
  assert (exists t', (length (h ++ d ++ t') = length x0 + length x1 + length d + length t)%nat /\
    (if (0 <? allocated_header w - length h)%nat
     then b ← copy_from_slice (header_pos w + length h)
            (take (length d) (drop (header_pos w + allocated_header w) (p ++ h ++ x1 ++ d ++ t))) (p ++ h ++ x1 ++ d ++ t);
          Some (b, (bw_pos w - (allocated_header w - length h))%nat)
     else Some (p ++ h ++ x1 ++ d ++ t, bw_pos w)) =
    Some (p ++ h ++ d ++ t', (length p + length h + length d)%nat)) as (t' & Ht' & ->).
  { rewrite length_app in Hx. destruct (Nat.ltb_spec 0 (allocated_header w - length h)) as [Hs|Hs].
    - replace (drop (header_pos w + allocated_header w) (p ++ h ++ x1 ++ d ++ t)) with (d ++ t).
      2:{ rewrite (app_assoc h), (app_assoc p), drop_app_length'; [done|]. rewrite !length_app. lia. }
      rewrite take_app_length. destruct (split_at (length d) (x1 ++ d)) as (y0 & y1 & Ey & Hy0); [rewrite length_app; lia|].
      exists (y1 ++ t). rewrite (app_assoc x1), Ey, <- (app_assoc y0), (app_assoc p).
      rewrite (copy_at (p ++ h) y0 d) by (rewrite ?length_app; lia). cbn [mbind option_bind]. rewrite <- app_assoc.
      apply (f_equal length) in Ey. rewrite !length_app in *. split; [lia|]. do 2 f_equal. lia.
    - exists t. assert (x1 = []) as -> by (apply length_zero_iff_nil; lia). rewrite !length_app. cbn [length app].
      split; [lia|]. do 2 f_equal. lia. }
  cbn [mbind option_bind]. rewrite !length_app in *. destruct (split_at 2 t') as (z0 & z1 & -> & Hz0); [lia|].
  rewrite (app_assoc h), (app_assoc p), (copy_at (p ++ h ++ d) z0 NEWLINE) by (rewrite ?length_app; cbn; lia).
  cbn [mbind option_bind]. eexists. split; [done|]. cbn [place bw_buf bytes_in_chunk header_pos allocated_header bw_pos].
  rewrite !length_app. change (length NEWLINE) with 2%nat. set (r := get_max_chunk_header_size _). rewrite length_app in Ht'. split_and!; [|lia|].
  - assert (r <= length z1)%nat as Hr.
    { pose proof (max_header_spec (length z1)). unfold r.
      replace (length p + (length h + length d) + (2 + length z1) - (length p + length h + length d + 2))%nat
        with (length z1) by lia. lia. }
    destruct (split_at r z1 Hr) as (u & v & -> & Hu).
    split; cbn [place bw_buf header_pos allocated_header bw_pos terminated bw_conn]; try done.
    2: { unfold r. f_equal. rewrite !length_app. change (length NEWLINE) with 2%nat. lia. }
    exists (p ++ h ++ d ++ NEWLINE), u, v. rewrite <- !app_assoc. rewrite !length_app. cbn [app length].
    split_and!; [done | cbn; lia | lia |]. rewrite <- Hout, <- app_assoc. do 2 f_equal.
    unfold write_all. rewrite (proj2 (Nat.eqb_neq _ _)) by (by destruct d). done.
  - unfold bytes_in_chunk. cbn. apply Nat.ltb_ge. lia.
Qed.

(** Computations that do not panic, and fail only when the sink does. *)
Definition wr {A} (m : Wr A) (w : Writer) (Q : A -> Writer -> Prop) : Prop :=
  exists r w', m w = Some (r, w') /\ match r with Ok a => Q a w' | Err _ => ~ Reliable C end.
Lemma wr_ret {A} (a : A) w (Q : A -> Writer -> Prop) : Q a w -> wr (mret a : Wr A) w Q.
Proof. intros HQ. by exists (Ok a), w. Qed.
Lemma wr_bind {A B} (m : Wr A) (f : A -> Wr B) w Q : wr m w (fun a w => wr (f a) w Q) -> wr (m ≫= f) w Q.
Proof.
  intros (r & w' & E & Hr). unfold wr, mbind, Wr_bind. rewrite E. cbn [mbind option_bind].
  destruct r as [a|e]; [exact Hr | by exists (Err e), w'].
Qed.
Lemma wr_then {A B} (m : Wr A) (f : A -> Wr B) (w : Writer) a w' : m w = Some (Ok a, w') -> (m ≫= f) w = f a w'.
Proof. intros E. unfold mbind, Wr_bind. by rewrite E. Qed.
Lemma wr_panic {A B} (m : Wr A) (f : A -> Wr B) (w : Writer) : m w = None -> (m ≫= f) w = None.
Proof. intros E. unfold mbind, Wr_bind. by rewrite E. Qed.
Lemma wr_mono {A} (m : Wr A) w (P Q : A -> Writer -> Prop) : wr m w P -> (forall a w', P a w' -> Q a w') -> wr m w Q.
Proof. intros (r & w' & E & Hr) HPQ. exists r, w'. split; [exact E|]. destruct r; [by apply HPQ | done]. Qed.
Lemma wr_update f (w w' : Writer) (Q : unit -> Writer -> Prop) : f w = Some w' -> Q tt w' -> wr (updating f) w Q.
Proof. intros E HQ. exists (Ok tt), w'. unfold updating. by rewrite E. Qed.
Lemma wr_when b m (w : Writer) (Q : unit -> Writer -> Prop) :
  (b w = true -> wr m w Q) -> (b w = false -> Q tt w) -> wr (when_writer b m) w Q.
Proof. unfold wr, when_writer. intros Ht Hf. destruct (b w); [by apply Ht | exists (Ok tt), w; auto]. Qed.

Lemma max_header_le r : (get_max_chunk_header_size r <= r)%nat.
Proof. pose proof (max_header_spec r). lia. Qed.

Lemma emit_spec w out : Holds w out [] -> wr emitting w (fun _ w' => Holds w' out [] /\ header_pos w' = 0%nat /\
  length (bw_buf w') = length (bw_buf w) /\ sent (bw_conn w') = out).
Proof.
  intros [(p & x & t & Hb & Hp & Hx & Hout) Ha Hpos Hd Hopen]. unfold wr, emitting, emit_buffered.
  rewrite Hb, take_app_length' by done. destruct (sink_write_all p (bw_conn w)) as [[[]|e] c] eqn:E; do 2 eexists; (split; [done|]).
  - apply write_all_sent in E as Hs. cbn [header_pos bw_buf bw_conn]. rewrite Hs, Hout. split_and!; try done.
    split; cbn [bw_buf header_pos allocated_header bw_pos terminated bw_conn]; try done; [| by rewrite Nat.sub_0_r].
    destruct (split_at _ (p ++ x ++ [] ++ t) (max_header_le (length (p ++ x ++ [] ++ t)))) as (u & v & Eb & Hu).
    exists [], u, v. rewrite Eb. split_and!; [done | done | by rewrite <- Eb | by rewrite app_nil_r, Hs].
  - intros [Hrel _]. destruct (Hrel p (bw_conn w)) as [c' E']. by rewrite E in E'.
Qed.

(** Between the operations of a body: [data] has been written. *)
Record Between (n : nat) (pre data : bytes) (w : Writer) : Prop := {
  b_parts : exists ds d, Holds w (pre ++ mjoin (write_all <$> ds)) d /\ mjoin ds ++ d = data /\
    Forall (fun d => zlen d < 2 ^ 32) ds /\ (d <> [] -> (bw_pos w + 2 < n)%nat);
  b_length : length (bw_buf w) = n;
  b_room : (n - header_pos w <> 3)%nat
}.

Section Sized.
Context (n : nat) (Hn : (6 <= n)%nat) (Hlong : Z.of_nat n < 2 ^ 32) (pre : bytes).

Lemma finish_emit w ds d data : Holds w (pre ++ mjoin (write_all <$> ds)) d -> length (bw_buf w) = n -> d <> [] ->
  Forall (fun d => zlen d < 2 ^ 32) ds -> mjoin ds ++ d = data ->
  wr (updating finish_current_chunk;; emitting) w (fun _ w' => Between n pre data w').
Proof.
  intros Hw Hl Hd Hds <-. apply wr_bind.
  destruct (finish_spec w _ d Hw Hd) as (w1 & E & Hw1 & Hl1 & _); [by rewrite Hl|].
  eapply wr_update; [exact E|]. eapply wr_mono; [by apply emit_spec|]. cbn. intros [] w2 (Hw2 & Hh & Hl2 & _).
  assert (length d < n)%nat.
  { destruct Hw as [_ _ Hpos Hfit _]. specialize (Hfit Hd). lia. }
  split; [|lia|lia]. exists (ds ++ [d]), []. rewrite fmap_app, !join_app in *. cbn [fmap list_fmap mjoin list_join].
  rewrite !app_nil_r, app_assoc. split_and!; [exact Hw2 | done | |done]. apply Forall_app. split; [done|].
  constructor; [unfold zlen; lia | constructor].
Qed.

Lemma wr_append buf w out d (Q : nat -> Writer -> Prop) : Holds w out d -> (length (bw_buf w) - header_pos w <> 3)%nat ->
  (forall w', Holds w' out (d ++ take (Nat.min (length buf) (length (bw_buf w) - (2 + bw_pos w))) buf) ->
     header_pos w' = header_pos w -> length (bw_buf w') = length (bw_buf w) ->
     Q (Nat.min (length buf) (length (bw_buf w) - (2 + bw_pos w))) w') ->
  wr (appending buf) w Q.
Proof.
  intros Hw H3 HQ. destruct (append_spec w out d buf Hw H3) as (k & w' & E & Hw' & -> & Hh & Hl & _).
  eexists (Ok _), w'. unfold appending. rewrite E. cbn [mbind option_bind]. split; [done|]. by apply HQ.
Qed.

Lemma write_end w ds d data k : Holds w (pre ++ mjoin (write_all <$> ds)) d -> length (bw_buf w) = n -> d <> [] ->
  Forall (fun d => zlen d < 2 ^ 32) ds -> mjoin ds ++ d = data -> (n - header_pos w <> 3)%nat ->
  wr (when_writer current_chunk_is_full (updating finish_current_chunk;; emitting);; mret k : Wr nat) w
    (fun k' w' => k' = k /\ Between n pre data w').
Proof.
  intros Hw Hl Hd Hds Hdata H3. apply wr_bind. apply wr_when; unfold current_chunk_is_full;
    change (length NEWLINE) with 2%nat; [intros _ | intros Hfull%Nat.eqb_neq].
  - eapply wr_mono; [by eapply finish_emit|]. intros [] w' Hw'. by apply wr_ret.
  - apply wr_ret. split; [done|]. split; [|done|done]. exists ds, d. split_and!; try done. intros _.
    destruct (h_data _ _ _ Hw Hd). lia.
Qed.

Lemma write_spec buf w data : buf <> [] -> Between n pre data w ->
  wr (bw_write buf) w (fun k w' => (0 < k <= length buf)%nat /\ Between n pre (data ++ take k buf) w').
Proof.
  intros Hbuf [(ds & d & Hw & <- & Hds & Hd) Hl H3]. unfold bw_write. rewrite bool_decide_eq_false_2 by done.
  assert (0 < length buf)%nat as Hpos by (destruct buf; [done | cbn; lia]).
  assert (forall w k, length (bw_buf w) = n -> (n - header_pos w <> 3)%nat -> (0 < k <= length buf)%nat ->
    Holds w (pre ++ mjoin (write_all <$> ds)) (d ++ take k buf) ->
    wr (when_writer current_chunk_is_full (updating finish_current_chunk;; emitting);; mret k : Wr nat) w
      (fun k' w' => (0 < k' <= length buf)%nat /\ Between n pre ((mjoin ds ++ d) ++ take k' buf) w')) as Hend.
  { intros w' k Hl' H3' Hk Hw'. eapply wr_mono; [eapply write_end; try done|].
    - intros E%app_eq_nil. destruct E as [_ E]. apply (f_equal length) in E. rewrite length_take in E. cbn in E. lia.
    - cbn. intros ? w2 [-> Hb]. by rewrite <- app_assoc. }
  apply wr_bind. eapply wr_append; [exact Hw | by rewrite Hl|]. rewrite Hl.
  set (k := Nat.min _ _). intros w1 Hw1 Hh1 Hl1. destruct (Nat.eqb_spec k 0) as [Hk|Hk].
  - assert (d = []) as ->.
    { destruct (decide (d = [])) as [|Hne]; [done|]. specialize (Hd Hne). lia. }
    rewrite Hk, app_nil_r in Hw1. apply wr_bind, wr_bind. eapply wr_mono; [by apply emit_spec|].
    intros [] w2 (Hw2 & Hh2 & Hl2 & _). eapply wr_append; [exact Hw2 | lia|]. intros w3 Hw3 Hh3 Hl3.
    pose proof (h_pos _ _ _ Hw2) as Hp2. pose proof (h_alloc _ _ _ Hw2) as Ha2. rewrite Hh2, Nat.sub_0_r in *.
    cbn [length] in Hp2. pose proof (max_header_spec (length (bw_buf w2))). apply Hend; [lia | lia | lia | exact Hw3].
  - apply wr_bind, wr_ret. apply Hend; [lia | lia | lia | exact Hw1].
Qed.

Lemma write_all_spec fuel buf w data : (length buf <= fuel)%nat -> Between n pre data w ->
  wr (bw_write_all fuel buf) w (fun _ w' => Between n pre (data ++ buf) w').
Proof.
  revert buf w data. induction fuel as [|fuel IH]; intros buf w data Hf Hw; cbn [bw_write_all]; case_bool_decide as Hb.
  1, 3: subst buf; apply wr_ret; by rewrite app_nil_r.
  - destruct buf; [done | cbn in Hf; lia].
  - apply wr_bind. eapply wr_mono; [by apply write_spec|]. cbn. intros k w1 [Hk Hw1].
    rewrite (proj2 (Nat.eqb_neq k 0)) by lia. eapply wr_mono; [eapply IH; [rewrite length_drop; lia | exact Hw1]|].
    intros [] w2. by rewrite <- app_assoc, take_drop.
Qed.

Lemma flushing_spec w data : Between n pre data w -> wr flushing w (fun _ w' => Between n pre data w').
Proof.
  intros [(ds & d & Hw & Hdata & Hds & Hd) Hl H3]. unfold wr, flushing.
  destruct (sink_flush (bw_conn w)) as [[[]|e] c] eqn:E; do 2 eexists; (split; [done|]).
  - split; [|exact Hl | exact H3]. exists ds, d. split_and!; try done. destruct Hw as [(p & x & t & Hp & ? & ? & Ho) ? ? ? ?].
    split; try done. exists p, x, t. by rewrite (flush_sent _ _ E).
  - intros [_ Hrel]. destruct (Hrel (bw_conn w)) as [c' E']. by rewrite E in E'.
Qed.

Lemma emit_between w : Holds w pre [] -> length (bw_buf w) = n -> wr emitting w (fun _ w' => Between n pre [] w').
Proof.
  intros Hw Hl. eapply wr_mono; [by apply emit_spec|]. intros [] w' (Hw' & Hh & Hl' & _). split; [|lia|lia].
  exists [], []. split_and!; try done. by rewrite app_nil_r.
Qed.

Lemma no_chunk w out : Holds w out [] -> bytes_in_chunk w = false.
Proof. intros Hw. pose proof (h_pos _ _ _ Hw) as Hp. cbn in Hp. apply Nat.ltb_ge. lia. Qed.

Lemma flush_spec w data : Between n pre data w -> wr bw_flush w (fun _ w' => Between n pre data w').
Proof.
  intros Hw. assert (wr (if bytes_in_chunk w then updating finish_current_chunk;; emitting
    else if (0 <? header_pos w)%nat then emitting else mret tt : Wr unit) w (fun _ w' => Between n pre data w')) as Hemit.
  { pose proof Hw as [(ds & d & Hd & Hdata & Hds & Hroom) Hl H3]. pose proof (h_pos _ _ _ Hd) as Hp.
    unfold bytes_in_chunk. destruct (Nat.ltb_spec (header_pos w + allocated_header w) (bw_pos w)).
    - eapply finish_emit; try done. intros ->. cbn in Hp. lia.
    - assert (d = []) as -> by (apply length_zero_iff_nil; lia). destruct (Nat.ltb_spec 0 (header_pos w)); [|by apply wr_ret].
      eapply wr_mono; [by apply emit_spec|]. intros [] w' (Hw' & Hh & Hl' & _). split; [|lia|lia].
      exists ds, []. by split_and!. }
  pose proof (wr_bind _ (fun _ => flushing) w _ (wr_mono _ _ _ _ Hemit (fun _ w' => flushing_spec w' data))) as Hall. exact Hall.
Qed.

(** With three bytes left and nothing written a flush sends what is there. *)
Lemma flush_first w : Holds w pre [] -> length (bw_buf w) = n -> (0 < header_pos w)%nat ->
  wr bw_flush w (fun _ w' => Between n pre [] w').
Proof.
  intros Hw Hl Hh.
  assert (wr (if bytes_in_chunk w then updating finish_current_chunk;; emitting
    else if (0 <? header_pos w)%nat then emitting else mret tt : Wr unit) w (fun _ w' => Between n pre [] w')) as Hemit.
  { rewrite (no_chunk _ _ Hw), (proj2 (Nat.ltb_lt _ _)) by done. by apply emit_between. }
  exact (wr_bind _ (fun _ => flushing) w _ (wr_mono _ _ _ _ Hemit (fun _ w' => flushing_spec w' []))).
Qed.

Definition body_data (ops : list BodyOp) : bytes :=
  mjoin ((fun op => match op with WriteAll data => data | Flush => [] end) <$> ops).
Lemma run_spec ops w data : Between n pre data w ->
  wr (bw_run ops) w (fun _ w' => Between n pre (data ++ body_data ops) w').
Proof.
  revert w data. induction ops as [|[buf|] ops IH]; intros w data Hw; cbn [bw_run].
  - apply wr_ret. unfold body_data. cbn. by rewrite app_nil_r.
  - apply wr_bind. eapply wr_mono; [by apply write_all_spec|]. intros [] w' Hw'. eapply wr_mono; [by apply IH|].
    intros [] w2. by rewrite <- app_assoc.
  - apply wr_bind. eapply wr_mono; [by apply flush_spec|]. intros [] w' Hw'. by apply IH.
Qed.

(** [data] has been written, whatever room is left. *)
Definition Written (data : bytes) (w : Writer) : Prop :=
  (exists ds d, Holds w (pre ++ mjoin (write_all <$> ds)) d /\ mjoin ds ++ d = data /\
    Forall (fun d => zlen d < 2 ^ 32) ds) /\ length (bw_buf w) = n.
Lemma between_written data w : Between n pre data w -> Written data w.
Proof. intros [(ds & d & Hd & Hdata & Hds & _) Hl _]. split; [by exists ds, d | done]. Qed.

(** What the operations do while a non-empty write would panic. *)
Fixpoint stuck (ops : list BodyOp) : bool :=
  match ops with
  | WriteAll [] :: ops => stuck ops
  | WriteAll _ :: _ => true
  | _ => false
  end.
Lemma run_unroomed ops w : stuck ops = false -> Holds w pre [] -> length (bw_buf w) = n -> (0 < header_pos w)%nat ->
  wr (bw_run ops) w (fun _ w' => Written (body_data ops) w').
Proof.
  revert w. induction ops as [|[[|byte buf]|] ops IH]; intros w Hs Hw Hl Hh; cbn [stuck] in Hs; try done; cbn [bw_run].
  - apply wr_ret. split; [|done]. exists [], []. split_and!; try done. by rewrite app_nil_r.
  - apply wr_bind. cbn [length bw_write_all]. rewrite bool_decide_eq_true_2 by done. apply wr_ret.
    by apply (IH w).
  - apply wr_bind. eapply wr_mono; [by apply flush_first|]. intros [] w' Hw'. eapply wr_mono; [by apply (run_spec ops w' [])|].
    intros [] w2. apply between_written.
Qed.

(** What [terminate] leaves sent. *)
Lemma terminate_spec w data : Written data w ->
  wr bw_terminate w (fun _ w' => exists encoded, sent (bw_conn w') = pre ++ encoded /\
    forall extra, Chunks extra (encoded ++ extra) data).
Proof.
  intros [(ds & d & Hd & Hdata & Hds) Hl]. unfold bw_terminate. apply wr_bind.
  eapply wr_update; [by rewrite (h_open _ _ _ Hd)|]. cbn beta.
  pose (ds' := if decide (d = []) then ds else ds ++ [d]).
  assert (mjoin ds' = data /\ Forall (fun d => zlen d < 2 ^ 32) ds') as [Hdata' Hds'].
  { unfold ds'. destruct (decide (d = [])) as [->|Hne]; [by rewrite app_nil_r in Hdata|]. rewrite join_app.
    cbn [mjoin list_join]. rewrite app_nil_r. split; [exact Hdata|]. apply Forall_app. split; [done|].
    constructor; [|constructor]. destruct (h_data _ _ _ Hd Hne). pose proof (h_pos _ _ _ Hd). unfold zlen. lia. }
  set (out := pre ++ mjoin (write_all <$> ds')).
  assert (wr (when_writer bytes_in_chunk (updating finish_current_chunk)) w
    (fun _ w' => Holds w' out [] /\ length (bw_buf w') = n)) as Hfinish.
  { pose proof (h_pos _ _ _ Hd) as Hp. apply wr_when; unfold bytes_in_chunk; rewrite ?Nat.ltb_lt, ?Nat.ltb_ge; intros Hb.
    - assert (d <> []) as Hne by (intros ->; cbn in Hp; lia).
      destruct (finish_spec w _ d Hd Hne) as (w1 & E & Hw1 & Hl1 & _); [by rewrite Hl|].
      eapply wr_update; [exact E|]. split; [|lia]. unfold out, ds'. rewrite decide_False by done.
      rewrite fmap_app, join_app. cbn [fmap list_fmap mjoin list_join]. by rewrite app_nil_r, app_assoc.
    - assert (d = []) as -> by (apply length_zero_iff_nil; lia). unfold out, ds'. by rewrite decide_True. }
  apply wr_bind. eapply wr_mono; [exact Hfinish|]. clearbody ds'. clear w d Hd Hdata Hl Hfinish. intros [] w [Hw Hl]. apply wr_bind.
  eapply (wr_mono _ _ (fun _ w' => Holds w' out [] /\ length (bw_buf w') = n /\ (header_pos w' + 5 <= n)%nat)).
  { apply wr_when; rewrite ?Nat.ltb_lt, ?Nat.ltb_ge; change (length EMPTY_CHUNK) with 5%nat; intros Hb.
    - eapply wr_mono; [by apply emit_spec|]. intros [] w' (Hw' & Hh & Hl' & _). split_and!; [done | lia | lia].
    - split_and!; [done | done | lia]. }
  intros [] w1 (Hw1 & Hl1 & Hfit). destruct Hw1 as [(p & x & t & Hb & Hp & Hx & Ho) _ _ _ _].
  destruct (split_at 5 (x ++ [] ++ t)) as (x0 & x1 & Ex & Hx0).
  { apply (f_equal length) in Hb. rewrite length_app in Hb. lia. }
  apply wr_bind. eapply wr_update.
  { cbv beta. rewrite Hb, Ex, (copy_at p x0 EMPTY_CHUNK) by done. cbn [mbind option_bind]. reflexivity. }
  apply wr_bind. unfold wr at 1, emitting, emit_buffered, place. cbn [header_pos bw_buf bw_conn].
  rewrite app_assoc, take_app_length' by (rewrite length_app, Hp; done).
  destruct (sink_write_all (p ++ EMPTY_CHUNK) (bw_conn w1)) as [[[]|e] c] eqn:E; do 2 eexists; (split; [done|]).
  - eapply wr_update; [done|]. cbn [bw_conn]. exists (mjoin (write_all <$> ds') ++ terminate).
    rewrite (write_all_sent _ _ _ E), app_assoc, Ho. unfold out. rewrite <- app_assoc. split; [done|].
    intros extra. rewrite <- app_assoc, <- Hdata'. by apply write_chunks.
  - intros [Hrel _]. destruct (Hrel (p ++ EMPTY_CHUNK) (bw_conn w1)) as [c' E']. by rewrite E in E'.
Qed.
End Sized.

(** A byte is appended where no header fits. *)
Lemma write_without_room data (w : Writer) : data <> [] -> allocated_header w = 0%nat -> bw_pos w = header_pos w ->
  (length (bw_buf w) - header_pos w = 3)%nat -> bw_write data w = None.
Proof.
  intros Hdata Ha Hp H3. assert (0 < length data)%nat as Hpos by (destruct data; [done | cbn; lia]).
  assert (exists w1, appending data w = Some (Ok 1%nat, w1) /\ allocated_header w1 = 0%nat /\
    current_chunk_is_full w1 = true) as (w1 & E & Ha1 & Hfull).
  { unfold appending, append_current_chunk, current_chunk_is_full. change (length NEWLINE) with 2%nat.
    replace (Nat.min (length data) (length (bw_buf w) - (2 + bw_pos w))) with 1%nat by lia.
    assert (length (take 1 data) = 1%nat) as Hone by (rewrite length_take; lia).
    unfold copy_from_slice. rewrite Hone, (proj2 (Nat.leb_le _ _)) by lia. eexists. split; [reflexivity|].
    cbn [place allocated_header bw_pos bw_buf]. split; [exact Ha|]. apply Nat.eqb_eq.
    rewrite !length_app, Hone, length_take, length_drop. lia. }
  assert (updating finish_current_chunk w1 = None) as Hpanic.
  { unfold updating, finish_current_chunk, assert, write_chunked_header. rewrite Ha1, length_app. change (length NEWLINE) with 2%nat.
    rewrite (proj2 (Nat.leb_gt _ _)) by lia. done. }
  unfold bw_write. rewrite bool_decide_eq_false_2 by done.
  rewrite (wr_then _ _ _ _ _ E). cbn [Nat.eqb]. rewrite (wr_then (mret 1%nat : Wr nat) _ w1 1%nat w1 eq_refl).
  apply wr_panic. unfold when_writer. rewrite Hfull. by apply wr_panic.
Qed.

(** What [new_with_data] makes, and that it succeeds. *)
Definition fresh (conn : C) (buf : bytes) (written : nat) : Writer := {|
  bw_conn := conn; bw_buf := buf; header_pos := written;
  allocated_header := get_max_chunk_header_size (length buf - written);
  bw_pos := written + get_max_chunk_header_size (length buf - written); terminated := false |}.
Lemma new_fresh conn buf written : (6 <= length buf)%nat -> (written <= length buf)%nat ->
  new_with_data conn buf written = Some (fresh conn buf written).
Proof.
  intros H6 Hw. pose proof (max_header_spec (length buf - written)). unfold new_with_data, assert.
  change (length NEWLINE) with 2%nat. by rewrite (proj2 (Nat.leb_le _ _)), (proj2 (Nat.ltb_lt _ _)) by lia.
Qed.

Lemma fresh_holds conn buf written : (6 <= length buf)%nat -> (written <= length buf)%nat ->
  Holds (fresh conn buf written) (sent conn ++ take written buf) [].
Proof.
  intros H6 Hw. split; cbn; try done.
  destruct (split_at (get_max_chunk_header_size (length buf - written)) (drop written buf)) as (x & t & Et & Hx);
    [rewrite length_drop; apply max_header_le|].
  exists (take written buf), x, t. rewrite <- Et, take_drop, length_take. split_and!; [done | lia | done | done].
Qed.

(** A byte would be put where no header fits. *)
Lemma stuck_panics ops (w : Writer) : stuck ops = true -> allocated_header w = 0%nat -> bw_pos w = header_pos w ->
  (length (bw_buf w) - header_pos w = 3)%nat -> (bw_run ops;; bw_terminate) w = None.
Proof.
  intros Hs Ha Hp H3. apply wr_panic. induction ops as [|[[|byte data]|] ops IH]; cbn [stuck] in Hs; try done; cbn [bw_run].
  - cbn [length bw_write_all]. rewrite bool_decide_eq_true_2 by done.
    rewrite (wr_then (mret tt : Wr unit) _ w tt w eq_refl). by apply IH.
  - cbn [length bw_write_all]. rewrite bool_decide_eq_false_2 by done. do 2 apply wr_panic. by apply write_without_room.
Qed.

(** A whole body: it panics exactly when three bytes of the buffer are left
    and a write comes first. *)
Lemma write_chunked_body_spec conn buf written : (6 <= length buf)%nat -> Z.of_nat (length buf) < 2 ^ 32 ->
  (written <= length buf)%nat -> forall ops,
  match write_chunked_body conn buf written ops with
  | None => (length buf - written = 3)%nat /\ stuck ops = true
  | Some (Ok _, w) => ~ ((length buf - written = 3)%nat /\ stuck ops = true) /\
      exists encoded, sent (bw_conn w) = sent conn ++ take written buf ++ encoded /\
        forall extra, Chunks extra (encoded ++ extra) (body_data ops)
  | Some (Err _, _) => ~ ((length buf - written = 3)%nat /\ stuck ops = true) /\ ~ Reliable C
  end.
Proof.
  intros Hsize Hlong Hwritten ops. unfold write_chunked_body. rewrite new_fresh by done. cbn [mbind option_bind].
  set (w := fresh conn buf written).
  pose proof (fresh_holds conn buf written Hsize Hwritten) as Hfresh. fold w in Hfresh.
  pose proof (max_header_spec (length buf - written)) as Hmax.
  destruct (decide ((length buf - written = 3)%nat /\ stuck ops = true)) as [[H3 Hs]|Hok].
  { rewrite stuck_panics; try done; cbn; lia. }
  assert (wr (bw_run ops) w (fun _ w' => Written (length buf) (sent conn ++ take written buf) (body_data ops) w')) as Hrun.
  { destruct (decide (length buf - written = 3)%nat) as [H3|H3].
    - apply run_unroomed; try done; [|cbn; lia]. destruct (stuck ops); [by destruct Hok | done].
    - eapply wr_mono; [eapply (run_spec _ Hsize Hlong _ ops w [])|intros [] w'; apply between_written].
      split; [|done|done]. exists [], []. split_and!; try done. by rewrite app_nil_r. }
  assert (wr (bw_run ops;; bw_terminate) w (fun _ w => exists encoded,
    sent (bw_conn w) = sent conn ++ take written buf ++ encoded /\
    forall extra, Chunks extra (encoded ++ extra) (body_data ops))) as (r & w' & -> & Hr).
  { apply wr_bind. eapply wr_mono; [exact Hrun|]. intros [] w1 Hw1.
    eapply wr_mono; [by eapply terminate_spec|]. intros [] w2 (encoded & Hs & Hc). exists encoded. by rewrite app_assoc. }
  by destruct r.
Qed.

(** C24: the buffering writer of chunked bodies is correct for every body, whatever
    writes and flushes it is made of, and every buffer of at least six bytes (and,
    as on the 32-bit target, fewer than 2^32): it fails only when the connection
    does, and what the connection has got in the end is what was in the buffer
    before and a chunked body that decodes to exactly the data written. It panics
    exactly when three bytes of the buffer are left and the first operation that
    is not an empty write is a write: then a byte is put where no header fits. *)
Theorem buffering_writer_spec (conn : C) (buf : bytes) (written : nat) (ops : list BodyOp)
    (Hsize : (6 <= length buf)%nat) (Hlong : Z.of_nat (length buf) < 2 ^ 32) (Hwritten : (written <= length buf)%nat) :
  (write_chunked_body conn buf written ops = None <-> (length buf - written = 3)%nat /\ stuck ops = true) /\
  forall r w, write_chunked_body conn buf written ops = Some (r, w) ->
    match r with
    | Ok _ => exists encoded, sent (bw_conn w) = sent conn ++ take written buf ++ encoded /\
        forall extra, Chunks extra (encoded ++ extra) (body_data ops)
    | Err _ => ~ Reliable C
    end.
Proof.
  pose proof (write_chunked_body_spec conn buf written Hsize Hlong Hwritten ops) as Hspec.
  destruct (write_chunked_body conn buf written ops) as [[[[]|e] w]|]; split; try done.
  1, 3: split; [done | intros Hs; by destruct (proj1 Hspec)].
  all: intros r w' [= <- <-]; apply Hspec.
Qed.
End Writing.

(** ** The writer at work *)
Module Sample.
Export HttpBody.Sample.

(** A sink that takes everything. *)
#[export] Instance collect : Sink bytes := {
  sink_write_all d c := (Ok tt, c ++ d);
  sink_flush c := (Ok tt, c)
}.
#[export] Instance collect_laws : SinkLaws bytes.
Proof. refine {| sent := fun c => c |}; cbn; [by intros d c c' [= <-] | by intros c c' [= <-]]. Defined.
Lemma collect_reliable : Reliable bytes.
Proof. split; intros; by eexists. Qed.

Definition crlf (line : bytes) : bytes := line ++ [13; 10].
(** What a connection gets for a buffer of [n] bytes that starts with [pre]. *)
Definition gets (pre : bytes) (n : nat) (ops : list BodyOp) : option bytes :=
  '(r, w) ← write_chunked_body [] (pre ++ replicate (n - length pre) 0) (length pre) ops;
  _ ← ok r;
  Some (bw_conn w).
Definition hello : bytes := lit "HELLO".
Definition body : bytes := lit "BODY".

Example nearly_full :
  gets (hello ++ hello) 10 [WriteAll body] = Some (hello ++ hello ++ crlf (lit "4") ++ crlf body ++ crlf (lit "0") ++ crlf []).
Proof. vm_compute. reflexivity. Qed.
Example fits_exactly :
  gets hello 14 [WriteAll body; WriteAll body] =
  Some (hello ++ crlf (lit "4") ++ crlf body ++ crlf (lit "4") ++ crlf body ++ crlf (lit "0") ++ crlf []).
Proof. vm_compute. reflexivity. Qed.
Example emits_chunks :
  gets hello 12 [WriteAll body] =
  Some (hello ++ crlf (lit "2") ++ crlf (lit "BO") ++ crlf (lit "2") ++ crlf (lit "DY") ++ crlf (lit "0") ++ crlf []).
Proof. vm_compute. reflexivity. Qed.
Example three_bytes_left : gets hello 8 [WriteAll body] = None.
Proof. vm_compute. reflexivity. Qed.

Example flush_first_works :
  gets hello 8 [WriteAll []; Flush; WriteAll body] =
  Some (hello ++ crlf (lit "3") ++ crlf (lit "BOD") ++ crlf (lit "1") ++ crlf (lit "Y") ++ crlf (lit "0") ++ crlf []).
Proof. vm_compute. reflexivity. Qed.

Example buffering_writer_spec_witness :
  (exists w encoded, write_chunked_body ([] : bytes) (hello ++ replicate 7 0) 5 [WriteAll body; Flush] = Some (Ok tt, w) /\
    bw_conn w = hello ++ encoded /\ Chunks [] (encoded ++ []) body) /\
  write_chunked_body ([] : bytes) (hello ++ replicate 3 0) 5 [WriteAll body] = None.
Proof.
  split.
  - destruct (buffering_writer_spec ([] : bytes) (hello ++ replicate 7 0) 5 [WriteAll body; Flush]
      ltac:(vm_compute; lia) ltac:(vm_compute; reflexivity) ltac:(vm_compute; lia)) as [Hpanic Hok].
    destruct (write_chunked_body _ _ _ _) as [[r w]|].
    + specialize (Hok r w eq_refl). destruct r as [[]|e]; [|destruct (Hok collect_reliable)].
      destruct Hok as (encoded & Hs & Hc). exists w, encoded. split; [reflexivity|]. split; [exact Hs | exact (Hc [])].
    + destruct (proj1 Hpanic eq_refl) as [H3 _]. vm_compute in H3. discriminate H3.
  - apply (buffering_writer_spec ([] : bytes) (hello ++ replicate 3 0) 5 [WriteAll body]);
      [vm_compute; lia | vm_compute; reflexivity | vm_compute; lia | split; reflexivity].
Defined.
End Sample.
