(* ===== verification/HttpRequest.v ===== *)
(** * HTTP requests

    [tools/reqwless/src/request.rs], [src/client.rs] and the two writers of
    [src/body_writer/] without a buffer: building a request, writing its head
    and its body to a connection, and sending it. The [base64] crate, the
    buffered connection of [buffered-io], and the plain and encrypted
    connections are interfaces. A panic is [None]. *)
From S2P Require Import Prelude Str Heapless NtpServers OtaUrl OtaManifest OtaFlash HttpBody HttpResponse HttpWriter.

(** ** Requests *)

Definition Method_as_str (self : Method) : bytes :=
  match self with
  | POST => lit "POST"
  | PUT => lit "PUT"
  | GET => lit "GET"
  | DELETE => lit "DELETE"
  | HEAD => lit "HEAD"
  | PATCH => lit "PATCH"
  | OPTIONS => lit "OPTIONS"
  | CONNECT => lit "CONNECT"
  | TRACE => lit "TRACE"
  end.
Definition ContentType_as_str (self : ContentType) : bytes :=
  match self with
  | TextHtml => lit "text/html"
  | TextPlain => lit "text/plain"
  | ApplicationJson => lit "application/json"
  | ApplicationCbor => lit "application/cbor"
  | ApplicationOctetStream => lit "application/octet-stream"
  end.

(** [trait RequestBody]: its length, and what [write] does with a writer. *)
Class RequestBody (B : Type) := {
  body_len : B -> option Z;
  body_ops : B -> list BodyOp
}.
#[export] Instance unit_body : RequestBody unit := { body_len _ := None; body_ops _ := [] }.
#[export] Instance bytes_body : RequestBody bytes := { body_len self := Some (zlen self); body_ops self := [WriteAll self] }.
#[export] Instance option_body {B} `{RequestBody B} : RequestBody (option B) := {
  body_len self := default None (body_len <$> self);
  body_ops self := default [] (body_ops <$> self)
}.

Inductive Auth := Basic (username password : bytes).

Record Request (B : Type) := {
  rq_method : Method;
  base_path : option bytes;
  rq_path : bytes;
  auth : option Auth;
  host : option bytes;
  rq_body : option B;
  rq_content_type : option ContentType;
  accept : option ContentType;
  extra_headers : option (list (bytes * bytes))
}.
Arguments rq_method {B} r.
Arguments base_path {B} r.
Arguments rq_path {B} r.
Arguments auth {B} r.
Arguments host {B} r.
Arguments rq_body {B} r.
Arguments rq_content_type {B} r.
Arguments accept {B} r.
Arguments extra_headers {B} r.

Definition Request_new (method : Method) (path : bytes) : Request unit := {|
  rq_method := method; base_path := None; rq_path := path; auth := None; host := None; rq_body := None;
  rq_content_type := None; accept := None; extra_headers := None |}.
Definition Request_get := Request_new GET.
Definition Request_post := Request_new POST.
Definition Request_put := Request_new PUT.
Definition Request_delete := Request_new DELETE.
Definition Request_head := Request_new HEAD.
Definition Request_patch := Request_new PATCH.
Definition Request_options := Request_new OPTIONS.
Definition Request_connect := Request_new CONNECT.
Definition Request_trace := Request_new TRACE.

(** The builder. *)
Section Builder.
Context {B : Type}.
Implicit Types self : Request B.
Definition with_headers (headers : list (bytes * bytes)) self : Request B := {|
  rq_method := rq_method self; base_path := base_path self; rq_path := rq_path self; auth := auth self;
  host := host self; rq_body := rq_body self; rq_content_type := rq_content_type self; accept := accept self;
  extra_headers := Some headers |}.
Definition with_path (path : bytes) self : Request B := {|
  rq_method := rq_method self; base_path := base_path self; rq_path := path; auth := auth self;
  host := host self; rq_body := rq_body self; rq_content_type := rq_content_type self; accept := accept self;
  extra_headers := extra_headers self |}.
Definition with_body {T} (body : T) self : Request T := {|
  rq_method := rq_method self; base_path := base_path self; rq_path := rq_path self; auth := auth self;
  host := host self; rq_body := Some body; rq_content_type := rq_content_type self; accept := accept self;
  extra_headers := extra_headers self |}.
Definition with_host (host : bytes) self : Request B := {|
  rq_method := rq_method self; base_path := base_path self; rq_path := rq_path self; auth := auth self;
  host := Some host; rq_body := rq_body self; rq_content_type := rq_content_type self; accept := accept self;
  extra_headers := extra_headers self |}.
Definition with_content_type (content_type : ContentType) self : Request B := {|
  rq_method := rq_method self; base_path := base_path self; rq_path := rq_path self; auth := auth self;
  host := host self; rq_body := rq_body self; rq_content_type := Some content_type; accept := accept self;
  extra_headers := extra_headers self |}.
Definition with_accept (content_type : ContentType) self : Request B := {|
  rq_method := rq_method self; base_path := base_path self; rq_path := rq_path self; auth := auth self;
  host := host self; rq_body := rq_body self; rq_content_type := rq_content_type self; accept := Some content_type;
  extra_headers := extra_headers self |}.
Definition basic_auth (username password : bytes) self : Request B := {|
  rq_method := rq_method self; base_path := base_path self; rq_path := rq_path self; auth := Some (Basic username password);
  host := host self; rq_body := rq_body self; rq_content_type := rq_content_type self; accept := accept self;
  extra_headers := extra_headers self |}.
Definition with_base_path (path : bytes) self : Request B := {|
  rq_method := rq_method self; base_path := Some path; rq_path := rq_path self; auth := auth self;
  host := host self; rq_body := rq_body self; rq_content_type := rq_content_type self; accept := accept self;
  extra_headers := extra_headers self |}.
End Builder.

(** ** The head *)

(** [base64::general_purpose::STANDARD.encode_slice] into the given room. *)
Class Base64 := base64_encode : bytes -> nat -> option bytes.

(** Results that thread a connection. *)
Definition Cn (C A : Type) : Type := C -> result HttpError A * C.
#[export] Instance Cn_ret C : MRet (Cn C) := fun A a c => (Ok a, c).
#[export] Instance Cn_bind C : MBind (Cn C) := fun A B f m c =>
  match m c with (Ok a, c) => f a c | (Err e, c) => (Err e, c) end.

(** [self.trim_end_matches('/')]. *)
Fixpoint trim_start_slashes (s : bytes) : bytes :=
  match s with 47 :: s => trim_start_slashes s | _ => s end.
Definition trim_end_slashes (s : bytes) : bytes := rev (trim_start_slashes (rev s)).

Section Head.
Context {C : Type} `{Sink C} `{Base64}.
#[local] Abbreviation W := (Cn C unit).

Definition write_str (data : bytes) : W := fun c =>
  let (r, c) := sink_write_all data c in (map_err Network r, c).
Definition write_field (key value : bytes) : W :=
  write_str key;; write_str (lit ": ");; write_str value;; write_str [13; 10].
Definition when_some {A} (o : option A) (f : A -> W) : W := match o with Some a => f a | None => mret tt end.
Fixpoint write_fields (fields : list (bytes * bytes)) : W :=
  match fields with
  | [] => mret tt
  | (header, value) :: fields => write_field header value;; write_fields fields
  end.
Definition write_auth (auth : Auth) : W :=
  let 'Basic username password := auth in
  match write_pieces 128 [username; lit ":"; password] with
  | None => fun c => (Err Codec, c)
  | Some combined =>
      match base64_encode combined 256 with
      | None => fun c => (Err Codec, c)
      | Some authz => write_str (lit "Authorization: Basic ");; write_str authz;; write_str [13; 10]
      end
  end.

Definition write_header {B} `{RequestBody B} (self : Request B) : W :=
  write_str (Method_as_str (rq_method self));;
  write_str [32];;
  when_some (base_path self) (fun base_path =>
    write_str (trim_end_slashes base_path);;
    if starts_with [47] (rq_path self) then mret tt else write_str [47]);;
  write_str (rq_path self);;
  write_str (lit " HTTP/1.1" ++ [13; 10]);;
  when_some (auth self) write_auth;;
  when_some (host self) (write_field (lit "Host"));;
  when_some (rq_content_type self) (fun content_type => write_field (lit "Content-Type") (ContentType_as_str content_type));;
  when_some (accept self) (fun accept => write_field (lit "Accept") (ContentType_as_str accept));;
  when_some (rq_body self) (fun body =>
    match body_len body with
    | Some len => write_field (lit "Content-Length") (dec len)
    | None => write_field (lit "Transfer-Encoding") (lit "chunked")
    end);;
  when_some (extra_headers self) write_fields;;
  write_str [13; 10].
End Head.

(** ** Writers of bodies *)

(** [FixedBodyWriter] counts, [ChunkedBodyWriter] wraps every write into a
    chunk. *)
Record FixedBodyWriter (C : Type) := { fixed_conn : C; fixed_written : Z }.
Arguments fixed_conn {C} f.
Arguments fixed_written {C} f.
Record ChunkedBodyWriter (C : Type) := { chunked_conn : C }.
Arguments chunked_conn {C} c.

Section Writers.
Context {C : Type} `{Sink C}.

Definition FixedBodyWriter_new (conn : C) : FixedBodyWriter C := {| fixed_conn := conn; fixed_written := 0 |}.
#[export] Instance fixed_sink : Sink (FixedBodyWriter C) := {
  sink_write_all buf self :=
    match sink_write_all buf (fixed_conn self) with
    | (Err e, c) => (Err e, {| fixed_conn := c; fixed_written := fixed_written self |})
    | (Ok _, c) => (Ok tt, {| fixed_conn := c; fixed_written := wrap usize_bits (fixed_written self + zlen buf) |})
    end;
  sink_flush self :=
    let (r, c) := sink_flush (fixed_conn self) in (r, {| fixed_conn := c; fixed_written := fixed_written self |})
}.

(** A list of writes in which an error ends the rest. *)
Fixpoint write_each (pieces : list bytes) (c : C) : result ErrorKind unit * C :=
  match pieces with
  | [] => (Ok tt, c)
  | piece :: pieces =>
      match sink_write_all piece c with
      | (Err e, c) => (Err e, c)
      | (Ok _, c) => write_each pieces c
      end
  end.
Context `{Hex}.
#[export] Instance chunked_sink : Sink (ChunkedBodyWriter C) := {
  sink_write_all buf self :=
    if (length buf =? 0)%nat then (Ok tt, self)
    else
      let (r, c) := write_each [write_chunked_header (zlen buf); buf; NEWLINE] (chunked_conn self) in
      (r, {| chunked_conn := c |});
  sink_flush self := let (r, c) := sink_flush (chunked_conn self) in (r, {| chunked_conn := c |})
}.
Definition chunked_terminate (self : ChunkedBodyWriter C) : result ErrorKind unit * ChunkedBodyWriter C :=
  let (r, c) := sink_write_all EMPTY_CHUNK (chunked_conn self) in (r, {| chunked_conn := c |}).
End Writers.

(** [RequestBody::write] to a writer. *)
Fixpoint body_write {W} `{Sink W} (ops : list BodyOp) (w : W) : result ErrorKind unit * W :=
  match ops with
  | [] => (Ok tt, w)
  | op :: ops =>
      match match op with WriteAll data => sink_write_all data w | Flush => sink_flush w end with
      | (Err e, w) => (Err e, w)
      | (Ok _, w) => body_write ops w
      end
  end.

(** ** Connections *)

(** The read half of a connection without a buffer of its own. *)
Class Reads (C : Type) := read_from : nat -> C -> result ErrorKind bytes * C.

(** [buffered_io::asynch::BufferedWrite]: [split] gives the connection, the
    buffer and how much of it is unwritten; [rejoin] is what the borrower leaves of
    the two, and [clear] forgets what is unwritten. *)
Class BufferedWrite (P B : Type) := {
  bf_new : P -> bytes -> B;
  bf_split : B -> P * bytes * nat;
  bf_rejoin : P -> bytes -> B -> B;
  bf_clear : B -> B
}.

Inductive HttpConnection (P B T : Type) :=
| Plain (conn : P)
| PlainBuffered (buffered : B)
| TlsConn (tls : T).
Arguments Plain {P B T} conn.
Arguments PlainBuffered {P B T} buffered.
Arguments TlsConn {P B T} tls.

Section Client.
Context {P B T : Type} `{Sink P} `{Sink B} `{Sink T} `{Reads P} `{Reads B} `{RawBody T} `{BufferedWrite P B} `{Hex} `{Base64}.
#[local] Abbreviation Conn := (HttpConnection P B T).

Definition on_conn {A} (p : P -> A * P) (b : B -> A * B) (t : T -> A * T) (self : Conn) : A * Conn :=
  match self with
  | Plain c => let (r, c) := p c in (r, Plain c)
  | PlainBuffered c => let (r, c) := b c in (r, PlainBuffered c)
  | TlsConn c => let (r, c) := t c in (r, TlsConn c)
  end.
#[export] Instance conn_sink : Sink Conn := {
  sink_write_all buf := on_conn (sink_write_all buf) (sink_write_all buf) (sink_write_all buf);
  sink_flush := on_conn sink_flush sink_flush sink_flush
}.
(** Only a TLS connection has a buffer to read from. *)
#[export] Instance conn_connection : Connection Conn := {
  conn_read n := on_conn (read_from n) (read_from n) (raw_read n);
  try_fill_buf self := match self with TlsConn tls => let (r, tls) := raw_fill tls in (Some r, TlsConn tls) | _ => (None, self) end;
  try_consume amt self := match self with TlsConn tls => TlsConn (raw_consume amt tls) | _ => self end
}.

Definition into_buffered (tx_buf : bytes) (self : Conn) : Conn :=
  match self with
  | Plain conn => PlainBuffered (bf_new conn tx_buf)
  | PlainBuffered conn => PlainBuffered conn
  | TlsConn tls => TlsConn tls
  end.

Definition write_fixed (len : Z) (ops : list BodyOp) (self : Conn) : result HttpError unit * Conn :=
  match body_write ops (FixedBodyWriter_new self) with
  | (Err e, writer) => (Err (Network e), fixed_conn writer)
  | (Ok _, writer) =>
      (if negb (fixed_written writer =? len) then Err IncorrectBodyWritten else Ok tt, fixed_conn writer)
  end.
Definition write_chunks_to {C} `{Sink C} (ops : list BodyOp) (c : C) : result HttpError unit * C :=
  match body_write ops {| chunked_conn := c |} with
  | (Err e, writer) => (Err (Network e), chunked_conn writer)
  | (Ok _, writer) => let (r, writer) := chunked_terminate writer in (map_err Network r, chunked_conn writer)
  end.
Definition write_buffered (ops : list BodyOp) (buffered : B) : option (result HttpError unit * B) :=
  let '(conn, buf, unwritten) := bf_split buffered in
  '(r, writer) ← write_chunked_body conn buf unwritten ops;
  let buffered := bf_rejoin (bw_conn writer) (bw_buf writer) buffered in
  Some (match r with
        | Err e => (Err (Network e), buffered)
        | Ok _ => (Ok tt, bf_clear buffered)
        end).

(** [None] is a panic of the buffering writer. *)
Definition write_request {R} `{RequestBody R} (request : Request R) (self : Conn) : option (result HttpError unit * Conn) :=
  match write_header request self with
  | (Err e, self) => Some (Err e, self)
  | (Ok _, self) =>
      match rq_body request with
      | None => Some (Ok tt, self)
      | Some body =>
          match body_len body with
          | Some len => if len =? 0 then Some (Ok tt, self) else Some (write_fixed len (body_ops body) self)
          | None =>
              match self with
              | Plain c => let (r, c) := write_chunks_to (body_ops body) c in Some (r, Plain c)
              | PlainBuffered buffered =>
                  '(r, buffered) ← write_buffered (body_ops body) buffered; Some (r, PlainBuffered buffered)
              | TlsConn c => let (r, c) := write_chunks_to (body_ops body) c in Some (r, TlsConn c)
              end
          end
      end
  end.

(** [HttpConnection::send]: the request, a flush, and the response. *)
Definition send {V} `{FixedVec V} `{HttpParse} {R} `{RequestBody R} (request : Request R) (rx_buf : bytes) (self : Conn)
  : option (result HttpError (HttpResponse (V := V) (C := Conn)) * Conn) :=
  '(r, self) ← write_request request self;
  match r with
  | Err e => Some (Err e, self)
  | Ok _ =>
      match sink_flush self with
      | (Err e, self) => Some (Err (Network e), self)
      | (Ok _, self) => Response_read self (rq_method request) rx_buf
      end
  end.

(** [HttpRequestHandle::send]: the request can be sent once. *)
Record HttpRequestHandle (R : Type) := { hr_conn : Conn; hr_request : option (Request R) }.
Arguments hr_conn {R} h.
Arguments hr_request {R} h.
Definition handle_send {V} `{FixedVec V} `{HttpParse} {R} `{RequestBody R} (rx_buf : bytes) (self : HttpRequestHandle R)
  : option (result HttpError (HttpResponse (V := V) (C := Conn)) * HttpRequestHandle R) :=
  match hr_request self with
  | None => Some (Err AlreadySent, self)
  | Some request =>
      '(r, conn) ← send request rx_buf (hr_conn self);
      Some (r, {| hr_conn := conn; hr_request := None |})
  end.

(** [HttpResource]: requests below a base path. *)
Record HttpResource := { rs_conn : Conn; rs_host : bytes; rs_base_path : bytes }.
Definition resource_request (self : HttpResource) (method : Method) (path : bytes) : Request unit :=
  with_host (rs_host self) (Request_new method path).
Definition resource_send {V} `{FixedVec V} `{HttpParse} {R} `{RequestBody R} (request : Request R) (rx_buf : bytes) (self : HttpResource)
  : option (result HttpError (HttpResponse (V := V) (C := Conn)) * HttpResource) :=
  '(r, conn) ← send (with_base_path (rs_base_path self) request) rx_buf (rs_conn self);
  Some (r, {| rs_conn := conn; rs_host := rs_host self; rs_base_path := rs_base_path self |}).
End Client.

(** ** What is sent *)

(** [sent] of a buffered connection counts what is in the buffer. *)
Class BufferedWriteLaws (P B : Type) `{SinkLaws P} `{SinkLaws B} `{BufferedWrite P B} := {
  split_sent b c buf k : bf_split b = (c, buf, k) -> sent b = sent c ++ take k buf /\ (k <= length buf)%nat;
  rejoin_sent c buf b : sent (bf_clear (bf_rejoin c buf b)) = sent c
}.

Definition CRLF : bytes := [13; 10].
Definition field_text (field : bytes * bytes) : bytes := field.1 ++ lit ": " ++ field.2 ++ CRLF.
Definition fields_text (fields : list (bytes * bytes)) : bytes := mjoin (field_text <$> fields).

Section Specification.
Context `{Base64} `{Hex} {R : Type} `{RequestBody R}.
Definition auth_fields (request : Request R) : option (list (bytes * bytes)) :=
  match auth request with
  | None => Some []
  | Some (Basic username password) =>
      combined ← write_pieces 128 [username; lit ":"; password];
      authz ← base64_encode combined 256;
      Some [(lit "Authorization", lit "Basic " ++ authz)]
  end.
Definition length_fields (request : Request R) : list (bytes * bytes) :=
  match rq_body request with
  | None => []
  | Some body => [match body_len body with
                  | Some len => (lit "Content-Length", dec len)
                  | None => (lit "Transfer-Encoding", lit "chunked")
                  end]
  end.
Definition optional (key : bytes) (value : option bytes) : list (bytes * bytes) :=
  match value with Some value => [(key, value)] | None => [] end.
Definition target (request : Request R) : bytes :=
  match base_path request with
  | Some base_path => trim_end_slashes base_path ++ if starts_with [47] (rq_path request) then [] else [47]
  | None => []
  end ++ rq_path request.
(** The head of a request: its first line, its fields and a blank line. *)
Definition head_text (request : Request R) (authorization : list (bytes * bytes)) : bytes :=
  Method_as_str (rq_method request) ++ [32] ++ target request ++ (lit " HTTP/1.1" ++ CRLF) ++
  fields_text (authorization ++ optional (lit "Host") (host request) ++
    optional (lit "Content-Type") (ContentType_as_str <$> rq_content_type request) ++
    optional (lit "Accept") (ContentType_as_str <$> accept request) ++
    length_fields request ++ default [] (extra_headers request)) ++ CRLF.
(** What follows it: nothing, the bytes of the body, or chunks that decode to
    them. *)
Definition payload_of (request : Request R) (payload : bytes) : Prop :=
  match rq_body request with
  | None => payload = []
  | Some body =>
      match body_len body with
      | Some len => if len =? 0 then payload = [] else payload = body_data (body_ops body) /\ zlen payload = len
      | None => forall extra, Chunks extra (payload ++ extra) (body_data (body_ops body))
      end
  end.
End Specification.

Section Writes.
Context {C : Type} `{SinkLaws C} `{Base64}.

(** [m] writes [t], or the sink fails. *)
Definition Writes (m : Cn C unit) (t : bytes) : Prop := forall c,
  match m c with (Ok _, c') => sent c' = sent c ++ t | (Err _, _) => ~ Reliable C end.
Lemma writes_str t : Writes (write_str t) t.
Proof.
  intros c. unfold write_str. destruct (sink_write_all t c) as [[[]|e] c'] eqn:E; cbn; [by apply write_all_sent|].
  intros [Hr _]. destruct (Hr t c) as [c'' E']. by rewrite E in E'.
Qed.
Lemma writes_then m m' t t' : Writes m t -> Writes m' t' -> Writes (m;; m') (t ++ t').
Proof.
  intros Hm Hm' c. specialize (Hm c). unfold mbind, Cn_bind. destruct (m c) as [[[]|e] c1]; [|exact Hm].
  specialize (Hm' c1). destruct (m' c1) as [[[]|e] c2]; [|exact Hm']. by rewrite Hm', Hm, app_assoc.
Qed.
Lemma writes_eq m t t' : Writes m t -> t = t' -> Writes m t'.
Proof. by intros Hm <-. Qed.
Lemma writes_nothing : Writes (mret tt) [].
Proof. intros c. cbn. by rewrite app_nil_r. Qed.
Lemma writes_field key value : Writes (write_field key value) (field_text (key, value)).
Proof. unfold write_field, field_text, CRLF. cbn [fst snd]. repeat apply writes_then; apply writes_str. Qed.
Lemma writes_some {A} (o : option A) f (t : A -> bytes) : (forall a, Writes (f a) (t a)) ->
  Writes (when_some o f) (match o with Some a => t a | None => [] end).
Proof. intros Hf. destruct o; cbn; [apply Hf | apply writes_nothing]. Qed.
Lemma writes_fields fields : Writes (write_fields fields) (fields_text fields).
Proof.
  induction fields as [|[key value] fields IH]; cbn [write_fields]; [apply writes_nothing|].
  unfold fields_text. cbn [fmap list_fmap mjoin list_join]. apply writes_then; [apply writes_field | exact IH].
Qed.

Lemma fields_text_app l1 l2 : fields_text (l1 ++ l2) = fields_text l1 ++ fields_text l2.
Proof. unfold fields_text. by rewrite fmap_app, join_app. Qed.
Lemma one_field field : fields_text [field] = field_text field.
Proof. unfold fields_text. cbn. by rewrite app_nil_r. Qed.

Lemma writes_auth {R} (request : Request R) fields : auth_fields request = Some fields ->
  Writes (when_some (auth request) write_auth) (fields_text fields).
Proof.
  unfold auth_fields. destruct (auth request) as [[username password]|]; cbn [when_some write_auth].
  - destruct (write_pieces _ _) as [combined|]; cbn [mbind option_bind]; [|done].
    destruct (base64_encode combined 256) as [authz|]; cbn [mbind option_bind]; [|done]. intros [= <-].
    eapply writes_eq; [repeat eapply writes_then; apply writes_str|]. by rewrite one_field.
  - intros [= <-]. apply writes_nothing.
Qed.
Lemma writes_optional key {A} (o : option A) (f : A -> bytes) :
  Writes (when_some o (fun a => write_field key (f a))) (fields_text (optional key (f <$> o))).
Proof. destruct o; cbn [when_some fmap option_fmap option_map optional]; [rewrite one_field; apply writes_field | apply writes_nothing]. Qed.

(** [m] does not succeed; without a failure of the sink the error is
    [Codec]. *)
Definition Rejects (m : Cn C unit) : Prop := forall c,
  match m c with (Ok _, _) => False | (Err e, _) => e = Codec \/ ~ Reliable C end.
Lemma rejects_then m m' t : Writes m t -> Rejects m' -> Rejects (m;; m').
Proof.
  intros Hm Hm' c. specialize (Hm c). unfold mbind, Cn_bind. destruct (m c) as [[[]|e] c1]; [apply Hm' | by right].
Qed.
Lemma rejects_bind m m' : Rejects m -> Rejects (m;; m').
Proof. intros Hm c. specialize (Hm c). unfold mbind, Cn_bind. destruct (m c) as [[[]|e] c1]; [done | exact Hm]. Qed.
Lemma rejects_auth {R} (request : Request R) : auth_fields request = None -> Rejects (when_some (auth request) write_auth).
Proof.
  unfold auth_fields. destruct (auth request) as [[username password]|]; cbn [when_some write_auth]; [|done].
  destruct (write_pieces _ _) as [combined|]; cbn [mbind option_bind]; [|intros _ c; by left].
  destruct (base64_encode combined 256) as [authz|]; cbn [mbind option_bind]; [done | intros _ c; by left].
Qed.
(** The head of the request, or its authorization does not fit. *)
Lemma write_header_spec {R} `{RequestBody R} (request : Request R) :
  match auth_fields request with
  | Some fields => Writes (write_header request) (head_text request fields)
  | None => Rejects (write_header request)
  end.
Proof.
  assert (forall path, Writes (write_str (trim_end_slashes path);;
    if starts_with [47] (rq_path request) then mret tt else write_str [47])
    (trim_end_slashes path ++ if starts_with [47] (rq_path request) then [] else [47])) as Hbase.
  { intros path. apply writes_then; [apply writes_str|]. destruct (starts_with _ _); [apply writes_nothing | apply writes_str]. }
  assert (Writes (when_some (rq_body request) (fun body =>
    match body_len body with
    | Some len => write_field (lit "Content-Length") (dec len)
    | None => write_field (lit "Transfer-Encoding") (lit "chunked")
    end)) (fields_text (length_fields request))) as Hlength.
  { unfold length_fields. destruct (rq_body request) as [body|]; cbn [when_some]; [|apply writes_nothing].
    rewrite one_field. destruct (body_len body); apply writes_field. }
  assert (Writes (when_some (extra_headers request) write_fields) (fields_text (default [] (extra_headers request)))) as Hextra.
  { destruct (extra_headers request); [apply writes_fields | apply writes_nothing]. }
  unfold write_header. destruct (auth_fields request) as [fields|] eqn:Ea.
  - eapply writes_eq.
    { do 2 (eapply writes_then; [apply writes_str|]). eapply writes_then; [apply writes_some, Hbase|].
      do 2 (eapply writes_then; [apply writes_str|]). eapply writes_then; [by apply writes_auth|].
      eapply writes_then; [apply (writes_optional (lit "Host") (host request) id)|].
      do 2 (eapply writes_then; [apply writes_optional|]). eapply writes_then; [exact Hlength|].
      eapply writes_then; [exact Hextra | apply writes_str]. }
    unfold head_text, target. rewrite !fields_text_app, option_fmap_id, <- !app_assoc. done.
  - do 2 (eapply rejects_then; [apply writes_str|]). eapply rejects_then; [apply writes_some, Hbase|].
    do 2 (eapply rejects_then; [apply writes_str|]). apply rejects_bind. by apply rejects_auth.
Qed.
End Writes.

Section Sending.
Context {P B T : Type} `{BufferedWriteLaws P B} `{SinkLaws T} `{HexLaws} `{Base64}.
#[local] Abbreviation Conn := (HttpConnection P B T).

#[export] Instance conn_laws : SinkLaws Conn.
Proof.
  refine {| sent := fun self => match self with Plain c => sent c | PlainBuffered c => sent c | TlsConn c => sent c end |}.
  - intros d [c|c|c] c' E; cbn in E; destruct (sink_write_all d c) as [r c1] eqn:E1; injection E as -> <-; by apply write_all_sent.
  - intros [c|c|c] c' E; cbn in E; destruct (sink_flush c) as [r c1] eqn:E1; injection E as -> <-; by apply flush_sent.
Defined.
Definition AllReliable : Prop := Reliable P /\ Reliable B /\ Reliable T.
Lemma conn_reliable : AllReliable -> Reliable Conn.
Proof.
  intros (Hp & Hb & Ht). split.
  - intros d [c|c|c]; cbn; [destruct (proj1 Hp d c) as [c' E] | destruct (proj1 Hb d c) as [c' E] | destruct (proj1 Ht d c) as [c' E]];
      rewrite E; by eexists.
  - intros [c|c|c]; cbn; [destruct (proj2 Hp c) as [c' E] | destruct (proj2 Hb c) as [c' E] | destruct (proj2 Ht c) as [c' E]];
      rewrite E; by eexists.
Qed.

Section Bodies.
Context {C : Type} `{SinkLaws C}.

Lemma sink_takes d (c : C) : match sink_write_all d c with (Ok _, c') => sent c' = sent c ++ d | (Err _, _) => ~ Reliable C end.
Proof.
  destruct (sink_write_all d c) as [[[]|e] c'] eqn:E; [by apply write_all_sent|].
  intros [Hr _]. destruct (Hr d c) as [c'' E']. by rewrite E in E'.
Qed.
Lemma sink_flushes (c : C) : match sink_flush c with (Ok _, c') => sent c' = sent c | (Err _, _) => ~ Reliable C end.
Proof.
  destruct (sink_flush c) as [[[]|e] c'] eqn:E; [by apply flush_sent|].
  intros [_ Hr]. destruct (Hr c) as [c'' E']. by rewrite E in E'.
Qed.

Lemma body_data_cons op ops : body_data (op :: ops) = (match op with WriteAll data => data | Flush => [] end) ++ body_data ops.
Proof. done. Qed.

Lemma body_write_fixed ops (w : FixedBodyWriter C) : 0 <= fixed_written w < 2 ^ 32 ->
  match body_write ops w with
  | (Ok _, w') => sent (fixed_conn w') = sent (fixed_conn w) ++ body_data ops /\
      fixed_written w' = wrap usize_bits (fixed_written w + zlen (body_data ops))
  | (Err _, _) => ~ Reliable C
  end.
Proof.
  revert w. induction ops as [|op ops IH]; intros w Hw; cbn [body_write].
  - rewrite app_nil_r. split; [done|]. unfold wrap, usize_bits. cbn. rewrite Z.add_0_r, Z.mod_small by lia. done.
  - rewrite body_data_cons. destruct op as [data|].
    + cbn. pose proof (sink_takes data (fixed_conn w)) as Hd. destruct (sink_write_all data (fixed_conn w)) as [[[]|e] c]; [|exact Hd].
      specialize (IH {| fixed_conn := c; fixed_written := wrap usize_bits (fixed_written w + zlen data) |}).
      destruct (body_write ops _) as [[[]|e] w'].
      * destruct IH as [Hs Hc]; [apply Z.mod_pos_bound; lia|]. cbn [fixed_conn fixed_written] in *.
        rewrite Hs, Hd, app_assoc. split; [done|]. rewrite Hc. unfold wrap, zlen. rewrite length_app, Z.add_mod_idemp_l by done.
        f_equal. lia.
      * apply IH, Z.mod_pos_bound. lia.
    + cbn. pose proof (sink_flushes (fixed_conn w)) as Hf. destruct (sink_flush (fixed_conn w)) as [[[]|e] c]; [|exact Hf].
      specialize (IH {| fixed_conn := c; fixed_written := fixed_written w |} Hw). cbn [fixed_conn fixed_written] in IH.
      by rewrite Hf in IH.
Qed.

Lemma write_each_spec pieces (c : C) : match write_each pieces c with
  | (Ok _, c') => sent c' = sent c ++ mjoin pieces
  | (Err _, _) => ~ Reliable C
  end.
Proof.
  revert c. induction pieces as [|piece pieces IH]; intros c; cbn [write_each]; [by rewrite app_nil_r|].
  pose proof (sink_takes piece c) as Hp. destruct (sink_write_all piece c) as [[[]|e] c1]; [|exact Hp].
  specialize (IH c1). destruct (write_each pieces c1) as [[[]|e] c2]; [|exact IH]. cbn. by rewrite IH, Hp, app_assoc.
Qed.

Definition written_data (ops : list BodyOp) : list bytes :=
  (fun op => match op with WriteAll data => data | Flush => [] end) <$> ops.
Lemma body_write_chunked ops (w : ChunkedBodyWriter C) : match body_write ops w with
  | (Ok _, w') => sent (chunked_conn w') = sent (chunked_conn w) ++ mjoin (write_all <$> written_data ops)
  | (Err _, _) => ~ Reliable C
  end.
Proof.
  revert w. induction ops as [|op ops IH]; intros w; cbn [body_write]; [by rewrite app_nil_r|].
  assert (match match op with WriteAll data => sink_write_all data w | Flush => sink_flush w end with
    | (Ok _, w') => sent (chunked_conn w') = sent (chunked_conn w) ++ write_all (match op with WriteAll data => data | Flush => [] end)
    | (Err _, _) => ~ Reliable C
    end) as Hop.
  { destruct op as [data|]; cbn [sink_write_all sink_flush chunked_sink].
    - unfold write_all. destruct (length data =? 0)%nat; [by rewrite app_nil_r|].
      pose proof (write_each_spec [write_chunked_header (zlen data); data; NEWLINE] (chunked_conn w)) as Hw.
      destruct (write_each _ _) as [[[]|e] c]; [|exact Hw]. cbn [chunked_conn]. rewrite Hw. do 2 f_equal.
    - pose proof (sink_flushes (chunked_conn w)) as Hf. destruct (sink_flush _) as [[[]|e] c]; [|exact Hf].
      cbn [chunked_conn]. by rewrite Hf, app_nil_r. }
  destruct (match op with WriteAll data => _ | Flush => _ end) as [[[]|e] w1]; [|exact Hop].
  specialize (IH w1). destruct (body_write ops w1) as [[[]|e] w2]; [|exact IH]. rewrite IH, Hop. cbn. by rewrite app_assoc.
Qed.

Definition SmallWrites (ops : list BodyOp) : Prop := Forall (fun d => zlen d < 2 ^ 32) (written_data ops).
Lemma write_chunks_to_spec ops (c : C) : SmallWrites ops -> match write_chunks_to ops c with
  | (Ok _, c') => exists payload, sent c' = sent c ++ payload /\ forall extra, Chunks extra (payload ++ extra) (body_data ops)
  | (Err _, _) => ~ Reliable C
  end.
Proof.
  intros Hsmall. unfold write_chunks_to. pose proof (body_write_chunked ops {| chunked_conn := c |}) as Hw.
  destruct (body_write ops _) as [[[]|e] w]; [|exact Hw]. unfold chunked_terminate.
  pose proof (sink_takes EMPTY_CHUNK (chunked_conn w)) as Ht. destruct (sink_write_all _ _) as [[[]|e] c']; [|exact Ht].
  cbn. cbn in Hw. exists (mjoin (write_all <$> written_data ops) ++ terminate). rewrite Ht, Hw, <- app_assoc. split; [done|].
  intros extra. rewrite <- app_assoc. by apply write_chunks.
Qed.
End Bodies.

(** The head has been written to a buffered connection, with [k] bytes of its
    buffer taken, and a body of unknown length follows. *)
Definition ChunksFollow {R} `{RequestBody R} (request : Request R) (self : Conn) (buf : bytes) (k : nat) (ops : list BodyOp) : Prop :=
  exists b c body, write_header request self = (Ok tt, PlainBuffered b) /\ bf_split b = (c, buf, k) /\
    rq_body request = Some body /\ body_len body = None /\ body_ops body = ops.

Lemma write_buffered_spec ops (b : B) c buf k : bf_split b = (c, buf, k) ->
  (6 <= length buf)%nat -> Z.of_nat (length buf) < 2 ^ 32 ->
  match write_buffered ops b with
  | None => (length buf - k = 3)%nat /\ stuck ops = true
  | Some (r, b') => ~ ((length buf - k = 3)%nat /\ stuck ops = true) /\
      match r with
      | Ok _ => exists payload, sent b' = sent b ++ payload /\ forall extra, Chunks extra (payload ++ extra) (body_data ops)
      | Err _ => ~ Reliable P
      end
  end.
Proof.
  intros Hs Hsix Hl. apply split_sent in Hs as Hb. destruct Hb as [Hsent Hk].
  pose proof (write_chunked_body_spec c buf k Hsix Hl Hk ops) as Hr. unfold write_buffered. rewrite Hs.
  destruct (write_chunked_body c buf k ops) as [[[[]|e] w]|]; cbn [mbind option_bind]; [|exact Hr..].
  destruct Hr as (Hok & payload & Hw & Hc). split; [done|]. exists payload. rewrite rejoin_sent, Hw, Hsent, app_assoc. by split.
Qed.

Lemma write_fixed_spec len ops (self : Conn) : zlen (body_data ops) < 2 ^ 32 ->
  match write_fixed len ops self with
  | (Ok _, self') => sent self' = sent self ++ body_data ops /\ zlen (body_data ops) = len
  | (Err e, _) => ~ AllReliable \/ (e = IncorrectBodyWritten /\ zlen (body_data ops) <> len)
  end.
Proof.
  intros Hdata. pose proof (body_write_fixed ops (FixedBodyWriter_new self) ltac:(cbn; lia)) as Hw. unfold write_fixed.
  destruct (body_write _ _) as [[[]|e] w]; [|left; intros Hall; by apply Hw, conn_reliable].
  destruct Hw as [Hs Hc]. cbn [FixedBodyWriter_new fixed_conn fixed_written] in Hs, Hc.
  unfold wrap, usize_bits in Hc. rewrite Z.add_0_l, Z.mod_small in Hc by (unfold zlen in *; lia). rewrite Hc.
  destruct (Z.eqb_spec (zlen (body_data ops)) len) as [<-|Hne]; cbn [negb]; [done | by right].
Qed.

Lemma never_follows {R} `{RequestBody R} (request : Request R) (self : Conn) (Q : bytes -> nat -> list BodyOp -> Prop) :
  (forall b body, write_header request self = (Ok tt, PlainBuffered b) -> rq_body request = Some body -> body_len body <> None) ->
  ~ exists buf k ops, ChunksFollow request self buf k ops /\ Q buf k ops.
Proof. intros Hno (buf & k & ops & (b & c & body & Hh & _ & Hb & Hl & _) & _). by destruct (Hno b body Hh Hb). Qed.

(** C25: a request is sent as it was built, over any of the three kinds of
    connection: unless the authorization does not fit, the body is not of its
    declared length, or a connection fails, what has been sent is the head of the
    request and then nothing for an empty body, the bytes of a body of known
    length, or chunks that decode to the bytes of a body of unknown length.
    [write_request] panics exactly when a body of unknown length follows over a
    buffered connection, three bytes of whose buffer are left after the head, and
    the body begins with a write. The buffer is assumed to have at least six bytes
    (and, as on the 32-bit target, fewer than 2^32). *)
Theorem request_sent {R} `{RequestBody R} (request : Request R) (self : Conn)
    (Hbuffer : forall buf k ops, ChunksFollow request self buf k ops -> 6 <= zlen buf < 2 ^ 32)
    (Hsmall : forall body, rq_body request = Some body -> SmallWrites (body_ops body) /\ zlen (body_data (body_ops body)) < 2 ^ 32) :
  (write_request request self = None <->
   exists buf k ops, ChunksFollow request self buf k ops /\ (length buf - k = 3)%nat /\ stuck ops = true) /\
  forall r self', write_request request self = Some (r, self') ->
  match r with
  | Ok _ => exists fields payload, auth_fields request = Some fields /\
      sent self' = sent self ++ head_text request fields ++ payload /\ payload_of request payload
  | Err e => ~ AllReliable \/ (e = Codec /\ auth_fields request = None) \/
      (e = IncorrectBodyWritten /\ exists body, rq_body request = Some body /\
        body_len body <> Some (zlen (body_data (body_ops body))))
  end.
Proof.
  pose proof (write_header_spec (C := Conn) request) as Hhead.
  pose proof (never_follows request self (fun buf k ops => (length buf - k = 3)%nat /\ stuck ops = true)) as Hnever.
  unfold write_request. destruct (auth_fields request) as [fields|] eqn:Ea; specialize (Hhead self);
    destruct (write_header request self) as [[[]|e] self1] eqn:Ehead; try done.
  2, 3: split; [split; [done | intros Hf; by apply Hnever in Hf]|]; intros r self' [= <- <-].
  2: { left. intros Hall. by apply Hhead, conn_reliable. }
  2: { destruct Hhead as [->|Hf]; [right; left; done|]. left. intros Hall. by apply Hf, conn_reliable. }
  assert (forall payload (self' : Conn), sent self' = sent self1 ++ payload -> payload_of request payload ->
    exists fields' payload', Some fields = Some fields' /\ sent self' = sent self ++ head_text request fields' ++ payload' /\
      payload_of request payload') as Hdone.
  { intros payload self' Hs Hp. exists fields, payload. by rewrite Hs, Hhead, <- app_assoc. }
  unfold payload_of in *. destruct (rq_body request) as [body|] eqn:Eb; cycle 1.
  { split; [split; [done | intros Hf; by apply Hnever in Hf]|].
    intros r self' [= <- <-]. apply (Hdone [] self1); [by rewrite app_nil_r | done]. }
  destruct (Hsmall body eq_refl) as [Hpieces Hdata]. destruct (body_len body) as [len|] eqn:El.
  - assert (forall (o : option (result HttpError unit * Conn)), o <> None -> o = None <->
      exists buf k ops, ChunksFollow request self buf k ops /\ (length buf - k = 3)%nat /\ stuck ops = true) as Hnone.
    { intros o Ho. split; [done | intros Hf; apply Hnever in Hf; [done|]]. intros b body' _ [= <-]. by rewrite El. }
    destruct (Z.eqb_spec len 0) as [->|Hlen].
    { split; [by apply Hnone|]. intros r self' [= <- <-]. apply (Hdone [] self1); [by rewrite app_nil_r | done]. }
    split; [by apply Hnone|]. intros r self' [= Hw]. pose proof (write_fixed_spec len (body_ops body) self1 Hdata) as Hf.
    rewrite Hw in Hf. destruct r as [[]|e].
    + destruct Hf as [Hs Hl]. by apply (Hdone (body_data (body_ops body))).
    + destruct Hf as [Hf|[-> Hne]]; [by left | right; right]. split; [done|]. exists body. split; [done|]. rewrite El. congruence.
  - destruct self1 as [c|b|c].
    1, 3: (split; [split; [by destruct (write_chunks_to _ _) | intros Hf; by apply Hnever in Hf]|];
      pose proof (write_chunks_to_spec (body_ops body) c Hpieces) as Hw;
      destruct (write_chunks_to _ c) as [[[]|e] c']; intros r self' [= <- <-];
      [destruct Hw as (payload & Hs & Hc); by apply (Hdone payload) | left; intros (? & ? & ?); by apply Hw]).
    destruct (bf_split b) as [[c buf] k] eqn:Es.
    assert (ChunksFollow request self buf k (body_ops body)) as Hf by (by exists b, c, body).
    pose proof (Hbuffer buf k (body_ops body) Hf) as Hsize. unfold zlen in Hsize.
    pose proof (write_buffered_spec (body_ops body) b c buf k Es ltac:(lia) ltac:(lia)) as Hw.
    destruct (write_buffered _ b) as [[r b']|]; cbn [mbind option_bind]; split; try done.
    + split; [done|]. intros (buf' & k' & ops' & (b1 & c1 & body1 & Hh & Es1 & Hb1 & _ & <-) & Hbad).
      rewrite Ehead in Hh. injection Hh as <-. rewrite Es in Es1. injection Es1 as <- <- <-.
      rewrite Eb in Hb1. injection Hb1 as <-. by apply Hw in Hbad.
    + intros r' self' [= <- <-]. destruct Hw as [_ Hw]. destruct r as [[]|e]; [|left; by intros (? & _)].
      destruct Hw as (payload & Hs & Hc). by apply (Hdone payload).
    + split; [|done]. intros _. by exists buf, k, (body_ops body).
Qed.
End Sending.

(** ** Concrete requests *)
Module Sample.
Export HttpWriter.Sample.

(** A buffered connection that passes on what does not fit. *)
Record Staged := { inner : bytes; store : bytes; used : nat }.
Definition staged_used (self : Staged) : nat := Nat.min (used self) (length (store self)).
#[export] Instance staged_sink : Sink Staged := {
  sink_write_all d self :=
    (Ok tt, if (staged_used self + length d <=? length (store self))%nat
            then {| inner := inner self; store := take (staged_used self) (store self) ++ d ++ drop (staged_used self + length d) (store self);
                    used := staged_used self + length d |}
            else {| inner := inner self ++ take (staged_used self) (store self) ++ d; store := store self; used := 0 |});
  sink_flush self :=
    (Ok tt, {| inner := inner self ++ take (staged_used self) (store self); store := store self; used := 0 |})
}.
#[export] Instance staged_laws : SinkLaws Staged.
Proof.
  refine {| sent := fun self => inner self ++ take (staged_used self) (store self) |}.
  - intros d c c'. cbn [sink_write_all staged_sink]. intros E. injection E as <-.
    destruct (Nat.leb_spec (staged_used c + length d) (length (store c))) as [Hle|Hgt].
    + cbn [inner store]. rewrite <- app_assoc. f_equal.
      rewrite (app_assoc (take _ _)). rewrite take_app_length'; [done|].
      unfold staged_used at 1. cbn [store used]. unfold staged_used in *. rewrite !length_app, length_drop, length_take. lia.
    + unfold staged_used at 1. cbn. by rewrite app_nil_r, <- app_assoc.
  - intros c c'. cbn [sink_flush staged_sink]. intros E. injection E as <-. unfold staged_used at 1. cbn. by rewrite app_nil_r.
Defined.
Lemma staged_reliable : Reliable Staged.
Proof. split; intros; by eexists. Qed.
#[export] Instance staged_write : BufferedWrite bytes Staged := {
  bf_new conn buf := {| inner := conn; store := buf; used := 0 |};
  bf_split self := (inner self, store self, staged_used self);
  bf_rejoin conn buf self := {| inner := conn; store := buf; used := used self |};
  bf_clear self := {| inner := inner self; store := store self; used := 0 |}
}.
#[export] Instance staged_write_laws : BufferedWriteLaws bytes Staged.
Proof.
  split; cbn.
  - intros b c buf k [= <- <- <-]. split; [done|]. unfold staged_used. lia.
  - intros c buf b. by rewrite app_nil_r.
Defined.
#[export] Instance no_base64 : Base64 := fun _ _ => None.

(** A body of unknown length, in pieces. *)
Record Pieces := { body_pieces : list bytes }.
#[export] Instance pieces_body : RequestBody Pieces := {
  body_len _ := None;
  body_ops self := WriteAll <$> body_pieces self
}.
Definition connection := HttpConnection bytes Staged bytes.
Definition upload : Request Pieces :=
  with_accept TextPlain (with_body {| body_pieces := [lit "PART1"; lit "PART2"] |} (with_host (lit "host") (Request_post (lit "/")))).
Definition upload_head : bytes :=
  mjoin (crlf <$> [lit "POST / HTTP/1.1"; lit "Host: host"; lit "Accept: text/plain"; lit "Transfer-Encoding: chunked"; []]).

Example upload_plain :
  (sent (SinkLaws := conn_laws) <$> (snd <$> write_request upload (Plain [] : connection))) =
  Some (upload_head ++ mjoin (crlf <$> [lit "5"; lit "PART1"; lit "5"; lit "PART2"; lit "0"; []])).
Proof. vm_compute. reflexivity. Qed.
Definition buffered_start : connection := into_buffered (replicate 128 0) (Plain []).
Example upload_buffered :
  (sent (SinkLaws := conn_laws) <$> (snd <$> write_request upload buffered_start)) =
  Some (upload_head ++ mjoin (crlf <$> [lit "a"; lit "PART1PART2"; lit "0"; []])).
Proof. vm_compute. reflexivity. Qed.

(** The path of a resource is taken below its base path. *)
Example resource_target :
  target (with_base_path (lit "/base/") (Request_get (lit "item"))) = lit "/base/item".
Proof. vm_compute. reflexivity. Qed.

(** The buffer after the head of [upload]. *)
Definition after_head : result HttpError unit * connection := write_header upload buffered_start.
Definition room_left (r : result HttpError unit * connection) : bool :=
  match r.2 with
  | PlainBuffered b => let '(_, buf, k) := bf_split b in bool_decide (length buf = 128%nat /\ (length buf - k)%nat = 49%nat)
  | _ => false
  end.
Lemma after_head_room : room_left after_head = true.
Proof. vm_compute. reflexivity. Qed.
Lemma upload_buffer buf k ops : ChunksFollow upload buffered_start buf k ops ->
  6 <= zlen buf < 2 ^ 32 /\ (length buf - k)%nat = 49%nat.
Proof.
  intros (b & c & body & Hw & Hs & _). pose proof after_head_room as Hr.
  assert (after_head = (Ok tt, PlainBuffered b)) as Hw' by exact Hw. rewrite Hw' in Hr.
  unfold room_left in Hr. cbn [snd] in Hr. rewrite Hs in Hr. apply bool_decide_eq_true in Hr as [Hl Hk].
  split; [unfold zlen; rewrite Hl; split; [discriminate | reflexivity] | exact Hk].
Qed.
Lemma upload_small body : rq_body upload = Some body ->
  SmallWrites (body_ops body) /\ zlen (body_data (body_ops body)) < 2 ^ 32.
Proof. intros [= <-]. split; [repeat constructor | reflexivity]. Qed.

Example request_sent_witness :
  exists self' payload, write_request upload buffered_start = Some (Ok tt, self') /\
    sent self' = upload_head ++ payload /\ Chunks [] (payload ++ []) (lit "PART1PART2").
Proof.
  destruct (request_sent upload buffered_start (fun buf k ops Hf => proj1 (upload_buffer buf k ops Hf)) upload_small) as [Hpanic Hr].
  destruct (write_request upload buffered_start) as [[r self']|] eqn:E.
  - specialize (Hr r self' eq_refl). destruct r as [[]|e].
    + destruct Hr as (fields & payload & [= <-] & Hs & Hp). exists self', payload. split; [reflexivity|]. split; [exact Hs | exact (Hp [])].
    + exfalso. destruct Hr as [Hr | [[_ Hr] | [_ (body & Hb & Hl)]]]; [| discriminate Hr |].
      * apply Hr. split; [apply collect_reliable|]. split; [apply staged_reliable | apply collect_reliable].
      * injection Hb as <-. vm_compute in E. discriminate E.
  - exfalso. destruct (proj1 Hpanic eq_refl) as (buf & k & ops & Hf & H3 & _).
    apply upload_buffer in Hf as [_ Hk]. rewrite Hk in H3. discriminate H3.
Defined.
End Sample.
