(* ===== verification/HttpClient.v ===== *)
(** * The HTTP client over the network

    [HttpClient] of [tools/reqwless/src/client.rs]: opening a connection for a
    URL and making a request; and the requests of the download in
    [firmware/src/ota/flash_write.rs] made with it, which is the HTTP client
    that [OtaFlash] assumes. The [nourl] crate, DNS, TCP and the TLS handshake
    are interfaces. *)
From S2P Require Import Prelude Str Heapless OtaUrl OtaManifest OtaCrypto OtaFlash HttpBody HttpResponse HttpWriter HttpRequest.

(** ** URLs and the network *)

Record Url := { is_https : bool; url_host : bytes; port_or_default : Z; url_path : bytes }.
(** [nourl::Url::parse]. *)
Class Nourl := url_parse : bytes -> option Url.

(** [TlsVerify] and [TlsConfig] of the client; [seed] seeds its generator. *)
Inductive ClientVerify :=
| NoVerify
| Psk (identity psk : bytes)
| Certificate (ca : bytes) (cert key : option bytes) (rsa_verifier : bool).
Record TlsConfig := { seed : Z; read_buffer : bytes; write_buffer : bytes; verify : ClientVerify }.

(** What a handshake is opened with ([TlsContext]). *)
Record TlsContext := {
  server_name : bytes;
  rng_seed : Z;
  pre_shared_key : option (bytes * bytes);
  cert_verifier : option (bytes * bool);
  client_key : option bytes;
  client_cert : option bytes
}.

Class NetStack (N P T : Type) := {
  get_host_by_name : bytes -> N -> option Z * N;
  tcp_connect : Z -> Z -> N -> result ErrorKind P * N;
  tls_open : P -> bytes -> bytes -> TlsContext -> option T
}.

Definition tls_context (tls : TlsConfig) (host : bytes) : TlsContext :=
  match verify tls with
  | NoVerify => {| server_name := host; rng_seed := seed tls; pre_shared_key := None; cert_verifier := None;
                   client_key := None; client_cert := None |}
  | Psk identity psk => {| server_name := host; rng_seed := seed tls; pre_shared_key := Some (identity, psk);
                           cert_verifier := None; client_key := None; client_cert := None |}
  | Certificate ca cert key rsa_verifier =>
      {| server_name := host; rng_seed := seed tls; pre_shared_key := None; cert_verifier := Some (ca, rsa_verifier);
         client_key := key; client_cert := cert |}
  end.

Section Client.
Context {N P B T : Type} `{NetStack N P T} `{BufferedWrite P B} `{Nourl}.
#[local] Abbreviation Conn := (HttpConnection P B T).

(** [HttpClient::connect]. *)
Definition connect (tls : option TlsConfig) (url : Url) (n : N) : result HttpError Conn * N :=
  let (remote, n) := get_host_by_name (url_host url) n in
  match remote with
  | None => (Err Dns, n)
  | Some remote =>
      let (conn, n) := tcp_connect remote (port_or_default url) n in
      match conn with
      | Err e => (Err (Network e), n)
      | Ok conn =>
          (if is_https url then
             match tls with
             | Some tls =>
                 match tls_open conn (read_buffer tls) (write_buffer tls) (tls_context tls (url_host url)) with
                 | Some conn => Ok (TlsConn conn)
                 | None => Err Tls
                 end
             | None => Ok (Plain conn)
             end
           else
             match tls with
             | Some tls => Ok (PlainBuffered (bf_new conn (write_buffer tls)))
             | None => Ok (Plain conn)
             end, n)
      end
  end.

(** [HttpClient::request]. *)
Definition client_request (tls : option TlsConfig) (method : Method) (url : bytes) (n : N)
  : result HttpError (HttpRequestHandle (P := P) (B := B) (T := T) unit) * N :=
  match url_parse url with
  | None => (Err InvalidUrl, n)
  | Some url =>
      let (conn, n) := connect tls url n in
      (conn ← conn; Ok {| hr_conn := conn; hr_request := Some (with_host (url_host url) (Request_new method (url_path url))) |}, n)
  end.
Definition client_resource (tls : option TlsConfig) (resource_url : bytes) (n : N)
  : result HttpError (HttpResource (P := P) (B := B) (T := T)) * N :=
  match url_parse resource_url with
  | None => (Err InvalidUrl, n)
  | Some url =>
      let (conn, n) := connect tls url n in
      (conn ← conn; Ok {| rs_conn := conn; rs_host := url_host url; rs_base_path := url_path url |}, n)
  end.
End Client.

(** ** The requests of a download *)

(** What else the download needs of its surroundings: the seed it draws and
    the flag of the shared TLS buffers. *)
Class Surroundings (N : Type) := {
  ota_tls_seed : N -> Z * N;
  workspace_in_use : N -> bool * N
}.
Definition OTA_HTTP_HEADERS : list (bytes * bytes) := [
  (lit "User-Agent", lit "motonet-of-things-esp32-ota");
  (lit "Accept", lit "application/octet-stream");
  (lit "Connection", lit "close")].
Definition HTTP_HEADER_BUF_SIZE : Z := 8 * 1024.

Section Download.
Context {N P B T : Type} `{NetStack N P T} `{BufferedWrite P B} `{Nourl} `{Surroundings N}.
Context `{Sink P} `{Sink B} `{Sink T} `{Reads P} `{Reads B} `{RawBody T} `{Hex} `{Base64}.
Context {V : Type -> nat -> Type} `{FixedVec V} `{HttpParse}.
(** The two TLS buffers and the buffer of response heads. *)
Context (tls_read_buf tls_write_buf http_header_buf : bytes).
#[local] Abbreviation Conn := (HttpConnection P B T).

Definition client_verify (tls : TlsVerify) : ClientVerify :=
  match tls with
  | VerifyNone => NoVerify
  | VerifyCertificate ca => Certificate ca None None true
  end.
Definition client_config (tls : option TlsVerify) (n : N) : option TlsConfig * N :=
  match tls with
  | None => (None, n)
  | Some tls =>
      let (seed, n) := ota_tls_seed n in
      (Some {| seed := seed; read_buffer := tls_read_buf; write_buffer := tls_write_buf; verify := client_verify tls |}, n)
  end.
(** A request without a body: sending it cannot panic. *)
Definition ota_get (url : bytes) (tls : option TlsVerify) (n : N)
  : option (Response (BodyReader (BufferingReader Conn))) * N :=
  let (config, n) := client_config tls n in
  let (request, n) := client_request config GET url n in
  match request with
  | Err _ => (None, n)
  | Ok handle =>
      let handle := {| hr_conn := hr_conn _ handle; hr_request := with_headers OTA_HTTP_HEADERS <$> hr_request _ handle |} in
      (match handle_send http_header_buf handle with
       | Some (Ok response, _) => Some (ota_response response)
       | _ => None
       end, n)
  end.
Definition ota_client : HttpClient N (BodyReader (BufferingReader Conn)) := {|
  http_get := ota_get;
  tls_in_use := workspace_in_use |}.
End Download.

(** ** What arrives *)

(** A connection without a buffer of its own yields [rest] in order. *)
Class ReadsLaws (C : Type) `{Reads C} := {
  rest : C -> bytes;
  reads_some n c : (0 < n)%nat -> rest c <> [] -> exists a c', read_from n c = (Ok a, c') /\
    a <> [] /\ (length a <= n)%nat /\ rest c = a ++ rest c';
  reads_nothing n c : n = 0%nat \/ rest c = [] -> exists r c', read_from n c = (r, c') /\ at_end r /\ rest c' = rest c
}.
(** So does an encrypted one, which has a buffer. *)
Class TlsReadLaws (T : Type) `{RawBody T} := {
  tls_rest : T -> bytes;
  tls_some n c : (0 < n)%nat -> tls_rest c <> [] -> exists a c', raw_read n c = (Ok a, c') /\
    a <> [] /\ (length a <= n)%nat /\ tls_rest c = a ++ tls_rest c';
  tls_nothing n c : n = 0%nat \/ tls_rest c = [] -> exists r c', raw_read n c = (r, c') /\ at_end r /\ tls_rest c' = tls_rest c;
  tls_fill c : exists r c', raw_fill c = (r, c') /\ tls_rest c' = tls_rest c /\
    match r with
    | Ok a => (a = [] <-> tls_rest c = []) /\ a `prefix_of` tls_rest c /\
        forall n, (n <= length a)%nat -> tls_rest (raw_consume n c') = drop n (tls_rest c)
    | Err _ => tls_rest c = []
    end
}.

Section Reading.
Context {P B T : Type} `{Sink P} `{Sink B} `{Sink T} `{ReadsLaws P} `{ReadsLaws B} `{TlsReadLaws T}.
#[local] Abbreviation Conn := (HttpConnection P B T).

Definition conn_rest (c : Conn) : bytes :=
  match c with Plain c => rest c | PlainBuffered c => rest c | TlsConn c => tls_rest c end.
Definition conn_buffered (c : Conn) : bool := match c with TlsConn _ => true | _ => false end.
#[export] Instance conn_read_laws : ConnectionLaws Conn.
Proof.
  refine {| incoming := conn_rest; buffered := conn_buffered |}; intros; destruct c as [c|c|c];
    cbn [conn_read try_fill_buf try_consume conn_connection on_conn conn_rest conn_buffered] in *; try done.
  - destruct (reads_some n c) as (a & c' & -> & ?); [done..|]. exists a, (Plain c'). naive_solver.
  - destruct (reads_some n c) as (a & c' & -> & ?); [done..|]. exists a, (PlainBuffered c'). naive_solver.
  - destruct (tls_some n c) as (a & c' & -> & ?); [done..|]. exists a, (TlsConn c'). naive_solver.
  - destruct (reads_nothing n c) as (r & c' & -> & ?); [done|]. exists r, (Plain c'). naive_solver.
  - destruct (reads_nothing n c) as (r & c' & -> & ?); [done|]. exists r, (PlainBuffered c'). naive_solver.
  - destruct (tls_nothing n c) as (r & c' & -> & ?); [done|]. exists r, (TlsConn c'). naive_solver.
  - by eexists.
  - by eexists.
  - destruct (tls_fill c) as (r & c' & -> & Hr & Hres). exists r, (TlsConn c'). cbn. split_and!; [done..|].
    destruct r; naive_solver.
Defined.
End Reading.

(** ** A download over the network *)
Section Fetching.
Context {N P B T : Type} `{NetStack N P T} `{BufferedWriteLaws P B} `{SinkLaws T} `{Nourl} `{Surroundings N}.
Context `{ReadsLaws P} `{ReadsLaws B} `{TlsReadLaws T} `{HexLaws} `{Base64}.
Context {V : Type -> nat -> Type} `{FixedVecLaws V} `{HttpParseLaws}.
Context (tls_read_buf tls_write_buf http_header_buf : bytes).
#[local] Abbreviation Conn := (HttpConnection P B T).
#[local] Abbreviation get := (ota_get (V := V) (P := P) (B := B) (T := T) tls_read_buf tls_write_buf http_header_buf).

(** The request a URL is asked for with. *)
Definition ota_request (url : Url) : Request unit :=
  with_headers OTA_HTTP_HEADERS (with_host (url_host url) (Request_new GET (url_path url))).

(** What becomes of an encrypted connection by writing to it. *)
Inductive Written (t : T) : T -> Prop :=
| written_refl : Written t t
| written_data t1 d r t2 : Written t t1 -> sink_write_all d t1 = (r, t2) -> Written t t2
| written_flush t1 r t2 : Written t t1 -> sink_flush t1 = (r, t2) -> Written t t2.
Lemma written_trans t t1 t2 : Written t t1 -> Written t1 t2 -> Written t t2.
Proof. intros Hb Ha. induction Ha; [done | by eapply written_data | by eapply written_flush]. Qed.

(** Such a connection stays one, and is only written to. *)
Definition Keeps (m : Cn Conn unit) : Prop := forall t, exists t', (m (TlsConn t)).2 = TlsConn t' /\ Written t t'.
Lemma keeps_str data : Keeps (write_str data).
Proof.
  intros t. unfold write_str. cbn. destruct (sink_write_all data t) as [r t'] eqn:E. exists t'. split; [done|].
  eapply written_data; [apply written_refl | exact E].
Qed.
Lemma keeps_then m m' : Keeps m -> Keeps m' -> Keeps (m;; m').
Proof.
  intros Hm Hm' t. destruct (Hm t) as (t1 & E & Hw). unfold mbind, Cn_bind.
  destruct (m (TlsConn t)) as [[a|e] c]; cbn in E; subst c.
  - destruct (Hm' t1) as (t2 & E2 & Hw2). exists t2. split; [exact E2 | by eapply written_trans].
  - by exists t1.
Qed.
Lemma keeps_ret : Keeps (mret tt).
Proof. intros t. exists t. split; [done | apply written_refl]. Qed.
Lemma head_keeps (url : Url) : Keeps (write_header (ota_request url)).
Proof.
  unfold write_header, ota_request, when_some, write_field.
  cbn [with_headers with_host Request_new rq_method base_path rq_path auth host rq_body rq_content_type accept extra_headers
    write_fields OTA_HTTP_HEADERS].
  unfold write_field. repeat first [apply keeps_then | apply keeps_str | apply keeps_ret].
Qed.

(** A request without a body that the connection takes. *)
Lemma send_get (url : Url) (t : T) : AllReliable (P := P) (B := B) (T := T) ->
  exists t1 t2, write_request (ota_request url) (TlsConn t : Conn) = Some (Ok tt, TlsConn t1) /\
    sink_flush (TlsConn t1 : Conn) = (Ok tt, TlsConn t2) /\ Written t t2 /\ sent t2 = sent t ++ head_text (ota_request url) [].
Proof.
  intros Hall. pose proof (write_header_spec (C := Conn) (ota_request url)) as Hw. cbn [ota_request auth_fields] in Hw.
  specialize (Hw (TlsConn t)). destruct (head_keeps url t) as (t1 & Ek & Hkept). unfold write_request.
  destruct (write_header _ (TlsConn t)) as [[[]|e] self']; cbn in Ek; subst self'.
  - destruct Hall as (_ & _ & Ht). destruct (proj2 Ht t1) as [t2 E]. exists t1, t2. split; [done|]. cbn. rewrite E.
    split; [done|]. split; [by eapply written_flush|]. rewrite (flush_sent _ _ E). exact Hw.
  - exfalso. by apply Hw, conn_reliable.
Qed.

(** A server behind TLS: the URL resolves and connects, the handshake that
    pins the certificate of [v] succeeds, and whoever sends the request for the
    URL gets [head] and then [raw]. *)
Record Answers (url : bytes) (v : TlsVerify) (n : N) (head raw : bytes) (n' : N) : Prop := {
  an_https : starts_with (lit "https://") url = true;
  an_reaches : exists u seed n1 remote n2 p t, url_parse url = Some u /\ is_https u = true /\
    ota_tls_seed n = (seed, n1) /\ get_host_by_name (url_host u) n1 = (Some remote, n2) /\
    tcp_connect remote (port_or_default u) n2 = (Ok p, n') /\
    tls_open p tls_read_buf tls_write_buf (tls_context {| seed := seed; read_buffer := tls_read_buf;
      write_buffer := tls_write_buf; verify := client_verify v |} (url_host u)) = Some t /\
    forall t', Written t t' -> sent t' = sent t ++ head_text (ota_request u) [] -> tls_rest t' = head ++ raw
}.

Lemma get_answered url v n head raw n' code headers (k : Known V) : AllReliable (P := P) (B := B) (T := T) ->
  Answers url v n head raw n' -> parse head = Complete (length head) code headers ->
  (length head <= length http_header_buf)%nat -> accepts code headers = Ok (k, Some (zlen raw)) ->
  exists r, get url (Some v) n = (Some r, n') /\ status r = code /\ content_length r = Some (zlen raw) /\
    transfer_encoding_chunked r = chunked_encoding k /\ delivers (body r) raw.
Proof.
  intros Hall [_ (u & seed & n1 & remote & n2 & p & t & Eu & Eh & Es & Ed & Ec & Et & Hserver)] Hp Hfit Hk.
  unfold ota_get, client_config. rewrite Es. unfold client_request. rewrite Eu. unfold connect. rewrite Ed, Ec, Eh.
  cbn [read_buffer write_buffer]. rewrite Et. cbn [mbind result_bind hr_conn hr_request fmap option_fmap option_map].
  change (with_headers OTA_HTTP_HEADERS (with_host (url_host u) (Request_new GET (url_path u)))) with (ota_request u).
  destruct (send_get u t Hall) as (t1 & t2 & E1 & E2 & Hw & Hs).
  unfold handle_send, send. cbn [hr_conn hr_request]. rewrite E1. cbn [mbind option_bind]. rewrite E2.
  change (rq_method (ota_request u)) with GET.
  assert (incoming (TlsConn t2 : Conn) = head ++ raw) as Hin by exact (Hserver t2 Hw Hs).
  destruct (read_response (TlsConn t2 : Conn) GET http_header_buf head raw code headers Hp Hfit Hin)
    as (res & c' & E & Hres).
  rewrite E. cbn [mbind option_bind]. rewrite Hk in Hres. destruct (Hres ltac:(lia)) as (r & -> & Hst & Hkn & Hl & _ & Hd).
  exists (ota_response r). split; [done|]. cbn [ota_response status content_length transfer_encoding_chunked body].
  rewrite Hkn, Hl. split_and!; try done. apply Hd. by split.
Qed.
End Fetching.

(** ** The update, from the connection to the slot *)
Section Update.
Context {N P B T : Type} `{NetStack N P T} `{BufferedWriteLaws P B} `{SinkLaws T} `{Nourl} `{Surroundings N}.
Context `{ReadsLaws P} `{ReadsLaws B} `{TlsReadLaws T} `{HexLaws} `{Base64}.
Context {V : Type -> nat -> Type} `{FixedVecLaws V} `{HttpParseLaws}.
Context {D : Type} `{OtaDeviceLaws D} `{Sha256Laws} `{AesCtrLaws}.
Context (tls_read_buf tls_write_buf http_header_buf : bytes).
Context (allow_invalid_ca : bool) (ca_github ca_asset : bytes).
Context (m : OtaManifest) (nonce hmac_key aes_key manifest_digest image : bytes).
Context (Hsize : 1 <= image_size m < 2 ^ 32) (Himage : Z.of_nat (length image) = image_size m).
Context (Hkey : length hmac_key = 32%nat).
Context (Hwrites : forall o bs (d : D), 0 <= o -> o + Z.of_nat (length bs) <= partition_size d ->
  exists d', region_write o bs d = (Ok tt, d')).
Context (Hprefix : 8 <= image_size m -> validate_esp_image_prefix image = Ok tt).
#[local] Abbreviation stream := (pack nonce hmac_key aes_key manifest_digest image (image_size m)).
#[local] Abbreviation Reader := (BodyReader (BufferingReader (HttpConnection P B T))).
#[local] Instance client : HttpClient N Reader :=
  ota_client (V := V) tls_read_buf tls_write_buf http_header_buf.

(** C6: the download works over the real client: when the TLS buffers are free
    and a server, reached over TLS with the certificate the URL must have,
    answers the request for the manifest's URL with a head for status 200 and
    the right length, without a chunked encoding, and then the stream the
    packing tool makes of the image, then [fetch_and_process_encrypted] succeeds,
    however the connection cuts the answer up, and exactly the image is at the
    start of the slot. *)
Theorem update_over_https (n n1 n' : N) (head : bytes) headers (k : Known V) (d : D)
    (Hall : AllReliable (P := P) (B := B) (T := T))
    (Hurl : Z.of_nat (length (url m)) <= MAX_REDIRECT_URL_LEN)
    (Hfree : workspace_in_use n = (false, n1))
    (Hserver : Answers (P := P) (T := T) tls_read_buf tls_write_buf (url m)
      (ota_tls_verify_for_url allow_invalid_ca ca_github ca_asset (url m)) n1 head stream n')
    (Hhead : parse head = Complete (length head) 200 headers) (Hfit : (length head <= length http_header_buf)%nat)
    (Hknown : accepts 200 headers = Ok (k, Some (download_size m))) (Hplain : chunked_encoding k = false)
    (Hlength : download_size m = zlen stream) (Hslot : image_size m <= partition_size d) :
  exists x d', fetch_and_process_encrypted (D := D) (N := N) (R := Reader) allow_invalid_ca ca_github ca_asset m nonce hmac_key aes_key manifest_digest (n, d) =
      Some (Ok x, (n', d')) /\
    take (length image) (slot d') = image /\ total_plaintext x = image_size m /\ digest x = sha256 image.
Proof.
  rewrite Hlength in Hknown.
  destruct (get_answered (V := V) tls_read_buf tls_write_buf http_header_buf (url m) _ n1 head stream n' 200 headers k Hall
    Hserver Hhead Hfit Hknown) as (r & Er & Hst & Hl & Hc & Hd).
  destruct (packed_stream_accepted nonce hmac_key aes_key manifest_digest image (image_size m) Hsize Himage Hkey
    Hwrites Hprefix (body r) d [] ltac:(by rewrite app_nil_r) Hslot) as (x & r' & d' & Hrun & Himg & Hn & Hx).
  exists x, d'. split; [|by split_and!].
  assert (send_request (D := D) (N := N) (R := Reader) allow_invalid_ca ca_github ca_asset (url m) n = Some (Ok r, n')) as Hsend.
  { unfold send_request, tls_for_url. rewrite (an_https _ _ _ _ _ _ _ _ Hserver).
    unfold mbind, M_bind, mret, M_ret, get_response. change TLS_WORKSPACE_WAIT_ATTEMPTS with (S 249).
    cbn [acquire_ota_tls_workspace tls_in_use client ota_client]. rewrite Hfree.
    cbn [http_get client ota_client]. rewrite Er. done. }
  unfold fetch_and_process_encrypted, ensure, lift. rewrite (proj2 (Z.leb_le _ _) Hurl). cbn [guard_ok].
  change (Z.to_nat (MAX_REDIRECTS + 1)) with (S (Z.to_nat MAX_REDIRECTS)).
  unfold mbind at 1, M_bind at 1. cbn [fetch_loop]. unfold mbind at 1, M_bind at 1, on_fst. rewrite Hsend, Hst.
  change (is_redirection 200) with false. cbn iota. unfold mbind, M_bind, lift, validate_response_metadata, on_snd.
  rewrite Hst, Hl, Hc, Hplain, Hlength, Z.eqb_refl. cbn. rewrite Z.eqb_refl. cbn. rewrite Hrun. done.
Qed.
End Update.

(** ** A concrete server *)
Module Sample.
Export HttpRequest.Sample HttpResponse.ImageSample.

#[export] Instance split_url : Nourl := fun url =>
  rest ← strip_prefix (lit "https://") url;
  '(host, path) ← split_once 47 rest;
  Some {| is_https := true; url_host := host; port_or_default := 443; url_path := 47 :: path |}.
Definition image_url : Url := {|
  is_https := true; url_host := lit "github.com"; port_or_default := 443; url_path := lit "/LVK-96/fw.bin" |}.
Definition request_text : bytes := head_text (ota_request image_url) [].
Definition answer : bytes := image_head ++ packed.

(** A session whose peer answers one request. *)
Record Session := { session_sent : bytes; session_rest : bytes }.
Definition after_sending (text : bytes) : Session :=
  {| session_sent := text; session_rest := if bool_decide (text = request_text) then answer else [] |}.
#[export] Instance session_sink : Sink Session := {
  sink_write_all d self := (Ok tt, after_sending (session_sent self ++ d));
  sink_flush self := (Ok tt, self)
}.
#[export] Instance session_laws : SinkLaws Session.
Proof. refine {| sent := session_sent |}; cbn; [by intros d c c' [= <-] | by intros c c' [= <-]]. Defined.
Lemma session_reliable : Reliable Session.
Proof. split; intros; by eexists. Qed.
#[export] Instance session_body : RawBody Session := {
  raw_read n self := (Ok (take (Nat.min 7 n) (session_rest self)),
    {| session_sent := session_sent self; session_rest := drop (Nat.min 7 n) (session_rest self) |});
  raw_fill self := (Ok (take 7 (session_rest self)), self);
  raw_consume n self := {| session_sent := session_sent self; session_rest := drop n (session_rest self) |}
}.
#[export] Instance session_reads : TlsReadLaws Session.
Proof.
  refine {| tls_rest := session_rest |}; cbn [raw_read raw_fill raw_consume session_body session_rest].
  - intros n c Hn Hc. do 2 eexists. split; [done|]. cbn [session_rest]. rewrite take_drop, length_take.
    split_and!; [|lia|done]. destruct (session_rest c); [done|]. by destruct n; [lia|].
  - intros n c Hn. do 2 eexists. split; [done|]. cbn [at_end session_rest].
    destruct Hn as [-> | E]; [by split | by rewrite E, take_nil, drop_nil].
  - intros c. do 2 eexists. split; [done|]. split; [done|]. split_and!.
    + destruct (session_rest c); split; by intros.
    + exists (drop 7 (session_rest c)). by rewrite take_drop.
    + done.
Defined.

(** Nothing is read from the other connections here. *)
#[export] Instance reads_bytes : Reads bytes := fun _ c => (Ok [], c).
#[export] Instance reads_bytes_laws : ReadsLaws bytes.
Proof. refine {| rest := fun _ => [] |}; [done|]. intros n c _. by exists (Ok []), c. Defined.
#[export] Instance reads_staged : Reads Staged := fun _ c => (Ok [], c).
#[export] Instance reads_staged_laws : ReadsLaws Staged.
Proof. refine {| rest := fun _ => [] |}; [done|]. intros n c _. by exists (Ok []), c. Defined.

(** The handshake succeeds with the certificate of the first host only. *)
#[export] Instance one_server : NetStack unit bytes Session := {
  get_host_by_name _ n := (Some 1, n);
  tcp_connect _ _ n := (Ok [], n);
  tls_open _ _ _ context :=
    if bool_decide (cert_verifier context = Some ([1], true) /\ server_name context = lit "github.com")
    then Some (after_sending []) else None
}.
#[export] Instance quiet : Surroundings unit := { ota_tls_seed n := (42, n); workspace_in_use n := (false, n) }.

Lemma all_reliable : AllReliable (P := bytes) (B := Staged) (T := Session).
Proof. split; [apply collect_reliable|]. split; [apply staged_reliable | apply session_reliable]. Qed.
Lemma written_rest t' : Written (after_sending []) t' -> session_rest t' = if bool_decide (session_sent t' = request_text) then answer else [].
Proof.
  induction 1 as [|t1 d r t2 _ IH E|t1 r t2 _ IH E]; [done | |]; cbn in E; injection E as _ <-; [done | exact IH].
Qed.
Lemma url_parsed : url_parse (url small) = Some image_url.
Proof. vm_compute. reflexivity. Qed.
Lemma url_secure : starts_with (lit "https://") (url small) = true.
Proof. vm_compute. reflexivity. Qed.
Lemma verified : ota_tls_verify_for_url false [1] [2] (url small) = VerifyCertificate [1].
Proof. vm_compute. reflexivity. Qed.
Lemma server_answers : Answers (P := bytes) (T := Session) [] [] (url small)
  (ota_tls_verify_for_url false [1] [2] (url small)) tt image_head packed tt.
Proof.
  split; [exact url_secure|]. rewrite verified. exists image_url, 42, tt, 1, tt, [], (after_sending []).
  split; [exact url_parsed|]. split_and!; try reflexivity. intros t' Hw Hs. change (session_rest t' = image_head ++ packed).
  rewrite (written_rest t' Hw), bool_decide_eq_true_2; [reflexivity | exact Hs].
Qed.
Lemma small_url_fits : Z.of_nat (length (url small)) <= MAX_REDIRECT_URL_LEN.
Proof. vm_compute. discriminate. Qed.
Lemma small_length : download_size small = zlen packed.
Proof. vm_compute. reflexivity. Qed.

Lemma buffers_free : workspace_in_use tt = (false, tt).
Proof. reflexivity. Qed.

Example update_over_https_witness :
  exists x d', fetch_and_process_encrypted (D := sim_device) (N := unit)
      (R := BodyReader (BufferingReader (HttpConnection bytes Staged Session)))
      (H1 := ota_client (V := bounded) [] [] (replicate 64 0))
      false [1] [2] small nonce (derive_subkeys master 7).2 (derive_subkeys master 7).1 digest (tt, blank) =
    Some (Ok x, (tt, d')) /\ take 16 (contents d') = image.
Proof.
  destruct (accepts (V := bounded) 200 image_headers) as [[k [n|]]|e] eqn:Ea; pose proof image_accepted as Hk;
    rewrite Ea in Hk; cbv beta iota delta [plain_length] in Hk; [|discriminate Hk..].
  apply andb_true_iff in Hk as [Hn%Z.eqb_eq Hk%negb_true_iff]. rewrite Hn, <- small_length in Ea.
  destruct (update_over_https (V := bounded) [] [] (replicate 64 0) false [1] [2] small nonce (derive_subkeys master 7).2
    (derive_subkeys master 7).1 digest image ltac:(cbn; lia) eq_refl hmac_key_length sim_writes image_prefix_ok
    tt tt tt image_head image_headers k blank all_reliable small_url_fits buffers_free server_answers
    image_head_parsed image_head_fits Ea Hk small_length blank_fits) as (x & d' & Hrun & Himg & _).
  exists x, d'. split; [exact Hrun | exact Himg].
Defined.
End Sample.
