(* ===== verification/TlsBuffer.v ===== *)
(** * Buffers of the TLS library

    [tools/embedded-tls/src]: errors ([lib.rs]), content types and alerts, the
    buffer messages are parsed from ([parse_buffer.rs]) and the one they are
    put together in ([buffer.rs]). An operation takes the old state and gives
    its result with the new state; a panic is [None]. *)
From S2P Require Import Prelude Str HttpBody.

(** ** Errors *)

Inductive ParseError := InsufficientBytes | InsufficientParseSpace | InvalidData.

Module AlertLevel.
Inductive AlertLevel := Warning | Fatal.
End AlertLevel.
Definition AlertLevel_of (num : Z) : option AlertLevel.AlertLevel :=
  if num =? 1 then Some AlertLevel.Warning else if num =? 2 then Some AlertLevel.Fatal else None.
Definition AlertLevel_as_u8 (l : AlertLevel.AlertLevel) : Z :=
  match l with AlertLevel.Warning => 1 | AlertLevel.Fatal => 2 end.

Module AlertDescription.
Inductive AlertDescription :=
| CloseNotify | UnexpectedMessage | BadRecordMac | RecordOverflow | HandshakeFailure | BadCertificate
| UnsupportedCertificate | CertificateRevoked | CertificateExpired | CertificateUnknown | IllegalParameter
| UnknownCa | AccessDenied | DecodeError | DecryptError | ProtocolVersion | InsufficientSecurity
| InternalError | InappropriateFallback | UserCanceled | MissingExtension | UnsupportedExtension
| UnrecognizedName | BadCertificateStatusResponse | UnknownPskIdentity | CertificateRequired
| NoApplicationProtocol.
#[global] Instance AlertDescription_eq_dec : EqDecision AlertDescription.
Proof. solve_decision. Defined.
End AlertDescription.

(** The numbers of the descriptions, and the lookup of [AlertDescription::of]. *)
Definition AlertDescription_as_u8 (d : AlertDescription.AlertDescription) : Z :=
  match d with
  | AlertDescription.CloseNotify => 0 | AlertDescription.UnexpectedMessage => 10
  | AlertDescription.BadRecordMac => 20 | AlertDescription.RecordOverflow => 22
  | AlertDescription.HandshakeFailure => 40 | AlertDescription.BadCertificate => 42
  | AlertDescription.UnsupportedCertificate => 43 | AlertDescription.CertificateRevoked => 44
  | AlertDescription.CertificateExpired => 45 | AlertDescription.CertificateUnknown => 46
  | AlertDescription.IllegalParameter => 47 | AlertDescription.UnknownCa => 48
  | AlertDescription.AccessDenied => 49 | AlertDescription.DecodeError => 50
  | AlertDescription.DecryptError => 51 | AlertDescription.ProtocolVersion => 70
  | AlertDescription.InsufficientSecurity => 71 | AlertDescription.InternalError => 80
  | AlertDescription.InappropriateFallback => 86 | AlertDescription.UserCanceled => 90
  | AlertDescription.MissingExtension => 109 | AlertDescription.UnsupportedExtension => 110
  | AlertDescription.UnrecognizedName => 112 | AlertDescription.BadCertificateStatusResponse => 113
  | AlertDescription.UnknownPskIdentity => 115 | AlertDescription.CertificateRequired => 116
  | AlertDescription.NoApplicationProtocol => 120
  end.
Definition AlertDescription_of (num : Z) : option AlertDescription.AlertDescription :=
  match num with
  | 0 => Some AlertDescription.CloseNotify | 10 => Some AlertDescription.UnexpectedMessage
  | 20 => Some AlertDescription.BadRecordMac | 22 => Some AlertDescription.RecordOverflow
  | 40 => Some AlertDescription.HandshakeFailure | 42 => Some AlertDescription.BadCertificate
  | 43 => Some AlertDescription.UnsupportedCertificate | 44 => Some AlertDescription.CertificateRevoked
  | 45 => Some AlertDescription.CertificateExpired | 46 => Some AlertDescription.CertificateUnknown
  | 47 => Some AlertDescription.IllegalParameter | 48 => Some AlertDescription.UnknownCa
  | 49 => Some AlertDescription.AccessDenied | 50 => Some AlertDescription.DecodeError
  | 51 => Some AlertDescription.DecryptError | 70 => Some AlertDescription.ProtocolVersion
  | 71 => Some AlertDescription.InsufficientSecurity | 80 => Some AlertDescription.InternalError
  | 86 => Some AlertDescription.InappropriateFallback | 90 => Some AlertDescription.UserCanceled
  | 109 => Some AlertDescription.MissingExtension | 110 => Some AlertDescription.UnsupportedExtension
  | 112 => Some AlertDescription.UnrecognizedName | 113 => Some AlertDescription.BadCertificateStatusResponse
  | 115 => Some AlertDescription.UnknownPskIdentity | 116 => Some AlertDescription.CertificateRequired
  | 120 => Some AlertDescription.NoApplicationProtocol
  | _ => None
  end.

Inductive TlsError :=
| ConnectionClosed | Unimplemented | MissingHandshake
| HandshakeAborted (level : AlertLevel.AlertLevel) (description : AlertDescription.AlertDescription)
| AbortHandshake (level : AlertLevel.AlertLevel) (description : AlertDescription.AlertDescription)
| IoError | InternalError | InvalidRecord | UnknownContentType | InvalidNonceLength | InvalidTicketLength
| UnknownExtensionType | InsufficientSpace | InvalidHandshake | InvalidCipherSuite | InvalidSignatureScheme
| InvalidSignature | InvalidExtensionsLength | InvalidSessionIdLength | InvalidSupportedVersions
| InvalidApplicationData | InvalidKeyShare | InvalidCertificate | InvalidCertificateEntry
| InvalidCertificateRequest | InvalidPrivateKey | UnableToInitializeCryptoEngine
| ParseErr (e : ParseError) | OutOfMemory | CryptoError | EncodeError | DecodeError | Io (kind : ErrorKind).

(** [ContentType]; [Invalid] is 0. *)
Module ContentType.
Inductive ContentType := Invalid | ChangeCipherSpec | Alert | Handshake | ApplicationData.
End ContentType.
Definition ContentType_as_u8 (t : ContentType.ContentType) : Z :=
  match t with
  | ContentType.Invalid => 0 | ContentType.ChangeCipherSpec => 20 | ContentType.Alert => 21
  | ContentType.Handshake => 22 | ContentType.ApplicationData => 23
  end.
Definition ContentType_of (num : Z) : option ContentType.ContentType :=
  match num with
  | 0 => Some ContentType.Invalid | 20 => Some ContentType.ChangeCipherSpec | 21 => Some ContentType.Alert
  | 22 => Some ContentType.Handshake | 23 => Some ContentType.ApplicationData
  | _ => None
  end.

(** ** Operations *)

(** [Op S E A]: an operation on a state [S] that fails with [E]; [None] is a
    panic. A failed operation leaves what it has done so far. *)
Definition Op (S E A : Type) : Type := S -> option (result E A * S).
#[export] Instance Op_ret {S E} : MRet (Op S E) := fun A a s => Some (Ok a, s).
#[export] Instance Op_bind {S E} : MBind (Op S E) := fun A B f m s =>
  match m s with
  | Some (Ok a, s) => f a s
  | Some (Err e, s) => Some (Err e, s)
  | None => None
  end.
Definition op_fail {S E A} (e : E) : Op S E A := fun s => Some (Err e, s).
Definition op_lift {S E A} (r : result E A) : Op S E A := fun s => Some (r, s).
Definition op_panic {S E A} : Op S E A := fun _ => None.
Definition op_get {S E} : Op S E S := fun s => Some (Ok s, s).
Definition op_modify {S E} (f : S -> S) : Op S E unit := fun s => Some (Ok tt, f s).
(** [r.map_err(f)]. *)
Definition op_map_err {S E F A} (f : E -> F) (m : Op S E A) : Op S F A := fun s =>
  '(r, s) ← m s; Some (map_err f r, s).
(** [x.ok_or(e)?] and [x.unwrap()]. *)
Definition op_ok_or {S E A} (x : option A) (e : E) : Op S E A := op_lift (ok_or x e).
Definition op_unwrap {S E A} (x : option A) : Op S E A := fun s => a ← x; Some (Ok a, s).

(** What runs after what has succeeded or failed. *)
Lemma op_then {S E A B} (m : Op S E A) (f : A -> Op S E B) s a s' : m s = Some (Ok a, s') -> (x ← m; f x) s = f a s'.
Proof. unfold mbind, Op_bind. by intros ->. Qed.
Lemma op_stop {S E A B} (m : Op S E A) (f : A -> Op S E B) s e s' : m s = Some (Err e, s') -> (x ← m; f x) s = Some (Err e, s').
Proof. unfold mbind, Op_bind. by intros ->. Qed.

(** [buf[at..at + n]]; a range outside the buffer panics. *)
Definition range (at_ n : nat) (buf : bytes) : option bytes :=
  if (at_ + n <=? length buf)%nat then Some (take n (drop at_ buf)) else None.
(** [buf[at..at + data.len()].copy_from_slice(data)]. *)
Definition overwrite (at_ : nat) (data buf : bytes) : option bytes :=
  if (at_ + length data <=? length buf)%nat then
    Some (take at_ buf ++ data ++ drop (at_ + length data) buf)
  else None.

(** ** Parsing ([parse_buffer.rs]) *)

Record ParseBuffer := { pb_pos : nat; pb_buffer : bytes }.
Abbreviation Parse := (Op ParseBuffer).

Definition ParseBuffer_new (buffer : bytes) : ParseBuffer := {| pb_pos := 0; pb_buffer := buffer |}.
Definition pb_is_empty (self : ParseBuffer) : bool := (pb_pos self =? length (pb_buffer self))%nat.
Definition pb_remaining (self : ParseBuffer) : nat := length (pb_buffer self) - pb_pos self.
Definition pb_forward (n : nat) (self : ParseBuffer) : ParseBuffer :=
  {| pb_pos := pb_pos self + n; pb_buffer := pb_buffer self |}.
Definition pb_has (n : nat) (self : ParseBuffer) : bool := (pb_pos self + n <=? length (pb_buffer self))%nat.

(** The bytes of [ParseBuffer::slice], which become a buffer of their own. *)
Definition pb_slice (len : nat) : Parse ParseError bytes := fun self =>
  if pb_has len self then
    data ← range (pb_pos self) len (pb_buffer self); Some (Ok data, pb_forward len self)
  else Some (Err InsufficientBytes, self).
(** [read_u8], [read_u16], [read_u24] and [read_u32] for [n] bytes. *)
Definition read_uint (n : nat) : Parse ParseError Z := fun self =>
  if pb_has n self then
    data ← range (pb_pos self) n (pb_buffer self); Some (Ok (of_be_bytes data), pb_forward n self)
  else Some (Err InsufficientBytes, self).
Definition read_u8 : Parse ParseError Z := read_uint 1.
Definition read_u16 : Parse ParseError Z := read_uint 2.
Definition read_u24 : Parse ParseError Z := read_uint 3.
Definition read_u32 : Parse ParseError Z := read_uint 4.
(** [fill] of a destination of [n] bytes. *)
Definition pb_fill (n : nat) : Parse ParseError bytes := fun self =>
  if pb_has n self then
    data ← range (pb_pos self) n (pb_buffer self); Some (Ok data, pb_forward n self)
  else Some (Err InsufficientBytes, self).

(** [while !buf.is_empty() { result.push(read(buf)?) }] into a vector of
    capacity [cap]; [full] is the error of a full vector. *)
Fixpoint parse_items {E A} (fuel cap : nat) (full : E) (read : Parse E A) (acc : list A) : Parse E (list A) := fun self =>
  if pb_is_empty self then Some (Ok acc, self)
  else match fuel with
  | O => None
  | S fuel =>
      match read self with
      | Some (Ok a, self) =>
          if (length acc <? cap)%nat then parse_items fuel cap full read (acc ++ [a]) self
          else Some (Err full, self)
      | Some (Err e, self) => Some (Err e, self)
      | None => None
      end
  end.
(** [read_list]: [read] consumes at least one byte, so as many rounds as
    there are bytes are enough. *)
Definition read_list {A} (cap data_length : nat) (read : Parse ParseError A) : Parse ParseError (list A) :=
  data ← pb_slice data_length;
  (fun self =>
    '(r, _) ← parse_items data_length cap InsufficientParseSpace read [] (ParseBuffer_new data); Some (r, self))
  : Parse ParseError (list A).

(** ** Encoding ([buffer.rs]) *)

Record CryptoBuffer := { cb_buf : bytes; cb_offset : nat; cb_len : nat }.
Abbreviation Enc := (Op CryptoBuffer TlsError).

Definition cb_wrap (buf : bytes) : CryptoBuffer := {| cb_buf := buf; cb_offset := 0; cb_len := 0 |}.
Definition cb_wrap_with_pos (buf : bytes) (pos : nat) : CryptoBuffer := {| cb_buf := buf; cb_offset := 0; cb_len := pos |}.
Definition cb_capacity (self : CryptoBuffer) : nat := length (cb_buf self).
(** [offset + len <= capacity] in every buffer ([cb_ok]), so the subtractions
    do not wrap. *)
Definition cb_space (self : CryptoBuffer) : nat := cb_capacity self - (cb_offset self + cb_len self).
Definition cb_push (b : Z) : Enc unit := fun self =>
  if (0 <? cb_space self)%nat then
    buf ← overwrite (cb_offset self + cb_len self) [b] (cb_buf self);
    Some (Ok tt, {| cb_buf := buf; cb_offset := cb_offset self; cb_len := cb_len self + 1 |})
  else Some (Err InsufficientSpace, self).
Definition extend_from_slice (other : bytes) : Enc unit := fun self =>
  if (cb_space self <? length other)%nat then Some (Err InsufficientSpace, self)
  else
    buf ← overwrite (cb_offset self + cb_len self) other (cb_buf self);
    Some (Ok tt, {| cb_buf := buf; cb_offset := cb_offset self; cb_len := cb_len self + length other |}).
Definition push_u16 (num : Z) : Enc unit := extend_from_slice (be_bytes 2 num).
Definition push_u24 (num : Z) : Enc unit := extend_from_slice (be_bytes 3 num).
Definition push_u32 (num : Z) : Enc unit := extend_from_slice (be_bytes 4 num).
Definition cb_set (idx : nat) (val : Z) : Enc unit := fun self =>
  if (idx <? cb_len self)%nat then
    buf ← overwrite (cb_offset self + idx) [val] (cb_buf self);
    Some (Ok tt, {| cb_buf := buf; cb_offset := cb_offset self; cb_len := cb_len self |})
  else Some (Err InsufficientSpace, self).
(** [set_u16] and [set_u24]: byte after byte. *)
Fixpoint cb_set_all (idx : nat) (vals : bytes) : Enc unit :=
  match vals with
  | [] => mret tt
  | v :: vals => cb_set idx v;; cb_set_all (S idx) vals
  end.
Definition set_u16 (idx : nat) (val : Z) : Enc unit := cb_set_all idx (be_bytes 2 val).
Definition set_u24 (idx : nat) (val : Z) : Enc unit := cb_set_all idx (be_bytes 3 val).
Definition cb_as_slice (self : CryptoBuffer) : option bytes := range (cb_offset self) (cb_len self) (cb_buf self).
Definition cb_truncate (len : nat) (self : CryptoBuffer) : CryptoBuffer :=
  if (len <=? cb_capacity self - cb_offset self)%nat
  then {| cb_buf := cb_buf self; cb_offset := cb_offset self; cb_len := len |} else self.
Definition cb_at (offset : nat) (self : CryptoBuffer) : CryptoBuffer :=
  {| cb_buf := cb_buf self; cb_offset := offset; cb_len := cb_len self + cb_offset self - offset |}.
Definition cb_forward (self : CryptoBuffer) : CryptoBuffer := cb_at (cb_len self) self.
Definition cb_rewind (self : CryptoBuffer) : CryptoBuffer := cb_at 0 self.

(** [with_u8_length], [with_u16_length] and [with_u24_length] for [n] bytes of
    length, which are written as zero first. *)
Definition with_length (n : nat) (op : Enc unit) : Enc unit := fun self =>
  let len_pos := cb_len self in
  (extend_from_slice (replicate n 0);; (fun self =>
    let start := cb_len self in
    (op;; (fun self => cb_set_all len_pos (be_bytes n (wrap (8 * Z.of_nat n) (Z.of_nat (cb_len self - start)))) self) : Enc unit) self) : Enc unit) self.
Definition with_u8_length : Enc unit -> Enc unit := with_length 1.
Definition with_u16_length : Enc unit -> Enc unit := with_length 2.
Definition with_u24_length : Enc unit -> Enc unit := with_length 3.
Fixpoint enc_all {A} (enc : A -> Enc unit) (l : list A) : Enc unit :=
  match l with [] => mret tt | a :: l => enc a;; enc_all enc l end.

(** ** Alerts ([alert.rs]) *)

Record Alert := { al_level : AlertLevel.AlertLevel; al_description : AlertDescription.AlertDescription }.
Definition Alert_parse : Parse TlsError Alert :=
  level ← op_map_err ParseErr read_u8;
  desc ← op_map_err ParseErr read_u8;
  level ← op_ok_or (AlertLevel_of level) DecodeError;
  description ← op_ok_or (AlertDescription_of desc) DecodeError;
  mret {| al_level := level; al_description := description |}.
Definition encode_error {A} : Enc A -> Enc A := op_map_err (fun _ => EncodeError).
Definition Alert_encode (self : Alert) : Enc unit :=
  encode_error (cb_push (AlertLevel_as_u8 (al_level self)));;
  encode_error (cb_push (AlertDescription_as_u8 (al_description self))).

(** ** What parsers do *)

(** [p] reads [a] from the bytes [d], wherever they are. *)
Definition Parses {E A} (p : Parse E A) (d : bytes) (a : A) : Prop := forall pre post,
  p {| pb_pos := length pre; pb_buffer := pre ++ d ++ post |} =
  Some (Ok a, {| pb_pos := length (pre ++ d); pb_buffer := pre ++ d ++ post |}).
Definition pb_ok (s : ParseBuffer) : Prop := (pb_pos s <= length (pb_buffer s))%nat.
(** [p] ends, never panics, goes forward, and by [k] bytes when it succeeds. *)
Definition Consumes {E A} (k : nat) (p : Parse E A) : Prop := forall s, pb_ok s ->
  exists r s', p s = Some (r, s') /\ pb_buffer s' = pb_buffer s /\ pb_ok s' /\
    (pb_pos s + (if is_ok r then k else 0) <= pb_pos s')%nat.

Lemma range_some at_ n buf : (at_ + n <= length buf)%nat -> range at_ n buf = Some (take n (drop at_ buf)).
Proof. intros H. unfold range. by rewrite (proj2 (Nat.leb_le _ _) H). Qed.
Lemma range_middle pre d post : range (length pre) (length d) (pre ++ d ++ post) = Some d.
Proof. rewrite range_some by (rewrite !length_app; lia). by rewrite drop_app_length, take_app_length. Qed.

Lemma parses_ret {E A} (a : A) : Parses (E := E) (mret a) [] a.
Proof. intros pre post. by rewrite app_nil_r. Qed.
Lemma parses_bind {E A B} (p : Parse E A) (f : A -> Parse E B) d1 d2 a b :
  Parses p d1 a -> Parses (f a) d2 b -> Parses (x ← p; f x) (d1 ++ d2) b.
Proof.
  intros Hp Hf pre post. unfold mbind, Op_bind. rewrite <- app_assoc. rewrite Hp.
  specialize (Hf (pre ++ d1) post). rewrite <- !app_assoc in Hf. exact Hf.
Qed.
Lemma parses_then {E A B} (p : Parse E A) (f : A -> Parse E B) d a b :
  Parses p d a -> Parses (f a) [] b -> Parses (x ← p; f x) d b.
Proof. intros. rewrite <- (app_nil_r d). by eapply parses_bind. Qed.
Lemma parses_map_err {E F A} (g : E -> F) (p : Parse E A) d a : Parses p d a -> Parses (op_map_err g p) d a.
Proof. intros Hp pre post. unfold op_map_err. by rewrite Hp. Qed.
Lemma parses_ok_or {E A} (x : option A) (a : A) (e : E) : x = Some a -> Parses (op_ok_or x e) [] a.
Proof. intros -> pre post. by rewrite app_nil_r. Qed.
Lemma has_middle pre d post :
  pb_has (length d) {| pb_pos := length pre; pb_buffer := pre ++ d ++ post |} = true.
Proof. unfold pb_has. cbn. apply Nat.leb_le. rewrite !length_app. lia. Qed.
Lemma parses_slice d : Parses (pb_slice (length d)) d d.
Proof.
  intros pre post. unfold pb_slice. rewrite has_middle. cbn [pb_pos pb_buffer]. rewrite range_middle. cbn.
  unfold pb_forward. cbn. by rewrite length_app.
Qed.
Lemma parses_fill n d : length d = n -> Parses (pb_fill n) d d.
Proof. intros <-. exact (parses_slice d). Qed.
Lemma parses_uint n z : 0 <= z < 256 ^ Z.of_nat n -> Parses (read_uint n) (be_bytes n z) z.
Proof.
  intros Hz pre post. unfold read_uint. pose proof (has_middle pre (be_bytes n z) post) as Hh.
  pose proof (range_middle pre (be_bytes n z) post) as Hr. rewrite length_be_bytes in Hh, Hr. rewrite Hh.
  cbn [pb_pos pb_buffer]. rewrite Hr. cbn. rewrite of_be_be by done. unfold pb_forward. cbn.
  by rewrite length_app, length_be_bytes.
Qed.
(** Items one after the other up to the end of the buffer. *)
Lemma parses_items {E A} (p : Parse E A) (enc : A -> bytes) (full : E) cap l : forall fuel acc pre,
  (forall a, a ∈ l -> Parses p (enc a) a /\ enc a <> []) -> (length l <= fuel)%nat -> (length (acc ++ l) <= cap)%nat ->
  parse_items fuel cap full p acc {| pb_pos := length pre; pb_buffer := pre ++ mjoin (enc <$> l) |} =
    Some (Ok (acc ++ l), {| pb_pos := length (pre ++ mjoin (enc <$> l)); pb_buffer := pre ++ mjoin (enc <$> l) |}).
Proof.
  induction l as [|a l IH]; intros fuel acc pre Hp Hf Hc.
  - rewrite !app_nil_r. destruct fuel; cbn; unfold pb_is_empty; cbn; by rewrite Nat.eqb_refl.
  - destruct fuel as [|fuel]; [cbn in Hf; lia|]. destruct (Hp a) as [Ha Hne]; [left|]. cbn [parse_items].
    assert (pb_is_empty {| pb_pos := length pre; pb_buffer := pre ++ mjoin (enc <$> a :: l) |} = false) as ->.
    { unfold pb_is_empty. cbn [pb_pos pb_buffer]. rewrite length_app. apply Nat.eqb_neq.
      cbn. destruct (enc a) as [|x e]; [by destruct Hne|]. cbn. lia. }
    change (mjoin (enc <$> a :: l)) with (enc a ++ mjoin (enc <$> l)). rewrite Ha.
    rewrite length_app in Hc. cbn in Hc. rewrite (proj2 (Nat.ltb_lt _ _)) by lia.
    rewrite app_assoc, (IH fuel (acc ++ [a]) (pre ++ enc a)).
    + by rewrite <- (app_assoc acc).
    + intros; apply Hp; by right.
    + cbn in Hf; lia.
    + rewrite !length_app. cbn. lia.
Qed.
Lemma length_le_join {A} (enc : A -> bytes) l : (forall a, a ∈ l -> enc a <> []) ->
  (length l <= length (mjoin (enc <$> l)))%nat.
Proof.
  induction l as [|a l IH]; intros H; [done|].
  specialize (IH (fun b Hb => H b (list_elem_of_further _ _ _ Hb))). pose proof (H a (list_elem_of_here _ _)) as Ha.
  change (mjoin (enc <$> a :: l)) with (enc a ++ mjoin (enc <$> l)). rewrite length_app.
  destruct (enc a); [done|]. cbn [length]. lia.
Qed.
Lemma parses_list {A} (p : Parse ParseError A) (enc : A -> bytes) cap l :
  (forall a, a ∈ l -> Parses p (enc a) a /\ enc a <> []) -> (length l <= cap)%nat ->
  Parses (read_list cap (length (mjoin (enc <$> l))) p) (mjoin (enc <$> l)) l.
Proof.
  intros Hp Hc pre post. unfold read_list, mbind at 1, Op_bind at 1. rewrite parses_slice.
  pose proof (parses_items p enc InsufficientParseSpace cap l (length (mjoin (enc <$> l))) [] []) as Hi. cbn [length app] in Hi.
  unfold ParseBuffer_new. rewrite Hi; [done | done | | done]. apply length_le_join. intros a Ha. by apply Hp.
Qed.

Lemma consumes_weaken {E A} k k' (p : Parse E A) : (k' <= k)%nat -> Consumes k p -> Consumes k' p.
Proof.
  intros Hk Hp s Hs. destruct (Hp s Hs) as (r & s' & E1 & Eb & Ho & Hl). exists r, s'. split_and!; try done.
  destruct (is_ok r); lia.
Qed.
Lemma consumes_ret {E A} (a : A) : Consumes 0 (mret a : Parse E A).
Proof. intros s Hs. exists (Ok a), s. split_and!; [done..|cbn; lia]. Qed.
Lemma consumes_fail {E A} (e : E) k : Consumes k (op_fail e : Parse E A).
Proof. intros s Hs. exists (Err e), s. split_and!; [done..|cbn; lia]. Qed.
Lemma consumes_lift {E A} (r : result E A) : Consumes 0 (op_lift r : Parse E A).
Proof. intros s Hs. exists r, s. split_and!; [done..|destruct r; cbn; lia]. Qed.
Lemma consumes_bind {E A B} k1 k2 (p : Parse E A) (f : A -> Parse E B) :
  Consumes k1 p -> (forall a, Consumes k2 (f a)) -> Consumes (k1 + k2) (x ← p; f x).
Proof.
  intros Hp Hf s Hs. unfold mbind, Op_bind. destruct (Hp s Hs) as ([a|e] & s1 & -> & Eb & Ho & Hl); cbn in Hl.
  - destruct (Hf a s1 Ho) as (r & s2 & -> & Eb2 & Ho2 & Hl2). exists r, s2. split_and!; [done | congruence | done |].
    destruct (is_ok r); lia.
  - exists (Err e), s1. split_and!; [done..|cbn; lia].
Qed.
Lemma consumes_then {E A B} (p : Parse E A) (f : A -> Parse E B) k :
  Consumes k p -> (forall a, Consumes 0 (f a)) -> Consumes k (x ← p; f x).
Proof. intros. rewrite <- (Nat.add_0_r k). by apply consumes_bind. Qed.
Lemma consumes_first {E A B} (p : Parse E A) (f : A -> Parse E B) k :
  Consumes 0 p -> (forall a, Consumes k (f a)) -> Consumes k (x ← p; f x).
Proof. intros. apply (consumes_bind 0); done. Qed.
Lemma consumes_map_err {E F A} (g : E -> F) (p : Parse E A) k : Consumes k p -> Consumes k (op_map_err g p).
Proof.
  intros Hp s Hs. unfold op_map_err. destruct (Hp s Hs) as (r & s' & -> & ? & ? & Hl). cbn.
  exists (map_err g r), s'. split_and!; try done. by destruct r.
Qed.
Lemma consumes_block n : Consumes n (fun self : ParseBuffer => if pb_has n self then
    data ← range (pb_pos self) n (pb_buffer self); Some (Ok data, pb_forward n self)
  else Some (Err InsufficientBytes, self)).
Proof.
  intros s Hs. unfold pb_has. destruct (Nat.leb_spec (pb_pos s + n) (length (pb_buffer s))) as [H|H].
  - rewrite range_some by done. cbn. eexists _, _. split; [reflexivity|]. cbn. unfold pb_ok. cbn. split_and!; [done | lia | lia].
  - eexists _, _. split; [reflexivity|]. cbn. split_and!; [done | done | lia].
Qed.
Lemma consumes_slice n : Consumes n (pb_slice n).
Proof. exact (consumes_block n). Qed.
Lemma consumes_fill n : Consumes n (pb_fill n).
Proof. exact (consumes_block n). Qed.
Lemma consumes_uint n : Consumes n (read_uint n).
Proof.
  intros s Hs. destruct (consumes_block n s Hs) as (r & s' & E & H). unfold read_uint. destruct (pb_has n s).
  - destruct (range _ _ _); [|done]. cbn in E |- *. injection E as <- <-. by eexists _, _.
  - injection E as <- <-. by eexists _, _.
Qed.
Lemma consumes_items {E A} (p : Parse E A) cap (full : E) : Consumes 1 p -> forall fuel acc s,
  pb_ok s -> (pb_remaining s <= fuel)%nat ->
  exists r s', parse_items fuel cap full p acc s = Some (r, s') /\ pb_buffer s' = pb_buffer s /\ pb_ok s' /\ (pb_pos s <= pb_pos s')%nat.
Proof.
  intros Hp. induction fuel as [|fuel IH]; intros acc s Hs Hf; cbn [parse_items]; unfold pb_is_empty, pb_remaining, pb_ok in *.
  - rewrite (proj2 (Nat.eqb_eq _ _)) by lia. eexists _, _. split; [reflexivity|]. split_and!; [done | lia..].
  - destruct (Nat.eqb_spec (pb_pos s) (length (pb_buffer s))) as [H|H].
    { eexists _, _. split; [reflexivity|]. split_and!; [done | lia..]. }
    destruct (Hp s Hs) as ([a|e] & s1 & -> & Eb & Ho & Hl); cbn in Hl.
    + destruct (length acc <? cap)%nat; [|eexists _, _; split; [reflexivity|]; split_and!; [done | done | lia]].
      destruct (IH (acc ++ [a]) s1) as (r & s2 & -> & ? & ? & ?); [done | rewrite Eb; lia|].
      eexists _, _. split; [reflexivity|]. split_and!; [congruence | done | lia].
    + eexists _, _. split; [reflexivity|]. split_and!; [done | done | lia].
Qed.

(** ** What encoders do *)

Definition cb_ok (c : CryptoBuffer) : Prop := (cb_offset c + cb_len c <= length (cb_buf c))%nat.
(** [d] at position [p] of a buffer that is long enough. *)
Definition written (p : nat) (d buf : bytes) : bytes := take p buf ++ d ++ drop (p + length d) buf.
Definition appended (d : bytes) (c : CryptoBuffer) : CryptoBuffer :=
  {| cb_buf := written (cb_offset c + cb_len c) d (cb_buf c); cb_offset := cb_offset c; cb_len := cb_len c + length d |}.
(** [m] appends [d], or fails when there is no room for it. *)
Definition Encodes (m : Enc unit) (d : bytes) : Prop := forall c, cb_ok c ->
  if decide (length d <= cb_space c)%nat then m c = Some (Ok tt, appended d c)
  else exists e c', m c = Some (Err e, c').

Lemma overwrite_some p d buf : (p + length d <= length buf)%nat -> overwrite p d buf = Some (written p d buf).
Proof. intros H. unfold overwrite. by rewrite (proj2 (Nat.leb_le _ _) H). Qed.
Lemma written_nil p buf : written p [] buf = buf.
Proof. unfold written. cbn. rewrite Nat.add_0_r. apply take_drop. Qed.
Lemma length_written p d buf : (p + length d <= length buf)%nat -> length (written p d buf) = length buf.
Proof. intros H. unfold written. rewrite !length_app, length_take, length_drop. lia. Qed.
Lemma written_middle x y z d : length y = length d -> written (length x) d (x ++ y ++ z) = x ++ d ++ z.
Proof. intros H. unfold written. by rewrite take_app_length, <- H, drop_app_add, drop_app_length. Qed.
Lemma split_buffer p n (buf : bytes) : (p + n <= length buf)%nat ->
  exists x y z, buf = x ++ y ++ z /\ length x = p /\ length y = n.
Proof.
  intros H. exists (take p buf), (take n (drop p buf)), (drop n (drop p buf)).
  rewrite !take_drop, !length_take, length_drop. split_and!; [done | lia | lia].
Qed.
Lemma written_next p d1 d2 buf : (p + length (d1 ++ d2) <= length buf)%nat ->
  written (p + length d1) d2 (written p d1 buf) = written p (d1 ++ d2) buf.
Proof.
  intros H. rewrite length_app in H. destruct (split_buffer p (length d1) buf) as (x & y & z & -> & <- & Hy); [lia|].
  rewrite !length_app in H. destruct (split_buffer 0 (length d2) z) as ([|] & y2 & z2 & -> & Hx & Hy2); [lia | | done].
  cbn [app]. rewrite (written_middle x) by done.
  rewrite <- length_app, app_assoc, written_middle by done.
  rewrite (app_assoc y), written_middle by (rewrite !length_app; lia). by rewrite <- !app_assoc.
Qed.
Lemma written_over p d d' buf : (p + length d <= length buf)%nat -> length d' = length d ->
  written p d' (written p d buf) = written p d' buf.
Proof.
  intros H Hl. destruct (split_buffer p (length d) buf) as (x & y & z & -> & <- & Hy); [done|].
  by rewrite !written_middle by lia.
Qed.

Lemma appended_ok d c : cb_ok c -> (length d <= cb_space c)%nat -> cb_ok (appended d c).
Proof. unfold cb_ok, cb_space, cb_capacity. intros H Hd. cbn. rewrite length_written; lia. Qed.
Lemma appended_space d c : cb_ok c -> (length d <= cb_space c)%nat -> cb_space (appended d c) = (cb_space c - length d)%nat.
Proof. unfold cb_ok, cb_space, cb_capacity. intros H Hd. cbn. rewrite length_written; lia. Qed.
Lemma appended_app d1 d2 c : cb_ok c -> (length (d1 ++ d2) <= cb_space c)%nat ->
  appended d2 (appended d1 c) = appended (d1 ++ d2) c.
Proof.
  unfold cb_ok, cb_space, cb_capacity, appended. cbn [cb_buf cb_offset cb_len]. intros H Hd. f_equal.
  - rewrite <- (written_next _ d1 d2) by lia. f_equal. lia.
  - rewrite length_app. lia.
Qed.
Lemma appended_nil c : appended [] c = c.
Proof. destruct c. unfold appended. cbn [cb_buf cb_offset cb_len length]. by rewrite written_nil, Nat.add_0_r. Qed.

Lemma encodes_ret : Encodes (mret tt) [].
Proof. intros c Hc. rewrite decide_True by (cbn; lia). by rewrite appended_nil. Qed.
Lemma encodes_extend d : Encodes (extend_from_slice d) d.
Proof.
  intros c Hc. unfold extend_from_slice. destruct (decide _) as [H|H].
  - rewrite (proj2 (Nat.ltb_ge _ _) H). unfold cb_ok, cb_space, cb_capacity in *. by rewrite overwrite_some by lia.
  - rewrite (proj2 (Nat.ltb_lt _ _)) by lia. by eexists _, _.
Qed.
Lemma encodes_push b : Encodes (cb_push b) [b].
Proof.
  intros c Hc. unfold cb_push. cbn [length]. destruct (decide _) as [H|H].
  - rewrite (proj2 (Nat.ltb_lt _ _)) by lia. unfold cb_ok, cb_space, cb_capacity in *. by rewrite overwrite_some by (cbn; lia).
  - rewrite (proj2 (Nat.ltb_ge _ _)) by lia. by eexists _, _.
Qed.
Lemma encodes_then m1 m2 d1 d2 : Encodes m1 d1 -> Encodes m2 d2 -> Encodes (m1;; m2) (d1 ++ d2).
Proof.
  intros H1 H2 c Hc. unfold mbind, Op_bind. specialize (H1 c Hc). rewrite length_app.
  destruct (decide (length d1 <= cb_space c)%nat) as [Hd|Hd].
  - rewrite H1. specialize (H2 _ (appended_ok _ _ Hc Hd)). rewrite appended_space in H2 by done.
    destruct (decide (length d1 + length d2 <= cb_space c)%nat) as [Hs|Hs].
    + rewrite decide_True in H2 by lia. rewrite H2, appended_app; [done..|by rewrite length_app].
    + by rewrite decide_False in H2 by lia.
  - destruct H1 as (e & c' & ->). rewrite decide_False by lia. by eexists _, _.
Qed.
Lemma encodes_eq m d d' : Encodes m d -> d = d' -> Encodes m d'.
Proof. by intros ? <-. Qed.
Lemma encodes_map_err f m d : Encodes m d -> Encodes (op_map_err f m) d.
Proof.
  intros H c Hc. unfold op_map_err. specialize (H c Hc). destruct (decide _); [by rewrite H|].
  destruct H as (e & c' & ->). by eexists _, _.
Qed.
Lemma encodes_error m d : Encodes m d -> Encodes (encode_error m) d.
Proof. apply encodes_map_err. Qed.
Lemma encodes_all {A} (enc : A -> Enc unit) (text : A -> bytes) l :
  (forall a, a ∈ l -> Encodes (enc a) (text a)) -> Encodes (enc_all enc l) (mjoin (text <$> l)).
Proof.
  induction l as [|a l IH]; intros H; [apply encodes_ret|]. cbn [enc_all].
  change (mjoin (text <$> a :: l)) with (text a ++ mjoin (text <$> l)).
  apply encodes_then; [apply H; left | apply IH; intros; apply H; by right].
Qed.

Lemma cb_set_all_some vals : forall idx c, cb_ok c -> (idx + length vals <= cb_len c)%nat ->
  cb_set_all idx vals c = Some (Ok tt, {| cb_buf := written (cb_offset c + idx) vals (cb_buf c);
    cb_offset := cb_offset c; cb_len := cb_len c |}).
Proof.
  induction vals as [|v vals IH]; intros idx c Hc Hl; cbn [cb_set_all].
  - destruct c. by rewrite written_nil.
  - cbn [length] in Hl. unfold mbind, Op_bind, cb_set. rewrite (proj2 (Nat.ltb_lt _ _)) by lia. unfold cb_ok in Hc.
    rewrite overwrite_some by (cbn; lia). cbn [mbind option_bind]. rewrite IH; cbn [cb_buf cb_offset cb_len]; [| |lia].
    + rewrite <- (written_next _ [v] vals) by (cbn; lia). cbn [length]. do 3 f_equal. f_equal. lia.
    + unfold cb_ok. cbn. rewrite length_written by (cbn; lia). lia.
Qed.
(** Zeroes that are overwritten later. *)
Lemma written_head n p l d buf : length l = n -> (p + (n + length d) <= length buf)%nat ->
  written p l (written p (replicate n 0 ++ d) buf) = written p (l ++ d) buf.
Proof.
  intros Hl H. destruct (split_buffer p (n + length d) buf) as (x & y & z & -> & <- & Hy); [lia|].
  rewrite (written_middle x y z (replicate n 0 ++ d)), (written_middle x y z (l ++ d))
    by (rewrite !length_app, ?length_replicate; lia).
  rewrite <- !app_assoc. by rewrite written_middle by (rewrite length_replicate; lia).
Qed.
Lemma encodes_with_length n m d : Encodes m d ->
  Encodes (with_length n m) (be_bytes n (wrap (8 * Z.of_nat n) (Z.of_nat (length d))) ++ d).
Proof.
  intros Hm c Hc. unfold with_length. pose proof (encodes_extend (replicate n 0) c Hc) as H1.
  rewrite length_replicate in H1. pose proof (length_be_bytes n (wrap (8 * Z.of_nat n) (Z.of_nat (length d)))) as Hbe.
  set (l := be_bytes n _) in *. rewrite length_app, Hbe. unfold mbind, Op_bind.
  assert ((n <= cb_space c)%nat -> (length (replicate n 0%Z) <= cb_space c)%nat) as Hz by by rewrite length_replicate.
  destruct (decide (n + length d <= cb_space c)%nat) as [Hd|Hd]; cycle 1.
  { destruct (decide (n <= cb_space c)%nat) as [Hn|Hn]; [|destruct H1 as (e & c' & ->); by eexists _, _].
    rewrite H1. specialize (Hm _ (appended_ok _ _ Hc (Hz Hn))). rewrite appended_space, length_replicate in Hm by auto.
    rewrite decide_False in Hm by lia. destruct Hm as (e & c' & ->). by eexists _, _. }
  rewrite decide_True in H1 by lia. rewrite H1. specialize (Hz ltac:(lia)).
  specialize (Hm _ (appended_ok _ _ Hc Hz)). rewrite appended_space, length_replicate in Hm by done.
  rewrite decide_True in Hm by lia. rewrite Hm.
  assert ((length (replicate n 0%Z ++ d) <= cb_space c)%nat) as Hzd by by rewrite length_app, length_replicate.
  rewrite appended_app by done. rewrite cb_set_all_some; cbn [cb_len appended];
    rewrite ?length_app, ?length_replicate, ?length_be_bytes; [| by apply appended_ok | lia].
  replace (cb_len c + (n + length d) - (cb_len c + n))%nat with (length d) by lia. fold l.
  unfold cb_ok, cb_space, cb_capacity in *. unfold appended. cbn [cb_buf cb_offset cb_len].
  rewrite (written_head n) by lia. rewrite !length_app, ?Hbe, ?length_replicate. done.
Qed.

(** ** Alerts *)

Lemma AlertDescription_of_as d : AlertDescription_of (AlertDescription_as_u8 d) = Some d.
Proof. by destruct d. Qed.
Lemma AlertLevel_of_as l : AlertLevel_of (AlertLevel_as_u8 l) = Some l.
Proof. by destruct l. Qed.
Lemma ContentType_of_as t : ContentType_of (ContentType_as_u8 t) = Some t.
Proof. by destruct t. Qed.
Definition alert_bytes (a : Alert) : bytes := [AlertLevel_as_u8 (al_level a); AlertDescription_as_u8 (al_description a)].
Lemma encodes_alert a : Encodes (Alert_encode a) (alert_bytes a).
Proof. apply (encodes_then _ _ [_] [_]); apply encodes_error, encodes_push. Qed.
Lemma be_bytes_1 z : 0 <= z < 256 -> be_bytes 1 z = [z].
Proof. intros Hz. unfold be_bytes. cbn. by rewrite Z.mod_small. Qed.
Lemma parses_u8 z : 0 <= z < 256 -> Parses read_u8 [z] z.
Proof. intros Hz. rewrite <- be_bytes_1 by done. by apply parses_uint. Qed.
Lemma parses_alert a : Parses Alert_parse (alert_bytes a) a.
Proof.
  destruct a as [l d]. unfold Alert_parse, alert_bytes. cbn [al_level al_description].
  apply (parses_bind _ _ [_] [_] (AlertLevel_as_u8 l)); [apply parses_map_err, parses_u8; by destruct l|].
  apply (parses_then _ _ _ (AlertDescription_as_u8 d)); [apply parses_map_err, parses_u8; by destruct d|].
  apply (parses_then _ _ [] l); [apply parses_ok_or, AlertLevel_of_as|].
  apply (parses_then _ _ [] d); [apply parses_ok_or, AlertDescription_of_as|]. apply parses_ret.
Qed.
