(* ===== verification/TlsKeys.v ===== *)
(** * The key schedule of the TLS library

    [tools/embedded-tls/src/key_schedule.rs]. The hash, HKDF, HMAC, AEAD and
    ECDH crates are an interface; a running hash is the bytes it has taken. *)
From S2P Require Import Prelude Str HttpBody TlsBuffer.

(** ** Cryptography *)

(** [TlsCipherSuite] with what the [sha2], [hkdf], [hmac], [aes-gcm] and [p256]
    crates compute for it; [K] is an ephemeral secret. [hkdf_expand] and
    [from_prk] fail on lengths they do not support, [diffie_hellman] when the
    other side's bytes are not a point. *)
Class TlsCrypto (K : Type) := {
  CODE_POINT : Z;
  hash_len : nat;
  key_len : nat;
  iv_len : nat;
  tag_len : nat;
  hash : bytes -> bytes;
  hkdf_extract : bytes -> bytes -> bytes;
  from_prk : bytes -> option bytes;
  hkdf_expand : bytes -> bytes -> nat -> option bytes;
  hmac : bytes -> bytes -> bytes;
  aead_seal : bytes -> bytes -> bytes -> bytes -> bytes;
  aead_open : bytes -> bytes -> bytes -> bytes -> option bytes;
  public_key : K -> bytes;
  diffie_hellman : K -> bytes -> option bytes
}.

(** Lengths as documented; what is sealed is opened by the same key, nonce and
    associated data. *)
Class TlsCryptoLaws (K : Type) `{TlsCrypto K} := {
  code_point_u16 : u16 CODE_POINT;
  hash_fits : (1 <= hash_len <= 48)%nat;
  iv_fits : (8 <= iv_len)%nat;
  key_fits : (key_len <= hash_len)%nat;
  iv_len_fits : (iv_len <= hash_len)%nat;
  tag_fits : (tag_len <= 64)%nat;
  length_hash d : length (hash d) = hash_len;
  length_extract salt ikm : length (hkdf_extract salt ikm) = hash_len;
  from_prk_some prk : (hash_len <= length prk)%nat -> from_prk prk = Some prk;
  expand_some prk info n : (n <= 255 * hash_len)%nat -> exists okm, hkdf_expand prk info n = Some okm /\ length okm = n;
  length_hmac k d : length (hmac k d) = hash_len;
  length_seal k n a d : length (aead_seal k n a d) = (length d + tag_len)%nat;
  open_seal k n a d : aead_open k n a (aead_seal k n a d) = Some d;
  length_open k n a c d : aead_open k n a c = Some d -> length c = (length d + tag_len)%nat
}.

(** ** Secrets *)

(** The context of a label: none, or a hash. *)
Inductive ContextType := NoContext | HashContext (h : bytes).
(** An initialised secret is the pseudo-random key inside the [Hkdf]. *)
Inductive Secret := Uninitialized | Initialized (prk : bytes).
Definition Secret_as_ref (s : Secret) : result TlsError bytes :=
  match s with Initialized prk => Ok prk | Uninitialized => Err InternalError end.

(** [Vec::extend_from_slice] of a vector of capacity [N]. *)
Definition vec_extend (N : nat) (d v : bytes) : result TlsError bytes :=
  if (length v + length d <=? N)%nat then Ok (v ++ d) else Err InternalError.
Definition make_hkdf_label (n : nat) (label : bytes) (context_type : ContextType) : result TlsError bytes :=
  v ← vec_extend 70 (be_bytes 2 (Z.of_nat n)) [];
  let label_len := wrap 8 (6 + wrap 8 (Z.of_nat (length label))) in
  v ← vec_extend 70 [label_len] v;
  v ← vec_extend 70 (lit "tls13 ") v;
  v ← vec_extend 70 label v;
  match context_type with
  | NoContext => vec_extend 70 [0] v
  | HashContext context =>
      v ← vec_extend 70 [wrap 8 (Z.of_nat (length context))] v;
      vec_extend 70 context v
  end.

Section Keys.
Context {K : Type} `{TlsCrypto K}.

Definition make_expanded_hkdf_label (n : nat) (label : bytes) (context_type : ContextType) (self : Secret) : result TlsError bytes :=
  hkdf_label ← make_hkdf_label n label context_type;
  prk ← Secret_as_ref self;
  ok_or (hkdf_expand prk hkdf_label n) CryptoError.

Record SharedState := { sh_secret : bytes; sh_hkdf : Secret }.
Definition zero : bytes := replicate hash_len 0.
Definition SharedState_new : SharedState := {| sh_secret := zero; sh_hkdf := Uninitialized |}.
Definition shared_initialize (ikm : bytes) (self : SharedState) : SharedState :=
  let secret := hkdf_extract (sh_secret self) ikm in
  {| sh_secret := secret; sh_hkdf := Initialized secret |}.
Definition derive_secret (label : bytes) (context_type : ContextType) (self : SharedState) : result TlsError bytes :=
  make_expanded_hkdf_label hash_len label context_type (sh_hkdf self).
Definition transcript_context (transcript : bytes) : ContextType := HashContext (hash transcript).
Definition empty_hash : ContextType := HashContext (hash []).
Definition derived (self : SharedState) : result TlsError SharedState :=
  secret ← derive_secret (lit "derived") empty_hash self;
  Ok {| sh_secret := secret; sh_hkdf := sh_hkdf self |}.

(** ** The keys of one direction *)

Record KeyScheduleState := { traffic_secret : Secret; counter : Z; ks_key : bytes; ks_iv : bytes }.
Definition KeyScheduleState_new : KeyScheduleState :=
  {| traffic_secret := Uninitialized; counter := 0; ks_key := replicate key_len 0; ks_iv := replicate iv_len 0 |}.
(** The counter at the end of [N] bytes: byte after byte from its last one. *)
Definition pad (N : nat) (input : bytes) : bytes :=
  foldl (fun padded '(index, byte) => <[(N - index - 1)%nat := byte]> padded) (replicate N 0)
    (imap pair (rev input)).
Definition xor_counter (n : Z) (iv : bytes) : bytes := zip_with Z.lxor iv (pad iv_len (be_bytes 8 n)).
Definition get_nonce (self : KeyScheduleState) : bytes := xor_counter (counter self) (ks_iv self).
Definition with_traffic (s : Secret) (self : KeyScheduleState) : KeyScheduleState :=
  {| traffic_secret := s; counter := counter self; ks_key := ks_key self; ks_iv := ks_iv self |}.
Definition with_key (key : bytes) (self : KeyScheduleState) : KeyScheduleState :=
  {| traffic_secret := traffic_secret self; counter := counter self; ks_key := key; ks_iv := ks_iv self |}.
Definition with_iv (iv : bytes) (n : Z) (self : KeyScheduleState) : KeyScheduleState :=
  {| traffic_secret := traffic_secret self; counter := n; ks_key := ks_key self; ks_iv := iv |}.
Definition calculate_traffic_secret (label : bytes) (shared : SharedState) (transcript : bytes) : Op KeyScheduleState TlsError unit :=
  secret ← op_lift (derive_secret label (transcript_context transcript) shared);
  traffic ← op_ok_or (from_prk secret) InternalError;
  op_modify (with_traffic (Initialized traffic));;
  key ← op_lift (make_expanded_hkdf_label key_len (lit "key") NoContext (Initialized traffic));
  op_modify (with_key key);;
  iv ← op_lift (make_expanded_hkdf_label iv_len (lit "iv") NoContext (Initialized traffic));
  op_modify (with_iv iv 0).
(** [checked_add(1).unwrap()]: [None] is a panic. *)
Definition increment_counter (self : KeyScheduleState) : option KeyScheduleState :=
  if counter self + 1 <=? umax 64 then
    Some {| traffic_secret := traffic_secret self; counter := counter self + 1; ks_key := ks_key self; ks_iv := ks_iv self |}
  else None.

(** ** The schedule *)

Record WriteKeySchedule := { w_state : KeyScheduleState; binder_key : Secret }.
Record ReadKeySchedule := { r_state : KeyScheduleState; transcript_hash : bytes }.
Record KeySchedule := { shared : SharedState; client_state : WriteKeySchedule; server_state : ReadKeySchedule }.
Definition KeySchedule_new : KeySchedule :=
  {| shared := SharedState_new;
     client_state := {| w_state := KeyScheduleState_new; binder_key := Uninitialized |};
     server_state := {| r_state := KeyScheduleState_new; transcript_hash := [] |} |}.
Definition replace_transcript_hash (transcript : bytes) (self : KeySchedule) : KeySchedule :=
  {| shared := shared self; client_state := client_state self;
     server_state := {| r_state := r_state (server_state self); transcript_hash := transcript |} |}.
Definition with_shared (s : SharedState) (self : KeySchedule) : KeySchedule :=
  {| shared := s; client_state := client_state self; server_state := server_state self |}.
Definition with_w_state (s : KeyScheduleState) (self : KeySchedule) : KeySchedule :=
  {| shared := shared self; client_state := {| w_state := s; binder_key := binder_key (client_state self) |};
     server_state := server_state self |}.
Definition with_r_state (s : KeyScheduleState) (self : KeySchedule) : KeySchedule :=
  {| shared := shared self; client_state := client_state self;
     server_state := {| r_state := s; transcript_hash := transcript_hash (server_state self) |} |}.

Definition with_binder_key (prk : bytes) (self : KeySchedule) : KeySchedule :=
  {| shared := shared self; client_state := {| w_state := w_state (client_state self); binder_key := Initialized prk |};
     server_state := server_state self |}.

Abbreviation Ks := (Op KeySchedule TlsError).
Definition ks_shared (f : SharedState -> SharedState) : Ks unit := op_modify (fun self => with_shared (f (shared self)) self).
Definition ks_derived : Ks unit := fun self =>
  match derived (shared self) with
  | Ok s => Some (Ok tt, with_shared s self)
  | Err e => Some (Err e, self)
  end.
(** The client's state is replaced before the server's is computed. *)
Definition calculate_traffic_secrets (client_label server_label : bytes) : Ks unit := fun self =>
  '(r, client) ← calculate_traffic_secret client_label (shared self) (transcript_hash (server_state self)) (w_state (client_state self));
  let self := with_w_state client self in
  match r with
  | Err e => Some (Err e, self)
  | Ok _ =>
      '(r, server) ← calculate_traffic_secret server_label (shared self) (transcript_hash (server_state self)) (r_state (server_state self));
      Some (r, with_r_state server self)
  end.
Definition initialize_early_secret (psk : option bytes) : Ks unit :=
  ks_shared (shared_initialize (default zero psk));;
  self ← op_get;
  key ← op_lift (derive_secret (lit "ext binder") empty_hash (shared self));
  prk ← op_ok_or (from_prk key) InternalError;
  op_modify (with_binder_key prk);;
  ks_derived.
Definition initialize_handshake_secret (ikm : bytes) : Ks unit :=
  ks_shared (shared_initialize ikm);;
  calculate_traffic_secrets (lit "c hs traffic") (lit "s hs traffic");;
  ks_derived.
Definition initialize_master_secret : Ks unit :=
  ks_shared (shared_initialize zero);;
  calculate_traffic_secrets (lit "c ap traffic") (lit "s ap traffic");;
  ks_derived.

(** ** MACs over the transcript *)

(** [Finished]: the MAC, and for a received one the hash of what came before. *)
Record Finished := { fin_verify : bytes; fin_hash : option bytes }.
Definition create_client_finished (self : KeySchedule) : result TlsError Finished :=
  key ← make_expanded_hkdf_label hash_len (lit "finished") NoContext (traffic_secret (w_state (client_state self)));
  Ok {| fin_verify := hmac key (hash (transcript_hash (server_state self))); fin_hash := None |}.
Definition verify_server_finished (finished : Finished) (self : ReadKeySchedule) : result TlsError bool :=
  key ← make_expanded_hkdf_label hash_len (lit "finished") NoContext (traffic_secret (r_state self));
  h ← ok_or (fin_hash finished) InternalError;
  Ok (bool_decide (hmac key h = fin_verify finished)).
Definition create_psk_binder (transcript : bytes) (self : WriteKeySchedule) : result TlsError bytes :=
  key ← make_expanded_hkdf_label hash_len (lit "finished") NoContext (binder_key self);
  Ok (hmac key (hash transcript)).
End Keys.
Arguments pad N input : simpl never.

(** ** Nonces *)

Lemma pad_loop N l : forall (i : nat) (padded : bytes),
  (i + length l <= N)%nat -> length padded = N ->
  foldl (fun padded '(index, byte) => <[(N - index - 1)%nat := byte]> padded) padded (imap (fun k b => (i + k, b)%nat) l) =
  take (N - i - length l) padded ++ rev l ++ drop (N - i) padded.
Proof.
  induction l as [|b l IH]; intros i padded Hi Hp; cbn [length] in *.
  - cbn. rewrite Nat.sub_0_r. by rewrite take_drop.
  - cbn [imap foldl]. rewrite Nat.add_0_r.
    rewrite (imap_ext _ (fun k b => (S i + k, b)%nat)) by (intros; cbn; f_equal; lia).
    rewrite IH by (rewrite ?length_insert; lia). cbn [rev]. rewrite <- app_assoc. cbn [app].
    replace (N - S i - length l)%nat with (N - i - S (length l))%nat by lia. f_equal; [|f_equal].
    + apply take_insert_ge. lia.
    + replace (N - i - 1)%nat with (N - S i)%nat by lia.
      rewrite (drop_S _ b (N - S i)) by (rewrite list_lookup_insert_eq; [done|lia]).
      f_equal. replace (S (N - S i))%nat with (N - i)%nat by lia. apply drop_insert_lt. lia.
Qed.
Lemma pad_eq N input : (length input <= N)%nat -> pad N input = replicate (N - length input) 0 ++ input.
Proof.
  intros H. unfold pad. pose proof (pad_loop N (rev input) 0 (replicate N 0)) as Hl. rewrite length_rev in Hl.
  cbn [Nat.add] in Hl. rewrite (imap_ext (fun k b => (k, b)) pair) in Hl by done. change (imap (fun k b => (k, b)) ?l) with (imap pair l) in Hl.
  rewrite Hl by (rewrite ?length_replicate; lia). rewrite rev_involutive, !Nat.sub_0_r, take_replicate, drop_ge by (rewrite length_replicate; lia).
  rewrite app_nil_r. f_equal. f_equal. lia.
Qed.
Section Nonces.
Context {K : Type} `{TlsCryptoLaws K}.

Lemma xor_inj (iv a b : bytes) : length a = length iv -> length b = length iv ->
  zip_with Z.lxor iv a = zip_with Z.lxor iv b -> a = b.
Proof.
  revert a b. induction iv as [|v iv IH]; intros [|x a] [|y b] Ha Hb E; try done. cbn in *.
  injection E as E1 E2. f_equal; [|apply IH; [lia|lia|exact E2]].
  apply (f_equal (Z.lxor v)) in E1. by rewrite <- !Z.lxor_assoc, Z.lxor_nilpotent, !Z.lxor_0_l in E1.
Qed.
(** Different counters give different nonces. *)
Lemma xor_counter_inj iv n m : length iv = iv_len -> u64 n -> u64 m -> xor_counter n iv = xor_counter m iv -> n = m.
Proof.
  intros Hiv Hn Hm E. unfold xor_counter in E. pose proof iv_fits as Hf.
  rewrite !pad_eq in E by (rewrite length_be_bytes; lia).
  apply xor_inj in E; [|rewrite length_app, length_replicate, length_be_bytes; lia..].
  rewrite !length_be_bytes in E. apply app_inj_2 in E as [_ E]; [|by rewrite !length_be_bytes].
  apply (f_equal of_be_bytes) in E. by rewrite !of_be_be in E by (unfold uint in *; cbn; lia).
Qed.
End Nonces.

(** ** RFC 8446, section 7.1 *)
Section Rfc.
Context {K : Type} `{TlsCryptoLaws K}.

(** [HkdfLabel], [HKDF-Expand-Label] and [Derive-Secret]. *)
Definition hkdf_label (label context : bytes) (n : nat) : bytes :=
  be_bytes 2 (Z.of_nat n) ++ [Z.of_nat (6 + length label)] ++ lit "tls13 " ++ label ++ [Z.of_nat (length context)] ++ context.
Definition expand_label (secret label context : bytes) (n : nat) : bytes :=
  default [] (hkdf_expand secret (hkdf_label label context n) n).
Definition derive (secret label messages : bytes) : bytes := expand_label secret label (hash messages) hash_len.

Definition rfc_early (psk : option bytes) : bytes := hkdf_extract zero (default zero psk).
Definition rfc_handshake (psk : option bytes) (ecdhe : bytes) : bytes :=
  hkdf_extract (derive (rfc_early psk) (lit "derived") []) ecdhe.
Definition rfc_master (psk : option bytes) (ecdhe : bytes) : bytes :=
  hkdf_extract (derive (rfc_handshake psk ecdhe) (lit "derived") []) zero.
(** The traffic keys of a secret, and the MAC of a [Finished]. *)
Definition rfc_traffic (secret : bytes) : KeyScheduleState :=
  {| traffic_secret := Initialized secret; counter := 0;
     ks_key := expand_label secret (lit "key") [] key_len; ks_iv := expand_label secret (lit "iv") [] iv_len |}.
Definition rfc_finished (secret messages : bytes) : bytes :=
  hmac (expand_label secret (lit "finished") [] hash_len) (hash messages).

Definition context_bytes (c : ContextType) : bytes := match c with NoContext => [] | HashContext h => h end.
Lemma vec_extend_ok N d v : (length v + length d <= N)%nat -> vec_extend N d v = Ok (v ++ d).
Proof. intros Hl. unfold vec_extend. by rewrite (proj2 (Nat.leb_le _ _) Hl). Qed.
Lemma make_label_ok n label c : (length label <= 12)%nat -> (length (context_bytes c) <= 48)%nat ->
  make_hkdf_label n label c = Ok (hkdf_label label (context_bytes c) n).
Proof.
  intros Hl Hc. assert (length (lit "tls13 ") = 6%nat) as Ht by done. pose proof (length_be_bytes 2 (Z.of_nat n)) as Hb.
  unfold make_hkdf_label, hkdf_label, wrap. rewrite !(Z.mod_small _ (2 ^ 8)) by (rewrite ?Z.mod_small; lia).
  replace (6 + Z.of_nat (length label)) with (Z.of_nat (6 + length label)) by lia.
  set (b := be_bytes 2 _) in *. set (t := lit "tls13 ") in *.
  rewrite !vec_extend_ok, app_nil_l by (cbn [length]; lia). cbn [mbind result_bind].
  rewrite vec_extend_ok by (cbn [length]; lia). cbn [mbind result_bind].
  rewrite vec_extend_ok by (rewrite !length_app; cbn [length]; lia). cbn [mbind result_bind].
  rewrite vec_extend_ok by (rewrite !length_app; cbn [length]; lia). cbn [mbind result_bind].
  destruct c as [|h]; cbn [context_bytes] in *.
  - rewrite vec_extend_ok by (rewrite !length_app; cbn [length]; lia). by rewrite <- !app_assoc.
  - rewrite !(Z.mod_small _ (2 ^ 8)) by lia. rewrite vec_extend_ok by (rewrite !length_app; cbn [length]; lia). cbn [mbind result_bind].
    rewrite vec_extend_ok by (rewrite !length_app; cbn [length]; lia). by rewrite <- !app_assoc.
Qed.
Lemma expand_ok n label c prk : (length label <= 12)%nat -> (length (context_bytes c) <= 48)%nat -> (n <= hash_len)%nat ->
  make_expanded_hkdf_label n label c (Initialized prk) = Ok (expand_label prk label (context_bytes c) n) /\
  length (expand_label prk label (context_bytes c) n) = n.
Proof.
  intros Hl Hc Hn. unfold make_expanded_hkdf_label, expand_label. rewrite make_label_ok by done. cbn [mbind result_bind Secret_as_ref].
  destruct (expand_some prk (hkdf_label label (context_bytes c) n) n) as (okm & -> & Ho); [lia|]. by split.
Qed.
Lemma hash_context_fits d : (length (context_bytes (HashContext (hash d))) <= 48)%nat.
Proof. cbn. rewrite length_hash. pose proof hash_fits. lia. Qed.
Lemma derive_ok label messages sh prk : sh_hkdf sh = Initialized prk -> (length label <= 12)%nat ->
  derive_secret label (transcript_context messages) sh = Ok (derive prk label messages) /\ length (derive prk label messages) = hash_len.
Proof.
  intros E Hl. unfold derive_secret, transcript_context. rewrite E.
  destruct (expand_ok hash_len label (HashContext (hash messages)) prk) as [E1 E2]; [done | apply hash_context_fits | lia |].
  by split.
Qed.
Lemma derived_ok sh prk : sh_hkdf sh = Initialized prk ->
  derived sh = Ok {| sh_secret := derive prk (lit "derived") []; sh_hkdf := Initialized prk |}.
Proof.
  intros E. unfold derived. destruct (derive_ok (lit "derived") [] sh prk E) as [E1 _]; [cbn; lia|].
  unfold transcript_context in E1. unfold empty_hash. rewrite E1. cbn. by rewrite E.
Qed.
Lemma traffic_ok label messages sh prk st : sh_hkdf sh = Initialized prk -> (length label <= 12)%nat ->
  calculate_traffic_secret label sh messages st = Some (Ok tt, rfc_traffic (derive prk label messages)).
Proof.
  intros E Hl. unfold calculate_traffic_secret, op_lift, op_ok_or, op_modify, mbind, Op_bind, op_lift.
  destruct (derive_ok label messages sh prk E Hl) as [-> El]. rewrite from_prk_some by lia. cbn [ok_or].
  pose proof key_fits. pose proof iv_len_fits.
  destruct (expand_ok key_len (lit "key") NoContext (derive prk label messages)) as [-> _]; [cbn; lia..|].
  destruct (expand_ok iv_len (lit "iv") NoContext (derive prk label messages)) as [-> _]; [cbn; lia..|]. done.
Qed.
Lemma traffic_secrets_ok cl sl k prk : sh_hkdf (shared k) = Initialized prk -> (length cl <= 12)%nat -> (length sl <= 12)%nat ->
  let th := transcript_hash (server_state k) in
  calculate_traffic_secrets cl sl k =
    Some (Ok tt, with_r_state (rfc_traffic (derive prk sl th)) (with_w_state (rfc_traffic (derive prk cl th)) k)).
Proof.
  intros E Hc Hs th. unfold calculate_traffic_secrets. rewrite (traffic_ok cl _ _ _ _ E Hc). cbn [mbind option_bind].
  by rewrite (traffic_ok sl _ _ prk).
Qed.
Lemma finished_key prk : make_expanded_hkdf_label hash_len (lit "finished") NoContext (Initialized prk) =
  Ok (expand_label prk (lit "finished") [] hash_len).
Proof. apply (expand_ok hash_len (lit "finished") NoContext); cbn; lia. Qed.

(** The state after each of the three initialisations. *)
Definition early_schedule (psk : option bytes) : KeySchedule :=
  {| shared := {| sh_secret := derive (rfc_early psk) (lit "derived") []; sh_hkdf := Initialized (rfc_early psk) |};
     client_state := {| w_state := KeyScheduleState_new; binder_key := Initialized (derive (rfc_early psk) (lit "ext binder") []) |};
     server_state := {| r_state := KeyScheduleState_new; transcript_hash := [] |} |}.
Lemma early_ok psk : initialize_early_secret psk KeySchedule_new = Some (Ok tt, early_schedule psk).
Proof.
  unfold initialize_early_secret, ks_shared, op_modify, op_get, op_lift, op_ok_or, op_lift, mbind, Op_bind.
  cbn [KeySchedule_new shared with_shared].
  change (shared_initialize (default zero psk) SharedState_new) with {| sh_secret := rfc_early psk; sh_hkdf := Initialized (rfc_early psk) |}.
  destruct (derive_ok (lit "ext binder") [] {| sh_secret := rfc_early psk; sh_hkdf := Initialized (rfc_early psk) |}
    (rfc_early psk)) as [E1 E2]; [done | cbn; lia |].
  unfold transcript_context in E1. unfold empty_hash. rewrite E1, from_prk_some by lia. cbn [ok_or].
  unfold ks_derived. cbn [with_binder_key shared]. by rewrite (derived_ok _ (rfc_early psk)).
Qed.
Lemma handshake_ok psk ecdhe k : shared k = shared (early_schedule psk) ->
  let th := transcript_hash (server_state k) in
  initialize_handshake_secret ecdhe k = Some (Ok tt,
    {| shared := {| sh_secret := derive (rfc_handshake psk ecdhe) (lit "derived") []; sh_hkdf := Initialized (rfc_handshake psk ecdhe) |};
       client_state := {| w_state := rfc_traffic (derive (rfc_handshake psk ecdhe) (lit "c hs traffic") th); binder_key := binder_key (client_state k) |};
       server_state := {| r_state := rfc_traffic (derive (rfc_handshake psk ecdhe) (lit "s hs traffic") th); transcript_hash := th |} |}).
Proof.
  intros E th. unfold initialize_handshake_secret, ks_shared, op_modify, mbind, Op_bind.
  rewrite (traffic_secrets_ok _ _ _ (rfc_handshake psk ecdhe)); [| by rewrite E | cbn; lia..].
  unfold ks_derived. rewrite (derived_ok _ (rfc_handshake psk ecdhe)); [done | by cbn; rewrite E].
Qed.
Lemma master_ok psk ecdhe k : sh_secret (shared k) = derive (rfc_handshake psk ecdhe) (lit "derived") [] ->
  let th := transcript_hash (server_state k) in
  initialize_master_secret k = Some (Ok tt,
    {| shared := {| sh_secret := derive (rfc_master psk ecdhe) (lit "derived") []; sh_hkdf := Initialized (rfc_master psk ecdhe) |};
       client_state := {| w_state := rfc_traffic (derive (rfc_master psk ecdhe) (lit "c ap traffic") th); binder_key := binder_key (client_state k) |};
       server_state := {| r_state := rfc_traffic (derive (rfc_master psk ecdhe) (lit "s ap traffic") th); transcript_hash := th |} |}).
Proof.
  intros E th. unfold initialize_master_secret, ks_shared, op_modify, mbind, Op_bind.
  rewrite (traffic_secrets_ok _ _ _ (rfc_master psk ecdhe)); [| by cbn; rewrite E | cbn; lia..].
  unfold ks_derived. rewrite (derived_ok _ (rfc_master psk ecdhe)); [done | by cbn; rewrite E].
Qed.

(** C26: the key schedule is the one of RFC 8446, section 7.1: from a new
    schedule, with or without a pre-shared key, the three initialisations
    succeed, and after them the keys, initialisation vectors and secrets of
    both directions, the key of the binders and the MACs of both [Finished]
    messages are those the RFC derives from the transcripts present at the
    time; the counters start at 0. *)
Theorem key_schedule_rfc (psk : option bytes) (ecdhe hello server_done : bytes) : exists k1 k2 k3,
  initialize_early_secret psk KeySchedule_new = Some (Ok tt, k1) /\
  (forall messages, create_psk_binder messages (client_state k1) =
     Ok (rfc_finished (derive (rfc_early psk) (lit "ext binder") []) messages)) /\
  initialize_handshake_secret ecdhe (replace_transcript_hash hello k1) = Some (Ok tt, k2) /\
  let client := derive (rfc_handshake psk ecdhe) (lit "c hs traffic") hello in
  let server := derive (rfc_handshake psk ecdhe) (lit "s hs traffic") hello in
  w_state (client_state k2) = rfc_traffic client /\ r_state (server_state k2) = rfc_traffic server /\
  (forall messages, create_client_finished (replace_transcript_hash messages k2) =
     Ok {| fin_verify := rfc_finished client messages; fin_hash := None |}) /\
  (forall messages mac, verify_server_finished {| fin_verify := mac; fin_hash := Some (hash messages) |} (server_state k2) =
     Ok (bool_decide (rfc_finished server messages = mac))) /\
  initialize_master_secret (replace_transcript_hash server_done k2) = Some (Ok tt, k3) /\
  w_state (client_state k3) = rfc_traffic (derive (rfc_master psk ecdhe) (lit "c ap traffic") server_done) /\
  r_state (server_state k3) = rfc_traffic (derive (rfc_master psk ecdhe) (lit "s ap traffic") server_done).
Proof.
  eexists _, _, _. split; [apply early_ok|]. split.
  { intros messages. unfold create_psk_binder. cbn [early_schedule client_state binder_key]. by rewrite finished_key. }
  split; [by apply (handshake_ok psk)|]. cbv zeta. split; [done|]. split; [done|]. split.
  { intros messages. unfold create_client_finished. cbn [replace_transcript_hash client_state w_state rfc_traffic traffic_secret].
    by rewrite finished_key. }
  split.
  { intros messages mac. unfold verify_server_finished. cbn [server_state r_state rfc_traffic traffic_secret].
    by rewrite finished_key. }
  split; [by apply (master_ok psk ecdhe) | done].
Qed.
End Rfc.

(** ** A toy suite *)
Module Sample.

Definition fit (n : nat) (d : bytes) : bytes := take n (d ++ replicate n 0).
Lemma length_fit n d : length (fit n d) = n.
Proof. unfold fit. rewrite length_take, length_app, length_replicate. lia. Qed.
Definition digest (n : nat) (d : bytes) : bytes := be_bytes n (foldl (fun acc b => acc * 257 + b + 1) 0 d).
Definition mask (n d : bytes) : bytes := Z.lxor (foldl Z.add 0 n) <$> d.
(** Ephemeral secrets are numbers, and points their squares. *)
#[export] Instance toy : TlsCrypto Z := {
  CODE_POINT := 0x1301; hash_len := 32; key_len := 16; iv_len := 12; tag_len := 16;
  hash := digest 32;
  hkdf_extract salt ikm := digest 32 (salt ++ ikm);
  from_prk prk := if (32 <=? length prk)%nat then Some prk else None;
  hkdf_expand prk info n := if (n <=? 255 * 32)%nat then Some (digest n (prk ++ info)) else None;
  hmac k d := digest 32 (k ++ d);
  aead_seal k n a d := mask n d ++ digest 16 (k ++ n ++ a ++ d);
  aead_open k n a c :=
    let d := mask n (take (length c - 16) c) in
    if bool_decide (drop (length c - 16) c = digest 16 (k ++ n ++ a ++ d)) then Some d else None;
  public_key k := [k];
  diffie_hellman k p := match p with [x] => Some [Z.lxor k x] | _ => None end }.
Lemma mask_mask n d : mask n (mask n d) = d.
Proof.
  unfold mask. rewrite <- list_fmap_compose. rewrite <- (list_fmap_id d) at 2. apply list_fmap_ext. intros i b _. cbn.
  by rewrite <- Z.lxor_assoc, Z.lxor_nilpotent, Z.lxor_0_l.
Qed.
#[export] Instance toy_laws : TlsCryptoLaws Z.
Proof.
  split; cbn -[digest Nat.leb Nat.sub Nat.mul]; intros; unfold digest in *; rewrite ?length_app, ?length_be_bytes; try done; try lia.
  - by rewrite (proj2 (Nat.leb_le _ _)).
  - rewrite (proj2 (Nat.leb_le _ _)) by lia. eexists. split; [done | apply length_be_bytes].
  - unfold mask. by rewrite length_fmap.
  - assert (length (mask n d) + 16 - 16 = length (mask n d))%nat as -> by lia.
    rewrite take_app_length, drop_app_length, mask_mask. by rewrite bool_decide_true.
  - case_bool_decide as E; [|done]. apply (f_equal length) in E. rewrite length_be_bytes, length_drop in E.
    injection H as <-. unfold mask. rewrite length_fmap, length_take. lia.
Qed.

Lemma key_schedule_rfc_witness : exists k1 k2 k3 : KeySchedule,
  initialize_early_secret None KeySchedule_new = Some (Ok tt, k1) /\
  initialize_handshake_secret [7] (replace_transcript_hash [1; 2] k1) = Some (Ok tt, k2) /\
  initialize_master_secret (replace_transcript_hash [1; 2; 3] k2) = Some (Ok tt, k3).
Proof.
  destruct (key_schedule_rfc (K := Z) None [7] [1; 2] [1; 2; 3]) as (k1 & k2 & k3 & E1 & _ & E2 & _ & _ & _ & _ & E3 & _).
  exists k1, k2, k3. split; [exact E1|]. split; [exact E2 | exact E3].
Defined.
End Sample.
