(* ===== verification/TlsMessages.v ===== *)
(** * Messages of the TLS handshake

    [tools/embedded-tls/src]: cipher suites, named groups and signature schemes,
    the extensions ([extensions/]) and the handshake messages ([handshake/]),
    as they are written and read. *)
From S2P Require Import Prelude Str HttpBody TlsBuffer TlsKeys.

(** ** Numbers *)

Module CipherSuite.
Inductive CipherSuite :=
| TlsAes128GcmSha256 | TlsAes256GcmSha384 | TlsChacha20Poly1305Sha256 | TlsAes128CcmSha256 | TlsAes128Ccm8Sha256
| TlsPskAes128GcmSha256.
End CipherSuite.
Definition CipherSuite_of (v : Z) : option CipherSuite.CipherSuite :=
  match v with
  | 0x1301 => Some CipherSuite.TlsAes128GcmSha256 | 0x1302 => Some CipherSuite.TlsAes256GcmSha384
  | 0x1303 => Some CipherSuite.TlsChacha20Poly1305Sha256 | 0x1304 => Some CipherSuite.TlsAes128CcmSha256
  | 0x1305 => Some CipherSuite.TlsAes128Ccm8Sha256 | 0x00A8 => Some CipherSuite.TlsPskAes128GcmSha256
  | _ => None
  end.

Inductive NamedGroup :=
| Secp256r1 | Secp384r1 | Secp521r1 | X25519 | X448 | Ffdhe2048 | Ffdhe3072 | Ffdhe4096 | Ffdhe6144 | Ffdhe8192
| X25519MLKEM768 | SecP256r1MLKEM768 | SecP384r1MLKEM1024.
Definition NamedGroup_as_u16 (g : NamedGroup) : Z :=
  match g with
  | Secp256r1 => 0x0017 | Secp384r1 => 0x0018 | Secp521r1 => 0x0019 | X25519 => 0x001D | X448 => 0x001E
  | Ffdhe2048 => 0x0100 | Ffdhe3072 => 0x0101 | Ffdhe4096 => 0x0102 | Ffdhe6144 => 0x0103 | Ffdhe8192 => 0x0104
  | SecP256r1MLKEM768 => 0x11EB | X25519MLKEM768 => 0x11EC | SecP384r1MLKEM1024 => 0x11ED
  end.
Definition NamedGroup_of (v : Z) : option NamedGroup :=
  match v with
  | 0x0017 => Some Secp256r1 | 0x0018 => Some Secp384r1 | 0x0019 => Some Secp521r1 | 0x001D => Some X25519
  | 0x001E => Some X448 | 0x0100 => Some Ffdhe2048 | 0x0101 => Some Ffdhe3072 | 0x0102 => Some Ffdhe4096
  | 0x0103 => Some Ffdhe6144 | 0x0104 => Some Ffdhe8192 | 0x11EB => Some SecP256r1MLKEM768
  | 0x11EC => Some X25519MLKEM768 | 0x11ED => Some SecP384r1MLKEM1024
  | _ => None
  end.

Inductive SignatureScheme :=
| RsaPkcs1Sha256 | RsaPkcs1Sha384 | RsaPkcs1Sha512
| EcdsaSecp256r1Sha256 | EcdsaSecp384r1Sha384 | EcdsaSecp521r1Sha512
| RsaPssRsaeSha256 | RsaPssRsaeSha384 | RsaPssRsaeSha512
| Ed25519 | Ed448
| RsaPssPssSha256 | RsaPssPssSha384 | RsaPssPssSha512
| Sha224Ecdsa | Sha224Rsa | Sha224Dsa
| RsaPkcs1Sha1 | EcdsaSha1
| Sha256BrainpoolP256r1 | Sha384BrainpoolP384r1 | Sha512BrainpoolP512r1
| MlDsa44 | MlDsa65 | MlDsa87.
Definition SignatureScheme_as_u16 (s : SignatureScheme) : Z :=
  match s with
  | RsaPkcs1Sha256 => 0x0401 | RsaPkcs1Sha384 => 0x0501 | RsaPkcs1Sha512 => 0x0601
  | EcdsaSecp256r1Sha256 => 0x0403 | EcdsaSecp384r1Sha384 => 0x0503 | EcdsaSecp521r1Sha512 => 0x0603
  | RsaPssRsaeSha256 => 0x0804 | RsaPssRsaeSha384 => 0x0805 | RsaPssRsaeSha512 => 0x0806
  | Ed25519 => 0x0807 | Ed448 => 0x0808
  | RsaPssPssSha256 => 0x0809 | RsaPssPssSha384 => 0x080a | RsaPssPssSha512 => 0x080b
  | Sha224Ecdsa => 0x0303 | Sha224Rsa => 0x0301 | Sha224Dsa => 0x0302
  | RsaPkcs1Sha1 => 0x0201 | EcdsaSha1 => 0x0203
  | Sha256BrainpoolP256r1 => 0x081A | Sha384BrainpoolP384r1 => 0x081B | Sha512BrainpoolP512r1 => 0x081C
  | MlDsa44 => 0x0904 | MlDsa65 => 0x0905 | MlDsa87 => 0x0906
  end.
Definition SignatureScheme_of (v : Z) : option SignatureScheme :=
  match v with
  | 0x0401 => Some RsaPkcs1Sha256 | 0x0501 => Some RsaPkcs1Sha384 | 0x0601 => Some RsaPkcs1Sha512
  | 0x0403 => Some EcdsaSecp256r1Sha256 | 0x0503 => Some EcdsaSecp384r1Sha384 | 0x0603 => Some EcdsaSecp521r1Sha512
  | 0x0804 => Some RsaPssRsaeSha256 | 0x0805 => Some RsaPssRsaeSha384 | 0x0806 => Some RsaPssRsaeSha512
  | 0x0807 => Some Ed25519 | 0x0808 => Some Ed448
  | 0x0809 => Some RsaPssPssSha256 | 0x080a => Some RsaPssPssSha384 | 0x080b => Some RsaPssPssSha512
  | 0x0303 => Some Sha224Ecdsa | 0x0301 => Some Sha224Rsa | 0x0302 => Some Sha224Dsa
  | 0x0201 => Some RsaPkcs1Sha1 | 0x0203 => Some EcdsaSha1
  | 0x081A => Some Sha256BrainpoolP256r1 | 0x081B => Some Sha384BrainpoolP384r1 | 0x081C => Some Sha512BrainpoolP512r1
  | 0x0904 => Some MlDsa44 | 0x0905 => Some MlDsa65 | 0x0906 => Some MlDsa87
  | _ => None
  end.

Module ExtensionType.
Inductive ExtensionType :=
| ServerName | MaxFragmentLength | StatusRequest | SupportedGroups | SignatureAlgorithms | UseSrtp | Heartbeat
| ApplicationLayerProtocolNegotiation | SignedCertificateTimestamp | ClientCertificateType | ServerCertificateType
| Padding | CompressCertificate | PreSharedKey | EarlyData | SupportedVersions | Cookie | PskKeyExchangeModes
| CertificateAuthorities | OidFilters | PostHandshakeAuth | SignatureAlgorithmsCert | KeyShare.
End ExtensionType.
Definition ExtensionType_as_u16 (t : ExtensionType.ExtensionType) : Z :=
  match t with
  | ExtensionType.ServerName => 0 | ExtensionType.MaxFragmentLength => 1 | ExtensionType.StatusRequest => 5
  | ExtensionType.SupportedGroups => 10 | ExtensionType.SignatureAlgorithms => 13 | ExtensionType.UseSrtp => 14
  | ExtensionType.Heartbeat => 15 | ExtensionType.ApplicationLayerProtocolNegotiation => 16
  | ExtensionType.SignedCertificateTimestamp => 18 | ExtensionType.ClientCertificateType => 19
  | ExtensionType.ServerCertificateType => 20 | ExtensionType.Padding => 21 | ExtensionType.CompressCertificate => 27
  | ExtensionType.PreSharedKey => 41 | ExtensionType.EarlyData => 42 | ExtensionType.SupportedVersions => 43
  | ExtensionType.Cookie => 44 | ExtensionType.PskKeyExchangeModes => 45 | ExtensionType.CertificateAuthorities => 47
  | ExtensionType.OidFilters => 48 | ExtensionType.PostHandshakeAuth => 49
  | ExtensionType.SignatureAlgorithmsCert => 50 | ExtensionType.KeyShare => 51
  end.
Definition ExtensionType_of (v : Z) : option ExtensionType.ExtensionType :=
  match v with
  | 0 => Some ExtensionType.ServerName | 1 => Some ExtensionType.MaxFragmentLength | 5 => Some ExtensionType.StatusRequest
  | 10 => Some ExtensionType.SupportedGroups | 13 => Some ExtensionType.SignatureAlgorithms | 14 => Some ExtensionType.UseSrtp
  | 15 => Some ExtensionType.Heartbeat | 16 => Some ExtensionType.ApplicationLayerProtocolNegotiation
  | 18 => Some ExtensionType.SignedCertificateTimestamp | 19 => Some ExtensionType.ClientCertificateType
  | 20 => Some ExtensionType.ServerCertificateType | 21 => Some ExtensionType.Padding
  | 27 => Some ExtensionType.CompressCertificate | 41 => Some ExtensionType.PreSharedKey | 42 => Some ExtensionType.EarlyData
  | 43 => Some ExtensionType.SupportedVersions | 44 => Some ExtensionType.Cookie
  | 45 => Some ExtensionType.PskKeyExchangeModes | 47 => Some ExtensionType.CertificateAuthorities
  | 48 => Some ExtensionType.OidFilters | 49 => Some ExtensionType.PostHandshakeAuth
  | 50 => Some ExtensionType.SignatureAlgorithmsCert | 51 => Some ExtensionType.KeyShare
  | _ => None
  end.

(** [match buf.read_u16()? { .. }] over one of these tables. *)
Definition parse_code {A} (n : nat) (code : Z -> option A) : Parse ParseError A :=
  v ← read_uint n; op_ok_or (code v) InvalidData.
Definition CipherSuite_parse : Parse ParseError CipherSuite.CipherSuite := parse_code 2 CipherSuite_of.
Definition NamedGroup_parse : Parse ParseError NamedGroup := parse_code 2 NamedGroup_of.
Definition SignatureScheme_parse : Parse ParseError SignatureScheme := parse_code 2 SignatureScheme_of.
Definition ExtensionType_parse : Parse ParseError ExtensionType.ExtensionType := parse_code 2 ExtensionType_of.
Definition NamedGroup_encode (g : NamedGroup) : Enc unit := encode_error (push_u16 (NamedGroup_as_u16 g)).
Definition ExtensionType_encode (t : ExtensionType.ExtensionType) : Enc unit := encode_error (push_u16 (ExtensionType_as_u16 t)).

(** ** Extension data ([extensions/extension_data/]) *)

(** A name has type 0, [NameType::HostName], and is ASCII. *)
Definition ServerName_parse : Parse ParseError bytes :=
  parse_code 1 (fun v => if v =? 0 then Some tt else None);;
  name_len ← read_u16;
  name ← pb_slice (Z.to_nat name_len);
  if forallb (fun b => b <? 128) name then mret name else op_fail InvalidData.
Definition ServerName_encode (name : bytes) : Enc unit :=
  encode_error (cb_push 0);;
  encode_error (with_u16_length (extend_from_slice name)).
Definition ServerNameList_parse (N : nat) : Parse ParseError (list bytes) :=
  data_length ← read_u16; read_list N (Z.to_nat data_length) ServerName_parse.
Definition ServerNameList_encode (names : list bytes) : Enc unit := with_u16_length (enc_all ServerName_encode names).
Definition ServerNameResponse_parse : Parse ParseError unit := fun buf =>
  if pb_is_empty buf then Some (Ok tt, buf) else Some (Err InvalidData, buf).

Definition TLS13 : Z := 0x0304.
Definition ProtocolVersion_parse : Parse ParseError Z := read_u16.
Definition ProtocolVersion_encode (v : Z) : Enc unit := encode_error (push_u16 v).
Definition SupportedVersions_parse (N : nat) : Parse ParseError (list Z) :=
  data_length ← read_u8; read_list N (Z.to_nat data_length) ProtocolVersion_parse.
Definition SupportedVersions_encode (versions : list Z) : Enc unit :=
  with_u8_length (enc_all ProtocolVersion_encode versions).

Definition SignatureAlgorithms_parse (N : nat) : Parse ParseError (list SignatureScheme) :=
  data_length ← read_u16; read_list N (Z.to_nat data_length) SignatureScheme_parse.
Definition SignatureAlgorithms_encode (schemes : list SignatureScheme) : Enc unit :=
  with_u16_length (enc_all (fun a => encode_error (push_u16 (SignatureScheme_as_u16 a))) schemes).
Definition SupportedGroups_parse (N : nat) : Parse ParseError (list NamedGroup) :=
  data_length ← read_u16; read_list N (Z.to_nat data_length) NamedGroup_parse.
Definition SupportedGroups_encode (groups : list NamedGroup) : Enc unit := with_u16_length (enc_all NamedGroup_encode groups).

Record KeyShareEntry := { ks_group : NamedGroup; ks_opaque : bytes }.
Definition KeyShareEntry_parse : Parse ParseError KeyShareEntry :=
  group ← NamedGroup_parse;
  opaque_len ← read_u16;
  opaque ← pb_slice (Z.to_nat opaque_len);
  mret {| ks_group := group; ks_opaque := opaque |}.
Definition KeyShareEntry_encode (self : KeyShareEntry) : Enc unit :=
  NamedGroup_encode (ks_group self);;
  encode_error (with_u16_length (extend_from_slice (ks_opaque self))).
Definition KeyShareClientHello_parse (N : nat) : Parse ParseError (list KeyShareEntry) :=
  len ← read_u16; read_list N (Z.to_nat len) KeyShareEntry_parse.
Definition KeyShareClientHello_encode (shares : list KeyShareEntry) : Enc unit :=
  with_u16_length (enc_all KeyShareEntry_encode shares).

(** Parsing the client's side of the extension is [unimplemented!()]. *)
Record PreSharedKeyClientHello := { identities : list bytes; hash_size : nat }.
Definition PreSharedKeyClientHello_parse : Parse ParseError PreSharedKeyClientHello := op_panic.
Definition PreSharedKeyClientHello_encode (self : PreSharedKeyClientHello) : Enc unit :=
  let binders_len := ((1 + hash_size self) * length (identities self))%nat in
  encode_error (with_u16_length (enc_all (fun identity =>
    encode_error (with_u16_length (extend_from_slice identity));; encode_error (push_u32 0)) (identities self)));;
  encode_error (push_u16 (wrap 16 (Z.of_nat binders_len)));;
  enc_all (fun _ => encode_error (cb_push 0)) (seq 0 binders_len).
Definition PreSharedKeyServerHello_parse : Parse ParseError Z := read_u16.

Inductive PskKeyExchangeMode := PskKe | PskDheKe.
Definition PskKeyExchangeMode_as_u8 (m : PskKeyExchangeMode) : Z := match m with PskKe => 0 | PskDheKe => 1 end.
Definition PskKeyExchangeMode_of (v : Z) : option PskKeyExchangeMode :=
  match v with 0 => Some PskKe | 1 => Some PskDheKe | _ => None end.
Definition PskKeyExchangeMode_parse : Parse ParseError PskKeyExchangeMode := parse_code 1 PskKeyExchangeMode_of.
Definition PskKeyExchangeMode_encode (m : PskKeyExchangeMode) : Enc unit := encode_error (cb_push (PskKeyExchangeMode_as_u8 m)).
Definition PskKeyExchangeModes_parse (N : nat) : Parse ParseError (list PskKeyExchangeMode) :=
  data_length ← read_u8; read_list N (Z.to_nat data_length) PskKeyExchangeMode_parse.
Definition PskKeyExchangeModes_encode (modes : list PskKeyExchangeMode) : Enc unit :=
  with_u8_length (enc_all PskKeyExchangeMode_encode modes).

Inductive MaxFragmentLength := Bits9 | Bits10 | Bits11 | Bits12.
Definition MaxFragmentLength_as_u8 (m : MaxFragmentLength) : Z :=
  match m with Bits9 => 1 | Bits10 => 2 | Bits11 => 3 | Bits12 => 4 end.
Definition MaxFragmentLength_of (v : Z) : option MaxFragmentLength :=
  match v with 1 => Some Bits9 | 2 => Some Bits10 | 3 => Some Bits11 | 4 => Some Bits12 | _ => None end.
Definition MaxFragmentLength_parse : Parse ParseError MaxFragmentLength := parse_code 1 MaxFragmentLength_of.
Definition MaxFragmentLength_encode (m : MaxFragmentLength) : Enc unit := encode_error (cb_push (MaxFragmentLength_as_u8 m)).

(** Protocol names are checked and dropped when read. *)
Definition alpn_name : Parse ParseError unit :=
  name_len ← read_u8;
  if name_len =? 0 then op_fail InvalidData else pb_slice (Z.to_nat name_len);; mret tt.
Definition AlpnProtocolNameList_parse : Parse ParseError (list bytes) :=
  list_len ← read_u16;
  read_list (Z.to_nat list_len) (Z.to_nat list_len) alpn_name;; mret [].
Definition AlpnProtocolNameList_encode (protocols : list bytes) : Enc unit :=
  with_u16_length (enc_all (fun protocol =>
    encode_error (cb_push (wrap 8 (Z.of_nat (length protocol))));; extend_from_slice protocol) protocols).

Definition Unimplemented_parse : Parse ParseError bytes := fun buf => Some (Ok (pb_buffer buf), buf).

(** ** Extensions ([extensions/extension_group_macro.rs], [messages.rs]) *)

(** The result of [m] as a value. *)
Definition op_try {S E F A} (m : Op S E A) : Op S F (result E A) := fun s => '(r, s) ← m s; Some (Ok r, s).

(** What the macro generates for a group of extensions, given by the parser of
    the data of each type the group has. *)
Section ExtensionGroup.
Context {X : Type} (group : ExtensionType.ExtensionType -> option (Parse ParseError X)).

Definition extension_type_error (e : ParseError) : TlsError :=
  match e with InvalidData => UnknownExtensionType | _ => DecodeError end.
Definition extension_data (parse : Parse ParseError X) (data : bytes) : Parse TlsError X := fun buf =>
  '(r, _) ← parse (ParseBuffer_new data); Some (map_err (fun _ => DecodeError) r, buf).
Definition extension_parse : Parse TlsError X :=
  extension_type ← op_try ExtensionType_parse;
  data_len ← op_map_err (fun _ => DecodeError) read_u16;
  ext_data ← op_map_err (fun _ => DecodeError) (pb_slice (Z.to_nat data_len));
  ext_type ← op_lift (map_err extension_type_error extension_type);
  match group ext_type with
  | Some parse => extension_data parse ext_data
  | None => op_fail (AbortHandshake AlertLevel.Fatal AlertDescription.IllegalParameter)
  end.
Fixpoint extension_loop (fuel N : nat) (extensions : list X) : Parse TlsError (list X) := fun ext_buf =>
  if pb_is_empty ext_buf then Some (Ok extensions, ext_buf)
  else match fuel with
  | O => None
  | S fuel =>
      match extension_parse ext_buf with
      | Some (Ok extension, ext_buf) =>
          if (length extensions <? N)%nat then extension_loop fuel N (extensions ++ [extension]) ext_buf
          else Some (Err DecodeError, ext_buf)
      | Some (Err UnknownExtensionType, ext_buf) => extension_loop fuel N extensions ext_buf
      | Some (Err err, ext_buf) => Some (Err err, ext_buf)
      | None => None
      end
  end.
Definition parse_vector (N : nat) : Parse TlsError (list X) :=
  extensions_len ← op_map_err (fun _ => InvalidExtensionsLength) read_u16;
  ext_buf ← op_map_err ParseErr (pb_slice (Z.to_nat extensions_len));
  (fun buf => '(r, _) ← extension_loop (length ext_buf) N [] (ParseBuffer_new ext_buf); Some (r, buf)) : Parse TlsError (list X).
End ExtensionGroup.
Definition extension_encode (t : ExtensionType.ExtensionType) (data : Enc unit) : Enc unit :=
  ExtensionType_encode t;; with_u16_length data.
Definition parse_as {A X} (f : A -> X) (p : Parse ParseError A) : option (Parse ParseError X) := Some (a ← p; mret (f a)).

Module ClientHelloExtension.
Inductive ClientHelloExtension :=
| ServerName (names : list bytes)
| SupportedVersions (versions : list Z)
| SignatureAlgorithms (schemes : list SignatureScheme)
| SupportedGroups (groups : list NamedGroup)
| KeyShare (shares : list KeyShareEntry)
| PreSharedKey (psk : PreSharedKeyClientHello)
| PskKeyExchangeModes (modes : list PskKeyExchangeMode)
| SignatureAlgorithmsCert (schemes : list SignatureScheme)
| MaxFragmentLength (length : MaxFragmentLength)
| StatusRequest (data : bytes)
| UseSrtp (data : bytes)
| Heartbeat (data : bytes)
| ApplicationLayerProtocolNegotiation (protocols : list bytes)
| SignedCertificateTimestamp (data : bytes)
| ClientCertificateType (data : bytes)
| ServerCertificateType (data : bytes)
| Padding (data : bytes)
| EarlyData (data : bytes)
| Cookie (data : bytes)
| CertificateAuthorities (data : bytes)
| OidFilters (data : bytes)
| PostHandshakeAuth (data : bytes).
End ClientHelloExtension.
Definition ClientHelloExtension_type (e : ClientHelloExtension.ClientHelloExtension) : ExtensionType.ExtensionType :=
  match e with
  | ClientHelloExtension.ServerName _ => ExtensionType.ServerName
  | ClientHelloExtension.SupportedVersions _ => ExtensionType.SupportedVersions
  | ClientHelloExtension.SignatureAlgorithms _ => ExtensionType.SignatureAlgorithms
  | ClientHelloExtension.SupportedGroups _ => ExtensionType.SupportedGroups
  | ClientHelloExtension.KeyShare _ => ExtensionType.KeyShare
  | ClientHelloExtension.PreSharedKey _ => ExtensionType.PreSharedKey
  | ClientHelloExtension.PskKeyExchangeModes _ => ExtensionType.PskKeyExchangeModes
  | ClientHelloExtension.SignatureAlgorithmsCert _ => ExtensionType.SignatureAlgorithmsCert
  | ClientHelloExtension.MaxFragmentLength _ => ExtensionType.MaxFragmentLength
  | ClientHelloExtension.StatusRequest _ => ExtensionType.StatusRequest
  | ClientHelloExtension.UseSrtp _ => ExtensionType.UseSrtp
  | ClientHelloExtension.Heartbeat _ => ExtensionType.Heartbeat
  | ClientHelloExtension.ApplicationLayerProtocolNegotiation _ => ExtensionType.ApplicationLayerProtocolNegotiation
  | ClientHelloExtension.SignedCertificateTimestamp _ => ExtensionType.SignedCertificateTimestamp
  | ClientHelloExtension.ClientCertificateType _ => ExtensionType.ClientCertificateType
  | ClientHelloExtension.ServerCertificateType _ => ExtensionType.ServerCertificateType
  | ClientHelloExtension.Padding _ => ExtensionType.Padding
  | ClientHelloExtension.EarlyData _ => ExtensionType.EarlyData
  | ClientHelloExtension.Cookie _ => ExtensionType.Cookie
  | ClientHelloExtension.CertificateAuthorities _ => ExtensionType.CertificateAuthorities
  | ClientHelloExtension.OidFilters _ => ExtensionType.OidFilters
  | ClientHelloExtension.PostHandshakeAuth _ => ExtensionType.PostHandshakeAuth
  end.
Definition ClientHelloExtension_data (e : ClientHelloExtension.ClientHelloExtension) : Enc unit :=
  match e with
  | ClientHelloExtension.ServerName names => ServerNameList_encode names
  | ClientHelloExtension.SupportedVersions versions => SupportedVersions_encode versions
  | ClientHelloExtension.SignatureAlgorithms schemes
  | ClientHelloExtension.SignatureAlgorithmsCert schemes => SignatureAlgorithms_encode schemes
  | ClientHelloExtension.SupportedGroups groups => SupportedGroups_encode groups
  | ClientHelloExtension.KeyShare shares => KeyShareClientHello_encode shares
  | ClientHelloExtension.PreSharedKey psk => PreSharedKeyClientHello_encode psk
  | ClientHelloExtension.PskKeyExchangeModes modes => PskKeyExchangeModes_encode modes
  | ClientHelloExtension.MaxFragmentLength length => MaxFragmentLength_encode length
  | ClientHelloExtension.ApplicationLayerProtocolNegotiation protocols => AlpnProtocolNameList_encode protocols
  | ClientHelloExtension.StatusRequest data | ClientHelloExtension.UseSrtp data | ClientHelloExtension.Heartbeat data
  | ClientHelloExtension.SignedCertificateTimestamp data | ClientHelloExtension.ClientCertificateType data
  | ClientHelloExtension.ServerCertificateType data | ClientHelloExtension.Padding data
  | ClientHelloExtension.EarlyData data | ClientHelloExtension.Cookie data
  | ClientHelloExtension.CertificateAuthorities data | ClientHelloExtension.OidFilters data
  | ClientHelloExtension.PostHandshakeAuth data => extend_from_slice data
  end.
Definition ClientHelloExtension_encode (e : ClientHelloExtension.ClientHelloExtension) : Enc unit :=
  extension_encode (ClientHelloExtension_type e) (ClientHelloExtension_data e).
Definition ClientHelloExtension_group (t : ExtensionType.ExtensionType) : option (Parse ParseError ClientHelloExtension.ClientHelloExtension) :=
  match t with
  | ExtensionType.ServerName => parse_as ClientHelloExtension.ServerName (ServerNameList_parse 1)
  | ExtensionType.SupportedVersions => parse_as ClientHelloExtension.SupportedVersions (SupportedVersions_parse 1)
  | ExtensionType.SignatureAlgorithms => parse_as ClientHelloExtension.SignatureAlgorithms (SignatureAlgorithms_parse 25)
  | ExtensionType.SupportedGroups => parse_as ClientHelloExtension.SupportedGroups (SupportedGroups_parse 13)
  | ExtensionType.KeyShare => parse_as ClientHelloExtension.KeyShare (KeyShareClientHello_parse 1)
  | ExtensionType.PreSharedKey => parse_as ClientHelloExtension.PreSharedKey PreSharedKeyClientHello_parse
  | ExtensionType.PskKeyExchangeModes => parse_as ClientHelloExtension.PskKeyExchangeModes (PskKeyExchangeModes_parse 4)
  | ExtensionType.SignatureAlgorithmsCert => parse_as ClientHelloExtension.SignatureAlgorithmsCert (SignatureAlgorithms_parse 25)
  | ExtensionType.MaxFragmentLength => parse_as ClientHelloExtension.MaxFragmentLength MaxFragmentLength_parse
  | ExtensionType.StatusRequest => parse_as ClientHelloExtension.StatusRequest Unimplemented_parse
  | ExtensionType.UseSrtp => parse_as ClientHelloExtension.UseSrtp Unimplemented_parse
  | ExtensionType.Heartbeat => parse_as ClientHelloExtension.Heartbeat Unimplemented_parse
  | ExtensionType.ApplicationLayerProtocolNegotiation =>
      parse_as ClientHelloExtension.ApplicationLayerProtocolNegotiation AlpnProtocolNameList_parse
  | ExtensionType.SignedCertificateTimestamp => parse_as ClientHelloExtension.SignedCertificateTimestamp Unimplemented_parse
  | ExtensionType.ClientCertificateType => parse_as ClientHelloExtension.ClientCertificateType Unimplemented_parse
  | ExtensionType.ServerCertificateType => parse_as ClientHelloExtension.ServerCertificateType Unimplemented_parse
  | ExtensionType.Padding => parse_as ClientHelloExtension.Padding Unimplemented_parse
  | ExtensionType.EarlyData => parse_as ClientHelloExtension.EarlyData Unimplemented_parse
  | ExtensionType.Cookie => parse_as ClientHelloExtension.Cookie Unimplemented_parse
  | ExtensionType.CertificateAuthorities => parse_as ClientHelloExtension.CertificateAuthorities Unimplemented_parse
  | ExtensionType.OidFilters => parse_as ClientHelloExtension.OidFilters Unimplemented_parse
  | ExtensionType.PostHandshakeAuth => parse_as ClientHelloExtension.PostHandshakeAuth Unimplemented_parse
  | ExtensionType.CompressCertificate => None
  end.

Module ServerHelloExtension.
Inductive ServerHelloExtension :=
| KeyShare (entry : KeyShareEntry)
| PreSharedKey (selected_identity : Z)
| Cookie (data : bytes)
| SupportedVersions (selected_version : Z).
End ServerHelloExtension.
Definition ServerHelloExtension_group (t : ExtensionType.ExtensionType) : option (Parse ParseError ServerHelloExtension.ServerHelloExtension) :=
  match t with
  | ExtensionType.KeyShare => parse_as ServerHelloExtension.KeyShare KeyShareEntry_parse
  | ExtensionType.PreSharedKey => parse_as ServerHelloExtension.PreSharedKey PreSharedKeyServerHello_parse
  | ExtensionType.Cookie => parse_as ServerHelloExtension.Cookie Unimplemented_parse
  | ExtensionType.SupportedVersions => parse_as ServerHelloExtension.SupportedVersions ProtocolVersion_parse
  | _ => None
  end.

Module EncryptedExtensionsExtension.
Inductive EncryptedExtensionsExtension :=
| ServerName
| MaxFragmentLength (length : MaxFragmentLength)
| SupportedGroups (groups : list NamedGroup)
| UseSrtp (data : bytes)
| Heartbeat (data : bytes)
| ApplicationLayerProtocolNegotiation (protocols : list bytes)
| ClientCertificateType (data : bytes)
| ServerCertificateType (data : bytes)
| EarlyData (data : bytes).
End EncryptedExtensionsExtension.
Definition EncryptedExtensionsExtension_group (t : ExtensionType.ExtensionType)
  : option (Parse ParseError EncryptedExtensionsExtension.EncryptedExtensionsExtension) :=
  match t with
  | ExtensionType.ServerName => parse_as (fun _ => EncryptedExtensionsExtension.ServerName) ServerNameResponse_parse
  | ExtensionType.MaxFragmentLength => parse_as EncryptedExtensionsExtension.MaxFragmentLength MaxFragmentLength_parse
  | ExtensionType.SupportedGroups => parse_as EncryptedExtensionsExtension.SupportedGroups (SupportedGroups_parse 13)
  | ExtensionType.UseSrtp => parse_as EncryptedExtensionsExtension.UseSrtp Unimplemented_parse
  | ExtensionType.Heartbeat => parse_as EncryptedExtensionsExtension.Heartbeat Unimplemented_parse
  | ExtensionType.ApplicationLayerProtocolNegotiation =>
      parse_as EncryptedExtensionsExtension.ApplicationLayerProtocolNegotiation AlpnProtocolNameList_parse
  | ExtensionType.ClientCertificateType => parse_as EncryptedExtensionsExtension.ClientCertificateType Unimplemented_parse
  | ExtensionType.ServerCertificateType => parse_as EncryptedExtensionsExtension.ServerCertificateType Unimplemented_parse
  | ExtensionType.EarlyData => parse_as EncryptedExtensionsExtension.EarlyData Unimplemented_parse
  | _ => None
  end.

Module CertificateRequestExtension.
Inductive CertificateRequestExtension :=
| StatusRequest (data : bytes)
| SignatureAlgorithms (schemes : list SignatureScheme)
| SignedCertificateTimestamp (data : bytes)
| CertificateAuthorities (data : bytes)
| OidFilters (data : bytes)
| SignatureAlgorithmsCert (data : bytes)
| CompressCertificate (data : bytes).
End CertificateRequestExtension.
Definition CertificateRequestExtension_group (t : ExtensionType.ExtensionType)
  : option (Parse ParseError CertificateRequestExtension.CertificateRequestExtension) :=
  match t with
  | ExtensionType.StatusRequest => parse_as CertificateRequestExtension.StatusRequest Unimplemented_parse
  | ExtensionType.SignatureAlgorithms => parse_as CertificateRequestExtension.SignatureAlgorithms (SignatureAlgorithms_parse 25)
  | ExtensionType.SignedCertificateTimestamp => parse_as CertificateRequestExtension.SignedCertificateTimestamp Unimplemented_parse
  | ExtensionType.CertificateAuthorities => parse_as CertificateRequestExtension.CertificateAuthorities Unimplemented_parse
  | ExtensionType.OidFilters => parse_as CertificateRequestExtension.OidFilters Unimplemented_parse
  | ExtensionType.SignatureAlgorithmsCert => parse_as CertificateRequestExtension.SignatureAlgorithmsCert Unimplemented_parse
  | ExtensionType.CompressCertificate => parse_as CertificateRequestExtension.CompressCertificate Unimplemented_parse
  | _ => None
  end.

Module CertificateExtension.
Inductive CertificateExtension := StatusRequest (data : bytes) | SignedCertificateTimestamp (data : bytes).
End CertificateExtension.
Definition CertificateExtension_group (t : ExtensionType.ExtensionType) : option (Parse ParseError CertificateExtension.CertificateExtension) :=
  match t with
  | ExtensionType.StatusRequest => parse_as CertificateExtension.StatusRequest Unimplemented_parse
  | ExtensionType.SignedCertificateTimestamp => parse_as CertificateExtension.SignedCertificateTimestamp Unimplemented_parse
  | _ => None
  end.

Definition NewSessionTicketExtension_group (t : ExtensionType.ExtensionType) : option (Parse ParseError bytes) :=
  match t with ExtensionType.EarlyData => parse_as (fun data => data) Unimplemented_parse | _ => None end.

(** ** Handshake messages ([handshake/]) *)

Module HandshakeType.
Inductive HandshakeType :=
| ClientHello | ServerHello | NewSessionTicket | EndOfEarlyData | EncryptedExtensions | Certificate
| CertificateRequest | CertificateVerify | Finished | KeyUpdate | MessageHash.
End HandshakeType.
Definition HandshakeType_as_u8 (t : HandshakeType.HandshakeType) : Z :=
  match t with
  | HandshakeType.ClientHello => 1 | HandshakeType.ServerHello => 2 | HandshakeType.NewSessionTicket => 4
  | HandshakeType.EndOfEarlyData => 5 | HandshakeType.EncryptedExtensions => 8 | HandshakeType.Certificate => 11
  | HandshakeType.CertificateRequest => 13 | HandshakeType.CertificateVerify => 15 | HandshakeType.Finished => 20
  | HandshakeType.KeyUpdate => 24 | HandshakeType.MessageHash => 254
  end.
Definition HandshakeType_of (v : Z) : option HandshakeType.HandshakeType :=
  match v with
  | 1 => Some HandshakeType.ClientHello | 2 => Some HandshakeType.ServerHello | 4 => Some HandshakeType.NewSessionTicket
  | 5 => Some HandshakeType.EndOfEarlyData | 8 => Some HandshakeType.EncryptedExtensions | 11 => Some HandshakeType.Certificate
  | 13 => Some HandshakeType.CertificateRequest | 15 => Some HandshakeType.CertificateVerify | 20 => Some HandshakeType.Finished
  | 24 => Some HandshakeType.KeyUpdate | 254 => Some HandshakeType.MessageHash
  | _ => None
  end.
Definition HandshakeType_parse : Parse ParseError HandshakeType.HandshakeType := parse_code 1 HandshakeType_of.
Definition LEGACY_VERSION : Z := 0x0303.

(** [TlsConfig] of [config.rs], with the signature schemes of the build, which
    has the [alloc] feature. *)
Record TlsConfig := {
  server_name : option bytes;
  alpn_protocols : option (list bytes);
  psk : option (bytes * list bytes);
  signature_schemes : list SignatureScheme;
  named_groups : list NamedGroup;
  max_fragment_length : option MaxFragmentLength
}.
Definition TlsConfig_new : TlsConfig := {|
  server_name := None; alpn_protocols := None; psk := None;
  signature_schemes := [RsaPkcs1Sha256; RsaPkcs1Sha384; RsaPkcs1Sha512; RsaPssRsaeSha256; RsaPssRsaeSha384; RsaPssRsaeSha512;
                        EcdsaSecp256r1Sha256; EcdsaSecp384r1Sha384; Ed25519];
  named_groups := [Secp256r1];
  max_fragment_length := None |}.
Definition with_server_name (name : bytes) (self : TlsConfig) : TlsConfig := {|
  server_name := Some name; alpn_protocols := alpn_protocols self; psk := psk self;
  signature_schemes := signature_schemes self; named_groups := named_groups self; max_fragment_length := max_fragment_length self |}.
(** The vector of identities holds four. *)
Definition with_psk (key : bytes) (identities : list bytes) (self : TlsConfig) : option TlsConfig :=
  if (length identities <=? 4)%nat then Some {|
    server_name := server_name self; alpn_protocols := alpn_protocols self; psk := Some (key, identities);
    signature_schemes := signature_schemes self; named_groups := named_groups self; max_fragment_length := max_fragment_length self |}
  else None.

(** *** Certificates *)

Inductive CertificateEntryRef := X509 (cert : bytes) | RawPublicKey (key : bytes).
Record CertificateRef := { raw_entries : bytes; request_context : bytes; entries : list CertificateEntryRef }.
Definition CertificateRef_with_context (context : bytes) : CertificateRef :=
  {| raw_entries := []; request_context := context; entries := [] |}.
Definition CertificateRef_add (entry : CertificateEntryRef) (self : CertificateRef) : result TlsError CertificateRef :=
  if (length (entries self) <? 16)%nat then
    Ok {| raw_entries := raw_entries self; request_context := request_context self; entries := entries self ++ [entry] |}
  else Err InsufficientSpace.
Definition CertificateEntryRef_parse : Parse TlsError CertificateEntryRef :=
  entry_len ← op_map_err (fun _ => InvalidCertificateEntry) read_u24;
  cert ← op_map_err (fun _ => InvalidCertificateEntry) (pb_slice (Z.to_nat entry_len));
  parse_vector CertificateExtension_group 2;;
  mret (X509 cert).
Definition CertificateEntryRef_parse_vector (N : nat) (raw : bytes) : option (result TlsError (list CertificateEntryRef)) :=
  '(r, _) ← parse_items (length raw) N DecodeError CertificateEntryRef_parse [] (ParseBuffer_new raw); Some r.
Definition CertificateRef_parse : Parse TlsError CertificateRef :=
  request_context_len ← op_map_err (fun _ => InvalidCertificate) read_u8;
  context ← op_map_err (fun _ => InvalidCertificate) (pb_slice (Z.to_nat request_context_len));
  entries_len ← op_map_err (fun _ => InvalidCertificate) read_u24;
  raw ← op_map_err (fun _ => InvalidCertificate) (pb_slice (Z.to_nat entries_len));
  l ← op_unwrap (CertificateEntryRef_parse_vector 16 raw);
  l ← op_lift l;
  mret {| raw_entries := raw; request_context := context; entries := l |}.
(** Encoding a raw public key is [todo!()]. *)
Definition CertificateEntryRef_encode (self : CertificateEntryRef) : Enc unit :=
  match self with
  | RawPublicKey _ => op_panic
  | X509 cert => with_u24_length (extend_from_slice cert);; push_u16 0
  end.
Definition CertificateRef_encode (self : CertificateRef) : Enc unit :=
  with_u8_length (extend_from_slice (request_context self));;
  with_u24_length (enc_all CertificateEntryRef_encode (entries self)).

(** [Certificate<N>], which owns its bytes. *)
Record Certificate := { own_context : bytes; entries_data : bytes }.
Definition Certificate_try_from (N : nat) (cert : CertificateRef) : result TlsError Certificate :=
  if (length (request_context cert) <=? 256)%nat && (length (raw_entries cert) <=? N)%nat then
    Ok {| own_context := request_context cert; entries_data := raw_entries cert |}
  else Err OutOfMemory.
Definition CertificateRef_try_from (cert : Certificate) : option (result TlsError CertificateRef) :=
  r ← CertificateEntryRef_parse_vector 16 (entries_data cert);
  Some (l ← r; Ok {| raw_entries := entries_data cert; request_context := own_context cert; entries := l |}).

(** The request context is the only part of a [CertificateRequest] that is kept. *)
Definition CertificateRequestRef_parse : Parse TlsError bytes :=
  request_context_len ← op_map_err (fun _ => InvalidCertificateRequest) read_u8;
  context ← op_map_err (fun _ => InvalidCertificateRequest) (pb_slice (Z.to_nat request_context_len));
  parse_vector CertificateRequestExtension_group 6;;
  mret context.
Definition CertificateRequest_try_from (context : bytes) : result TlsError bytes :=
  if (length context <=? 256)%nat then Ok context else Err InsufficientSpace.

(** [CertificateVerifyRef] and [CertificateVerify], which holds at most
    [SIGNATURE_SIZE] bytes. *)
Record CertificateVerify := { signature_scheme : SignatureScheme; signature : bytes }.
Definition SIGNATURE_SIZE : nat := 104.
Definition CertificateVerifyRef_parse : Parse TlsError CertificateVerify :=
  scheme ← op_map_err (fun _ => InvalidSignatureScheme) SignatureScheme_parse;
  len ← op_map_err (fun _ => InvalidSignature) read_u16;
  sig ← op_map_err (fun _ => InvalidSignature) (pb_slice (Z.to_nat len));
  mret {| signature_scheme := scheme; signature := sig |}.
Definition CertificateVerify_encode (self : CertificateVerify) : Enc unit :=
  push_u16 (SignatureScheme_as_u16 (signature_scheme self));;
  with_u16_length (extend_from_slice (signature self)).

(** *** The server's messages without content the client uses *)

Definition EncryptedExtensions_parse : Parse TlsError unit := parse_vector EncryptedExtensionsExtension_group 16;; mret tt.
Definition NewSessionTicket_parse : Parse TlsError unit :=
  lifetime ← op_map_err ParseErr read_u32;
  age_add ← op_map_err ParseErr read_u32;
  nonce_length ← op_map_err ParseErr read_u8;
  nonce ← op_map_err (fun _ => InvalidNonceLength) (pb_slice (Z.to_nat nonce_length));
  ticket_length ← op_map_err ParseErr read_u16;
  ticket ← op_map_err (fun _ => InvalidTicketLength) (pb_slice (Z.to_nat ticket_length));
  parse_vector NewSessionTicketExtension_group 1;; mret tt.

Section Handshake.
Context {K : Type} `{TlsCrypto K}.

(** *** Hellos and [Finished] *)

Record ServerHello := { sh_extensions : list ServerHelloExtension.ServerHelloExtension }.
Definition ServerHello_parse : Parse TlsError ServerHello :=
  op_map_err (fun _ => InvalidHandshake) read_u16;;
  op_map_err ParseErr (pb_fill 32);;
  session_id_length ← op_map_err (fun _ => InvalidSessionIdLength) read_u8;
  op_map_err (fun _ => InvalidSessionIdLength) (pb_slice (Z.to_nat session_id_length));;
  op_map_err (fun _ => InvalidCipherSuite) CipherSuite_parse;;
  op_map_err ParseErr read_u8;;
  extensions ← parse_vector ServerHelloExtension_group 4;
  mret {| sh_extensions := extensions |}.
Definition key_share (self : ServerHello) : option KeyShareEntry :=
  head (omap (fun e => match e with ServerHelloExtension.KeyShare entry => Some entry | _ => None end) (sh_extensions self)).
Definition calculate_shared_secret (secret : K) (self : ServerHello) : option bytes :=
  server_key_share ← key_share self; diffie_hellman secret (ks_opaque server_key_share).

Record ClientHello := { ch_config : TlsConfig; ch_random : bytes; ch_secret : K }.
Definition when_some {A} (x : option A) (enc : A -> Enc unit) : Enc unit :=
  match x with Some a => enc a | None => mret tt end.
Definition ClientHello_extensions (self : ClientHello) : Enc unit :=
  ClientHelloExtension_encode (ClientHelloExtension.SupportedVersions [TLS13]);;
  ClientHelloExtension_encode (ClientHelloExtension.SignatureAlgorithms (signature_schemes (ch_config self)));;
  when_some (max_fragment_length (ch_config self)) (fun l => ClientHelloExtension_encode (ClientHelloExtension.MaxFragmentLength l));;
  ClientHelloExtension_encode (ClientHelloExtension.SupportedGroups (named_groups (ch_config self)));;
  ClientHelloExtension_encode (ClientHelloExtension.PskKeyExchangeModes [PskDheKe]);;
  ClientHelloExtension_encode (ClientHelloExtension.KeyShare [{| ks_group := Secp256r1; ks_opaque := public_key (ch_secret self) |}]);;
  when_some (server_name (ch_config self)) (fun name => ClientHelloExtension_encode (ClientHelloExtension.ServerName [name]));;
  when_some (alpn_protocols (ch_config self))
    (fun protocols => ClientHelloExtension_encode (ClientHelloExtension.ApplicationLayerProtocolNegotiation protocols));;
  when_some (psk (ch_config self)) (fun '(_, ids) =>
    ClientHelloExtension_encode (ClientHelloExtension.PreSharedKey {| identities := ids; hash_size := hash_len |})).
Definition ClientHello_encode (self : ClientHello) : Enc unit :=
  encode_error (push_u16 LEGACY_VERSION);;
  encode_error (extend_from_slice (ch_random self));;
  encode_error (cb_push 0);;
  encode_error (push_u16 2);;
  encode_error (push_u16 CODE_POINT);;
  encode_error (cb_push 1);;
  encode_error (cb_push 0);;
  with_u16_length (ClientHello_extensions self).

(** [finalize] on the encoded message and the transcript: binders are put in
    at the end of the message, where their space is. *)
Definition PskBinder_encode (verify : bytes) : Enc unit :=
  encode_error (cb_push (wrap 8 (Z.of_nat (length verify))));; encode_error (extend_from_slice verify).
Definition ClientHello_finalize (write : WriteKeySchedule) (self : ClientHello) : Op (bytes * bytes) TlsError unit :=
  fun '(enc_buf, transcript) =>
  match psk (ch_config self) with
  | None => Some (Ok tt, (enc_buf, transcript ++ enc_buf))
  | Some (_, ids) =>
      let binders_len := (length ids * (1 + hash_len))%nat in
      if (length enc_buf <? binders_len + 2)%nat then None
      else
        let binders_pos := (length enc_buf - binders_len)%nat in
        let transcript := transcript ++ take (binders_pos - 2) enc_buf in
        '(r, buf) ← enc_all (fun _ => binder ← op_lift (create_psk_binder transcript write); PskBinder_encode binder) ids
                      (cb_wrap (drop binders_pos enc_buf));
        let enc_buf := take binders_pos enc_buf ++ cb_buf buf in
        match r with
        | Err e => Some (Err e, (enc_buf, transcript))
        | Ok _ => Some (Ok tt, (enc_buf, transcript ++ drop (binders_pos - 2) enc_buf))
        end
  end.

Definition Finished_parse : Parse TlsError Finished :=
  verify ← op_map_err ParseErr (pb_fill hash_len); mret {| fin_verify := verify; fin_hash := None |}.
Definition Finished_encode (self : Finished) : Enc unit := encode_error (extend_from_slice (fin_verify self)).

(** *** What the client sends *)

Inductive ClientHandshake :=
| ClientCert (certificate : CertificateRef)
| ClientCertVerify (verify : CertificateVerify)
| ClientHelloMsg (hello : ClientHello)
| ClientFinished (finished : Finished).
Definition ClientHandshake_type (self : ClientHandshake) : HandshakeType.HandshakeType :=
  match self with
  | ClientHelloMsg _ => HandshakeType.ClientHello
  | ClientFinished _ => HandshakeType.Finished
  | ClientCert _ => HandshakeType.Certificate
  | ClientCertVerify _ => HandshakeType.CertificateVerify
  end.
Definition ClientHandshake_encode_inner (self : ClientHandshake) : Enc unit :=
  match self with
  | ClientHelloMsg inner => ClientHello_encode inner
  | ClientFinished inner => Finished_encode inner
  | ClientCert inner => CertificateRef_encode inner
  | ClientCertVerify inner => CertificateVerify_encode inner
  end.
Definition ClientHandshake_encode (self : ClientHandshake) : Enc unit :=
  encode_error (cb_push (HandshakeType_as_u8 (ClientHandshake_type self)));;
  with_u24_length (ClientHandshake_encode_inner self).
Definition ClientHandshake_finalize (write : WriteKeySchedule) (self : ClientHandshake) : Op (bytes * bytes) TlsError unit :=
  match self with
  | ClientHelloMsg hello => ClientHello_finalize write hello
  | _ => fun '(enc_buf, transcript) => Some (Ok tt, (enc_buf, transcript ++ enc_buf))
  end.
Definition finalize_encrypted (enc_buf transcript : bytes) : bytes := transcript ++ enc_buf.

(** *** What the server sends *)

Inductive ServerHandshake :=
| ServerHelloMsg (hello : ServerHello)
| EncryptedExtensionsMsg
| NewSessionTicketMsg
| CertificateMsg (certificate : CertificateRef)
| CertificateRequestMsg (context : bytes)
| CertificateVerifyMsg (verify : CertificateVerify)
| FinishedMsg (finished : Finished).

(** The declared length of a message is read and not used. *)
Definition ServerHandshake_parse : Parse TlsError ServerHandshake :=
  handshake_type ← op_map_err (fun _ => InvalidHandshake) HandshakeType_parse;
  content_len ← op_map_err (fun _ => InvalidHandshake) read_u24;
  match handshake_type with
  | HandshakeType.ServerHello => h ← ServerHello_parse; mret (ServerHelloMsg h)
  | HandshakeType.NewSessionTicket => NewSessionTicket_parse;; mret NewSessionTicketMsg
  | HandshakeType.EncryptedExtensions => EncryptedExtensions_parse;; mret EncryptedExtensionsMsg
  | HandshakeType.Certificate => c ← CertificateRef_parse; mret (CertificateMsg c)
  | HandshakeType.CertificateRequest => c ← CertificateRequestRef_parse; mret (CertificateRequestMsg c)
  | HandshakeType.CertificateVerify => v ← CertificateVerifyRef_parse; mret (CertificateVerifyMsg v)
  | HandshakeType.Finished => f ← Finished_parse; mret (FinishedMsg f)
  | _ => op_fail Unimplemented
  end.
(** A [Finished] gets the hash of what came before it. *)
Definition with_finished_hash (digest : bytes) (h : ServerHandshake) : ServerHandshake :=
  match h with
  | FinishedMsg f => FinishedMsg {| fin_verify := fin_verify f; fin_hash := Some (hash digest) |}
  | h => h
  end.
Definition ServerHandshake_read : Op (ParseBuffer * bytes) TlsError ServerHandshake := fun '(buf, digest) =>
  let handshake_start := pb_pos buf in
  '(r, buf) ← ServerHandshake_parse buf;
  match r with
  | Err e => Some (Err e, (buf, digest))
  | Ok handshake =>
      message ← range handshake_start (pb_pos buf - handshake_start) (pb_buffer buf);
      Some (Ok (with_finished_hash digest handshake), (buf, digest ++ message))
  end.
End Handshake.

(** ** Reading ends *)

Lemma consumes_code {A} n (code : Z -> option A) : Consumes n (parse_code n code).
Proof. apply consumes_then; [apply consumes_uint | intros; apply consumes_lift]. Qed.
(** Something is made of the bytes of a slice. *)
Lemma consumes_sub {F A} n (g : ParseError -> F) (k : bytes -> Parse F A) :
  (forall data, length data = n -> exists r, forall s, k data s = Some (r, s)) ->
  Consumes n (data ← op_map_err g (pb_slice n); k data).
Proof.
  intros Hk s Hs. unfold mbind, Op_bind, op_map_err, pb_slice, pb_has.
  destruct (Nat.leb_spec (pb_pos s + n) (length (pb_buffer s))) as [H|H].
  - rewrite range_some by done. cbn. destruct (Hk (take n (drop (pb_pos s) (pb_buffer s)))) as [r Hr].
    { rewrite length_take, length_drop. lia. }
    rewrite Hr. exists r, (pb_forward n s). unfold pb_ok. cbn. split_and!; [done | done | lia | destruct (is_ok r); lia].
  - eexists _, _. split; [reflexivity|]. cbn. split_and!; [done | done | lia].
Qed.
Lemma op_map_err_id {S E A} (m : Op S E A) s : op_map_err id m s = m s.
Proof. unfold op_map_err. destruct (m s) as [[[]]|]; done. Qed.
Lemma consumes_ext {E A} k (p q : Parse E A) : (forall s, p s = q s) -> Consumes k q -> Consumes k p.
Proof. intros E1 Hq s Hs. rewrite E1. by apply Hq. Qed.
Lemma items_end {E A} (p : Parse E A) N full data : Consumes 1 p ->
  exists r s', parse_items (length data) N full p [] (ParseBuffer_new data) = Some (r, s').
Proof.
  intros Hp. destruct (consumes_items p N full Hp (length data) [] (ParseBuffer_new data)) as (r & s' & E1 & _).
  - unfold pb_ok. cbn. lia.
  - unfold pb_remaining. cbn. lia.
  - by exists r, s'.
Qed.
Lemma consumes_list {A} n N (p : Parse ParseError A) : Consumes 1 p -> Consumes n (read_list N n p).
Proof.
  intros Hp. unfold read_list. eapply consumes_ext.
  2: apply (consumes_sub n id (fun data s => '(r, _) ← parse_items n N InsufficientParseSpace p [] (ParseBuffer_new data); Some (r, s))).
  - intros s. unfold mbind at 1 3, Op_bind. by rewrite op_map_err_id.
  - intros data <-. destruct (items_end p N InsufficientParseSpace data Hp) as (r & s' & ->). by exists r.
Qed.
Lemma consumes_counted {A} k n N (p : Parse ParseError A) : Consumes 1 p ->
  Consumes k (len ← read_uint (k + n); read_list N (Z.to_nat len) p).
Proof.
  intros Hp. apply consumes_then; [apply (consumes_weaken (k + n)), consumes_uint; lia|].
  intros len. apply (consumes_weaken (Z.to_nat len)), consumes_list; [lia | done].
Qed.
Create HintDb consumes.
#[local] Hint Resolve consumes_code consumes_uint consumes_slice consumes_fill consumes_ret consumes_fail consumes_lift : consumes.
#[local] Hint Unfold read_u8 read_u16 read_u24 read_u32 ProtocolVersion_parse PreSharedKeyServerHello_parse NamedGroup_parse
  SignatureScheme_parse CipherSuite_parse HandshakeType_parse MaxFragmentLength_parse op_ok_or : consumes.
#[local] Hint Extern 5 (Consumes _ (op_map_err _ _)) => apply consumes_map_err : consumes.

(** Steps through a parser that starts with a block of [k] bytes. *)
Ltac consume_rest := repeat first
  [ apply consumes_ret | apply consumes_fail | apply consumes_lift
  | apply consumes_first; [solve [eapply consumes_weaken; [apply Nat.le_0_l | eauto 4 with consumes]] | intros ?]
  | eapply consumes_weaken; [apply Nat.le_0_l | solve [eauto 4 with consumes]] ].
Lemma consumes_entry : Consumes 1 KeyShareEntry_parse.
Proof.
  apply (consumes_weaken 2), (consumes_then _ _ 2); [lia | apply consumes_code | intros]. consume_rest.
Qed.
Lemma consumes_unimplemented : Consumes 0 Unimplemented_parse.
Proof. intros s Hs. eexists _, _. split; [reflexivity|]. split_and!; [done | done | cbn; lia]. Qed.
Lemma consumes_response : Consumes 0 ServerNameResponse_parse.
Proof.
  intros s Hs. unfold ServerNameResponse_parse. destruct (pb_is_empty s); eexists _, _; (split; [reflexivity|]); cbn; split_and!; (done || lia).
Qed.
Lemma consumes_alpn : Consumes 0 AlpnProtocolNameList_parse.
Proof.
  apply consumes_first; [apply (consumes_weaken 2), consumes_uint; lia|]. intros len.
  apply consumes_first; [|intros; apply consumes_ret]. apply (consumes_weaken (Z.to_nat len)), consumes_list; [lia|].
  apply (consumes_then _ _ 1); [apply consumes_uint|]. intros n. destruct (n =? 0); consume_rest.
Qed.

(** A group whose parsers do not panic. *)
Definition group_ok {X} (group : ExtensionType.ExtensionType -> option (Parse ParseError X)) : Prop :=
  forall t p, group t = Some p -> Consumes 0 p.
Lemma parse_as_ok {A X} (f : A -> X) p q : Consumes 0 p -> parse_as f p = Some q -> Consumes 0 q.
Proof. intros Hp [= <-]. apply consumes_first; [done | intros; apply consumes_ret]. Qed.
Ltac group_cases := intros [] q E; cbn in E; try discriminate E; revert E; apply parse_as_ok;
  first [ apply consumes_unimplemented | apply consumes_response | apply consumes_alpn
        | apply (consumes_counted 0 2) | apply (consumes_weaken 1), consumes_entry; lia
        | eapply consumes_weaken; [apply Nat.le_0_l | apply consumes_code]
        | eapply consumes_weaken; [apply Nat.le_0_l | apply consumes_uint] ];
  try (apply (consumes_weaken 2), consumes_code; lia).
Lemma server_hello_ok : group_ok ServerHelloExtension_group.
Proof. group_cases. Qed.
Lemma encrypted_extensions_ok : group_ok EncryptedExtensionsExtension_group.
Proof. group_cases. Qed.
Lemma certificate_request_ok : group_ok CertificateRequestExtension_group.
Proof. group_cases. Qed.
Lemma certificate_ok : group_ok CertificateExtension_group.
Proof. group_cases. Qed.
Lemma session_ticket_ok : group_ok NewSessionTicketExtension_group.
Proof. group_cases. Qed.

Section Vectors.
Context {X : Type} (group : ExtensionType.ExtensionType -> option (Parse ParseError X)) (Hgroup : group_ok group).

(** An extension is at least four bytes, also one of an unknown type. *)
Lemma extension_progress s : pb_ok s -> exists r s', extension_parse group s = Some (r, s') /\
  pb_buffer s' = pb_buffer s /\ pb_ok s' /\ (pb_pos s <= pb_pos s')%nat /\
  match r with Ok _ | Err UnknownExtensionType => (pb_pos s + 4 <= pb_pos s')%nat | _ => True end.
Proof.
  intros Hs. unfold extension_parse, mbind at 1, Op_bind at 1, op_try.
  destruct (consumes_code 2 ExtensionType_of s Hs) as (rt & s1 & E1 & Eb1 & Ho1 & Hl1). fold ExtensionType_parse in E1. rewrite E1.
  assert (rt = Err InsufficientBytes \/ (pb_pos s + 2 <= pb_pos s1)%nat) as Hrt.
  { clear -E1 Hs. unfold ExtensionType_parse, parse_code, mbind, Op_bind, read_uint in E1. destruct (pb_has 2 s).
    - destruct (range _ _ _); [|discriminate E1]. cbn in E1. injection E1 as <- <-. right. cbn. lia.
    - injection E1 as <- <-. by left. }
  clear E1. cbn [mbind option_bind].
  destruct (consumes_map_err (fun _ => DecodeError) read_u16 2 (consumes_uint 2) s1 Ho1) as ([n|e] & s2 & E2 & Eb2 & Ho2 & Hl2);
    unfold mbind at 1, Op_bind at 1; rewrite E2; cbn in Hl2.
  2:{ assert (e = DecodeError) as ->.
      { unfold op_map_err in E2. destruct (read_u16 s1) as [[[]]|]; cbn in E2; congruence. }
      eexists _, _. split; [reflexivity|]. split_and!; [congruence | done | lia | done]. }
  destruct (consumes_map_err (fun _ => DecodeError) _ _ (consumes_slice (Z.to_nat n)) s2 Ho2) as ([d|e] & s3 & E3 & Eb3 & Ho3 & Hl3);
    unfold mbind at 1, Op_bind at 1; rewrite E3; cbn in Hl3.
  2:{ assert (e = DecodeError) as ->.
      { unfold op_map_err in E3. destruct (pb_slice _ s2) as [[[]]|]; cbn in E3; congruence. }
      eexists _, _. split; [reflexivity|]. split_and!; [congruence | done | lia | done]. }
  assert (pb_buffer s3 = pb_buffer s) as Eb by congruence.
  unfold mbind, Op_bind, op_lift. destruct rt as [t|e]; cbn [map_err].
  - cbn in Hl1. destruct (group t) as [p|] eqn:Ep.
    + unfold extension_data. destruct (Hgroup t p Ep (ParseBuffer_new d)) as (r & s' & -> & _); [unfold pb_ok; cbn; lia|].
      cbn. eexists _, _. split; [reflexivity|]. split_and!; [done | done | lia |]. destruct r; cbn; [lia | done].
    + eexists _, _. split; [reflexivity|]. split_and!; [done | done | lia | done].
  - eexists _, _. split; [reflexivity|]. split_and!; [done | done | lia |].
    destruct Hrt as [[= ->]|Hrt]; [done|]. destruct e; cbn; (done || lia).
Qed.
Lemma extension_loop_end N fuel : forall acc s, pb_ok s -> (pb_remaining s <= fuel)%nat ->
  exists r s', extension_loop group fuel N acc s = Some (r, s').
Proof.
  induction fuel as [|fuel IH]; intros acc s Hs Hf; cbn [extension_loop]; unfold pb_is_empty, pb_remaining, pb_ok in *.
  - rewrite (proj2 (Nat.eqb_eq _ _)) by lia. by eexists _, _.
  - destruct (_ =? _)%nat; [by eexists _, _|].
    destruct (extension_progress s Hs) as (r & s1 & -> & Eb & Ho & Hl & Hr).
    assert (forall acc, (pb_pos s + 4 <= pb_pos s1)%nat -> exists r s', extension_loop group fuel N acc s1 = Some (r, s')) as Hgo.
    { intros acc' H4. apply IH; [done | rewrite Eb; lia]. }
    destruct r as [x|[]]; try (by apply Hgo); try (by eexists _, _).
    destruct (length acc <? N)%nat; [by apply Hgo | by eexists _, _].
Qed.
Lemma consumes_vector N : Consumes 2 (parse_vector group N).
Proof.
  apply (consumes_then _ _ 2); [apply consumes_map_err, (consumes_uint 2)|]. intros n.
  apply (consumes_weaken (Z.to_nat n)); [lia|]. apply consumes_sub. intros data _.
  destruct (extension_loop_end N (length data) [] (ParseBuffer_new data)) as (r & s & E).
  - unfold pb_ok. cbn. lia.
  - unfold pb_remaining. cbn. lia.
  - exists r. intros s'. by rewrite E.
Qed.
End Vectors.

#[local] Hint Resolve consumes_vector server_hello_ok encrypted_extensions_ok certificate_request_ok certificate_ok session_ticket_ok : consumes.
Lemma consumes_cert_entry : Consumes 3 CertificateEntryRef_parse.
Proof.
  apply (consumes_then _ _ 3); [apply consumes_map_err, (consumes_uint 3)|]. intros n. consume_rest.
Qed.
Lemma entries_end N raw : exists r, CertificateEntryRef_parse_vector N raw = Some r.
Proof.
  unfold CertificateEntryRef_parse_vector.
  destruct (items_end CertificateEntryRef_parse N DecodeError raw) as (r & s & ->); [|by exists r].
  apply (consumes_weaken 3), consumes_cert_entry. lia.
Qed.
Lemma consumes_certificate : Consumes 0 CertificateRef_parse.
Proof.
  unfold CertificateRef_parse. do 4 (apply consumes_first; [solve [eapply consumes_weaken; [apply Nat.le_0_l | eauto 4 with consumes]] | intros ?]).
  destruct (entries_end 16 a2) as [r E]. apply consumes_first.
  - unfold op_unwrap. rewrite E. apply (consumes_ret (E := TlsError) r).
  - intros. consume_rest.
Qed.
Section Total.
Context {K : Type} `{TlsCrypto K}.

(** C29: reading a handshake message from any bytes ends without a panic: with
    a message, for which it goes forward by at least its header of four bytes,
    or with an error, and never past the end of the buffer. *)
Theorem server_handshake_total (s : ParseBuffer) (Hs : pb_ok s) : exists r s',
  ServerHandshake_parse s = Some (r, s') /\ pb_buffer s' = pb_buffer s /\ pb_ok s' /\
  (pb_pos s + (if is_ok r then 4 else 0) <= pb_pos s')%nat.
Proof.
  revert s Hs. change (Consumes 4 ServerHandshake_parse).
  apply (consumes_bind 1 3); [apply consumes_map_err, (consumes_code 1)|]. intros t.
  apply (consumes_then _ _ 3); [apply consumes_map_err, (consumes_uint 3)|]. intros n.
  destruct t; try apply consumes_fail;
    (apply consumes_first; [|intros; apply consumes_ret]); try apply consumes_certificate;
    unfold ServerHello_parse, NewSessionTicket_parse, EncryptedExtensions_parse, CertificateRequestRef_parse,
      CertificateVerifyRef_parse, Finished_parse; consume_rest.
Qed.
End Total.

(** ** What is written is read back *)

(** [d] behind its length in [n] bytes, and a number in two bytes. *)
Definition vec (n : nat) (d : bytes) : bytes := be_bytes n (Z.of_nat (length d)) ++ d.
Definition fits (n : nat) (d : bytes) : Prop := Z.of_nat (length d) < 256 ^ Z.of_nat n.
Lemma pow_256 n : 2 ^ (8 * Z.of_nat n) = 256 ^ Z.of_nat n.
Proof. rewrite Z.pow_mul_r by lia. done. Qed.
Lemma encodes_vec n m d : Encodes m d -> fits n d -> Encodes (with_length n m) (vec n d).
Proof.
  intros Hm Hf. apply (encodes_eq _ _ _ (encodes_with_length n m d Hm)). unfold vec, wrap. f_equal. f_equal.
  apply Z.mod_small. rewrite pow_256. unfold fits in Hf. lia.
Qed.
Lemma parses_length {E} n d (g : ParseError -> E) : fits n d ->
  Parses (op_map_err g (read_uint n)) (be_bytes n (Z.of_nat (length d))) (Z.of_nat (length d)).
Proof. intros Hf. apply parses_map_err, parses_uint. unfold fits in Hf. lia. Qed.
(** A length and as many bytes. *)
Lemma parses_sized {E A} n d (g1 g2 : ParseError -> E) (f : bytes -> Parse E A) (a : A) d2 :
  fits n d -> Parses (f d) d2 a ->
  Parses (len ← op_map_err g1 (read_uint n); x ← op_map_err g2 (pb_slice (Z.to_nat len)); f x) (vec n d ++ d2) a.
Proof.
  intros Hf Hp. unfold vec. rewrite <- app_assoc. eapply parses_bind; [by apply parses_length|].
  rewrite Nat2Z.id. eapply parses_bind; [apply parses_map_err, parses_slice | exact Hp].
Qed.
Lemma parses_ext {E A} (p q : Parse E A) d a : (forall s, p s = q s) -> Parses q d a -> Parses p d a.
Proof. intros E1 Hq pre post. rewrite E1. apply Hq. Qed.
Lemma op_id_bind {S E A B} (m : Op S E A) (f : A -> Op S E B) s : (x ← op_map_err id m; f x) s = (x ← m; f x) s.
Proof. unfold mbind, Op_bind. by rewrite op_map_err_id. Qed.
Lemma parses_counted {A} k N (p : Parse ParseError A) (enc : A -> bytes) l :
  (forall a, a ∈ l -> Parses p (enc a) a /\ enc a <> []) -> (length l <= N)%nat -> fits k (mjoin (enc <$> l)) ->
  Parses (len ← read_uint k; read_list N (Z.to_nat len) p) (vec k (mjoin (enc <$> l))) l.
Proof.
  intros Hp Hl Hf. unfold vec. eapply parses_bind; [apply parses_uint; unfold fits in Hf; lia|].
  rewrite Nat2Z.id. by apply parses_list.
Qed.
Lemma parses_code {A} n (code : Z -> option A) v a : 0 <= v < 256 ^ Z.of_nat n -> code v = Some a ->
  Parses (parse_code n code) (be_bytes n v) a.
Proof. intros Hv Hc. eapply parses_then; [by apply parses_uint | by apply parses_ok_or]. Qed.
Lemma be_bytes_nonempty n v : (0 < n)%nat -> be_bytes n v <> [].
Proof. intros Hn E. apply (f_equal length) in E. rewrite length_be_bytes in E. cbn in E. lia. Qed.

Lemma NamedGroup_of_as g : NamedGroup_of (NamedGroup_as_u16 g) = Some g.
Proof. by destruct g. Qed.
Lemma SignatureScheme_of_as s : SignatureScheme_of (SignatureScheme_as_u16 s) = Some s.
Proof. by destruct s. Qed.
Lemma ExtensionType_of_as t : ExtensionType_of (ExtensionType_as_u16 t) = Some t.
Proof. by destruct t. Qed.
Lemma parses_group g : Parses NamedGroup_parse (be_bytes 2 (NamedGroup_as_u16 g)) g.
Proof. apply parses_code; [by destruct g | apply NamedGroup_of_as]. Qed.
Lemma parses_scheme s : Parses SignatureScheme_parse (be_bytes 2 (SignatureScheme_as_u16 s)) s.
Proof. apply parses_code; [by destruct s | apply SignatureScheme_of_as]. Qed.
Lemma parses_extension_type t : Parses ExtensionType_parse (be_bytes 2 (ExtensionType_as_u16 t)) t.
Proof. apply parses_code; [by destruct t | apply ExtensionType_of_as]. Qed.
Lemma parses_mode m : Parses PskKeyExchangeMode_parse (be_bytes 1 (PskKeyExchangeMode_as_u8 m)) m.
Proof. apply parses_code; by destruct m. Qed.

(** *** The extensions of the client *)

Definition server_name_bytes (name : bytes) : bytes := [0] ++ vec 2 name.
Definition entry_bytes (e : KeyShareEntry) : bytes := be_bytes 2 (NamedGroup_as_u16 (ks_group e)) ++ vec 2 (ks_opaque e).
(** The data of the extensions a client sends without a pre-shared key and
    without protocol names, whose parser keeps no names. *)
Definition client_data (e : ClientHelloExtension.ClientHelloExtension) : bytes :=
  match e with
  | ClientHelloExtension.ServerName names => vec 2 (mjoin (server_name_bytes <$> names))
  | ClientHelloExtension.SupportedVersions versions => vec 1 (mjoin (be_bytes 2 <$> versions))
  | ClientHelloExtension.SignatureAlgorithms schemes | ClientHelloExtension.SignatureAlgorithmsCert schemes =>
      vec 2 (mjoin ((fun s => be_bytes 2 (SignatureScheme_as_u16 s)) <$> schemes))
  | ClientHelloExtension.SupportedGroups groups => vec 2 (mjoin ((fun g => be_bytes 2 (NamedGroup_as_u16 g)) <$> groups))
  | ClientHelloExtension.KeyShare shares => vec 2 (mjoin (entry_bytes <$> shares))
  | ClientHelloExtension.PskKeyExchangeModes modes => vec 1 (mjoin ((fun m => be_bytes 1 (PskKeyExchangeMode_as_u8 m)) <$> modes))
  | ClientHelloExtension.MaxFragmentLength length => [MaxFragmentLength_as_u8 length]
  | ClientHelloExtension.PreSharedKey _ | ClientHelloExtension.ApplicationLayerProtocolNegotiation _ => []
  | ClientHelloExtension.StatusRequest data | ClientHelloExtension.UseSrtp data | ClientHelloExtension.Heartbeat data
  | ClientHelloExtension.SignedCertificateTimestamp data | ClientHelloExtension.ClientCertificateType data
  | ClientHelloExtension.ServerCertificateType data | ClientHelloExtension.Padding data
  | ClientHelloExtension.EarlyData data | ClientHelloExtension.Cookie data
  | ClientHelloExtension.CertificateAuthorities data | ClientHelloExtension.OidFilters data
  | ClientHelloExtension.PostHandshakeAuth data => data
  end.
Definition client_extension (e : ClientHelloExtension.ClientHelloExtension) : bytes :=
  be_bytes 2 (ExtensionType_as_u16 (ClientHelloExtension_type e)) ++ vec 2 (client_data e).
(** Sizes that fit, and the capacities of the parser's vectors. *)
Definition extension_fits (e : ClientHelloExtension.ClientHelloExtension) : Prop :=
  fits 2 (client_data e) /\
  match e with
  | ClientHelloExtension.ServerName names => (length names <= 1)%nat /\
      Forall (fun name => Forall (fun b => b < 128) name /\ fits 2 name) names /\ fits 2 (mjoin (server_name_bytes <$> names))
  | ClientHelloExtension.SupportedVersions versions => (length versions <= 1)%nat /\ Forall (uint 16) versions /\
      fits 1 (mjoin (be_bytes 2 <$> versions))
  | ClientHelloExtension.SignatureAlgorithms schemes | ClientHelloExtension.SignatureAlgorithmsCert schemes =>
      (length schemes <= 25)%nat /\ fits 2 (mjoin ((fun s => be_bytes 2 (SignatureScheme_as_u16 s)) <$> schemes))
  | ClientHelloExtension.SupportedGroups groups =>
      (length groups <= 13)%nat /\ fits 2 (mjoin ((fun g => be_bytes 2 (NamedGroup_as_u16 g)) <$> groups))
  | ClientHelloExtension.KeyShare shares => (length shares <= 1)%nat /\ Forall (fun e => fits 2 (ks_opaque e)) shares /\
      fits 2 (mjoin (entry_bytes <$> shares))
  | ClientHelloExtension.PskKeyExchangeModes modes =>
      (length modes <= 4)%nat /\ fits 1 (mjoin ((fun m => be_bytes 1 (PskKeyExchangeMode_as_u8 m)) <$> modes))
  | ClientHelloExtension.PreSharedKey _ | ClientHelloExtension.ApplicationLayerProtocolNegotiation _ => False
  | _ => True
  end.

Lemma encodes_u16 v : Encodes (push_u16 v) (be_bytes 2 v).
Proof. apply encodes_extend. Qed.
Lemma encodes_name name : fits 2 name -> Encodes (ServerName_encode name) (server_name_bytes name).
Proof.
  intros Hf. apply encodes_then; [apply encodes_error, encodes_push|].
  apply encodes_error, encodes_vec; [apply encodes_extend | done].
Qed.
Lemma parses_name name : Forall (fun b => b < 128) name -> fits 2 name -> Parses ServerName_parse (server_name_bytes name) name.
Proof.
  intros Ha Hf. unfold ServerName_parse, server_name_bytes. apply (parses_bind _ _ [0] (vec 2 name) tt).
  { change [0] with (be_bytes 1 0). by apply parses_code. }
  rewrite <- (app_nil_r (vec 2 name)).
  eapply parses_ext; [|apply (parses_sized 2 name id id (fun name => if forallb (fun b => b <? 128) name then mret name else op_fail InvalidData) name []); [done|]].
  - intros s. rewrite op_id_bind. unfold mbind, Op_bind. change read_u16 with (read_uint 2).
    destruct (read_uint 2 s) as [[[] s1]|]; try done. by rewrite op_map_err_id.
  - rewrite (proj2 (forallb_forall _ _)); [apply parses_ret|]. intros b Hb. apply Z.ltb_lt.
    rewrite Forall_forall in Ha. apply Ha, list_elem_of_In, Hb.
Qed.
Lemma encodes_entry e : fits 2 (ks_opaque e) -> Encodes (KeyShareEntry_encode e) (entry_bytes e).
Proof.
  intros Hf. apply encodes_then; [apply encodes_error, encodes_u16|]. apply encodes_error, encodes_vec; [apply encodes_extend | done].
Qed.
Lemma parses_entry e : fits 2 (ks_opaque e) -> Parses KeyShareEntry_parse (entry_bytes e) e.
Proof.
  intros Hf. destruct e as [g o]. unfold KeyShareEntry_parse, entry_bytes. cbn [ks_group ks_opaque] in *.
  eapply parses_bind; [apply parses_group|]. unfold vec. eapply parses_bind; [apply parses_uint; unfold fits in Hf; lia|].
  rewrite Nat2Z.id. eapply parses_then; [apply parses_slice | apply parses_ret].
Qed.

Lemma encodes_client_data e : extension_fits e -> Encodes (ClientHelloExtension_data e) (client_data e).
Proof.
  intros [_ Hf]. destruct e; cbn [ClientHelloExtension_data client_data] in *; try done;
    try apply encodes_extend; try (apply encodes_error, encodes_push).
  - destruct Hf as (_ & Hn & Hf). apply encodes_vec; [|done]. apply encodes_all. intros a Ha.
    rewrite Forall_forall in Hn. by apply encodes_name, Hn.
  - destruct Hf as (_ & _ & Hf). apply encodes_vec; [|done]. apply encodes_all. intros a _. apply encodes_error, encodes_u16.
  - apply encodes_vec; [|apply Hf]. apply encodes_all. intros a _. apply encodes_error, encodes_u16.
  - apply encodes_vec; [|apply Hf]. apply encodes_all. intros a _. apply encodes_error, encodes_u16.
  - destruct Hf as (_ & Hs & Hf). apply encodes_vec; [|done]. apply encodes_all. intros a Ha.
    rewrite Forall_forall in Hs. by apply encodes_entry, Hs.
  - apply encodes_vec; [|apply Hf]. apply encodes_all. intros [] _; apply encodes_error, encodes_push.
  - apply encodes_vec; [|apply Hf]. apply encodes_all. intros a _. apply encodes_error, encodes_u16.
Qed.
(** The data is all there is in the buffer it is parsed from. *)
Definition ParsesAll {E A} (p : Parse E A) (d : bytes) (a : A) : Prop := exists s, p (ParseBuffer_new d) = Some (Ok a, s).
Lemma parses_all {E A} (p : Parse E A) d a : Parses p d a -> ParsesAll p d a.
Proof. intros Hp. specialize (Hp [] []). rewrite app_nil_r in Hp. cbn [length app] in Hp. unfold ParsesAll, ParseBuffer_new. rewrite Hp. by eexists. Qed.
Lemma parse_as_all {A X} (f : A -> X) p d a : ParsesAll p d a -> exists q, parse_as f p = Some q /\ ParsesAll q d (f a).
Proof. intros [s Hp]. eexists. split; [done|]. exists s. unfold mbind, Op_bind. by rewrite Hp. Qed.
Lemma unimplemented_all d : ParsesAll Unimplemented_parse d d.
Proof. by eexists. Qed.
Lemma client_group_all e : extension_fits e ->
  exists p, ClientHelloExtension_group (ClientHelloExtension_type e) = Some p /\ ParsesAll p (client_data e) e.
Proof.
  intros [_ Hf]. destruct e; cbn [ClientHelloExtension_type ClientHelloExtension_group client_data] in *; try done;
    apply parse_as_all; try apply unimplemented_all; apply parses_all.
  - destruct Hf as (Hl & Hn & Hf). apply parses_counted; [|done..]. intros a Ha. rewrite Forall_forall in Hn.
    split; [by apply parses_name; apply Hn | done].
  - destruct Hf as (Hl & Hv & Hf). apply (parses_counted 1); [|done..]. intros a Ha. rewrite Forall_forall in Hv.
    split; [apply parses_uint; apply (Hv a Ha) | by apply be_bytes_nonempty; lia].
  - apply (parses_counted 2); [|apply Hf..]. intros a _. split; [apply parses_scheme | by apply be_bytes_nonempty; lia].
  - apply (parses_counted 2); [|apply Hf..]. intros a _. split; [apply parses_group | by apply be_bytes_nonempty; lia].
  - destruct Hf as (Hl & Hs & Hf). apply (parses_counted 2); [|done..]. intros a Ha. rewrite Forall_forall in Hs.
    split; [by apply parses_entry, Hs|]. intros E. apply (f_equal length) in E. unfold entry_bytes in E.
    rewrite length_app, length_be_bytes in E. cbn in E. lia.
  - apply (parses_counted 1); [|apply Hf..]. intros a _. split; [apply parses_mode | by apply be_bytes_nonempty; lia].
  - apply (parses_counted 2); [|apply Hf..]. intros a _. split; [apply parses_scheme | by apply be_bytes_nonempty; lia].
  - rewrite <- be_bytes_1 by (by destruct length). apply parses_code; by destruct length.
Qed.
Lemma encodes_client_extension e : extension_fits e -> Encodes (ClientHelloExtension_encode e) (client_extension e).
Proof.
  intros He. apply encodes_then; [apply encodes_error, encodes_u16|]. apply encodes_vec; [by apply encodes_client_data | apply He].
Qed.
Lemma client_extension_nonempty e : client_extension e <> [].
Proof. intros E. apply (f_equal length) in E. unfold client_extension in E. rewrite length_app, length_be_bytes in E. cbn in E. lia. Qed.
(** An extension with the data its type's parser reads. *)
Lemma parses_extension {X} (group : ExtensionType.ExtensionType -> option (Parse ParseError X)) t p d (e : X) : group t = Some p -> ParsesAll p d e ->
  fits 2 d -> Parses (extension_parse group) (be_bytes 2 (ExtensionType_as_u16 t) ++ vec 2 d) e.
Proof.
  intros Hg [s Hp] Hf. unfold extension_parse. apply (parses_bind _ _ _ _ (Ok t)).
  { intros pre post. unfold op_try. by rewrite (parses_extension_type _ pre post). }
  rewrite <- (app_nil_r (vec 2 _)). apply parses_sized; [done|]. intros pre post. unfold mbind, Op_bind, op_lift.
  cbn [map_err]. rewrite Hg. unfold extension_data. rewrite Hp. by rewrite app_nil_r.
Qed.
Lemma parses_client_extension e : extension_fits e -> Parses (extension_parse ClientHelloExtension_group) (client_extension e) e.
Proof. intros He. destruct (client_group_all e He) as (p & Hg & Hp). by apply (parses_extension _ _ p); [done.. | apply He]. Qed.
(** A vector of extensions that are parsed one after the other. *)
Lemma extension_loop_ok {X} (group : ExtensionType.ExtensionType -> option (Parse ParseError X)) (enc : X -> bytes) l : forall fuel N acc pre,
  Forall (fun e => Parses (extension_parse group) (enc e) e /\ enc e <> []) l -> (length l <= fuel)%nat -> (length (acc ++ l) <= N)%nat ->
  exists s, extension_loop group fuel N acc {| pb_pos := length pre; pb_buffer := pre ++ mjoin (enc <$> l) |} = Some (Ok (acc ++ l), s).
Proof.
  induction l as [|e l IH]; intros fuel N acc pre Hl Hf Hn.
  - rewrite !app_nil_r. destruct fuel; cbn [extension_loop]; unfold pb_is_empty; cbn [pb_pos pb_buffer]; rewrite Nat.eqb_refl; by eexists.
  - apply Forall_cons in Hl as [[He Hne] Hl]. destruct fuel as [|fuel]; [cbn in Hf; lia|]. cbn [extension_loop].
    change (mjoin (enc <$> e :: l)) with (enc e ++ mjoin (enc <$> l)).
    assert (pb_is_empty {| pb_pos := length pre; pb_buffer := pre ++ enc e ++ mjoin (enc <$> l) |} = false) as ->.
    { unfold pb_is_empty. cbn [pb_pos pb_buffer]. rewrite !length_app. apply Nat.eqb_neq. destruct (enc e); [done|]. cbn. lia. }
    rewrite (He pre). rewrite length_app in Hn. cbn in Hn. rewrite (proj2 (Nat.ltb_lt _ _)) by lia.
    rewrite app_assoc. destruct (IH fuel N (acc ++ [e]) (pre ++ enc e)) as [s Hs]; [done | cbn in Hf; lia | |].
    { rewrite !length_app. cbn. lia. }
    exists s. by rewrite Hs, <- app_assoc.
Qed.
Lemma parses_extensions {X} (group : ExtensionType.ExtensionType -> option (Parse ParseError X)) (enc : X -> bytes) N l :
  Forall (fun e => Parses (extension_parse group) (enc e) e /\ enc e <> []) l -> (length l <= N)%nat -> fits 2 (mjoin (enc <$> l)) ->
  Parses (parse_vector group N) (vec 2 (mjoin (enc <$> l))) l.
Proof.
  intros Hl Hn Hf. unfold parse_vector. rewrite <- (app_nil_r (vec 2 _)). apply parses_sized; [done|]. intros pre post.
  destruct (extension_loop_ok group enc l (length (mjoin (enc <$> l))) N [] []) as [s Hs]; [done | | done |].
  - rewrite Forall_forall in Hl. apply length_le_join. intros e He. by apply Hl.
  - cbn [length app] in Hs. unfold ParseBuffer_new. rewrite Hs. by rewrite app_nil_r.
Qed.
Lemma parses_client_vector N l : Forall extension_fits l -> (length l <= N)%nat -> fits 2 (mjoin (client_extension <$> l)) ->
  Parses (parse_vector ClientHelloExtension_group N) (vec 2 (mjoin (client_extension <$> l))) l.
Proof.
  intros Hl. apply parses_extensions. eapply Forall_impl; [exact Hl|]. intros e He.
  split; [by apply parses_client_extension | apply client_extension_nonempty].
Qed.
Section RoundTrips.
Context {K : Type} `{TlsCryptoLaws K}.

(** The extensions of a hello, in order. *)
Definition hello_extensions (h : ClientHello (K := K)) : list ClientHelloExtension.ClientHelloExtension :=
  let c := ch_config h in
  [ClientHelloExtension.SupportedVersions [TLS13]; ClientHelloExtension.SignatureAlgorithms (signature_schemes c)] ++
  option_list (ClientHelloExtension.MaxFragmentLength <$> max_fragment_length c) ++
  [ClientHelloExtension.SupportedGroups (named_groups c); ClientHelloExtension.PskKeyExchangeModes [PskDheKe];
   ClientHelloExtension.KeyShare [{| ks_group := Secp256r1; ks_opaque := public_key (ch_secret h) |}]] ++
  option_list ((fun name => ClientHelloExtension.ServerName [name]) <$> server_name c).
Definition hello_head (h : ClientHello (K := K)) : bytes :=
  be_bytes 2 LEGACY_VERSION ++ ch_random h ++ [0] ++ be_bytes 2 2 ++ be_bytes 2 CODE_POINT ++ [1] ++ [0].
Lemma encodes_some {A} (x : option A) (f : A -> ClientHelloExtension.ClientHelloExtension) (rest : Enc unit) d :
  Forall extension_fits (option_list (f <$> x)) -> Encodes rest d ->
  Encodes (when_some x (fun a => ClientHelloExtension_encode (f a));; rest)
    (mjoin (client_extension <$> option_list (f <$> x)) ++ d).
Proof.
  intros Hx Hr. apply encodes_then; [|done]. destruct x as [a|]; cbn [when_some]; [|apply encodes_ret].
  cbn in Hx |- *. rewrite app_nil_r. apply encodes_client_extension. by inversion Hx.
Qed.
Lemma encodes_one e (rest : Enc unit) d : extension_fits e -> Encodes rest d ->
  Encodes (ClientHelloExtension_encode e;; rest) (client_extension e ++ d).
Proof. intros He Hr. apply encodes_then; [by apply encodes_client_extension | done]. Qed.
Lemma encodes_hello_extensions h : Forall extension_fits (hello_extensions h) ->
  psk (ch_config h) = None -> alpn_protocols (ch_config h) = None ->
  Encodes (ClientHello_extensions h) (mjoin (client_extension <$> hello_extensions h)).
Proof.
  intros Hf Hp Ha. unfold ClientHello_extensions, hello_extensions in *. rewrite Hp, Ha. cbn [when_some].
  rewrite !Forall_app, !Forall_cons in Hf. destruct Hf as ((H1 & H2 & _) & H3 & (H4 & H5 & H6 & _) & H7).
  eapply encodes_eq.
  - eapply encodes_one; [exact H1|]. eapply encodes_one; [exact H2|]. eapply encodes_some; [exact H3|].
    eapply encodes_one; [exact H4|]. eapply encodes_one; [exact H5|]. eapply encodes_one; [exact H6|].
    eapply (encodes_some _ (fun name => ClientHelloExtension.ServerName [name])); [exact H7|].
    apply (encodes_then _ _ [] []); apply encodes_ret.
  - rewrite !fmap_app, !join_app. cbn. by rewrite !app_nil_r, <- !app_assoc.
Qed.

Lemma encodes_client_hello h : psk (ch_config h) = None -> alpn_protocols (ch_config h) = None ->
  Forall extension_fits (hello_extensions h) -> fits 2 (mjoin (client_extension <$> hello_extensions h)) ->
  Encodes (ClientHello_encode h) (hello_head h ++ vec 2 (mjoin (client_extension <$> hello_extensions h))).
Proof.
  intros Hpsk Halpn Hfits Hall. unfold ClientHello_encode, hello_head. rewrite <- !app_assoc.
  repeat (apply encodes_then; [apply encodes_error; first [apply encodes_u16 | apply encodes_extend | apply encodes_push]|]).
  apply encodes_vec; [by apply encodes_hello_extensions | done].
Qed.

(** a hello without a pre-shared key and without protocol names is
    written as the legacy version, the random bytes, an empty session, the one
    cipher suite, no compression and its extensions, or refused when it does
    not fit the buffer; and whoever reads its extensions with the parser of
    the library finds exactly those it was made of, among them TLS 1.3 as the
    only version, the public key of the ephemeral secret and the server's
    name. *)
Theorem client_hello_roundtrip (h : ClientHello (K := K)) (Hpsk : psk (ch_config h) = None) (Halpn : alpn_protocols (ch_config h) = None)
    (Hfits : Forall extension_fits (hello_extensions h)) (Hall : fits 2 (mjoin (client_extension <$> hello_extensions h))) :
  let text := vec 2 (mjoin (client_extension <$> hello_extensions h)) in
  Encodes (ClientHello_encode h) (hello_head h ++ text) /\
  Parses (parse_vector ClientHelloExtension_group 7) text (hello_extensions h) /\
  ClientHelloExtension.SupportedVersions [TLS13] ∈ hello_extensions h /\
  ClientHelloExtension.KeyShare [{| ks_group := Secp256r1; ks_opaque := public_key (ch_secret h) |}] ∈ hello_extensions h /\
  (forall name, server_name (ch_config h) = Some name -> (ClientHelloExtension.ServerName [name] ∈ hello_extensions h)).
Proof.
  intros text. split; [|split; [|split; [|split]]].
  - by apply encodes_client_hello.
  - apply parses_client_vector; [done | | done]. unfold hello_extensions. rewrite !length_app.
    destruct (max_fragment_length _), (server_name _); cbn; lia.
  - unfold hello_extensions. set_solver.
  - unfold hello_extensions. set_solver.
  - intros name E. unfold hello_extensions. rewrite E. cbn. set_solver.
Qed.

(** *** Certificates, signatures and [Finished] *)

Definition cert_entry_bytes (cert : bytes) : bytes := vec 3 cert ++ be_bytes 2 0.
Definition certificate_bytes (context : bytes) (certs : list bytes) : bytes :=
  vec 1 context ++ vec 3 (mjoin (cert_entry_bytes <$> certs)).
Definition verify_bytes (v : CertificateVerify) : bytes := be_bytes 2 (SignatureScheme_as_u16 (signature_scheme v)) ++ vec 2 (signature v).
(** The content of the three messages, and a message with its header. *)
Definition content_bytes (m : ClientHandshake (K := K)) : bytes :=
  match m with
  | ClientCert c => certificate_bytes (request_context c) (omap (fun e => match e with X509 cert => Some cert | _ => None end) (entries c))
  | ClientCertVerify v => verify_bytes v
  | ClientHelloMsg _ => []
  | ClientFinished f => fin_verify f
  end.
Definition message_bytes (m : ClientHandshake (K := K)) : bytes :=
  be_bytes 1 (HandshakeType_as_u8 (ClientHandshake_type m)) ++ vec 3 (content_bytes m).
Definition message_fits (m : ClientHandshake (K := K)) : Prop :=
  fits 3 (content_bytes m) /\
  match m with
  | ClientCert c => fits 1 (request_context c) /\ (length (entries c) <= 16)%nat /\
  Forall (fun e => match e with X509 cert => fits 3 cert | RawPublicKey _ => False end) (entries c) /\
  fits 3 (mjoin (cert_entry_bytes <$> omap (fun e => match e with X509 cert => Some cert | _ => None end) (entries c)))
  | ClientCertVerify v => fits 2 (signature v)
  | ClientHelloMsg _ => False
  | ClientFinished f => length (fin_verify f) = hash_len /\ fin_hash f = None
  end.
(** What is read: the certificate also keeps its entries as they arrived. *)
Definition received (m : ClientHandshake (K := K)) : ServerHandshake :=
  match m with
  | ClientCert c => CertificateMsg {| request_context := request_context c; entries := entries c;
      raw_entries := mjoin (cert_entry_bytes <$> omap (fun e => match e with X509 cert => Some cert | _ => None end) (entries c)) |}
  | ClientCertVerify v => CertificateVerifyMsg v
  | ClientHelloMsg _ => EncryptedExtensionsMsg
  | ClientFinished f => FinishedMsg f
  end.
Lemma encodes_cert_entry cert : fits 3 cert -> Encodes (CertificateEntryRef_encode (X509 cert)) (cert_entry_bytes cert).
Proof. intros Hf. apply encodes_then; [apply encodes_vec; [apply encodes_extend | done] | apply encodes_u16]. Qed.
Lemma parses_cert_entry cert : fits 3 cert -> Parses CertificateEntryRef_parse (cert_entry_bytes cert) (X509 cert).
Proof.
  intros Hf. apply (parses_sized 3); [done|]. rewrite <- (app_nil_r (be_bytes 2 0)). eapply parses_bind; [|apply parses_ret].
  intros pre post. unfold parse_vector, mbind at 1, Op_bind at 1.
  assert (Parses (op_map_err (fun _ => InvalidExtensionsLength) read_u16) (be_bytes 2 0) 0) as Hz.
  { apply parses_map_err, (parses_uint 2). cbn. lia. }
  rewrite (Hz pre post). unfold mbind, Op_bind, op_map_err, pb_slice, pb_has. cbn [pb_pos pb_buffer].
  rewrite (proj2 (Nat.leb_le _ _)) by (rewrite !length_app; cbn; lia).
  rewrite range_some by (rewrite !length_app; cbn; lia). cbn. unfold pb_forward. cbn. by rewrite Nat.add_0_r.
Qed.
Lemma cert_entries_join (l : list CertificateEntryRef) :
  Forall (fun e => match e with X509 cert => fits 3 cert | RawPublicKey _ => False end) l ->
  exists certs, l = X509 <$> certs /\ Forall (fits 3) certs /\
    omap (fun e => match e with X509 cert => Some cert | _ => None end) l = certs.
Proof.
  induction 1 as [|[cert|key] l He Hl (certs & -> & Hc & E)]; [by exists []| |done].
  exists (cert :: certs). split_and!; [done | by constructor | cbn; by f_equal].
Qed.
Lemma encodes_certificate c : message_fits (ClientCert c) -> Encodes (CertificateRef_encode c) (content_bytes (ClientCert c)).
Proof.
  intros (_ & Hc & _ & He & Hf). cbn [content_bytes]. apply encodes_then; [apply encodes_vec; [apply encodes_extend | done]|].
  apply encodes_vec; [|done]. destruct (cert_entries_join _ He) as (certs & -> & Hcs & ->).
  clear -Hcs. induction Hcs as [|cert certs H1 H2 IH]; [apply encodes_ret|]. cbn [fmap list_fmap enc_all].
  change (mjoin (cert_entry_bytes <$> cert :: certs)) with (cert_entry_bytes cert ++ mjoin (cert_entry_bytes <$> certs)).
  apply encodes_then; [by apply encodes_cert_entry | exact IH].
Qed.
Lemma parses_certificate c : message_fits (ClientCert c) ->
  Parses CertificateRef_parse (content_bytes (ClientCert c)) {| request_context := request_context c; entries := entries c;
      raw_entries := mjoin (cert_entry_bytes <$> omap (fun e => match e with X509 cert => Some cert | _ => None end) (entries c)) |}.
Proof.
  intros (_ & Hc & Hl & He & Hf). destruct (cert_entries_join _ He) as (certs & El & Hcs & Eo). cbn [content_bytes]. rewrite Eo in Hf |- *.
  apply (parses_sized 1); [done|]. rewrite <- (app_nil_r (vec 3 _)). apply (parses_sized 3); [done|].
  set (raw := mjoin (cert_entry_bytes <$> certs)).
  assert (CertificateEntryRef_parse_vector 16 raw = Some (Ok (entries c))) as Ep.
  { unfold CertificateEntryRef_parse_vector, ParseBuffer_new.
    pose proof (parses_items CertificateEntryRef_parse (fun e => match e with X509 cert => cert_entry_bytes cert | _ => [] end)
      DecodeError 16 (entries c) (length raw) [] []) as Hi.
    assert (mjoin ((fun e => match e with X509 cert => cert_entry_bytes cert | _ => [] end) <$> entries c) = raw) as Er.
    { rewrite El, <- list_fmap_compose. done. }
    rewrite Er in Hi. cbn [length app] in Hi. rewrite Hi; [done | | | done].
    - intros e Hin. rewrite El in Hin. apply list_elem_of_fmap in Hin as (cert & -> & Hin). rewrite Forall_forall in Hcs.
      split; [by apply parses_cert_entry, Hcs|]. intros E. apply (f_equal length) in E. unfold cert_entry_bytes, vec in E.
      rewrite !length_app, !length_be_bytes in E. cbn in E. lia.
    - rewrite El, length_fmap. apply length_le_join. intros cert _ E. apply (f_equal length) in E.
      unfold cert_entry_bytes, vec in E. rewrite !length_app, !length_be_bytes in E. cbn in E. lia. }
  intros pre post. unfold op_unwrap. rewrite Ep. by rewrite app_nil_r.
Qed.
Lemma encodes_content m : message_fits m -> Encodes (ClientHandshake_encode_inner m) (content_bytes m).
Proof.
  intros Hm. destruct m as [c|v|h|f]; cbn [ClientHandshake_encode_inner].
  - by apply encodes_certificate.
  - destruct Hm as [_ Hm]. apply encodes_then; [apply encodes_u16 | apply encodes_vec; [apply encodes_extend | done]].
  - by destruct Hm.
  - apply encodes_error, encodes_extend.
Qed.
Lemma parses_message m : message_fits m -> Parses ServerHandshake_parse (message_bytes m) (received m).
Proof.
  intros Hm. unfold ServerHandshake_parse, message_bytes.
  apply (parses_bind _ _ _ _ (ClientHandshake_type m)); [apply parses_map_err, parses_code; by destruct m|].
  unfold vec. eapply parses_bind; [apply parses_length, Hm|].
  destruct m as [c|v|h|f]; cbn [ClientHandshake_type received].
  - eapply parses_then; [by apply parses_certificate | apply parses_ret].
  - destruct Hm as [_ Hm], v as [s g]. eapply parses_then; [|apply parses_ret]. unfold CertificateVerifyRef_parse, content_bytes, verify_bytes.
    eapply parses_bind; [apply parses_map_err, parses_scheme|]. cbn [signature] in *. rewrite <- (app_nil_r (vec 2 g)).
    apply (parses_sized 2); [done | apply parses_ret].
  - by destruct Hm.
  - destruct Hm as (_ & Hl & Hh), f as [v h]. cbn in Hl, Hh. subst h. eapply parses_then; [|apply parses_ret].
    eapply parses_then; [by apply parses_map_err, parses_fill | apply parses_ret].
Qed.
(** A message that parses is read with the transcript taking its bytes. *)
Lemma reads_message d m pre post digest : Parses ServerHandshake_parse d m ->
  ServerHandshake_read ({| pb_pos := length pre; pb_buffer := pre ++ d ++ post |}, digest) =
  Some (Ok (with_finished_hash digest m), ({| pb_pos := length (pre ++ d); pb_buffer := pre ++ d ++ post |}, digest ++ d)).
Proof.
  intros Hp. unfold ServerHandshake_read. rewrite Hp. cbn [mbind option_bind pb_pos pb_buffer].
  replace (length (pre ++ d) - length pre)%nat with (length d) by (rewrite length_app; lia).
  by rewrite range_middle.
Qed.

(** the messages both sides send - certificates, their signature and
    [Finished] - are written as their type, their length and their content, or
    refused when there is no room, and are read back as what was written; the
    transcript takes exactly the bytes of the message, and a [Finished] gets
    the hash of what came before it. *)
Theorem handshake_roundtrip (m : ClientHandshake (K := K)) (Hm : message_fits m) :
  Encodes (ClientHandshake_encode m) (message_bytes m) /\
  forall pre post digest,
    ServerHandshake_read ({| pb_pos := length pre; pb_buffer := pre ++ message_bytes m ++ post |}, digest) =
    Some (Ok (with_finished_hash digest (received m)),
      ({| pb_pos := length (pre ++ message_bytes m); pb_buffer := pre ++ message_bytes m ++ post |}, digest ++ message_bytes m)).
Proof.
  split.
  - unfold ClientHandshake_encode, message_bytes. apply encodes_then.
    + rewrite be_bytes_1 by (by destruct m). apply encodes_error, encodes_push.
    + apply encodes_vec; [by apply encodes_content | apply Hm].
  - intros pre post digest. by apply reads_message, parses_message.
Qed.
End RoundTrips.

Module Sample.
Import TlsKeys.Sample.

(** A hello for a server's name, a certificate of two bytes. *)
Definition hello : ClientHello (K := Z) :=
  {| ch_config := with_server_name (lit "a.example") TlsConfig_new; ch_random := replicate 32 9; ch_secret := 5 |}.
Definition certificate : ClientHandshake (K := Z) :=
  ClientCert {| raw_entries := []; request_context := []; entries := [X509 [48; 0]] |}.
Lemma server_handshake_total_witness : pb_ok (ParseBuffer_new [20; 0; 0]) /\
  exists r s', ServerHandshake_parse (ParseBuffer_new [20; 0; 0]) = Some (r, s') /\ pb_ok s'.
Proof.
  assert (pb_ok (ParseBuffer_new [20; 0; 0])) as Hs by (unfold pb_ok; cbn; lia). split; [exact Hs|].
  destruct (server_handshake_total (K := Z) _ Hs) as (r & s' & E & _ & Ho & _). by exists r, s'.
Defined.
Lemma hello_fits : Forall extension_fits (hello_extensions hello).
Proof.
  unfold hello_extensions. cbn. repeat (apply Forall_cons_2; [unfold extension_fits, fits; vm_compute; repeat first [reflexivity | discriminate | split | constructor] | ]).
  apply Forall_nil_2.
Qed.
Lemma hello_all_fits : fits 2 (mjoin (client_extension <$> hello_extensions hello)).
Proof. unfold fits. vm_compute. reflexivity. Qed.
Lemma client_hello_roundtrip_witness : Encodes (ClientHello_encode hello)
  (hello_head hello ++ vec 2 (mjoin (client_extension <$> hello_extensions hello))).
Proof. exact (proj1 (client_hello_roundtrip hello eq_refl eq_refl hello_fits hello_all_fits)). Defined.
Lemma certificate_fits : message_fits certificate.
Proof.
  split; [by unfold fits; vm_compute|]. cbn [certificate request_context entries]. split_and!.
  - by unfold fits; vm_compute.
  - cbn. lia.
  - constructor; [by unfold fits; vm_compute | constructor].
  - by unfold fits; vm_compute.
Qed.
Lemma handshake_roundtrip_witness : Encodes (ClientHandshake_encode certificate) [11; 0; 0; 11; 0; 0; 0; 7; 0; 0; 2; 48; 0; 0; 0].
Proof. exact (proj1 (handshake_roundtrip certificate certificate_fits)). Defined.
End Sample.
