(* ===== verification/TlsRecord.v ===== *)
(** * Records of the TLS library

    [tools/embedded-tls/src]: records and their protection ([record.rs],
    [encrypt] and [decrypt_record] of [connection.rs]), the buffer records are
    written from ([write_buffer.rs]), the reader of records ([record_reader.rs])
    and the view of decrypted data ([common/], [read_buffer.rs]). The data of a
    record is a part of the reader's buffer, which decryption overwrites. *)
From S2P Require Import Prelude Str HttpBody HttpWriter HttpRequest HttpClient TlsBuffer TlsKeys TlsMessages.

Module ClientRecordHeader.
Inductive ClientRecordHeader := Handshake (encrypted : bool) | Alert (encrypted : bool) | ApplicationData.
#[global] Instance ClientRecordHeader_eq_dec : EqDecision ClientRecordHeader.
Proof. solve_decision. Defined.
End ClientRecordHeader.
Abbreviation Header := ClientRecordHeader.ClientRecordHeader.
Definition is_encrypted (h : Header) : bool :=
  match h with
  | ClientRecordHeader.Handshake encrypted | ClientRecordHeader.Alert encrypted => encrypted
  | ClientRecordHeader.ApplicationData => true
  end.
Definition header_content_type (h : Header) : ContentType.ContentType :=
  match h with
  | ClientRecordHeader.Handshake false => ContentType.Handshake
  | ClientRecordHeader.Alert false => ContentType.ChangeCipherSpec
  | ClientRecordHeader.Handshake true | ClientRecordHeader.Alert true | ClientRecordHeader.ApplicationData => ContentType.ApplicationData
  end.
Definition trailer_content_type (h : Header) : ContentType.ContentType :=
  match h with
  | ClientRecordHeader.Handshake _ => ContentType.Handshake
  | ClientRecordHeader.Alert _ => ContentType.Alert
  | ClientRecordHeader.ApplicationData => ContentType.ApplicationData
  end.
Definition version (h : Header) : bytes :=
  match h with
  | ClientRecordHeader.Handshake true | ClientRecordHeader.Alert true | ClientRecordHeader.ApplicationData => [3; 3]
  | ClientRecordHeader.Handshake false | ClientRecordHeader.Alert false => [3; 1]
  end.
Definition Header_encode (h : Header) : Enc unit :=
  encode_error (cb_push (ContentType_as_u8 (header_content_type h)));;
  encode_error (extend_from_slice (version h)).

(** [RecordHeader] is its five bytes; the type of a decoded one is known. *)
Definition HEADER_LEN : nat := 5.
Definition RecordHeader_decode (header : bytes) : option (result TlsError bytes) :=
  t ← header !! 0%nat;
  Some (match ContentType_of t with None => Err InvalidRecord | Some _ => Ok header end).
Definition content_type (header : bytes) : option ContentType.ContentType := t ← header !! 0%nat; ContentType_of t.
Definition content_length (header : bytes) : option nat :=
  hi ← header !! 3%nat; lo ← header !! 4%nat; Some (Z.to_nat (of_be_bytes [hi; lo])).

Record ApplicationData := { ad_header : bytes; ad_start : nat; ad_data : CryptoBuffer }.
Definition TLS_RECORD_OVERHEAD : nat := 128.

Section Records.
Context {K : Type} `{TlsCrypto K}.

Inductive ServerRecord :=
| HandshakeRecord (h : ServerHandshake)
| ChangeCipherSpecRecord
| AlertRecord (a : Alert)
| ApplicationDataRecord (d : ApplicationData).
Inductive ClientRecord :=
| ClientHandshakeRecord (h : ClientHandshake (K := K)) (encrypted : bool)
| ClientAlertRecord (a : Alert) (encrypted : bool).
Definition record_header (r : ClientRecord) : Header :=
  match r with
  | ClientHandshakeRecord _ encrypted => ClientRecordHeader.Handshake encrypted
  | ClientAlertRecord _ encrypted => ClientRecordHeader.Alert encrypted
  end.
Definition close_notify (opened : bool) : ClientRecord :=
  ClientAlertRecord {| al_level := AlertLevel.Warning; al_description := AlertDescription.CloseNotify |} opened.
Definition encode_payload (r : ClientRecord) : Enc unit :=
  match r with
  | ClientHandshakeRecord handshake _ => ClientHandshake_encode handshake
  | ClientAlertRecord alert _ => Alert_encode alert
  end.
(** The message in the buffer goes to the transcript; a hello with binders is
    completed there. *)
Definition finish_record (write : WriteKeySchedule) (r : ClientRecord) : Op (CryptoBuffer * bytes) TlsError unit :=
  fun '(buf, transcript) =>
  match r with
  | ClientHandshakeRecord handshake false =>
      enc_buf ← cb_as_slice buf;
      '(res, (enc_buf, transcript)) ← ClientHandshake_finalize write handshake (enc_buf, transcript);
      mem ← overwrite (cb_offset buf) enc_buf (cb_buf buf);
      Some (res, ({| cb_buf := mem; cb_offset := cb_offset buf; cb_len := cb_len buf |}, transcript))
  | ClientHandshakeRecord _ true =>
      enc_buf ← cb_as_slice buf; Some (Ok tt, (buf, finalize_encrypted enc_buf transcript))
  | ClientAlertRecord _ _ => Some (Ok tt, (buf, transcript))
  end.

(** ** Protection *)

(** [encrypt]: the buffer is sealed in place and the tag is appended. *)
Definition encrypt (write : WriteKeySchedule) : Enc unit := fun buf =>
  let len := (cb_len buf + tag_len)%nat in
  if (cb_capacity buf <? len)%nat then Some (Err InsufficientSpace, buf)
  else
    let additional_data := [ContentType_as_u8 ContentType.ApplicationData; 3; 3] ++ be_bytes 2 (wrap 16 (Z.of_nat len)) in
    plain ← cb_as_slice buf;
    let sealed := aead_seal (ks_key (w_state write)) (get_nonce (w_state write)) additional_data plain in
    mem ← overwrite (cb_offset buf) (take (cb_len buf) sealed) (cb_buf buf);
    op_map_err (fun _ => InvalidApplicationData) (extend_from_slice (drop (cb_len buf) sealed))
      {| cb_buf := mem; cb_offset := cb_offset buf; cb_len := cb_len buf |}.

(** What decryption works on: the keys, the memory of the reader, and the state
    of whoever handles the content. *)
Record Rx (S : Type) := { rx_keys : ReadKeySchedule; rx_buf : bytes; rx_state : S }.
Arguments rx_keys {S} r.
Arguments rx_buf {S} r.
Arguments rx_state {S} r.
Definition with_transcript (transcript : bytes) (r : ReadKeySchedule) : ReadKeySchedule :=
  {| r_state := r_state r; transcript_hash := transcript |}.

Section Decrypt.
Context {S : Type} (cb : ServerRecord -> Op (Rx S) TlsError unit).

(** Handshake messages one after the other. *)
Fixpoint handshake_messages (fuel : nat) (buf : ParseBuffer) : Op (Rx S) TlsError unit := fun rx =>
  if (0 <? pb_remaining buf)%nat then
    match fuel with
    | O => None
    | Datatypes.S fuel =>
        '(r, (buf, transcript)) ← ServerHandshake_read (buf, transcript_hash (rx_keys rx));
        let rx := {| rx_keys := with_transcript transcript (rx_keys rx); rx_buf := rx_buf rx; rx_state := rx_state rx |} in
        match r with
        | Err e => Some (Err e, rx)
        | Ok inner => (cb (HandshakeRecord inner);; handshake_messages fuel buf) rx
        end
    end
  else Some (Ok tt, rx).
(** The index behind the last byte that is not zero. *)
Fixpoint last_nonzero (i : nat) (l : bytes) (found : option nat) : option nat :=
  match l with
  | [] => found
  | b :: l => last_nonzero (Datatypes.S i) l (if b =? 0 then found else Some i)
  end.
Definition strip_padding (app_data : CryptoBuffer) : option CryptoBuffer :=
  data ← cb_as_slice app_data;
  Some (match last_nonzero 0 data None with Some index => cb_truncate (index + 1) app_data | None => app_data end).
Definition rx_increment : Op (Rx S) TlsError unit := fun rx =>
  st ← increment_counter (r_state (rx_keys rx));
  Some (Ok tt, {| rx_keys := {| r_state := st; transcript_hash := transcript_hash (rx_keys rx) |}; rx_buf := rx_buf rx; rx_state := rx_state rx |}).
Definition content (t : ContentType.ContentType) (header : bytes) (start : nat) (app_data : CryptoBuffer) : Op (Rx S) TlsError unit :=
  data ← op_unwrap (cb_as_slice app_data);
  match t with
  | ContentType.Handshake => handshake_messages (length data) (ParseBuffer_new data)
  | ContentType.ApplicationData => cb (ApplicationDataRecord {| ad_header := header; ad_start := start; ad_data := app_data |})
  | ContentType.Alert =>
      r ← op_unwrap (Alert_parse (ParseBuffer_new data)); alert ← op_lift r.1; cb (AlertRecord alert)
  | _ => op_fail Unimplemented
  end.
Definition decrypt_record (record : ServerRecord) : Op (Rx S) TlsError unit := fun rx =>
  match record with
  | ApplicationDataRecord d =>
      let keys := r_state (rx_keys rx) in
      cipher ← cb_as_slice (ad_data d);
      match aead_open (ks_key keys) (get_nonce keys) (ad_header d) cipher with
      | None => Some (Err CryptoError, rx)
      | Some plain =>
          mem ← overwrite (cb_offset (ad_data d)) plain (cb_buf (ad_data d));
          buf ← overwrite (ad_start d) mem (rx_buf rx);
          let rx := {| rx_keys := rx_keys rx; rx_buf := buf; rx_state := rx_state rx |} in
          let app_data := cb_truncate (length plain) {| cb_buf := mem; cb_offset := cb_offset (ad_data d); cb_len := cb_len (ad_data d) |} in
          app_data ← strip_padding app_data;
          data ← cb_as_slice app_data;
          last_byte ← last data;
          match ContentType_of last_byte with
          | None => Some (Err InvalidRecord, rx)
          | Some t => (content t (ad_header d) (ad_start d) (cb_truncate (cb_len app_data - 1) app_data);; rx_increment) rx
          end
      end
  | record => cb record rx
  end.
End Decrypt.

(** ** The write buffer *)

(** A buffer is longer than [TLS_RECORD_OVERHEAD], and the position never passes
    the block, so the subtractions do not wrap. *)
Record WriteBuffer := { wb_buffer : bytes; wb_pos : nat; current_header : option Header }.
Definition WriteBuffer_new (buffer : bytes) : WriteBuffer := {| wb_buffer := buffer; wb_pos := 0; current_header := None |}.
Definition max_block_size (self : WriteBuffer) : nat := length (wb_buffer self) - TLS_RECORD_OVERHEAD.
Definition wb_is_full (self : WriteBuffer) : bool := (wb_pos self =? max_block_size self)%nat.
Definition wb_is_empty (self : WriteBuffer) : bool := (wb_pos self =? 0)%nat.
Definition wb_space (self : WriteBuffer) : nat := max_block_size self - wb_pos self.
Definition wb_contains (header : Header) (self : WriteBuffer) : bool := bool_decide (current_header self = Some header).
Definition wb_append (buf : bytes) (self : WriteBuffer) : option (nat * WriteBuffer) :=
  let buffered := Nat.min (length buf) (wb_space self) in
  if (0 <? buffered)%nat then
    mem ← overwrite (wb_pos self) (take buffered buf) (wb_buffer self);
    Some (buffered, {| wb_buffer := mem; wb_pos := wb_pos self + buffered; current_header := current_header self |})
  else Some (buffered, self).
(** [with_buffer]: the position moves only when the operation succeeds. *)
Definition with_buffer (m : Enc unit) : Op WriteBuffer TlsError unit := fun self =>
  '(r, buf) ← m (cb_wrap_with_pos (wb_buffer self) (wb_pos self));
  Some (r, {| wb_buffer := cb_buf buf; wb_pos := match r with Ok _ => cb_len buf | Err _ => wb_pos self end;
              current_header := current_header self |}).
Definition with_header (header : option Header) (self : WriteBuffer) : WriteBuffer :=
  {| wb_buffer := wb_buffer self; wb_pos := wb_pos self; current_header := header |}.
Definition start_record (header : Header) : Op WriteBuffer TlsError unit :=
  op_modify (with_header (Some header));;
  with_buffer (Header_encode header;; push_u16 0;; op_modify cb_rewind).
Definition close_record (write : WriteKeySchedule) : Op WriteBuffer TlsError bytes := fun self =>
  header ← current_header self;
  '(r, self) ← with_buffer (
    if is_encrypted header then
      encode_error (cb_push (ContentType_as_u8 (trailer_content_type header)));;
      op_modify (cb_at HEADER_LEN);;
      encrypt write;;
      op_modify cb_rewind
    else mret tt) (with_header None self);
  match r with
  | Err e => Some (Err e, self)
  | Ok _ =>
      if (wb_pos self <? HEADER_LEN)%nat then None
      else
        mem ← overwrite 3 (be_bytes 2 (wrap 16 (Z.of_nat (wb_pos self - HEADER_LEN)))) (wb_buffer self);
        slice ← range 0 (wb_pos self) mem;
        Some (Ok slice, {| wb_buffer := mem; wb_pos := 0; current_header := None |})
  end.
(** The transcript is the one of the read keys, which every caller gives. *)
Definition write_record (record : ClientRecord) (write : WriteKeySchedule) : Op (WriteBuffer * bytes) TlsError bytes :=
  fun '(self, transcript) =>
  match current_header self with
  | Some _ => Some (Err InternalError, (self, transcript))
  | None =>
      '(r, self) ← start_record (record_header record) self;
      match r with
      | Err e => Some (Err e, (self, transcript))
      | Ok _ =>
          let buf := cb_forward (cb_wrap_with_pos (wb_buffer self) (wb_pos self)) in
          '(r, buf) ← encode_payload record buf;
          match r with
          | Err e => Some (Err e, ({| wb_buffer := cb_buf buf; wb_pos := wb_pos self; current_header := current_header self |}, transcript))
          | Ok _ =>
              '(r, (buf, transcript)) ← finish_record write record (buf, transcript);
              match r with
              | Err e => Some (Err e, ({| wb_buffer := cb_buf buf; wb_pos := wb_pos self; current_header := current_header self |}, transcript))
              | Ok _ =>
                  let buf := cb_rewind buf in
                  '(r, self) ← close_record write {| wb_buffer := cb_buf buf; wb_pos := cb_len buf; current_header := current_header self |};
                  Some (r, (self, transcript))
              end
          end
      end
  end.

(** ** The record reader *)

(** [rr_decoded] and [rr_pending]: bytes of the buffer that belong to records
    already given out, and bytes read after them. *)
Record RecordReader := { rr_buf : bytes; rr_decoded : nat; rr_pending : nat }.
Definition RecordReader_new (buf : bytes) : RecordReader := {| rr_buf := buf; rr_decoded := 0; rr_pending := 0 |}.
(** [ServerRecord::decode] on the data at [start]: only the first message of an
    unprotected handshake record is read. *)
Definition ServerRecord_decode (header : bytes) (start : nat) (data digest : bytes) : option (result TlsError ServerRecord * bytes) :=
  len ← content_length header;
  if negb (len =? length data)%nat then None
  else
    t ← content_type header;
    match t with
    | ContentType.Invalid => Some (Err Unimplemented, digest)
    | ContentType.ChangeCipherSpec => Some (Ok ChangeCipherSpecRecord, digest)
    | ContentType.Alert => '(r, _) ← Alert_parse (ParseBuffer_new data); Some (a ← r; Ok (AlertRecord a), digest)
    | ContentType.Handshake =>
        '(r, (_, digest)) ← ServerHandshake_read (ParseBuffer_new data, digest);
        Some (h ← r; Ok (HandshakeRecord h), digest)
    | ContentType.ApplicationData =>
        Some (Ok (ApplicationDataRecord {| ad_header := header; ad_start := start; ad_data := cb_wrap_with_pos data (length data) |}), digest)
    end.
Definition ensure_contiguous (len : nat) (self : RecordReader) : option (result TlsError unit * RecordReader) :=
  if (length (rr_buf self) <? rr_decoded self + len)%nat then
    if (length (rr_buf self) <? len)%nat then Some (Err InsufficientSpace, self)
    else
      waiting ← range (rr_decoded self) (rr_pending self) (rr_buf self);
      mem ← overwrite 0 waiting (rr_buf self);
      Some (Ok tt, {| rr_buf := mem; rr_decoded := 0; rr_pending := rr_pending self |})
  else Some (Ok tt, self).

Section Transport.
Context {C : Type} `{Reads C}.

(** One [read] of the transport into at most [n] bytes; nothing read is an error. *)
Definition transport_read (n : nat) (c : C) : result TlsError bytes * C :=
  let (r, c) := read_from n c in
  (match r with
   | Err e => Err (Io e)
   | Ok [] => Err IoError
   | Ok a => Ok a
   end, c).
(** [next_record_header]; a read gives at least a byte. *)
Fixpoint read_header (fuel : nat) (got : bytes) (c : C) : option (result TlsError bytes * C) :=
  if (length got =? HEADER_LEN)%nat then r ← RecordHeader_decode got; Some (r, c)
  else match fuel with
  | O => None
  | Datatypes.S fuel =>
      let (r, c) := transport_read (HEADER_LEN - length got) c in
      match r with
      | Err e => Some (Err e, c)
      | Ok a => read_header fuel (got ++ a) c
      end
  end.
Definition next_record_header (c : C) : option (result TlsError bytes * C) := read_header HEADER_LEN [] c.
Fixpoint advance_loop (fuel amount remain : nat) (self : RecordReader) (c : C) : option (result TlsError unit * (RecordReader * C)) :=
  if (rr_pending self <? amount)%nat then
    match fuel with
    | O => None
    | Datatypes.S fuel =>
        if (length (rr_buf self) <? rr_decoded self + rr_pending self + remain)%nat then None
        else
          let (r, c) := transport_read remain c in
          match r with
          | Err e => Some (Err e, (self, c))
          | Ok a =>
              mem ← overwrite (rr_decoded self + rr_pending self) a (rr_buf self);
              advance_loop fuel amount (remain - length a)
                {| rr_buf := mem; rr_decoded := rr_decoded self; rr_pending := rr_pending self + length a |} c
          end
    end
  else Some (Ok tt, (self, c)).
Definition advance (amount : nat) (self : RecordReader) (c : C) : option (result TlsError unit * (RecordReader * C)) :=
  '(r, self) ← ensure_contiguous amount self;
  match r with
  | Err e => Some (Err e, (self, c))
  | Ok _ => advance_loop amount amount amount self c
  end.
Definition rr_consume (header : bytes) (digest : bytes) (self : RecordReader) : option (result TlsError ServerRecord * (RecordReader * bytes)) :=
  content_len ← content_length header;
  slice ← range (rr_decoded self) content_len (rr_buf self);
  '(r, digest) ← ServerRecord_decode header (rr_decoded self) slice digest;
  Some (r, ({| rr_buf := rr_buf self; rr_decoded := rr_decoded self + content_len; rr_pending := rr_pending self - content_len |}, digest)).
(** [RecordReader::read]; the keys are needed for their transcript. *)
Definition RecordReader_read (self : RecordReader) (c : C) (keys : ReadKeySchedule)
  : option (result TlsError ServerRecord * (RecordReader * C * ReadKeySchedule)) :=
  '(r, c) ← next_record_header c;
  match r with
  | Err e => Some (Err e, (self, c, keys))
  | Ok header =>
      content_len ← content_length header;
      '(r, (self, c)) ← advance content_len self c;
      match r with
      | Err e => Some (Err e, (self, c, keys))
      | Ok _ =>
          '(r, (self, digest)) ← rr_consume header (transcript_hash keys) self;
          Some (r, (self, c, with_transcript digest keys))
      end
  end.
End Transport.

(** ** The view of decrypted data *)

Record DecryptedBufferInfo := { info_offset : nat; info_len : nat; info_consumed : nat }.
Definition DecryptedBufferInfo_default : DecryptedBufferInfo := {| info_offset := 0; info_len := 0; info_consumed := 0 |}.
Definition info_is_empty (self : DecryptedBufferInfo) : bool := (info_len self - info_consumed self =? 0)%nat.
(** [ReadBuffer]: dropping it adds what was consumed to the view, or all of it
    when it was not used. *)
Record ReadBuffer := { rd_data : bytes; rd_consumed : nat; rd_used : bool }.
Definition ReadBuffer_new (data : bytes) : ReadBuffer := {| rd_data := data; rd_consumed := 0; rd_used := false |}.
Definition rd_len (self : ReadBuffer) : nat := length (rd_data self) - rd_consumed self.
Definition rd_peek (count : nat) (self : ReadBuffer) : bytes * ReadBuffer :=
  let count := Nat.min (rd_len self) count in
  (take count (drop (rd_consumed self) (rd_data self)), {| rd_data := rd_data self; rd_consumed := rd_consumed self; rd_used := true |}).
Definition rd_peek_all (self : ReadBuffer) : bytes * ReadBuffer := rd_peek (rd_len self) self.
Definition rd_pop (count : nat) (self : ReadBuffer) : bytes * ReadBuffer :=
  let count := Nat.min (rd_len self) count in
  (take count (drop (rd_consumed self) (rd_data self)), {| rd_data := rd_data self; rd_consumed := rd_consumed self + count; rd_used := true |}).
Definition rd_pop_all (self : ReadBuffer) : bytes * ReadBuffer := rd_pop (rd_len self) self.
(** [pop_into] a buffer of [n] bytes. *)
Definition rd_pop_into (n : nat) (self : ReadBuffer) : bytes * ReadBuffer := rd_pop n self.
Definition rd_drop (self : ReadBuffer) (info : DecryptedBufferInfo) : DecryptedBufferInfo :=
  {| info_offset := info_offset info; info_len := info_len info;
     info_consumed := info_consumed info + (if rd_used self then rd_consumed self else length (rd_data self)) |}.
Definition create_read_buffer (buffer : bytes) (self : DecryptedBufferInfo) : option ReadBuffer :=
  if (info_len self <? info_consumed self)%nat then None
  else data ← range (info_offset self + info_consumed self) (info_len self - info_consumed self) buffer; Some (ReadBuffer_new data).

(** [DecryptedReadHandler]: what becomes of a record of an open connection; the
    pointers' difference is where the data is in the reader's buffer. Any
    handshake message but a session ticket is [unimplemented!()]. *)
Record Handler := { buffer_info : DecryptedBufferInfo; is_open : bool }.
Definition handle (record : ServerRecord) : Op (Rx Handler) TlsError unit := fun rx =>
  let with_state (h : Handler) := {| rx_keys := rx_keys rx; rx_buf := rx_buf rx; rx_state := h |} in
  match record with
  | ApplicationDataRecord d =>
      Some (Ok tt, with_state {| buffer_info := {| info_offset := ad_start d + cb_offset (ad_data d); info_len := cb_len (ad_data d); info_consumed := 0 |};
                                 is_open := is_open (rx_state rx) |})
  | AlertRecord a =>
      if bool_decide (al_description a = AlertDescription.CloseNotify) then
        Some (Err ConnectionClosed, with_state {| buffer_info := buffer_info (rx_state rx); is_open := false |})
      else Some (Err InternalError, rx)
  | ChangeCipherSpecRecord => Some (Err InternalError, rx)
  | HandshakeRecord NewSessionTicketMsg => Some (Ok tt, rx)
  | HandshakeRecord _ => None
  end.
End Records.
Arguments rx_keys {S} r.
Arguments rx_buf {S} r.
Arguments rx_state {S} r.

(** ** Reading a record off the transport *)
Section ReadingRecords.
Context {K : Type} `{TlsCryptoLaws K} {C : Type} `{ReadsLaws C}.

Lemma transport_some n (c : C) : (0 < n)%nat -> rest c <> [] -> exists a c', transport_read n c = (Ok a, c') /\
  a <> [] /\ (length a <= n)%nat /\ rest c = a ++ rest c'.
Proof.
  intros Hn Hr. unfold transport_read. destruct (reads_some n c Hn Hr) as (a & c' & -> & Ha & Hl & E).
  exists a, c'. by destruct a.
Qed.
(** A piece [a] of the bytes [d ++ more] to come is the start of [d] when it is not longer. *)
Lemma piece_of (a d more r : bytes) : d ++ more = a ++ r -> (length a <= length d)%nat -> exists d', d = a ++ d' /\ r = d' ++ more.
Proof.
  intros E Hl. exists (drop (length a) d). pose proof (f_equal (take (length a)) E) as E1. pose proof (f_equal (drop (length a)) E) as E2.
  rewrite take_app_length, take_app_le in E1 by done. rewrite drop_app_length, drop_app_le in E2 by done.
  split; [|done]. by rewrite <- (take_drop (length a) d) at 1; rewrite E1.
Qed.
Lemma record_header_read fuel : forall got d more (c : C), length (got ++ d) = HEADER_LEN -> (length d <= fuel)%nat -> rest c = d ++ more ->
  exists c', read_header fuel got c = (r ← RecordHeader_decode (got ++ d); Some (r, c')) /\ rest c' = more.
Proof.
  induction fuel as [|fuel IH]; intros got d more c Hl Hf Er.
  - destruct d; [|cbn in Hf; lia]. rewrite app_nil_r in *. exists c. cbn [read_header]. by rewrite (proj2 (Nat.eqb_eq _ _) Hl).
  - cbn [read_header]. destruct (decide (d = [])) as [->|Hd].
    { rewrite app_nil_r in *. exists c. by rewrite (proj2 (Nat.eqb_eq _ _) Hl). }
    assert (0 < length d)%nat as Hpos by (destruct d; [done | cbn; lia]). rewrite length_app in Hl.
    rewrite (proj2 (Nat.eqb_neq _ _)) by lia.
    destruct (transport_some (HEADER_LEN - length got) c) as (a & c1 & -> & Ha & Hla & E); [lia | rewrite Er; by destruct d |].
    rewrite Er in E. destruct (piece_of a d more (rest c1) E) as (d' & -> & Er1); [lia|]. rewrite length_app in *.
    assert (0 < length a)%nat by (destruct a; [done | cbn; lia]).
    destruct (IH (got ++ a) d' more c1) as (c' & E' & Hc'); [rewrite !length_app; lia | lia | done |].
    exists c'. by rewrite E', <- app_assoc.
Qed.
Lemma advance_loop_ok fuel : forall mem dec pend d more (c : C), (dec + pend + length d <= length mem)%nat ->
  (length d <= fuel)%nat -> rest c = d ++ more ->
  exists c', advance_loop fuel (pend + length d) (length d) {| rr_buf := mem; rr_decoded := dec; rr_pending := pend |} c =
    Some (Ok tt, ({| rr_buf := written (dec + pend) d mem; rr_decoded := dec; rr_pending := pend + length d |}, c')) /\ rest c' = more.
Proof.
  induction fuel as [|fuel IH]; intros mem dec pend d more c Hm Hf Er.
  - destruct d; [|cbn in Hf; lia]. exists c. cbn [advance_loop rr_pending length]. rewrite Nat.add_0_r, Nat.ltb_irrefl, written_nil.
    done.
  - cbn [advance_loop rr_pending rr_buf rr_decoded]. destruct (decide (d = [])) as [->|Hd].
    { exists c. cbn [length]. by rewrite Nat.add_0_r, Nat.ltb_irrefl, written_nil. }
    assert (0 < length d)%nat as Hpos by (destruct d; [done | cbn; lia]).
    rewrite (proj2 (Nat.ltb_lt _ _)) by lia. rewrite (proj2 (Nat.ltb_ge _ _)) by lia.
    destruct (transport_some (length d) c) as (a & c1 & -> & Ha & Hla & E); [lia | rewrite Er; by destruct d |].
    rewrite Er in E. destruct (piece_of a d more (rest c1) E) as (d' & -> & Er1); [lia|]. rewrite length_app in *.
    assert (0 < length a)%nat by (destruct a; [done | cbn; lia]).
    rewrite overwrite_some by lia. cbn [mbind option_bind].
    replace (length a + length d' - length a)%nat with (length d') by lia.
    destruct (IH (written (dec + pend) a mem) dec (pend + length a)%nat d' more c1) as (c' & E' & Hc');
      [rewrite length_written; lia | lia | done |].
    exists c'. rewrite Nat.add_assoc, E'. split; [|done]. do 4 f_equal.
    rewrite Nat.add_assoc, written_next; [done | rewrite length_app; lia].
Qed.

(** Where the data of the next record of [n] bytes is put. *)
Definition next_start (n : nat) (r : RecordReader) : nat := if (length (rr_buf r) <? rr_decoded r + n)%nat then 0%nat else rr_decoded r.
Lemma advance_ok (r : RecordReader) d more (c : C) : rr_pending r = 0%nat -> (rr_decoded r <= length (rr_buf r))%nat ->
  (length d <= length (rr_buf r))%nat -> rest c = d ++ more ->
  exists mem c', advance (length d) r c =
      Some (Ok tt, ({| rr_buf := mem; rr_decoded := next_start (length d) r; rr_pending := length d |}, c')) /\
    length mem = length (rr_buf r) /\ range (next_start (length d) r) (length d) mem = Some d /\
    (next_start (length d) r + length d <= length mem)%nat /\ rest c' = more.
Proof.
  intros Hp Hd Hl Er. destruct r as [buf dec pend]. cbn [rr_pending rr_decoded rr_buf] in *. subst pend.
  unfold advance, ensure_contiguous, next_start. cbn [rr_pending rr_decoded rr_buf].
  assert (forall dec', (dec' + length d <= length buf)%nat -> exists mem c',
    advance_loop (length d) (length d) (length d) {| rr_buf := buf; rr_decoded := dec'; rr_pending := 0 |} c =
      Some (Ok tt, ({| rr_buf := mem; rr_decoded := dec'; rr_pending := length d |}, c')) /\
    length mem = length buf /\ range dec' (length d) mem = Some d /\ (dec' + length d <= length mem)%nat /\ rest c' = more) as Hgo.
  { intros dec' Hdec'. destruct (advance_loop_ok (length d) buf dec' 0 d more c) as (c' & E & Hc'); [lia | done..|].
    cbn [Nat.add] in E. rewrite Nat.add_0_r in E. exists (written dec' d buf), c'. split; [exact E|].
    rewrite length_written by lia. split_and!; [done | | lia | done].
    destruct (split_buffer dec' (length d) buf) as (x & y & z & -> & <- & Hy); [done|]. rewrite written_middle by done. apply range_middle. }
  destruct (Nat.ltb_spec (length buf) (dec + length d)) as [Hlt|Hge].
  - rewrite (proj2 (Nat.ltb_ge _ _)) by lia. rewrite range_some by lia. cbn [mbind option_bind].
    rewrite overwrite_some by (rewrite take_0; cbn; lia). rewrite take_0, written_nil. cbn [mbind option_bind].
    apply Hgo. lia.
  - cbn [mbind option_bind]. apply Hgo. lia.
Qed.
(** A header and as many bytes as it announces. *)
Record IsRecord (t : ContentType.ContentType) (header d : bytes) : Prop := {
  rec_header : length header = HEADER_LEN;
  rec_type : content_type header = Some t;
  rec_length : content_length header = Some (length d)
}.
Lemma record_read_ok (r : RecordReader) t header d more (c : C) (keys : ReadKeySchedule) : IsRecord t header d ->
  rr_pending r = 0%nat -> (rr_decoded r <= length (rr_buf r))%nat -> (length d <= length (rr_buf r))%nat ->
  rest c = (header ++ d) ++ more ->
  exists mem c', rest c' = more /\ length mem = length (rr_buf r) /\ (next_start (length d) r + length d <= length mem)%nat /\
    range (next_start (length d) r) (length d) mem = Some d /\
    RecordReader_read r c keys = ('(res, digest) ← ServerRecord_decode header (next_start (length d) r) d (transcript_hash keys);
      Some (res, ({| rr_buf := mem; rr_decoded := next_start (length d) r + length d; rr_pending := 0 |}, c', with_transcript digest keys))).
Proof.
  intros [Hh Ht Hl] Hp Hd Hbuf Er. unfold RecordReader_read, next_record_header. rewrite <- app_assoc in Er.
  destruct (record_header_read HEADER_LEN [] header (d ++ more) c) as (c1 & E1 & Hc1); [done | by rewrite Hh | done |].
  rewrite E1. unfold RecordHeader_decode, content_type in *. cbn [app]. destruct (header !! 0%nat) as [b|] eqn:Eb; [|done].
  cbn [mbind option_bind] in *. rewrite Ht. rewrite Hl. cbn [mbind option_bind].
  destruct (advance_ok r d more c1 Hp Hd Hbuf Hc1) as (mem & c' & E2 & Hm & Hr & Hn & Hc').
  rewrite E2. exists mem, c'. split_and!; [done..|]. cbn [mbind option_bind]. unfold rr_consume. rewrite Hl. cbn [mbind option_bind rr_decoded rr_buf rr_pending].
  rewrite Hr. cbn [mbind option_bind]. destruct (ServerRecord_decode _ _ _ _) as [[res digest]|]; [|done]. cbn [mbind option_bind].
  by rewrite Nat.sub_diag.
Qed.

(** What a transport keeps over a read, it keeps over a record. *)
Section Keeping.
Context {A : Type} (f : C -> A) (keeps : forall n c, f (read_from n c).2 = f c).

Lemma transport_read_keeps n c r c' : transport_read n c = (r, c') -> f c' = f c.
Proof. unfold transport_read. intros E. specialize (keeps n c). destruct (read_from n c) as [r0 c0]. by injection E as _ <-. Qed.
Lemma read_header_keeps fuel : forall got c r c', read_header fuel got c = Some (r, c') -> f c' = f c.
Proof.
  induction fuel as [|fuel IH]; intros got c r c' E; cbn [read_header] in E; destruct (_ =? _)%nat.
  1, 3: destruct (RecordHeader_decode got); [|discriminate E]; cbn in E; by injection E as _ <-.
  - discriminate E.
  - destruct (transport_read _ c) as [[a|e] c1] eqn:Et; apply transport_read_keeps in Et; [|by injection E as _ <-].
    rewrite <- Et. by eapply IH.
Qed.
Lemma advance_loop_keeps fuel : forall amount remain self c r self' c', advance_loop fuel amount remain self c = Some (r, (self', c')) -> f c' = f c.
Proof.
  induction fuel as [|fuel IH]; intros amount remain self c r self' c' E; cbn [advance_loop] in E; destruct (_ <? _)%nat; try discriminate E.
  1, 3: by injection E as _ _ <-.
  destruct (_ <? _)%nat; [discriminate E|]. destruct (transport_read _ c) as [[a|e] c1] eqn:Et; apply transport_read_keeps in Et; [|by injection E as _ _ <-].
  destruct (overwrite _ _ _); [|discriminate E]. cbn [mbind option_bind] in E. rewrite <- Et. by eapply IH.
Qed.
Lemma record_read_keeps self c keys r self' c' keys' : RecordReader_read self c keys = Some (r, (self', c', keys')) -> f c' = f c.
Proof.
  unfold RecordReader_read, next_record_header. destruct (read_header _ _ c) as [[[header|e] c1]|] eqn:E1; cbn [mbind option_bind]; [|intros E|done];
    [|apply read_header_keeps in E1; by injection E as _ _ <- _].
  apply read_header_keeps in E1. rewrite <- E1. destruct (content_length header) as [n|]; [|done]. cbn [mbind option_bind]. unfold advance.
  destruct (ensure_contiguous n self) as [[[[]|e] self1]|]; cbn [mbind option_bind]; [|by intros [= _ _ <- _]|done].
  destruct (advance_loop _ _ _ self1 c1) as [[[[]|e] [self2 c2]]|] eqn:E2; cbn [mbind option_bind]; [| |done]; apply advance_loop_keeps in E2; rewrite <- E2.
  - destruct (rr_consume _ _ _) as [[? [? ?]]|]; [|done]. cbn [mbind option_bind]. by intros [= _ _ <- _].
  - by intros [= _ _ <- _].
Qed.
End Keeping.
End ReadingRecords.

(** ** What is sealed is read *)
Section Protection.
Context {K : Type} `{TlsCryptoLaws K}.

(** A protected record, and the number of bytes it takes. *)
Definition record_header_of (n : nat) : bytes := [23; 3; 3] ++ be_bytes 2 (Z.of_nat n).
Definition sealed_payload (t : ContentType.ContentType) (k : KeyScheduleState) (chunk : bytes) : bytes :=
  aead_seal (ks_key k) (get_nonce k) (record_header_of (length chunk + 1 + tag_len)) (chunk ++ [ContentType_as_u8 t]).
Definition sealed_record (t : ContentType.ContentType) (k : KeyScheduleState) (chunk : bytes) : bytes :=
  record_header_of (length chunk + 1 + tag_len) ++ sealed_payload t k chunk.
Definition fits_record (chunk : bytes) : Prop := Z.of_nat (length chunk + 1 + tag_len) < 65536.

Lemma length_sealed t k chunk : length (sealed_payload t k chunk) = (length chunk + 1 + tag_len)%nat.
Proof. unfold sealed_payload. by rewrite length_seal, length_app. Qed.
Lemma is_sealed d n : length d = n -> Z.of_nat n < 65536 -> IsRecord ContentType.ApplicationData (record_header_of n) d.
Proof.
  intros Hd Hf. split; [| done |].
  - unfold record_header_of. rewrite length_app, length_be_bytes. done.
  - rewrite Hd. unfold record_header_of, content_length.
    pose proof (of_be_be 2 (Z.of_nat n) ltac:(cbn; lia)) as E. pose proof (length_be_bytes 2 (Z.of_nat n)) as El.
    destruct (be_bytes 2 (Z.of_nat n)) as [|hi [|lo [|]]]; try discriminate El. cbn [app lookup list_lookup mbind option_bind].
    f_equal. rewrite E. lia.
Qed.
Lemma is_record t k chunk : fits_record chunk ->
  IsRecord ContentType.ApplicationData (record_header_of (length chunk + 1 + tag_len)) (sealed_payload t k chunk).
Proof. apply is_sealed, length_sealed. Qed.

(** *** Writing *)

Lemma encrypt_ok (write : WriteKeySchedule) pre plain post : (tag_len <= length post)%nat ->
  Z.of_nat (length plain + tag_len) < 65536 ->
  encrypt write {| cb_buf := pre ++ plain ++ post; cb_offset := length pre; cb_len := length plain |} =
  Some (Ok tt, {| cb_buf := pre ++ aead_seal (ks_key (w_state write)) (get_nonce (w_state write)) (record_header_of (length plain + tag_len)) plain ++ drop tag_len post;
                  cb_offset := length pre; cb_len := length plain + tag_len |}).
Proof.
  intros Hp Hf. unfold encrypt, cb_capacity. cbn [cb_buf cb_len cb_offset]. rewrite !length_app.
  rewrite (proj2 (Nat.ltb_ge _ _)) by lia. unfold cb_as_slice. cbn [cb_buf cb_len cb_offset]. rewrite range_middle. cbn [mbind option_bind].
  unfold wrap. rewrite Z.mod_small by lia. fold (record_header_of (length plain + tag_len)). cbn [ContentType_as_u8 app].
  change (23 :: 3 :: 3 :: be_bytes 2 (Z.of_nat (length plain + tag_len))) with (record_header_of (length plain + tag_len)).
  set (sealed := aead_seal _ _ _ _). assert (length sealed = length plain + tag_len)%nat as Hs by apply length_seal.
  rewrite overwrite_some by (rewrite !length_app, length_take; lia). cbn [mbind option_bind].
  rewrite written_middle by (rewrite length_take; lia).
  pose proof (encodes_extend (drop (length plain) sealed)
    {| cb_buf := pre ++ take (length plain) sealed ++ post; cb_offset := length pre; cb_len := length plain |}) as E.
  unfold cb_ok, cb_space, cb_capacity in E. cbn [cb_buf cb_len cb_offset] in E. rewrite !length_app, length_take, length_drop in E.
  specialize (E ltac:(lia)). rewrite decide_True in E by lia. unfold op_map_err. rewrite E. cbn [mbind option_bind map_err].
  do 2 f_equal. unfold appended. cbn [cb_buf cb_len cb_offset]. rewrite length_drop. f_equal; [|lia].
  rewrite app_assoc. replace (length pre + length plain)%nat with (length (pre ++ take (length plain) sealed)) by (rewrite length_app, length_take; lia).
  rewrite <- (take_drop tag_len post) at 1. rewrite written_middle by (rewrite length_take, length_drop; lia).
  rewrite <- app_assoc. f_equal. rewrite app_assoc, take_drop. done.
Qed.

Definition head_bytes (h : Header) : bytes := [ContentType_as_u8 (header_content_type h)] ++ version h ++ [0; 0].
Lemma length_head_bytes h : length (head_bytes h) = HEADER_LEN.
Proof. by destruct h as [[|]|[|]|]. Qed.
Lemma encrypted_head h : is_encrypted h = true -> head_bytes h = [23; 3; 3; 0; 0].
Proof. by destruct h as [[|]|[|]|]. Qed.
(** The buffer holds a header, whose length is not known yet, and [chunk]. *)
Record StartedAs (h : Header) (chunk : bytes) (wb : WriteBuffer) : Prop := {
  started_header : current_header wb = Some h;
  started_pos : wb_pos wb = (HEADER_LEN + length chunk)%nat;
  started_buffer : exists post, wb_buffer wb = head_bytes h ++ chunk ++ post
}.
Abbreviation Started := (StartedAs ClientRecordHeader.ApplicationData).
Definition Closed (wb : WriteBuffer) : Prop := current_header wb = None /\ wb_pos wb = 0%nat.

Lemma start_record_ok h wb : Closed wb -> (HEADER_LEN <= length (wb_buffer wb))%nat ->
  exists wb', start_record h wb = Some (Ok tt, wb') /\ StartedAs h [] wb' /\ length (wb_buffer wb') = length (wb_buffer wb).
Proof.
  intros [Hc Hp] Hl. unfold start_record, op_modify, mbind at 1, Op_bind at 1. unfold with_buffer, with_header. cbn [wb_buffer wb_pos current_header].
  rewrite Hp. assert (Encodes (Header_encode h;; push_u16 0) (head_bytes h)) as E.
  { unfold head_bytes. rewrite app_assoc. apply encodes_then; [|apply encodes_extend].
    apply encodes_then; apply encodes_error; [apply encodes_push | apply encodes_extend]. }
  specialize (E (cb_wrap_with_pos (wb_buffer wb) 0)). unfold cb_ok, cb_space, cb_capacity in *. cbn [cb_wrap_with_pos cb_buf cb_offset cb_len] in E.
  specialize (E ltac:(lia)). rewrite length_head_bytes in E. rewrite decide_True in E by lia. unfold mbind, Op_bind in E |- *.
  destruct (Header_encode _ _) as [[[[]|e] c1]|]; [|discriminate E..]. rewrite E. cbn [option_bind]. eexists. split; [reflexivity|].
  unfold appended, cb_rewind, cb_at, cb_wrap_with_pos. cbn [cb_buf cb_len cb_offset wb_buffer]. rewrite length_head_bytes. split; [|by rewrite length_written by (rewrite length_head_bytes; lia)].
  split; [done | done |]. cbn [wb_buffer app]. exists (drop HEADER_LEN (wb_buffer wb)). unfold written. by rewrite length_head_bytes.
Qed.
Lemma close_record_ok h (write : WriteKeySchedule) chunk wb : is_encrypted h = true -> StartedAs h chunk wb -> fits_record chunk ->
  (wb_pos wb + 1 + tag_len <= length (wb_buffer wb))%nat -> exists wb', Closed wb' /\ length (wb_buffer wb') = length (wb_buffer wb) /\
  close_record write wb = Some (Ok (sealed_record (trailer_content_type h) (w_state write) chunk), wb').
Proof.
  intros He [Hh Hp (post & Hb)] Hf Hm. rewrite (encrypted_head _ He) in Hb. unfold HEADER_LEN, fits_record in *. rewrite Hb, !length_app in Hm. cbn [length] in Hm.
  unfold close_record. rewrite Hh. cbn [mbind option_bind]. rewrite He. set (ty := ContentType_as_u8 (trailer_content_type h)). unfold with_buffer, with_header. cbn [wb_buffer wb_pos current_header].
  pose proof (encodes_error _ _ (encodes_push ty) (cb_wrap_with_pos (wb_buffer wb) (wb_pos wb))) as E.
  unfold cb_ok, cb_space, cb_capacity, cb_wrap_with_pos in E. cbn [cb_buf cb_offset cb_len] in E. rewrite Hp, Hb, !length_app in E. cbn [length] in E.
  specialize (E ltac:(lia)). rewrite decide_True in E by lia. rewrite Hp, Hb. unfold cb_wrap_with_pos.
  rewrite (op_then _ _ _ _ _ E). clear E.
  destruct post as [|x post]; [cbn in *; lia|]. cbn [length] in *.
  erewrite op_then by reflexivity. unfold appended, cb_at. cbn [cb_buf cb_len cb_offset length].
  replace (written (0 + (5 + length chunk)) [ty] ([23; 3; 3; 0; 0] ++ chunk ++ x :: post))
    with ([23; 3; 3; 0; 0] ++ (chunk ++ [ty]) ++ post); cycle 1.
  { rewrite (app_assoc _ chunk (x :: post)). replace (0 + (5 + length chunk))%nat with (length ([23; 3; 3; 0; 0] ++ chunk)) by (rewrite length_app; cbn; lia).
    rewrite (written_middle _ [x] post) by done. by rewrite <- !app_assoc. }
  replace (5 + length chunk + 1 + 0 - HEADER_LEN)%nat with (length (chunk ++ [ty])) by (rewrite length_app; unfold HEADER_LEN; cbn; lia).
  pose proof (encrypt_ok write [23; 3; 3; 0; 0] (chunk ++ [ty]) post) as E. rewrite length_app in E. cbn [length] in E.
  specialize (E ltac:(lia) ltac:(lia)). unfold HEADER_LEN. rewrite (length_app chunk [ty]). cbn [length]. rewrite (op_then _ _ _ _ _ E). clear E. unfold op_modify.
  set (sealed := aead_seal _ _ _ _). assert (length sealed = length chunk + 1 + tag_len)%nat as Hs by (unfold sealed; rewrite length_seal, length_app; done).
  cbn [mbind option_bind cb_rewind cb_at cb_buf cb_len cb_offset wb_buffer wb_pos].
  rewrite (proj2 (Nat.ltb_ge _ _)) by lia. replace (length chunk + 1 + tag_len + 5 - 0 - 5)%nat with (length chunk + 1 + tag_len)%nat by lia.
  unfold wrap. rewrite Z.mod_small by lia. pose proof (length_be_bytes 2 (Z.of_nat (length chunk + 1 + tag_len))) as Hbe.
  rewrite overwrite_some by (rewrite !length_app, Hbe, Hs; cbn [length]; lia). cbn [mbind option_bind].
  change ([23; 3; 3; 0; 0] ++ sealed ++ drop tag_len post) with ([23; 3; 3] ++ [0; 0] ++ sealed ++ drop tag_len post).
  rewrite (written_middle [23; 3; 3] [0; 0] (sealed ++ drop tag_len post)) by (by rewrite Hbe).
  assert (([23; 3; 3] ++ be_bytes 2 (Z.of_nat (length chunk + 1 + tag_len)) ++ sealed ++ drop tag_len post) =
    [] ++ sealed_record (trailer_content_type h) (w_state write) chunk ++ drop tag_len post) as ->.
  { unfold sealed_record, record_header_of. by rewrite <- !app_assoc. }
  replace (length chunk + 1 + tag_len + 5 - 0)%nat with (length (sealed_record (trailer_content_type h) (w_state write) chunk)); cycle 1.
  { unfold sealed_record, record_header_of. rewrite !length_app, Hbe, length_sealed. cbn [length]. lia. }
  rewrite (range_middle []). cbn [mbind option_bind]. eexists. split; [|split; [|reflexivity]]; [done|]. cbn [wb_buffer app].
  unfold sealed_record, record_header_of. rewrite !length_app, Hbe, length_sealed, length_drop. cbn [length].
  rewrite length_app. cbn [length]. lia.
Qed.
(** A record without protection. *)
Lemma close_plain_ok h (write : WriteKeySchedule) chunk wb : is_encrypted h = false -> StartedAs h chunk wb -> Z.of_nat (length chunk) < 65536 ->
  exists wb', Closed wb' /\ length (wb_buffer wb') = length (wb_buffer wb) /\
  close_record write wb = Some (Ok ([ContentType_as_u8 (header_content_type h)] ++ version h ++ be_bytes 2 (Z.of_nat (length chunk)) ++ chunk), wb').
Proof.
  intros He [Hh Hp (post & Hb)] Hf. unfold close_record. rewrite Hh. cbn [mbind option_bind]. rewrite He. unfold with_buffer, with_header, cb_wrap_with_pos.
  cbn [wb_buffer wb_pos current_header mret Op_ret cb_buf cb_len mbind option_bind]. rewrite Hp, Hb.
  rewrite (proj2 (Nat.ltb_ge _ _)) by lia. replace (HEADER_LEN + length chunk - HEADER_LEN)%nat with (length chunk) by lia.
  unfold wrap. rewrite Z.mod_small by lia. pose proof (length_be_bytes 2 (Z.of_nat (length chunk))) as Hbe. set (n := be_bytes 2 _) in *.
  pose proof (length_head_bytes h) as Hlh. unfold head_bytes, HEADER_LEN in *. rewrite !length_app in Hlh. cbn [length] in Hlh.
  set (x := [ContentType_as_u8 (header_content_type h)] ++ version h). assert (length x = 3%nat) as Hx by (unfold x; rewrite length_app; cbn [length]; lia).
  rewrite overwrite_some by (rewrite !length_app, Hbe; cbn [length]; lia). cbn [mbind option_bind].
  replace (([ContentType_as_u8 (header_content_type h)] ++ version h ++ [0; 0]) ++ chunk ++ post) with (x ++ [0; 0] ++ chunk ++ post) by (unfold x; by rewrite <- !app_assoc).
  pose proof (written_middle x [0; 0] (chunk ++ post) n ltac:(by rewrite Hbe)) as Ew. rewrite Hx in Ew. rewrite Ew.
  replace (x ++ n ++ chunk ++ post) with ([] ++ (x ++ n ++ chunk) ++ post) by (cbn [app]; by rewrite <- !app_assoc).
  replace (5 + length chunk)%nat with (length (x ++ n ++ chunk)) by (rewrite !length_app; lia).
  rewrite (range_middle []). cbn [mbind option_bind]. eexists. split; [|split; [|unfold x; rewrite <- !app_assoc; reflexivity]]; [done|].
  cbn [wb_buffer app]. rewrite !length_app. cbn [length]. rewrite !length_app. lia.
Qed.
(** A block leaves room for what is added to it. *)
Lemma block_room wb : (wb_pos wb <= max_block_size wb)%nat -> (0 < wb_pos wb)%nat -> (wb_pos wb + 1 + tag_len <= length (wb_buffer wb))%nat.
Proof. pose proof tag_fits. unfold max_block_size, TLS_RECORD_OVERHEAD. lia. Qed.
Lemma wb_append_ok buf chunk wb : Started chunk wb -> (wb_pos wb <= max_block_size wb)%nat ->
  let n := Nat.min (length buf) (wb_space wb) in exists wb', wb_append buf wb = Some (n, wb') /\ Started (chunk ++ take n buf) wb' /\
    length (wb_buffer wb') = length (wb_buffer wb) /\ (wb_pos wb' <= max_block_size wb')%nat.
Proof.
  intros [Hh Hp (post & Hb)] Hm n. unfold wb_append, wb_space, max_block_size in *. fold n.
  destruct (Nat.ltb_spec 0 n) as [Hn|Hn].
  - assert (length (take n buf) = n) as Ht by (rewrite length_take; lia). assert (n <= length post)%nat as Hpost.
    { pose proof (f_equal length Hb) as El. rewrite !length_app, length_head_bytes in El. unfold n, HEADER_LEN, TLS_RECORD_OVERHEAD in *. lia. }
    rewrite overwrite_some by (rewrite Ht; lia). cbn [mbind option_bind]. eexists. split; [reflexivity|]. cbn [wb_buffer wb_pos current_header].
    rewrite length_written by (rewrite Ht; lia). split_and!; [|done|lia]. split; cbn [wb_buffer wb_pos current_header]; [done | rewrite length_app; lia |].
    exists (drop n post). rewrite Hb, Hp. rewrite (app_assoc _ chunk post).
    replace (HEADER_LEN + length chunk)%nat with (length (head_bytes ClientRecordHeader.ApplicationData ++ chunk)) by (rewrite length_app; done).
    rewrite <- (take_drop n post) at 1. rewrite written_middle by (rewrite !length_take; lia). by rewrite <- !app_assoc.
  - assert (n = 0)%nat as -> by lia. rewrite take_0, app_nil_r. exists wb. split_and!; [done | by split; eauto | done | done].
Qed.

(** *** Reading *)

Lemma last_nonzero_app l : forall i b p found, b <> 0 -> last_nonzero i (l ++ b :: replicate p 0) found = Some (i + length l)%nat.
Proof.
  induction l as [|x l IH]; intros i b p found Hb; cbn [app last_nonzero length].
  - rewrite (proj2 (Z.eqb_neq _ _) Hb), Nat.add_0_r. clear. generalize (Some i) as found. generalize (S i) as j.
    induction p as [|p IH]; intros j found; [done|]. cbn [replicate last_nonzero]. by rewrite IH.
  - rewrite IH by done. f_equal. lia.
Qed.
Lemma truncate_le n c : (n <= cb_capacity c - cb_offset c)%nat ->
  cb_truncate n c = {| cb_buf := cb_buf c; cb_offset := cb_offset c; cb_len := n |}.
Proof. intros H'. unfold cb_truncate. by rewrite (proj2 (Nat.leb_le _ _) H'). Qed.
(** Zeroes after the content are padding. *)
Lemma strip_padding_ok mem chunk b p : b <> 0 -> let inner := chunk ++ b :: replicate p 0 in range 0 (length inner) mem = Some inner ->
  strip_padding {| cb_buf := mem; cb_offset := 0; cb_len := length inner |} = Some {| cb_buf := mem; cb_offset := 0; cb_len := length chunk + 1 |}.
Proof.
  intros Hb inner Er. unfold strip_padding, cb_as_slice. cbn [cb_buf cb_offset cb_len]. rewrite Er. cbn [mbind option_bind].
  unfold inner at 1. rewrite last_nonzero_app by done. cbn [Nat.add]. unfold range in Er. destruct (Nat.leb_spec (0 + length inner) (length mem)) as [Hl|]; [|done].
  unfold inner in Hl. rewrite length_app in Hl. cbn [length] in Hl. rewrite truncate_le by (unfold cb_capacity; cbn [cb_buf cb_offset]; lia). done.
Qed.
Lemma decrypt_ok {S} (cb : ServerRecord -> Op (Rx S) TlsError unit) t header start chunk p rx :
  let k := r_state (rx_keys rx) in
  let d := aead_seal (ks_key k) (get_nonce k) header (chunk ++ ContentType_as_u8 t :: replicate p 0) in
  t <> ContentType.Invalid -> (start + length d <= length (rx_buf rx))%nat -> exists mem app,
  decrypt_record cb (ApplicationDataRecord {| ad_header := header; ad_start := start; ad_data := cb_wrap_with_pos d (length d) |}) rx =
    (content cb t header start app;; rx_increment) {| rx_keys := rx_keys rx; rx_buf := mem; rx_state := rx_state rx |} /\
  length mem = length (rx_buf rx) /\ range start (length chunk) mem = Some chunk /\
  cb_as_slice app = Some chunk /\ cb_offset app = 0%nat /\ cb_len app = length chunk.
Proof.
  intros k d Ht Hl. set (inner := chunk ++ ContentType_as_u8 t :: replicate p 0) in *.
  assert (length d = length inner + tag_len)%nat as Hd by apply length_seal.
  assert (length inner = length chunk + 1 + p)%nat as Hi by (unfold inner; rewrite length_app; cbn [length]; rewrite length_replicate; lia).
  assert (inner = [] ++ (chunk ++ [ContentType_as_u8 t]) ++ replicate p 0) as Ei by (unfold inner; by rewrite <- app_assoc).
  unfold decrypt_record, cb_as_slice, cb_wrap_with_pos. cbn [ad_data ad_header ad_start cb_offset cb_len cb_buf]. fold k.
  rewrite range_some by lia. rewrite drop_0, firstn_all. cbn [mbind option_bind]. unfold d at 1. rewrite open_seal.
  rewrite overwrite_some by lia. cbn [mbind option_bind].
  set (mem := written 0 inner d). assert (mem = inner ++ drop (length inner) d) as Em by done.
  assert (length mem = length d) as Hm by (apply length_written; lia).
  rewrite overwrite_some by lia. cbn [mbind option_bind]. rewrite truncate_le by (unfold cb_capacity; cbn [cb_buf cb_offset]; lia).
  cbn [cb_buf cb_offset cb_len].
  assert (range 0 (length inner) mem = Some inner) as Er by (rewrite Em; apply (range_middle [])). unfold cb_as_slice.
  pose proof (strip_padding_ok mem chunk (ContentType_as_u8 t) p ltac:(by destruct t) Er) as E. fold inner in E. rewrite E. clear E.
  cbn [mbind option_bind cb_buf cb_offset cb_len].
  assert (range 0 (length chunk + 1) mem = Some (chunk ++ [ContentType_as_u8 t])) as ->.
  { rewrite Em, Ei. cbn [app]. rewrite <- app_assoc. replace (length chunk + 1)%nat with (length (chunk ++ [ContentType_as_u8 t])) by (rewrite length_app; done).
    apply (range_middle []). }
  cbn [mbind option_bind]. rewrite last_snoc. cbn [mbind option_bind]. rewrite ContentType_of_as.
  rewrite truncate_le by (unfold cb_capacity; cbn [cb_buf cb_offset]; lia). cbn [cb_buf cb_offset cb_len]. rewrite Nat.add_sub.
  eexists _, _. split; [reflexivity|]. cbn [cb_offset cb_len cb_buf]. rewrite length_written by lia.
  destruct (split_buffer start (length d) (rx_buf rx)) as (x & y & z & Eb & Hx & Hy); [lia|]. rewrite Eb, <- Hx, (written_middle x y z) by lia.
  rewrite Em. unfold inner at 1 3. rewrite <- !app_assoc. split_and!; [done | apply range_middle | | done | done].
  apply (range_middle [] chunk).
Qed.
Lemma handle_application_data (rx : Rx Handler) header start chunk p : let k := r_state (rx_keys rx) in
  let d := aead_seal (ks_key k) (get_nonce k) header (chunk ++ 23 :: replicate p 0) in
  (start + length d <= length (rx_buf rx))%nat -> counter k + 1 <= umax 64 -> exists mem,
  decrypt_record handle (ApplicationDataRecord {| ad_header := header; ad_start := start; ad_data := cb_wrap_with_pos d (length d) |}) rx =
    Some (Ok tt, {| rx_keys := {| r_state := {| traffic_secret := traffic_secret k; counter := counter k + 1; ks_key := ks_key k; ks_iv := ks_iv k |};
                                  transcript_hash := transcript_hash (rx_keys rx) |}; rx_buf := mem;
                    rx_state := {| buffer_info := {| info_offset := start; info_len := length chunk; info_consumed := 0 |}; is_open := is_open (rx_state rx) |} |}) /\
  length mem = length (rx_buf rx) /\ range start (length chunk) mem = Some chunk.
Proof.
  intros k d Hl Hc. destruct (decrypt_ok handle ContentType.ApplicationData header start chunk p rx ltac:(done) Hl) as (mem & app & E & Hm & Hr & Ha & Ho & Hn).
  exists mem. split; [|done]. cbn [ContentType_as_u8] in E. fold k in E. fold d in E. rewrite E. unfold content, op_unwrap, mbind, Op_bind. rewrite Ha. cbn [mbind option_bind handle].
  unfold rx_increment, increment_counter. cbn [rx_keys rx_buf rx_state ad_start ad_data]. fold k. rewrite (proj2 (Z.leb_le _ _) Hc), Ho, Hn, Nat.add_0_r. done.
Qed.
End Protection.

(** *** Handshake records *)
Section HandshakeRecords.
Context {K : Type} `{TlsCryptoLaws K}.

(** What is in the buffer when the message has been encoded behind the header. *)
Lemma encoded_record h (m : Enc unit) payload wb : Encodes m payload -> StartedAs h [] wb -> (HEADER_LEN + length payload <= length (wb_buffer wb))%nat ->
  exists buf, m (cb_forward (cb_wrap_with_pos (wb_buffer wb) (wb_pos wb))) = Some (Ok tt, buf) /\ cb_as_slice buf = Some payload /\
    cb_offset buf = HEADER_LEN /\ cb_len buf = length payload /\ length (cb_buf buf) = length (wb_buffer wb) /\
    overwrite HEADER_LEN payload (cb_buf buf) = Some (cb_buf buf) /\
    StartedAs h payload {| wb_buffer := cb_buf (cb_rewind buf); wb_pos := cb_len (cb_rewind buf); current_header := current_header wb |}.
Proof.
  intros Hm [Hh Hp (post & Hb)] Hl. cbn [length app] in Hp, Hb. rewrite Nat.add_0_r in Hp. pose proof (length_head_bytes h) as Hlh.
  specialize (Hm (cb_forward (cb_wrap_with_pos (wb_buffer wb) (wb_pos wb)))).
  rewrite Hp, Hb in Hm |- *. rewrite Hb, length_app, Hlh in Hl.
  unfold cb_forward, cb_wrap_with_pos, cb_at, cb_ok, cb_space, cb_capacity in *. cbn [cb_buf cb_offset cb_len] in *. rewrite length_app, Hlh in Hm.
  replace (HEADER_LEN + 0 - HEADER_LEN)%nat with 0%nat in * by lia. specialize (Hm ltac:(lia)). rewrite decide_True in Hm by lia.
  exists (appended payload {| cb_buf := head_bytes h ++ post; cb_offset := HEADER_LEN; cb_len := 0 |}). split; [exact Hm|].
  assert (cb_buf (appended payload {| cb_buf := head_bytes h ++ post; cb_offset := HEADER_LEN; cb_len := 0 |}) =
    head_bytes h ++ payload ++ drop (length payload) post) as Eb.
  { unfold appended. cbn [cb_buf cb_offset cb_len]. rewrite Nat.add_0_r, <- Hlh. rewrite <- (take_drop (length payload) post) at 1.
    rewrite written_middle by (rewrite length_take; lia). done. }
  rewrite Eb. unfold cb_as_slice. cbn [appended cb_offset cb_len]. rewrite Eb, <- Hlh at 1. rewrite Nat.add_0_l, range_middle.
  split_and!; [done | done | done | rewrite !length_app, length_drop; lia | |].
  - rewrite <- Hlh at 1. rewrite overwrite_some by (rewrite !length_app; lia). by rewrite written_middle.
  - split; [done | cbn; unfold HEADER_LEN; lia |]. cbn [wb_buffer cb_rewind cb_at cb_buf]. rewrite Eb. by eexists.
Qed.
(** A protected handshake record goes into the transcript. *)
Lemma write_handshake_ok (m : ClientHandshake (K := K)) payload (write : WriteKeySchedule) wb th : Encodes (ClientHandshake_encode m) payload -> Closed wb ->
  (HEADER_LEN + length payload + 1 + tag_len <= length (wb_buffer wb))%nat -> fits_record payload -> exists wb', Closed wb' /\
  length (wb_buffer wb') = length (wb_buffer wb) /\ write_record (ClientHandshakeRecord m true) write (wb, th) =
    Some (Ok (sealed_record ContentType.Handshake (w_state write) payload), (wb', th ++ payload)).
Proof.
  intros Hm Hc Hl Hf. unfold write_record. rewrite (proj1 Hc). cbn [record_header encode_payload].
  destruct (start_record_ok (ClientRecordHeader.Handshake true) wb Hc) as (wb1 & E1 & Hs1 & Hl1); [lia|]. rewrite E1. cbn [mbind option_bind].
  destruct (encoded_record _ _ payload wb1 Hm Hs1) as (buf & E2 & Ea & Eo & En & Elb & _ & Hs2); [lia|]. rewrite E2. cbn [mbind option_bind finish_record]. rewrite Ea. cbn [mbind option_bind].
  destruct (close_record_ok (ClientRecordHeader.Handshake true) write payload _ eq_refl Hs2 Hf) as (wb2 & Hc2 & Hl2 & E3).
  { cbn [wb_pos wb_buffer cb_rewind cb_at cb_len cb_buf]. rewrite Eo, En. lia. }
  rewrite E3. exists wb2. split_and!; [done | cbn in Hl2; lia | done].
Qed.
(** A hello without a pre-shared key goes out as it is. *)
Lemma write_hello_ok (h : ClientHello (K := K)) payload (write : WriteKeySchedule) wb th : psk (ch_config h) = None ->
  Encodes (ClientHandshake_encode (ClientHelloMsg h)) payload -> Closed wb -> (HEADER_LEN + length payload <= length (wb_buffer wb))%nat ->
  Z.of_nat (length payload) < 65536 -> exists wb', Closed wb' /\ length (wb_buffer wb') = length (wb_buffer wb) /\
  write_record (ClientHandshakeRecord (ClientHelloMsg h) false) write (wb, th) =
    Some (Ok ([22; 3; 1] ++ be_bytes 2 (Z.of_nat (length payload)) ++ payload), (wb', th ++ payload)).
Proof.
  intros Hpsk Hm Hc Hl Hf. unfold write_record. rewrite (proj1 Hc). cbn [record_header encode_payload].
  destruct (start_record_ok (ClientRecordHeader.Handshake false) wb Hc) as (wb1 & E1 & Hs1 & Hl1); [lia|]. rewrite E1. cbn [mbind option_bind].
  destruct (encoded_record _ _ payload wb1 Hm Hs1) as (buf & E2 & Ea & Eo & En & Elb & Eov & Hs2); [lia|]. rewrite E2. cbn [mbind option_bind finish_record]. rewrite Ea. cbn [mbind option_bind].
  unfold ClientHandshake_finalize, ClientHello_finalize. rewrite Hpsk. cbn [mbind option_bind]. rewrite Eo, Eov. cbn [mbind option_bind cb_buf cb_offset cb_len].
  destruct (close_plain_ok (ClientRecordHeader.Handshake false) write payload _ eq_refl Hs2 Hf) as (wb2 & Hc2 & Hl2 & E3).
  replace {| cb_buf := cb_buf buf; cb_offset := HEADER_LEN; cb_len := cb_len buf |} with buf by (destruct buf; cbn in Eo; by subst). rewrite E3. exists wb2. split_and!; [done | cbn in Hl2; lia | done].
Qed.

(** Messages one after the other. *)
Fixpoint run_messages {S} (cb : ServerRecord -> Op (Rx S) TlsError unit) (ms : list (bytes * ServerHandshake)) : Op (Rx S) TlsError unit :=
  match ms with
  | [] => mret tt
  | (d, m) :: ms => fun rx =>
      (cb (HandshakeRecord (with_finished_hash (transcript_hash (rx_keys rx)) m));; run_messages cb ms)
        {| rx_keys := with_transcript (transcript_hash (rx_keys rx) ++ d) (rx_keys rx); rx_buf := rx_buf rx; rx_state := rx_state rx |}
  end.
Lemma messages_run {S} (cb : ServerRecord -> Op (Rx S) TlsError unit) ms : forall fuel pre (rx : Rx S),
  Forall (fun '(d, m) => d <> [] /\ Parses (ServerHandshake_parse) d m) ms -> (length ms <= fuel)%nat ->
  handshake_messages cb fuel {| pb_pos := length pre; pb_buffer := pre ++ mjoin (fst <$> ms) |} rx = run_messages cb ms rx.
Proof.
  induction ms as [|[d m] ms IH]; intros fuel pre rx Hms Hf.
  - destruct fuel; cbn [handshake_messages]; unfold pb_remaining; cbn; by rewrite app_nil_r, Nat.sub_diag.
  - apply Forall_cons in Hms as [[Hd Hm] Hms]. destruct fuel as [|fuel]; [cbn in Hf; lia|]. cbn [handshake_messages].
    change (mjoin (fst <$> (d, m) :: ms)) with (d ++ mjoin (fst <$> ms)). unfold pb_remaining. cbn [pb_pos pb_buffer].
    rewrite (proj2 (Nat.ltb_lt _ _)) by (rewrite !length_app; destruct d; [done | cbn [length]; lia]).
    rewrite (reads_message d m pre _ _ Hm). cbn [mbind option_bind run_messages]. cbn [length] in Hf.
    unfold mbind, Op_bind. destruct (cb _ _) as [[[[]|e] rx1]|]; [|done..]. rewrite app_assoc. apply IH; [done | lia].
Qed.
End HandshakeRecords.
