(* ===== verification/TlsConn.v ===== *)
(** * The connection of the TLS library

    [tools/embedded-tls/src]: the states of the handshake ([connection.rs]) and
    the asynchronous connection with its reads, writes and end ([asynch.rs]);
    the blocking variants are the same code without [await]. Verifier, signer
    and random numbers come from a provider, the transport is a parameter. *)
From S2P Require Import Prelude Str HttpBody HttpWriter HttpRequest TlsBuffer TlsKeys TlsMessages TlsRecord.

(** ** The provider ([config.rs]) *)

(** [CryptoProvider] with its [TlsVerifier]: [has_verifier] says whether
    [verifier()] gives one; a signer is a function of the message. *)
Class CryptoProvider (K P : Type) := {
  fill_random : P -> bytes * P;
  random_secret : P -> K * P;
  has_verifier : P -> bool;
  set_hostname_verification : bytes -> Op P TlsError unit;
  verify_certificate : bytes -> CertificateRef -> Op P TlsError unit;
  verify_signature : CertificateVerify -> Op P TlsError unit;
  signer : Op P TlsError ((bytes -> bytes) * SignatureScheme);
  client_cert_of : P -> option CertificateEntryRef * P
}.

Inductive FlushPolicy := Relaxed | Strict.
Definition flush_transport (self : FlushPolicy) : bool := match self with Strict => true | Relaxed => false end.

Module State.
Inductive State := ClientHello | ServerHello | ServerVerify | ClientCert | ClientCertVerify | ClientFinished | ApplicationData.
#[global] Instance State_eq_dec : EqDecision State.
Proof. solve_decision. Defined.
End State.

Section Connection.
Context {K C P : Type} `{TlsCrypto K} `{Sink C} `{Reads C} `{CryptoProvider K P}.

Record Handshake := { traffic_hash : option bytes; hs_secret : option K; certificate_request : option bytes }.
Definition Handshake_new : Handshake := {| traffic_hash := None; hs_secret := None; certificate_request := None |}.

(** What a step of the handshake works on. *)
Record Link := {
  lk_transport : C;
  lk_handshake : Handshake;
  lk_reader : RecordReader;
  lk_tx : WriteBuffer;
  lk_keys : KeySchedule;
  lk_provider : P
}.
Abbreviation Step := (Op Link TlsError).
Definition with_lk_transport (c : C) (l : Link) : Link := {| lk_transport := c; lk_handshake := lk_handshake l;
  lk_reader := lk_reader l; lk_tx := lk_tx l; lk_keys := lk_keys l; lk_provider := lk_provider l |}.
Definition with_lk_handshake (h : Handshake) (l : Link) : Link := {| lk_transport := lk_transport l; lk_handshake := h;
  lk_reader := lk_reader l; lk_tx := lk_tx l; lk_keys := lk_keys l; lk_provider := lk_provider l |}.
Definition with_lk_keys (k : KeySchedule) (l : Link) : Link := {| lk_transport := lk_transport l; lk_handshake := lk_handshake l;
  lk_reader := lk_reader l; lk_tx := lk_tx l; lk_keys := k; lk_provider := lk_provider l |}.
Definition with_lk_provider (p : P) (l : Link) : Link := {| lk_transport := lk_transport l; lk_handshake := lk_handshake l;
  lk_reader := lk_reader l; lk_tx := lk_tx l; lk_keys := lk_keys l; lk_provider := p |}.
Definition with_read_state (r : ReadKeySchedule) (k : KeySchedule) : KeySchedule :=
  {| shared := shared k; client_state := client_state k; server_state := r |}.
Definition increment_write (k : KeySchedule) : option KeySchedule :=
  st ← increment_counter (w_state (client_state k)); Some (with_w_state st k).

Definition on_keys {A} (m : Op KeySchedule TlsError A) : Step A := fun l => '(r, k) ← m (lk_keys l); Some (r, with_lk_keys k l).
Definition on_provider {A} (m : Op P TlsError A) : Step A := fun l => '(r, p) ← m (lk_provider l); Some (r, with_lk_provider p l).
Definition take_provider {A} (f : P -> A * P) : Step A := fun l => let (a, p) := f (lk_provider l) in Some (Ok a, with_lk_provider p l).
Definition set_handshake (f : Handshake -> Handshake) : Step unit := op_modify (fun l => with_lk_handshake (f (lk_handshake l)) l).
Definition with_traffic_hash (t : option bytes) (h : Handshake) : Handshake :=
  {| traffic_hash := t; hs_secret := hs_secret h; certificate_request := certificate_request h |}.
Definition with_hs_secret (s : option K) (h : Handshake) : Handshake :=
  {| traffic_hash := traffic_hash h; hs_secret := s; certificate_request := certificate_request h |}.
Definition with_certificate_request (c : option bytes) (h : Handshake) : Handshake :=
  {| traffic_hash := traffic_hash h; hs_secret := hs_secret h; certificate_request := c |}.
Definition transcript (l : Link) : bytes := transcript_hash (server_state (lk_keys l)).

(** [write_record] with the keys of the schedule. *)
Definition tx_record (record : ClientRecord) : Step bytes := fun l =>
  '(r, (tx, th)) ← write_record record (client_state (lk_keys l)) (lk_tx l, transcript l);
  Some (r, {| lk_transport := lk_transport l; lk_handshake := lk_handshake l; lk_reader := lk_reader l; lk_tx := tx;
              lk_keys := replace_transcript_hash th (lk_keys l); lk_provider := lk_provider l |}).
(** The counter is incremented for a record that could be written. *)
Definition respond (tx : bytes) : Step unit := fun l =>
  let (r, c) := sink_write_all tx (lk_transport l) in
  let l := with_lk_transport c l in
  match r with
  | Err e => Some (Err (Io e), l)
  | Ok _ =>
      keys ← increment_write (lk_keys l);
      let (r, c) := sink_flush (lk_transport l) in
      Some (map_err Io r, with_lk_keys keys (with_lk_transport c l))
  end.
Definition read_record : Step ServerRecord := fun l =>
  '(r, (reader, c, keys)) ← RecordReader_read (lk_reader l) (lk_transport l) (server_state (lk_keys l));
  Some (r, {| lk_transport := c; lk_handshake := lk_handshake l; lk_reader := reader; lk_tx := lk_tx l;
              lk_keys := with_read_state keys (lk_keys l); lk_provider := lk_provider l |}).

(** ** The steps of the handshake *)

Definition client_hello (config : TlsConfig) : Step (State.State * bytes) :=
  on_keys (initialize_early_secret (fst <$> psk config));;
  random ← take_provider fill_random;
  secret ← take_provider random_secret;
  let hello := {| ch_config := config; ch_random := random; ch_secret := secret |} in
  slice ← tx_record (ClientHandshakeRecord (ClientHelloMsg hello) false);
  set_handshake (with_hs_secret (Some secret));;
  mret (State.ServerHello, slice).

Definition process_server_hello (record : ServerRecord) : Step State.State :=
  match record with
  | HandshakeRecord (ServerHelloMsg server_hello) =>
      l ← op_get;
      set_handshake (with_hs_secret None);;
      secret ← op_ok_or (hs_secret (lk_handshake l)) InvalidHandshake;
      shared ← op_ok_or (calculate_shared_secret secret server_hello) InvalidKeyShare;
      on_keys (initialize_handshake_secret shared);;
      mret State.ServerVerify
  | HandshakeRecord _ => op_fail InvalidHandshake
  | AlertRecord a => op_fail (HandshakeAborted (al_level a) (al_description a))
  | _ => op_fail InvalidRecord
  end.

(** The handler of the server's messages: the handshake, the provider and the
    next state are what it captures. *)
Record Verify := { vf_handshake : Handshake; vf_provider : P; vf_state : State.State }.
Definition on_verify (f : Verify -> Verify) : Op (Rx Verify) TlsError unit :=
  op_modify (fun rx => {| rx_keys := rx_keys rx; rx_buf := rx_buf rx; rx_state := f (rx_state rx) |}).
Definition verifier_step (m : Op P TlsError unit) : Op (Rx Verify) TlsError unit := fun rx =>
  let v := rx_state rx in
  if has_verifier (vf_provider v) then
    '(r, p) ← m (vf_provider v);
    Some (r, {| rx_keys := rx_keys rx; rx_buf := rx_buf rx;
                rx_state := {| vf_handshake := vf_handshake v; vf_provider := p; vf_state := vf_state v |} |})
  else Some (Ok tt, rx).
Definition verify_finished (finished : Finished) : Op (Rx Verify) TlsError unit := fun rx =>
  match verify_server_finished finished (rx_keys rx) with
  | Err e => Some (Err e, rx)
  | Ok false => Some (Err InvalidSignature, rx)
  | Ok true =>
      on_verify (fun v =>
        match certificate_request (vf_handshake v) with
        | Some _ => {| vf_handshake := vf_handshake v; vf_provider := vf_provider v; vf_state := State.ClientCert |}
        | None => {| vf_handshake := with_traffic_hash (Some (transcript_hash (rx_keys rx))) (vf_handshake v);
                vf_provider := vf_provider v; vf_state := State.ClientFinished |}
        end) rx
  end.
Definition server_verify_record (record : ServerRecord) : Op (Rx Verify) TlsError unit :=
  match record with
  | HandshakeRecord server_handshake =>
      match server_handshake with
      | EncryptedExtensionsMsg => mret tt
      | CertificateMsg certificate =>
          rx ← op_get; verifier_step (verify_certificate (transcript_hash (rx_keys rx)) certificate)
      | CertificateVerifyMsg verify => verifier_step (verify_signature verify)
      | CertificateRequestMsg request =>
          context ← op_lift (CertificateRequest_try_from request);
          on_verify (fun v => {| vf_handshake := with_certificate_request (Some context) (vf_handshake v);
                                 vf_provider := vf_provider v; vf_state := vf_state v |})
      | FinishedMsg finished => verify_finished finished
      | _ => op_fail InvalidHandshake
      end
  | ChangeCipherSpecRecord => mret tt
  | _ => op_fail InvalidRecord
  end.
Definition process_server_verify (record : ServerRecord) : Step State.State := fun l =>
  '(r, rx) ← decrypt_record server_verify_record record
    {| rx_keys := server_state (lk_keys l); rx_buf := rr_buf (lk_reader l);
       rx_state := {| vf_handshake := lk_handshake l; vf_provider := lk_provider l; vf_state := State.ServerVerify |} |};
  let v := rx_state rx in
  let reader := {| rr_buf := rx_buf rx; rr_decoded := rr_decoded (lk_reader l); rr_pending := rr_pending (lk_reader l) |} in
  Some (_ ← r; Ok (vf_state v),
    {| lk_transport := lk_transport l; lk_handshake := vf_handshake v; lk_reader := reader; lk_tx := lk_tx l;
       lk_keys := with_read_state (rx_keys rx) (lk_keys l); lk_provider := vf_provider v |}).

Definition client_cert : Step (State.State * bytes) :=
  l ← op_get;
  set_handshake (with_traffic_hash (Some (transcript l)));;
  request_context ← op_ok_or (certificate_request (lk_handshake l)) InvalidHandshake;
  cert ← take_provider client_cert_of;
  let certificate := CertificateRef_with_context request_context in
  '(certificate, next_state) ← (match cert with
    | Some cert => certificate ← op_lift (CertificateRef_add cert certificate); mret (certificate, State.ClientCertVerify)
    | None => mret (certificate, State.ClientFinished)
    end : Step (CertificateRef * State.State));
  slice ← tx_record (ClientHandshakeRecord (ClientCert certificate) true);
  mret (next_state, slice).

(** The signed message: 64 spaces, the context string and the transcript hash,
    in a vector of 146 bytes; a longer signature than [SIGNATURE_SIZE] panics. *)
Definition verify_message (context : bytes) (th : bytes) : result TlsError bytes :=
  if (64 + length context + length (hash th) <=? 146)%nat then Ok (replicate 64 32 ++ context ++ hash th) else Err EncodeError.
Definition client_cert_verify : Step (result TlsError State.State * bytes) :=
  s ← op_try (on_provider signer);
  '(result, record) ← (match s with
    | Ok (sign, scheme) =>
        l ← op_get;
        msg ← op_lift (verify_message (lit "TLS 1.3, client CertificateVerify" ++ [0]) (transcript l));
        if (SIGNATURE_SIZE <? length (sign msg))%nat then op_panic
        else mret (Ok State.ClientFinished, ClientHandshakeRecord (ClientCertVerify {| signature_scheme := scheme; signature := sign msg |}) true)
    | Err e => mret (Err e, close_notify true)
    end : Step (result TlsError State.State * ClientRecord));
  slice ← tx_record record;
  mret (result, slice).
Definition client_finished : Step bytes :=
  l ← op_get;
  finished ← op_map_err (fun _ => InvalidHandshake) (op_lift (create_client_finished (lk_keys l)));
  tx_record (ClientHandshakeRecord (ClientFinished finished) true).
Definition client_finished_finalize : Step State.State :=
  l ← op_get;
  set_handshake (with_traffic_hash None);;
  hash ← op_ok_or (traffic_hash (lk_handshake l)) InvalidHandshake;
  on_keys (op_modify (replace_transcript_hash hash));;
  on_keys initialize_master_secret;;
  mret State.ApplicationData.

(** An aborted handshake is announced, without protection. *)
Definition handle_processing_error (result : result TlsError State.State) : Step State.State :=
  match result with
  | Err (AbortHandshake level description) =>
      tx ← tx_record (ClientAlertRecord {| al_level := level; al_description := description |} false);
      respond tx;;
      op_lift result
  | _ => op_lift result
  end.

(** [State::process]. *)
Definition process (state : State.State) (config : TlsConfig) : Step State.State :=
  match state with
  | State.ClientHello => '(state, tx) ← client_hello config; respond tx;; mret state
  | State.ServerHello => record ← read_record; result ← op_try (process_server_hello record); handle_processing_error result
  | State.ServerVerify => record ← read_record; result ← op_try (process_server_verify record); handle_processing_error result
  | State.ClientCert => '(state, tx) ← client_cert; respond tx;; mret state
  | State.ClientCertVerify => '(result, tx) ← client_cert_verify; respond tx;; op_lift result
  | State.ClientFinished => tx ← client_finished; respond tx;; client_finished_finalize
  | State.ApplicationData => mret State.ApplicationData
  end.
(** The loop of [open]; every round in [ServerVerify] takes a record off the
    transport. *)
Fixpoint handshake_loop (fuel : nat) (config : TlsConfig) (state : State.State) : Step unit :=
  if bool_decide (state = State.ApplicationData) then mret tt
  else match fuel with
  | O => op_panic
  | S fuel => next_state ← process state config; handshake_loop fuel config next_state
  end.

(** ** The connection *)

Record TlsConnection := {
  delegate : C;
  opened : bool;
  key_schedule : KeySchedule;
  record_reader : RecordReader;
  record_write_buf : WriteBuffer;
  decrypted : DecryptedBufferInfo;
  flush_policy : FlushPolicy
}.
Abbreviation Tls := (Op TlsConnection TlsError).
Definition TlsConnection_new (delegate : C) (record_read_buf record_write_buf : bytes) : TlsConnection := {|
  delegate := delegate; opened := false; key_schedule := KeySchedule_new; record_reader := RecordReader_new record_read_buf;
  record_write_buf := WriteBuffer_new record_write_buf; decrypted := DecryptedBufferInfo_default; flush_policy := Strict |}.
Definition with_write_buf (b : WriteBuffer) (self : TlsConnection) : TlsConnection := {|
  delegate := delegate self; opened := opened self; key_schedule := key_schedule self; record_reader := record_reader self;
  record_write_buf := b; decrypted := decrypted self; flush_policy := flush_policy self |}.
Definition with_delegate (c : C) (self : TlsConnection) : TlsConnection := {|
  delegate := c; opened := opened self; key_schedule := key_schedule self; record_reader := record_reader self;
  record_write_buf := record_write_buf self; decrypted := decrypted self; flush_policy := flush_policy self |}.
Definition with_keys (k : KeySchedule) (self : TlsConnection) : TlsConnection := {|
  delegate := delegate self; opened := opened self; key_schedule := k; record_reader := record_reader self;
  record_write_buf := record_write_buf self; decrypted := decrypted self; flush_policy := flush_policy self |}.
Definition with_decrypted (d : DecryptedBufferInfo) (self : TlsConnection) : TlsConnection := {|
  delegate := delegate self; opened := opened self; key_schedule := key_schedule self; record_reader := record_reader self;
  record_write_buf := record_write_buf self; decrypted := d; flush_policy := flush_policy self |}.

(** [open]: the provider is what is left of the context. *)
Definition tls_open (fuel : nat) (config : TlsConfig) (provider : P) : Op TlsConnection TlsError P := fun self =>
  '(r, provider) ← (match server_name config with
    | Some name => if has_verifier provider then set_hostname_verification name provider else Some (Ok tt, provider)
    | None => Some (Ok tt, provider)
    end);
  match r with
  | Err e => Some (Err e, self)
  | Ok _ =>
      '(r, l) ← handshake_loop fuel config State.ClientHello
        {| lk_transport := delegate self; lk_handshake := Handshake_new; lk_reader := record_reader self;
           lk_tx := record_write_buf self; lk_keys := key_schedule self; lk_provider := provider |};
      Some (_ ← r; Ok (lk_provider l),
        {| delegate := lk_transport l; opened := is_ok r || opened self; key_schedule := lk_keys l; record_reader := lk_reader l;
           record_write_buf := lk_tx l; decrypted := decrypted self; flush_policy := flush_policy self |})
  end.

(** *** Writing *)

Definition on_write_buf {A} (m : Op WriteBuffer TlsError A) : Tls A := fun self =>
  '(r, b) ← m (record_write_buf self); Some (r, with_write_buf b self).
Definition transport_flush : Tls unit := fun self =>
  let (r, c) := sink_flush (delegate self) in Some (map_err Io r, with_delegate c self).
Definition transport_write (slice : bytes) : Tls unit := fun self =>
  let (r, c) := sink_write_all slice (delegate self) in Some (map_err Io r, with_delegate c self).
Definition count_record : Tls unit := fun self => k ← increment_write (key_schedule self); Some (Ok tt, with_keys k self).
Definition tls_flush : Tls unit :=
  self ← op_get;
  if wb_is_empty (record_write_buf self) then mret tt
  else
    slice ← on_write_buf (close_record (client_state (key_schedule self)));
    transport_write slice;;
    count_record;;
    if flush_transport (flush_policy self) then transport_flush else mret tt.
Definition tls_write (buf : bytes) : Tls nat :=
  self ← op_get;
  if opened self then
    (if wb_contains ClientRecordHeader.ApplicationData (record_write_buf self) then mret tt
     else tls_flush;; on_write_buf (start_record ClientRecordHeader.ApplicationData));;
    buffered ← (fun self => '(n, b) ← wb_append buf (record_write_buf self); Some (Ok n, with_write_buf b self)) : Tls nat;
    self ← op_get;
    (if wb_is_full (record_write_buf self) then tls_flush else mret tt);;
    mret buffered
  else op_fail MissingHandshake.

(** *** Reading *)

Definition read_application_data : Tls unit := fun self =>
  '(r, (reader, c, keys)) ← RecordReader_read (record_reader self) (delegate self) (server_state (key_schedule self));
  let self := {| delegate := c; opened := opened self; key_schedule := with_read_state keys (key_schedule self); record_reader := reader;
                 record_write_buf := record_write_buf self; decrypted := decrypted self; flush_policy := flush_policy self |} in
  match r with
  | Err e => Some (Err e, self)
  | Ok record =>
      '(r, rx) ← decrypt_record handle record
        {| rx_keys := keys; rx_buf := rr_buf reader; rx_state := {| buffer_info := decrypted self; is_open := opened self |} |};
      Some (r, {| delegate := c; opened := is_open (rx_state rx); key_schedule := with_read_state (rx_keys rx) (key_schedule self);
                  record_reader := {| rr_buf := rx_buf rx; rr_decoded := rr_decoded reader; rr_pending := rr_pending reader |};
                  record_write_buf := record_write_buf self; decrypted := buffer_info (rx_state rx); flush_policy := flush_policy self |})
  end.
(** The loop of [read_buffered]: a record for each round. *)
Fixpoint fill_decrypted (fuel : nat) : Tls unit := fun self =>
  if info_is_empty (decrypted self) then
    match fuel with
    | O => None
    | S fuel => (read_application_data;; fill_decrypted fuel) self
    end
  else Some (Ok tt, self).
Definition use_read_buffer {A} (f : ReadBuffer -> A * ReadBuffer) : Tls A := fun self =>
  b ← create_read_buffer (rr_buf (record_reader self)) (decrypted self);
  let (a, b) := f b in
  Some (Ok a, with_decrypted (rd_drop b (decrypted self)) self).
Definition read_buffered {A} (fuel : nat) (f : ReadBuffer -> A * ReadBuffer) : Tls A :=
  self ← op_get;
  if opened self then fill_decrypted fuel;; use_read_buffer f else op_fail MissingHandshake.
Definition tls_read (fuel n : nat) : Tls bytes := if (n =? 0)%nat then mret [] else read_buffered fuel (rd_pop_into n).
Definition tls_fill_buf (fuel : nat) : Tls bytes := read_buffered fuel rd_peek_all.
Definition tls_consume (amt : nat) : Tls bytes := use_read_buffer (rd_pop amt).

(** *** The end *)

Definition close_internal : Tls unit :=
  tls_flush;;
  self ← op_get;
  slice ← (fun self =>
    '(r, (tx, th)) ← write_record (close_notify (opened self)) (client_state (key_schedule self))
                       (record_write_buf self, transcript_hash (server_state (key_schedule self)));
    Some (r, with_keys (replace_transcript_hash th (key_schedule self)) (with_write_buf tx self))) : Tls bytes;
  transport_write slice;;
  count_record;;
  transport_flush.
End Connection.
