(* ===== verification/TlsStream.v ===== *)
(** * The stream of a TLS connection

    What one side writes to an open connection of [TlsConn] is what a side with
    the same keys reads, however the transport cuts the bytes. *)
From S2P Require Import Prelude Str HttpBody HttpWriter HttpRequest HttpClient TlsBuffer TlsKeys TlsMessages TlsRecord TlsConn.

(** A record of application data that is being filled. *)
Abbreviation Started := (StartedAs ClientRecordHeader.ApplicationData).

(** The loops callers read and write with: [Write::write_all] and
    [Read::read_exact] of the [embedded-io-async] traits. *)
Section Loops.
Context {K C : Type} `{TlsCrypto K} `{Sink C} `{Reads C}.

Fixpoint tls_write_all (fuel : nat) (buf : bytes) : Op (TlsConnection (C := C)) TlsError unit :=
  if (length buf =? 0)%nat then mret tt
  else match fuel with
  | O => op_panic
  | S fuel => n ← tls_write buf; tls_write_all fuel (drop n buf)
  end.
(** Messages one after the other, and a flush. *)
Fixpoint tls_send (ds : list bytes) : Op (TlsConnection (C := C)) TlsError unit :=
  match ds with
  | [] => tls_flush
  | d :: ds => tls_write_all (length d) d;; tls_send ds
  end.
Fixpoint tls_read_exact (rounds fuel n : nat) : Op (TlsConnection (C := C)) TlsError bytes :=
  if (n =? 0)%nat then mret []
  else match rounds with
  | O => op_panic
  | S rounds => a ← tls_read fuel n; b ← tls_read_exact rounds fuel (n - length a); mret (a ++ b)
  end.
Fixpoint tls_receive (fuel : nat) (ns : list nat) : Op (TlsConnection (C := C)) TlsError (list bytes) :=
  match ns with
  | [] => mret []
  | n :: ns => p ← tls_read_exact n fuel n; ps ← tls_receive fuel ns; mret (p :: ps)
  end.
End Loops.

(** ** Sealed streams *)
Section Stream.
Context {K : Type} `{TlsCryptoLaws K}.

Definition nth_key (n : nat) (k : KeyScheduleState) : KeyScheduleState :=
  {| traffic_secret := traffic_secret k; counter := counter k + Z.of_nat n; ks_key := ks_key k; ks_iv := ks_iv k |}.
(** Records under consecutive counters. *)
Fixpoint sealed_stream (k : KeyScheduleState) (chunks : list bytes) : bytes :=
  match chunks with
  | [] => []
  | c :: chunks => sealed_record ContentType.ApplicationData k c ++ sealed_stream (nth_key 1 k) chunks
  end.
Lemma nth_key_0 k : nth_key 0 k = k.
Proof. destruct k. unfold nth_key. cbn. by rewrite Z.add_0_r. Qed.
Lemma nth_key_add n m k : nth_key n (nth_key m k) = nth_key (m + n) k.
Proof. unfold nth_key. cbn. f_equal. lia. Qed.
Lemma sealed_stream_app a : forall k b, sealed_stream k (a ++ b) = sealed_stream k a ++ sealed_stream (nth_key (length a) k) b.
Proof.
  induction a as [|c a IH]; intros k b; cbn [app sealed_stream length]; [by rewrite nth_key_0|].
  by rewrite IH, <- app_assoc, nth_key_add.
Qed.
Lemma length_sealed_record t k c : length (sealed_record t k c) = (HEADER_LEN + (length c + 1 + tag_len))%nat.
Proof. unfold sealed_record, record_header_of. rewrite !length_app, length_be_bytes, length_sealed. done. Qed.
Lemma length_sealed_stream chunks : forall k, (length chunks <= length (sealed_stream k chunks))%nat.
Proof. induction chunks as [|c chunks IH]; intros k; cbn [sealed_stream length]; [done|]. rewrite length_app, length_sealed_record. specialize (IH (nth_key 1 k)). lia. Qed.
Lemma sealed_stream_imap chunks : forall k i,
  sealed_stream (nth_key i k) chunks = mjoin (imap (fun j => sealed_record ContentType.ApplicationData (nth_key (i + j) k)) chunks).
Proof.
  induction chunks as [|c chunks IH]; intros k i; [done|]. cbn [sealed_stream imap]. rewrite Nat.add_0_r, nth_key_add, IH.
  change (mjoin (?a :: ?b)) with (a ++ mjoin b). do 2 f_equal. apply imap_ext. intros j x _. cbn [compose].
  by rewrite Nat.add_1_r, Nat.add_succ_comm.
Qed.
Lemma increment_next k : counter k + 1 <= umax 64 -> increment_counter k = Some (nth_key 1 k).
Proof. intros Hc. unfold increment_counter. by rewrite (proj2 (Z.leb_le _ _) Hc). Qed.

(** ** Writing *)
Section Writing.
Context {C : Type} `{SinkLaws C} (reliable : Reliable C).
#[local] Abbreviation Conn := (TlsConnection (C := C)).

Definition write_key (self : Conn) : KeyScheduleState := w_state (client_state (key_schedule self)).
(** An open connection that holds [pending] back, in a buffer of the right size. *)
Record Sending (size : nat) (pending : bytes) (self : Conn) : Prop := {
  snd_opened : opened self = true;
  snd_size : length (wb_buffer (record_write_buf self)) = size;
  snd_room : (TLS_RECORD_OVERHEAD + HEADER_LEN < size)%nat;
  snd_fits : Z.of_nat size < 65536;
  snd_buffer : (Closed (record_write_buf self) /\ pending = []) \/
    (Started pending (record_write_buf self) /\ (wb_pos (record_write_buf self) < max_block_size (record_write_buf self))%nat)
}.
(** What has gone out from one state to the other. *)
Definition Wrote (chunks : list bytes) (self self' : Conn) : Prop :=
  sent (delegate self') = sent (delegate self) ++ sealed_stream (write_key self) chunks /\
  write_key self' = nth_key (length chunks) (write_key self) /\
  Forall (fun c => fits_record c /\ (length c + 1 + tag_len <= length (wb_buffer (record_write_buf self)))%nat) chunks /\
  length (wb_buffer (record_write_buf self')) = length (wb_buffer (record_write_buf self)).
Lemma wrote_nil self : Wrote [] self self.
Proof. unfold Wrote. split_and!; cbn; [by rewrite app_nil_r | by rewrite nth_key_0 | apply Forall_nil_2 | done]. Qed.
Lemma wrote_app a b self self1 self2 : Wrote a self self1 -> Wrote b self1 self2 -> Wrote (a ++ b) self self2.
Proof.
  intros (E1 & E2 & F1 & L1) (E3 & E4 & F2 & L2). unfold Wrote. split_and!.
  - by rewrite E3, E1, E2, sealed_stream_app, <- app_assoc.
  - by rewrite E4, E2, nth_key_add, length_app.
  - apply Forall_app. split; [done|]. by rewrite <- L1.
  - congruence.
Qed.

(** Closing a record that is started, full or not. *)
Lemma flush_started chunk self : Started chunk (record_write_buf self) -> fits_record chunk ->
  (wb_pos (record_write_buf self) <= max_block_size (record_write_buf self))%nat ->
  counter (write_key self) + 1 <= umax 64 -> exists self',
  tls_flush self = Some (Ok tt, self') /\ Closed (record_write_buf self') /\ Wrote [chunk] self self' /\ opened self' = opened self /\
  length (wb_buffer (record_write_buf self')) = length (wb_buffer (record_write_buf self)).
Proof.
  intros Hs Hf Hm Hc. assert (Forall (fun c => fits_record c /\ (length c + 1 + tag_len <= length (wb_buffer (record_write_buf self)))%nat) [chunk]) as Hall.
  { apply Forall_singleton. split; [done|]. pose proof tag_fits. pose proof (started_pos _ _ _ Hs). unfold max_block_size, TLS_RECORD_OVERHEAD, HEADER_LEN in *. lia. }
  unfold tls_flush. erewrite op_then by reflexivity. unfold wb_is_empty. rewrite (started_pos _ _ _ Hs).
  change (HEADER_LEN + length chunk =? 0)%nat with false. cbv iota.
  destruct (close_record_ok ClientRecordHeader.ApplicationData (client_state (key_schedule self)) chunk _ eq_refl Hs Hf (block_room _ Hm ltac:(rewrite (started_pos _ _ _ Hs); unfold HEADER_LEN; lia))) as (wb & Hcl & Hl & E). cbn [trailer_content_type] in E.
  erewrite op_then by (unfold on_write_buf; rewrite E; reflexivity).
  destruct (proj1 reliable (sealed_record ContentType.ApplicationData (write_key self) chunk) (delegate self)) as (c1 & E1).
  erewrite op_then by (unfold transport_write; cbn [with_write_buf delegate]; fold (write_key self); rewrite E1; reflexivity).
  erewrite op_then by (unfold count_record, increment_write; cbn [with_delegate with_write_buf key_schedule]; fold (write_key self); rewrite (increment_next _ Hc); reflexivity).
  destruct (proj2 reliable c1) as (c2 & E2). pose proof (write_all_sent _ _ _ E1) as S1. pose proof (flush_sent _ _ E2) as S2.
  destruct (flush_transport (flush_policy self)) eqn:Ef.
  - unfold transport_flush. cbn [with_keys with_delegate delegate]. rewrite E2. eexists. split; [reflexivity|].
    split_and!; [done | unfold Wrote; split_and!; [|done..] | done | done]. cbn. by rewrite S2, S1, app_nil_r.
  - eexists. split; [reflexivity|]. split_and!; [done | unfold Wrote; split_and!; [|done..] | done | done]. cbn. by rewrite S1, app_nil_r.
Qed.
Lemma chunk_fits size chunk (wb : WriteBuffer) : Started chunk wb -> length (wb_buffer wb) = size -> (TLS_RECORD_OVERHEAD + HEADER_LEN < size)%nat ->
  Z.of_nat size < 65536 -> (wb_pos wb <= max_block_size wb)%nat -> fits_record chunk.
Proof.
  intros Hs Hl Hr Hf Hm. pose proof tag_fits. unfold fits_record, max_block_size, TLS_RECORD_OVERHEAD, HEADER_LEN in *.
  rewrite (started_pos _ _ _ Hs) in Hm. unfold HEADER_LEN in Hm. lia.
Qed.
Lemma flush_ok size pending self : Sending size pending self -> counter (write_key self) + 1 <= umax 64 -> exists self' chunks,
  tls_flush self = Some (Ok tt, self') /\ Sending size [] self' /\ Closed (record_write_buf self') /\ Wrote chunks self self' /\
  mjoin chunks = pending /\ (length chunks <= 1)%nat.
Proof.
  intros Hs Hc. pose proof Hs as [Ho Hl Hr Hf [[Hcl ->]|[Hst Hp]]].
  - exists self, []. unfold tls_flush. erewrite op_then by reflexivity. unfold wb_is_empty. rewrite (proj2 Hcl).
    split_and!; [done | done | done | apply wrote_nil | done | cbn; lia].
  - destruct (flush_started pending self Hst) as (self' & E & Hcl & Hw & Ho' & Hl'); [eapply chunk_fits; try done; lia | lia | done |].
    exists self', [pending]. rewrite E. split_and!; [done | | done | done | apply app_nil_r | done].
    split; [congruence..| by left].
Qed.
Lemma write_ok size pending buf self : Sending size pending self -> counter (write_key self) + 2 <= umax 64 -> exists n self' chunks pending',
  tls_write buf self = Some (Ok n, self') /\ (n <= length buf)%nat /\ (buf <> [] -> 0 < n)%nat /\ Sending size pending' self' /\
  Wrote chunks self self' /\ pending ++ take n buf = mjoin chunks ++ pending' /\ (length chunks <= 2)%nat.
Proof.
  intros Hs Hc. unfold tls_write. erewrite op_then by reflexivity. rewrite (snd_opened _ _ _ Hs).
  assert (exists self1 chunk cs, (if wb_contains ClientRecordHeader.ApplicationData (record_write_buf self) then mret tt
     else tls_flush;; on_write_buf (start_record ClientRecordHeader.ApplicationData)) self = Some (Ok tt, self1) /\
    Started chunk (record_write_buf self1) /\ (wb_pos (record_write_buf self1) < max_block_size (record_write_buf self1))%nat /\
    length (wb_buffer (record_write_buf self1)) = size /\ opened self1 = true /\ Wrote cs self self1 /\ pending = mjoin cs ++ chunk /\ (length cs <= 1)%nat)
    as (self1 & chunk & cs & E1 & Hst & Hp & Hl & Ho & Hw & Epend & Hcs).
  { pose proof Hs as [Ho Hl Hr Hf Hb]. unfold wb_contains. case_bool_decide as Eh.
    - destruct Hb as [[[Hcl _] _]|[Hst Hp]]; [congruence|]. exists self, pending, []. split_and!; try done; [apply wrote_nil | cbn; lia].
    - destruct (flush_ok size pending self Hs ltac:(lia)) as (self' & cs & E & Hs' & Hcl & Hw & <- & Hn).
      destruct (start_record_ok ClientRecordHeader.ApplicationData (record_write_buf self') Hcl) as (wb & Ewb & Hst & Hlb); [rewrite (snd_size _ _ _ Hs'); lia|].
      exists (with_write_buf wb self'), [], cs. rewrite (op_then _ _ _ _ _ E). unfold on_write_buf. rewrite Ewb.
      split_and!; try done; cbn [with_write_buf record_write_buf].
      + rewrite (started_pos _ _ _ Hst). unfold max_block_size. rewrite Hlb, (snd_size _ _ _ Hs'). cbn [length]. lia.
      + by rewrite Hlb, (snd_size _ _ _ Hs').
      + by apply Hs'.
      + destruct Hw as (? & ? & ? & Hw). unfold Wrote. cbn [with_write_buf record_write_buf]. by rewrite Hlb, Hw.
      + by rewrite app_nil_r. }
  rewrite (op_then _ _ _ _ _ E1). destruct (wb_append_ok buf chunk _ Hst) as (wb & Ewb & Hst' & Hlb & Hpb); [lia|].
  set (n := Nat.min (length buf) (wb_space (record_write_buf self1))) in *. erewrite op_then by (rewrite Ewb; reflexivity).
  erewrite op_then by reflexivity. cbn [with_write_buf record_write_buf].
  assert (buf <> [] -> 0 < n)%nat as Hn by (intros; unfold n, wb_space; destruct buf; [done | cbn [length]; lia]).
  assert (n <= length buf)%nat as Hle by lia. destruct Hs as [_ _ Hr Hf _]. destruct Hw as (Hw1 & Hw2 & Hw3 & Hw4).
  destruct (wb_is_full wb) eqn:Efull.
  - destruct (flush_started (chunk ++ take n buf) (with_write_buf wb self1)) as (self2 & E2 & Hcl & Hw' & Ho2 & Hl2); [done | | done | |].
    { eapply (chunk_fits size); [done | congruence | done..]. }
    { unfold write_key. cbn [with_write_buf key_schedule]. fold (write_key self1). rewrite Hw2. cbn. lia. }
    cbn [with_write_buf opened record_write_buf] in Ho2, Hl2. rewrite (op_then _ _ _ _ _ E2). exists n, self2, (cs ++ [chunk ++ take n buf]), []. split_and!; [done..| | | |].
    + split; [congruence | congruence | done | done | by left].
    + eapply wrote_app; [|exact Hw']; unfold Wrote; split_and!; cbn [with_write_buf record_write_buf]; [done.. | congruence].
    + rewrite Epend, join_app, app_nil_r, <- !app_assoc. cbn. by rewrite app_nil_r.
    + rewrite length_app. cbn. lia.
  - erewrite op_then by reflexivity. exists n, (with_write_buf wb self1), cs, (chunk ++ take n buf). split_and!; [done..| | | |lia].
    + split; [done | cbn [with_write_buf record_write_buf]; congruence | done | done | right; split; [done|]]. cbn [with_write_buf record_write_buf].
      unfold wb_is_full in Efull. apply Nat.eqb_neq in Efull. lia.
    + unfold Wrote. split_and!; [done.. | cbn [with_write_buf record_write_buf]; congruence].
    + by rewrite Epend, <- app_assoc.
Qed.
Lemma write_all_ok size fuel : forall pending buf self, Sending size pending self -> (length buf <= fuel)%nat ->
  counter (write_key self) + 2 * Z.of_nat (length buf) <= umax 64 -> exists self' chunks pending',
  tls_write_all fuel buf self = Some (Ok tt, self') /\ Sending size pending' self' /\
  Wrote chunks self self' /\ pending ++ buf = mjoin chunks ++ pending' /\ (length chunks <= 2 * length buf)%nat.
Proof.
  induction fuel as [|fuel IH]; intros pending buf self Hs Hf Hc.
  - destruct buf; [|cbn in Hf; lia]. exists self, [], pending. split_and!; [done | done | apply wrote_nil | apply app_nil_r | cbn; lia].
  - cbn [tls_write_all]. destruct (Nat.eqb_spec (length buf) 0) as [E0|E0].
    { destruct buf; [|done]. exists self, [], pending. split_and!; [done | done | apply wrote_nil | apply app_nil_r | cbn; lia]. }
    destruct (write_ok size pending buf self Hs) as (n & self1 & cs1 & p1 & E & Hn & Hpos & Hs1 & Hw1 & Ed & Hl1); [lia|].
    rewrite (op_then _ _ _ _ _ E). specialize (Hpos ltac:(by intros ->)).
    destruct (IH p1 (drop n buf) self1 Hs1) as (self2 & cs2 & p2 & E2 & Hs2 & Hw2 & Ed2 & Hl2); rewrite ?length_drop; [lia | |].
    { rewrite (proj1 (proj2 Hw1)). cbn. lia. }
    exists self2, (cs1 ++ cs2), p2. split_and!; [done | done | by eapply wrote_app | |].
    + rewrite join_app, <- app_assoc, <- Ed2, app_assoc, <- Ed, <- app_assoc. by rewrite take_drop.
    + rewrite length_app. rewrite length_drop in Hl2. lia.
Qed.
Lemma send_ok size ds : forall pending self, Sending size pending self ->
  counter (write_key self) + 2 * Z.of_nat (length (mjoin ds)) + 1 <= umax 64 -> exists self' chunks,
  tls_send ds self = Some (Ok tt, self') /\ Sending size [] self' /\ Wrote chunks self self' /\
  pending ++ mjoin ds = mjoin chunks /\ (length chunks <= 2 * length (mjoin ds) + 1)%nat.
Proof.
  induction ds as [|d ds IH]; intros pending self Hs Hc; cbn [tls_send].
  - destruct (flush_ok size pending self Hs) as (self' & cs & E & Hs' & _ & Hw & Ep & Hl); [cbn in Hc; lia|].
    exists self', cs. split_and!; [done | done | done | by rewrite Ep, app_nil_r | lia].
  - change (mjoin (d :: ds)) with (d ++ mjoin ds) in *. rewrite length_app in *.
    destruct (write_all_ok size (length d) pending d self Hs) as (self1 & cs1 & p1 & E1 & Hs1 & Hw1 & Ed1 & Hl1); [done | lia |].
    rewrite (op_then _ _ _ _ _ E1). destruct (IH p1 self1 Hs1) as (self2 & cs2 & E2 & Hs2 & Hw2 & Ed2 & Hl2).
    { rewrite (proj1 (proj2 Hw1)). cbn. lia. }
    exists self2, (cs1 ++ cs2). split_and!; [done | done | by eapply wrote_app | | rewrite length_app; lia].
    by rewrite join_app, <- Ed2, (app_assoc (mjoin cs1)), <- Ed1, <- app_assoc.
Qed.
End Writing.

(** ** Reading *)
Section Reading.
Context {C : Type} `{ReadsLaws C}.
#[local] Abbreviation Conn := (TlsConnection (C := C)).

Definition read_key (self : Conn) : KeyScheduleState := r_state (server_state (key_schedule self)).
(** An open connection that has decrypted [cur], with [chunks] still to come. *)
Record Receiving (more cur : bytes) (chunks : list bytes) (self : Conn) : Prop := {
  rcv_opened : opened self = true;
  rcv_counter : counter (read_key self) + Z.of_nat (length chunks) <= umax 64;
  rcv_pending : rr_pending (record_reader self) = 0%nat;
  rcv_decoded : (rr_decoded (record_reader self) <= length (rr_buf (record_reader self)))%nat;
  rcv_consumed : (info_consumed (decrypted self) <= info_len (decrypted self))%nat;
  rcv_view : range (info_offset (decrypted self) + info_consumed (decrypted self)) (info_len (decrypted self) - info_consumed (decrypted self))
               (rr_buf (record_reader self)) = Some cur;
  rcv_rest : rest (delegate self) = sealed_stream (read_key self) chunks ++ more;
  rcv_fits : Forall (fun c => fits_record c /\ (length c + 1 + tag_len <= length (rr_buf (record_reader self)))%nat) chunks
}.
Lemma range_length at_ n buf d : range at_ n buf = Some d -> length d = n.
Proof.
  unfold range. destruct (Nat.leb_spec (at_ + n) (length buf)) as [Hl|]; [|done]. intros E. apply (inj Some) in E as <-.
  rewrite length_take, length_drop. lia.
Qed.
Lemma range_split at_ n m buf d : range at_ n buf = Some d -> (m <= n)%nat -> range (at_ + m) (n - m) buf = Some (drop m d).
Proof.
  unfold range. destruct (Nat.leb_spec (at_ + n) (length buf)) as [Hl|]; [|done]. intros E Hm. apply (inj Some) in E as <-.
  rewrite (proj2 (Nat.leb_le _ _)) by lia. f_equal. rewrite <- drop_drop, take_drop_commute. by replace (m + (n - m))%nat with n by lia.
Qed.

Lemma read_application_data_ok more cur c chunks self : Receiving more cur (c :: chunks) self -> exists self',
  read_application_data self = Some (Ok tt, self') /\ Receiving more c chunks self'.
Proof.
  intros [Ho Hc Hp Hd _ _ Hr Hf]. apply Forall_cons in Hf as [[Hfit Hbuf] Hf]. cbn [length] in Hc. cbn [sealed_stream] in Hr. rewrite <- app_assoc in Hr.
  destruct (record_read_ok (record_reader self) ContentType.ApplicationData _ _ _ (delegate self) (server_state (key_schedule self))
    (is_record ContentType.ApplicationData (read_key self) c Hfit) Hp Hd ltac:(by rewrite length_sealed) Hr) as (mem & c1 & Hr1 & Hm & Hn & Hg & E).
  unfold read_application_data. rewrite E. unfold ServerRecord_decode. destruct (is_record ContentType.ApplicationData (read_key self) c Hfit) as [_ -> ->].
  cbn [mbind option_bind]. rewrite Nat.eqb_refl. cbn [negb mbind option_bind]. clear E.
  set (start := next_start _ _) in *. set (keys := with_transcript _ _). unfold sealed_payload. cbn [ContentType_as_u8].
  destruct (handle_application_data {| rx_keys := keys; rx_buf := mem; rx_state := {| buffer_info := decrypted self; is_open := opened self |} |}
    (record_header_of (length c + 1 + tag_len)) start c 0) as (mem' & E & Hm' & Hg').
  { cbn [rx_buf]. rewrite length_seal, length_app. rewrite length_sealed in Hn. cbn [length replicate]. lia. }
  { unfold keys, with_transcript. cbn [rx_keys r_state]. fold (read_key self). lia. }
  cbn [replicate rx_keys rx_buf rx_state is_open] in E, Hm', Hg'. change (r_state keys) with (read_key self) in E. cbn [rr_buf decrypted opened key_schedule].
  rewrite E. rewrite length_seal, length_app in *. rewrite length_sealed in *. cbn [mbind option_bind]. eexists. split; [reflexivity|].
  split; cbn -[umax length Nat.sub record_header_of]; [done | fold (read_key self); lia | done | cbn [length]; lia | lia | | |].
  - by rewrite Nat.add_0_r, Nat.sub_0_r.
  - fold (read_key self). change {| traffic_secret := _; counter := _; ks_key := _; ks_iv := _ |} with (nth_key 1 (read_key self)). done.
  - by rewrite Hm', Hm.
Qed.
Lemma fill_ok more fuel : forall cur chunks self, Receiving more cur chunks self -> (length chunks <= fuel)%nat -> cur ++ mjoin chunks <> [] ->
  exists self' cur' chunks', fill_decrypted fuel self = Some (Ok tt, self') /\ Receiving more cur' chunks' self' /\ cur' <> [] /\
    cur ++ mjoin chunks = cur' ++ mjoin chunks' /\ (length chunks' <= length chunks)%nat.
Proof.
  induction fuel as [|fuel IH]; intros cur chunks self Hr Hf Hne; pose proof (range_length _ _ _ _ (rcv_view _ _ _ _ Hr)) as Hl;
    cbn [fill_decrypted]; unfold info_is_empty; destruct (Nat.eqb_spec (info_len (decrypted self) - info_consumed (decrypted self)) 0) as [E0|E0].
  - destruct chunks; [|cbn in Hf; lia]. destruct cur; cbn in *; [done|lia].
  - exists self, cur, chunks. split_and!; [done | done | | done | done]. by intros ->.
  - destruct cur; [|cbn in Hl; lia]. destruct chunks as [|c chunks]; [done|].
    destruct (read_application_data_ok more [] c chunks self Hr) as (self1 & E & Hr1). rewrite (op_then _ _ _ _ _ E).
    cbn [length] in Hf. destruct (IH c chunks self1 Hr1) as (self2 & c2 & cs2 & E2 & Hr2 & Hne2 & Ed & Hl2); [lia | done |].
    exists self2, c2, cs2. split_and!; [done | done | done | exact Ed | cbn; lia].
  - exists self, cur, chunks. split_and!; [done | done | | done | done]. by intros ->.
Qed.
(** A read gives some of what is still to come. *)
Lemma read_ok more fuel n cur chunks self : Receiving more cur chunks self -> (length chunks <= fuel)%nat -> cur ++ mjoin chunks <> [] -> (0 < n)%nat ->
  exists a self' cur' chunks', tls_read fuel n self = Some (Ok a, self') /\ Receiving more cur' chunks' self' /\ a <> [] /\ (length a <= n)%nat /\
    cur ++ mjoin chunks = a ++ cur' ++ mjoin chunks' /\ (length chunks' <= length chunks)%nat.
Proof.
  intros Hr Hf Hne Hn. unfold tls_read, read_buffered. rewrite (proj2 (Nat.eqb_neq _ _)) by lia. erewrite op_then by reflexivity.
  rewrite (rcv_opened _ _ _ _ Hr). destruct (fill_ok more fuel cur chunks self Hr Hf Hne) as (self1 & c1 & cs1 & E & Hr1 & Hne1 & Ed & Hl).
  rewrite (op_then _ _ _ _ _ E). destruct Hr1 as [Ho Hc Hp Hd Hcons Hv Hrest Hfit]. pose proof (range_length _ _ _ _ Hv) as Hlen.
  unfold use_read_buffer, create_read_buffer. rewrite (proj2 (Nat.ltb_ge _ _) Hcons), Hv. cbn [mbind option_bind].
  unfold rd_pop_into, rd_pop, rd_len, ReadBuffer_new. cbn [rd_data rd_consumed]. rewrite Nat.sub_0_r, drop_0. set (m := Nat.min (length c1) n).
  exists (take m c1). eexists. exists (drop m c1), cs1. split; [reflexivity|]. split_and!.
  - split; cbn [with_decrypted decrypted rd_drop info_offset info_len info_consumed rd_used rd_consumed opened record_reader delegate]; try done; [lia|].
    rewrite Nat.add_0_l, Nat.add_assoc, Nat.sub_add_distr. apply range_split; [done | lia].
  - assert (0 < length c1)%nat by (destruct c1; [done | cbn; lia]). intros E0. apply (f_equal length) in E0. rewrite length_take in E0. cbn in E0. lia.
  - rewrite length_take. lia.
  - rewrite app_assoc. by rewrite take_drop.
  - done.
Qed.
Lemma read_exact_ok more fuel rounds : forall n cur chunks self, Receiving more cur chunks self -> (length chunks <= fuel)%nat -> (n <= rounds)%nat ->
  (n <= length (cur ++ mjoin chunks))%nat -> exists a self' cur' chunks', tls_read_exact rounds fuel n self = Some (Ok a, self') /\
    Receiving more cur' chunks' self' /\ length a = n /\ cur ++ mjoin chunks = a ++ cur' ++ mjoin chunks' /\ (length chunks' <= length chunks)%nat.
Proof.
  induction rounds as [|rounds IH]; intros n cur chunks self Hr Hf Hn Hl; cbn [tls_read_exact]; destruct (Nat.eqb_spec n 0) as [E0|E0].
  1, 3: exists [], self, cur, chunks; by split_and!.
  - lia.
  - destruct (read_ok more fuel n cur chunks self Hr Hf) as (a & self1 & c1 & cs1 & E & Hr1 & Ha & Hla & Ed & Hl1); [intros E1; rewrite E1 in Hl; cbn in Hl; lia | lia |].
    rewrite (op_then _ _ _ _ _ E). assert (0 < length a)%nat by (destruct a; [done | cbn; lia]). rewrite Ed, length_app in Hl.
    destruct (IH (n - length a)%nat c1 cs1 self1 Hr1) as (b & self2 & c2 & cs2 & E2 & Hr2 & Hlb & Ed2 & Hl2); [lia.. |].
    rewrite (op_then _ _ _ _ _ E2). exists (a ++ b), self2, c2, cs2. split_and!; [done | done | rewrite length_app; lia | | lia].
    by rewrite Ed, Ed2, <- app_assoc.
Qed.
Lemma receive_ok more fuel ns : forall cur chunks self, Receiving more cur chunks self -> (length chunks <= fuel)%nat ->
  (sum_list ns <= length (cur ++ mjoin chunks))%nat -> exists ps self' cur' chunks', tls_receive fuel ns self = Some (Ok ps, self') /\
    Receiving more cur' chunks' self' /\ length <$> ps = ns /\ cur ++ mjoin chunks = mjoin ps ++ cur' ++ mjoin chunks'.
Proof.
  induction ns as [|n ns IH]; intros cur chunks self Hr Hf Hl; cbn [tls_receive].
  - exists [], self, cur, chunks. by split_and!.
  - cbn [sum_list sum_list_with] in Hl. fold (sum_list ns) in Hl.
    destruct (read_exact_ok more fuel n n cur chunks self Hr Hf) as (a & self1 & c1 & cs1 & E & Hr1 & Ha & Ed & Hl1); [done | change (id n) with n in Hl; lia |].
    rewrite (op_then _ _ _ _ _ E). rewrite Ed, length_app in Hl.
    destruct (IH c1 cs1 self1 Hr1) as (ps & self2 & c2 & cs2 & E2 & Hr2 & Hp & Ed2); [lia | change (id n) with n in Hl; lia |].
    rewrite (op_then _ _ _ _ _ E2). exists (a :: ps), self2, c2, cs2. split_and!; [done | done | by rewrite fmap_cons, Ha, Hp |].
    change (mjoin (a :: ps)) with (a ++ mjoin ps). by rewrite Ed, Ed2, <- app_assoc.
Qed.
End Reading.

(** ** Both sides *)

(** An open connection without data that was read and not given out, with the
    keys [k] and room for the records of a writer with a buffer of [size] bytes. *)
Record Idle {C : Type} (size : nat) (k : KeyScheduleState) (self : TlsConnection (C := C)) : Prop := {
  idle_opened : opened self = true;
  idle_key : read_key self = k;
  idle_pending : rr_pending (record_reader self) = 0%nat;
  idle_decoded : (rr_decoded (record_reader self) <= length (rr_buf (record_reader self)))%nat;
  idle_empty : info_len (decrypted self) = info_consumed (decrypted self);
  idle_view : (info_offset (decrypted self) + info_len (decrypted self) <= length (rr_buf (record_reader self)))%nat;
  idle_size : (size <= length (rr_buf (record_reader self)))%nat
}.
Section BothSides.
Context {C : Type} `{SinkLaws C} (reliable : Reliable C) {D : Type} `{ReadsLaws D}.

Lemma idle_receives size k (r : TlsConnection (C := D)) chunks more : Idle size k r -> counter k + Z.of_nat (length chunks) <= umax 64 ->
  Forall (fun c => fits_record c /\ (length c + 1 + tag_len <= size)%nat) chunks ->
  rest (delegate r) = sealed_stream k chunks ++ more -> Receiving more [] chunks r.
Proof.
  intros [Ho <- Hp Hd He Hv Hs] Hc Hf Hr. split; try done; [lia | |].
  - rewrite He, Nat.sub_diag, range_some by lia. by rewrite take_0.
  - eapply Forall_impl; [exact Hf|]. intros c [? ?]. split; [done | lia].
Qed.

(** C9: what is written to an open connection is what the other side reads.
    For any messages written one after the other and flushed over a transport
    that takes everything, sending succeeds; and any open connection with the
    same keys and a buffer no smaller than the writer's reads, from the bytes
    that were sent and whatever follows them, exactly these messages' bytes, in
    pieces of any sizes that add up to them, however the transport cuts the
    bytes and the writer's buffer cuts the records. *)
Theorem stream_roundtrip size (w : TlsConnection (C := C)) (ds : list bytes) : Sending size [] w ->
  counter (write_key w) + 2 * Z.of_nat (length (mjoin ds)) + 1 <= umax 64 -> exists w' wire,
  tls_send ds w = Some (Ok tt, w') /\ sent (delegate w') = sent (delegate w) ++ wire /\
  forall (r : TlsConnection (C := D)) more fuel ns, Idle size (write_key w) r -> rest (delegate r) = wire ++ more ->
    (length wire <= fuel)%nat -> sum_list ns = length (mjoin ds) ->
    exists ps r', tls_receive fuel ns r = Some (Ok ps, r') /\ length <$> ps = ns /\ mjoin ps = mjoin ds.
Proof.
  intros Hs Hc. destruct (send_ok reliable size ds [] w Hs Hc) as (w' & chunks & E & _ & (Hsent & _ & Hall & _) & Ed & Hl). cbn [app] in Ed.
  exists w', (sealed_stream (write_key w) chunks). split_and!; [done..|]. intros r more fuel ns Hi Hr Hfuel Hn.
  rewrite (snd_size _ _ _ Hs) in Hall.
  assert (Receiving more [] chunks r) as Hrec by (apply (idle_receives size (write_key w)); [done | lia | done | done]).
  pose proof (length_sealed_stream chunks (write_key w)).
  destruct (receive_ok more fuel ns [] chunks r Hrec) as (ps & r' & cur & chunks' & E' & _ & Hp & Ed'); [lia | cbn [app]; by rewrite <- Ed, Hn |].
  exists ps, r'. split_and!; [done..|]. cbn [app] in Ed'. rewrite Ed, Ed'.
  assert (length (mjoin ps) = length (mjoin ds)) as Hlen by (rewrite <- Hn, <- Hp; clear; induction ps as [|p ps IH]; [done|];
    change (mjoin (p :: ps)) with (p ++ mjoin ps); rewrite length_app, IH; done).
  rewrite Ed, Ed', length_app in Hlen. assert (cur ++ mjoin chunks' = []) as -> by (apply nil_length_inv; lia). by rewrite app_nil_r.
Qed.

(** C27: over a transport that takes all it is given no nonce is used twice:
    whatever is written to an open connection goes out as records sealed under the connection's key, none larger than the
    buffer allows, that together hold exactly the bytes written, and the nonces
    they are sealed with are all different. The transport matters: after a
    failed write the next record is sealed with the nonce of the one that
    failed ([failed_write_keeps_nonce]). *)
Theorem record_nonces_distinct size (w : TlsConnection (C := C)) (ds : list bytes) : Sending size [] w ->
  length (ks_iv (write_key w)) = iv_len -> 0 <= counter (write_key w) ->
  counter (write_key w) + 2 * Z.of_nat (length (mjoin ds)) + 1 <= umax 64 -> exists w' chunks,
  tls_send ds w = Some (Ok tt, w') /\ mjoin chunks = mjoin ds /\
  sent (delegate w') = sent (delegate w) ++ mjoin (imap (fun i => sealed_record ContentType.ApplicationData (nth_key i (write_key w))) chunks) /\
  Forall (fun c => (length c + 1 + tag_len <= size)%nat) chunks /\
  NoDup ((fun i => get_nonce (nth_key i (write_key w))) <$> seq 0 (length chunks)).
Proof.
  intros Hs Hiv Hc0 Hc. destruct (send_ok reliable size ds [] w Hs Hc) as (w' & chunks & E & _ & (Hsent & _ & Hall & _) & Ed & Hl). cbn [app] in Ed.
  exists w', chunks. split_and!; [done | done | | |].
  - rewrite Hsent. f_equal. rewrite <- (nth_key_0 (write_key w)) at 1. apply sealed_stream_imap.
  - rewrite (snd_size _ _ _ Hs) in Hall. eapply Forall_impl; [exact Hall|]. by intros c [_ ?].
  - apply NoDup_fmap_2_strong; [|apply NoDup_seq]. intros x y Hx Hy Ex. apply elem_of_seq in Hx, Hy.
    apply xor_counter_inj in Ex; cbn in Ex |- *; unfold uint, umax in *; lia || done.
Qed.
End BothSides.

(** Reading the data of the next record off the transport of an idle connection. *)
Lemma idle_reads {C : Type} `{ReadsLaws C} size k (r : TlsConnection (C := C)) n d more fuel m : Idle size k r -> length d = n ->
  Z.of_nat n < 65536 -> (n <= size)%nat -> rest (delegate r) = (record_header_of n ++ d) ++ more -> (0 < m)%nat -> exists mem start th,
  length mem = length (rr_buf (record_reader r)) /\ (start + n <= length mem)%nat /\
  (decrypt_record handle (ApplicationDataRecord {| ad_header := record_header_of n; ad_start := start; ad_data := cb_wrap_with_pos d (length d) |})
     {| rx_keys := {| r_state := k; transcript_hash := th |}; rx_buf := mem; rx_state := {| buffer_info := decrypted r; is_open := true |} |} = None ->
   tls_read (S fuel) m r = None).
Proof.
  intros [Ho <- Hp Hd He Hv Hs] <- Hf Hn Hr Hm. pose proof (is_sealed d _ eq_refl Hf) as Hrec.
  destruct (record_read_ok (record_reader r) ContentType.ApplicationData _ d more (delegate r) (server_state (key_schedule r)) Hrec Hp Hd ltac:(lia) Hr)
    as (mem & c & _ & Hmem & Hstart & _ & E). set (start := next_start _ _) in *.
  exists mem, start, (transcript_hash (server_state (key_schedule r))). split_and!; [done..|]. intros Hnone.
  unfold tls_read. rewrite (proj2 (Nat.eqb_neq _ _)) by lia. unfold read_buffered. erewrite op_then by reflexivity. rewrite Ho. unfold mbind, Op_bind.
  cbn [fill_decrypted]. unfold info_is_empty. rewrite He, Nat.sub_diag. cbn [Nat.eqb]. unfold mbind, Op_bind. unfold read_application_data. rewrite E.
  unfold ServerRecord_decode. destruct Hrec as [_ -> ->]. cbn [mbind option_bind]. rewrite Nat.eqb_refl. cbn [negb mbind option_bind decrypted opened rr_buf].
  rewrite Ho. unfold with_transcript. fold (read_key r). change (r_state (server_state (key_schedule r))) with (read_key r). by rewrite Hnone.
Qed.
(** C30: the peer of an open connection can stop the program: two records that
    decrypt under the connection's keys make the next read panic, whatever it
    asks for and however many rounds it may take: one without even a content
    type, and one with any handshake message that is read correctly but for a
    session ticket. *)
Theorem peer_stops_reader {C : Type} `{ReadsLaws C} (size : nat) (k : KeyScheduleState) (r : TlsConnection (C := C)) (message more : bytes)
    (m : ServerHandshake) (fuel n : nat) : Idle size k r -> (0 < n)%nat -> (tag_len <= size)%nat ->
  Parses ServerHandshake_parse message m -> m <> NewSessionTicketMsg -> message <> [] -> fits_record message -> (length message + 1 + tag_len <= size)%nat ->
  (rest (delegate r) = (record_header_of tag_len ++ aead_seal (ks_key k) (get_nonce k) (record_header_of tag_len) []) ++ more ->
     tls_read (S fuel) n r = None) /\
  (rest (delegate r) = sealed_record ContentType.Handshake k message ++ more -> tls_read (S fuel) n r = None).
Proof.
  intros Hi Hn Htag Hm Hno Hne Hfit Hsize. pose proof tag_fits as Ht. split; intros Hr.
  - assert (length (aead_seal (ks_key k) (get_nonce k) (record_header_of tag_len) []) = tag_len) as Hl by exact (length_seal _ _ _ []).
    destruct (idle_reads size k r tag_len _ more fuel n Hi Hl ltac:(lia) Htag Hr Hn) as (mem & start & th & Hmem & Hstart & Hgo). apply Hgo.
    unfold decrypt_record. cbn [ad_data ad_header ad_start rx_keys rx_buf r_state]. unfold cb_as_slice, cb_wrap_with_pos. cbn [cb_buf cb_offset cb_len].
    rewrite range_some by lia. cbn [mbind option_bind]. rewrite drop_0, firstn_all, open_seal. rewrite overwrite_some by (cbn; lia). rewrite written_nil.
    cbn [mbind option_bind]. rewrite overwrite_some by lia. cbn [mbind option_bind length]. rewrite truncate_le by (cbn; lia).
    unfold strip_padding, cb_as_slice. cbn [cb_buf cb_offset cb_len]. rewrite range_some by lia. rewrite take_0. cbn [mbind option_bind last_nonzero].
    cbn [cb_buf cb_offset cb_len]. rewrite range_some by lia. by rewrite take_0.
  - pose proof (length_sealed ContentType.Handshake k message) as Hl.
    destruct (idle_reads size k r _ _ more fuel n Hi Hl Hfit Hsize Hr Hn) as (mem & start & th & Hmem & Hstart & Hgo). apply Hgo.
    destruct (decrypt_ok handle ContentType.Handshake (record_header_of (length message + 1 + tag_len)) start message 0
      {| rx_keys := {| r_state := k; transcript_hash := th |}; rx_buf := mem; rx_state := {| buffer_info := decrypted r; is_open := true |} |})
      as (mem' & inner & E & _ & _ & Ha & _); [done | cbn [rx_buf rx_keys r_state replicate]; rewrite length_seal, length_app; cbn [length]; lia |].
    cbn [rx_keys r_state replicate] in E. etransitivity; [exact E|]. unfold content, op_unwrap. rewrite Ha. cbn [rx_keys rx_buf rx_state].
    unfold mbind at 1 2, Op_bind at 1 2. cbn [mbind option_bind].
    pose proof (messages_run handle [(message, m)] (length message) [] {| rx_keys := {| r_state := k; transcript_hash := th |}; rx_buf := mem';
      rx_state := {| buffer_info := decrypted r; is_open := true |} |}) as Em. cbn [fmap list_fmap fst length app] in Em.
    unfold mjoin, list_join in Em. rewrite app_nil_r in Em. unfold ParseBuffer_new. rewrite Em; [|by apply Forall_singleton | destruct message; [done | cbn; lia]].
    cbn [run_messages]. unfold mbind, Op_bind. by destruct m.
Qed.

(** the nonce counter only advances after a record has gone out: when the
    transport fails to take a record, the failure is reported, the data of the
    record is dropped, and whatever record is closed next is sealed with the
    same key and the same nonce as the lost one, of which the transport may
    have taken a part. *)
Theorem failed_write_keeps_nonce {C : Type} `{Sink C} (w : TlsConnection (C := C)) (chunk : bytes) (e : ErrorKind) (c : C) :
  Started chunk (record_write_buf w) -> fits_record chunk -> (wb_pos (record_write_buf w) <= max_block_size (record_write_buf w))%nat ->
  sink_write_all (sealed_record ContentType.ApplicationData (write_key w) chunk) (delegate w) = (Err e, c) -> exists w',
  tls_flush w = Some (Err (Io e), w') /\ Closed (record_write_buf w') /\ delegate w' = c /\
  forall chunk2 wb, Started chunk2 wb -> fits_record chunk2 -> (wb_pos wb <= max_block_size wb)%nat -> exists wb',
    close_record (client_state (key_schedule w')) wb = Some (Ok (sealed_record ContentType.ApplicationData (write_key w) chunk2), wb').
Proof.
  intros Hs Hf Hm Ew. unfold tls_flush. erewrite op_then by reflexivity. unfold wb_is_empty. rewrite (started_pos _ _ _ Hs).
  change (HEADER_LEN + length chunk =? 0)%nat with false. cbv iota.
  destruct (close_record_ok ClientRecordHeader.ApplicationData (client_state (key_schedule w)) chunk _ eq_refl Hs Hf (block_room _ Hm ltac:(rewrite (started_pos _ _ _ Hs); unfold HEADER_LEN; lia))) as (wb & Hcl & Hl & E). cbn [trailer_content_type] in E.
  erewrite op_then by (unfold on_write_buf; rewrite E; reflexivity).
  erewrite op_stop by (unfold transport_write; cbn [with_write_buf delegate]; fold (write_key w); rewrite Ew; reflexivity).
  eexists. split; [reflexivity|]. split_and!; [done | done |]. intros chunk2 wb2 Hs2 Hf2 Hm2.
  destruct (close_record_ok ClientRecordHeader.ApplicationData (client_state (key_schedule w)) chunk2 wb2 eq_refl Hs2 Hf2 (block_room _ Hm2 ltac:(rewrite (started_pos _ _ _ Hs2); unfold HEADER_LEN; lia))) as (wb' & _ & _ & E2). cbn [trailer_content_type] in E2. by exists wb'.
Qed.
End Stream.

(** ** A conversation *)
Module Sample.
Import TlsKeys.Sample.

(** A transport that gives at most three bytes at a time. *)
Record Wire := { wire_sent : bytes; wire_rest : bytes }.
#[export] Instance wire_sink : Sink Wire := {
  sink_write_all d c := (Ok tt, {| wire_sent := wire_sent c ++ d; wire_rest := wire_rest c |});
  sink_flush c := (Ok tt, c) }.
#[export] Instance wire_laws : SinkLaws Wire.
Proof. refine {| sent := wire_sent |}; intros; cbn in *; by simplify_eq. Defined.
Lemma wire_reliable : Reliable Wire.
Proof. split; intros; by eexists. Qed.
#[export] Instance wire_reads : Reads Wire := fun n c =>
  let k := Nat.min n 3 in (Ok (take k (wire_rest c)), {| wire_sent := wire_sent c; wire_rest := drop k (wire_rest c) |}).
#[export] Instance wire_reads_laws : ReadsLaws Wire.
Proof.
  refine {| rest := wire_rest |}; intros n [out inc] Hn.
  - intros Hr. cbn in *. eexists _, _. split; [reflexivity|]. cbn. rewrite take_drop, length_take. split_and!; [|lia|done].
    destruct inc, n; try done; lia.
  - eexists _, _. split; [reflexivity|]. cbn. cbn in Hn. destruct Hn as [-> | ->]; cbn; [done|]. by rewrite take_nil, drop_nil.
Defined.

(** Application keys of a suite, a writer with room for 27 bytes in a record,
    and a reader. *)
Definition keys : KeyScheduleState := rfc_traffic (K := Z) [7; 7; 7].
Definition schedule (k : KeyScheduleState) : KeySchedule := with_r_state k (with_w_state k KeySchedule_new).
Definition connection (n : nat) (wire : Wire) (k : KeyScheduleState) : TlsConnection (C := Wire) :=
  {| delegate := wire; opened := true; key_schedule := schedule k; record_reader := RecordReader_new (replicate n 0);
     record_write_buf := WriteBuffer_new (replicate n 0); decrypted := DecryptedBufferInfo_default; flush_policy := Strict |}.
Definition writer : TlsConnection (C := Wire) := connection 160 {| wire_sent := []; wire_rest := [] |} keys.
Definition messages : list bytes := [lit "GET /image HTTP/1.1"; []; lit "Host: updates.example.org"].
Lemma writer_sends : Sending 160 [] writer.
Proof. split; [done | done | vm_compute; lia | done | by left]. Qed.
Definition reader (wire : bytes) : TlsConnection (C := Wire) := connection 200 {| wire_sent := []; wire_rest := wire |} keys.
Lemma reader_idle wire : Idle 160 keys (reader wire).
Proof. split; try done; vm_compute; lia. Qed.

Lemma stream_roundtrip_witness : exists w' wire, tls_send messages writer = Some (Ok tt, w') /\ sent (delegate w') = wire /\
  exists ps r', tls_receive (length wire) [1; 40; 3]%nat (reader wire) = Some (Ok ps, r') /\ mjoin ps = mjoin messages.
Proof.
  destruct (stream_roundtrip (D := Wire) wire_reliable 160 writer messages writer_sends) as (w' & wire & E & Es & Hr); [vm_compute; done|].
  exists w', wire. split; [exact E|]. split; [exact Es|].
  destruct (Hr (reader wire) [] (length wire) [1; 40; 3]%nat) as (ps & r' & E' & _ & Ep);
    [apply reader_idle | symmetry; apply app_nil_r | done | vm_compute; done |].
  exists ps, r'. by split.
Defined.
Lemma record_nonces_distinct_witness : exists w' chunks, tls_send messages writer = Some (Ok tt, w') /\ mjoin chunks = mjoin messages /\
  NoDup ((fun i => get_nonce (nth_key i keys)) <$> seq 0 (length chunks)).
Proof.
  destruct (record_nonces_distinct wire_reliable 160 writer messages writer_sends) as (w' & chunks & E & Ec & _ & _ & Hn);
    [vm_compute; done | done | vm_compute; done |].
  exists w', chunks. split; [exact E|]. by split.
Defined.
Definition finished : ClientHandshake (K := Z) := ClientFinished {| fin_verify := replicate 32 0; fin_hash := None |}.
Lemma finished_fits : message_fits finished.
Proof. split; [by unfold fits; vm_compute | done]. Qed.
Lemma peer_stops_reader_witness :
  tls_read 1 10 (reader (record_header_of 16 ++ aead_seal (ks_key keys) (get_nonce keys) (record_header_of 16) [])) = None /\
  tls_read 1 10 (reader (sealed_record ContentType.Handshake keys (message_bytes finished))) = None.
Proof.
  assert (forall wire, Idle 160 keys (reader wire)) as Hi by apply reader_idle. split.
  - refine (proj1 (peer_stops_reader 160 keys (reader _) (message_bytes finished) [] (received finished) 0 10 (Hi _) _ _ (parses_message _ finished_fits) _ _ _ _) _);
      [lia | vm_compute; lia | done | done | vm_compute; done | vm_compute; lia |]. symmetry. apply app_nil_r.
  - refine (proj2 (peer_stops_reader 160 keys (reader _) (message_bytes finished) [] (received finished) 0 10 (Hi _) _ _ (parses_message _ finished_fits) _ _ _ _) _);
      [lia | vm_compute; lia | done | done | vm_compute; done | vm_compute; lia |]. symmetry. apply app_nil_r.
Defined.
(** Two records. *)
Example sent_length : exists w', tls_send messages writer = Some (Ok tt, w') /\ length (wire_sent (delegate w')) = 88%nat.
Proof. eexists. split; [vm_compute; reflexivity | vm_compute; reflexivity]. Qed.

(** A transport that fails. *)
Record Broken := {}.
#[export] Instance broken_sink : Sink Broken := { sink_write_all d c := (Err OtherKind, c); sink_flush c := (Ok tt, c) }.
Definition lost : TlsConnection (C := Broken) :=
  {| delegate := Build_Broken; opened := true; key_schedule := schedule keys; record_reader := RecordReader_new (replicate 160 0);
     record_write_buf := {| wb_buffer := [23; 3; 3; 0; 0; 1; 2] ++ replicate 153 0; wb_pos := 7; current_header := Some ClientRecordHeader.ApplicationData |};
     decrypted := DecryptedBufferInfo_default; flush_policy := Strict |}.
Lemma failed_write_keeps_nonce_witness : exists w', tls_flush lost = Some (Err (Io OtherKind), w') /\
  Closed (record_write_buf w').
Proof.
  destruct (failed_write_keeps_nonce lost [1; 2] OtherKind Build_Broken) as (w' & E & Hc & _).
  - split; [done | done |]. by exists (replicate 153 0).
  - vm_compute. done.
  - vm_compute. lia.
  - done.
  - exists w'. by split.
Defined.
End Sample.
