(* ===== verification/TlsHandshake.v ===== *)
(** * The handshake of the TLS library

    The handshake of [TlsConn] with a server that follows RFC 8446, with and
    without a certificate. *)
From S2P Require Import Prelude Str HttpBody HttpWriter HttpRequest HttpClient TlsBuffer TlsKeys TlsMessages TlsRecord TlsConn TlsStream.

(** ** What a server sends *)

Definition server_extension (e : ServerHelloExtension.ServerHelloExtension) : bytes :=
  match e with
  | ServerHelloExtension.KeyShare entry => be_bytes 2 (ExtensionType_as_u16 ExtensionType.KeyShare) ++ vec 2 (entry_bytes entry)
  | ServerHelloExtension.PreSharedKey i => be_bytes 2 (ExtensionType_as_u16 ExtensionType.PreSharedKey) ++ vec 2 (be_bytes 2 i)
  | ServerHelloExtension.Cookie data => be_bytes 2 (ExtensionType_as_u16 ExtensionType.Cookie) ++ vec 2 data
  | ServerHelloExtension.SupportedVersions v => be_bytes 2 (ExtensionType_as_u16 ExtensionType.SupportedVersions) ++ vec 2 (be_bytes 2 v)
  end.
Definition server_extension_fits (e : ServerHelloExtension.ServerHelloExtension) : Prop :=
  match e with
  | ServerHelloExtension.KeyShare entry => fits 2 (ks_opaque entry) /\ fits 2 (entry_bytes entry)
  | ServerHelloExtension.PreSharedKey i | ServerHelloExtension.SupportedVersions i => u16 i
  | ServerHelloExtension.Cookie data => fits 2 data
  end.
Lemma parses_server_extension e : server_extension_fits e -> Parses (extension_parse ServerHelloExtension_group) (server_extension e) e.
Proof.
  intros Hf. destruct e as [entry|i|data|v]; cbn [server_extension server_extension_fits] in *; eapply parses_extension; try reflexivity.
  - exists {| pb_pos := length (entry_bytes entry); pb_buffer := entry_bytes entry |}.
    unfold ParseBuffer_new. pose proof (parses_entry entry (proj1 Hf) [] []) as Hp. rewrite app_nil_r in Hp. cbn [app length] in Hp.
    unfold mbind, Op_bind. by rewrite Hp.
  - apply Hf.
  - eexists. unfold mbind, Op_bind, PreSharedKeyServerHello_parse, read_u16. pose proof (parses_uint 2 i Hf [] []) as Hp.
    rewrite app_nil_r in Hp. cbn [app length] in Hp. unfold ParseBuffer_new. by rewrite Hp.
  - by eexists.
  - done.
  - eexists. unfold mbind, Op_bind, ProtocolVersion_parse, read_u16. pose proof (parses_uint 2 v Hf [] []) as Hp.
    rewrite app_nil_r in Hp. cbn [app length] in Hp. unfold ParseBuffer_new. by rewrite Hp.
Qed.
Lemma server_extension_nonempty e : server_extension e <> [].
Proof. intros E. apply (f_equal length) in E. destruct e; cbn [server_extension] in E; rewrite length_app, length_be_bytes in E; cbn in E; lia. Qed.

(** A [ServerHello], and the unprotected record it comes in. *)
Definition server_hello_content (random session : bytes) (suite : Z) (l : list ServerHelloExtension.ServerHelloExtension) : bytes :=
  be_bytes 2 LEGACY_VERSION ++ random ++ vec 1 session ++ be_bytes 2 suite ++ be_bytes 1 0 ++ vec 2 (mjoin (server_extension <$> l)).
Definition server_hello_message (random session : bytes) (suite : Z) (l : list ServerHelloExtension.ServerHelloExtension) : bytes :=
  be_bytes 1 (HandshakeType_as_u8 HandshakeType.ServerHello) ++ vec 3 (server_hello_content random session suite l).
Record ServerHelloFits (random session : bytes) (suite : Z) (l : list ServerHelloExtension.ServerHelloExtension) : Prop := {
  shf_random : length random = 32%nat;
  shf_session : fits 1 session;
  shf_suite : u16 suite /\ is_Some (CipherSuite_of suite);
  shf_extensions : Forall server_extension_fits l /\ (length l <= 4)%nat;
  shf_vector : fits 2 (mjoin (server_extension <$> l));
  shf_message : Z.of_nat (length (server_hello_message random session suite l)) < 65536
}.
Definition plain_record (message : bytes) : bytes := [22; 3; 3] ++ be_bytes 2 (Z.of_nat (length message)) ++ message.
(** Encrypted extensions without content. *)
Definition encrypted_extensions : bytes := [8; 0; 0; 2; 0; 0].

Section Parsing.
Context {K : Type} `{TlsCrypto K}.

Lemma parses_server_hello random session suite l : ServerHelloFits random session suite l ->
  Parses ServerHandshake_parse (server_hello_message random session suite l) (ServerHelloMsg {| sh_extensions := l |}).
Proof.
  intros [Hr Hs [Hu [cs Hcs]] [Hl Hn] Hv Hm]. unfold ServerHandshake_parse, server_hello_message.
  apply (parses_bind _ _ _ _ HandshakeType.ServerHello); [apply parses_map_err, parses_code; done|].
  unfold vec at 1. eapply parses_bind.
  { apply parses_length. unfold fits. unfold server_hello_message, vec at 1 in Hm.
    set (c := server_hello_content _ _ _ _) in *. rewrite !length_app in Hm. change (256 ^ Z.of_nat 3) with 16777216. lia. }
  eapply parses_then; [|apply parses_ret]. unfold ServerHello_parse, server_hello_content.
  eapply parses_bind; [apply parses_map_err, (parses_uint 2); done|].
  eapply parses_bind; [by apply parses_map_err, parses_fill|].
  apply parses_sized; [done|]. eapply parses_bind; [by apply parses_map_err, parses_code|].
  eapply parses_bind; [apply parses_map_err, (parses_uint 1); done|].
  eapply parses_then; [|apply parses_ret]. apply parses_extensions; [|done..].
  eapply Forall_impl; [exact Hl|]. intros e He. split; [by apply parses_server_extension | apply server_extension_nonempty].
Qed.
Lemma parses_encrypted_extensions : Parses ServerHandshake_parse encrypted_extensions EncryptedExtensionsMsg.
Proof.
  unfold ServerHandshake_parse. change encrypted_extensions with (be_bytes 1 8 ++ be_bytes 3 2 ++ vec 2 (mjoin ([] : list bytes))).
  apply (parses_bind _ _ _ _ HandshakeType.EncryptedExtensions); [apply parses_map_err, parses_code; done|].
  eapply parses_bind; [apply parses_map_err, (parses_uint 3); done|].
  eapply parses_then; [|apply parses_ret]. eapply parses_then; [|apply parses_ret].
  apply (parses_extensions EncryptedExtensionsExtension_group (fun _ => []) 16 []); [apply Forall_nil_2 | cbn; lia | done].
Qed.
Lemma plain_is_record message : Z.of_nat (length message) < 65536 ->
  IsRecord ContentType.Handshake ([22; 3; 3] ++ be_bytes 2 (Z.of_nat (length message))) message.
Proof.
  intros Hf. pose proof (length_be_bytes 2 (Z.of_nat (length message))) as El. pose proof (of_be_be 2 (Z.of_nat (length message)) ltac:(cbn; lia)) as E.
  split; [rewrite length_app, El; done | done |]. unfold content_length.
  destruct (be_bytes 2 (Z.of_nat (length message))) as [|hi [|lo [|]]]; try discriminate El. cbn [app lookup list_lookup mbind option_bind].
  f_equal. rewrite E. lia.
Qed.
End Parsing.

(** ** The steps of the client *)
Section Steps.
Context {K : Type} `{TlsCryptoLaws K} {C : Type} `{SinkLaws C} `{ReadsLaws C} (reliable : Reliable C).
(** Reading sends nothing. *)
Context (quiet : forall n (c : C), sent (read_from n c).2 = sent c).
Context {P : Type} `{CryptoProvider K P}.
#[local] Abbreviation link := (Link (K := K) (C := C) (P := P)).

Definition hello_bytes (h : ClientHello (K := K)) : bytes :=
  be_bytes 1 1 ++ vec 3 (hello_head h ++ vec 2 (mjoin (client_extension <$> hello_extensions h))).
(** A hello the library can write into a buffer of [size] bytes. *)
Record HelloFits (size : nat) (h : ClientHello (K := K)) : Prop := {
  hf_psk : psk (ch_config h) = None;
  hf_alpn : alpn_protocols (ch_config h) = None;
  hf_extensions : Forall extension_fits (hello_extensions h);
  hf_vector : fits 2 (mjoin (client_extension <$> hello_extensions h));
  hf_message : Z.of_nat (length (hello_bytes h)) < 65536;
  hf_buffer : (HEADER_LEN + length (hello_bytes h) <= size)%nat
}.
Lemma encodes_hello size h : HelloFits size h -> Encodes (ClientHandshake_encode (ClientHelloMsg h)) (hello_bytes h).
Proof.
  intros [Hp Ha He Hv Hm _]. unfold ClientHandshake_encode, hello_bytes. apply encodes_then; [apply encodes_error, encodes_push|].
  apply encodes_vec; [by apply encodes_client_hello|]. unfold hello_bytes, vec at 1 in Hm. unfold fits. set (c := hello_head h ++ _) in *.
  rewrite !length_app in Hm. change (256 ^ Z.of_nat 3) with 16777216. lia.
Qed.

(** Sending over a reliable transport: the bytes are out, the counter goes up. *)
Lemma respond_ok tx (l : link) : counter (w_state (client_state (lk_keys l))) + 1 <= umax 64 -> exists c1 c2 ks,
  sink_write_all tx (lk_transport l) = (Ok tt, c1) /\ sink_flush c1 = (Ok tt, c2) /\ sent c2 = sent (lk_transport l) ++ tx /\
  increment_write (lk_keys l) = Some ks /\ respond tx l = Some (Ok tt, with_lk_keys ks (with_lk_transport c2 l)).
Proof.
  intros Hc. destruct (proj1 reliable tx (lk_transport l)) as (c1 & E1). destruct (proj2 reliable c1) as (c2 & E2).
  unfold respond. rewrite E1. unfold increment_write, increment_counter. cbn [with_lk_transport lk_keys lk_transport].
  rewrite (proj2 (Z.leb_le _ _) Hc). cbn [mbind option_bind]. rewrite E2. eexists c1, c2, _. split_and!; [done | done | | done | done].
  by rewrite (flush_sent _ _ E2), (write_all_sent _ _ _ E1).
Qed.
Definition start_link (c : C) (reader : RecordReader) (tx : WriteBuffer) (p : P) : link :=
  {| lk_transport := c; lk_handshake := Handshake_new; lk_reader := reader; lk_tx := tx; lk_keys := KeySchedule_new; lk_provider := p |}.
Definition hello_of (config : TlsConfig) (p : P) : ClientHello (K := K) * P :=
  let (random, p) := fill_random p in let (secret, p) := random_secret p in
  ({| ch_config := config; ch_random := random; ch_secret := secret |}, p).
(** After the hello: the early secret, the hello in the transcript. *)
Definition hello_keys (hello : bytes) : KeySchedule :=
  {| shared := shared (early_schedule None);
     client_state := {| w_state := {| traffic_secret := Uninitialized; counter := 1; ks_key := replicate key_len 0; ks_iv := replicate iv_len 0 |};
                        binder_key := binder_key (client_state (early_schedule None)) |};
     server_state := {| r_state := KeyScheduleState_new; transcript_hash := hello |} |}.
Lemma client_hello_step config c reader tx p h p' size : hello_of config p = (h, p') -> HelloFits size h -> Closed tx -> length (wb_buffer tx) = size ->
  let record := [22; 3; 1] ++ be_bytes 2 (Z.of_nat (length (hello_bytes h))) ++ hello_bytes h in exists c1 c2 tx',
  process State.ClientHello config (start_link c reader tx p) = Some (Ok State.ServerHello,
    {| lk_transport := c2; lk_handshake := with_hs_secret (Some (ch_secret h)) Handshake_new; lk_reader := reader; lk_tx := tx';
       lk_keys := hello_keys (hello_bytes h); lk_provider := p' |}) /\
  Closed tx' /\ length (wb_buffer tx') = size /\ sink_write_all record c = (Ok tt, c1) /\ sink_flush c1 = (Ok tt, c2) /\ sent c2 = sent c ++ record.
Proof.
  intros Eh Hf Hc Hl record. unfold hello_of in Eh. destruct (fill_random p) as [random p1] eqn:E1. destruct (random_secret p1) as [secret p2] eqn:E2.
  injection Eh as Eh <-. pose proof (hf_psk _ _ Hf) as Hpsk. rewrite <- Eh in Hpsk. cbn [ch_config] in Hpsk.
  set (k1 := replace_transcript_hash (hello_bytes h) (early_schedule None)).
  destruct (write_hello_ok h (hello_bytes h) (client_state (early_schedule None)) tx (transcript_hash (server_state (early_schedule None)))) as (tx' & Hc' & Hl' & Ew);
    [by subst h | by eapply encodes_hello | done | pose proof (hf_buffer _ _ Hf); lia | apply Hf |].
  assert (client_hello config (start_link c reader tx p) = Some (Ok (State.ServerHello, record),
    {| lk_transport := c; lk_handshake := with_hs_secret (Some (ch_secret h)) Handshake_new; lk_reader := reader; lk_tx := tx'; lk_keys := k1; lk_provider := p2 |})) as E.
  { unfold client_hello. rewrite Hpsk. cbn [fmap option_fmap option_map]. erewrite op_then by (unfold on_keys; cbn [start_link lk_keys]; rewrite early_ok; reflexivity).
    erewrite op_then by (unfold take_provider; cbn [with_lk_keys start_link lk_provider]; rewrite E1; reflexivity).
    erewrite op_then by (unfold take_provider; cbn [with_lk_keys with_lk_provider start_link lk_provider]; rewrite E2; reflexivity).
    rewrite Eh. erewrite op_then by (unfold tx_record, transcript; cbn [with_lk_keys with_lk_provider start_link lk_keys lk_tx]; rewrite Ew; reflexivity).
    replace (ch_secret h) with secret by (by rewrite <- Eh). reflexivity. }
  cbn [process]. rewrite (op_then _ _ _ _ _ E).
  destruct (respond_ok record {| lk_transport := c; lk_handshake := with_hs_secret (Some (ch_secret h)) Handshake_new; lk_reader := reader; lk_tx := tx'; lk_keys := k1; lk_provider := p2 |})
    as (c1 & c2 & ks & Ew1 & Ew2 & Es & Ek & Er); [done|].
  rewrite (op_then _ _ _ _ _ Er). exists c1, c2, tx'. split_and!; [|done | congruence | done..]. by apply (inj Some) in Ek as <-.
Qed.

(** The hello of the server: the shared secret, and the keys of the handshake. *)
Definition handshake_keys (shared : bytes) (binder : Secret) (th : bytes) : KeySchedule :=
  {| shared := {| sh_secret := derive (rfc_handshake None shared) (lit "derived") []; sh_hkdf := Initialized (rfc_handshake None shared) |};
     client_state := {| w_state := rfc_traffic (derive (rfc_handshake None shared) (lit "c hs traffic") th); binder_key := binder |};
     server_state := {| r_state := rfc_traffic (derive (rfc_handshake None shared) (lit "s hs traffic") th); transcript_hash := th |} |}.
Definition ReaderReady (size : nat) (r : RecordReader) : Prop :=
  rr_pending r = 0%nat /\ (rr_decoded r <= length (rr_buf r))%nat /\ length (rr_buf r) = size.
Lemma server_hello_step config hello random session suite l secret shared (lk : link) size more :
  let message := server_hello_message random session suite l in
  ServerHelloFits random session suite l -> (length message <= size)%nat -> ReaderReady size (lk_reader lk) ->
  rest (lk_transport lk) = plain_record message ++ more -> lk_keys lk = hello_keys hello -> hs_secret (lk_handshake lk) = Some secret ->
  calculate_shared_secret secret {| sh_extensions := l |} = Some shared -> exists c reader,
  process State.ServerHello config lk = Some (Ok State.ServerVerify,
    {| lk_transport := c; lk_handshake := with_hs_secret None (lk_handshake lk); lk_reader := reader; lk_tx := lk_tx lk;
       lk_keys := handshake_keys shared (binder_key (client_state (early_schedule None))) (hello ++ message); lk_provider := lk_provider lk |}) /\
  ReaderReady size reader /\ rest c = more /\ sent c = sent (lk_transport lk).
Proof.
  intros message Hf Hsize (Hp & Hd & Hb) Hr Hk Hs Hsh. cbn [process].
  unfold plain_record in Hr. rewrite (app_assoc _ (be_bytes 2 _)) in Hr.
  destruct (record_read_ok (lk_reader lk) ContentType.Handshake _ message more (lk_transport lk) (server_state (lk_keys lk))
    (plain_is_record message (shf_message _ _ _ _ Hf)) Hp Hd ltac:(by rewrite Hb) Hr) as (mem & c & Hc & Hm & Hn & _ & E).
  unfold ServerRecord_decode in E. destruct (plain_is_record message (shf_message _ _ _ _ Hf)) as [_ Ht Hl]. rewrite Hl, Ht in E. cbn [mbind option_bind] in E.
  rewrite Nat.eqb_refl in E. cbn [negb] in E. pose proof (reads_message message _ [] [] (transcript_hash (server_state (lk_keys lk))) (parses_server_hello _ _ _ _ Hf)) as Em.
  rewrite app_nil_r in Em. cbn [app length] in Em. unfold ParseBuffer_new in E. rewrite Em in E. cbn [mbind option_bind] in E.
  cbn [with_finished_hash result_bind] in E. pose proof (record_read_keeps sent quiet _ _ _ _ _ _ _ E) as Hsent.
  erewrite op_then by (unfold read_record; rewrite E; reflexivity). cbn [process_server_hello].
  set (lk1 := {| lk_transport := c; lk_handshake := _; lk_reader := _; lk_tx := _; lk_keys := _; lk_provider := _ |}).
  assert (lk_keys lk1 = {| shared := TlsKeys.shared (early_schedule None); client_state := client_state (hello_keys hello);
    server_state := {| r_state := KeyScheduleState_new; transcript_hash := hello ++ message |} |}) as Ek1 by (unfold lk1; cbn; by rewrite Hk).
  assert (on_keys (initialize_handshake_secret shared) (with_lk_handshake (with_hs_secret None (lk_handshake lk)) lk1) =
    Some (Ok tt, with_lk_keys (handshake_keys shared (binder_key (client_state (early_schedule None))) (hello ++ message))
      (with_lk_handshake (with_hs_secret None (lk_handshake lk)) lk1))) as Eo.
  { unfold on_keys. change (lk_keys (with_lk_handshake ?x lk1)) with (lk_keys lk1). rewrite Ek1.
    rewrite (handshake_ok None shared) by done. done. }
  erewrite op_then; cycle 1.
  { unfold op_try. erewrite op_then by reflexivity. erewrite op_then by reflexivity. unfold op_ok_or, op_lift. change (lk_handshake lk1) with (lk_handshake lk). rewrite Hs.
    cbn [ok_or]. erewrite op_then by reflexivity. rewrite Hsh. cbn [ok_or]. erewrite op_then by reflexivity.
    rewrite (op_then _ _ _ _ _ Eo). reflexivity. }
  cbn [handle_processing_error]. eexists c, _. split; [reflexivity|]. split; [|done]. split_and!; [done | exact Hn | cbn; by rewrite Hm].
Qed.

(** *** The flight of the server *)

(** What a server proves who it is with: nothing, or a certificate and a
    signature. *)
Definition Credentials : Type := option (CertificateRef * CertificateVerify).
Definition credential_messages (cred : Credentials) : list (bytes * ServerHandshake) :=
  match cred with
  | None => []
  | Some (c, v) => [(message_bytes (ClientCert (K := K) c), received (ClientCert (K := K) c));
                    (message_bytes (ClientCertVerify (K := K) v), received (ClientCertVerify (K := K) v))]
  end.
Definition credentials_fit (cred : Credentials) : Prop :=
  match cred with
  | None => True
  | Some (c, v) => message_fits (ClientCert (K := K) c) /\ message_fits (ClientCertVerify (K := K) v)
  end.
(** The verifier of [p] accepts them, after the transcript [th], and becomes [p']. *)
Definition accepts (cred : Credentials) (th : bytes) (p p' : P) : Prop :=
  match cred with
  | None => p' = p
  | Some (c, v) => has_verifier p = true /\ exists p1,
      match received (ClientCert (K := K) c) with
      | CertificateMsg cert => verify_certificate (th ++ message_bytes (ClientCert (K := K) c)) cert p = Some (Ok tt, p1)
      | _ => False
      end /\ has_verifier p1 = true /\ verify_signature v p1 = Some (Ok tt, p')
  end.
(** The messages before [Finished], and with it. *)
Definition unfinished_flight (cred : Credentials) : bytes := encrypted_extensions ++ mjoin (fst <$> credential_messages cred).
Definition server_finished (secret th : bytes) : ClientHandshake (K := K) := ClientFinished {| fin_verify := rfc_finished secret th; fin_hash := None |}.
Definition flight (cred : Credentials) (secret th : bytes) : bytes :=
  unfinished_flight cred ++ message_bytes (server_finished secret (th ++ unfinished_flight cred)).
Lemma server_finished_fits secret th : message_fits (server_finished secret th).
Proof.
  pose proof hash_fits as Hh. assert (length (rfc_finished secret th) = hash_len) as El by apply length_hmac.
  split; [|done]. unfold fits. cbn [content_bytes server_finished fin_verify]. rewrite El. change (256 ^ Z.of_nat 3) with 16777216. lia.
Qed.
Lemma run_messages_app {S} (cb : ServerRecord -> Op (Rx S) TlsError unit) a b rx rx' : run_messages cb a rx = Some (Ok tt, rx') ->
  run_messages cb (a ++ b) rx = run_messages cb b rx'.
Proof.
  revert rx. induction a as [|[d m] a IH]; intros rx E; cbn [run_messages app] in *; [by injection E as <-|].
  unfold mbind, Op_bind in *. destruct (cb _ _) as [[[[]|e] rx1]|]; [by apply IH | discriminate E..].
Qed.
Definition verify_rx (keys : ReadKeySchedule) (buf : bytes) (hs : Handshake (K := K)) (p : P) (s : State.State) : Rx (Verify (K := K) (P := P)) :=
  {| rx_keys := keys; rx_buf := buf; rx_state := {| vf_handshake := hs; vf_provider := p; vf_state := s |} |}.
Lemma credentials_run cred th k buf hs p p' s : accepts cred th p p' ->
  run_messages server_verify_record (credential_messages cred) (verify_rx {| r_state := k; transcript_hash := th |} buf hs p s) =
  Some (Ok tt, verify_rx {| r_state := k; transcript_hash := th ++ mjoin (fst <$> credential_messages cred) |} buf hs p' s).
Proof.
  destruct cred as [[c v]|]; cbn [accepts credential_messages]; [|intros ->; cbn; by rewrite app_nil_r].
  intros (Hv & p1 & Hcert & Hv1 & Hsig). cbn [received] in *. cbn [run_messages].
  erewrite op_then; cycle 1.
  { cbn [with_finished_hash server_verify_record]. erewrite op_then by reflexivity. unfold verifier_step, verify_rx. cbn [rx_state vf_provider rx_keys with_transcript transcript_hash].
    rewrite Hv, Hcert. reflexivity. }
  cbn [run_messages]. erewrite op_then; cycle 1.
  { cbn [with_finished_hash server_verify_record]. unfold verifier_step. cbn [rx_state vf_provider rx_keys with_transcript transcript_hash].
    rewrite Hv1, Hsig. reflexivity. }
  cbn -[message_bytes]. unfold verify_rx. cbn -[message_bytes]. rewrite app_nil_r, <- !app_assoc. done.
Qed.
Lemma flight_run cred secret th k buf hs p p' : certificate_request hs = None -> traffic_secret k = Initialized secret ->
  accepts cred (th ++ encrypted_extensions) p p' ->
  run_messages server_verify_record ([(encrypted_extensions, EncryptedExtensionsMsg)] ++ credential_messages cred ++
    [(message_bytes (server_finished secret (th ++ unfinished_flight cred)), received (server_finished secret (th ++ unfinished_flight cred)))])
    (verify_rx {| r_state := k; transcript_hash := th |} buf hs p State.ServerVerify) =
  Some (Ok tt, verify_rx {| r_state := k; transcript_hash := th ++ flight cred secret th |} buf (with_traffic_hash (Some (th ++ flight cred secret th)) hs) p' State.ClientFinished).
Proof.
  intros Hr Hk Ha. erewrite run_messages_app by reflexivity. cbn [verify_rx rx_keys rx_buf rx_state with_transcript transcript_hash r_state].
  fold (verify_rx {| r_state := k; transcript_hash := th ++ encrypted_extensions |} buf hs p State.ServerVerify).
  erewrite run_messages_app by by apply credentials_run. cbn [run_messages]. unfold verify_rx at 1. cbn [rx_keys transcript_hash].
  rewrite <- app_assoc. fold (unfinished_flight cred). erewrite op_then; [reflexivity|]. cbn [received server_finished with_finished_hash server_verify_record].
  unfold verify_finished, verify_server_finished. cbn [rx_keys verify_rx r_state with_transcript fin_hash fin_verify]. rewrite Hk, finished_key. cbn [mbind result_bind ok_or].
  rewrite bool_decide_true by done. unfold on_verify, op_modify. cbn [rx_state vf_handshake vf_provider verify_rx rx_keys rx_buf transcript_hash]. rewrite Hr.
  unfold verify_rx, flight, server_finished. by rewrite <- !app_assoc.
Qed.

(** Every message of the flight is read as itself. *)
Lemma flight_parses cred secret th : credentials_fit cred ->
  let ms := [(encrypted_extensions, EncryptedExtensionsMsg)] ++ credential_messages cred ++
    [(message_bytes (server_finished secret (th ++ unfinished_flight cred)), received (server_finished secret (th ++ unfinished_flight cred)))] in
  Forall (fun '(d, m) => d <> [] /\ Parses ServerHandshake_parse d m) ms /\ mjoin (fst <$> ms) = flight cred secret th /\
  (length ms <= length (mjoin (fst <$> ms)))%nat.
Proof.
  intros Hf ms. assert (Forall (fun '(d, m) => d <> [] /\ Parses ServerHandshake_parse d m) ms) as Hms.
  { unfold ms. rewrite !Forall_app. split_and!.
    - apply Forall_singleton. split; [done | apply parses_encrypted_extensions].
    - destruct cred as [[c v]|]; cbn [credential_messages]; [|apply Forall_nil_2]. destruct Hf as [Hc Hv].
      apply Forall_cons; split; [|apply Forall_singleton]; (split; [by intros E; apply (f_equal length) in E | by apply parses_message]).
    - apply Forall_singleton. split; [by intros E; apply (f_equal length) in E | apply parses_message, server_finished_fits]. }
  split; [exact Hms|]. split.
  - unfold ms, flight, unfinished_flight. rewrite !fmap_app, !join_app. cbn -[message_bytes encrypted_extensions]. by rewrite !app_nil_r, <- !app_assoc.
  - apply length_le_join. rewrite Forall_forall in Hms. intros [d m] Hin. by apply (Hms (d, m)).
Qed.
Lemma server_verify_step config cred shared binder th p' (lk : link) size more :
  let secret := derive (rfc_handshake None shared) (lit "s hs traffic") th in
  credentials_fit cred -> fits_record (flight cred secret th) -> (length (flight cred secret th) + 1 + tag_len <= size)%nat ->
  ReaderReady size (lk_reader lk) -> certificate_request (lk_handshake lk) = None ->
  rest (lk_transport lk) = sealed_record ContentType.Handshake (rfc_traffic secret) (flight cred secret th) ++ more ->
  lk_keys lk = handshake_keys shared binder th -> accepts cred (th ++ encrypted_extensions) (lk_provider lk) p' -> exists c reader server,
  process State.ServerVerify config lk = Some (Ok State.ClientFinished,
    {| lk_transport := c; lk_handshake := with_traffic_hash (Some (th ++ flight cred secret th)) (lk_handshake lk); lk_reader := reader; lk_tx := lk_tx lk;
       lk_keys := with_read_state {| r_state := server; transcript_hash := th ++ flight cred secret th |} (handshake_keys shared binder th); lk_provider := p' |}) /\
  ReaderReady size reader /\ rest c = more /\ sent c = sent (lk_transport lk).
Proof.
  intros secret Hcf Hfit Hsize (Hp & Hd & Hb) Hreq Hr Hk Ha. cbn [process]. set (fl := flight cred secret th) in *. set (k := rfc_traffic secret) in *.
  destruct (record_read_ok (lk_reader lk) ContentType.ApplicationData _ _ more (lk_transport lk) (server_state (lk_keys lk))
    (is_record ContentType.Handshake k fl Hfit) Hp Hd ltac:(by rewrite length_sealed, Hb) Hr) as (mem & c & Hc & Hm & Hn & _ & E).
  unfold ServerRecord_decode in E. destruct (is_record ContentType.Handshake k fl Hfit) as [_ Ht Hl]. rewrite Hl, Ht in E. cbn [mbind option_bind] in E.
  rewrite Nat.eqb_refl in E. cbn [negb mbind option_bind] in E. pose proof (record_read_keeps sent quiet _ _ _ _ _ _ _ E) as Hsent. erewrite op_then by (unfold read_record; rewrite E; reflexivity). clear E.
  set (start := next_start _ _) in *. rewrite Hk. cbn [handshake_keys server_state transcript_hash].
  set (lk1 := {| lk_transport := c; lk_handshake := _; lk_reader := _; lk_tx := _; lk_keys := _; lk_provider := _ |}).
  destruct (decrypt_ok server_verify_record ContentType.Handshake (record_header_of (length fl + 1 + tag_len)) start fl 0
    (verify_rx {| r_state := k; transcript_hash := th |} mem (lk_handshake lk) (lk_provider lk) State.ServerVerify)) as (mem' & inner & Ed & Hm' & _ & Happ & _ & _); [done | |].
  { cbn [verify_rx rx_buf rx_keys r_state replicate]. change (aead_seal _ _ _ _) with (sealed_payload ContentType.Handshake k fl). exact Hn. }
  cbn [verify_rx rx_buf rx_keys r_state replicate] in Ed, Hm'.
  destruct (flight_parses cred secret th Hcf) as (Hms & Hj & Hlen). set (ms := _ ++ _ ++ _) in *.
  assert (content server_verify_record ContentType.Handshake (record_header_of (length fl + 1 + tag_len)) start inner
    (verify_rx {| r_state := k; transcript_hash := th |} mem' (lk_handshake lk) (lk_provider lk) State.ServerVerify) =
    Some (Ok tt, verify_rx {| r_state := k; transcript_hash := th ++ fl |} mem' (with_traffic_hash (Some (th ++ fl)) (lk_handshake lk)) p' State.ClientFinished)) as Ec.
  { unfold content, op_unwrap. rewrite Happ. erewrite op_then by reflexivity. unfold fl at 1 2. rewrite <- Hj.
    pose proof (messages_run server_verify_record ms (length (mjoin (fst <$> ms))) []
      (verify_rx {| r_state := k; transcript_hash := th |} mem' (lk_handshake lk) (lk_provider lk) State.ServerVerify) Hms Hlen) as Er.
    cbn [length app] in Er. unfold ParseBuffer_new. rewrite Er. by apply flight_run. }
  assert (increment_counter k = Some {| traffic_secret := traffic_secret k; counter := 1; ks_key := ks_key k; ks_iv := ks_iv k |}) as Ei by done.
  set (record := ApplicationDataRecord {| ad_header := record_header_of (length fl + 1 + tag_len); ad_start := start;
    ad_data := cb_wrap_with_pos (sealed_payload ContentType.Handshake k fl) (length (sealed_payload ContentType.Handshake k fl)) |}).
  assert (decrypt_record server_verify_record record {| rx_keys := server_state (lk_keys lk1); rx_buf := rr_buf (lk_reader lk1);
      rx_state := {| vf_handshake := lk_handshake lk1; vf_provider := lk_provider lk1; vf_state := State.ServerVerify |} |} =
    Some (Ok tt, verify_rx {| r_state := {| traffic_secret := traffic_secret k; counter := 1; ks_key := ks_key k; ks_iv := ks_iv k |};
      transcript_hash := th ++ fl |} mem' (with_traffic_hash (Some (th ++ fl)) (lk_handshake lk)) p' State.ClientFinished)) as E.
  { etransitivity; [exact Ed|]. rewrite (op_then _ _ _ _ _ Ec). unfold rx_increment, verify_rx. cbn [rx_keys r_state]. by rewrite Ei. }
  erewrite op_then; cycle 1.
  { unfold op_try, process_server_verify. rewrite E. cbn [mbind option_bind]. reflexivity. }
  cbn [handle_processing_error op_lift mbind result_bind]. eexists c, _, _. split; [reflexivity|]. split; [|done].
  split_and!; [done | cbn [lk_reader rr_decoded rr_buf verify_rx rx_buf]; rewrite Hm'; exact Hn | cbn; by rewrite Hm', Hm].
Qed.

(** The client's [Finished], and the keys of the connection. *)
Lemma client_finished_step config shared binder th done_ server (lk : link) size :
  let secret := derive (rfc_handshake None shared) (lit "c hs traffic") th in
  lk_keys lk = with_read_state {| r_state := server; transcript_hash := done_ |} (handshake_keys shared binder th) ->
  traffic_hash (lk_handshake lk) = Some done_ -> Closed (lk_tx lk) -> length (wb_buffer (lk_tx lk)) = size -> (HEADER_LEN + (4 + hash_len) + 1 + tag_len <= size)%nat ->
  exists c tx ks, process State.ClientFinished config lk = Some (Ok State.ApplicationData,
    {| lk_transport := c; lk_handshake := with_traffic_hash None (lk_handshake lk); lk_reader := lk_reader lk; lk_tx := tx;
       lk_keys := ks; lk_provider := lk_provider lk |}) /\
  Closed tx /\ length (wb_buffer tx) = size /\
  sent c = sent (lk_transport lk) ++ sealed_record ContentType.Handshake (rfc_traffic secret) (message_bytes (server_finished secret done_)) /\
  w_state (client_state ks) = rfc_traffic (derive (rfc_master None shared) (lit "c ap traffic") done_) /\
  r_state (server_state ks) = rfc_traffic (derive (rfc_master None shared) (lit "s ap traffic") done_).
Proof.
  intros secret Hk Ht Hc Hl Hsize. pose proof tag_fits as Htag. pose proof hash_fits as Hh.
  assert (length (message_bytes (server_finished secret done_)) = (4 + hash_len)%nat) as Hlen.
  { unfold message_bytes, vec. rewrite !length_app, !length_be_bytes. cbn [content_bytes server_finished fin_verify]. unfold rfc_finished. by rewrite length_hmac. }
  destruct (write_handshake_ok (server_finished secret done_) (message_bytes (server_finished secret done_)) (client_state (lk_keys lk)) (lk_tx lk) done_)
    as (tx & Hc' & Hl' & Ew); [| done | lia | unfold fits_record; lia |].
  { unfold ClientHandshake_encode, message_bytes. apply encodes_then; [rewrite be_bytes_1 by done; apply encodes_error, encodes_push|].
    apply encodes_vec; [apply encodes_content, server_finished_fits | apply server_finished_fits]. }
  assert (w_state (client_state (lk_keys lk)) = rfc_traffic secret) as Hw by (by rewrite Hk).
  set (lk1 := {| lk_transport := lk_transport lk; lk_handshake := lk_handshake lk; lk_reader := lk_reader lk; lk_tx := tx;
    lk_keys := replace_transcript_hash (done_ ++ message_bytes (server_finished secret done_)) (lk_keys lk); lk_provider := lk_provider lk |}).
  assert (client_finished lk = Some (Ok (sealed_record ContentType.Handshake (rfc_traffic secret) (message_bytes (server_finished secret done_))), lk1)) as E.
  { unfold client_finished. erewrite op_then by reflexivity. erewrite op_then; cycle 1.
    { unfold op_map_err, op_lift, create_client_finished. rewrite Hw. cbn [rfc_traffic traffic_secret]. rewrite finished_key. rewrite Hk. reflexivity. }
    unfold tx_record, transcript. rewrite Hk at 2. cbn [with_read_state server_state transcript_hash]. 
    unfold server_finished in Ew at 1. unfold rfc_finished in Ew at 1. rewrite Ew, Hw. reflexivity. }
  cbn [process]. rewrite (op_then _ _ _ _ _ E).
  destruct (respond_ok (sealed_record ContentType.Handshake (rfc_traffic secret) (message_bytes (server_finished secret done_))) lk1) as (c1 & c2 & ks & _ & _ & Es & Ek & Er).
  { cbn [lk1 lk_keys]. change (w_state (client_state (replace_transcript_hash ?a ?b))) with (w_state (client_state b)). by rewrite Hw. }
  assert (TlsKeys.shared ks = {| sh_secret := derive (rfc_handshake None shared) (lit "derived") []; sh_hkdf := Initialized (rfc_handshake None shared) |}) as Hsh.
  { unfold increment_write in Ek. destruct (increment_counter _); [|done]. apply (inj Some) in Ek as <-. cbn. by rewrite Hk. }
  rewrite (op_then _ _ _ _ _ Er). unfold client_finished_finalize. erewrite op_then by reflexivity. erewrite op_then by reflexivity.
  cbn [with_lk_keys with_lk_transport lk1 lk_handshake]. rewrite Ht. erewrite op_then by reflexivity. erewrite op_then by reflexivity.
  erewrite op_then; cycle 1.
  { unfold on_keys. change (lk_keys (with_lk_keys ?k ?l)) with k. change (lk_keys (with_lk_handshake ?x (with_lk_keys ks ?y))) with ks.
    rewrite (master_ok None shared (replace_transcript_hash done_ ks)) by (cbn [replace_transcript_hash TlsKeys.shared]; by rewrite Hsh). reflexivity. }
  eexists c2, tx, _. split; [reflexivity|]. split_and!; [done | congruence | exact Es | done | done].
Qed.

(** ** Opening a connection *)

(** What a server chooses, and what it answers to a hello with the secret both
    sides share: its hello, and the flight under the keys of the handshake. *)
Record Peer := { pr_random : bytes; pr_session : bytes; pr_suite : Z; pr_extensions : list ServerHelloExtension.ServerHelloExtension; pr_credentials : Credentials }.
Definition peer_hello (r : Peer) : bytes := server_hello_message (pr_random r) (pr_session r) (pr_suite r) (pr_extensions r).
Definition peer_secret (shared : bytes) (r : Peer) (hello : bytes) : bytes :=
  derive (rfc_handshake None shared) (lit "s hs traffic") (hello ++ peer_hello r).
Definition peer_flight (shared : bytes) (r : Peer) (hello : bytes) : bytes :=
  flight (pr_credentials r) (peer_secret shared r hello) (hello ++ peer_hello r).
Definition peer_answer (shared : bytes) (r : Peer) (hello : bytes) : bytes :=
  plain_record (peer_hello r) ++ sealed_record ContentType.Handshake (rfc_traffic (peer_secret shared r hello)) (peer_flight shared r hello).
(** The transcript of the whole handshake up to the server's [Finished]. *)
Definition peer_transcript (shared : bytes) (r : Peer) (hello : bytes) : bytes := (hello ++ peer_hello r) ++ peer_flight shared r hello.
Record PeerFits (size : nat) (shared : bytes) (r : Peer) (hello : bytes) : Prop := {
  pf_hello : ServerHelloFits (pr_random r) (pr_session r) (pr_suite r) (pr_extensions r);
  pf_credentials : credentials_fit (pr_credentials r);
  pf_flight : fits_record (peer_flight shared r hello);
  pf_size : (length (peer_hello r) <= size)%nat /\ (length (peer_flight shared r hello) + 1 + tag_len <= size)%nat
}.
(** The name of the server is given to the verifier first. *)
Definition prepared (config : TlsConfig) (p p0 : P) : Prop :=
  match server_name config with
  | Some name => if has_verifier p then set_hostname_verification name p = Some (Ok tt, p0) else p0 = p
  | None => p0 = p
  end.
Definition hello_record (h : ClientHello (K := K)) : bytes := [22; 3; 1] ++ be_bytes 2 (Z.of_nat (length (hello_bytes h))) ++ hello_bytes h.
(** What the other end of [c] makes of the hello. *)
Definition Answers (c : C) (h : ClientHello (K := K)) (answer : bytes) : Prop :=
  forall c1 c2, sink_write_all (hello_record h) c = (Ok tt, c1) -> sink_flush c1 = (Ok tt, c2) -> answer `prefix_of` rest c2.
(** The client and its buffers, before the connection is opened. *)
Record Ready (config : TlsConfig) (p : P) (c : C) (rbuf wbuf : bytes) (h : ClientHello (K := K)) (p1 : P) : Prop := {
  rd_prepared : exists p0, prepared config p p0 /\ hello_of config p0 = (h, p1);
  rd_hello : HelloFits (length wbuf) h;
  rd_room : (TLS_RECORD_OVERHEAD + HEADER_LEN < length wbuf)%nat /\ Z.of_nat (length wbuf) < 65536
}.
(** An open connection with the application keys of the handshake. *)
Record Established (shared th : bytes) (rsize wsize : nat) (conn : TlsConnection (C := C)) : Prop := {
  es_write : write_key conn = rfc_traffic (derive (rfc_master None shared) (lit "c ap traffic") th);
  es_read : Idle rsize (rfc_traffic (derive (rfc_master None shared) (lit "s ap traffic") th)) conn;
  es_send : Sending wsize [] conn
}.
Lemma open_ok (config : TlsConfig) (p p1 p' : P) (c : C) (rbuf wbuf : bytes) (h : ClientHello (K := K)) (r : Peer) (shared : bytes) (fuel : nat) :
  Ready config p c rbuf wbuf h p1 -> PeerFits (length rbuf) shared r (hello_bytes h) ->
  calculate_shared_secret (ch_secret h) {| sh_extensions := pr_extensions r |} = Some shared ->
  accepts (pr_credentials r) ((hello_bytes h ++ peer_hello r) ++ encrypted_extensions) p1 p' ->
  Answers c h (peer_answer shared r (hello_bytes h)) -> (4 <= fuel)%nat -> exists conn,
  tls_open fuel config p (TlsConnection_new c rbuf wbuf) = Some (Ok p', conn) /\
  Established shared (peer_transcript shared r (hello_bytes h)) (length rbuf) (length wbuf) conn /\
  sent (delegate conn) = sent c ++ hello_record h ++ sealed_record ContentType.Handshake
    (rfc_traffic (derive (rfc_handshake None shared) (lit "c hs traffic") (hello_bytes h ++ peer_hello r)))
    (message_bytes (server_finished (derive (rfc_handshake None shared) (lit "c hs traffic") (hello_bytes h ++ peer_hello r))
      (peer_transcript shared r (hello_bytes h)))).
Proof.
  intros [(p0 & Hprep & Hh) Hhf [Hroom Hfit]] [Hsf Hcf Hff [Hs1 Hs2]] Hdh Hacc Hans Hfuel. pose proof tag_fits as Htag. pose proof hash_fits as Hhash.
  destruct fuel as [|[|[|[|fuel]]]]; try lia.
  destruct (client_hello_step config c (RecordReader_new rbuf) (WriteBuffer_new wbuf) p0 h p1 (length wbuf) Hh Hhf)
    as (c1 & c2 & tx & E1 & Hc1 & Hl1 & Ew1 & Ew2 & Es1); [done | done |].
  destruct (Hans c1 c2 Ew1 Ew2) as (more & Hr). unfold peer_answer in Hr. rewrite <- app_assoc in Hr.
  set (lk1 := {| lk_transport := c2; lk_handshake := with_hs_secret (Some (ch_secret h)) Handshake_new; lk_reader := RecordReader_new rbuf; lk_tx := tx;
    lk_keys := hello_keys (hello_bytes h); lk_provider := p1 |}) in *.
  destruct (server_hello_step config (hello_bytes h) (pr_random r) (pr_session r) (pr_suite r) (pr_extensions r) (ch_secret h) shared lk1 (length rbuf) _
    Hsf Hs1 (conj eq_refl (conj (Nat.le_0_l _) eq_refl)) Hr eq_refl eq_refl Hdh) as (c3 & rd3 & E2 & Hrd3 & Hr3 & Es3).
  set (lk2 := {| lk_transport := c3; lk_handshake := _; lk_reader := rd3; lk_tx := _; lk_keys := _; lk_provider := _ |}) in *.
  destruct (server_verify_step config (pr_credentials r) shared _ (hello_bytes h ++ peer_hello r) p' lk2 (length rbuf) more
    Hcf Hff Hs2 Hrd3 eq_refl Hr3 eq_refl Hacc) as (c4 & rd4 & server & E3 & Hrd4 & _ & Es4).
  set (lk3 := {| lk_transport := c4; lk_handshake := _; lk_reader := rd4; lk_tx := _; lk_keys := _; lk_provider := p' |}) in *.
  destruct (client_finished_step config shared _ (hello_bytes h ++ peer_hello r) (peer_transcript shared r (hello_bytes h)) server lk3 (length wbuf)
    eq_refl eq_refl Hc1 Hl1) as (c5 & tx5 & ks & E4 & Hc5 & Hl5 & Es5 & Ekw & Ekr); [unfold TLS_RECORD_OVERHEAD in *; lia|].
  assert (handshake_loop (S (S (S (S fuel)))) config State.ClientHello (start_link c (RecordReader_new rbuf) (WriteBuffer_new wbuf) p0) =
    Some (Ok tt, {| lk_transport := c5; lk_handshake := with_traffic_hash None (lk_handshake lk3); lk_reader := rd4; lk_tx := tx5; lk_keys := ks; lk_provider := p' |})) as E.
  { cbn [handshake_loop]. rewrite bool_decide_false by done. rewrite (op_then _ _ _ _ _ E1). rewrite bool_decide_false by done. rewrite (op_then _ _ _ _ _ E2).
    rewrite bool_decide_false by done. rewrite (op_then _ _ _ _ _ E3). rewrite bool_decide_false by done. rewrite (op_then _ _ _ _ _ E4).
    destruct fuel; cbn [handshake_loop]; by rewrite bool_decide_true. }
  unfold tls_open. cbn [TlsConnection_new delegate record_reader record_write_buf key_schedule].
  assert ((match server_name config with
    | Some name => if has_verifier p then set_hostname_verification name p else Some (Ok tt, p)
    | None => Some (Ok tt, p)
    end) = Some (Ok tt, p0)) as ->.
  { unfold prepared in Hprep. destruct (server_name config); [destruct (has_verifier p)|]; by subst. }
  cbn [mbind option_bind]. fold (start_link c (RecordReader_new rbuf) (WriteBuffer_new wbuf) p0). rewrite E. cbn [mbind option_bind result_bind lk_provider].
  eexists. split; [reflexivity|]. split; [split|].
  - exact Ekw.
  - destruct Hrd4 as (Hp4 & Hd4 & Hb4). split; cbn [opened key_schedule record_reader decrypted is_ok orb lk_reader lk_keys]; try done; cbn; lia.
  - split; cbn [opened key_schedule record_write_buf is_ok orb lk_tx]; [done | done | done | done | by left].
  - cbn [delegate lk_transport]. rewrite Es5. change (lk_transport lk3) with c4. rewrite Es4. change (lk_transport lk2) with c3. rewrite Es3.
    change (lk_transport lk1) with c2. by rewrite Es1, <- !app_assoc.
Qed.

(** C8: the handshake of RFC 8446 completes when the server answers in one
    flight. Let the client's buffers hold its hello and everything it is sent;
    let the server answer with a hello that carries its half of the key
    exchange and then one protected record, under the keys the RFC derives,
    with encrypted extensions that hold nothing, a certificate with its
    signature and a [Finished]; and let the verifier accept certificate and
    signature. (A retry of the hello, a change of cipher specification, a
    request for a client certificate and messages cut over several records are
    not among the servers considered.) Then opening succeeds in four steps; both directions have the application
    keys the RFC derives from the shared secret and the transcript, ready for
    reading and writing; the verifier is in the state its checks left it in; and
    the client has sent its hello and the [Finished] the RFC asks for, nothing
    else. *)
Theorem open_establishes (config : TlsConfig) (p p1 p' : P) (c : C) (rbuf wbuf : bytes) (h : ClientHello (K := K)) (r : Peer)
    (cert : CertificateRef) (verify : CertificateVerify) (shared : bytes) (fuel : nat) :
  pr_credentials r = Some (cert, verify) ->
  Ready config p c rbuf wbuf h p1 -> PeerFits (length rbuf) shared r (hello_bytes h) ->
  calculate_shared_secret (ch_secret h) {| sh_extensions := pr_extensions r |} = Some shared ->
  accepts (pr_credentials r) ((hello_bytes h ++ peer_hello r) ++ encrypted_extensions) p1 p' ->
  Answers c h (peer_answer shared r (hello_bytes h)) -> (4 <= fuel)%nat -> exists conn,
  tls_open fuel config p (TlsConnection_new c rbuf wbuf) = Some (Ok p', conn) /\
  Established shared (peer_transcript shared r (hello_bytes h)) (length rbuf) (length wbuf) conn /\
  sent (delegate conn) = sent c ++ hello_record h ++ sealed_record ContentType.Handshake
    (rfc_traffic (derive (rfc_handshake None shared) (lit "c hs traffic") (hello_bytes h ++ peer_hello r)))
    (message_bytes (server_finished (derive (rfc_handshake None shared) (lit "c hs traffic") (hello_bytes h ++ peer_hello r))
      (peer_transcript shared r (hello_bytes h)))).
Proof. intros _. by apply open_ok. Qed.

(** Anyone who sees the hello can answer it, with a secret of his own and
    without any credentials. *)
Definition impostor (s : K) (random : bytes) : Peer :=
  {| pr_random := random; pr_session := []; pr_suite := 0x1301;
     pr_extensions := [ServerHelloExtension.KeyShare {| ks_group := Secp256r1; ks_opaque := public_key s |}]; pr_credentials := None |}.
Definition impostor_answer (s : K) (random hello client_share : bytes) : option bytes :=
  shared ← diffie_hellman s client_share; Some (peer_answer shared (impostor s random) hello).

(** C10: a server need not prove who it is: an answer made from the client's
    hello and its public share alone, with no certificate and no signature,
    opens the connection, whatever the verifier would say to a certificate: it
    is never asked, and what is left of the provider is what drawing the random
    bytes left. Both sides have agreed on secrets and the connection is
    established with whoever answered. *)
Theorem unauthenticated_server_accepted (config : TlsConfig) (p p1 : P) (c : C) (rbuf wbuf : bytes) (h : ClientHello (K := K)) (s : K)
    (random shared answer : bytes) (fuel : nat) :
  Ready config p c rbuf wbuf h p1 -> PeerFits (length rbuf) shared (impostor s random) (hello_bytes h) ->
  diffie_hellman (ch_secret h) (public_key s) = Some shared -> diffie_hellman s (public_key (ch_secret h)) = Some shared ->
  impostor_answer s random (hello_bytes h) (public_key (ch_secret h)) = Some answer ->
  Answers c h answer -> (4 <= fuel)%nat -> exists conn,
  tls_open fuel config p (TlsConnection_new c rbuf wbuf) = Some (Ok p1, conn) /\
  Established shared (peer_transcript shared (impostor s random) (hello_bytes h)) (length rbuf) (length wbuf) conn.
Proof.
  intros Hr Hf Hdh Hdh' Ha Hans Hfuel. unfold impostor_answer in Ha. rewrite Hdh' in Ha. apply (inj Some) in Ha as <-.
  destruct (open_ok config p p1 p1 c rbuf wbuf h (impostor s random) shared fuel Hr Hf Hdh eq_refl Hans Hfuel) as (conn & E & He & _).
  by exists conn.
Qed.
End Steps.

(** ** Two conversations *)
Module Sample.
Import TlsKeys.Sample TlsStream.Sample.

(** A provider that accepts every certificate, or none. *)
Record Guard := { trusting : bool; asked : nat }.
#[export] Instance guard : CryptoProvider Z Guard := {
  fill_random g := (replicate 32 9, g);
  random_secret g := (5, g);
  has_verifier _ := true;
  set_hostname_verification _ g := Some (Ok tt, g);
  verify_certificate _ _ g := Some (if trusting g then Ok tt else Err InvalidCertificate, {| trusting := trusting g; asked := S (asked g) |});
  verify_signature _ g := Some (if trusting g then Ok tt else Err InvalidSignature, {| trusting := trusting g; asked := S (asked g) |});
  signer g := Some (Err InvalidPrivateKey, g);
  client_cert_of g := (None, g) }.
Definition config : TlsConfig := with_server_name (lit "a.example") TlsConfig_new.
Definition hello : ClientHello (K := Z) := {| ch_config := config; ch_random := replicate 32 9; ch_secret := 5 |}.
Definition rbuf : bytes := replicate 400 0.
Definition wbuf : bytes := replicate 300 0.
Definition wire (answer : bytes) : Wire := {| wire_sent := []; wire_rest := answer |}.
Lemma wire_quiet n (c : Wire) : sent (read_from n c).2 = sent c.
Proof. done. Qed.
Lemma wire_answers answer : Answers (wire answer) hello answer.
Proof. intros c1 c2 E1 E2. cbn in E1, E2. injection E1 as <-. injection E2 as <-. cbn. by exists []; rewrite app_nil_r. Qed.
Lemma client_ready g answer : Ready config g (wire answer) rbuf wbuf hello g.
Proof.
  split.
  - exists g. split; [done|]. done.
  - split; [done | done | | unfold fits; vm_compute; reflexivity | vm_compute; reflexivity | vm_compute; lia].
    unfold hello_extensions. cbn. repeat (apply Forall_cons_2; [unfold extension_fits, fits; vm_compute; repeat first [reflexivity | discriminate | split | constructor] | ]).
    apply Forall_nil_2.
  - split; [vm_compute; lia | vm_compute; reflexivity].
Qed.
(** A certificate of two bytes and a signature of three. *)
Definition honest : Peer := {| pr_random := replicate 32 1; pr_session := []; pr_suite := 0x1301;
  pr_extensions := [ServerHelloExtension.SupportedVersions TLS13; ServerHelloExtension.KeyShare {| ks_group := Secp256r1; ks_opaque := public_key (6 : Z) |}];
  pr_credentials := Some ({| raw_entries := []; request_context := []; entries := [X509 [48; 0]] |},
                          {| signature_scheme := EcdsaSecp256r1Sha256; signature := [1; 2; 3] |}) |}.
Definition secret : bytes := [3].
Lemma hello_fits_peer random session l : length random = 32%nat -> fits 1 session -> Forall server_extension_fits l -> (length l <= 4)%nat ->
  (Z.of_nat (length (mjoin (server_extension <$> l))) < 65536) -> Z.of_nat (length (server_hello_message random session 0x1301 l)) < 65536 ->
  ServerHelloFits random session 0x1301 l.
Proof. intros. split; try done; by eexists. Qed.
Lemma honest_fits : PeerFits (length rbuf) secret honest (hello_bytes hello).
Proof.
  split.
  - apply hello_fits_peer; try done; [|cbn; lia].
    repeat constructor; vm_compute; try done.
  - cbn. split; (split; [by unfold fits; vm_compute|]); [|by unfold fits; vm_compute].
    split_and!; [by unfold fits; vm_compute | cbn; lia | constructor; [by unfold fits; vm_compute | constructor] | by unfold fits; vm_compute].
  - vm_compute. done.
  - split; vm_compute; lia.
Qed.
Definition trust : Guard := {| trusting := true; asked := 0 |}.
Lemma open_establishes_witness : exists conn, tls_open 4 config trust
  (TlsConnection_new (wire (peer_answer secret honest (hello_bytes hello))) rbuf wbuf) = Some (Ok {| trusting := true; asked := 2 |}, conn) /\
  Established secret (peer_transcript secret honest (hello_bytes hello)) 400 300 conn.
Proof.
  destruct (open_establishes wire_reliable wire_quiet config trust trust {| trusting := true; asked := 2 |}
    (wire (peer_answer secret honest (hello_bytes hello))) rbuf wbuf hello honest
    {| raw_entries := []; request_context := []; entries := [X509 [48; 0]] |}
    {| signature_scheme := EcdsaSecp256r1Sha256; signature := [1; 2; 3] |} secret 4) as (conn & E & He & _).
  - reflexivity.
  - apply client_ready.
  - apply honest_fits.
  - reflexivity.
  - split; [done|]. eexists. split; [reflexivity|]. done.
  - apply wire_answers.
  - lia.
  - exists conn. split; [exact E | exact He].
Defined.
(** A verifier that rejects everything is never asked. *)
Definition distrust : Guard := {| trusting := false; asked := 0 |}.
Definition fake : bytes := default [] (impostor_answer (6 : Z) (replicate 32 1) (hello_bytes hello) (public_key (5 : Z))).
Lemma unauthenticated_server_accepted_witness : exists conn, tls_open 4 config distrust (TlsConnection_new (wire fake) rbuf wbuf) =
  Some (Ok {| trusting := false; asked := 0 |}, conn) /\ opened conn = true.
Proof.
  destruct (unauthenticated_server_accepted wire_reliable wire_quiet config distrust distrust (wire fake) rbuf wbuf hello (6 : Z)
    (replicate 32 1) secret fake 4) as (conn & E & He).
  - apply client_ready.
  - split.
    + apply hello_fits_peer; try done; [|cbn; lia]. repeat constructor; vm_compute; try done.
    + done.
    + vm_compute. done.
    + split; vm_compute; lia.
  - reflexivity.
  - reflexivity.
  - reflexivity.
  - apply wire_answers.
  - lia.
  - exists conn. split; [exact E | apply He].
Defined.
(** The same run, computed. *)
Example impostor_run : (r ← tls_open 4 config distrust (TlsConnection_new (wire fake) rbuf wbuf); Some (is_ok r.1, opened r.2)) = Some (true, true).
Proof. vm_compute. reflexivity. Qed.
End Sample.
