(* ===== verification/Sync.v ===== *)
(** * Watches and channels between tasks

    The tasks of the firmware share [Watch]es and [Channel]s of the
    [embassy-sync] crate, which is not part of the repository: they are
    interfaces here, with the laws its documentation states. Awaiting
    [changed()] or [receive()] is an operation that gives [None] while the
    future is pending. The instances at the end are for witnesses. *)
From S2P Require Import Prelude Heapless.

(** A [Watch] holds the last value sent; each receiver knows whether it has
    seen it. [try_get] marks the value as seen, as [changed] does. *)
Class Watch (W : Type -> Type) := {
  watch_new {A} : W A;
  watch_value {A} : W A -> option A;
  watch_unseen {A} : nat -> W A -> bool;
  watch_send {A} : A -> W A -> W A;
  watch_try_get {A} : nat -> W A -> option A * W A;
  watch_changed {A} : nat -> W A -> option (A * W A)
}.

(** What an operation of receiver [i] leaves as it was. *)
Definition SeenBy {W} `{Watch W} {A} (i : nat) (w w' : W A) : Prop :=
  watch_value w' = watch_value w /\ watch_unseen i w' = false /\
  forall j, j <> i -> watch_unseen j w' = watch_unseen j w.

Class WatchLaws (W : Type -> Type) `{Watch W} := {
  watch_new_value A : watch_value (@watch_new W _ A) = None;
  watch_send_value {A} (a : A) (w : W A) : watch_value (watch_send a w) = Some a;
  watch_send_unseen {A} (a : A) (w : W A) i : watch_unseen i (watch_send a w) = true;
  watch_try_get_value {A} i (w : W A) : (watch_try_get i w).1 = watch_value w;
  watch_try_get_seen {A} i (w : W A) : SeenBy i w (watch_try_get i w).2;
  watch_changed_ready {A} i (w : W A) :
    watch_unseen i w = true ->
    exists a w', watch_changed i w = Some (a, w') /\ watch_value w = Some a /\ SeenBy i w w';
  watch_changed_pending {A} i (w : W A) : watch_unseen i w = false -> watch_changed i w = None
}.

(** A bounded first-in first-out channel; [try_send] gives [None] when it is
    full. *)
Class Channel (C : Type -> nat -> Type) := {
  chan_new {A N} : C A N;
  chan_list {A N} : C A N -> list A;
  chan_try_send {A N} : A -> C A N -> option (C A N);
  chan_try_receive {A N} : C A N -> option (A * C A N)
}.

Class ChannelLaws (C : Type -> nat -> Type) `{Channel C} := {
  chan_new_list A N : chan_list (@chan_new C _ A N) = [];
  chan_capacity {A N} (c : C A N) : (length (chan_list c) <= N)%nat;
  chan_send_room {A N} (a : A) (c : C A N) : (length (chan_list c) < N)%nat ->
    exists c', chan_try_send a c = Some c' /\ chan_list c' = chan_list c ++ [a];
  chan_send_full {A N} (a : A) (c : C A N) : length (chan_list c) = N -> chan_try_send a c = None;
  chan_receive_cons {A N} (c : C A N) a l : chan_list c = a :: l ->
    exists c', chan_try_receive c = Some (a, c') /\ chan_list c' = l;
  chan_receive_nil {A N} (c : C A N) : chan_list c = [] -> chan_try_receive c = None
}.

Definition chan_is_empty {C} `{Channel C} {A N} (c : C A N) : bool :=
  bool_decide (length (chan_list c) = 0%nat).

Lemma watch_changed_some {W} `{WatchLaws W} {A} i (w w' : W A) a :
  watch_changed i w = Some (a, w') ->
  watch_unseen i w = true /\ watch_value w = Some a /\ SeenBy i w w'.
Proof.
  intros Hc. destruct (watch_unseen i w) eqn:Hu.
  - destruct (watch_changed_ready i w Hu) as (b & w'' & E & Hv & Hs). naive_solver.
  - rewrite watch_changed_pending in Hc by done. discriminate Hc.
Qed.

Lemma chan_send_some {C} `{ChannelLaws C} {A N} (a : A) (c c' : C A N) :
  chan_try_send a c = Some c' ->
  (length (chan_list c) < N)%nat /\ chan_list c' = chan_list c ++ [a].
Proof.
  intros Hs. pose proof (chan_capacity c). destruct (decide (length (chan_list c) < N)%nat) as [Hl|Hl].
  - destruct (chan_send_room a c Hl) as (c'' & E & Hc). naive_solver.
  - rewrite chan_send_full in Hs by lia. discriminate Hs.
Qed.

Lemma chan_receive_some {C} `{ChannelLaws C} {A N} (a : A) (c c' : C A N) :
  chan_try_receive c = Some (a, c') -> chan_list c = a :: chan_list c'.
Proof.
  intros Hs. destruct (chan_list c) as [|b l] eqn:El.
  - rewrite chan_receive_nil in Hs by done. discriminate Hs.
  - destruct (chan_receive_cons c b l El) as (c'' & E & Hc). naive_solver.
Qed.

(** ** Instances for witnesses *)

Record cell (A : Type) := { cell_value : option A; cell_unseen : nat -> bool }.
Arguments cell_value {A} c.
Arguments cell_unseen {A} c.

Definition mark {A} (i : nat) (w : cell A) : cell A :=
  {| cell_value := cell_value w;
     cell_unseen := fun j => if Nat.eqb j i then false else cell_unseen w j |}.

#[export] Instance cell_watch : Watch cell := {
  watch_new A := {| cell_value := None; cell_unseen := fun _ => false |};
  watch_value A w := cell_value w;
  watch_unseen A i w := match cell_value w with Some _ => cell_unseen w i | None => false end;
  watch_send A a w := {| cell_value := Some a; cell_unseen := fun _ => true |};
  watch_try_get A i w := (cell_value w, mark i w);
  watch_changed A i w :=
    match cell_value w with
    | Some a => if cell_unseen w i then Some (a, mark i w) else None
    | None => None
    end
}.

Lemma mark_seen {A} i (w : cell A) : SeenBy i w (mark i w).
Proof.
  split_and!; cbn; [done | by destruct (cell_value w); rewrite ?Nat.eqb_refl |].
  intros j Hj. by rewrite (proj2 (Nat.eqb_neq j i) Hj).
Qed.

#[export] Instance cell_watch_laws : WatchLaws cell.
Proof.
  split; try done.
  - intros. apply mark_seen.
  - intros A i w Hu. cbn in *. destruct (cell_value w) as [a|] eqn:E; [|done].
    rewrite Hu. exists a, (mark i w). split_and!; [done | done | apply mark_seen].
  - intros A i w Hu. cbn in *. destruct (cell_value w); [by rewrite Hu | done].
Qed.

#[export] Instance bounded_channel : Channel bounded := {
  chan_new A N := bounded_nil;
  chan_list A N := bounded_list;
  chan_try_send A N a c := ok (bounded_push a c);
  chan_try_receive A N c := deq_pop_front c
}.

#[export] Instance bounded_channel_laws : ChannelLaws bounded.
Proof.
  split.
  - done.
  - intros. apply bounded_le.
  - intros A N a c Hl. destruct (bounded_push_room a c Hl) as (c' & E & Hc).
    exists c'. cbn. by rewrite E.
  - intros A N a c Hl. cbn. by rewrite bounded_push_full.
  - intros A N c a l Hl. cbn in *. rewrite Hl.
    eexists; split; [done|]. apply bounded_set_list.
    pose proof (bounded_le c) as Hb. rewrite Hl in Hb. cbn in Hb. lia.
  - intros A N c Hl. cbn in *. by rewrite Hl.
Qed.
