(* ===== verification/ConfigRules.v ===== *)
(** * Configuration rules and runtime policy

    [crates/app-core/src/config_rules.rs], [domain.rs] (the two views) and
    [runtime_policy.rs]. [core::time::Duration] is seconds and nanoseconds;
    Rust's [clamp] panics when its bounds are crossed, so the decision
    function is partial and is proved total. *)
From S2P Require Import Prelude.

(** ** Data *)

Record RadioConfigView := {
  detection_threshold_db : Z;
  magn_target : Z;
  channel_bandwidth_index : Z;
  carrier_sense_threshold : Z
}.

Record PowerConfigView := {
  predictive_sleep_enabled : bool;
  sleep_duration_secs : Z;
  ui_idle_timeout_secs : Z
}.

#[export] Instance RadioConfigView_eq_dec : EqDecision RadioConfigView.
Proof. solve_decision. Defined.
#[export] Instance PowerConfigView_eq_dec : EqDecision PowerConfigView.
Proof. solve_decision. Defined.

Definition DETECTION_THRESHOLD_MIN_DB : Z := 4.
Definition DETECTION_THRESHOLD_MAX_DB : Z := 16.
Definition DETECTION_THRESHOLD_STEP_DB : Z := 4.
Definition MAGN_TARGET_MIN : Z := 0.
Definition MAGN_TARGET_MAX : Z := 7.
Definition CHANNEL_BANDWIDTH_MIN_INDEX : Z := 0.
Definition CHANNEL_BANDWIDTH_MAX_INDEX : Z := 3.
Definition CARRIER_SENSE_MIN : Z := 0.
Definition CARRIER_SENSE_MAX : Z := 7.
Definition DEFAULT_DETECTION_THRESHOLD_DB : Z := DETECTION_THRESHOLD_MIN_DB.
Definition DEFAULT_MAGN_TARGET : Z := 3.
Definition DEFAULT_CHANNEL_BANDWIDTH_INDEX : Z := 1.
Definition DEFAULT_CHANNEL_BANDWIDTH_HZ : Z := 203000.
Definition DEFAULT_CARRIER_SENSE_THRESHOLD : Z := CARRIER_SENSE_MAX.
Definition POWER_SLEEP_DURATION_MIN_SECS : Z := 1.
Definition POWER_SLEEP_DURATION_MAX_SECS : Z := 59.
Definition POWER_UI_IDLE_TIMEOUT_MIN_SECS : Z := 5.
Definition POWER_UI_IDLE_TIMEOUT_MAX_SECS : Z := 180.
Definition POWER_DEFAULT_PREDICTIVE_SLEEP_ENABLED : bool := true.
Definition POWER_DEFAULT_SLEEP_DURATION_SECS : Z := 45.
Definition POWER_DEFAULT_UI_IDLE_TIMEOUT_SECS : Z := 60.

Record Duration := { secs : Z; nanos : Z }.
Definition from_secs (s : Z) : Duration := {| secs := s; nanos := 0 |}.
Definition valid_duration (d : Duration) : Prop := u64 (secs d) /\ 0 <= nanos d < 1000000000.
(** [a > b] on durations. *)
Definition duration_gt (a b : Duration) : bool :=
  (secs b <? secs a) || ((secs a =? secs b) && (nanos b <? nanos a)).

(** ** Clamping *)

Definition quantize_detection_threshold_db (db : Z) : Z :=
  if between 0 6 db then 4
  else if between 7 10 db then 8
  else if between 11 14 db then 12
  else 16.

Definition clamp_radio_config (settings : RadioConfigView) : RadioConfigView := {|
  detection_threshold_db := quantize_detection_threshold_db (detection_threshold_db settings);
  magn_target := clamp MAGN_TARGET_MIN MAGN_TARGET_MAX (magn_target settings);
  channel_bandwidth_index :=
    clamp CHANNEL_BANDWIDTH_MIN_INDEX CHANNEL_BANDWIDTH_MAX_INDEX (channel_bandwidth_index settings);
  carrier_sense_threshold :=
    clamp CARRIER_SENSE_MIN CARRIER_SENSE_MAX (carrier_sense_threshold settings)
|}.

Definition clamp_power_config (settings : PowerConfigView) : PowerConfigView := {|
  predictive_sleep_enabled := predictive_sleep_enabled settings;
  sleep_duration_secs :=
    clamp POWER_SLEEP_DURATION_MIN_SECS POWER_SLEEP_DURATION_MAX_SECS (sleep_duration_secs settings);
  ui_idle_timeout_secs :=
    clamp POWER_UI_IDLE_TIMEOUT_MIN_SECS POWER_UI_IDLE_TIMEOUT_MAX_SECS (ui_idle_timeout_secs settings)
|}.

Definition predictive_sleep_window_cap_secs (time_since_measurement_receive : Duration) : Z :=
  let window_secs := sat_sub (sat_sub 60 (secs time_since_measurement_receive)) 10 in
  let window_secs_u8 := default (umax 8) (try_from_u 8 window_secs) in
  Z.min POWER_SLEEP_DURATION_MAX_SECS window_secs_u8.

(** ** Runtime policy *)

Definition PREDICTIVE_SLEEP_MAX_MEASUREMENT_AGE_SECS : Z := 20.
Definition MQTT_MIN_BACKOFF_SECS : Z := 1.
Definition MQTT_MAX_BACKOFF_SECS : Z := 60.
Definition MQTT_RECONNECT_BEFORE_PUBLISH_IDLE_SECS : Z := 20.

Inductive PredictiveSleepDecision :=
| QueueNotEmpty
| MeasurementTooOld
| PredictiveSleepDisabled
| UiIdleDeadlineNotElapsed (idle_remaining_secs : Z)
| OTAUpdateInProgress
| Sleep (sleep_secs : Z).

#[export] Instance PredictiveSleepDecision_eq_dec : EqDecision PredictiveSleepDecision.
Proof. solve_decision. Defined.

(** [None] is the panic of [clamp] with crossed bounds. *)
Definition predictive_sleep_decision
    (queue_empty : bool) (time_since_measurement_receive : Duration)
    (predictive_sleep_enabled : bool) (configured_sleep_secs now_secs : Z)
    (ota_update_in_progress : bool) (ui_idle_deadline_secs : Z)
  : option PredictiveSleepDecision :=
  if negb queue_empty then Some QueueNotEmpty
  else if duration_gt time_since_measurement_receive
            (from_secs PREDICTIVE_SLEEP_MAX_MEASUREMENT_AGE_SECS)
  then Some MeasurementTooOld
  else if negb predictive_sleep_enabled then Some PredictiveSleepDisabled
  else if now_secs <? ui_idle_deadline_secs
  then Some (UiIdleDeadlineNotElapsed (ui_idle_deadline_secs - now_secs))
  else if ota_update_in_progress then Some OTAUpdateInProgress
  else
    let max_sleep_secs := predictive_sleep_window_cap_secs time_since_measurement_receive in
    sleep_secs ← clamp_checked POWER_SLEEP_DURATION_MIN_SECS max_sleep_secs configured_sleep_secs;
    Some (Sleep sleep_secs).

Definition next_ui_idle_deadline_secs
    (predictive_sleep_enabled rearm_idle_countdown : bool)
    (now_secs current_deadline_secs ui_idle_timeout_secs : Z) : Z :=
  if negb predictive_sleep_enabled then 0
  else
    let max_deadline := sat_add 32 now_secs ui_idle_timeout_secs in
    if rearm_idle_countdown then max_deadline
    else Z.min current_deadline_secs max_deadline.

Definition should_reconnect_before_publish (idle_secs : Z) : bool :=
  MQTT_RECONNECT_BEFORE_PUBLISH_IDLE_SECS <? idle_secs.

Definition next_mqtt_backoff_secs (current_backoff_secs : Z) : Z :=
  Z.min (sat_mul 64 current_backoff_secs 2) MQTT_MAX_BACKOFF_SECS.

(** ** Properties *)

Definition RadioInBounds (s : RadioConfigView) : Prop :=
  (detection_threshold_db s = 4 \/ detection_threshold_db s = 8 \/
   detection_threshold_db s = 12 \/ detection_threshold_db s = 16) /\
  0 <= magn_target s <= 7 /\ 0 <= channel_bandwidth_index s <= 3 /\
  0 <= carrier_sense_threshold s <= 7.

Definition PowerInBounds (s : PowerConfigView) : Prop :=
  1 <= sleep_duration_secs s <= 59 /\ 5 <= ui_idle_timeout_secs s <= 180.

Ltac rules := unfold clamp, between, MAGN_TARGET_MIN, MAGN_TARGET_MAX,
  CHANNEL_BANDWIDTH_MIN_INDEX, CHANNEL_BANDWIDTH_MAX_INDEX, CARRIER_SENSE_MIN,
  CARRIER_SENSE_MAX, POWER_SLEEP_DURATION_MIN_SECS, POWER_SLEEP_DURATION_MAX_SECS,
  POWER_UI_IDLE_TIMEOUT_MIN_SECS, POWER_UI_IDLE_TIMEOUT_MAX_SECS in *.

Lemma quantize_cases db :
  quantize_detection_threshold_db db = 4 \/ quantize_detection_threshold_db db = 8 \/
  quantize_detection_threshold_db db = 12 \/ quantize_detection_threshold_db db = 16.
Proof. unfold quantize_detection_threshold_db. repeat case_goal; auto. Qed.

Lemma quantize_fixed db :
  (db = 4 \/ db = 8 \/ db = 12 \/ db = 16) -> quantize_detection_threshold_db db = db.
Proof. by intros [->|[->|[->| ->]]]. Qed.

Lemma clamp_radio_fixed s : RadioInBounds s -> clamp_radio_config s = s.
Proof.
  intros (Hd & Hm & Hc & Hs). destruct s as [d m c s']; cbn in *.
  unfold clamp_radio_config; cbn. rewrite quantize_fixed by done. rules. f_equal; lia.
Qed.

Lemma clamp_radio_bounds s : RadioInBounds (clamp_radio_config s).
Proof.
  unfold RadioInBounds, clamp_radio_config; cbn. rules. split; [apply quantize_cases | lia].
Qed.

Lemma clamp_power_fixed s : PowerInBounds s -> clamp_power_config s = s.
Proof.
  intros (Hd & Hm). destruct s as [e d u]; cbn in *.
  unfold clamp_power_config; cbn. rules. f_equal; lia.
Qed.

Lemma clamp_power_bounds s : PowerInBounds (clamp_power_config s).
Proof. unfold PowerInBounds, clamp_power_config; cbn. rules. lia. Qed.

(** clamping always yields settings inside the hardware and policy bounds,
    and it changes nothing exactly when the settings were already inside:
    it is a projection onto the valid configurations. *)
Theorem clamp_config_projection r p :
  RadioInBounds (clamp_radio_config r) /\ PowerInBounds (clamp_power_config p) /\
  (clamp_radio_config r = r <-> RadioInBounds r) /\
  (clamp_power_config p = p <-> PowerInBounds p) /\
  predictive_sleep_enabled (clamp_power_config p) = predictive_sleep_enabled p.
Proof.
  split; [apply clamp_radio_bounds|]. split; [apply clamp_power_bounds|].
  split; [|split; [|done]]; (split; [intros <-|]).
  - apply clamp_radio_bounds.
  - apply clamp_radio_fixed.
  - apply clamp_power_bounds.
  - apply clamp_power_fixed.
Qed.

Lemma window_cap_spec d :
  0 <= secs d <= 20 -> predictive_sleep_window_cap_secs d = 50 - secs d.
Proof.
  intros H. unfold predictive_sleep_window_cap_secs, try_from_u, POWER_SLEEP_DURATION_MAX_SECS.
  unfold sat_sub. replace (Z.max (Z.max (60 - secs d) 0 - 10) 0) with (50 - secs d) by lia.
  destruct (_ && _) eqn:E; cbn; [num|]. apply andb_false_iff in E.
  destruct E; bools; num.
Qed.

(** the predictive-sleep decision never panics, and the device sleeps
    exactly when the queue is empty, the measurement is at most 20 s old,
    the feature is on, the UI idle deadline has passed and no OTA runs; the
    sleep then lies between 1 s and the configured time, and ends at least
    10 s before the sensor's next 60 s transmission. *)
Theorem predictive_sleep_spec queue_empty age enabled configured now ota deadline :
  valid_duration age -> 1 <= configured <= 59 ->
  exists decision,
    predictive_sleep_decision queue_empty age enabled configured now ota deadline
      = Some decision /\
    forall s, decision = Sleep s <->
      queue_empty = true /\ duration_gt age (from_secs 20) = false /\ enabled = true /\
      deadline <= now /\ ota = false /\
      s = Z.min configured (50 - secs age) /\ 1 <= s /\ secs age + s <= 60 - 10.
Proof.
  intros [Hage _] Hc. unfold predictive_sleep_decision.
  destruct queue_empty; cbn [negb]; [|eexists; split; [done | naive_solver]].
  change (from_secs PREDICTIVE_SLEEP_MAX_MEASUREMENT_AGE_SECS) with (from_secs 20).
  destruct (duration_gt age (from_secs 20)) eqn:Hgt; [eexists; split; [done | naive_solver]|].
  destruct enabled; cbn [negb]; [|eexists; split; [done | naive_solver]].
  destruct (Z.ltb_spec now deadline); [eexists; split; [done | naive_solver lia]|].
  destruct ota; [eexists; split; [done | naive_solver]|].
  assert (0 <= secs age <= 20) as Hs.
  { unfold duration_gt in Hgt. cbn in Hgt. bools. num. }
  rewrite window_cap_spec by done. unfold clamp_checked, POWER_SLEEP_DURATION_MIN_SECS.
  destruct (Z.leb_spec 1 (50 - secs age)); [|lia]. cbn.
  eexists. split; [reflexivity|]. unfold clamp. intros s. split.
  - intros [= <-]. split_and!; auto; lia.
  - intros (_ & _ & _ & _ & _ & -> & _). f_equal. lia.
Qed.

(** the UI idle deadline is zero while predictive sleep is off; otherwise
    it never exceeds [now + timeout] (saturating at [u32::MAX]), equals it when
    re-armed, and is never moved later by restoring settings. *)
Theorem ui_idle_deadline_spec enabled rearm now current timeout :
  u32 now -> u32 current -> u8 timeout ->
  let next := next_ui_idle_deadline_secs enabled rearm now current timeout in
  u32 next /\ next <= now + timeout /\
  (enabled = false -> next = 0) /\
  (enabled = true -> rearm = true -> now + timeout < 2 ^ 32 -> next = now + timeout) /\
  (rearm = false -> next <= current).
Proof.
  intros Hn Hc Ht. unfold next_ui_idle_deadline_secs. cbv zeta.
  destruct enabled, rearm; cbn [negb]; split_and!; intros; try done; num.
Qed.

(** The [n]-th backoff delay after a success. *)
Fixpoint backoff (n : nat) : Z :=
  match n with
  | O => MQTT_MIN_BACKOFF_SECS
  | S n => next_mqtt_backoff_secs (backoff n)
  end.

(** the reconnect delay after [n] consecutive failures is [min(2^n, 60)]
    seconds; it never overflows and never decreases. *)
Theorem mqtt_backoff_spec n :
  backoff n = Z.min (2 ^ Z.of_nat n) 60 /\ backoff n <= backoff (S n).
Proof.
  assert (forall n, backoff n = Z.min (2 ^ Z.of_nat n) 60) as H.
  { clear n. induction n as [|n IH]; [done|].
    cbn [backoff]. rewrite IH, Nat2Z.inj_succ, Z.pow_succ_r by lia.
    unfold next_mqtt_backoff_secs, MQTT_MAX_BACKOFF_SECS.
    assert (0 < 2 ^ Z.of_nat n) by (apply Z.pow_pos_nonneg; lia). num. }
  rewrite !H, Nat2Z.inj_succ, Z.pow_succ_r by lia. split; [done|].
  assert (0 < 2 ^ Z.of_nat n) by (apply Z.pow_pos_nonneg; lia). lia.
Qed.

(** ** Witnesses *)

Lemma predictive_sleep_spec_witness :
  predictive_sleep_decision true (from_secs 20) true 45 100 false 100 = Some (Sleep 30).
Proof.
  destruct (predictive_sleep_spec true (from_secs 20) true 45 100 false 100) as (d & Hd & Hs).
  - split; cbn; num.
  - lia.
  - rewrite Hd. f_equal. apply Hs. cbn. split_and!; auto; lia.
Defined.

Lemma ui_idle_deadline_spec_witness :
  next_ui_idle_deadline_secs true false 1000 1090 60 = 1060 /\
  next_ui_idle_deadline_secs true false 1000 1090 60 <= 1090.
Proof.
  split; [reflexivity|].
  apply (ui_idle_deadline_spec true false 1000 1090 60); (reflexivity || num).
Defined.
