(* ===== verification/RtcSchema.v ===== *)
(** * Persisted settings words

    [crates/app-core/src/rtc_schema.rs]: 32-bit words kept in RTC memory
    across deep sleep, with a magic byte, two payload bytes and a rotating
    checksum; current and legacy schemas. *)
From S2P Require Import Prelude.

Record PowerSettingsPayload := {
  pp_predictive_sleep_enabled : bool;
  pp_sleep_duration_secs : Z;
  pp_ui_idle_timeout_secs : Z
}.
Record RfProfilePayload := { profile_index : Z }.
Record RadioSettingsPayload := {
  rp_detection_threshold_db : Z;
  rp_magn_target : Z;
  rp_channel_bandwidth_index : Z;
  rp_carrier_sense_threshold : Z
}.
Record DecodedValue (T : Type) := {
  value : T;
  schema_version : Z;
  needs_migration : bool
}.
Arguments value {T} _.
Arguments schema_version {T} _.
Arguments needs_migration {T} _.
Arguments Build_DecodedValue {T} _ _ _.

Inductive DecodeError := UnknownSchema | UnsupportedVersion | ChecksumMismatch.

Definition POWER_SCHEMA_VERSION : Z := 1.
Definition LEGACY_POWER_SCHEMA_VERSION : Z := 0.
Definition RF_PROFILE_SCHEMA_VERSION : Z := 2.
Definition LEGACY_RF_PROFILE_SCHEMA_VERSION : Z := 1.
Definition RADIO_SETTINGS_SCHEMA_VERSION : Z := 1.
Definition POWER_MAGIC_CURRENT : Z := 0xD1.
Definition POWER_MAGIC_LEGACY : Z := 0xA5.
Definition RF_PROFILE_MAGIC_CURRENT : Z := 0xD2.
Definition RF_PROFILE_MAGIC_LEGACY : Z := 0xC7.
Definition RADIO_SETTINGS_MAGIC_CURRENT : Z := 0xD3.
Definition RF_PROFILE_VERSION_LEGACY_WORD : Z := 1.
Definition CHECKSUM_SEED_CURRENT : Z := 0x73.
Definition CHECKSUM_SEED_POWER_LEGACY : Z := 0x5C.
Definition CHECKSUM_SEED_RF_LEGACY : Z := 0x39.

(** [x.rotate_left(1)] on a [u8]. *)
Definition rotate_left1 (x : Z) : Z := Z.lor (wrap 8 (Z.shiftl x 1)) (Z.shiftr x 7).

Definition checksum (seed : Z) (payload : bytes) : Z :=
  fold_left (fun acc byte => wrap 8 (rotate_left1 acc + byte)) payload seed.

Definition encode_word (payload : bytes) (seed : Z) : Z :=
  of_le_bytes (payload ++ [checksum seed payload]).

Definition validate_checksum (payload : bytes) (expected_checksum seed : Z)
  : result DecodeError unit :=
  if checksum seed payload =? expected_checksum then Ok tt else Err ChecksumMismatch.

Definition encode_power_settings (settings : PowerSettingsPayload) : Z :=
  let byte0 := POWER_MAGIC_CURRENT in
  let byte1 := Z.lor (wrap 8 (Z.shiftl (Z.b2z (pp_predictive_sleep_enabled settings)) 7))
                     (Z.land (pp_sleep_duration_secs settings) 0x7F) in
  let byte2 := pp_ui_idle_timeout_secs settings in
  encode_word [byte0; byte1; byte2] CHECKSUM_SEED_CURRENT.

(** The four bytes of [word.to_le_bytes()]. *)
Definition word_bytes (word : Z) : Z * Z * Z * Z :=
  (word mod 256, word / 256 mod 256, word / 256 / 256 mod 256, word / 256 / 256 / 256 mod 256).

Definition power_payload (byte1 byte2 : Z) : PowerSettingsPayload := {|
  pp_predictive_sleep_enabled := negb (Z.land byte1 0x80 =? 0);
  pp_sleep_duration_secs := Z.land byte1 0x7F;
  pp_ui_idle_timeout_secs := byte2
|}.

Definition decode_power_settings (word : Z)
  : result DecodeError (DecodedValue PowerSettingsPayload) :=
  let '(byte0, byte1, byte2, byte3) := word_bytes word in
  if byte0 =? POWER_MAGIC_CURRENT then
    validate_checksum [byte0; byte1; byte2] byte3 CHECKSUM_SEED_CURRENT;;
    Ok {| value := power_payload byte1 byte2;
          schema_version := POWER_SCHEMA_VERSION;
          needs_migration := false |}
  else if byte0 =? POWER_MAGIC_LEGACY then
    validate_checksum [byte0; byte1; byte2] byte3 CHECKSUM_SEED_POWER_LEGACY;;
    Ok {| value := power_payload byte1 byte2;
          schema_version := LEGACY_POWER_SCHEMA_VERSION;
          needs_migration := true |}
  else Err UnknownSchema.

Definition encode_rf_profile (profile : RfProfilePayload) : Z :=
  encode_word [RF_PROFILE_MAGIC_CURRENT; profile_index profile; RF_PROFILE_SCHEMA_VERSION]
    CHECKSUM_SEED_CURRENT.

Definition decode_rf_profile (word : Z) : result DecodeError (DecodedValue RfProfilePayload) :=
  let '(byte0, byte1, byte2, byte3) := word_bytes word in
  if byte0 =? RF_PROFILE_MAGIC_CURRENT then
    validate_checksum [byte0; byte1; byte2] byte3 CHECKSUM_SEED_CURRENT;;
    (if negb (byte2 =? RF_PROFILE_SCHEMA_VERSION) then Err UnsupportedVersion
     else Ok {| value := {| profile_index := byte1 |};
                schema_version := RF_PROFILE_SCHEMA_VERSION;
                needs_migration := false |})
  else if byte0 =? RF_PROFILE_MAGIC_LEGACY then
    validate_checksum [byte0; byte1; byte2] byte3 CHECKSUM_SEED_RF_LEGACY;;
    (if negb (byte2 =? RF_PROFILE_VERSION_LEGACY_WORD) then Err UnsupportedVersion
     else Ok {| value := {| profile_index := byte1 |};
                schema_version := LEGACY_RF_PROFILE_SCHEMA_VERSION;
                needs_migration := true |})
  else Err UnknownSchema.

Definition encode_radio_settings (settings : RadioSettingsPayload) : Z :=
  let packed_thresholds :=
    Z.lor (Z.lor (Z.land (rp_magn_target settings) 0x07)
                 (wrap 8 (Z.shiftl (Z.land (rp_channel_bandwidth_index settings) 0x03) 3)))
          (wrap 8 (Z.shiftl (Z.land (rp_carrier_sense_threshold settings) 0x07) 5)) in
  encode_word [RADIO_SETTINGS_MAGIC_CURRENT; rp_detection_threshold_db settings; packed_thresholds]
    CHECKSUM_SEED_CURRENT.

Definition decode_radio_settings (word : Z)
  : result DecodeError (DecodedValue RadioSettingsPayload) :=
  let '(byte0, byte1, byte2, byte3) := word_bytes word in
  if negb (byte0 =? RADIO_SETTINGS_MAGIC_CURRENT) then Err UnknownSchema
  else
    validate_checksum [byte0; byte1; byte2] byte3 CHECKSUM_SEED_CURRENT;;
    Ok {| value := {| rp_detection_threshold_db := byte1;
                      rp_magn_target := Z.land byte2 0x07;
                      rp_channel_bandwidth_index := Z.land (Z.shiftr byte2 3) 0x03;
                      rp_carrier_sense_threshold := Z.land (Z.shiftr byte2 5) 0x07 |};
          schema_version := RADIO_SETTINGS_SCHEMA_VERSION;
          needs_migration := false |}.

(** ** Words and checksums *)

Lemma word_bytes_of_le b0 b1 b2 b3 :
  u8 b0 -> u8 b1 -> u8 b2 -> u8 b3 ->
  word_bytes (of_le_bytes [b0; b1; b2; b3]) = (b0, b1, b2, b3).
Proof.
  intros H0 H1 H2 H3.
  assert (is_bytes [b0; b1; b2; b3]) as Hb by (forall_list done).
  pose proof (le_of_le _ Hb) as H. change (length [b0; b1; b2; b3]) with 4%nat in H.
  unfold word_bytes. cbn [le_bytes] in H. congruence.
Qed.

Lemma checksum_u8 seed payload : u8 seed -> u8 (checksum seed payload).
Proof.
  unfold checksum. revert seed. induction payload as [|b l IH]; intros seed H; [done|].
  cbn. apply IH. unfold wrap, uint. apply Z.mod_pos_bound. lia.
Qed.

Lemma rotate_left1_inj x y : u8 x -> u8 y -> rotate_left1 x = rotate_left1 y -> x = y.
Proof.
  intros Hx Hy H.
  pose proof (forall_u8_pair (fun x y =>
    (x =? y) || negb (rotate_left1 x =? rotate_left1 y))) as E.
  specialize (E ltac:(vm_compute; reflexivity) x y Hx Hy).
  apply orb_true_iff in E as [E|E]; [by apply Z.eqb_eq in E|].
  by rewrite H, Z.eqb_refl in E.
Qed.

Lemma rotate_left1_u8 x : u8 x -> u8 (rotate_left1 x).
Proof.
  intros Hx. pose proof (forall_u8 (fun x => bool_decide (u8 (rotate_left1 x)))) as E.
  specialize (E ltac:(vm_compute; reflexivity) x Hx). by apply bool_decide_eq_true in E.
Qed.

Lemma wrap_add_inj_l a b c : u8 a -> u8 b -> wrap 8 (a + c) = wrap 8 (b + c) -> a = b.
Proof.
  unfold wrap, uint. intros Ha Hb H.
  rewrite <- (Z.mod_small a (2 ^ 8)), <- (Z.mod_small b (2 ^ 8)) by done.
  replace a with (a + c - c) by lia. replace b with (b + c - c) by lia.
  by rewrite Zminus_mod, H, <- Zminus_mod.
Qed.

Lemma wrap_add_inj_r a b c : u8 a -> u8 b -> wrap 8 (c + a) = wrap 8 (c + b) -> a = b.
Proof. rewrite !(Z.add_comm c). apply wrap_add_inj_l. Qed.

Lemma wrap_u8 x : u8 (wrap 8 x).
Proof. unfold wrap, uint. apply Z.mod_pos_bound. lia. Qed.

#[export] Hint Resolve checksum_u8 rotate_left1_u8 wrap_u8 : motonet.

(** Running the checksum over the same bytes keeps different states apart. *)
Lemma checksum_state_inj s1 s2 l :
  u8 s1 -> u8 s2 -> checksum s1 l = checksum s2 l -> s1 = s2.
Proof.
  unfold checksum. revert s1 s2. induction l as [|b l IH]; intros s1 s2 H1 H2 H; [done|].
  cbn in H. apply IH in H; [|auto with motonet..].
  apply wrap_add_inj_l in H; [|auto with motonet..]. by apply rotate_left1_inj.
Qed.

Lemma checksum_app s l1 l2 : checksum s (l1 ++ l2) = checksum (checksum s l1) l2.
Proof. unfold checksum. apply fold_left_app. Qed.

(** Changing one payload byte changes the checksum. *)
Lemma checksum_byte_inj s l1 a b l2 :
  u8 s -> u8 a -> u8 b ->
  checksum s (l1 ++ a :: l2) = checksum s (l1 ++ b :: l2) -> a = b.
Proof.
  intros Hs Ha Hb H. rewrite !checksum_app in H.
  change (a :: l2) with ([a] ++ l2) in H. change (b :: l2) with ([b] ++ l2) in H.
  rewrite !checksum_app in H. apply checksum_state_inj in H; [|auto with motonet..].
  unfold checksum in H. cbn in H. by apply wrap_add_inj_r in H.
Qed.

(** ** Round trips *)

Lemma power_byte_roundtrip e d :
  0 <= d < 128 ->
  let b := Z.lor (wrap 8 (Z.shiftl (Z.b2z e) 7)) (Z.land d 0x7F) in
  u8 b /\ negb (Z.land b 0x80 =? 0) = e /\ Z.land b 0x7F = d.
Proof.
  intros Hd. pose proof (forall_below 128 (fun d =>
    let b := Z.lor (wrap 8 (Z.shiftl (Z.b2z e) 7)) (Z.land d 0x7F) in
    bool_decide (u8 b /\ negb (Z.land b 0x80 =? 0) = e /\ Z.land b 0x7F = d))) as H.
  specialize (H ltac:(destruct e; vm_compute; reflexivity) d ltac:(lia)).
  by apply bool_decide_eq_true in H.
Qed.

Definition PowerPayloadFits (p : PowerSettingsPayload) : Prop :=
  0 <= pp_sleep_duration_secs p < 128 /\ u8 (pp_ui_idle_timeout_secs p).
Definition RadioPayloadFits (p : RadioSettingsPayload) : Prop :=
  u8 (rp_detection_threshold_db p) /\ 0 <= rp_magn_target p < 8 /\
  0 <= rp_channel_bandwidth_index p < 4 /\ 0 <= rp_carrier_sense_threshold p < 8.

Lemma encode_word_bytes b0 b1 b2 seed :
  u8 b0 -> u8 b1 -> u8 b2 -> u8 seed ->
  word_bytes (encode_word [b0; b1; b2] seed) = (b0, b1, b2, checksum seed [b0; b1; b2]).
Proof. intros. unfold encode_word. cbn [app]. apply word_bytes_of_le; auto with motonet. Qed.

Lemma validate_checksum_self seed p : validate_checksum p (checksum seed p) seed = Ok tt.
Proof. unfold validate_checksum. by rewrite Z.eqb_refl. Qed.

Lemma decode_encode_power p :
  PowerPayloadFits p ->
  decode_power_settings (encode_power_settings p)
    = Ok {| value := p; schema_version := 1; needs_migration := false |}.
Proof.
  intros [Hd Hu]. unfold encode_power_settings, decode_power_settings.
  destruct (power_byte_roundtrip (pp_predictive_sleep_enabled p) _ Hd) as (H1 & H2 & H3).
  set (b1 := Z.lor _ _) in *. rewrite encode_word_bytes by (done || num).
  change (POWER_MAGIC_CURRENT =? POWER_MAGIC_CURRENT) with true. cbv iota beta.
  rewrite validate_checksum_self. cbn [mbind result_bind].
  unfold power_payload. rewrite H2, H3. by destruct p.
Qed.

Lemma decode_encode_rf p :
  u8 (profile_index p) ->
  decode_rf_profile (encode_rf_profile p)
    = Ok {| value := p; schema_version := 2; needs_migration := false |}.
Proof.
  intros Hp. unfold encode_rf_profile, decode_rf_profile.
  rewrite encode_word_bytes by (done || num).
  change (RF_PROFILE_MAGIC_CURRENT =? RF_PROFILE_MAGIC_CURRENT) with true. cbv iota beta.
  rewrite validate_checksum_self. cbn. by destruct p.
Qed.

Lemma radio_byte_roundtrip m c s :
  0 <= m < 8 -> 0 <= c < 4 -> 0 <= s < 8 ->
  let b := Z.lor (Z.lor (Z.land m 0x07) (wrap 8 (Z.shiftl (Z.land c 0x03) 3)))
                 (wrap 8 (Z.shiftl (Z.land s 0x07) 5)) in
  u8 b /\ Z.land b 0x07 = m /\ Z.land (Z.shiftr b 3) 0x03 = c /\
  Z.land (Z.shiftr b 5) 0x07 = s.
Proof.
  intros Hm Hc Hs.
  pose proof (forall_below 8 (fun m => forallb (fun c => forallb (fun s =>
    let b := Z.lor (Z.lor (Z.land m 0x07) (wrap 8 (Z.shiftl (Z.land c 0x03) 3)))
                   (wrap 8 (Z.shiftl (Z.land s 0x07) 5)) in
    bool_decide (u8 b /\ Z.land b 0x07 = m /\ Z.land (Z.shiftr b 3) 0x03 = c /\
      Z.land (Z.shiftr b 5) 0x07 = s)) (seqZ 0 8)) (seqZ 0 4))) as H.
  specialize (H ltac:(vm_compute; reflexivity) m Hm).
  apply (forall_below 4) with (x := c) in H; [|done].
  apply (forall_below 8) with (x := s) in H; [|done].
  by apply bool_decide_eq_true in H.
Qed.

Lemma decode_encode_radio p :
  RadioPayloadFits p ->
  decode_radio_settings (encode_radio_settings p)
    = Ok {| value := p; schema_version := 1; needs_migration := false |}.
Proof.
  intros (Hd & Hm & Hc & Hs). unfold encode_radio_settings, decode_radio_settings.
  destruct (radio_byte_roundtrip _ _ _ Hm Hc Hs) as (H1 & H2 & H3 & H4).
  set (b := Z.lor (Z.lor _ _) _) in *. rewrite encode_word_bytes by (done || num).
  change (RADIO_SETTINGS_MAGIC_CURRENT =? RADIO_SETTINGS_MAGIC_CURRENT) with true.
  cbn [negb]. rewrite validate_checksum_self. cbn [mbind result_bind].
  rewrite H2, H3, H4. by destruct p.
Qed.

(** every payload that fits its bit fields is read back unchanged, under
    the current schema version and without a migration request: power
    settings with at most 127 s of sleep, any RF profile index, radio settings
    with 3-, 2- and 3-bit fields. *)
Theorem rtc_roundtrip pw rf ra :
  PowerPayloadFits pw -> u8 (profile_index rf) -> RadioPayloadFits ra ->
  decode_power_settings (encode_power_settings pw)
    = Ok {| value := pw; schema_version := 1; needs_migration := false |} /\
  decode_rf_profile (encode_rf_profile rf)
    = Ok {| value := rf; schema_version := 2; needs_migration := false |} /\
  decode_radio_settings (encode_radio_settings ra)
    = Ok {| value := ra; schema_version := 1; needs_migration := false |}.
Proof.
  intros Hp Hr Ha. split; [by apply decode_encode_power|].
  split; [by apply decode_encode_rf | by apply decode_encode_radio].
Qed.

(** ** Corruption *)

(** The word with its [i]-th byte replaced. *)
Definition corrupt (w : Z) (i : nat) (b : Z) : Z := of_le_bytes (<[i:=b]> (le_bytes 4 w)).

(** What each decoder requires before it accepts a word: the magic of one of
    its schemas and the checksum under that schema's seed. *)
Definition reads (schemas : list (Z * Z)) (w : Z) : Prop :=
  let '(b0, b1, b2, b3) := word_bytes w in
  Exists (fun ms => b0 = ms.1 /\ checksum ms.2 [b0; b1; b2] = b3) schemas.

(** Another schema that cannot be confused with the current one: its magic
    differs and so does its checksum state after the magic. *)
Definition separate (m s : Z) (ms : Z * Z) : Prop :=
  u8 ms.1 /\ u8 ms.2 /\ ms.1 <> m /\ checksum ms.2 [ms.1] <> checksum s [m].

Lemma le_bytes_encode b0 b1 b2 seed :
  u8 b0 -> u8 b1 -> u8 b2 -> u8 seed ->
  le_bytes 4 (encode_word [b0; b1; b2] seed) = [b0; b1; b2; checksum seed [b0; b1; b2]].
Proof.
  intros. unfold encode_word. apply (le_of_le ([b0; b1; b2] ++ [_])).
  cbn [app]. forall_list ltac:(auto with motonet).
Qed.

(** A single wrong byte is never accepted: not in the payload or checksum
    (the checksum tells), nor in the magic, where even the other schema's
    magic leads to a different checksum state. *)
Lemma corrupt_not_read m s legacy b1 b2 i b :
  u8 m -> u8 s -> u8 b1 -> u8 b2 -> u8 b -> (i < 4)%nat ->
  Forall (separate m s) legacy ->
  le_bytes 4 (encode_word [m; b1; b2] s) !! i <> Some b ->
  ~ reads ((m, s) :: legacy) (corrupt (encode_word [m; b1; b2] s) i b).
Proof.
  intros Hm Hs Hb1 Hb2 Hb Hi Hleg Hne. unfold corrupt, reads.
  rewrite le_bytes_encode in * by done.
  assert (forall c1 c2 c3, ~ Exists (fun ms : Z * Z => m = ms.1 /\
    checksum ms.2 [m; c1; c2] = c3) legacy) as Hno.
  { intros c1 c2 c3 H. apply Exists_exists in H as (ms & Hin & Hms & _).
    rewrite Forall_forall in Hleg. destruct (Hleg ms Hin) as (_ & _ & ? & _). congruence. }
  destruct i as [|[|[|[|i]]]]; [..|lia]; cbn [insert list_insert lookup list_lookup] in *;
    rewrite word_bytes_of_le by auto with motonet;
    intros H; apply Exists_cons in H as [[H0 H]|H]; cbn [fst snd] in *;
    try (by apply Hno in H).
  - congruence.
  - apply Exists_exists in H as ([m' s'] & Hin & H1 & H2). cbn in H1. subst b.
    rewrite Forall_forall in Hleg. destruct (Hleg _ Hin) as (? & ? & _ & Hst).
    cbn [fst snd] in *.
    change [m'; b1; b2] with ([m'] ++ [b1; b2]) in H2.
    change [m; b1; b2] with ([m] ++ [b1; b2]) in H2. rewrite !checksum_app in H2.
    apply checksum_state_inj in H2; [|auto with motonet..]. congruence.
  - apply Hne. f_equal. symmetry. by apply (checksum_byte_inj s [m] b b1 [b2]).
  - apply Hne. f_equal. symmetry. by apply (checksum_byte_inj s [m; b1] b b2 []).
  - congruence.
Qed.

Lemma decode_power_reads w d :
  decode_power_settings w = Ok d -> reads [(0xD1, 0x73); (0xA5, 0x5C)] w.
Proof.
  unfold decode_power_settings, reads. destruct (word_bytes w) as [[[b0 b1] b2] b3].
  case_goal; [|case_goal; [|done]]; intros H; ok_steps H; unfold validate_checksum in E;
    case_hyp E; try done; bools; subst; [by left | by right; left].
Qed.

Lemma decode_rf_reads w d :
  decode_rf_profile w = Ok d -> reads [(0xD2, 0x73); (0xC7, 0x39)] w.
Proof.
  unfold decode_rf_profile, reads. destruct (word_bytes w) as [[[b0 b1] b2] b3].
  case_goal; [|case_goal; [|done]]; intros H; ok_steps H; unfold validate_checksum in E;
    case_hyp E; try done; bools; subst; [by left | by right; left].
Qed.

Lemma decode_radio_reads w d : decode_radio_settings w = Ok d -> reads [(0xD3, 0x73)] w.
Proof.
  unfold decode_radio_settings, reads. destruct (word_bytes w) as [[[b0 b1] b2] b3].
  case_goal; [done|]. intros H. ok_steps H. unfold validate_checksum in E.
  case_hyp E; [|done]. bools. subst. by left.
Qed.

(** The three kinds of persisted words. *)
Inductive persisted : Z -> (Z -> bool) -> Prop :=
| persisted_power p : PowerPayloadFits p ->
    persisted (encode_power_settings p) (fun w => is_ok (decode_power_settings w))
| persisted_rf p : u8 (profile_index p) ->
    persisted (encode_rf_profile p) (fun w => is_ok (decode_rf_profile w))
| persisted_radio p : RadioPayloadFits p ->
    persisted (encode_radio_settings p) (fun w => is_ok (decode_radio_settings w)).

Lemma is_ok_true {E A} (r : result E A) : is_ok r = true -> exists a, r = Ok a.
Proof. destruct r; [eauto | done]. Qed.

(** a persisted word with any one byte replaced by a different one is
    rejected by its decoder: a payload or checksum error by the checksum, and
    a damaged magic byte too, even when it becomes the magic of the legacy
    schema, because the legacy checksum state then differs. *)
Theorem single_byte_corruption_rejected w accepts i b :
  persisted w accepts -> (i < 4)%nat -> u8 b -> le_bytes 4 w !! i <> Some b ->
  accepts (corrupt w i b) = false.
Proof.
  intros Hw Hi Hb Hne. apply not_true_iff_false.
  destruct Hw as [p [Hd Hu]|p Hp|p (Hd & Hm & Hc & Hs)]; intros [d H]%is_ok_true.
  - apply decode_power_reads in H. revert H. unfold encode_power_settings in *.
    destruct (power_byte_roundtrip (pp_predictive_sleep_enabled p) _ Hd) as (H1 & _).
    apply corrupt_not_read; try done; try num.
    forall_list ltac:(by apply (bool_decide_eq_true_1 _)).
  - apply decode_rf_reads in H. revert H.
    apply corrupt_not_read; try done; try num.
    forall_list ltac:(by apply (bool_decide_eq_true_1 _)).
  - apply decode_radio_reads in H. revert H. unfold encode_radio_settings in *.
    destruct (radio_byte_roundtrip _ _ _ Hm Hc Hs) as (H1 & _).
    apply corrupt_not_read; try done; num.
Qed.

(** ** Witnesses *)

Definition sample_power : PowerSettingsPayload :=
  {| pp_predictive_sleep_enabled := true; pp_sleep_duration_secs := 45;
     pp_ui_idle_timeout_secs := 60 |}.

Lemma rtc_roundtrip_witness :
  decode_power_settings (encode_power_settings sample_power)
    = Ok {| value := sample_power; schema_version := 1; needs_migration := false |}.
Proof.
  apply (rtc_roundtrip sample_power {| profile_index := 3 |}
    {| rp_detection_threshold_db := 12; rp_magn_target := 6;
       rp_channel_bandwidth_index := 2; rp_carrier_sense_threshold := 5 |}).
  - split; cbn; num.
  - cbn; num.
  - unfold RadioPayloadFits; cbn; num.
Defined.

Lemma single_byte_corruption_rejected_witness :
  is_ok (decode_power_settings (corrupt (encode_power_settings sample_power) 0 0xA5)) = false.
Proof.
  apply (single_byte_corruption_rejected (encode_power_settings sample_power)
    (fun w => is_ok (decode_power_settings w)) 0 0xA5).
  - apply persisted_power. split; cbn; num.
  - lia.
  - num.
  - discriminate.
Defined.
