(* ===== verification/F32.v ===== *)
(** * IEEE single precision

    Rust's [f32] as the Standard Library's executable binary floats with 24
    bits of precision, rounding to nearest even. Only the operations the
    temperature path uses. *)
From S2P Require Import Prelude.
From Stdlib Require Export Floats.SpecFloat.

Definition f32 : Set := spec_float.
Definition f32_prec : Z := 24.
Definition f32_emax : Z := 128.

(** [f32::from(i16)], exact for 16-bit integers. *)
Definition f32_from (n : Z) : f32 := binary_normalize f32_prec f32_emax n 0 false.
Definition f32_add : f32 -> f32 -> f32 := SFadd f32_prec f32_emax.
Definition f32_sub : f32 -> f32 -> f32 := SFsub f32_prec f32_emax.
Definition f32_mul : f32 -> f32 -> f32 := SFmul f32_prec f32_emax.
Definition f32_div : f32 -> f32 -> f32 := SFdiv f32_prec f32_emax.
Definition f32_lt : f32 -> f32 -> bool := SFltb.
Definition f32_le : f32 -> f32 -> bool := SFleb.

(** The constants 10.0, 0.0 and 0.5. *)
Definition f32_ten : f32 := f32_from 10.
Definition f32_zero : f32 := f32_from 0.
Definition f32_half : f32 := f32_div (f32_from 1) (f32_from 2).

(** Truncation towards zero of a finite float. *)
Definition f32_trunc (x : f32) : Z :=
  match x with
  | S754_finite s m e =>
      let n := if 0 <=? e then Z.pos m * 2 ^ e else Z.pos m / 2 ^ (- e) in
      if s then - n else n
  | _ => 0
  end.

(** [x as i16]: truncation, saturating at the bounds; NaN becomes 0. *)
Definition f32_as_i16 (x : f32) : Z :=
  match x with
  | S754_infinity s => if s then smin 16 else smax 16
  | S754_nan => 0
  | _ => Z.max (smin 16) (Z.min (f32_trunc x) (smax 16))
  end.

Example f32_half_value : f32_half = S754_finite false 8388608 (-24).
Proof. reflexivity. Qed.
