(* ===== verification/Rubicson.v ===== *)
(** * Rubicson 433 MHz packet decoding

    [crates/rubicson/src/lib.rs]. Gap lengths in microseconds are classified
    into bits, packet breaks and resets; each row of five bytes collects one
    36-bit packet of the burst, checked by a CRC-8. Slice accesses that would
    panic are [None]. *)
From S2P Require Import Prelude F32.

Record RubicsonReading := {
  id : Z;
  channel : Z;
  battery_ok : bool;
  temperature_c : f32;
  crc_ok : bool
}.

Inductive DecodeError := InvalidLength | CrcMismatch.
Inductive BreakResetIgnore := Break | Reset | Ignore.

Definition BITS_IN_PACKET : nat := 36.
Definition BYTES_IN_PACKET : nat := 5.
Definition MAX_PACKETS : nat := 12.

(** [((value as i16) << (16 - n)) >> (16 - n)]. *)
Definition as_i16 (x : Z) : Z := if x mod 2 ^ 16 <? 2 ^ 15 then x mod 2 ^ 16 else x mod 2 ^ 16 - 2 ^ 16.
Definition sign_extend_nth_bit (value n : Z) : Z :=
  Z.shiftr (as_i16 (Z.shiftl (as_i16 value) (16 - n))) (16 - n).

Definition ZERO_LOWER_LIMIT : Z := 750.
Definition ZERO_UPPER_LIMIT : Z := 1500.
Definition ONE_UPPER_LIMIT : Z := 2500.
Definition BREAK_UPPER_LIMIT : Z := 4500.

Definition decode_gap (gap : Z) : result BreakResetIgnore Z :=
  if BREAK_UPPER_LIMIT <? gap then Err Reset
  else if ONE_UPPER_LIMIT <? gap then Err Break
  else if ZERO_UPPER_LIMIT <? gap then Ok 1
  else if ZERO_LOWER_LIMIT <? gap then Ok 0
  else Err Ignore.

Definition add_bit (buf : bytes) (index : nat) (val : Z) : bytes :=
  if Nat.leb (length buf) (index / 8) then buf
  else if negb (val =? 0) then
    alter (fun b => Z.lor b (Z.shiftl 1 (7 - Z.of_nat index mod 8))) (index / 8)%nat buf
  else buf.

(** ** CRC-8 *)

Fixpoint crc_bits (n : nat) (poly crc : Z) : Z :=
  match n with
  | O => crc
  | S n =>
      crc_bits n poly
        (if negb (Z.land crc 0x80 =? 0) then Z.lxor (wrap 8 (Z.shiftl crc 1)) poly
         else wrap 8 (Z.shiftl crc 1))
  end.
Definition crc_byte (poly crc byte : Z) : Z := crc_bits 8 poly (Z.lxor crc byte).
Definition calculate_crc8 (data : bytes) (poly crc : Z) : Z :=
  fold_left (crc_byte poly) data crc.

(** ** One packet *)

(** [None]: the slice has fewer than five bytes. *)
Definition decode_rubicson (bits : bytes) : option (result DecodeError RubicsonReading) :=
  match bits with
  | b0 :: b1 :: b2 :: b3 :: b4 :: _ =>
      let crc_buf := [b0; b1; b2; Z.land b3 0xF0;
                      Z.lor (wrap 8 (Z.shiftl (Z.land b3 0x0F) 4)) (Z.shiftr (Z.land b4 0xF0) 4)] in
      if negb (calculate_crc8 crc_buf 0x31 0x6c =? 0) then Some (Err CrcMismatch)
      else
        let temp_hi4 := Z.land b1 0x0F in
        let combined := Z.lor (wrap 16 (Z.shiftl temp_hi4 8)) b2 in
        let temp_raw := sign_extend_nth_bit combined 12 in
        Some (Ok {|
          id := b0;
          channel := Z.shiftr (Z.land b1 0x30) 4 + 1;
          battery_ok := negb (Z.land b1 0x80 =? 0);
          temperature_c := f32_div (f32_from temp_raw) f32_ten;
          crc_ok := true |})
  | _ => None
  end.

(** ** A burst of packets *)

(** [&buf[start..start + len]] and the write-back of a row changed through
    [&mut buf[start..start + len]]. *)
Definition slice (buf : bytes) (start len : nat) : option bytes :=
  if Nat.leb (start + len) (length buf) then Some (take len (drop start buf)) else None.
Definition splice (buf : bytes) (start : nat) (row : bytes) : bytes :=
  take start buf ++ row ++ drop (start + length row) buf.

Definition burst_result : Type := result bytes (nat * RubicsonReading).

(** The [for gap in pulses] loop with its early returns, and the final
    attempt after it. [bit_index] is a [usize] counter. *)
Fixpoint decode_loop (pulses : list Z) (bit_buffer : bytes) (bit_index bit_buffer_row : nat)
  : option burst_result :=
  let row_start_byte := (bit_buffer_row * BYTES_IN_PACKET)%nat in
  match pulses with
  | [] =>
      if Nat.eqb bit_index BITS_IN_PACKET then
        row_slice ← slice bit_buffer row_start_byte BYTES_IN_PACKET;
        decoded ← decode_rubicson row_slice;
        match decoded with
        | Ok reading => Some (Ok (bit_buffer_row, reading))
        | Err _ => Some (Err bit_buffer)
        end
      else Some (Err bit_buffer)
  | gap :: pulses =>
      if Nat.leb MAX_PACKETS bit_buffer_row then Some (Err bit_buffer)
      else match decode_gap gap with
      | Ok bit =>
          row_slice ← slice bit_buffer row_start_byte BYTES_IN_PACKET;
          decode_loop pulses (splice bit_buffer row_start_byte (add_bit row_slice bit_index bit))
            (S bit_index) bit_buffer_row
      | Err Ignore => decode_loop pulses bit_buffer bit_index bit_buffer_row
      | Err Break =>
          row_slice ← slice bit_buffer row_start_byte BYTES_IN_PACKET;
          decoded ← decode_rubicson row_slice;
          match decoded with
          | Ok reading => Some (Ok (bit_buffer_row, reading))
          | Err _ => decode_loop pulses bit_buffer 0 (S bit_buffer_row)
          end
      | Err Reset => Some (Err bit_buffer)
      end
  end.

Definition decode_gaps_iter (pulses : list Z) : option burst_result :=
  decode_loop pulses (replicate (BYTES_IN_PACKET * MAX_PACKETS) 0) 0 0.
Definition decode_gaps (pulses : list Z) : option burst_result := decode_gaps_iter pulses.

(** ** Specification: the packets of a burst

    [packets] reads a burst as the bit strings between breaks, up to a reset;
    an unterminated last string counts when it has exactly 36 bits. [pack]
    places a bit string into five bytes, most significant bit first, and
    drops bits past the fortieth. *)
Definition bit (b : Z) : Prop := b = 0 \/ b = 1.

Fixpoint packets (acc : list Z) (pulses : list Z) : list (list Z) :=
  match pulses with
  | [] => if Nat.eqb (length acc) BITS_IN_PACKET then [acc] else []
  | gap :: pulses =>
      match decode_gap gap with
      | Ok b => packets (acc ++ [b]) pulses
      | Err Ignore => packets acc pulses
      | Err Break => acc :: packets [] pulses
      | Err Reset => []
      end
  end.

Fixpoint byte_of (w : Z) (bits : list Z) : Z :=
  match bits with
  | [] => 0
  | b :: bits => b * w + byte_of (w / 2) bits
  end.
Definition byte_at (bits : list Z) (k : nat) : Z := byte_of 128 (take 8 (drop (8 * k) bits)).
Definition pack (bits : list Z) : bytes := byte_at bits <$> seq 0 BYTES_IN_PACKET.

(** The first of the burst's packets, at most twelve, that passes the check. *)
Fixpoint first_valid (i : nat) (rows : list (list Z)) : option (nat * RubicsonReading) :=
  match rows with
  | [] => None
  | row :: rows =>
      if Nat.leb MAX_PACKETS i then None
      else match decode_rubicson (pack row) with
      | Some (Ok reading) => Some (i, reading)
      | _ => first_valid (S i) rows
      end
  end.

(** The sensor's side: a reading as its 36-bit packet in five bytes. *)
Definition payload_prefix (id channel0 : Z) (battery : bool) (temp_raw : Z) : bytes :=
  [id; Z.lor (Z.lor (if battery then 0x80 else 0) (Z.shiftl channel0 4))
         (Z.land (Z.shiftr temp_raw 8) 0x0F); Z.land temp_raw 0xFF; 0xF0].
Definition build_payload (id channel0 : Z) (battery : bool) (temp_raw : Z) : bytes :=
  let p := payload_prefix id channel0 battery temp_raw in
  let crc := calculate_crc8 p 0x31 0x6c in
  take 3 p ++ [Z.lor 0xF0 (Z.shiftr (Z.land crc 0xF0) 4); Z.shiftl (Z.land crc 0x0F) 4].
Definition byte_bits (b : Z) : list Z :=
  (fun k => Z.land (Z.shiftr b k) 1) <$> [7; 6; 5; 4; 3; 2; 1; 0].
Definition payload_bits (p : bytes) : list Z := take BITS_IN_PACKET (mjoin (byte_bits <$> p)).

(** Gaps that transmit a bit string: each gap within its tolerance, with
    short pulses the receiver ignores anywhere between them. *)
Inductive transmits : list Z -> list Z -> Prop :=
| transmits_nil : transmits [] []
| transmits_zero gap gaps bits :
    750 < gap <= 1500 -> transmits gaps bits -> transmits (gap :: gaps) (0 :: bits)
| transmits_one gap gaps bits :
    1500 < gap <= 2500 -> transmits gaps bits -> transmits (gap :: gaps) (1 :: bits)
| transmits_ignored gap gaps bits :
    gap <= 750 -> transmits gaps bits -> transmits (gap :: gaps) bits.
Definition is_break (gap : Z) : Prop := 2500 < gap <= 4500.

(** Number of positions at which two bit strings differ. *)
Fixpoint distance (l k : list Z) : nat :=
  match l, k with
  | a :: l, b :: k => ((if (a =? b)%Z then 0 else 1) + distance l k)%nat
  | _, _ => 0%nat
  end.

(** ** Gap classification *)

Lemma decode_gap_ok gap b : decode_gap gap = Ok b -> bit b.
Proof.
  unfold decode_gap, bit. intros H. repeat case_hyp H; simplify_eq; auto.
Qed.

Lemma decode_gap_zero gap : 750 < gap <= 1500 -> decode_gap gap = Ok 0.
Proof.
  intros H. unfold decode_gap, BREAK_UPPER_LIMIT, ONE_UPPER_LIMIT, ZERO_UPPER_LIMIT,
    ZERO_LOWER_LIMIT. repeat case_goal; bools; try done; lia.
Qed.
Lemma decode_gap_one gap : 1500 < gap <= 2500 -> decode_gap gap = Ok 1.
Proof.
  intros H. unfold decode_gap, BREAK_UPPER_LIMIT, ONE_UPPER_LIMIT, ZERO_UPPER_LIMIT,
    ZERO_LOWER_LIMIT. repeat case_goal; bools; try done; lia.
Qed.
Lemma decode_gap_ignore gap : gap <= 750 -> decode_gap gap = Err Ignore.
Proof.
  intros H. unfold decode_gap, BREAK_UPPER_LIMIT, ONE_UPPER_LIMIT, ZERO_UPPER_LIMIT,
    ZERO_LOWER_LIMIT. repeat case_goal; bools; try done; lia.
Qed.
Lemma decode_gap_break gap : is_break gap -> decode_gap gap = Err Break.
Proof.
  intros H. unfold is_break, decode_gap, BREAK_UPPER_LIMIT, ONE_UPPER_LIMIT,
    ZERO_UPPER_LIMIT, ZERO_LOWER_LIMIT in *. repeat case_goal; bools; try done; lia.
Qed.

(** ** Bit strings: exhaustive checks *)

Fixpoint all_bits (n : nat) : list (list Z) :=
  match n with
  | O => [[]]
  | S n => (cons 0 <$> all_bits n) ++ (cons 1 <$> all_bits n)
  end.

Lemma all_bits_complete l : Forall bit l -> l ∈ all_bits (length l).
Proof.
  induction 1 as [|b l [-> | ->] _ IH]; cbn [length all_bits];
    [set_solver | apply elem_of_app; left | apply elem_of_app; right];
    by apply list_elem_of_fmap_2.
Qed.

Lemma forall_bits (n : nat) (f : list Z -> bool) :
  forallb f (all_bits n) = true -> forall l, length l = n -> Forall bit l -> f l = true.
Proof.
  intros H l <- Hl. rewrite forallb_forall in H.
  by apply H, list_elem_of_In, all_bits_complete.
Qed.

Lemma byte_of_snoc l b :
  Forall bit l -> bit b -> (length l < 8)%nat ->
  byte_of 128 (l ++ [b]) =
    (if negb (b =? 0) then Z.lor (byte_of 128 l) (Z.shiftl 1 (7 - Z.of_nat (length l)))
     else byte_of 128 l).
Proof.
  intros Hl Hb Hlen.
  assert (forallb (fun n => forallb (fun l =>
    (byte_of 128 (l ++ [0]) =? byte_of 128 l) &&
    (byte_of 128 (l ++ [1]) =?
       Z.lor (byte_of 128 l) (Z.shiftl 1 (7 - Z.of_nat (length l))))) (all_bits n))
    (seq 0 8) = true) as Hall by (vm_compute; reflexivity).
  rewrite forallb_forall in Hall.
  specialize (Hall (length l) ltac:(apply in_seq; lia)).
  eapply forall_bits in Hall; [|done..].
  bools. destruct Hb as [-> | ->]; done.
Qed.

Lemma byte_of_u8 l : Forall bit l -> (length l <= 8)%nat -> u8 (byte_of 128 l).
Proof.
  intros Hl Hlen.
  assert (forallb (fun n => forallb (fun l => bool_decide (u8 (byte_of 128 l)))
    (all_bits n)) (seq 0 9) = true) as Hall by (vm_compute; reflexivity).
  rewrite forallb_forall in Hall.
  specialize (Hall (length l) ltac:(apply in_seq; lia)).
  eapply forall_bits in Hall; [|done..]. by bools.
Qed.

Lemma length_pack bits : length (pack bits) = 5%nat.
Proof. reflexivity. Qed.

Lemma pack_is_bytes bits : Forall bit bits -> is_bytes (pack bits).
Proof.
  intros H. unfold pack. apply Forall_fmap, Forall_forall. intros k _. cbn.
  apply byte_of_u8; [by apply Forall_take, Forall_drop |]. rewrite length_take. lia.
Qed.

(** Appending a bit to the string is [add_bit] on its bytes. *)
Lemma byte_at_snoc acc b k :
  Forall bit acc -> bit b ->
  byte_at (acc ++ [b]) k =
    if Nat.eqb k (length acc / 8) then
      if negb (b =? 0)
      then Z.lor (byte_at acc k) (Z.shiftl 1 (7 - Z.of_nat (length acc) mod 8))
      else byte_at acc k
    else byte_at acc k.
Proof.
  intros Hacc Hb. unfold byte_at.
  pose proof (Nat.div_mod_eq (length acc) 8) as Hdm.
  pose proof (Nat.mod_upper_bound (length acc) 8 ltac:(done)) as Hm.
  destruct (Nat.eqb_spec k (length acc / 8)) as [-> | Hk].
  - rewrite drop_app_le by lia.
    rewrite !take_ge by (rewrite ?length_app, ?length_drop; cbn [length]; lia).
    rewrite byte_of_snoc by (rewrite ?length_drop; try lia; auto using Forall_drop).
    rewrite length_drop. replace (length acc - 8 * (length acc / 8))%nat
      with (length acc mod 8)%nat by lia. by rewrite Nat2Z.inj_mod.
  - destruct (decide (k < length acc / 8)%nat).
    + rewrite drop_app_le, take_app_le by (rewrite ?length_drop; lia). done.
    + rewrite !drop_ge by (rewrite ?length_app; cbn; lia). done.
Qed.

Lemma pack_snoc acc b :
  Forall bit acc -> bit b -> pack (acc ++ [b]) = add_bit (pack acc) (length acc) b.
Proof.
  intros Hacc Hb. apply list_eq. intros k.
  assert (Hp : pack (acc ++ [b]) !! k =
    (if decide (k < 5)%nat then Some (byte_at (acc ++ [b]) k) else None)).
  { unfold pack. do 5 (destruct k as [|k]; [done|]). case_decide; [lia|done]. }
  assert (Hq : pack acc !! k = (if decide (k < 5)%nat then Some (byte_at acc k) else None)).
  { unfold pack. do 5 (destruct k as [|k]; [done|]). case_decide; [lia|done]. }
  rewrite Hp, byte_at_snoc by done. unfold add_bit. rewrite length_pack.
  destruct (Nat.leb_spec 5 (length acc / 8)).
  { rewrite Hq. case_decide; [|done]. destruct (Nat.eqb_spec k (length acc / 8)); [lia|done]. }
  destruct (negb (b =? 0)) eqn:E.
  - destruct (Nat.eqb_spec k (length acc / 8)) as [-> | Hk].
    + rewrite list_lookup_alter_eq, Hq. by case_decide.
    + rewrite list_lookup_alter_ne by done. by rewrite Hq.
  - rewrite Hq. by destruct (Nat.eqb k (length acc / 8)).
Qed.

(** ** The loop follows the specification *)

Lemma slice_middle pre row post start :
  length pre = start -> slice (pre ++ row ++ post) start (length row) = Some row.
Proof.
  intros <-. unfold slice. rewrite !length_app.
  destruct (Nat.leb_spec (length pre + length row) (length pre + (length row + length post)));
    [|lia].
  by rewrite drop_app_length, take_app_length.
Qed.

Lemma splice_middle pre row row' post start :
  length pre = start -> length row' = length row ->
  splice (pre ++ row ++ post) start row' = pre ++ row' ++ post.
Proof.
  intros <- Hl. unfold splice. rewrite take_app_length, Hl.
  by rewrite drop_app_add, drop_app_length.
Qed.

Lemma decode_rubicson_pack bits :
  exists r, decode_rubicson (pack bits) = Some r.
Proof. unfold pack. cbn -[byte_at calculate_crc8]. case_goal; eauto. Qed.

Lemma length_add_bit buf index val : length (add_bit buf index val) = length buf.
Proof. unfold add_bit. repeat case_goal; by rewrite ?length_alter. Qed.

Definition decode_loop_agrees (res : option burst_result) (spec : option (nat * RubicsonReading))
  : Prop :=
  match spec with
  | Some ir => res = Some (Ok ir)
  | None => exists buf, res = Some (Err buf) /\ length buf = 60%nat
  end.

Lemma decode_loop_full pulses buf :
  length buf = 60%nat ->
  exists buf', decode_loop pulses buf 0 MAX_PACKETS = Some (Err buf') /\ length buf' = 60%nat.
Proof. intros H. exists buf. by destruct pulses. Qed.

Lemma first_valid_full rows : first_valid MAX_PACKETS rows = None.
Proof. by destruct rows. Qed.

(** The loop's step, gap by gap, on a row in the middle of the buffer. The
    CRC is kept folded: a decode is only compared as a whole. *)
Lemma some_bind {A B} (x : A) (f : A -> option B) : (Some x ≫= f) = f x.
Proof. reflexivity. Qed.

Definition try_row (row : bytes) (found : RubicsonReading -> option burst_result)
  (failed : option burst_result) : option burst_result :=
  decoded ← decode_rubicson row;
  match decoded with Ok reading => found reading | Err _ => failed end.

Lemma try_row_known row r found failed :
  decode_rubicson row = Some r ->
  try_row row found failed = match r with Ok x => found x | Err _ => failed end.
Proof. intros H. unfold try_row. rewrite H. reflexivity. Qed.

Lemma decode_loop_nil_eq buf i row :
  decode_loop [] buf i row =
    (if Nat.eqb i BITS_IN_PACKET then
       s ← slice buf (row * BYTES_IN_PACKET) BYTES_IN_PACKET;
       try_row s (fun x => Some (Ok (row, x))) (Some (Err buf))
     else Some (Err buf)).
Proof. reflexivity. Qed.

Lemma decode_loop_cons_eq gap pulses buf i row :
  decode_loop (gap :: pulses) buf i row =
    (if Nat.leb MAX_PACKETS row then Some (Err buf)
     else match decode_gap gap with
     | Ok b =>
         s ← slice buf (row * BYTES_IN_PACKET) BYTES_IN_PACKET;
         decode_loop pulses (splice buf (row * BYTES_IN_PACKET) (add_bit s i b)) (S i) row
     | Err Ignore => decode_loop pulses buf i row
     | Err Break =>
         s ← slice buf (row * BYTES_IN_PACKET) BYTES_IN_PACKET;
         try_row s (fun x => Some (Ok (row, x))) (decode_loop pulses buf 0 (S row))
     | Err Reset => Some (Err buf)
     end).
Proof. reflexivity. Qed.

Section steps.
Context (pre acc post : list Z) (row : nat) (Hpre : length pre = (row * BYTES_IN_PACKET)%nat).

Lemma row_slice : slice (pre ++ pack acc ++ post) (row * BYTES_IN_PACKET) BYTES_IN_PACKET
  = Some (pack acc).
Proof. exact (slice_middle pre (pack acc) post _ Hpre). Qed.

Lemma decode_loop_end r :
  length acc = BITS_IN_PACKET -> decode_rubicson (pack acc) = Some r ->
  decode_loop [] (pre ++ pack acc ++ post) (length acc) row =
    match r with
    | Ok x => Some (Ok (row, x))
    | Err _ => Some (Err (pre ++ pack acc ++ post))
    end.
Proof.
  intros Hl Hr. rewrite decode_loop_nil_eq, Hl, Nat.eqb_refl, row_slice, some_bind.
  by apply try_row_known.
Qed.

Lemma decode_loop_bit gap pulses b :
  (row < MAX_PACKETS)%nat -> Forall bit acc -> decode_gap gap = Ok b ->
  decode_loop (gap :: pulses) (pre ++ pack acc ++ post) (length acc) row =
    decode_loop pulses (pre ++ pack (acc ++ [b]) ++ post) (length (acc ++ [b])) row.
Proof.
  intros Hrow Hacc Hgap. rewrite decode_loop_cons_eq.
  destruct (Nat.leb_spec MAX_PACKETS row) as [Hc|_]; [lia|]. rewrite Hgap, row_slice, some_bind.
  rewrite splice_middle by (rewrite ?length_add_bit; done).
  rewrite <- pack_snoc by eauto using decode_gap_ok.
  by rewrite length_app, Nat.add_1_r.
Qed.

Lemma decode_loop_break gap pulses r :
  (row < MAX_PACKETS)%nat -> decode_gap gap = Err Break ->
  decode_rubicson (pack acc) = Some r ->
  decode_loop (gap :: pulses) (pre ++ pack acc ++ post) (length acc) row =
    match r with
    | Ok x => Some (Ok (row, x))
    | Err _ => decode_loop pulses (pre ++ pack acc ++ post) 0 (S row)
    end.
Proof.
  intros Hrow Hgap Hr. rewrite decode_loop_cons_eq.
  destruct (Nat.leb_spec MAX_PACKETS row) as [Hc|_]; [lia|]. rewrite Hgap, row_slice, some_bind.
  by apply try_row_known.
Qed.
End steps.

Definition blank (row : nat) : bytes := replicate (BYTES_IN_PACKET * (MAX_PACKETS - 1 - row)) 0.

Lemma blank_next row :
  (S row < MAX_PACKETS)%nat -> blank row = pack [] ++ blank (S row).
Proof.
  intros H. change (pack []) with (replicate 5 0). unfold blank. rewrite <- replicate_add.
  f_equal. unfold BYTES_IN_PACKET, MAX_PACKETS in *. lia.
Qed.

Lemma length_buffer pre acc row :
  length pre = (row * BYTES_IN_PACKET)%nat -> (row < MAX_PACKETS)%nat ->
  length (pre ++ pack acc ++ blank row) = 60%nat.
Proof.
  intros Hpre Hrow. unfold blank. rewrite !length_app, length_replicate, Hpre, length_pack.
  unfold MAX_PACKETS, BYTES_IN_PACKET in *; lia.
Qed.

Lemma decode_loop_spec pulses acc pre row :
  Forall bit acc -> (row < MAX_PACKETS)%nat -> length pre = (row * BYTES_IN_PACKET)%nat ->
  decode_loop_agrees (decode_loop pulses (pre ++ pack acc ++ blank row) (length acc) row)
    (first_valid row (packets acc pulses)).
Proof.
  revert acc pre row. induction pulses as [|gap pulses IH]; intros acc pre row Hacc Hrow Hpre;
    cbn [packets]; pose proof (length_buffer pre acc row Hpre Hrow) as Hlen;
    destruct (decode_rubicson_pack acc) as [r Hr];
    destruct (Nat.leb_spec MAX_PACKETS row) as [Hc|_]; try lia.
  - destruct (Nat.eqb_spec (length acc) BITS_IN_PACKET) as [Hl|Hl].
    + erewrite decode_loop_end by done. cbn [first_valid]. rewrite Hr.
      destruct (Nat.leb_spec MAX_PACKETS row) as [Hc|_]; [lia|].
      destruct r; [done | by eexists].
    + rewrite decode_loop_nil_eq. cbn [first_valid]. apply Nat.eqb_neq in Hl as ->. by eexists.
  - destruct (decode_gap gap) as [b | []] eqn:Hgap.
    + erewrite decode_loop_bit by done. apply IH; try done.
      apply Forall_app; eauto using decode_gap_ok.
    + erewrite decode_loop_break by done. cbn [first_valid]. rewrite Hr.
      destruct (Nat.leb_spec MAX_PACKETS row) as [Hc|_]; [lia|].
      destruct r as [x|e]; [done|].
      destruct (decide (S row < MAX_PACKETS)%nat) as [Hlt|].
      * rewrite blank_next, app_assoc by done. apply (IH []); try done.
        rewrite length_app, Hpre, length_pack. unfold BYTES_IN_PACKET. lia.
      * replace (S row) with MAX_PACKETS by lia.
        rewrite first_valid_full. by apply decode_loop_full.
    + rewrite decode_loop_cons_eq, Hgap. cbn [first_valid].
      destruct (Nat.leb_spec MAX_PACKETS row) as [Hc|_]; [lia|]. by eexists.
    + rewrite decode_loop_cons_eq, Hgap.
      destruct (Nat.leb_spec MAX_PACKETS row) as [Hc|_]; [lia|]. by apply IH.
Qed.

Lemma decode_gaps_agrees pulses :
  decode_loop_agrees (decode_gaps pulses) (first_valid 0 (packets [] pulses)).
Proof.
  unfold decode_gaps, decode_gaps_iter.
  change (replicate (BYTES_IN_PACKET * MAX_PACKETS) 0) with ([] ++ pack [] ++ blank 0).
  change 0%nat with (length (@nil Z)) at 2.
  apply decode_loop_spec; [done | unfold MAX_PACKETS; lia | done].
Qed.

(** the burst decoder never panics, and its result is that of the
    specification: the first of the burst's at most twelve packets whose five
    bytes pass the CRC check, with its index; when there is none, an error
    with the 60-byte buffer. *)
Theorem decode_gaps_spec (pulses : list Z) :
  match first_valid 0 (packets [] pulses) with
  | Some (i, reading) => decode_gaps pulses = Some (Ok (i, reading))
  | None => exists buf, decode_gaps pulses = Some (Err buf) /\ length buf = 60%nat
  end.
Proof.
  pose proof (decode_gaps_agrees pulses) as H. unfold decode_loop_agrees in H.
  destruct (first_valid 0 (packets [] pulses)) as [[i x]|]; exact H.
Qed.

(** ** What the sensor sends is what the decoder reports *)

Lemma transmits_bits gaps bits : transmits gaps bits -> Forall bit bits.
Proof. induction 1; unfold bit in *; auto. Qed.

Lemma packets_transmits gaps bits acc rest :
  transmits gaps bits -> packets acc (gaps ++ rest) = packets (acc ++ bits) rest.
Proof.
  intros H. revert acc. induction H as [|gap gaps bits Hg _ IH|gap gaps bits Hg _ IH|
    gap gaps bits Hg _ IH]; intros acc; cbn [app packets].
  - by rewrite app_nil_r.
  - rewrite decode_gap_zero, IH, <- app_assoc by done. done.
  - rewrite decode_gap_one, IH, <- app_assoc by done. done.
  - rewrite decode_gap_ignore, IH by done. done.
Qed.

Lemma packets_row gaps bits b rest :
  transmits gaps bits -> is_break b ->
  packets [] (gaps ++ b :: rest) = bits :: packets [] rest.
Proof.
  intros Ht Hb. rewrite (packets_transmits _ bits) by done. cbn [app packets].
  by rewrite decode_gap_break.
Qed.

(** A repeat of the burst that the receiver rejects: it transmits some bits
    whose packet fails the check, and a break. *)
Definition rejected_repeat (gaps : list Z) : Prop :=
  exists g bits b, gaps = g ++ [b] /\ transmits g bits /\ is_break b /\
    decode_rubicson (pack bits) = Some (Err CrcMismatch).

Lemma first_valid_rejected repeats rest i :
  Forall rejected_repeat repeats -> (i + length repeats < MAX_PACKETS)%nat ->
  first_valid i (packets [] (mjoin repeats ++ rest)) =
  first_valid (i + length repeats) (packets [] rest).
Proof.
  intros H. revert i. induction H as [|r repeats (g & bits & b & -> & Ht & Hb & Hd) _ IH];
    intros i Hi; cbn [length] in *.
  - by rewrite Nat.add_0_r.
  - cbn [mjoin list_join]. rewrite <- !app_assoc. cbn [app].
    erewrite packets_row by done. cbn [first_valid].
    destruct (Nat.leb_spec MAX_PACKETS i); [lia|]. rewrite Hd, IH by lia.
    f_equal. lia.
Qed.

Lemma crc_u8 poly crc byte : u8 poly -> u8 crc -> u8 byte -> u8 (crc_byte poly crc byte).
Proof.
  intros Hp Hc Hb. assert (Hx : forall a b, u8 a -> u8 b -> u8 (Z.lxor a b)).
  { intros a b Ha Hb'. refine (bool_decide_eq_true_1 _ (forall_u8_pair
      (fun a b => bool_decide (u8 (Z.lxor a b))) _ a b Ha Hb')). vm_compute; reflexivity. }
  unfold crc_byte. generalize (Hx _ _ Hc Hb). generalize (Z.lxor crc byte). generalize 8%nat.
  induction n; intros c Hcc; cbn [crc_bits]; [done|]. apply IHn.
  assert (u8 (wrap 8 (Z.shiftl c 1))) by (unfold wrap, uint; apply Z.mod_pos_bound; lia).
  case_goal; auto.
Qed.

(** Absorbing the current CRC as the next byte leaves zero. *)
Lemma crc_absorbs crc : u8 crc -> crc_byte 0x31 crc crc = 0.
Proof.
  intros H. unfold crc_byte. rewrite Z.lxor_nilpotent. reflexivity.
Qed.

Lemma is_bytes_crc data crc : is_bytes data -> u8 crc -> u8 (calculate_crc8 data 0x31 crc).
Proof.
  intros H. revert crc. induction H as [|b data Hb _ IH]; intros crc Hcrc; [done|].
  apply IH, crc_u8; [num | done..].
Qed.

Lemma calculate_crc8_app l k poly crc :
  calculate_crc8 (l ++ k) poly crc = calculate_crc8 k poly (calculate_crc8 l poly crc).
Proof. apply fold_left_app. Qed.

Lemma pack_payload_bits p : is_bytes p -> length p = 5%nat ->
  pack (payload_bits p) = take 4 p ++ [Z.land (nth 4 p 0) 0xF0].
Proof.
  intros Hp Hl. destruct p as [|a [|b [|c [|d [|e [|]]]]]]; try discriminate Hl.
  decompose_Forall_hyps.
  assert (H8 : forall x, u8 x -> byte_of 128 (byte_bits x) = x).
  { intros x Hx. apply Z.eqb_eq, (forall_u8 (fun x => byte_of 128 (byte_bits x) =? x));
      [vm_compute; reflexivity | done]. }
  assert (H4 : forall x, u8 x -> byte_of 128 (take 4 (byte_bits x)) = Z.land x 0xF0).
  { intros x Hx. apply Z.eqb_eq, (forall_u8 (fun x =>
      byte_of 128 (take 4 (byte_bits x)) =? Z.land x 0xF0)); [vm_compute; reflexivity | done]. }
  rewrite <- (H8 a), <- (H8 b), <- (H8 c), <- (H8 d) at 2 by done.
  cbn [nth]. rewrite <- H4 by done. reflexivity.
Qed.

Definition reading_of (id channel0 : Z) (battery : bool) (temp_raw : Z) : RubicsonReading := {|
  id := id; channel := channel0 + 1; battery_ok := battery;
  temperature_c := f32_div (f32_from temp_raw) f32_ten; crc_ok := true |}.

(** The fields of the packet's second byte, and the temperature's nibbles. *)
Definition header_byte (channel0 : Z) (battery : bool) (temp_raw : Z) : Z :=
  Z.lor (Z.lor (if battery then 0x80 else 0) (Z.shiftl channel0 4))
    (Z.land (Z.shiftr temp_raw 8) 0x0F).

Lemma header_byte_fields channel0 battery temp_raw :
  0 <= channel0 < 4 -> -2048 <= temp_raw < 2048 ->
  let b1 := header_byte channel0 battery temp_raw in
  u8 b1 /\ Z.shiftr (Z.land b1 0x30) 4 = channel0 /\ negb (Z.land b1 0x80 =? 0) = battery /\
  sign_extend_nth_bit (Z.lor (wrap 16 (Z.shiftl (Z.land b1 0x0F) 8)) (Z.land temp_raw 0xFF)) 12
    = temp_raw.
Proof.
  intros Hc Ht b1.
  pose (f := fun t => forallb (fun c => forallb (fun b =>
    let b1 := header_byte c b (t - 2048) in
    bool_decide (u8 b1) && (Z.shiftr (Z.land b1 0x30) 4 =? c) &&
    eqb (negb (Z.land b1 0x80 =? 0)) b &&
    (sign_extend_nth_bit (Z.lor (wrap 16 (Z.shiftl (Z.land b1 0x0F) 8))
       (Z.land (t - 2048) 0xFF)) 12 =? (t - 2048))) [false; true]) (seqZ 0 4)).
  assert (f (temp_raw + 2048) = true) as Hf.
  { apply (forall_below (Z.to_nat 4096)); [vm_compute; reflexivity | lia]. }
  unfold f in Hf. replace (temp_raw + 2048 - 2048) with temp_raw in Hf by lia.
  rewrite forallb_forall in Hf.
  specialize (Hf channel0 ltac:(apply list_elem_of_In, elem_of_seqZ; lia)).
  rewrite forallb_forall in Hf.
  specialize (Hf battery ltac:(destruct battery; cbn; auto)). fold b1 in Hf. bools.
  by split_and!; try apply eqb_prop.
Qed.

(** The CRC byte's nibbles recombine and leave the constant nibble. *)
Lemma crc_nibbles crc : u8 crc ->
  let b3 := Z.lor 0xF0 (Z.shiftr (Z.land crc 0xF0) 4) in
  let b4 := Z.shiftl (Z.land crc 0x0F) 4 in
  u8 b3 /\ u8 b4 /\ Z.land b3 0xF0 = 0xF0 /\
  Z.lor (wrap 8 (Z.shiftl (Z.land b3 0x0F) 4))
    (Z.shiftr (Z.land (Z.land b4 0xF0) 0xF0) 4) = crc.
Proof.
  intros Hc b3 b4.
  pose (f := fun crc => let b3 := Z.lor 0xF0 (Z.shiftr (Z.land crc 0xF0) 4) in
    let b4 := Z.shiftl (Z.land crc 0x0F) 4 in
    bool_decide (u8 b3) && bool_decide (u8 b4) && (Z.land b3 0xF0 =? 0xF0) &&
    (Z.lor (wrap 8 (Z.shiftl (Z.land b3 0x0F) 4))
       (Z.shiftr (Z.land (Z.land b4 0xF0) 0xF0) 4) =? crc)).
  assert (f crc = true) as H.
  { apply (forall_u8 f); [vm_compute; reflexivity | done]. }
  unfold f in H. cbv zeta in H. fold b3 b4 in H. bools. auto.
Qed.

(** The check on five bytes laid out as the decoder reads them. *)
Lemma decode_rubicson_ok b0 b1 b2 b3 b4 crc :
  Z.land b3 0xF0 = 0xF0 ->
  Z.lor (wrap 8 (Z.shiftl (Z.land b3 0x0F) 4)) (Z.shiftr (Z.land b4 0xF0) 4) = crc ->
  calculate_crc8 [b0; b1; b2; 0xF0] 0x31 0x6c = crc ->
  decode_rubicson [b0; b1; b2; b3; b4] =
    Some (Ok {| id := b0; channel := Z.shiftr (Z.land b1 0x30) 4 + 1;
      battery_ok := negb (Z.land b1 0x80 =? 0);
      temperature_c := f32_div (f32_from (sign_extend_nth_bit
        (Z.lor (wrap 16 (Z.shiftl (Z.land b1 0x0F) 8)) b2) 12)) f32_ten;
      crc_ok := true |}).
Proof.
  intros H3 H4 Hcrc. unfold decode_rubicson. rewrite H3, H4.
  assert (calculate_crc8 [b0; b1; b2; 0xF0; crc] 0x31 0x6c = 0) as ->; [|reflexivity].
  pose proof (calculate_crc8_app [b0; b1; b2; 0xF0] [crc] 0x31 0x6c) as Hz.
  cbn [app] in Hz. rewrite Hz, Hcrc. unfold calculate_crc8, fold_left, crc_byte.
  rewrite Z.lxor_nilpotent. reflexivity.
Qed.

Lemma decode_payload id channel0 battery temp_raw :
  u8 id -> 0 <= channel0 < 4 -> -2048 <= temp_raw < 2048 ->
  decode_rubicson (pack (payload_bits (build_payload id channel0 battery temp_raw))) =
    Some (Ok (reading_of id channel0 battery temp_raw)).
Proof.
  intros Hid Hc Ht.
  destruct (header_byte_fields channel0 battery temp_raw Hc Ht) as (H1 & Hch & Hbat & Htemp).
  assert (Hlo : u8 (Z.land temp_raw 0xFF)).
  { change 0xFF with (Z.ones 8). rewrite Z.land_ones by lia. apply Z.mod_pos_bound. lia. }
  set (crc := calculate_crc8 (payload_prefix id channel0 battery temp_raw) 0x31 0x6c).
  assert (Hcrc : u8 crc).
  { apply is_bytes_crc; [|num]. unfold payload_prefix. fold (header_byte channel0 battery temp_raw).
    forall_list ltac:(assumption || num). }
  destruct (crc_nibbles crc Hcrc) as (H3 & H4 & Hf & Hr).
  rewrite pack_payload_bits;
    [| unfold build_payload, payload_prefix; fold crc; cbn [take app];
       fold (header_byte channel0 battery temp_raw);
       forall_list ltac:(assumption || num)
     | reflexivity].
  unfold build_payload. fold crc. unfold payload_prefix. cbn [take app nth].
  fold (header_byte channel0 battery temp_raw).
  rewrite (decode_rubicson_ok id (header_byte channel0 battery temp_raw) (Z.land temp_raw 0xFF)
    _ _ crc Hf Hr eq_refl).
  by rewrite Hch, Hbat, Htemp.
Qed.

(** The first good repeat of a burst is the packet that counts. *)
Lemma first_valid_transmitted garbled gaps rest brk id channel0 battery temp_raw :
  Forall rejected_repeat garbled -> (length garbled < MAX_PACKETS)%nat ->
  u8 id -> 0 <= channel0 < 4 -> -2048 <= temp_raw < 2048 ->
  transmits gaps (payload_bits (build_payload id channel0 battery temp_raw)) -> is_break brk ->
  first_valid 0 (packets [] (mjoin garbled ++ gaps ++ brk :: rest)) =
    Some (length garbled, reading_of id channel0 battery temp_raw).
Proof.
  intros. rewrite first_valid_rejected by done. erewrite packets_row by done.
  cbn [first_valid]. rewrite decode_payload by done.
  by destruct (Nat.leb_spec MAX_PACKETS (0 + length garbled)); [lia|].
Qed.

(** Whatever the gaps, a reading has the sensor's ranges. *)
Lemma packets_bits pulses acc : Forall bit acc -> Forall (Forall bit) (packets acc pulses).
Proof.
  revert acc. induction pulses as [|gap pulses IH]; intros acc Hacc; cbn [packets].
  - case_goal; by repeat constructor.
  - destruct (decode_gap gap) as [b|[]] eqn:E; [|by constructor; [|apply IH] | done | by apply IH].
    apply IH, Forall_app. eauto using decode_gap_ok.
Qed.

Lemma first_valid_elem i rows j r : first_valid i rows = Some (j, r) ->
  exists row, row ∈ rows /\ decode_rubicson (pack row) = Some (Ok r).
Proof.
  revert i. induction rows as [|row rows IH]; intros i H; cbn [first_valid] in H; [done|].
  destruct (Nat.leb MAX_PACKETS i); [done|].
  destruct (decode_rubicson (pack row)) as [[x|e]|] eqn:E; try done.
  - injection H as _ <-. exists row. split; [by left | done].
  - destruct (IH _ H) as (row2 & Hin & Hd). exists row2. split; [by right | done].
  - destruct (IH _ H) as (row2 & Hin & Hd). exists row2. split; [by right | done].
Qed.

Lemma decode_rubicson_typed p r : is_bytes p -> decode_rubicson p = Some (Ok r) ->
  u8 (id r) /\ 1 <= channel r <= 4.
Proof.
  intros Hp. unfold decode_rubicson. destruct Hp as [|b0 ? H0 [|b1 ? H1 [|b2 ? _ [|b3 ? _ [|b4 ? _ _]]]]];
    try discriminate.
  case_goal; [discriminate|]. intros Hr. apply (inj Some) in Hr. apply ok_inj in Hr as <-.
  cbn [id channel]. split; [done|].
  assert (between 1 4 (Z.shiftr (Z.land b1 0x30) 4 + 1) = true) as Hb.
  { apply (forall_u8 (fun b => between 1 4 (Z.shiftr (Z.land b 0x30) 4 + 1))); [|done].
    vm_compute. reflexivity. }
  unfold between in Hb. bools. lia.
Qed.

Lemma decoded_typed pulses i r : decode_gaps pulses = Some (Ok (i, r)) ->
  u8 (id r) /\ 1 <= channel r <= 4.
Proof.
  intros H. pose proof (decode_gaps_agrees pulses) as Ha. unfold decode_loop_agrees in Ha.
  destruct (first_valid 0 (packets [] pulses)) as [[j x]|] eqn:E.
  - rewrite Ha in H. injection H as <- <-. apply first_valid_elem in E as (row & Hin & Hd).
    eapply decode_rubicson_typed; [|exact Hd]. apply pack_is_bytes.
    exact (proj1 (Forall_forall _ _) (packets_bits pulses [] ltac:(constructor)) _ Hin).
  - destruct Ha as (buf & Ha & _). congruence.
Qed.

(** C5: end to end: when a burst's first repeats were garbled and rejected,
    the decoder reports the first repeat whose gaps are within tolerance, and
    the reading it reports is the one the sensor encoded: its identity,
    channel, battery flag and twelve-bit signed temperature. *)
Theorem decode_gaps_roundtrip (garbled : list (list Z)) (gaps rest : list Z) (brk : Z)
    (id channel0 : Z) (battery : bool) (temp_raw : Z)
    (Hgarbled : Forall rejected_repeat garbled)
    (Hrows : (length garbled < MAX_PACKETS)%nat)
    (Hid : u8 id) (Hchannel : 0 <= channel0 < 4) (Htemp : -2048 <= temp_raw < 2048)
    (Hgaps : transmits gaps (payload_bits (build_payload id channel0 battery temp_raw)))
    (Hbrk : is_break brk) :
  decode_gaps (mjoin garbled ++ gaps ++ brk :: rest) =
    Some (Ok (length garbled, reading_of id channel0 battery temp_raw)).
Proof.
  pose proof (decode_gaps_agrees (mjoin garbled ++ gaps ++ brk :: rest)) as H.
  by erewrite first_valid_transmitted in H.
Qed.

Definition nominal_gaps (bits : list Z) : list Z := (fun b => if b =? 0 then 1000 else 2000) <$> bits.
Lemma nominal_gaps_transmit bits : Forall bit bits -> transmits (nominal_gaps bits) bits.
Proof.
  induction 1 as [|b bits [-> | ->] _ IH]; cbn; [apply transmits_nil | |];
    [apply transmits_zero | apply transmits_one]; try done; lia.
Qed.

(** The sensor of the captured test data: id 230, channel 1, -9.4 °C. *)
Example decode_gaps_roundtrip_witness :
  let garbled := nominal_gaps [0; 1; 1] ++ [4000] in
  let gaps := nominal_gaps (payload_bits (build_payload 230 0 true (-94))) in
  rejected_repeat garbled /\
  decode_gaps (mjoin [garbled] ++ gaps ++ [2600]) = Some (Ok (1%nat, reading_of 230 0 true (-94))).
Proof.
  intros garbled gaps.
  assert (rejected_repeat garbled) as Hg.
  { exists (nominal_gaps [0; 1; 1]), [0; 1; 1], 4000. split_and!; [done | | by vm_compute |
      vm_compute; reflexivity].
    apply nominal_gaps_transmit. forall_list ltac:(unfold bit; auto). }
  split; [exact Hg|].
  apply (decode_gaps_roundtrip [garbled] gaps [] 2600 230 0 true (-94));
    [by constructor | unfold MAX_PACKETS; cbn; lia | num | lia | lia | | by vm_compute].
  apply nominal_gaps_transmit. vm_compute. forall_list ltac:(unfold bit; auto).
Defined.

(** ** Transmission errors the check detects

    The CRC is linear over exclusive or, so an accepted packet with some bits
    flipped passes exactly when the flipped positions alone have a zero
    syndrome; no pattern of one to three flips among the 36 bits does. *)

Lemma crc_bits_linear a b : u8 a -> u8 b ->
  crc_bits 8 0x31 (Z.lxor a b) = Z.lxor (crc_bits 8 0x31 a) (crc_bits 8 0x31 b).
Proof.
  intros Ha Hb. apply Z.eqb_eq. revert a b Ha Hb.
  apply (forall_u8_pair (fun a b => crc_bits 8 0x31 (Z.lxor a b) =?
    Z.lxor (crc_bits 8 0x31 a) (crc_bits 8 0x31 b))). vm_compute. reflexivity.
Qed.

Definition xor_list : list Z -> list Z -> list Z := zip_with Z.lxor.

Lemma lxor_u8 a b : u8 a -> u8 b -> u8 (Z.lxor a b).
Proof.
  intros Ha Hb. refine (bool_decide_eq_true_1 _ (forall_u8_pair
    (fun a b => bool_decide (u8 (Z.lxor a b))) _ a b Ha Hb)). vm_compute; reflexivity.
Qed.

Lemma lxor_swap a b c d : Z.lxor (Z.lxor a b) (Z.lxor c d) = Z.lxor (Z.lxor a c) (Z.lxor b d).
Proof. rewrite !Z.lxor_assoc. f_equal. rewrite <- !Z.lxor_assoc. f_equal. apply Z.lxor_comm. Qed.

Lemma calculate_crc8_linear l k c d :
  length l = length k -> is_bytes l -> is_bytes k -> u8 c -> u8 d ->
  calculate_crc8 (xor_list l k) 0x31 (Z.lxor c d) =
  Z.lxor (calculate_crc8 l 0x31 c) (calculate_crc8 k 0x31 d).
Proof.
  intros Hlen Hl. revert k c d Hlen.
  induction Hl as [|a l Ha _ IH]; intros [|b k] c d Hlen Hk Hc Hd; try discriminate Hlen;
    [done|]. inversion_clear Hk. cbn [xor_list zip_with].
  change (calculate_crc8 (?x :: ?l) ?p ?c) with (calculate_crc8 l p (crc_byte p c x)).
  assert (crc_byte 0x31 (Z.lxor c d) (Z.lxor a b) =
    Z.lxor (crc_byte 0x31 c a) (crc_byte 0x31 d b)) as ->.
  { unfold crc_byte. rewrite lxor_swap. apply crc_bits_linear; by apply lxor_u8. }
  apply IH; [by injection Hlen | done | apply crc_u8; done || num..].
Qed.

(** The bytes the CRC runs over, and the syndrome of a packet. *)
Definition crc_buffer (p : bytes) : bytes :=
  match p with
  | b0 :: b1 :: b2 :: b3 :: b4 :: _ =>
      [b0; b1; b2; Z.land b3 0xF0;
       Z.lor (wrap 8 (Z.shiftl (Z.land b3 0x0F) 4)) (Z.shiftr (Z.land b4 0xF0) 4)]
  | _ => []
  end.
Definition syndrome (init : Z) (p : bytes) : Z := calculate_crc8 (crc_buffer p) 0x31 init.

Definition crc_low (b3 b4 : Z) : Z :=
  Z.lor (wrap 8 (Z.shiftl (Z.land b3 0x0F) 4)) (Z.shiftr (Z.land b4 0xF0) 4).
Lemma crc_low_linear a b c d : u8 a -> u8 b -> u8 c -> u8 d ->
  crc_low (Z.lxor a b) (Z.lxor c d) = Z.lxor (crc_low a c) (crc_low b d) /\ u8 (crc_low a c).
Proof.
  intros Ha Hb Hc Hd.
  assert (Hsplit : forall x y, u8 x -> u8 y ->
    (crc_low x y =? Z.lxor (crc_low x 0) (crc_low 0 y)) && bool_decide (u8 (crc_low x y)) = true).
  { apply (forall_u8_pair (fun x y => (crc_low x y =? Z.lxor (crc_low x 0) (crc_low 0 y)) &&
      bool_decide (u8 (crc_low x y)))). vm_compute. reflexivity. }
  assert (Hhi : forall x y, u8 x -> u8 y ->
    (crc_low (Z.lxor x y) 0 =? Z.lxor (crc_low x 0) (crc_low y 0)) &&
    (crc_low 0 (Z.lxor x y) =? Z.lxor (crc_low 0 x) (crc_low 0 y)) = true).
  { apply (forall_u8_pair (fun x y =>
      (crc_low (Z.lxor x y) 0 =? Z.lxor (crc_low x 0) (crc_low y 0)) &&
      (crc_low 0 (Z.lxor x y) =? Z.lxor (crc_low 0 x) (crc_low 0 y)))). vm_compute. reflexivity. }
  destruct (andb_prop _ _ (Hsplit _ _ (lxor_u8 _ _ Ha Hb) (lxor_u8 _ _ Hc Hd)))
    as [H1%Z.eqb_eq _].
  destruct (andb_prop _ _ (Hsplit _ _ Ha Hc)) as [H2%Z.eqb_eq Hu%bool_decide_eq_true_1].
  destruct (andb_prop _ _ (Hsplit _ _ Hb Hd)) as [H3%Z.eqb_eq _].
  destruct (andb_prop _ _ (Hhi _ _ Ha Hb)) as [H4%Z.eqb_eq _].
  destruct (andb_prop _ _ (Hhi _ _ Hc Hd)) as [_ H5%Z.eqb_eq].
  split; [|done]. rewrite H1, H4, H5, lxor_swap, <- H2, <- H3. done.
Qed.

Lemma land_f0_linear a b : u8 a -> u8 b ->
  Z.land (Z.lxor a b) 0xF0 = Z.lxor (Z.land a 0xF0) (Z.land b 0xF0) /\ u8 (Z.land a 0xF0).
Proof.
  intros Ha Hb. assert ((Z.land (Z.lxor a b) 0xF0 =? Z.lxor (Z.land a 0xF0) (Z.land b 0xF0)) &&
    bool_decide (u8 (Z.land a 0xF0)) = true) as H; [|by bools].
  revert a b Ha Hb. apply (forall_u8_pair (fun a b =>
    (Z.land (Z.lxor a b) 0xF0 =? Z.lxor (Z.land a 0xF0) (Z.land b 0xF0)) &&
    bool_decide (u8 (Z.land a 0xF0)))). vm_compute. reflexivity.
Qed.

Lemma crc_buffer_linear p e : is_bytes p -> is_bytes e -> length p = 5%nat -> length e = 5%nat ->
  crc_buffer (xor_list p e) = xor_list (crc_buffer p) (crc_buffer e) /\ is_bytes (crc_buffer p).
Proof.
  intros Hp He Hlp Hle.
  destruct p as [|a0 [|a1 [|a2 [|a3 [|a4 [|]]]]]]; try discriminate Hlp.
  destruct e as [|b0 [|b1 [|b2 [|b3 [|b4 [|]]]]]]; try discriminate Hle.
  decompose_Forall_hyps. unfold xor_list. cbn [zip_with crc_buffer].
  fold (crc_low a3 a4) (crc_low b3 b4) (crc_low (Z.lxor a3 b3) (Z.lxor a4 b4)).
  destruct (crc_low_linear a3 b3 a4 b4) as [-> ?]; [done..|].
  destruct (land_f0_linear a3 b3) as [-> ?]; [done..|].
  split; [done|]. forall_list ltac:(assumption).
Qed.

Lemma syndrome_linear p e : is_bytes p -> is_bytes e -> length p = 5%nat -> length e = 5%nat ->
  syndrome 0x6c (xor_list p e) = Z.lxor (syndrome 0x6c p) (syndrome 0 e).
Proof.
  intros Hp He Hlp Hle. unfold syndrome.
  destruct (crc_buffer_linear p e) as [-> Hb]; [done..|].
  destruct (crc_buffer_linear e p) as [_ Hb']; [done..|].
  change 0x6c with (Z.lxor 0x6c 0) at 1. apply calculate_crc8_linear; try done; try num.
  destruct p as [|a0 [|a1 [|a2 [|a3 [|a4 [|]]]]]]; try discriminate Hlp.
  destruct e as [|b0 [|b1 [|b2 [|b3 [|b4 [|]]]]]]; try discriminate Hle. done.
Qed.

Lemma byte_of_linear l k :
  Forall bit l -> Forall bit k -> length l = length k -> (length l <= 8)%nat ->
  byte_of 128 (xor_list l k) = Z.lxor (byte_of 128 l) (byte_of 128 k).
Proof.
  intros Hl Hk Hlen H8.
  assert (forallb (fun n => forallb (fun l => forallb (fun k =>
    byte_of 128 (xor_list l k) =? Z.lxor (byte_of 128 l) (byte_of 128 k)) (all_bits n))
    (all_bits n)) (seq 0 9) = true) as Hall by (vm_compute; reflexivity).
  rewrite forallb_forall in Hall.
  specialize (Hall (length l) ltac:(apply in_seq; lia)).
  apply (forall_bits _ _ (forall_bits _ _ Hall l eq_refl Hl) k) in Hk; [|done].
  by apply Z.eqb_eq.
Qed.

Lemma pack_linear l k : Forall bit l -> Forall bit k -> length l = length k ->
  pack (xor_list l k) = xor_list (pack l) (pack k).
Proof.
  intros Hl Hk Hlen.
  assert (forall j, byte_at (xor_list l k) j = Z.lxor (byte_at l j) (byte_at k j)) as H.
  { intros j. unfold byte_at, xor_list. rewrite zip_with_drop, zip_with_take.
    apply byte_of_linear; auto using Forall_take, Forall_drop;
      rewrite ?length_take, ?length_drop; lia. }
  unfold pack, xor_list. cbn [fmap list_fmap seq BYTES_IN_PACKET zip_with]. by rewrite !H.
Qed.

(** Bit strings of length [n] with at most [k] ones. *)
Fixpoint low_weight (n k : nat) : list (list Z) :=
  match n with
  | O => [[]]
  | S n =>
      (cons 0 <$> low_weight n k) ++
      match k with O => [] | S k => cons 1 <$> low_weight n k end
  end.

Lemma low_weight_complete l k n :
  Forall bit l -> Forall bit k -> length l = length k -> (distance l k <= n)%nat ->
  xor_list l k ∈ low_weight (length l) n.
Proof.
  intros Hl. revert k n. induction Hl as [|a l Ha _ IH]; intros [|b k] n Hk Hlen Hd;
    try discriminate Hlen; [by apply list_elem_of_singleton|].
  inversion_clear Hk as [|? ? Hb Hk']. injection Hlen as Hlen.
  cbn [xor_list zip_with low_weight length distance] in *. apply elem_of_app.
  destruct Ha as [-> | ->], Hb as [-> | ->]; cbn in Hd |- *.
  1,4: left; apply list_elem_of_fmap_2, IH; (done || lia).
  all: right; destruct n as [|n]; [lia|]; apply list_elem_of_fmap_2, IH; (done || lia).
Qed.

Lemma distance_nonzero l k :
  Forall bit l -> Forall bit k -> (0 < distance l k)%nat -> existsb (Z.eqb 1) (xor_list l k) = true.
Proof.
  intros Hl. revert k. induction Hl as [|a l Ha _ IH]; intros [|b k] Hk Hd; try (cbn in Hd; lia).
  inversion_clear Hk as [|? ? Hb Hk']. cbn [xor_list zip_with existsb distance] in *.
  destruct Ha as [-> | ->], Hb as [-> | ->]; cbn in Hd |- *; try done; apply IH;
    (done || lia).
Qed.

Definition detected (e : list Z) : bool :=
  negb (existsb (Z.eqb 1) e) || negb (syndrome 0 (pack e) =? 0).

Lemma forallb_elem {A} (f : A -> bool) l e : forallb f l = true -> e ∈ l -> f e = true.
Proof. rewrite forallb_forall. intros H He. by apply H, list_elem_of_In. Qed.

Lemma low_weight_syndromes : forallb detected (low_weight 36 3) = true.
Proof. vm_compute. reflexivity. Qed.

Lemma implied_nonzero b x : negb b || negb (x =? 0) = true -> b = true -> x <> 0.
Proof. intros H ->. destruct (Z.eqb_spec x 0); [discriminate H | done]. Qed.

Lemma low_weight_detected e :
  e ∈ low_weight 36 3 -> existsb (Z.eqb 1) e = true -> syndrome 0 (pack e) <> 0.
Proof.
  intros He H1.
  exact (implied_nonzero _ _ (forallb_elem detected _ e low_weight_syndromes He) H1).
Qed.

Lemma flips_detected l k :
  Forall bit l -> Forall bit k -> length l = 36%nat -> length k = 36%nat ->
  (1 <= distance l k <= 3)%nat -> syndrome 0 (pack (xor_list l k)) <> 0.
Proof.
  intros Hl Hk Hlen Hlen' [Hd1 Hd3].
  pose proof (low_weight_complete l k 3 Hl Hk (eq_trans Hlen (eq_sym Hlen')) Hd3) as Hin.
  rewrite Hlen in Hin.
  exact (low_weight_detected _ Hin (distance_nonzero l k Hl Hk Hd1)).
Qed.

Lemma decode_rubicson_crc p : length p = 5%nat ->
  match decode_rubicson p with
  | Some (Ok _) => syndrome 0x6c p = 0
  | r => r = Some (Err CrcMismatch) /\ syndrome 0x6c p <> 0
  end.
Proof.
  intros Hl. destruct p as [|a0 [|a1 [|a2 [|a3 [|a4 [|]]]]]]; try discriminate Hl.
  unfold decode_rubicson, syndrome, crc_buffer.
  destruct (calculate_crc8 _ _ _ =? 0) eqn:E; bools; cbn [negb]; auto.
Qed.

Lemma xor_list_bits l k : Forall bit l -> Forall bit k -> Forall bit (xor_list l k).
Proof.
  intros Hl. revert k. induction Hl as [|a l Ha _ IH]; intros [|b k] Hk; try constructor.
  - inversion_clear Hk as [|? ? Hb _].
    destruct Ha as [-> | ->], Hb as [-> | ->]; unfold bit; cbn; auto.
  - inversion_clear Hk. by apply IH.
Qed.

Lemma xor_list_twice l k : length l = length k -> xor_list l (xor_list l k) = k.
Proof.
  revert k. induction l as [|a l IH]; intros [|b k] H; try discriminate H; [done|].
  injection H as H. cbn [xor_list zip_with]. f_equal; [|by apply IH].
  by rewrite <- Z.lxor_assoc, Z.lxor_nilpotent, Z.lxor_0_l.
Qed.

(** the packet check detects every error of one, two or three flipped
    bits: a 36-bit packet that differs from an accepted one at one to three
    positions is rejected with [CrcMismatch]. *)
Theorem flipped_bits_rejected (bits bits' : list Z) (reading : RubicsonReading)
    (Hbits : Forall bit bits) (Hbits' : Forall bit bits')
    (Hlen : length bits = BITS_IN_PACKET) (Hlen' : length bits' = BITS_IN_PACKET)
    (Hok : decode_rubicson (pack bits) = Some (Ok reading))
    (Hd : (1 <= distance bits bits' <= 3)%nat) :
  decode_rubicson (pack bits') = Some (Err CrcMismatch).
Proof.
  pose proof (decode_rubicson_crc _ (length_pack bits)) as H. rewrite Hok in H.
  pose proof (decode_rubicson_crc _ (length_pack bits')) as H'.
  pose proof (flips_detected bits bits' Hbits Hbits' Hlen Hlen' Hd) as Hne.
  destruct (decode_rubicson (pack bits')) as [[x|e]|]; [|tauto..].
  exfalso. apply Hne.
  rewrite <- (xor_list_twice bits bits'), pack_linear in H'
    by (rewrite ?length_zip_with; auto using xor_list_bits || (unfold xor_list;
        rewrite ?length_zip_with; lia)).
  rewrite syndrome_linear, H, Z.lxor_0_l in H'
    by (done || auto using pack_is_bytes, xor_list_bits). exact H'.
Qed.

Example flipped_bits_rejected_witness :
  let bits := payload_bits (build_payload 230 0 true (-94)) in
  let bits' := alter (fun b => 1 - b) 3%nat (alter (fun b => 1 - b) 30%nat bits) in
  decode_rubicson (pack bits') = Some (Err CrcMismatch).
Proof.
  intros bits bits'.
  apply (flipped_bits_rejected bits bits' (reading_of 230 0 true (-94))); try reflexivity;
    [vm_compute; forall_list ltac:(unfold bit; auto)..| ].
  assert (distance bits bits' = 2%nat) as -> by reflexivity. lia.
Defined.
