(* ===== verification/EuDst.v ===== *)
(** * EU daylight saving time

    [crates/eu-dst/src/lib.rs]: the calendar computed from a Unix timestamp,
    the last Sunday of a month by Zeller's congruence, and the local time.
    The year loop runs on fuel; [unix_to_date] gives it one step per 365
    days, which is proved enough. *)
From S2P Require Import Prelude.

Definition DST_OFFSET_SECS : Z := 3600.

Record Timezone := { base_offset_secs : Z }.
Definition Timezone_new (base : Z) : Timezone := {| base_offset_secs := base |}.
Definition WET : Timezone := Timezone_new 0.
Definition CET : Timezone := Timezone_new 3600.
Definition EET : Timezone := Timezone_new (2 * 3600).

Definition is_multiple_of (x y : Z) : bool := x mod y =? 0.

Definition is_leap_year (year : Z) : bool :=
  (is_multiple_of year 4 && negb (is_multiple_of year 100)) || is_multiple_of year 400.

(** The [loop] over years. *)
Fixpoint year_loop (fuel : nat) (year remaining_days : Z) : option (Z * Z) :=
  match fuel with
  | O => None
  | S fuel =>
      let days_in_year := if is_leap_year year then 366 else 365 in
      if remaining_days <? days_in_year then Some (year, remaining_days)
      else year_loop fuel (year + 1) (remaining_days - days_in_year)
  end.

Definition days_in_months (leap : bool) : list Z :=
  if leap then [31; 29; 31; 30; 31; 30; 31; 31; 30; 31; 30; 31]
  else [31; 28; 31; 30; 31; 30; 31; 31; 30; 31; 30; 31].

(** The [for] over months with its [break]. *)
Fixpoint month_loop (months : list Z) (month remaining_days : Z) : Z * Z :=
  match months with
  | [] => (month, remaining_days)
  | days_in_month :: months =>
      if remaining_days <? days_in_month then (month, remaining_days)
      else month_loop months (month + 1) (remaining_days - days_in_month)
  end.

Record Date := { year : Z; month : Z; day : Z; hour : Z }.

Definition unix_to_date (unix_secs : Z) : option Date :=
  let days := default (umax 32) (try_from_u 32 (unix_secs / 86400)) in
  let hour := (unix_secs mod 86400) / 3600 in
  '(year, remaining_days) ← year_loop (S (Z.to_nat (days / 365))) 1970 days;
  let '(month, remaining_days) :=
    month_loop (days_in_months (is_leap_year year)) 1 remaining_days in
  Some {| year := year; month := month; day := remaining_days + 1; hour := hour |}.

Definition last_sunday_of_month (year month : Z) : Z :=
  let days_in_month :=
    if existsb (Z.eqb month) [1; 3; 5; 7; 8; 10; 12] then 31
    else if month =? 2 then (if is_leap_year year then 29 else 28)
    else 30 in
  let day := days_in_month in
  let m := if month <? 3 then month + 12 else month in
  let y := if month <? 3 then year - 1 else year in
  let k := y mod 100 in
  let j := y / 100 in
  let h := (day + (13 * (m + 1)) / 5 + k + k / 4 + j / 4 + 5 * j) mod 7 in
  let dow := (h + 6) mod 7 in
  if dow =? 0 then days_in_month else days_in_month - dow.

Definition is_dst_active (unix_secs : Z) : option bool :=
  date ← unix_to_date unix_secs;
  let march_last_sunday := last_sunday_of_month (year date) 3 in
  let october_last_sunday := last_sunday_of_month (year date) 10 in
  Some
    (if (3 <? month date) && (month date <? 10) then true
     else if month date =? 3 then
       (march_last_sunday <? day date) || ((day date =? march_last_sunday) && (1 <=? hour date))
     else if month date =? 10 then
       (day date <? october_last_sunday) || ((day date =? october_last_sunday) && (hour date <? 1))
     else false).

Definition wrap_i64 (x : Z) : Z := (x + 2 ^ 63) mod 2 ^ 64 - 2 ^ 63.

Definition offset_secs (self : Timezone) (unix_secs : Z) : option Z :=
  dst ← is_dst_active unix_secs;
  Some (if (dst : bool) then wrap_i64 (base_offset_secs self + DST_OFFSET_SECS)
        else base_offset_secs self).

Definition is_dst (self : Timezone) (unix_secs : Z) : option bool := is_dst_active unix_secs.

Definition to_local_hms (self : Timezone) (unix_secs : Z) : option (Z * Z * Z) :=
  offset ← offset_secs self unix_secs;
  let unix_secs := if unix_secs <=? smax 64 then unix_secs else smax 64 in
  let local_secs := sat_adds 64 unix_secs offset in
  let secs_today := local_secs mod 86400 in
  let hours := default 0 (try_from_u 32 (secs_today / 3600)) in
  let minutes := default 0 (try_from_u 32 ((secs_today mod 3600) / 60)) in
  let seconds := default 0 (try_from_u 32 (secs_today mod 60)) in
  Some (hours, minutes, seconds).

(** ** The calendar as arithmetic

    Days since 1 January 1970 of a date of the Gregorian calendar. *)
Definition leaps_before (y : Z) : Z := (y - 1) / 4 - (y - 1) / 100 + (y - 1) / 400.
Definition days_before_year (y : Z) : Z := 365 * (y - 1970) + (leaps_before y - leaps_before 1970).
Definition month_length (y m : Z) : Z := nth (Z.to_nat (m - 1)) (days_in_months (is_leap_year y)) 0.
Definition days_before_month (y m : Z) : Z :=
  foldr Z.add 0 (take (Z.to_nat (m - 1)) (days_in_months (is_leap_year y))).
Definition civil_days (y m d : Z) : Z := days_before_year y + days_before_month y m + (d - 1).

Definition DateOf (unix_secs : Z) (d : Date) : Prop :=
  1970 <= year d /\ 1 <= month d <= 12 /\ 1 <= day d <= month_length (year d) (month d) /\
  0 <= hour d < 24 /\ civil_days (year d) (month d) (day d) = unix_secs / 86400 /\
  hour d = unix_secs mod 86400 / 3600.

(** Sunday is day 3 after the Thursday of the epoch. *)
Definition is_sunday (days : Z) : Prop := (days + 4) mod 7 = 0.

(** ** The calendar loops *)

Lemma is_leap_year_spec y :
  days_before_year (y + 1) - days_before_year y = (if is_leap_year y then 366 else 365).
Proof.
  unfold days_before_year, leaps_before, is_leap_year, is_multiple_of.
  replace (y + 1 - 1) with y by lia.
  destruct (Z.eqb_spec (y mod 4) 0), (Z.eqb_spec (y mod 100) 0), (Z.eqb_spec (y mod 400) 0);
    cbn [andb orb negb]; Z.to_euclidean_division_equations; lia.
Qed.

Lemma days_before_year_1970 : days_before_year 1970 = 0.
Proof. reflexivity. Qed.

Lemma year_loop_spec fuel y r :
  0 <= r -> r / 365 < Z.of_nat fuel ->
  exists y' r', year_loop fuel y r = Some (y', r') /\ y <= y' /\
    days_before_year y' + r' = days_before_year y + r /\
    0 <= r' < (if is_leap_year y' then 366 else 365).
Proof.
  revert y r. induction fuel as [|fuel IH]; intros y r Hr Hf.
  { pose proof (Z.div_pos r 365). lia. }
  cbn [year_loop]. pose proof (is_leap_year_spec y) as Hy.
  destruct (Z.ltb_spec r (if is_leap_year y then 366 else 365)) as [Hlt|Hge].
  - exists y, r. split_and!; try done; lia.
  - set (n := if is_leap_year y then 366 else 365) in *.
    assert (365 <= n <= 366) as Hn by (unfold n; destruct (is_leap_year y); lia).
    destruct (IH (y + 1) (r - n)) as (y' & r' & -> & Hle & Heq & Hb).
    + lia.
    + assert ((r - n) / 365 <= r / 365 - 1); [|lia].
      replace (r / 365 - 1) with ((r - 365) / 365) by (Z.to_euclidean_division_equations; lia).
      apply Z.div_le_mono; lia.
    + exists y', r'. split_and!; try done; lia.
Qed.

Lemma month_loop_spec months m r :
  0 <= r < foldr Z.add 0 months -> Forall (fun d => 0 < d) months ->
  exists i d, month_loop months m r = (m + Z.of_nat i, d) /\ (i < length months)%nat /\
    r = foldr Z.add 0 (take i months) + d /\ 0 <= d < nth i months 0.
Proof.
  revert m r. induction months as [|x months IH]; intros m r Hr Hpos; cbn [foldr] in Hr; [lia|].
  inversion_clear Hpos. cbn [month_loop]. destruct (Z.ltb_spec r x).
  - exists 0%nat, r. cbn. split_and!; try lia. f_equal; lia.
  - destruct (IH (m + 1) (r - x)) as (i & d & -> & Hi & Heq & Hd); [lia | done|].
    exists (S i), d. cbn [length take foldr nth]. split_and!; try lia. f_equal; lia.
Qed.

Lemma days_in_months_pos leap : Forall (fun d => 0 < d) (days_in_months leap).
Proof. destruct leap; cbn; forall_list ltac:(lia). Qed.

Lemma days_in_months_sum leap :
  foldr Z.add 0 (days_in_months leap) = (if leap then 366 else 365).
Proof. by destruct leap. Qed.

Lemma length_days_in_months leap : length (days_in_months leap) = 12%nat.
Proof. by destruct leap. Qed.

Lemma unix_to_date_of s :
  0 <= s < 86400 * 2 ^ 32 -> exists d, unix_to_date s = Some d /\ DateOf s d.
Proof.
  intros Hs. unfold unix_to_date.
  assert (0 <= s / 86400 < 2 ^ 32) as Hd.
  { split; [apply Z.div_pos; lia | apply Z.div_lt_upper_bound; lia]. }
  unfold try_from_u. rewrite (proj2 (Z.leb_le 0 _)), (proj2 (Z.leb_le _ (umax 32))) by num.
  cbn [andb default from_option id].
  destruct (year_loop_spec (S (Z.to_nat (s / 86400 / 365))) 1970 (s / 86400))
    as (y & r & -> & Hy & Heq & Hr); [lia | pose proof (Z.div_pos (s / 86400) 365); lia |].
  cbn [mbind option_bind].
  destruct (month_loop_spec (days_in_months (is_leap_year y)) 1 r)
    as (i & d & -> & Hi & Hri & Hdi);
    [by rewrite days_in_months_sum | apply days_in_months_pos |].
  eexists; split; [done|]. rewrite length_days_in_months in Hi.
  unfold DateOf, civil_days, month_length, days_before_month. cbn [year month day hour].
  rewrite days_before_year_1970 in Heq.
  replace (Z.to_nat (1 + Z.of_nat i - 1)) with i by lia.
  pose proof (Z.mod_pos_bound s 86400 ltac:(lia)).
  split_and!; try lia; Z.to_euclidean_division_equations; lia.
Qed.

(** ** The last Sunday *)

(** Leap days up to and including year [y]. *)
Lemma civil_days_long y m :
  1 <= y -> m = 3 \/ m = 10 ->
  civil_days y m 31 = 365 * (y - 1970) + (y / 4 - y / 100 + y / 400) - 477 +
    (if m =? 3 then 89 else 303).
Proof.
  intros Hy Hm. pose proof (is_leap_year_spec y) as Hl.
  unfold civil_days, days_before_month, days_before_year, leaps_before in *.
  replace (y + 1 - 1) with y in Hl by lia.
  change (leaps_before 1970) with 477. change ((1970 - 1) / 4 - (1970 - 1) / 100 + (1970 - 1) / 400)
    with 477 in *.
  destruct Hm as [-> | ->], (is_leap_year y);
    [change (foldr _ _ _) with 60 | change (foldr _ _ _) with 59 |
     change (foldr _ _ _) with 274 | change (foldr _ _ _) with 273];
    cbn [Z.eqb Pos.eqb] in *; lia.
Qed.

Lemma last_sunday_spec y m :
  1 <= y -> m = 3 \/ m = 10 ->
  last_sunday_of_month y m = 31 - (civil_days y m 31 + 4) mod 7.
Proof.
  intros Hy Hm. rewrite civil_days_long by done.
  assert (last_sunday_of_month y m =
    31 - ((31 + (13 * (m + 1)) / 5 + y mod 100 + y mod 100 / 4 + y / 100 / 4 + 5 * (y / 100)) mod 7
          + 6) mod 7) as ->.
  { destruct Hm as [-> | ->]; unfold last_sunday_of_month;
      cbn [existsb orb Z.eqb Pos.eqb Z.ltb Z.compare Pos.compare Pos.compare_cont]; cbv zeta;
      match goal with |- context [?x =? 0] => destruct (Z.eqb_spec x 0) as [Hx |] end; lia. }
  f_equal. rewrite Zplus_mod_idemp_l.
  set (j := y / 100). set (k := y mod 100).
  assert (y = 100 * j + k /\ 0 <= k < 100) as [Hyk Hk]
    by (subst j k; Z.to_euclidean_division_equations; lia).
  assert (y / 4 = 25 * j + k / 4) as -> by (Z.to_euclidean_division_equations; lia).
  assert (y / 400 = j / 4) as -> by (subst j; rewrite Z.div_div by lia; done).
  rewrite Hyk. clearbody j k. destruct Hm as [-> | ->]; cbn [Z.eqb Pos.eqb].
  - change (13 * (3 + 1) / 5) with 10.
    rewrite <- (Z_mod_plus_full (31 + 10 + k + k / 4 + j / 4 + 5 * j + 6) (5217 * j + 52 * k - 102783) 7).
    f_equal. ring.
  - change (13 * (10 + 1) / 5) with 28.
    rewrite <- (Z_mod_plus_full (31 + 28 + k + k / 4 + j / 4 + 5 * j + 6) (5217 * j + 52 * k - 102755) 7).
    f_equal. ring.
Qed.

(** ** Daylight saving time as an interval of the year *)

(** 01:00 UTC on the Sunday among the last seven days of March and October. *)
Definition transition (y m : Z) : Z :=
  86400 * (civil_days y m 31 - (civil_days y m 31 + 4) mod 7) + 3600.
Definition dst_start (y : Z) : Z := transition y 3.
Definition dst_end (y : Z) : Z := transition y 10.

Lemma transition_sunday y m :
  is_sunday ((transition y m - 3600) / 86400) /\
  civil_days y m 25 <= (transition y m - 3600) / 86400 <= civil_days y m 31.
Proof.
  unfold transition, is_sunday. rewrite Z.add_simpl_r, Z.mul_comm, Z.div_mul by lia.
  assert (civil_days y m 25 = civil_days y m 31 - 6) as -> by (unfold civil_days; lia).
  pose proof (Z.mod_pos_bound (civil_days y m 31 + 4) 7 ltac:(lia)). split; [|lia].
  Z.to_euclidean_division_equations; lia.
Qed.

(** A date's days lie within its month, and months follow each other. *)
Lemma days_before_month_step y m : 1 <= m <= 12 ->
  days_before_month y (m + 1) = days_before_month y m + month_length y m.
Proof.
  intros Hm. unfold days_before_month, month_length.
  assert (m = 1 \/ m = 2 \/ m = 3 \/ m = 4 \/ m = 5 \/ m = 6 \/ m = 7 \/ m = 8 \/ m = 9 \/
    m = 10 \/ m = 11 \/ m = 12) as Hc by lia.
  destruct (is_leap_year y); repeat destruct Hc as [-> | Hc]; try subst m; reflexivity.
Qed.

Lemma days_before_month_mono y m m' : 1 <= m -> m <= m' <= 13 ->
  days_before_month y m <= days_before_month y m'.
Proof.
  intros Hm [Hle H13]. revert H13. pattern m'. apply (Zlt_lower_bound_ind _ m); [|done].
  clear m' Hle. intros m' IH Hle H13. destruct (decide (m = m')) as [-> | Hne]; [lia|].
  specialize (IH (m' - 1) ltac:(lia) ltac:(lia)).
  pose proof (days_before_month_step y (m' - 1) ltac:(lia)) as Hs.
  replace (m' - 1 + 1) with m' in Hs by lia.
  assert (0 <= month_length y (m' - 1)); [|lia]. unfold month_length.
  pose proof (days_in_months_pos (is_leap_year y)) as Hp. rewrite Forall_forall in Hp.
  destruct (nth_in_or_default (Z.to_nat (m' - 1 - 1)) (days_in_months (is_leap_year y)) 0)
    as [Hin | ->]; [|lia].
  apply list_elem_of_In, Hp in Hin. lia.
Qed.

Lemma transition_alt y m : 1 <= y -> m = 3 \/ m = 10 ->
  transition y m = 86400 * civil_days y m (last_sunday_of_month y m) + 3600 /\
  25 <= last_sunday_of_month y m <= 31.
Proof.
  intros Hy Hm. rewrite last_sunday_spec by done. unfold transition, civil_days.
  pose proof (Z.mod_pos_bound (days_before_year y + days_before_month y m + (31 - 1) + 4) 7 ltac:(lia)).
  lia.
Qed.

(** The instant of a date, against a transition of the same year. *)
Lemma before_transition s d m :
  0 <= s -> DateOf s d -> m = 3 \/ m = 10 ->
  let l := last_sunday_of_month (year d) m in
  transition (year d) m <= s <->
  m < month d \/ month d = m /\ (l < day d \/ day d = l /\ 1 <= hour d).
Proof.
  intros Hs (Hy & Hm & Hd & Hh & Hc & Hhour) Hm' l.
  destruct (transition_alt (year d) m ltac:(lia) Hm') as [-> Hl]. fold l in Hl |- *.
  assert (s = 86400 * (s / 86400) + s mod 86400 /\ 0 <= s mod 86400 < 86400) as [Hsd Ht]
    by (Z.to_euclidean_division_equations; lia).
  assert (1 <= hour d <-> 3600 <= s mod 86400) as Hhs
    by (rewrite Hhour; Z.to_euclidean_division_equations; lia).
  rewrite <- Hc in Hsd. unfold civil_days in *.
  pose proof (days_before_month_step (year d) m ltac:(lia)) as Hstep.
  assert (month_length (year d) m = 31) as Hlen
    by (unfold month_length; destruct Hm' as [-> | ->], (is_leap_year (year d)); reflexivity).
  pose proof (days_before_month_step (year d) (month d) Hm) as Hstep'.
  destruct (Z.lt_trichotomy (month d) m) as [Hlt | [Heq | Hgt]].
  - pose proof (days_before_month_mono (year d) (month d + 1) m ltac:(lia) ltac:(lia)). lia.
  - rewrite Heq in *; lia.
  - pose proof (days_before_month_mono (year d) (m + 1) (month d) ltac:(lia) ltac:(lia)). lia.
Qed.

Lemma is_dst_active_year s d :
  0 <= s -> unix_to_date s = Some d -> DateOf s d ->
  exists b, is_dst_active s = Some b /\
    (b = true <-> dst_start (year d) <= s < dst_end (year d)).
Proof.
  intros Hs Hu Hd. unfold is_dst_active. rewrite Hu. cbn [mbind option_bind].
  eexists; split; [done|].
  assert (s < dst_end (year d) <-> ~ dst_end (year d) <= s) as -> by lia.
  unfold dst_start, dst_end. rewrite !before_transition by auto. cbv zeta.
  destruct (Z.ltb_spec 3 (month d)), (Z.ltb_spec (month d) 10); cbn [andb]; try lia;
    destruct (Z.eqb_spec (month d) 3), (Z.eqb_spec (month d) 10); try lia;
    rewrite ?orb_true_iff, ?andb_true_iff, ?Z.ltb_lt, ?Z.leb_le, ?Z.eqb_eq; lia.
Qed.

Lemma days_before_year_mono y y' : y <= y' -> days_before_year y <= days_before_year y'.
Proof.
  intros H. unfold days_before_year, leaps_before. Z.to_euclidean_division_equations. lia.
Qed.

Lemma year_bounds y m d :
  1 <= m <= 12 -> 1 <= d <= month_length y m ->
  days_before_year y <= civil_days y m d < days_before_year (y + 1).
Proof.
  intros Hm Hd. unfold civil_days. pose proof (is_leap_year_spec y) as Hl.
  pose proof (days_before_month_step y m Hm) as Hs.
  pose proof (days_before_month_mono y 1 m ltac:(lia) ltac:(lia)) as H1.
  pose proof (days_before_month_mono y (m + 1) 13 ltac:(lia) ltac:(lia)) as H2.
  assert (days_before_month y 1 = 0) as H10 by reflexivity.
  assert (days_before_month y 13 = if is_leap_year y then 366 else 365) as H13
    by (unfold days_before_month; by destruct (is_leap_year y)).
  lia.
Qed.

(** C37: daylight saving time as the directive states it. For every timestamp
    below 86400 * 2^32 seconds (past the year eleven million) the calendar
    loops end, and DST is reported exactly from 01:00 UTC on the last Sunday
    of March of some year until 01:00 UTC on the last Sunday of October of
    that year. *)
Theorem dst_spec (s : Z) (Hs : 0 <= s < 86400 * 2 ^ 32) :
  exists b, is_dst_active s = Some b /\
    (b = true <-> exists y, 1970 <= y /\ dst_start y <= s < dst_end y).
Proof.
  destruct (unix_to_date_of s Hs) as (d & Hu & Hd).
  destruct (is_dst_active_year s d ltac:(lia) Hu Hd) as (b & Hb & Hiff).
  exists b. split; [done|]. rewrite Hiff. destruct Hd as (Hy & Hm & Hday & _ & Hc & _).
  split; [eauto|]. intros (y & Hy' & Hint).
  assert (y = year d) as ->; [|done].
  destruct (year_bounds (year d) (month d) (day d) Hm Hday) as [Hlo Hhi].
  destruct (transition_alt y 3 ltac:(lia) ltac:(auto)) as [H3 Hl3].
  destruct (transition_alt y 10 ltac:(lia) ltac:(auto)) as [H10 Hl10].
  assert (month_length y 3 = 31 /\ month_length y 10 = 31) as [Hm3 Hm10]
    by (unfold month_length; destruct (is_leap_year y); done).
  destruct (year_bounds y 3 (last_sunday_of_month y 3) ltac:(lia) ltac:(lia)) as [Ha _].
  destruct (year_bounds y 10 (last_sunday_of_month y 10) ltac:(lia) ltac:(lia)) as [_ Hb'].
  unfold dst_start, dst_end in Hint. rewrite H3, H10, <- ?Hc in *.
  assert (86400 * (s / 86400) <= s < 86400 * (s / 86400) + 86400)
    by (Z.to_euclidean_division_equations; lia).
  rewrite Hc in *.
  destruct (Z.lt_trichotomy y (year d)) as [Hlt | [-> | Hgt]]; [|done|].
  - pose proof (days_before_year_mono (y + 1) (year d) ltac:(lia)). lia.
  - pose proof (days_before_year_mono (year d + 1) y ltac:(lia)). lia.
Qed.

(** The repository's Finnish summer test. *)
Example dst_spec_witness :
  exists b, is_dst_active 1625140800 = Some b /\
    (b = true <-> exists y, 1970 <= y /\ dst_start y <= 1625140800 < dst_end y).
Proof. apply (dst_spec 1625140800). lia. Defined.

(** the transitions named by [dst_spec] are Sundays, and the Sunday falls
    on one of the last seven days of its month; the date computed for a
    timestamp is the unique date of the Gregorian calendar it lies in. *)
Theorem unix_to_date_spec (s : Z) (Hs : 0 <= s < 86400 * 2 ^ 32) :
  exists d, unix_to_date s = Some d /\ DateOf s d /\
    forall m, m = 3 \/ m = 10 ->
      let l := last_sunday_of_month (year d) m in
      25 <= l <= 31 /\ is_sunday (civil_days (year d) m l).
Proof.
  destruct (unix_to_date_of s Hs) as (d & Hu & Hd). exists d. split_and!; [done..|].
  intros m Hm l. destruct Hd as (Hy & _).
  destruct (transition_alt (year d) m ltac:(lia) Hm) as [Ht Hl]. split; [done|].
  pose proof (transition_sunday (year d) m) as [Hsun _]. fold l in Ht. rewrite Ht in Hsun.
  by rewrite Z.add_simpl_r, Z.mul_comm, Z.div_mul in Hsun by lia.
Qed.

Example unix_to_date_spec_witness :
  exists d, unix_to_date 1625140800 = Some d /\ month d = 7.
Proof.
  destruct (unix_to_date_spec 1625140800 ltac:(lia)) as (d & Hu & _).
  exists d. split; [exact Hu|]. vm_compute in Hu. injection Hu as <-. reflexivity.
Defined.

(** the local clock shows the time of day of the timestamp plus the offset
    in force, with hours below 24 and minutes and seconds below 60, for every
    timezone within a day of UTC; it never loses a second. *)
Theorem to_local_hms_spec (self : Timezone) (s : Z)
    (Hs : 0 <= s < 86400 * 2 ^ 32) (Hbase : - 86400 <= base_offset_secs self <= 86400) :
  exists dst h m sec, is_dst_active s = Some dst /\
    to_local_hms self s = Some (h, m, sec) /\
    0 <= h < 24 /\ 0 <= m < 60 /\ 0 <= sec < 60 /\
    3600 * h + 60 * m + sec =
      (s + base_offset_secs self + (if dst then 3600 else 0)) mod 86400.
Proof.
  destruct (unix_to_date_of s Hs) as (d & Hu & Hd).
  destruct (is_dst_active_year s d ltac:(lia) Hu Hd) as (dst & Hb & _).
  unfold to_local_hms, offset_secs. rewrite Hb. cbn [mbind option_bind].
  set (off := if dst then wrap_i64 (base_offset_secs self + DST_OFFSET_SECS)
              else base_offset_secs self).
  assert (off = base_offset_secs self + (if dst then 3600 else 0)) as Hoff.
  { subst off. destruct dst; [|lia]. unfold wrap_i64, DST_OFFSET_SECS.
    rewrite Z.mod_small by lia. lia. }
  assert (-90000 <= off <= 90000) as Hr by (rewrite Hoff; destruct dst; lia).
  rewrite (proj2 (Z.leb_le s (smax 64))) by num.
  unfold sat_adds. rewrite Z.max_r, Z.min_l by num.
  clearbody off.
  set (t := (s + off) mod 86400). assert (0 <= t < 86400) as Ht by (apply Z.mod_pos_bound; lia).
  assert (Htry : forall x, 0 <= x < 86400 -> default 0 (try_from_u 32 x) = x).
  { intros x Hx. unfold try_from_u.
    by rewrite (proj2 (Z.leb_le 0 x)), (proj2 (Z.leb_le x (umax 32))) by num. }
  rewrite !Htry by (Z.to_euclidean_division_equations; lia).
  do 4 eexists. split; [done|]. split; [done|].
  replace (s + base_offset_secs self + (if dst then 3600 else 0)) with (s + off) by lia.
  fold t. clearbody t.
  Z.to_euclidean_division_equations. lia.
Qed.

Example to_local_hms_spec_witness :
  exists dst h m sec, is_dst_active 1625140800 = Some dst /\
    to_local_hms EET 1625140800 = Some (h, m, sec) /\ h = 15.
Proof.
  destruct (to_local_hms_spec EET 1625140800 ltac:(lia) ltac:(cbn; lia))
    as (b & h & m & sec & Hb & Ht & _).
  exists b, h, m, sec. split; [exact Hb|]. split; [exact Ht|].
  vm_compute in Ht. by injection Ht.
Defined.
