(* ===== verification/TimeSync.v ===== *)
(** * Time synchronisation

    [firmware/src/time_sync.rs]: the reference that ties NTP seconds to the
    monotonic clock, the clock shown on the display, the timestamp generator
    handed to the SNTP client, one synchronisation over the server list and
    the loop of the task. An [Instant] counts microseconds, the tick of the
    chip's time driver. The network stack, the SNTP client and the timer are
    an interface. *)
From S2P Require Import Prelude Str EuDst NtpServers.
From Stdlib Require Import Sorted.

(** Ticks per second of [embassy_time]. *)
Definition TICK_HZ : Z := 1000000.
(** [Instant::as_secs] and [as_micros]. *)
Definition as_secs (ticks : Z) : Z := ticks / TICK_HZ.
Definition as_micros (ticks : Z) : Z := ticks.
(** [later - earlier] and [elapsed()] panic when time runs backwards. *)
Definition duration_since (later earlier : Z) : option Z :=
  if earlier <=? later then Some (later - earlier) else None.

Definition NTP_PORT : Z := 123.
Definition DEFAULT_NTP_SERVER_IPV4 : list Ipv4Addr :=
  (fun n => {| octet1 := 216; octet2 := 239; octet3 := 35; octet4 := n |}) <$> [0; 4; 8; 12].
Definition RESYNC_INTERVAL_SECS : Z := 3600.
Definition TIMEZONE : Timezone := EET.

Record TimeReference := { unix_secs : Z; captured_at : Z }.

(** [now] is the instant of the call; release builds wrap on overflow. *)
Definition now_unix_secs (now : Z) (self : TimeReference) : option Z :=
  elapsed ← duration_since now (captured_at self);
  Some (wrap 64 (unix_secs self + as_secs elapsed)).

Definition format_time (now : Z) (self : TimeReference) (buf : bytes) : option bytes :=
  secs ← now_unix_secs now self;
  hms ← to_local_hms TIMEZONE secs;
  let '(hours, minutes, seconds) := hms in
  Some (written 16 buf [dec2 hours; [58]; dec2 minutes; [58]; dec2 seconds]).

Definition as_unix_secs (ins : Z) (self : TimeReference) : Z :=
  if captured_at self <=? ins
  then sat_add 64 (unix_secs self) (as_secs (ins - captured_at self))
  else sat_sub (unix_secs self) (as_secs (captured_at self - ins)).

(** ** The timestamp generator *)

Record EmbassyTimestampGen := { start_secs : Z; start_micros : Z }.

Definition EmbassyTimestampGen_new (now : Z) : EmbassyTimestampGen :=
  {| start_secs := as_secs now; start_micros := wrap 32 (as_micros now mod 1000000) |}.
Definition init (now : Z) (self : EmbassyTimestampGen) : EmbassyTimestampGen :=
  {| start_secs := as_secs now; start_micros := wrap 32 (as_micros now mod 1000000) |}.
Definition timestamp_sec (now : Z) (self : EmbassyTimestampGen) : Z :=
  wrap 64 (as_secs now - start_secs self).
Definition timestamp_subsec_micros (now : Z) (self : EmbassyTimestampGen) : Z :=
  let now_micros := wrap 32 (as_micros now mod 1000000) in
  wrap 32 (now_micros - start_micros self).

(** ** Synchronisation *)

(** What the task calls: the network stack's configuration wait, the socket's
    [bind], [sntpc::get_time] with the generator it is given (the seconds of
    a successful answer), the timer and the clock. *)
Class Sntp (N : Type) := {
  instant : N -> Z;
  wait_for_config_up : N -> N;
  bind : Z -> N -> bool * N;
  get_time : Ipv4Addr * Z -> EmbassyTimestampGen -> N -> option Z * N;
  timer_after : Z -> N -> N
}.

Class SntpLaws (N : Type) `{Sntp N} := {
  wait_time n : instant n <= instant (wait_for_config_up n);
  bind_time port n : instant n <= instant (bind port n).2;
  get_time_time addr g n : instant n <= instant (get_time addr g n).2;
  get_time_u32 addr g n s : (get_time addr g n).1 = Some s -> u32 s;
  timer_time secs n : 0 <= secs -> instant n + secs * TICK_HZ <= instant (timer_after secs n)
}.

Section Sync.
Context {N : Type} `{Sntp N}.
(** The build's secret. *)
Context (NTP_SERVER_IPV4_LIST : bytes).

Fixpoint try_servers (server_ips : list Ipv4Addr) (n : N) : option TimeReference * N :=
  match server_ips with
  | [] => (None, n)
  | server_ip :: server_ips =>
      let context := EmbassyTimestampGen_new (instant n) in
      match get_time (server_ip, NTP_PORT) context n with
      | (Some seconds, n) => (Some {| unix_secs := seconds; captured_at := instant n |}, n)
      | (None, n) => try_servers server_ips n
      end
  end.

Definition sync_time_once (n : N) : option TimeReference * N :=
  let n := wait_for_config_up n in
  let (bound, n) := bind 0 n in
  if negb bound then (None, n)
  else
    let server_list := parse_ntp_server_list NTP_SERVER_IPV4_LIST DEFAULT_NTP_SERVER_IPV4 in
    try_servers (as_slice server_list) n.

(** The first loop, for a number of attempts: [None] while it still
    retries. *)
Fixpoint initial_sync (attempts : nat) (n : N) : option TimeReference * N :=
  match attempts with
  | O => (None, n)
  | S attempts =>
      match sync_time_once n with
      | (Some time_ref, n) => (Some time_ref, n)
      | (None, n) => initial_sync attempts (timer_after 10 n)
      end
  end.

(** The second loop, for a number of rounds: what it sends to the watch. *)
Fixpoint resync (rounds : nat) (n : N) : list TimeReference * N :=
  match rounds with
  | O => ([], n)
  | S rounds =>
      let n := timer_after RESYNC_INTERVAL_SECS n in
      let (time_ref, n) := sync_time_once n in
      let (sent, n) := resync rounds n in
      (match time_ref with Some r => r :: sent | None => sent end, n)
  end.

Definition time_sync_loop (attempts rounds : nat) (n : N) : list TimeReference * N :=
  match initial_sync attempts n with
  | (None, n) => ([], n)
  | (Some time_ref, n) => let (sent, n) := resync rounds n in (time_ref :: sent, n)
  end.
End Sync.

(** ** Properties *)

(** A reference taken by an exact clock: [epoch] is the Unix time in
    microseconds at instant 0. *)
Definition Exact (epoch : Z) (r : TimeReference) : Prop :=
  0 <= captured_at r /\ u32 (unix_secs r) /\ unix_secs r = (epoch + captured_at r) / TICK_HZ.

Lemma seconds_between a b :
  (a + b) / TICK_HZ - 1 <= a / TICK_HZ + b / TICK_HZ <= (a + b) / TICK_HZ.
Proof. unfold TICK_HZ. Z.div_mod_to_equations. lia. Qed.

Lemma now_elapsed now r : captured_at r <= now < 2 ^ 63 -> u32 (unix_secs r) -> 0 <= captured_at r ->
  now_unix_secs now r = Some (unix_secs r + as_secs (now - captured_at r)).
Proof.
  intros Hn Hu Hc. unfold now_unix_secs, duration_since. rewrite (proj2 (Z.leb_le _ _)) by lia. cbn.
  f_equal. apply Z.mod_small. unfold as_secs, TICK_HZ.
  change (2 ^ 63) with 9223372036854775808 in Hn.
  assert (0 <= (now - captured_at r) / 1000000 <= now - captured_at r) by (Z.div_mod_to_equations; lia).
  num.
Qed.

(** with a clock that is exact in the second it was read from the
    server, the time the device tells at any later instant is the true Unix
    second or the one before; the conversion of an instant agrees with it
    from the capture on, and for an earlier instant (a reading received
    before the synchronisation) gives the true second or the one after. *)
Theorem time_reference_accuracy (epoch ins : Z) (r : TimeReference)
    (Hr : Exact epoch r) (Hi : 0 <= ins < 2 ^ 63) (He : 0 <= epoch) :
  (captured_at r <= ins ->
   now_unix_secs ins r = Some (as_unix_secs ins r) /\
   (epoch + ins) / TICK_HZ - 1 <= as_unix_secs ins r <= (epoch + ins) / TICK_HZ) /\
  (ins < captured_at r ->
   now_unix_secs ins r = None /\
   (epoch + ins) / TICK_HZ <= as_unix_secs ins r <= (epoch + ins) / TICK_HZ + 1).
Proof.
  destruct Hr as (Hc & Hu & Hs). unfold as_unix_secs. split; intros Hle.
  - rewrite now_elapsed by (done || lia). rewrite (proj2 (Z.leb_le _ _)) by lia.
    pose proof (seconds_between (epoch + captured_at r) (ins - captured_at r)) as Hb.
    replace (epoch + captured_at r + (ins - captured_at r)) with (epoch + ins) in Hb by lia.
    rewrite <- Hs in Hb. unfold as_secs.
    assert (0 <= (ins - captured_at r) / TICK_HZ <= ins) as Hq
      by (unfold TICK_HZ; Z.div_mod_to_equations; lia).
    change (2 ^ 63) with 9223372036854775808 in Hi.
    assert (sat_add 64 (unix_secs r) ((ins - captured_at r) / TICK_HZ) =
            unix_secs r + (ins - captured_at r) / TICK_HZ) as -> by num.
    split; [done | lia].
  - unfold now_unix_secs, duration_since. rewrite (proj2 (Z.leb_gt _ _)) by lia. split; [done|].
    pose proof (seconds_between (epoch + ins) (captured_at r - ins)) as Hb.
    replace (epoch + ins + (captured_at r - ins)) with (epoch + captured_at r) in Hb by lia.
    rewrite <- Hs in Hb. unfold as_secs, sat_sub.
    assert (0 <= (epoch + ins) / TICK_HZ) by (apply Z.div_pos; unfold TICK_HZ; lia). lia.
Qed.

Lemma dec2_spec n : 0 <= n < 100 ->
  length (dec2 n) = 2%nat /\ Forall (fun b => is_digit b = true) (dec2 n) /\
  decimal_value (dec2 n) = n.
Proof.
  intros Hn. set (f := fun n => bool_decide (length (dec2 n) = 2%nat) && forallb is_digit (dec2 n)
    && (decimal_value (dec2 n) =? n)).
  assert (f n = true) as Hf by (apply (forall_below 100); [vm_compute; reflexivity | lia]).
  unfold f in Hf. apply andb_true_iff in Hf as [[Hl Hd]%andb_true_iff Hv%Z.eqb_eq].
  split_and!; [by apply bool_decide_eq_true in Hl | | done].
  apply Forall_forall. intros b Hb. apply list_elem_of_In in Hb.
  by apply (proj1 (forallb_forall _ _) Hd).
Qed.

(** the clock text written into an empty buffer is eight characters,
    two digits each of hour, minute and second between colons, and reads as
    the Finnish local time of day of the device's Unix time, with an hour of
    daylight saving time exactly when the rule says so. *)
Theorem format_time_spec (epoch now : Z) (r : TimeReference)
    (Hr : Exact epoch r) (Hn : captured_at r <= now < 2 ^ 47) :
  exists s dst h m sec, now_unix_secs now r = Some s /\ is_dst_active s = Some dst /\
    format_time now r [] = Some (h ++ 58 :: m ++ 58 :: sec) /\
    Forall (fun f => length f = 2%nat /\ Forall (fun b => is_digit b = true) f) [h; m; sec] /\
    decimal_value h < 24 /\ decimal_value m < 60 /\ decimal_value sec < 60 /\
    3600 * decimal_value h + 60 * decimal_value m + decimal_value sec =
      (s + 7200 + (if dst then 3600 else 0)) mod 86400.
Proof.
  destruct Hr as (Hc & Hu & _). change (2 ^ 47) with 140737488355328 in Hn.
  assert (2 ^ 63 = 9223372036854775808) as E63 by done.
  exists (unix_secs r + as_secs (now - captured_at r)).
  rewrite now_elapsed by (done || lia). unfold format_time. rewrite now_elapsed by (done || lia).
  cbn [mbind option_bind].
  destruct (to_local_hms_spec TIMEZONE (unix_secs r + as_secs (now - captured_at r)))
    as (dst & h & m & sec & Hdst & Hh & Bh & Bm & Bs & E).
  { unfold as_secs, TICK_HZ.
    assert (0 <= (now - captured_at r) / 1000000 <= 140737489) by (Z.div_mod_to_equations; lia). num. }
  { cbn. lia. }
  rewrite Hh. cbn [mbind option_bind].
  destruct (dec2_spec h) as (Lh & Dh & Vh); [lia|]. destruct (dec2_spec m) as (Lm & Dm & Vm); [lia|].
  destruct (dec2_spec sec) as (Ls & Ds & Vs); [lia|].
  exists dst, (dec2 h), (dec2 m), (dec2 sec). rewrite Vh, Vm, Vs.
  destruct (write_fits 16 [dec2 h; [58]; dec2 m; [58]; dec2 sec]) as [_ Hw].
  { cbn. rewrite !length_app; cbn; rewrite !length_app; cbn; rewrite length_app. cbn. lia. }
  rewrite Hw. split_and!; try done; try lia.
  - f_equal. cbn. by rewrite app_nil_r.
  - repeat constructor; done.
Qed.

(** the timestamp generator's two fields do not form a time since its
    start. Read as a signed number the microseconds make the sum exact, but
    they are returned as a [u32]: whenever the clock's fraction of a second
    is below the one at the start they wrap to more than four billion
    instead of staying below a million. *)
Theorem timestamp_gen_spec (start now : Z) (Hs : 0 <= start <= now) (Hn : now < 2 ^ 63) :
  let g := EmbassyTimestampGen_new start in
  timestamp_sec now g * 1000000 + wraps 32 (timestamp_subsec_micros now g) = now - start /\
  (start mod 1000000 <= now mod 1000000 ->
   timestamp_subsec_micros now g = (now - start) mod 1000000 /\
   timestamp_sec now g = (now - start) / 1000000) /\
  (now mod 1000000 < start mod 1000000 ->
   timestamp_subsec_micros now g = 2 ^ 32 - (start mod 1000000 - now mod 1000000) /\
   timestamp_sec now g = (now - start) / 1000000 + 1).
Proof.
  cbv zeta. change (2 ^ 63) with 9223372036854775808 in Hn.
  unfold timestamp_sec, timestamp_subsec_micros, EmbassyTimestampGen_new, as_secs, as_micros, TICK_HZ.
  cbn [start_secs start_micros].
  pose proof (Z.mod_pos_bound start 1000000 ltac:(lia)). pose proof (Z.mod_pos_bound now 1000000 ltac:(lia)).
  pose proof (Z.div_mod start 1000000 ltac:(lia)). pose proof (Z.div_mod now 1000000 ltac:(lia)).
  assert (forall x, 0 <= x < 1000000 -> wrap 32 x = x) as Hw
    by (intros x Hx; apply Z.mod_small; change (2 ^ 32) with 4294967296; lia).
  rewrite (Hw (start mod 1000000)), (Hw (now mod 1000000)) by lia.
  assert (wrap 64 (now / 1000000 - start / 1000000) = now / 1000000 - start / 1000000) as ->.
  { apply Z.mod_small. change (2 ^ 64) with 18446744073709551616. Z.div_mod_to_equations. lia. }
  set (a := now mod 1000000) in *. set (b := start mod 1000000) in *.
  set (x := now / 1000000) in *. set (y := start / 1000000) in *.
  assert (a < b -> wrap 32 (a - b) = 4294967296 + (a - b)) as Hneg.
  { intros Hab. unfold wrap. change (2 ^ 32) with 4294967296.
    symmetry. apply (Z.mod_unique _ _ (-1)); lia. }
  assert (b <= a -> wrap 32 (a - b) = a - b) as Hpos by (intros; apply Hw; lia).
  split_and!.
  - unfold wraps. change (2 ^ (32 - 1)) with 2147483648. change (2 ^ 32) with 4294967296.
    destruct (Z.lt_ge_cases a b) as [Hab|Hab]; [rewrite Hneg by done | rewrite Hpos by done].
    + rewrite <- (Z.mod_unique (4294967296 + (a - b) + 2147483648) 4294967296 1
        (2147483648 + (a - b))) by lia. lia.
    + rewrite Z.mod_small by lia. lia.
  - intros Hab. rewrite Hpos by done. split.
    + apply (Z.mod_unique _ _ (x - y)); lia.
    + apply (Z.div_unique _ _ _ (a - b)); lia.
  - intros Hab. rewrite Hneg by done. change (2 ^ 32) with 4294967296. split; [lia|].
    rewrite <- (Z.div_unique (now - start) 1000000 (x - y - 1) (a - b + 1000000)) by lia. lia.
Qed.

Section SyncProperties.
Context {N : Type} `{SntpLaws N}.
Context (NTP_SERVER_IPV4_LIST : bytes).

Definition configured : list Ipv4Addr :=
  as_slice (parse_ntp_server_list NTP_SERVER_IPV4_LIST DEFAULT_NTP_SERVER_IPV4).

(** A reference that a configured server's answer gave at a time between two
    instants. *)
Definition Answered (lo hi : Z) (r : TimeReference) : Prop :=
  exists server_ip n n', server_ip ∈ configured /\
    get_time (server_ip, NTP_PORT) (EmbassyTimestampGen_new (instant n)) n
      = (Some (unix_secs r), n') /\
    captured_at r = instant n' /\ lo <= captured_at r <= hi /\ u32 (unix_secs r).

Lemma answered_widen lo hi lo' hi' r : lo' <= lo -> hi <= hi' ->
  Answered lo hi r -> Answered lo' hi' r.
Proof.
  intros Hlo Hhi (a & n & n' & Ha & Hg & Hc & Hb & Hu). exists a, n, n'. split_and!; (done || lia).
Qed.

Lemma try_servers_spec ips n : ips ⊆ configured ->
  let '(o, n') := try_servers ips n in
  instant n <= instant n' /\ (forall r, o = Some r -> Answered (instant n) (instant n') r).
Proof.
  revert n. induction ips as [|a ips IH]; intros n Hin; cbn [try_servers]; [done|].
  pose proof (get_time_time (a, NTP_PORT) (EmbassyTimestampGen_new (instant n)) n) as Ht.
  pose proof (get_time_u32 (a, NTP_PORT) (EmbassyTimestampGen_new (instant n)) n) as Hu.
  destruct (get_time _ _ n) as [[s|] n1] eqn:E; cbn in Ht, Hu.
  - split; [done|]. intros r [= <-]. exists a, n, n1. cbn. split_and!; try done; try lia.
    + apply Hin, list_elem_of_here.
    + by apply Hu.
  - specialize (IH n1 ltac:(set_solver)). destruct (try_servers ips n1) as [o n2].
    destruct IH as [Hle IH]. split; [lia|]. intros r Hr. eapply answered_widen; [| |by apply IH]; lia.
Qed.

Lemma sync_once_spec n :
  let '(o, n') := sync_time_once NTP_SERVER_IPV4_LIST n in
  instant n <= instant n' /\ (forall r, o = Some r -> Answered (instant n) (instant n') r).
Proof.
  unfold sync_time_once. pose proof (wait_time n) as Hw.
  pose proof (bind_time 0 (wait_for_config_up n)) as Hb.
  destruct (bind 0 (wait_for_config_up n)) as [[] n1]; cbn [negb] in *; cbn in Hb; [|split; [lia | done]].
  pose proof (try_servers_spec configured n1 ltac:(done)) as Ht. fold configured.
  destruct (try_servers configured n1) as [o n2]. destruct Ht as [Hle Ht].
  split; [lia|]. intros r Hr. eapply answered_widen; [| |by apply Ht]; lia.
Qed.

(** References at least an hour apart. *)
Definition hourly : relation TimeReference :=
  fun r r' => captured_at r + RESYNC_INTERVAL_SECS * TICK_HZ <= captured_at r'.

Lemma resync_spec rounds n :
  let '(sent, n') := resync NTP_SERVER_IPV4_LIST rounds n in
  instant n + Z.of_nat rounds * (RESYNC_INTERVAL_SECS * TICK_HZ) <= instant n' /\
  Forall (Answered (instant n + RESYNC_INTERVAL_SECS * TICK_HZ) (instant n')) sent /\
  StronglySorted hourly sent.
Proof.
  revert n. induction rounds as [|rounds IH]; intros n; cbn [resync].
  { split_and!; [lia | constructor | constructor]. }
  pose proof (timer_time RESYNC_INTERVAL_SECS n ltac:(done)) as Ht.
  pose proof (sync_once_spec (timer_after RESYNC_INTERVAL_SECS n)) as Hs.
  destruct (sync_time_once _ _) as [o n1]. destruct Hs as [Hle Hs].
  specialize (IH n1). destruct (resync _ rounds n1) as [sent n2]. destruct IH as (Hn & Ha & Hsort).
  rewrite Nat2Z.inj_succ, Z.mul_succ_l.
  assert (0 <= RESYNC_INTERVAL_SECS * TICK_HZ) as Hp by done.
  assert (0 <= Z.of_nat rounds * (RESYNC_INTERVAL_SECS * TICK_HZ)) as Hq by (apply Z.mul_nonneg_nonneg; lia).
  assert (Forall (Answered (instant n + RESYNC_INTERVAL_SECS * TICK_HZ) (instant n2)) sent) as Hall.
  { eapply Forall_impl; [exact Ha|]. intros r. apply answered_widen; lia. }
  destruct o as [r|]; [|split_and!; (done || lia)].
  specialize (Hs r eq_refl). split_and!; [lia | constructor; [|done] | constructor; [done|]].
  - eapply answered_widen; [| |exact Hs]; lia.
  - destruct Hs as (_ & _ & _ & _ & _ & _ & Hb & _).
    eapply Forall_impl; [exact Ha|]. intros r' (_ & _ & _ & _ & _ & _ & Hb' & _).
    unfold hourly. lia.
Qed.

Lemma initial_sync_spec attempts n :
  match initial_sync NTP_SERVER_IPV4_LIST attempts n with
  | (None, n') => instant n + Z.of_nat attempts * (10 * TICK_HZ) <= instant n'
  | (Some r, n') => Answered (instant n) (instant n') r
  end.
Proof.
  revert n. induction attempts as [|attempts IH]; intros n; cbn [initial_sync]; [lia|].
  pose proof (sync_once_spec n) as Hs. destruct (sync_time_once _ n) as [o n1].
  destruct Hs as [Hle Hs]. destruct o as [r|]; [by apply Hs|].
  pose proof (timer_time 10 n1 ltac:(done)) as Ht. specialize (IH (timer_after 10 n1)).
  assert (0 <= 10 * TICK_HZ) by done.
  destruct (initial_sync _ attempts _) as [[r|] n2].
  - eapply answered_widen; [| |exact IH]; lia.
  - rewrite Nat2Z.inj_succ, Z.mul_succ_l. lia.
Qed.

Lemma resync_length rounds n : (length (resync NTP_SERVER_IPV4_LIST rounds n).1 <= rounds)%nat.
Proof.
  revert n. induction rounds as [|k IH]; intros n; cbn [resync]; [done|].
  destruct (sync_time_once _ _) as [o n1]. specialize (IH n1).
  destruct (resync _ k n1) as [sent n2]. destruct o; cbn in *; lia.
Qed.

(** When the task publishes. *)
Lemma loop_times attempts rounds n :
  let '(sent, n') := time_sync_loop NTP_SERVER_IPV4_LIST attempts rounds n in
  Forall (Answered (instant n) (instant n')) sent /\ StronglySorted hourly sent /\
  (length sent <= S rounds)%nat /\
  (sent = [] -> instant n + Z.of_nat attempts * (10 * TICK_HZ) <= instant n').
Proof.
  unfold time_sync_loop. pose proof (initial_sync_spec attempts n) as Hi.
  destruct (initial_sync _ attempts n) as [[r|] n1].
  - pose proof (resync_spec rounds n1) as Hr. pose proof (resync_length rounds n1) as Hlen.
    destruct (resync _ rounds n1) as [sent n2]. destruct Hr as (Hn & Ha & Hs).
    assert (0 <= RESYNC_INTERVAL_SECS * TICK_HZ) as Hp by done.
    assert (0 <= Z.of_nat rounds * (RESYNC_INTERVAL_SECS * TICK_HZ)) as Hq by (apply Z.mul_nonneg_nonneg; lia).
    pose proof Hi as (_ & _ & _ & _ & _ & _ & Hb & _).
    split_and!; [constructor | constructor; [done|] | cbn in *; lia | done].
    + eapply answered_widen; [| |exact Hi]; lia.
    + eapply Forall_impl; [exact Ha|]. intros r'. apply answered_widen; lia.
    + eapply Forall_impl; [exact Ha|]. intros r' (_ & _ & _ & _ & _ & _ & Hb' & _).
      unfold hourly. lia.
  - split_and!; [constructor | constructor | cbn; lia | done].
Qed.
End SyncProperties.

(** *** What the task does, in order *)

(** The calls a synchronisation leaves traces of: a socket that could not be
    bound, a request with its answer and the instant it came, and a wait. *)
Inductive sync_event :=
| NoSocket
| Asked (server : Ipv4Addr * Z) (answer : option Z) (at_ : Z)
| Slept (secs : Z).

(** A network that keeps a log of these calls. *)
Record Watched (N : Type) := { network : N; events : list sync_event }.
Arguments network {N} w.
Arguments events {N} w.
Definition watch {N} (n : N) : Watched N := {| network := n; events := [] |}.
Definition logged {N} (w : Watched N) (n : N) (es : list sync_event) : Watched N :=
  {| network := n; events := events w ++ es |}.

#[export] Instance watched_sntp {N} `{Sntp N} : Sntp (Watched N) := {
  instant w := instant (network w);
  wait_for_config_up w := logged w (wait_for_config_up (network w)) [];
  bind port w :=
    let (bound, n) := bind port (network w) in
    (bound, logged w n (if bound : bool then [] else [NoSocket]));
  get_time server context w :=
    let (answer, n) := get_time server context (network w) in
    (answer, logged w n [Asked server answer (instant n)]);
  timer_after secs w := logged w (timer_after secs (network w)) [Slept secs]
}.

Section Log.
Context {N : Type} `{SntpLaws N}.
Context (NTP_SERVER_IPV4_LIST : bytes).
Abbreviation servers := (configured NTP_SERVER_IPV4_LIST).

(** The server did not answer. *)
Definition missed (server_ip : Ipv4Addr) (e : sync_event) : Prop :=
  exists at_, e = Asked (server_ip, NTP_PORT) None at_.
(** The servers are asked one after the other up to the first that answers. *)
Definition FirstAnswer (ips : list Ipv4Addr) (es : list sync_event) (r : TimeReference) : Prop :=
  exists pre a post misses, ips = pre ++ a :: post /\ Forall2 missed pre misses /\
    es = misses ++ [Asked (a, NTP_PORT) (Some (unix_secs r)) (captured_at r)].
(** One synchronisation: what it leaves in the log, and its result. *)
Inductive Attempt : list sync_event -> option TimeReference -> Prop :=
| attempt_unbound : Attempt [NoSocket] None
| attempt_missed es : Forall2 missed servers es -> Attempt es None
| attempt_answered es r : FirstAnswer servers es r -> Attempt es (Some r).

(** The log of the task and what it has published: failed synchronisations,
    ten seconds after each; the first that succeeds; and after every hour
    another one, which is published if it succeeds. *)
Definition Published (attempts rounds : nat) (es : list sync_event) (sent : list TimeReference) : Prop :=
  exists failures, Forall (fun f => Attempt f None) failures /\
  let retries := mjoin ((fun f => f ++ [Slept 10]) <$> failures) in
  (length failures = attempts /\ es = retries /\ sent = [] \/
   exists first r later, (length failures < attempts)%nat /\ length later = rounds /\
     Attempt first (Some r) /\ Forall (fun round => Attempt round.1 round.2) later /\
     es = retries ++ first ++ mjoin ((fun round => Slept RESYNC_INTERVAL_SECS :: round.1) <$> later) /\
     sent = r :: omap snd later).

Lemma try_servers_log ips (w : Watched N) : exists es, let '(o, w') := try_servers ips w in
  try_servers ips (network w) = (o, network w') /\ events w' = events w ++ es /\
  match o with None => Forall2 missed ips es | Some r => FirstAnswer ips es r end.
Proof.
  revert w. induction ips as [|a ips IH]; intros w; cbn [try_servers].
  { exists []. by rewrite app_nil_r. }
  cbn [get_time watched_sntp]. change (instant w) with (instant (network w)).
  destruct (get_time _ _ (network w)) as [[s|] n1] eqn:E.
  - eexists. split_and!; [done..|]. by exists [], a, ips, [].
  - destruct (IH (logged w n1 [Asked (a, NTP_PORT) None (instant n1)])) as [es IHw].
    exists (Asked (a, NTP_PORT) None (instant n1) :: es).
    destruct (try_servers ips _) as [o w']. destruct IHw as (En & Ee & Ho). cbn [network logged events] in *.
    rewrite Ee, <- app_assoc. split_and!; [done..|]. destruct o as [r|].
    + destruct Ho as (pre & b & post & misses & -> & Hm & ->).
      exists (a :: pre), b, post, (Asked (a, NTP_PORT) None (instant n1) :: misses).
      split_and!; [done | constructor; [by eexists | done] | done].
    + constructor; [by eexists | done].
Qed.

Lemma sync_once_log (w : Watched N) : exists es, let '(o, w') := sync_time_once NTP_SERVER_IPV4_LIST w in
  sync_time_once NTP_SERVER_IPV4_LIST (network w) = (o, network w') /\
  events w' = events w ++ es /\ Attempt es o.
Proof.
  unfold sync_time_once. cbn [wait_for_config_up bind watched_sntp network logged events].
  destruct (bind 0 (wait_for_config_up (network w))) as [[] n1]; cbn [negb].
  - destruct (try_servers_log servers (logged (logged w (wait_for_config_up (network w)) []) n1 [])) as [es Ht].
    cbn [network logged events] in Ht. exists es. fold servers. destruct (try_servers servers (logged _ n1 [])) as [o w']. destruct Ht as (-> & -> & Ho).
    cbn. rewrite !app_nil_r. split_and!; [done..|]. destruct o; by constructor.
  - exists [NoSocket]. cbn. rewrite app_nil_r. split_and!; [done..|]. constructor.
Qed.

Lemma initial_sync_log attempts (w : Watched N) : exists failures es,
  let '(o, w') := initial_sync NTP_SERVER_IPV4_LIST attempts w in
  initial_sync NTP_SERVER_IPV4_LIST attempts (network w) = (o, network w') /\
  Forall (fun f => Attempt f None) failures /\
  events w' = events w ++ mjoin ((fun f => f ++ [Slept 10]) <$> failures) ++ es /\
  match o with
  | None => length failures = attempts /\ es = []
  | Some r => (length failures < attempts)%nat /\ Attempt es (Some r)
  end.
Proof.
  revert w. induction attempts as [|attempts IH]; intros w; cbn [initial_sync].
  { exists [], []. by rewrite !app_nil_r. }
  destruct (sync_once_log w) as [es Hs]. destruct (sync_time_once _ w) as [o w1].
  destruct Hs as (-> & Ee & Ha). destruct o as [r|].
  - exists [], es. split_and!; [done | done | done | cbn; lia | done].
  - destruct (IH (timer_after 10 w1)) as (failures & last & IHw).
    exists (es :: failures), last. destruct (initial_sync _ attempts _) as [o w2].
    destruct IHw as (En & Hf & Ee2 & Ho). cbn [network logged events timer_after watched_sntp] in *.
    split_and!; [done | by constructor | |].
    + rewrite Ee2, Ee. cbn. by rewrite <- !app_assoc.
    + destruct o; cbn [length]; destruct Ho as [? ?]; (split; [lia | done]).
Qed.

Lemma resync_log rounds (w : Watched N) : exists later,
  let '(sent, w') := resync NTP_SERVER_IPV4_LIST rounds w in
  resync NTP_SERVER_IPV4_LIST rounds (network w) = (sent, network w') /\
  length later = rounds /\ Forall (fun round => Attempt round.1 round.2) later /\
  events w' = events w ++ mjoin ((fun round => Slept RESYNC_INTERVAL_SECS :: round.1) <$> later) /\
  sent = omap snd later.
Proof.
  revert w. induction rounds as [|rounds IH]; intros w; cbn [resync].
  { exists []. by rewrite app_nil_r. }
  destruct (sync_once_log (timer_after RESYNC_INTERVAL_SECS w)) as [es Hs].
  destruct (sync_time_once _ (timer_after RESYNC_INTERVAL_SECS w)) as [o w1].
  cbn [network timer_after watched_sntp logged events] in Hs. destruct Hs as (-> & Ee & Ha).
  destruct (IH w1) as [later IHw]. exists ((es, o) :: later).
  destruct (resync _ rounds w1) as [sent w2]. destruct IHw as (-> & <- & Hl & Ee2 & ->).
  split_and!; [by destruct o | done | by constructor | | by destruct o].
  rewrite Ee2, Ee. cbn. by rewrite <- !app_assoc.
Qed.

(** C35: what the time task does, watched at the calls it makes. It asks the
    configured servers, at most four and none twice. A synchronisation asks
    them in their order up to the first that answers, and fails only when
    none of them answers or the socket cannot be bound. The task repeats it
    ten seconds after each failure until the first success, and from then on
    once after every hour; the first success and every later one is published,
    as the server's seconds with the instant they came at, and nothing else.
    So every reference on the watch is the answer of a configured server, and
    two are at least an hour apart. Watching changes nothing. *)
Theorem time_sync_loop_spec attempts rounds (n : N) :
  NoDup servers /\ (1 <= length servers <= MAX_NTP_SERVERS)%nat /\
  let '(sent, w) := time_sync_loop NTP_SERVER_IPV4_LIST attempts rounds (watch n) in
  time_sync_loop NTP_SERVER_IPV4_LIST attempts rounds n = (sent, network w) /\
  Published attempts rounds (events w) sent /\
  Forall (Answered NTP_SERVER_IPV4_LIST (instant n) (instant (network w))) sent /\
  StronglySorted hourly sent /\ (length sent <= S rounds)%nat /\
  (sent = [] -> instant n + Z.of_nat attempts * (10 * TICK_HZ) <= instant (network w)).
Proof.
  split; [apply list_nodup|]. split.
  { split; [|apply list_bounded].
    pose proof (list_nonempty NTP_SERVER_IPV4_LIST DEFAULT_NTP_SERVER_IPV4 ltac:(done)) as Hne.
    unfold configured. destruct (as_slice _); [done | cbn; lia]. }
  pose proof (loop_times NTP_SERVER_IPV4_LIST attempts rounds n) as Ht.
  unfold time_sync_loop in *. destruct (initial_sync_log attempts (watch n)) as (failures & es & Hi).
  destruct (initial_sync _ attempts (watch n)) as [[r|] w1]; destruct Hi as (Ei & Hf & Ee & Ho);
    cbn [network watch] in Ei; rewrite Ei in Ht |- *.
  - destruct (resync_log rounds w1) as [later Hr]. destruct (resync _ rounds w1) as [sent w2].
    destruct Hr as (Er & Hl & Ha & Ee2 & ->). rewrite Er in Ht |- *. cbn beta iota in Ht |- *.
    destruct Ht as (? & ? & ? & ?). split_and!; [done | | done..].
    exists failures. split; [done|]. right. exists es, r, later. destruct Ho as [Ho ?].
    split_and!; try done.
    rewrite Ee2, Ee. cbn [watch events app]. by rewrite <- !app_assoc.
  - cbn beta iota in Ht |- *. destruct Ht as (? & ? & ? & ?). split_and!; [done | | done..]. exists failures. split; [done|]. left.
    destruct Ho as [? ->]. by rewrite Ee, app_nil_r.
Qed.
End Log.

Module Sample.
(** A network that answers from a list, a tenth of a second per request. *)
Record net := { clock : Z; replies : list (option Z) }.

#[export] Instance net_sntp : Sntp net := {
  instant := clock;
  wait_for_config_up n := n;
  bind _ n := (true, n);
  get_time _ _ n :=
    match replies n with
    | [] => (None, {| clock := clock n + 100000; replies := [] |})
    | a :: l => (wrap 32 <$> a, {| clock := clock n + 100000; replies := l |})
    end;
  timer_after secs n := {| clock := clock n + secs * TICK_HZ; replies := replies n |}
}.

#[export] Instance net_sntp_laws : SntpLaws net.
Proof.
  split; cbn; intros.
  - lia.
  - lia.
  - destruct (replies n); cbn; lia.
  - destruct (replies n) as [|[a|] l]; cbn in *; simplify_eq.
    apply Z.mod_pos_bound. done.
  - lia.
Qed.

Definition start : net := {| clock := 5; replies := [None; None; None; Some 1700000000; None; Some 7] |}.
Definition secret : bytes := lit "129.6.15.28,132.163.97.1".
Definition published : list TimeReference :=
  [ {| unix_secs := 1700000000; captured_at := 10400005 |};
    {| unix_secs := 7; captured_at := 3610600005 |} ].

Example published_runs : (time_sync_loop secret 2 2 start).1 = published.
Proof. vm_compute. reflexivity. Qed.

(** Both servers miss twice, then the second answers, and an hour later the
    second again. *)
Lemma time_sync_loop_spec_witness :
  Forall (Answered secret (clock start) (clock (time_sync_loop secret 2 2 start).2)) published /\
  StronglySorted hourly published /\
  Published secret 2 2 (events (time_sync_loop secret 2 2 (watch start)).2) published.
Proof.
  pose proof (time_sync_loop_spec secret 2 2 start) as (_ & _ & Hs).
  destruct (time_sync_loop secret 2 2 (watch start)) as [sent w].
  destruct Hs as (E & Hp & Ha & Hs & _).
  assert (sent = published) as <- by (rewrite <- published_runs; by rewrite E).
  rewrite E. split; [exact Ha|]. split; [exact Hs | exact Hp].
Defined.

Definition reference : TimeReference := {| unix_secs := 1711846799; captured_at := 2500000 |}.
(** The Unix time in microseconds at instant 0. *)
Definition epoch : Z := 1711846797300000.
Lemma reference_exact : Exact epoch reference.
Proof. split_and!; [done | split; done | reflexivity]. Qed.

(** One second before the last Sunday of March turns to summer time. *)
Lemma format_time_spec_witness :
  exists s dst h m sec, now_unix_secs 3600000 reference = Some s /\ is_dst_active s = Some dst /\
    format_time 3600000 reference [] = Some (h ++ 58 :: m ++ 58 :: sec) /\
    3600 * decimal_value h + 60 * decimal_value m + decimal_value sec =
      (s + 7200 + (if dst then 3600 else 0)) mod 86400.
Proof.
  destruct (format_time_spec epoch 3600000 reference reference_exact ltac:(split; done))
    as (s & dst & h & m & sec & Hn & Hd & Hf & _ & _ & _ & _ & E).
  exists s, dst, h, m, sec. split_and!; assumption.
Defined.

Lemma time_reference_accuracy_witness :
  (epoch + 9900000) / TICK_HZ - 1 <= as_unix_secs 9900000 reference <= (epoch + 9900000) / TICK_HZ.
Proof.
  apply (time_reference_accuracy epoch 9900000 reference reference_exact); [split; done | done | done].
Defined.

Lemma timestamp_gen_spec_witness :
  timestamp_subsec_micros 1100000 (EmbassyTimestampGen_new 900000) = 2 ^ 32 - 800000.
Proof.
  apply (timestamp_gen_spec 900000 1100000 ltac:(lia) ltac:(done)). done.
Defined.
End Sample.
