(* ===== verification/Messages.v ===== *)
(** * Readings and settings between tasks

    [firmware/src/messages.rs] and [firmware/src/domain_map.rs]: the
    fixed-point telemetry record made of a radio reading, the radio and power
    settings and their defaults, the channel-bandwidth table and the
    signal-quality classes; and the display's own fixed-point conversion,
    [temp_to_deci] of [firmware/src/tasks/display/frame_model.rs]. *)
From S2P Require Import Prelude F32 ConfigRules Rubicson.

Record RadioReading := {
  inner : RubicsonReading;
  rssi : Z;
  detection_threshold : Z;
  received_at : Z
}.

Record TelemetryRecord := {
  sensor_id : Z;
  tr_channel : Z;
  temperature_deci_c : Z;
  tr_battery_ok : bool;
  timestamp : Z
}.

(** The rounded temperature: half away from zero, saturating. *)
Definition round_deci (temperature : f32) : Z :=
  let scaled_temperature := f32_mul temperature f32_ten in
  let rounded_temperature :=
    if f32_le f32_zero scaled_temperature then f32_add scaled_temperature f32_half
    else f32_sub scaled_temperature f32_half in
  if f32_lt (f32_from (smax 16)) rounded_temperature then smax 16
  else if f32_lt rounded_temperature (f32_from (smin 16)) then smin 16
  else f32_as_i16 rounded_temperature.

Definition to_telemetry_record (self : RadioReading) : TelemetryRecord := {|
  sensor_id := id self.(inner);
  tr_channel := channel self.(inner);
  temperature_deci_c := round_deci (temperature_c self.(inner));
  tr_battery_ok := battery_ok self.(inner);
  timestamp := self.(received_at)
|}.

(** The display truncates the scaled temperature instead of rounding it. *)
Definition temp_to_deci (temp : f32) : Z := f32_as_i16 (f32_mul temp f32_ten).

(** ** Settings *)

Abbreviation RadioSettings := RadioConfigView.
Abbreviation PowerSettings := PowerConfigView.

Definition DEFAULT_RADIO_SETTINGS : RadioSettings := {|
  detection_threshold_db := DEFAULT_DETECTION_THRESHOLD_DB;
  magn_target := DEFAULT_MAGN_TARGET;
  channel_bandwidth_index := DEFAULT_CHANNEL_BANDWIDTH_INDEX;
  carrier_sense_threshold := DEFAULT_CARRIER_SENSE_THRESHOLD |}.

Definition DEFAULT_POWER_SETTINGS : PowerSettings := {|
  predictive_sleep_enabled := POWER_DEFAULT_PREDICTIVE_SLEEP_ENABLED;
  sleep_duration_secs := POWER_DEFAULT_SLEEP_DURATION_SECS;
  ui_idle_timeout_secs := POWER_DEFAULT_UI_IDLE_TIMEOUT_SECS |}.

Definition channel_bandwidth_hz (index : Z) : Z :=
  if index =? 0 then 325000
  else if index =? 1 then 203000
  else if index =? 2 then 162000
  else if index =? 3 then 135000
  else DEFAULT_CHANNEL_BANDWIDTH_HZ.

Definition channel_bandwidth_index_of_hz (bandwidth_hz : Z) : Z :=
  if bandwidth_hz =? 325000 then 0
  else if bandwidth_hz =? 203000 then 1
  else if bandwidth_hz =? 162000 then 2
  else if bandwidth_hz =? 135000 then 3
  else DEFAULT_CHANNEL_BANDWIDTH_INDEX.

(** [domain.rs]: the display's view of a reading. *)
Record SensorReading := {
  sr_sensor_id : Z;
  sr_channel : Z;
  sr_battery_ok : bool;
  sr_temperature_c : f32;
  rssi_dbm : Z;
  sr_detection_threshold_db : Z
}.

Definition sensor_reading_from (reading : RadioReading) : SensorReading := {|
  sr_sensor_id := id reading.(inner);
  sr_channel := channel reading.(inner);
  sr_battery_ok := battery_ok reading.(inner);
  sr_temperature_c := temperature_c reading.(inner);
  rssi_dbm := reading.(rssi);
  sr_detection_threshold_db := reading.(detection_threshold)
|}.

Inductive SignalQuality := Excellent | Good | Fair | Poor.

Definition from_rssi (rssi : Z) : SignalQuality :=
  if -60 <? rssi then Excellent
  else if -75 <? rssi then Good
  else if -90 <? rssi then Fair
  else Poor.

Definition as_str (q : SignalQuality) : bytes :=
  lit match q with
      | Excellent => "Excellent" | Good => "Good" | Fair => "Fair" | Poor => "Poor"
      end.

(** ** Properties *)

(** Multiplying by ten undoes the decoder's division by ten exactly enough
    for both conversions, checked over the twelve-bit range. *)
Lemma deci_exact raw :
  -2048 <= raw < 2048 ->
  round_deci (f32_div (f32_from raw) f32_ten) = raw /\
  temp_to_deci (f32_div (f32_from raw) f32_ten) = raw.
Proof.
  intros H.
  pose (f := fun t => let x := f32_div (f32_from (t - 2048)) f32_ten in
    (round_deci x =? t - 2048) && (temp_to_deci x =? t - 2048)).
  assert (f (raw + 2048) = true) as Hf.
  { apply (forall_below (Z.to_nat 4096)); [vm_compute; reflexivity | lia]. }
  unfold f in Hf. replace (raw + 2048 - 2048) with raw in Hf by lia. by bools.
Qed.

(** from the air to the broker and the display: for every reading the
    sensor can encode, the telemetry record carries the transmitted
    identity, channel, battery flag and the exact temperature in tenths of a
    degree, and the display's truncating conversion shows the same number,
    although both go through single-precision arithmetic. *)
Theorem telemetry_record_exact (reading : RadioReading) (sensor channel0 : Z)
    (battery : bool) (temp_raw : Z)
    (Hinner : inner reading = reading_of sensor channel0 battery temp_raw)
    (Htemp : -2048 <= temp_raw < 2048) :
  to_telemetry_record reading = {|
    sensor_id := sensor; tr_channel := channel0 + 1; temperature_deci_c := temp_raw;
    tr_battery_ok := battery; timestamp := received_at reading |} /\
  temp_to_deci (sr_temperature_c (sensor_reading_from reading)) = temp_raw.
Proof.
  destruct (deci_exact temp_raw Htemp) as [H1 H2].
  unfold to_telemetry_record, sensor_reading_from, reading_of in *. rewrite Hinner.
  cbn [id channel temperature_c battery_ok sr_temperature_c]. by rewrite H1, H2.
Qed.

Example telemetry_record_exact_witness :
  let reading := {| inner := reading_of 230 0 true (-94); rssi := -70;
                    detection_threshold := 8; received_at := 5 |} in
  temperature_deci_c (to_telemetry_record reading) = -94.
Proof.
  intros reading.
  by rewrite (proj1 (telemetry_record_exact reading 230 0 true (-94) eq_refl ltac:(lia))).
Defined.

(** on clamped settings the bandwidth index and the bandwidth in hertz
    determine each other. *)
Theorem channel_bandwidth_bijective (settings : RadioSettings) :
  let i := channel_bandwidth_index (clamp_radio_config settings) in
  channel_bandwidth_index_of_hz (channel_bandwidth_hz i) = i /\
  forall j, channel_bandwidth_hz j = channel_bandwidth_hz i -> 0 <= j <= 3 -> j = i.
Proof.
  intros i.
  assert (i = 0 \/ i = 1 \/ i = 2 \/ i = 3) as Hi
    by (unfold i, clamp_radio_config, clamp, CHANNEL_BANDWIDTH_MIN_INDEX,
          CHANNEL_BANDWIDTH_MAX_INDEX; cbn; lia).
  clearbody i. split; [by destruct Hi as [->|[->|[->| ->]]]|].
  intros j Hj Hr. assert (j = 0 \/ j = 1 \/ j = 2 \/ j = 3) as Hj' by lia.
  destruct Hi as [->|[->|[->| ->]]], Hj' as [->|[->|[->| ->]]]; done.
Qed.
