(* ===== verification/Telemetry.v ===== *)
(** * The telemetry pipeline

    [crates/telemetry-core] and its firmware adapter
    [firmware/src/telemetry.rs]: the expiring duplicate filter, the bounded
    queue with its two drop policies, and the adapter that puts the filter in
    front of a channel and counts what it drops. The containers are the
    interfaces of [Heapless]. *)
From stdpp Require Import functions sorting.
From S2P Require Import Prelude Heapless Messages.

#[export] Instance TelemetryRecord_eq_dec : EqDecision TelemetryRecord.
Proof. solve_decision. Defined.

(** ** Duplicate filter [dedupe.rs] *)

Inductive DedupeOutcome := New | Duplicate.

Record DedupeKey := {
  key_sensor_id : Z;
  key_channel : Z;
  key_temperature_deci_c : Z;
  key_battery_ok : bool
}.
#[export] Instance DedupeKey_eq_dec : EqDecision DedupeKey.
Proof. solve_decision. Defined.

Record CacheEntry := { key : DedupeKey; expires_at : Z }.

Definition dedupe_key (record : TelemetryRecord) : DedupeKey := {|
  key_sensor_id := sensor_id record;
  key_channel := tr_channel record;
  key_temperature_deci_c := temperature_deci_c record;
  key_battery_ok := tr_battery_ok record
|}.

(** Index of the entry that expires first, the earliest of equals:
    [enumerate().min_by_key(..)]. *)
Fixpoint oldest_from (i best : nat) (best_expiry : Z) (entries : list CacheEntry) : nat :=
  match entries with
  | [] => best
  | e :: entries =>
      if expires_at e <? best_expiry then oldest_from (S i) i (expires_at e) entries
      else oldest_from (S i) best best_expiry entries
  end.
Definition oldest (entries : list CacheEntry) : option nat :=
  match entries with
  | [] => None
  | e :: entries => Some (oldest_from 1 0 (expires_at e) entries)
  end.

Section Dedupe.
Context {V : Type -> nat -> Type} `{FixedVecLaws V} {N : nat}.

Record DedupeCache := { ttl_ms : Z; entries : V CacheEntry N }.

Definition DedupeCache_new (ttl : Z) : DedupeCache := {| ttl_ms := ttl; entries := vec_new |}.

Definition prune_expired (self : DedupeCache) (now_ms : Z) : DedupeCache := {|
  ttl_ms := ttl_ms self;
  entries := vec_retain (fun entry => now_ms <? expires_at entry) (entries self) |}.

(** [None] is the panic of [remove], which the index found excludes. *)
Definition evict_oldest (self : DedupeCache) : option DedupeCache :=
  match oldest (vec_list (entries self)) with
  | None => Some self
  | Some idx =>
      '(_, v) ← vec_remove idx (entries self);
      Some {| ttl_ms := ttl_ms self; entries := v |}
  end.

Definition observe (self : DedupeCache) (record : TelemetryRecord) (now_ms : Z)
  : option (DedupeOutcome * DedupeCache) :=
  let self := prune_expired self now_ms in
  let k := dedupe_key record in
  if existsb (fun entry => bool_decide (key entry = k)) (vec_list (entries self))
  then Some (Duplicate, self)
  else
    let new_entry := {| key := k; expires_at := sat_add 64 now_ms (ttl_ms self) |} in
    match vec_push new_entry (entries self) with
    | Ok v => Some (New, {| ttl_ms := ttl_ms self; entries := v |})
    | Err _ =>
        self ← evict_oldest self;
        match vec_push new_entry (entries self) with
        | Ok v => Some (New, {| ttl_ms := ttl_ms self; entries := v |})
        | Err _ => Some (New, self)
        end
    end.

(** What a reader of the cache sees: the pairs it holds. *)
Definition contents (self : DedupeCache) : list CacheEntry := vec_list (entries self).

Definition live (now_ms : Z) (l : list CacheEntry) : list CacheEntry :=
  filter (fun e => (now_ms <? expires_at e) = true) l.
Definition holds (k : DedupeKey) (l : list CacheEntry) : bool :=
  existsb (fun entry => bool_decide (key entry = k)) l.

Lemma contents_new ttl : contents (DedupeCache_new ttl) = [].
Proof. apply vec_new_list. Qed.

Lemma contents_prune self now : contents (prune_expired self now) = live now (contents self).
Proof. apply vec_retain_list. Qed.

Lemma oldest_from_spec i best best_expiry l :
  let r := oldest_from i best best_expiry l in
  (r = best /\ (forall j e, l !! j = Some e -> best_expiry <= expires_at e)) \/
  (exists j e, l !! j = Some e /\ r = (i + j)%nat /\ expires_at e < best_expiry /\
     (forall j' e', l !! j' = Some e' -> expires_at e <= expires_at e') /\
     (forall j' e', (j' < j)%nat -> l !! j' = Some e' -> expires_at e < expires_at e')).
Proof.
  cbn zeta. revert i best best_expiry. induction l as [|x l IH]; intros i best be; cbn [oldest_from].
  { left. split; [done|]. intros j e. by rewrite lookup_nil. }
  destruct (Z.ltb_spec (expires_at x) be) as [Hlt|Hge].
  - right. destruct (IH (S i) i (expires_at x)) as [[-> Hmin] | (j & e & Hj & -> & He & Hmin & Hfst)].
    + exists 0%nat, x. split_and!; [done | lia | done | |].
      * intros [|j'] e' Hj'; cbn in Hj'; [simplify_eq; lia | eauto].
      * intros; lia.
    + exists (S j), e. split_and!; [done | lia | lia | |].
      * intros [|j'] e' Hj'; cbn in Hj'; [simplify_eq; lia | eauto].
      * intros [|j'] e' ? Hj'; cbn in Hj'; [simplify_eq; lia | eapply Hfst; [|done]; lia].
  - destruct (IH (S i) best be) as [[-> Hmin] | (j & e & Hj & -> & He & Hmin & Hfst)].
    + left. split; [done|]. intros [|j'] e' Hj'; cbn in Hj'; [simplify_eq; lia | eauto].
    + right. exists (S j), e. split_and!; [done | lia | lia | |].
      * intros [|j'] e' Hj'; cbn in Hj'; [simplify_eq; lia | eauto].
      * intros [|j'] e' ? Hj'; cbn in Hj'; [simplify_eq; lia | eapply Hfst; [|done]; lia].
Qed.

(** [first_min i l]: entry [i] expires first, and strictly before the
    entries in front of it. *)
Definition first_min (i : nat) (l : list CacheEntry) : Prop :=
  exists e, l !! i = Some e /\ (forall j e', l !! j = Some e' -> expires_at e <= expires_at e') /\
    (forall j e', (j < i)%nat -> l !! j = Some e' -> expires_at e < expires_at e').

Lemma oldest_spec l :
  match oldest l with Some i => first_min i l | None => l = [] end.
Proof.
  destruct l as [|x l]; cbn [oldest]; [done|].
  destruct (oldest_from_spec 1 0 (expires_at x) l) as [[-> Hmin] | (j & e & Hj & -> & He & Hmin & Hf)].
  - exists x. split_and!; [done | | intros; lia].
    intros [|j] e' Hj; cbn in Hj; [simplify_eq; lia | eauto].
  - exists e. split_and!; [done | |].
    + intros [|j'] e' Hj'; cbn in Hj'; [simplify_eq; lia | eauto].
    + intros [|j'] e' ? Hj'; cbn in Hj'; [simplify_eq; lia | eapply Hf; [|done]; lia].
Qed.

Lemma evict_oldest_spec self :
  exists self', evict_oldest self = Some self' /\ ttl_ms self' = ttl_ms self /\
    match oldest (contents self) with
    | Some i => contents self' = delete i (contents self)
    | None => contents self' = contents self
    end.
Proof.
  unfold evict_oldest, contents. pose proof (oldest_spec (vec_list (entries self))) as Ho.
  destruct (oldest (vec_list (entries self))) as [i|]; [|by eauto].
  destruct Ho as (e & He & _). destruct (vec_remove_some _ _ _ He) as (v & Hv & Hl).
  rewrite Hv. eexists; split; [done|]. by split.
Qed.

Lemma observe_step (self : DedupeCache) (record : TelemetryRecord) (now_ms : Z) :
  let l := live now_ms (contents self) in
  let entry := {| key := dedupe_key record;
                  expires_at := sat_add 64 now_ms (ttl_ms self) |} in
  exists outcome self', observe self record now_ms = Some (outcome, self') /\
    ttl_ms self' = ttl_ms self /\
    if holds (dedupe_key record) l then outcome = Duplicate /\ contents self' = l
    else outcome = New /\
      if bool_decide (length l < N)%nat then contents self' = l ++ [entry]
      else (N = 0%nat /\ contents self' = []) \/
        exists i, first_min i l /\ contents self' = delete i l ++ [entry].
Proof.
  intros l entry. unfold observe.
  pose proof (contents_prune self now_ms) as Hl. fold l in Hl.
  pose proof (vec_capacity (entries (prune_expired self now_ms))) as Hcap.
  fold (contents (prune_expired self now_ms)) in Hcap |- *. rewrite Hl in Hcap.
  fold (holds (dedupe_key record) (contents (prune_expired self now_ms))). rewrite Hl.
  destruct (holds (dedupe_key record) l); [by do 2 eexists|].
  change (ttl_ms (prune_expired self now_ms)) with (ttl_ms self). fold entry.
  case_bool_decide as Hroom.
  - destruct (vec_push_room entry (entries (prune_expired self now_ms))) as (v & -> & Hv).
    { unfold contents in Hl. by rewrite Hl. }
    do 2 eexists; split; [done|]. unfold contents in *. cbn [ttl_ms entries]. by rewrite Hv, Hl.
  - rewrite vec_push_full by (unfold contents in Hl; rewrite Hl; lia).
    destruct (evict_oldest_spec (prune_expired self now_ms)) as (self' & -> & Httl & Ho).
    cbn [mbind option_bind]. rewrite Hl in Ho. pose proof (oldest_spec l) as Hmin.
    destruct (oldest l) as [i|].
    + assert (i < length l)%nat as Hi by (destruct Hmin as (e & He & _); by eapply lookup_lt_Some).
      destruct (vec_push_room entry (entries self')) as (v & -> & Hv).
      { fold (contents self'). rewrite Ho, length_delete; [lia|].
        by apply lookup_lt_is_Some_2. }
      do 2 eexists; split; [done|]. cbn [ttl_ms]. split_and!; try done.
      right. exists i. split; [done|]. unfold contents at 1. cbn [entries]. rewrite Hv.
      by fold (contents self'); rewrite Ho.
    + rewrite Hmin in Ho, Hroom, Hcap. cbn in Hroom.
      rewrite vec_push_full by (fold (contents self'); rewrite Ho; cbn; lia).
      do 2 eexists; split; [done|]. split_and!; try done. left. split; [lia|].
      by rewrite Ho.
Qed.
(** observing a record first forgets the expired entries. A record whose
    sensor, channel, temperature and battery state are among the live ones
    is a duplicate and leaves them; any other is new and is appended with
    its expiry, in place of the entry that expires first (the oldest of
    equals) when the cache is full. It never panics. *)
Theorem observe_spec (self : DedupeCache) (record : TelemetryRecord) (now_ms : Z) :
  let l := live now_ms (contents self) in
  let entry := {| key := dedupe_key record;
                  expires_at := sat_add 64 now_ms (ttl_ms self) |} in
  exists outcome self', observe self record now_ms = Some (outcome, self') /\
    ttl_ms self' = ttl_ms self /\
    if holds (dedupe_key record) l then outcome = Duplicate /\ contents self' = l
    else outcome = New /\
      if bool_decide (length l < N)%nat then contents self' = l ++ [entry]
      else (N = 0%nat /\ contents self' = []) \/
        exists i, first_min i l /\ contents self' = delete i l ++ [entry].
Proof. apply observe_step. Qed.

(** ** Whole runs *)

Fixpoint run (self : DedupeCache) (events : list (TelemetryRecord * Z))
  : option (list DedupeOutcome * DedupeCache) :=
  match events with
  | [] => Some ([], self)
  | (record, now) :: events =>
      '(o, self) ← observe self record now;
      '(os, self) ← run self events;
      Some (o :: os, self)
  end.

Lemma holds_true k l : holds k l = true <-> exists e, e ∈ l /\ key e = k.
Proof.
  unfold holds. rewrite existsb_exists. split.
  - intros (e & He & Hk). bools. exists e. by rewrite list_elem_of_In.
  - intros (e & He & Hk). exists e. rewrite <- list_elem_of_In. split; [done|].
    by apply bool_decide_eq_true.
Qed.

Lemma elem_of_live now e l : e ∈ live now l <-> now < expires_at e /\ e ∈ l.
Proof. unfold live. rewrite list_elem_of_filter, Z.ltb_lt. done. Qed.

(** Entries only ever come from the step's own record or the cache before. *)
Lemma observe_elements self record now outcome self' :
  observe self record now = Some (outcome, self') ->
  ttl_ms self' = ttl_ms self /\
  (outcome = Duplicate -> exists e, e ∈ contents self /\ now < expires_at e /\
    key e = dedupe_key record) /\
  (forall e, e ∈ contents self' -> e ∈ contents self \/
    outcome = New /\ e = {| key := dedupe_key record;
                            expires_at := sat_add 64 now (ttl_ms self) |}).
Proof.
  intros Ho. destruct (observe_step self record now) as (o & s & Heq & Httl & Hc).
  rewrite Heq in Ho. simplify_eq. split; [done|].
  assert (forall e, e ∈ live now (contents self) -> e ∈ contents self) as Hlive
    by (intros e He; apply elem_of_live in He; tauto).
  destruct (holds _ _) eqn:Hh.
  - destruct Hc as [-> ->]. apply holds_true in Hh as (e & He & Hk).
    pose proof (proj1 (elem_of_live _ _ _) He) as [? ?]. split; eauto.
  - destruct Hc as [-> Hc]. split; [done|]. intros e He. case_bool_decide.
    + rewrite Hc in He. apply elem_of_app in He as [He | He%list_elem_of_singleton]; auto.
    + destruct Hc as [[_ Hc] | (i & _ & Hc)]; rewrite Hc in He; [by apply elem_of_nil in He|].
      apply elem_of_app in He as [He | He%list_elem_of_singleton]; [|auto].
      left. apply Hlive. by eapply list_elem_of_delete_inv.
Qed.
End Dedupe.

(** ** The filter's contract

    Abstractly the filter is a map from keys to the expiry of their last new
    record. *)
Fixpoint spec_run (ttl : Z) (m : DedupeKey -> option Z) (events : list (TelemetryRecord * Z))
  : list DedupeOutcome :=
  match events with
  | [] => []
  | (record, now) :: events =>
      let k := dedupe_key record in
      let fresh := New :: spec_run ttl (<[k := Some (sat_add 64 now ttl)]> m) events in
      match m k with
      | Some e => if now <? e then Duplicate :: spec_run ttl m events else fresh
      | None => fresh
      end
  end.

Section DedupeRuns.
Context {V : Type -> nat -> Type} `{FixedVecLaws V} {N : nat}.
Implicit Types (self : @DedupeCache V N).

Lemma run_total self events :
  exists os self', run self events = Some (os, self') /\ length os = length events.
Proof.
  revert self. induction events as [|[r t] events IH]; intros self; cbn [run]; [by eauto|].
  destruct (observe_step self r t) as (o & s & -> & _). cbn [mbind option_bind].
  destruct (IH s) as (os & s' & -> & Hlen). cbn [mbind option_bind].
  do 2 eexists. split; [done|]. cbn. by rewrite Hlen.
Qed.

Lemma run_sound (P : CacheEntry -> Prop) self events os self' :
  (forall e, e ∈ contents self -> P e) -> run self events = Some (os, self') ->
  forall i r t, events !! i = Some (r, t) -> os !! i = Some Duplicate ->
  (exists e, P e /\ key e = dedupe_key r /\ t < expires_at e) \/
  (exists j r' t', (j < i)%nat /\ events !! j = Some (r', t') /\ os !! j = Some New /\
     dedupe_key r' = dedupe_key r /\ t < sat_add 64 t' (ttl_ms self)).
Proof.
  revert P self os. induction events as [|[r0 t0] events IH]; intros P self os HP Hrun i r t Hi Ho;
    [done|].
  cbn [run] in Hrun. destruct (observe self r0 t0) as [[o s]|] eqn:Hobs; [|done].
  cbn [mbind option_bind] in Hrun. destruct (run s events) as [[os' s']|] eqn:Hr; [|done].
  cbn [mbind option_bind] in Hrun. simplify_eq.
  destruct (observe_elements _ _ _ _ _ Hobs) as (Httl & Hdup & Helem).
  destruct i as [|i]; cbn in Hi, Ho; simplify_eq.
  { left. destruct (Hdup eq_refl) as (e & He & ? & ?). eauto. }
  specialize (IH (fun e => P e \/ o = New /\ e = {| key := dedupe_key r0;
    expires_at := sat_add 64 t0 (ttl_ms self) |}) s os').
  destruct (IH ltac:(intros e He; apply Helem in He; naive_solver) Hr i r t Hi Ho)
    as [(e & [HPe | [-> ->]] & Hk & Ht) | (j & r' & t' & Hj & Hr' & Ho' & Hk & Ht)].
  - left. eauto.
  - right. exists 0%nat, r0, t0. split_and!; [lia | done..].
  - right. exists (S j), r', t'. rewrite Httl in Ht. split_and!; [lia | done..].
Qed.

(** over any sequence of observations, at any capacity, the filter never
    panics and never swallows a fresh reading: a record reported as a
    duplicate has the key of an earlier record that was reported new, less
    than the time-to-live ago. *)
Theorem duplicates_genuine (ttl : Z) (events : list (TelemetryRecord * Z)) :
  exists os self', run (DedupeCache_new ttl : @DedupeCache V N) events = Some (os, self') /\
    length os = length events /\
    forall i r t, events !! i = Some (r, t) -> os !! i = Some Duplicate ->
    exists j r' t', (j < i)%nat /\ events !! j = Some (r', t') /\ os !! j = Some New /\
      dedupe_key r' = dedupe_key r /\ t < t' + ttl.
Proof.
  destruct (run_total (DedupeCache_new ttl) events) as (os & s & Hr & Hlen).
  exists os, s. split_and!; [done..|]. intros i r t Hi Ho.
  destruct (run_sound (fun _ => False) _ _ _ _ ltac:(rewrite contents_new; set_solver) Hr i r t Hi Ho) as [(e & [] & _) | (j & r' & t' & Hj & Hr' & Ho' & Hk & Ht)].
  exists j, r', t'. split_and!; try done. cbn in Ht. num.
Qed.

(** The cache agrees with the map on everything still live at [now]. *)
Definition agrees (now : Z) (l : list CacheEntry) (m : DedupeKey -> option Z) : Prop :=
  NoDup (key <$> l) /\
  forall k e, now < e -> m k = Some e <-> {| key := k; expires_at := e |} ∈ l.

Lemma agrees_live now now' l m :
  now <= now' -> agrees now l m -> agrees now' (live now' l) m.
Proof.
  intros Hle [Hnd Hm]. split.
  - eapply sublist_NoDup; [exact Hnd|]. by apply fmap_sublist, sublist_filter.
  - intros k e He. rewrite Hm by lia. rewrite elem_of_live. cbn. tauto.
Qed.

Lemma agrees_holds now l m k :
  agrees now l m -> (forall e, e ∈ l -> now < expires_at e) ->
  holds k l = match m k with Some e => now <? e | None => false end.
Proof.
  intros [_ Hm] Hl. apply Bool.eq_iff_eq_true. rewrite holds_true. split.
  - intros ([k' e] & He & <-). cbn. specialize (Hl _ He) as Hlt. cbn in Hlt.
    apply Hm in He as ->; [|done]. by apply Z.ltb_lt.
  - destruct (m k) as [e|] eqn:E; [|done]. intros He%Z.ltb_lt.
    exists {| key := k; expires_at := e |}. split; [by apply Hm | done].
Qed.

Lemma agrees_insert now l m k e :
  agrees now l m -> (forall e, e ∈ l -> now < expires_at e) -> holds k l = false ->
  agrees now (l ++ [{| key := k; expires_at := e |}]) (<[k := Some e]> m).
Proof.
  intros [Hnd Hm] Hl Hk. assert (forall e', {| key := k; expires_at := e' |} ∉ l) as Hno.
  { intros e' He'. assert (holds k l = true) by (apply holds_true; eauto). congruence. }
  split.
  - rewrite fmap_app. apply NoDup_app. split_and!; [done | | apply NoDup_singleton].
    cbn. intros k' Hk' Heq. apply list_elem_of_singleton in Heq as ->.
    apply list_elem_of_fmap in Hk' as ([k' e'] & Hkk & He'). cbn in Hkk. subst k'.
    by apply (Hno e').
  - intros k' e' He'. rewrite elem_of_app, list_elem_of_singleton.
    destruct (decide (k' = k)) as [-> | Hne].
    + rewrite fn_lookup_insert. split; [intros Heq; simplify_eq; auto|].
      intros [Hin | Heq]; [by apply Hno in Hin | by simplify_eq].
    + rewrite fn_lookup_insert_ne by done. rewrite Hm by done. split; [auto|].
      intros [|Heq]; by simplify_eq.
Qed.

(** Room remains while the keys seen fit the capacity. *)
Lemma keys_fit (l : list CacheEntry) ks k :
  NoDup (key <$> l) -> (forall e, e ∈ l -> key e ∈ ks) -> holds k l = false -> k ∈ ks ->
  (length ks <= N)%nat -> (length l < N)%nat.
Proof.
  intros Hnd Hin Hk Hks Hlen.
  assert (length (k :: (key <$> l)) <= length ks)%nat as Hle.
  { apply NoDup_incl_length.
    - apply NoDup_ListNoDup, NoDup_cons. split; [|done].
      intros (e & -> & He)%list_elem_of_fmap.
      assert (holds (key e) l = true) by (apply holds_true; eauto). congruence.
    - intros x. rewrite <- !list_elem_of_In, elem_of_cons.
      intros [-> | (e & -> & He)%list_elem_of_fmap]; auto. }
  cbn in Hle. rewrite length_fmap in Hle. lia.
Qed.

Lemma run_refines ttl events ks now self m :
  ttl_ms self = ttl -> Sorted Z.le (now :: (snd <$> events)) ->
  Forall (fun ev => dedupe_key ev.1 ∈ ks) events -> (length ks <= N)%nat ->
  agrees now (contents self) m -> (forall e, e ∈ contents self -> key e ∈ ks) ->
  exists self', run self events = Some (spec_run ttl m events, self').
Proof.
  intros Httl Hs Hks Hlen. revert now self m Httl Hs.
  induction Hks as [|[r t] events Hk _ IH]; intros now self m Httl Hs Ha Hin; [by eexists|].
  cbn [fst snd] in *. rewrite fmap_cons in Hs. cbn [snd] in Hs.
  apply Sorted_inv in Hs as [Hs Hle]. apply HdRel_inv in Hle.
  pose proof (agrees_live now t _ _ Hle Ha) as Hl.
  assert (forall e, e ∈ live t (contents self) -> t < expires_at e) as Hexp
    by (intros e He; apply elem_of_live in He; tauto).
  assert (forall e, e ∈ live t (contents self) -> key e ∈ ks) as Hin'
    by (intros e He; apply elem_of_live in He as [_ He]; auto).
  destruct (observe_step self r t) as (o & s & Hobs & Hs' & Hc).
  cbn [run spec_run]. rewrite Hobs. cbn [mbind option_bind].
  rewrite (agrees_holds _ _ _ _ Hl Hexp) in Hc.
  assert (Hnew : holds (dedupe_key r) (live t (contents self)) = false ->
    o = New /\ contents s = live t (contents self) ++
      [{| key := dedupe_key r; expires_at := sat_add 64 t ttl |}] ->
    exists self', ('(os, s0) ← run s events; Some (o :: os, s0)) =
      Some (New :: spec_run ttl (<[dedupe_key r:=Some (sat_add 64 t ttl)]> m) events, self')).
  { intros Hh [-> Hcs]. destruct (IH t s (<[dedupe_key r:=Some (sat_add 64 t ttl)]> m))
      as (s' & Hrun); [congruence | done | | | by rewrite Hrun; eexists].
    - rewrite Hcs. by apply agrees_insert.
    - rewrite Hcs. intros e [He | ->%list_elem_of_singleton]%elem_of_app; auto. }
  pose proof (agrees_holds _ _ _ (dedupe_key r) Hl Hexp) as Hh.
  assert (Hroom : holds (dedupe_key r) (live t (contents self)) = false ->
    bool_decide (length (live t (contents self)) < N)%nat = true).
  { intros Hf. apply bool_decide_eq_true. destruct Hl as [Hnd _].
    by eapply keys_fit. }
  destruct (m (dedupe_key r)) as [e|]; [destruct (t <? e)|].
  - destruct Hc as [-> Hc]. destruct (IH t s m) as (s' & Hrun); [congruence | done | | |].
    + by rewrite Hc.
    + by rewrite Hc.
    + rewrite Hrun. by eexists.
  - rewrite Hroom, Httl in Hc by done. auto.
  - rewrite Hroom, Httl in Hc by done. auto.
Qed.

(** C34: as long as the distinct keys fit the capacity and the clock does not
    run backwards, the outcomes are those of a map from each key to the
    expiry of its last new record: a record is a duplicate exactly while
    the last new one with its key is unexpired, and duplicates do not
    extend that window. *)
Theorem dedupe_refines (ttl : Z) (events : list (TelemetryRecord * Z)) (ks : list DedupeKey)
    (Hsorted : Sorted Z.le (snd <$> events))
    (Hkeys : Forall (fun ev => dedupe_key ev.1 ∈ ks) events) (Hroom : (length ks <= N)%nat) :
  exists self', run (DedupeCache_new ttl : @DedupeCache V N) events =
    Some (spec_run ttl (fun _ => None) events, self').
Proof.
  destruct events as [|[r t] events]; [by eexists|].
  apply (run_refines ttl _ ks t); try done.
  - rewrite fmap_cons in *. cbn [snd] in *. constructor; [done | constructor; lia].
  - rewrite contents_new. split; [apply NoDup_nil_2 | set_solver].
  - rewrite contents_new. set_solver.
Qed.
End DedupeRuns.

(** ** Bounded queue [queue.rs] *)

Inductive DropPolicy := DropOldest | DropNewest.
Inductive EnqueueOutcome := Enqueued | DroppedOldest | DroppedNewest.

Section Queue.
Context {Q : Type -> nat -> Type} `{FixedDequeLaws Q} {N : nat}.

Record TelemetryQueue := {
  records : Q TelemetryRecord N;
  drop_policy : DropPolicy;
  dropped_total : Z
}.

Definition TelemetryQueue_new (policy : DropPolicy) : TelemetryQueue :=
  {| records := deq_new; drop_policy := policy; dropped_total := 0 |}.

Definition enqueue (self : TelemetryQueue) (record : TelemetryRecord)
  : EnqueueOutcome * TelemetryQueue :=
  match deq_push_back record (records self) with
  | Ok q => (Enqueued, {| records := q; drop_policy := drop_policy self;
                          dropped_total := dropped_total self |})
  | Err rejected_record =>
      let dropped := wrap 64 (dropped_total self + 1) in
      match drop_policy self with
      | DropOldest =>
          let q := match deq_pop_front (records self) with
                   | Some (_, q) => q | None => records self end in
          let q := match deq_push_back rejected_record q with Ok q => q | Err _ => q end in
          (DroppedOldest, {| records := q; drop_policy := DropOldest; dropped_total := dropped |})
      | DropNewest =>
          (DroppedNewest, {| records := records self; drop_policy := DropNewest;
                             dropped_total := dropped |})
      end
  end.

Definition dequeue (self : TelemetryQueue) : option TelemetryRecord * TelemetryQueue :=
  match deq_pop_front (records self) with
  | Some (r, q) => (Some r, {| records := q; drop_policy := drop_policy self;
                               dropped_total := dropped_total self |})
  | None => (None, self)
  end.

Definition queued (self : TelemetryQueue) : list TelemetryRecord := deq_list (records self).
Definition len (self : TelemetryQueue) : nat := length (queued self).
Definition is_empty (self : TelemetryQueue) : bool := bool_decide (len self = 0%nat).

(** *** Runs of producer and consumer steps *)

Inductive op := Enqueue (record : TelemetryRecord) | Dequeue.

(** Runs the operations; the records delivered, in order. *)
Fixpoint queue_run (self : TelemetryQueue) (ops : list op)
  : list TelemetryRecord * TelemetryQueue :=
  match ops with
  | [] => ([], self)
  | Enqueue r :: ops => queue_run (enqueue self r).2 ops
  | Dequeue :: ops =>
      let '(o, self) := dequeue self in
      let '(out, self) := queue_run self ops in
      (match o with Some r => r :: out | None => out end, self)
  end.

Definition inputs (ops : list op) : list TelemetryRecord :=
  omap (fun o => match o with Enqueue r => Some r | Dequeue => None end) ops.

(** The step on the queue's contents. *)
Lemma enqueue_step self r :
  let '(o, self') := enqueue self r in
  drop_policy self' = drop_policy self /\
  if bool_decide (length (queued self) < N)%nat then
    o = Enqueued /\ queued self' = queued self ++ [r] /\ dropped_total self' = dropped_total self
  else dropped_total self' = wrap 64 (dropped_total self + 1) /\
    match drop_policy self with
    | DropOldest => o = DroppedOldest /\
        queued self' = drop 1 (queued self) ++ (if bool_decide (N = 0%nat) then [] else [r])
    | DropNewest => o = DroppedNewest /\ queued self' = queued self
    end.
Proof.
  unfold enqueue, queued. pose proof (deq_capacity (records self)) as Hcap. case_bool_decide as Hr.
  - destruct (deq_push_room r _ Hr) as (q & -> & Hq). cbn. by rewrite Hq.
  - rewrite deq_push_full by lia. destruct (drop_policy self); [|done].
    destruct (deq_list (records self)) as [|a l] eqn:El; cbn in Hr, Hcap.
    + rewrite deq_pop_nil by done. rewrite deq_push_full by (rewrite El; cbn; lia).
      cbn. rewrite El. rewrite bool_decide_eq_true_2 by lia. done.
    + destruct (deq_pop_cons _ _ _ El) as (q & -> & Hq).
      destruct (deq_push_room r q) as (q' & -> & Hq'); [rewrite Hq; lia|].
      cbn. rewrite Hq', Hq, bool_decide_eq_false_2 by lia. done.
Qed.

Lemma dequeue_step self :
  let '(o, self') := dequeue self in
  o = head (queued self) /\ queued self' = tail (queued self) /\
  drop_policy self' = drop_policy self /\ dropped_total self' = dropped_total self.
Proof.
  unfold dequeue, queued. destruct (deq_list (records self)) as [|a l] eqn:El.
  - rewrite deq_pop_nil by done. by rewrite El.
  - destruct (deq_pop_cons _ _ _ El) as (q & -> & Hq). by cbn.
Qed.

Lemma dropped_count self r :
  let self' := (enqueue self r).2 in
  exists d : Z, 0 <= d <= 1 /\ Z.of_nat (len self') + d = Z.of_nat (len self) + 1 /\
    dropped_total self' = (if d =? 0 then dropped_total self
                           else wrap 64 (dropped_total self + 1)) /\
    exists kept, sublist kept (queued self ++ [r]) /\ queued self' = kept.
Proof.
  pose proof (enqueue_step self r) as Hs. pose proof (deq_capacity (records self)) as Hcap.
  fold (queued self) in Hcap. unfold len. destruct (enqueue self r) as [o self']. cbn.
  case_bool_decide.
  - destruct Hs as (_ & _ & -> & ->). exists 0. rewrite length_app. cbn. split_and!; try lia.
    eexists; split; [done | done].
  - destruct Hs as (_ & -> & Hs). exists 1. cbn. destruct (drop_policy self).
    + destruct Hs as [_ ->]. case_bool_decide.
      * assert (queued self = []) as -> by (apply nil_length_inv; lia). cbn.
        split_and!; try done. eexists; split; [|done]. apply sublist_nil_l.
      * rewrite length_app, length_drop. cbn. split_and!; try lia.
        eexists; split; [|done]. apply sublist_app; [apply sublist_drop | done].
    + destruct Hs as [_ ->]. split_and!; try lia. eexists; split; [|done].
      by apply sublist_inserts_r.
Qed.

(** first in, first out, and every record accounted for: whatever the
    policy and the interleaving of producer and consumer, the records
    delivered and those still queued are records of the input in input
    order, and the drop counter is the number of the missing ones (modulo
    its 64 bits). *)
Theorem queue_fifo (policy : DropPolicy) (ops : list op) :
  let '(out, self) := queue_run (TelemetryQueue_new policy) ops in
  sublist (out ++ queued self) (inputs ops) /\ (len self <= N)%nat /\
  dropped_total self =
    wrap 64 (Z.of_nat (length (inputs ops)) - Z.of_nat (length out) - Z.of_nat (len self)).
Proof.
  assert (Hgen : forall self k, dropped_total self = wrap 64 k ->
    let '(out, self') := queue_run self ops in
    sublist (out ++ queued self') (queued self ++ inputs ops) /\
    dropped_total self' = wrap 64 (k + Z.of_nat (len self) + Z.of_nat (length (inputs ops))
      - Z.of_nat (length out) - Z.of_nat (len self'))).
  { induction ops as [|[r|] ops IH]; intros self k Hk; cbn [queue_run].
    - split; [by rewrite app_nil_r|]. rewrite Hk. f_equal. cbn. lia.
    - destruct (dropped_count self r) as (d & Hd & Hl & Hdrop & kept & Hsub & Hq).
      specialize (IH (enqueue self r).2 (k + d)).
      destruct (queue_run (enqueue self r).2 ops) as [out self'].
      destruct IH as [Hs Hd'].
      { rewrite Hdrop, Hk. destruct (Z.eqb_spec d 0); [f_equal; lia|].
        unfold wrap. rewrite Zplus_mod_idemp_l. f_equal. lia. }
      cbn [inputs omap list_omap length]. split.
      + etrans; [exact Hs|]. rewrite Hq, cons_middle, app_assoc.
        by apply sublist_app.
      + rewrite Hd'. f_equal. unfold inputs. lia.
    - pose proof (dequeue_step self) as Hs. destruct (dequeue self) as [o self1].
      destruct Hs as (-> & Hq & _ & Hdt). specialize (IH self1 k).
      destruct (queue_run self1 ops) as [out self']. destruct IH as [Hs Hd]; [by rewrite Hdt|].
      unfold len in *. rewrite Hq in Hs, Hd.
      destruct (queued self) as [|a l]; cbn in *; [by split|].
      split; [by apply sublist_skip|]. rewrite Hd. f_equal. unfold inputs. lia. }
  specialize (Hgen (TelemetryQueue_new policy) 0 eq_refl).
  destruct (queue_run _ ops) as [out self]. destruct Hgen as [Hs Hd].
  unfold len, queued in *. cbn [TelemetryQueue_new records] in *. rewrite deq_new_list in *.
  split_and!; [exact Hs | apply deq_capacity |]. by rewrite Hd.
Qed.

Lemma queue_run_app self ops1 ops2 :
  queue_run self (ops1 ++ ops2) =
    (let '(out1, self1) := queue_run self ops1 in
     let '(out2, self2) := queue_run self1 ops2 in (out1 ++ out2, self2)).
Proof.
  revert self. induction ops1 as [|[r|] ops1 IH]; intros self; cbn [app queue_run].
  - by destruct (queue_run self ops2).
  - apply IH.
  - destruct (dequeue self) as [o self1]. rewrite IH.
    destruct (queue_run self1 ops1) as [out1 s1]. destruct (queue_run s1 ops2).
    by destruct o.
Qed.

(** with nothing consumed, drop-oldest keeps the most recent records and
    drop-newest the earliest, up to the capacity, and the counter tells how
    many were lost. *)
Theorem queue_burst (policy : DropPolicy) (rs : list TelemetryRecord) :
  let self := (queue_run (TelemetryQueue_new policy) (Enqueue <$> rs)).2 in
  queued self = match policy with
                | DropOldest => drop (length rs - N) rs
                | DropNewest => take N rs
                end /\
  dropped_total self = wrap 64 (Z.of_nat (length rs - N)) /\ drop_policy self = policy.
Proof.
  induction rs as [|r rs IH] using rev_ind.
  { cbn. unfold queued. cbn. rewrite deq_new_list. by destruct policy, N. }
  rewrite fmap_app, queue_run_app.
  destruct (queue_run (TelemetryQueue_new policy) (Enqueue <$> rs)) as [out self].
  cbn [snd queue_run fmap list_fmap] in *. destruct IH as (Hq & Hd & Hp).
  pose proof (enqueue_step self r) as Hs. destruct (enqueue self r) as [o self']. cbn [snd].
  destruct Hs as [Hp' Hs]. rewrite Hp', Hp in *. rewrite Hq, Hd in Hs.
  rewrite length_app. cbn [length]. split_and!; [..|done].
  - destruct policy.
    + rewrite length_drop in Hs. case_bool_decide.
      * destruct Hs as (_ & -> & _). replace (length rs - N)%nat with 0%nat by lia.
        by replace (length rs + 1 - N)%nat with 0%nat by lia.
      * destruct Hs as (_ & _ & ->). rewrite drop_drop. case_bool_decide.
        -- by rewrite !drop_ge by (rewrite ?length_app; cbn; lia).
        -- rewrite drop_app_le by lia. do 2 f_equal. lia.
    + rewrite length_take in Hs. case_bool_decide.
      * destruct Hs as (_ & -> & _). by rewrite !take_ge by (rewrite ?length_app; cbn; lia).
      * destruct Hs as (_ & _ & ->). by rewrite take_app_le by lia.
  - assert (length (match policy with DropOldest => drop (length rs - N) rs
      | DropNewest => take N rs end) = Nat.min N (length rs)) as Hlen
      by (destruct policy; rewrite ?length_drop, ?length_take; lia).
    rewrite Hlen in Hs. case_bool_decide.
    + destruct Hs as (_ & _ & ->). f_equal. lia.
    + destruct Hs as [-> _]. unfold wrap. rewrite Zplus_mod_idemp_l. f_equal. lia.
Qed.
End Queue.

(** ** The firmware's adapter [telemetry.rs]

    The channel is a closure over its own state; the log line written under
    queue pressure is the third component of a step. *)
Inductive TelemetryEnqueueOutcome := Queued | DroppedByPolicy | RejectedAsDuplicate.
#[export] Instance TelemetryEnqueueOutcome_eq_dec : EqDecision TelemetryEnqueueOutcome.
Proof. solve_decision. Defined.

Definition DEFAULT_DEDUPE_TTL_MS : Z := 30000.
Definition DEFAULT_DROP_LOG_INTERVAL_MS : Z := 60000.

Definition map_radio_reading_to_record (reading : RadioReading) : TelemetryRecord :=
  to_telemetry_record reading.

(** One log line: the time and the two counters it shows. *)
Record DropLog := { logged_at : Z; logged_dropped : Z; logged_duplicates : Z }.

Section Adapter.
Context {V : Type -> nat -> Type} `{FixedVecLaws V} {N : nat}.
Context {S : Type} (try_send : S -> RadioReading -> bool * S).

Record TelemetryPipelineAdapter := {
  dedupe : @DedupeCache V N;
  adapter_dropped_total : Z;
  rejected_duplicates_total : Z;
  drop_log_interval_ms : Z;
  next_drop_log_ms : Z
}.

Definition with_windows (dedupe_ttl_ms drop_log_interval : Z) : TelemetryPipelineAdapter := {|
  dedupe := DedupeCache_new dedupe_ttl_ms;
  adapter_dropped_total := 0; rejected_duplicates_total := 0;
  drop_log_interval_ms := drop_log_interval; next_drop_log_ms := 0 |}.
Definition adapter_new : TelemetryPipelineAdapter :=
  with_windows DEFAULT_DEDUPE_TTL_MS DEFAULT_DROP_LOG_INTERVAL_MS.

Definition maybe_log_drop_metrics (self : TelemetryPipelineAdapter) (now_ms : Z)
  : TelemetryPipelineAdapter * list DropLog :=
  if now_ms <? next_drop_log_ms self then (self, [])
  else ({| dedupe := dedupe self; adapter_dropped_total := adapter_dropped_total self;
           rejected_duplicates_total := rejected_duplicates_total self;
           drop_log_interval_ms := drop_log_interval_ms self;
           next_drop_log_ms := sat_add 64 now_ms (drop_log_interval_ms self) |},
        [{| logged_at := now_ms; logged_dropped := adapter_dropped_total self;
            logged_duplicates := rejected_duplicates_total self |}]).

Definition enqueue_with (self : TelemetryPipelineAdapter) (reading : RadioReading) (now_ms : Z)
    (channel : S)
  : option (TelemetryEnqueueOutcome * TelemetryPipelineAdapter * S * list DropLog) :=
  '(o, d) ← observe (dedupe self) (map_radio_reading_to_record reading) now_ms;
  match o with
  | Duplicate =>
      Some (RejectedAsDuplicate,
        {| dedupe := d; adapter_dropped_total := adapter_dropped_total self;
           rejected_duplicates_total := wrap 64 (rejected_duplicates_total self + 1);
           drop_log_interval_ms := drop_log_interval_ms self;
           next_drop_log_ms := next_drop_log_ms self |}, channel, [])
  | New =>
      let '(sent, channel) := try_send channel reading in
      if sent then
        Some (Queued,
          {| dedupe := d; adapter_dropped_total := adapter_dropped_total self;
             rejected_duplicates_total := rejected_duplicates_total self;
             drop_log_interval_ms := drop_log_interval_ms self;
             next_drop_log_ms := next_drop_log_ms self |}, channel, [])
      else
        let '(self, log) := maybe_log_drop_metrics
          {| dedupe := d; adapter_dropped_total := wrap 64 (adapter_dropped_total self + 1);
             rejected_duplicates_total := rejected_duplicates_total self;
             drop_log_interval_ms := drop_log_interval_ms self;
             next_drop_log_ms := next_drop_log_ms self |} now_ms in
        Some (DroppedByPolicy, self, channel, log)
  end.

Fixpoint adapter_run (self : TelemetryPipelineAdapter) (channel : S)
    (readings : list (RadioReading * Z))
  : option (list TelemetryEnqueueOutcome * TelemetryPipelineAdapter * S * list DropLog) :=
  match readings with
  | [] => Some ([], self, channel, [])
  | (reading, now) :: readings =>
      '(o, self, channel, log) ← enqueue_with self reading now channel;
      '(os, self, channel, logs) ← adapter_run self channel readings;
      Some (o :: os, self, channel, log ++ logs)
  end.

Definition count (o : TelemetryEnqueueOutcome) (os : list TelemetryEnqueueOutcome) : Z :=
  Z.of_nat (length (filter (eq o) os)).

(** The channel's own history: every reading that was not a duplicate is
    offered to it once, in order, and its answer is the outcome. *)
Fixpoint offered (channel : S) (readings : list (RadioReading * Z))
    (os : list TelemetryEnqueueOutcome) : option S :=
  match readings, os with
  | [], [] => Some channel
  | _ :: readings, RejectedAsDuplicate :: os => offered channel readings os
  | (r, _) :: readings, o :: os =>
      let '(sent, channel) := try_send channel r in
      if decide (o = if sent then Queued else DroppedByPolicy)
      then offered channel readings os else None
  | _, _ => None
  end.

(** Consecutive log lines are at least the interval apart. *)
Fixpoint spaced (interval : Z) (logs : list DropLog) : Prop :=
  match logs with
  | a :: ((b :: _) as logs) => sat_add 64 (logged_at a) interval <= logged_at b /\
                               spaced interval logs
  | _ => True
  end.

Lemma enqueue_with_step self reading now channel :
  exists o self' channel' log,
    enqueue_with self reading now channel = Some (o, self', channel', log) /\
    offered channel [(reading, now)] [o] = Some channel' /\
    drop_log_interval_ms self' = drop_log_interval_ms self /\
    rejected_duplicates_total self' =
      (if decide (RejectedAsDuplicate = o) then wrap 64 (rejected_duplicates_total self + 1)
       else rejected_duplicates_total self) /\
    adapter_dropped_total self' =
      (if decide (DroppedByPolicy = o) then wrap 64 (adapter_dropped_total self + 1)
       else adapter_dropped_total self) /\
    (log = [] /\ next_drop_log_ms self' = next_drop_log_ms self \/
     exists a, log = [a] /\ logged_at a = now /\ next_drop_log_ms self <= now /\
       next_drop_log_ms self' = sat_add 64 now (drop_log_interval_ms self)).
Proof.
  unfold enqueue_with. destruct (observe_step (dedupe self) (map_radio_reading_to_record reading) now)
    as (o & d & -> & _). cbn [mbind option_bind]. destruct o.
  - cbn [offered]. destruct (try_send channel reading) as [[] channel'].
    + do 4 eexists. split; [done|]. cbn. auto 10.
    + unfold maybe_log_drop_metrics. cbn [next_drop_log_ms].
      destruct (Z.ltb_spec now (next_drop_log_ms self)); do 4 eexists; (split; [done|]);
        cbn; split_and!; try done; [by left | right; by eexists].
  - do 4 eexists. split; [done|]. cbn. auto 10.
Qed.

Lemma count_cons o o' os :
  count o (o' :: os) = count o os + (if decide (o = o') then 1 else 0).
Proof. unfold count. rewrite filter_cons. case_decide; cbn [length]; lia. Qed.

Lemma counter_step (b : bool) c k :
  wrap 64 ((if b then wrap 64 (c + 1) else c) + k) = wrap 64 (c + (k + (if b then 1 else 0))).
Proof.
  destruct b; unfold wrap; [rewrite Zplus_mod_idemp_l|]; f_equal; lia.
Qed.

Lemma offered_cons channel r o channel' readings os :
  offered channel [r] [o] = Some channel' ->
  offered channel (r :: readings) (o :: os) = offered channel' readings os.
Proof.
  destruct r as [r t]. cbn. intros Hoff. destruct o; cbn in *; [..|congruence].
  all: destruct (try_send channel r) as [sent c]; case_decide; [congruence | done].
Qed.

Lemma adapter_run_step self channel readings :
  exists os self' channel' logs,
    adapter_run self channel readings = Some (os, self', channel', logs) /\
    length os = length readings /\ offered channel readings os = Some channel' /\
    wrap 64 (rejected_duplicates_total self') =
      wrap 64 (rejected_duplicates_total self + count RejectedAsDuplicate os) /\
    wrap 64 (adapter_dropped_total self') =
      wrap 64 (adapter_dropped_total self + count DroppedByPolicy os) /\
    spaced (drop_log_interval_ms self) logs /\
    (forall a logs', logs = a :: logs' -> next_drop_log_ms self <= logged_at a).
Proof.
  revert self channel. induction readings as [|[r t] readings IH]; intros self channel.
  { exists [], self, channel, []. cbn. rewrite !Z.add_0_r. split_and!; done. }
  destruct (enqueue_with_step self r t channel)
    as (o & s1 & c1 & log & Hstep & Hoff & Hint & Hrej & Hdrop & Hlog).
  destruct (IH s1 c1) as (os & s2 & c2 & logs & Hrun & Hlen & Hoffs & Hrejs & Hdrops & Hsp & Hhd).
  exists (o :: os), s2, c2, (log ++ logs). cbn [adapter_run]. rewrite Hstep.
  cbn [mbind option_bind]. rewrite Hrun. cbn [mbind option_bind].
  rewrite Hint in Hsp. rewrite !count_cons. split_and!; try done.
  - cbn. by rewrite Hlen.
  - by rewrite (offered_cons _ _ _ c1).
  - rewrite Hrejs, Hrej. destruct (decide (RejectedAsDuplicate = o));
      [apply (counter_step true) | apply (counter_step false)].
  - rewrite Hdrops, Hdrop. destruct (decide (DroppedByPolicy = o));
      [apply (counter_step true) | apply (counter_step false)].
  - destruct Hlog as [[-> _] | (a & -> & <- & _ & Hn)]; [done|].
    destruct logs as [|b logs]; [done|]. cbn. split; [|done].
    rewrite <- Hn. by eapply Hhd.
  - destruct Hlog as [[-> Hn] | (a & -> & <- & Hle & _)]; intros a' logs' Heq.
    + rewrite <- Hn. by eapply Hhd.
    + by injection Heq as <- _.
Qed.

(** over any sequence of readings the adapter gives each exactly one
    outcome: duplicates never reach the channel, every other reading is
    offered to it once and in order, and its answer decides between queued
    and dropped; the two counters count those outcomes, and the log lines
    under queue pressure are at least the interval apart. *)
Theorem adapter_accounting (ttl interval : Z) (channel : S) (readings : list (RadioReading * Z)) :
  exists os self channel' logs,
    adapter_run (with_windows ttl interval) channel readings = Some (os, self, channel', logs) /\
    length os = length readings /\ offered channel readings os = Some channel' /\
    wrap 64 (rejected_duplicates_total self) = wrap 64 (count RejectedAsDuplicate os) /\
    wrap 64 (adapter_dropped_total self) = wrap 64 (count DroppedByPolicy os) /\
    spaced interval logs.
Proof.
  destruct (adapter_run_step (with_windows ttl interval) channel readings)
    as (os & s & c & logs & H1 & H2 & H3 & H4 & H5 & H6 & _).
  exists os, s, c, logs. split_and!; done.
Qed.
End Adapter.

(** ** The properties at concrete inputs, on bounded lists *)
Module Sample.
Definition record (sensor temp : Z) : TelemetryRecord := {|
  sensor_id := sensor; tr_channel := 2; temperature_deci_c := temp; tr_battery_ok := true;
  timestamp := 0 |}.
Definition reading (sensor : Z) : RadioReading := {|
  inner := Rubicson.reading_of sensor 0 true 211; rssi := -78; detection_threshold := 16;
  received_at := 0 |}.

(** The repository's own tests. *)
Example observe_spec_witness :
  exists outcome self', observe (DedupeCache_new 30000 : @DedupeCache bounded 8)
    (record 7 185) 1000 = Some (outcome, self') /\ contents self' =
      [{| key := dedupe_key (record 7 185); expires_at := 31000 |}].
Proof.
  destruct (observe_spec (DedupeCache_new 30000 : @DedupeCache bounded 8) (record 7 185) 1000)
    as (o & s & H & _ & _ & Hc). exists o, s. split; [exact H | exact Hc].
Defined.

Example duplicates_genuine_witness :
  exists os self', run (DedupeCache_new 30000 : @DedupeCache bounded 8)
    [(record 7 185, 1000); (record 7 185, 20000)] = Some (os, self') /\ length os = 2%nat.
Proof.
  destruct (duplicates_genuine (V := bounded) (N := 8) 30000
    [(record 7 185, 1000); (record 7 185, 20000)]) as (os & s & H & Hl & _).
  exists os, s. split; [exact H | exact Hl].
Defined.

Example dedupe_refines_witness :
  let events := [(record 7 185, 1000); (record 7 185, 20000); (record 7 185, 31001)] in
  exists self', run (DedupeCache_new 30000 : @DedupeCache bounded 8) events =
    Some (spec_run 30000 (fun _ => None) events, self') /\
    spec_run 30000 (fun _ => None) events = [New; Duplicate; New].
Proof.
  intros events. destruct (dedupe_refines (V := bounded) (N := 8) 30000 events
    [dedupe_key (record 7 185)]) as (s & H).
  - repeat constructor; cbn; lia.
  - repeat constructor; set_solver.
  - cbn; lia.
  - exists s. split; [exact H | reflexivity].
Defined.

Example queue_fifo_witness :
  let '(out, self) := queue_run (Q := bounded) (N := 2) (TelemetryQueue_new DropOldest)
    [Enqueue (record 1 215); Enqueue (record 2 220); Enqueue (record 3 225); Dequeue] in
  dropped_total self = 1.
Proof.
  pose proof (queue_fifo (Q := bounded) (N := 2) DropOldest
    [Enqueue (record 1 215); Enqueue (record 2 220); Enqueue (record 3 225); Dequeue]) as H.
  destruct H as (_ & _ & H). exact H.
Defined.

Example queue_burst_witness :
  queued (queue_run (Q := bounded) (N := 2) (TelemetryQueue_new DropOldest)
    (Enqueue <$> [record 1 215; record 2 220; record 3 225])).2 = [record 2 220; record 3 225].
Proof.
  exact (proj1 (queue_burst (Q := bounded) (N := 2) DropOldest
    [record 1 215; record 2 220; record 3 225])).
Defined.

Example adapter_accounting_witness :
  exists os self channel' logs,
    adapter_run (V := bounded) (N := 16) (fun (n : nat) (_ : RadioReading) => (Nat.leb n 0, Datatypes.S n))
      (with_windows 30000 60000) 0%nat [(reading 1, 1000); (reading 1, 2000); (reading 2, 3000)] =
      Some (os, self, channel', logs) /\ length os = 3%nat.
Proof.
  destruct (adapter_accounting (V := bounded) (N := 16)
    (fun (n : nat) (_ : RadioReading) => (Nat.leb n 0, Datatypes.S n)) 30000 60000 0%nat
    [(reading 1, 1000); (reading 1, 2000); (reading 2, 3000)])
    as (os & s & c & logs & H & Hl & _).
  exists os, s, c, logs. split; [exact H | exact Hl].
Defined.
End Sample.
