(* ===== verification/KaruMenu.v ===== *)
(** * The settings menu

    [crates/karu-menu/src]: the items ([items.rs]), the scrolling viewport
    ([viewport.rs]), the menu that dispatches the encoder's events
    ([menu.rs]) and the renderer ([renderer.rs]). A [&mut self] method maps
    the old value to its result and the new value. Indices are [usize]
    integers ([Z]); the items of a menu sit in a fixed-capacity vector. *)
From S2P Require Import Prelude Heapless.

(** ** Events *)

Inductive UiEvent := NextScreen | PrevScreen | Select.

Inductive MenuEvent {A : Type} :=
| NoOp
| SelectionChanged (index : Z)
| EditStarted (index : Z)
| EditCompleted (index : Z)
| ValueChanged (index : Z)
| ActionSelected (index : Z) (action : A).
Arguments MenuEvent A : clear implicits.

#[export] Instance UiEvent_eq_dec : EqDecision UiEvent.
Proof. solve_decision. Defined.

(** ** Items *)

(** The trait; a default method is spelled out in the implementations that
    keep it. *)
Class MenuItem (I A : Type) := {
  label : I -> bytes;
  value_string : I -> bytes;
  is_editable : I -> bool;
  increment : I -> bool * I;
  decrement : I -> bool * I;
  on_enter_edit : I -> I;
  on_exit_edit : I -> I;
  is_modified : I -> bool;
  commit : I -> I;
  discard : I -> I;
  action_id : I -> option A
}.

(** What the menu relies on: editing an item does not change whether it is
    editable. *)
Class MenuItemLaws (I A : Type) `{MenuItem I A} := {
  increment_editable i : is_editable (increment i).2 = is_editable i;
  decrement_editable i : is_editable (decrement i).2 = is_editable i;
  enter_editable i : is_editable (on_enter_edit i) = is_editable i;
  exit_editable i : is_editable (on_exit_edit i) = is_editable i;
  commit_editable i : is_editable (commit i) = is_editable i;
  discard_editable i : is_editable (discard i) = is_editable i
}.

Section Width.
Context {I A : Type} `{MenuItem I A}.
Definition chars (s : bytes) : Z :=
  default (umax 16 / 6) (try_from_u 16 (Z.of_nat (length s))).
Definition estimated_width (i : I) : Z :=
  let label_width := sat_mul 16 (chars (label i)) 6 in
  let value_width := sat_mul 16 (chars (value_string i)) 6 in
  wrap 16 (label_width + 16 + value_width).
End Width.

Record ActionItem (A : Type) := { action_label : bytes; action_item_id : A }.
Arguments Build_ActionItem {A}.
Arguments action_label {A}.
Arguments action_item_id {A}.

#[export] Instance ActionItem_menu_item {A} : MenuItem (ActionItem A) A := {
  label := action_label;
  value_string _ := [];
  is_editable _ := false;
  increment i := (false, i);
  decrement i := (false, i);
  on_enter_edit i := i;
  on_exit_edit i := i;
  is_modified _ := false;
  commit i := i;
  discard i := i;
  action_id i := Some (action_item_id i)
}.

(** The integer types of [impl_numeric_bounds_for_int!]. *)
Inductive int_type := Unsigned (w : Z) | Signed (w : Z).
Definition int_min (t : int_type) : Z :=
  match t with Unsigned _ => 0 | Signed w => smin w end.
Definition int_max (t : int_type) : Z :=
  match t with Unsigned w => umax w | Signed w => smax w end.
Definition checked (t : int_type) (x : Z) : option Z :=
  if between (int_min t) (int_max t) x then Some x else None.

Definition add_clamped (t : int_type) (self step max : Z) : Z :=
  match checked t (self + step) with
  | Some candidate => Z.min candidate max
  | None => max
  end.
Definition sub_clamped (t : int_type) (self step min : Z) : Z :=
  match checked t (self - step) with
  | Some candidate => Z.max candidate min
  | None => min
  end.

Record NumericItem (t : int_type) := {
  numeric_label : bytes;
  current : Z;
  pending : Z;
  range_min : Z;
  range_max : Z;
  step : Z;
  formatter : Z -> bytes
}.
Arguments Build_NumericItem {t}.
Arguments numeric_label {t}.
Arguments current {t}.
Arguments pending {t}.
Arguments range_min {t}.
Arguments range_max {t}.
Arguments step {t}.
Arguments formatter {t}.

Section Numeric.
Context {t : int_type}.
#[local] Abbreviation NumericItem := (NumericItem t).

(** [NumericItem::new]; [None] is the panic of [clamp] on a crossed range. *)
Definition NumericItem_new (label : bytes) (initial lo hi step : Z) (formatter : Z -> bytes)
  : option NumericItem :=
  clamped_initial ← clamp_checked lo hi initial;
  Some {| numeric_label := label; current := clamped_initial; pending := clamped_initial;
          range_min := lo; range_max := hi; step := step; formatter := formatter |}.

Definition with_pending (i : NumericItem) (p : Z) : NumericItem :=
  {| numeric_label := numeric_label i; current := current i; pending := p;
     range_min := range_min i; range_max := range_max i; step := step i;
     formatter := formatter i |}.
Definition set_pending (i : NumericItem) (value : Z) : option NumericItem :=
  p ← clamp_checked (range_min i) (range_max i) value; Some (with_pending i p).

Definition numeric_increment (i : NumericItem) : bool * NumericItem :=
  let next := add_clamped t (pending i) (step i) (range_max i) in
  (negb (next =? pending i), with_pending i next).
Definition numeric_decrement (i : NumericItem) : bool * NumericItem :=
  let next := sub_clamped t (pending i) (step i) (range_min i) in
  (negb (next =? pending i), with_pending i next).
Definition numeric_is_modified (i : NumericItem) : bool := negb (pending i =? current i).
Definition numeric_commit (i : NumericItem) : NumericItem :=
  {| numeric_label := numeric_label i; current := pending i; pending := pending i;
     range_min := range_min i; range_max := range_max i; step := step i;
     formatter := formatter i |}.
Definition numeric_discard (i : NumericItem) : NumericItem := with_pending i (current i).

#[export] Instance NumericItem_menu_item {A} : MenuItem NumericItem A := {
  label := numeric_label;
  value_string i := formatter i (pending i);
  is_editable _ := true;
  increment := numeric_increment;
  decrement := numeric_decrement;
  on_enter_edit i := i;
  on_exit_edit i := i;
  is_modified := numeric_is_modified;
  commit := numeric_commit;
  discard := numeric_discard;
  action_id _ := None
}.
End Numeric.

Inductive MenuEntry (t : int_type) (A : Type) :=
| Numeric (item : NumericItem t)
| Command (item : ActionItem A).
Arguments Numeric {t A}.
Arguments Command {t A}.

Section Entry.
Context {t : int_type} {A : Type}.
#[local] Abbreviation Entry := (MenuEntry t A).

(** [match self { Numeric(item) => .., Command(item) => .. }] around a
    method that reads the item, and around one that mutates it. *)
Definition entry_get {B} (f : NumericItem t -> B) (g : ActionItem A -> B) (e : Entry) : B :=
  match e with Numeric item => f item | Command item => g item end.
Definition entry_mut (f : NumericItem t -> NumericItem t) (g : ActionItem A -> ActionItem A)
    (e : Entry) : Entry :=
  match e with Numeric item => Numeric (f item) | Command item => Command (g item) end.
Definition entry_step (f : NumericItem t -> bool * NumericItem t)
    (g : ActionItem A -> bool * ActionItem A) (e : Entry) : bool * Entry :=
  match e with
  | Numeric item => let (changed, item) := f item in (changed, Numeric item)
  | Command item => let (changed, item) := g item in (changed, Command item)
  end.

#[export] Instance MenuEntry_menu_item : MenuItem Entry A := {
  label := entry_get (label (A := A)) label;
  value_string := entry_get (value_string (A := A)) value_string;
  is_editable := entry_get (is_editable (A := A)) is_editable;
  increment := entry_step (increment (A := A)) increment;
  decrement := entry_step (decrement (A := A)) decrement;
  on_enter_edit := entry_mut (on_enter_edit (A := A)) on_enter_edit;
  on_exit_edit := entry_mut (on_exit_edit (A := A)) on_exit_edit;
  is_modified := entry_get (is_modified (A := A)) is_modified;
  commit := entry_mut (commit (A := A)) commit;
  discard := entry_mut (discard (A := A)) discard;
  action_id e := match e with Numeric _ => None | Command item => action_id item end
}.

#[export] Instance MenuEntry_laws : MenuItemLaws Entry A.
Proof. split; by intros []. Qed.
End Entry.

(** ** The viewport *)

Record ScrollableViewport := {
  width : Z;
  height : Z;
  header_height : Z;
  item_height : Z;
  max_visible : Z;
  scroll_offset : Z;
  selected_index : Z;
  total_items : Z
}.

Definition usize_add (x y : Z) : Z := wrap usize_bits (x + y).

Definition with_metrics (width height header_height item_height : Z) : ScrollableViewport :=
  let item_height := Z.max item_height 1 in
  let available := sat_sub height (sat_add 8 header_height 2) in
  {| width := width; height := height; header_height := header_height;
     item_height := item_height; max_visible := Z.max (available / item_height) 1;
     scroll_offset := 0; selected_index := 0; total_items := 0 |}.
Definition ScrollableViewport_new (width height : Z) : ScrollableViewport :=
  with_metrics width height 22 10.

(** Assignments to the three mutable fields. *)
Definition position (vp : ScrollableViewport) (scroll selected total : Z) : ScrollableViewport :=
  {| width := width vp; height := height vp; header_height := header_height vp;
     item_height := item_height vp; max_visible := max_visible vp;
     scroll_offset := scroll; selected_index := selected; total_items := total |}.

Definition ensure_visible (vp : ScrollableViewport) : ScrollableViewport :=
  let total := total_items vp in
  let selected := selected_index vp in
  if total =? 0 then position vp 0 0 total
  else
    let scroll :=
      if selected <? scroll_offset vp then selected
      else if usize_add (scroll_offset vp) (max_visible vp) <=? selected
      then sat_sub selected (wrap usize_bits (max_visible vp - 1))
      else scroll_offset vp in
    let max_offset := sat_sub total (max_visible vp) in
    position vp (Z.min scroll max_offset) selected total.

Definition set_total_items (vp : ScrollableViewport) (total : Z) : ScrollableViewport :=
  if total =? 0 then position vp 0 0 total
  else ensure_visible
         (position vp (scroll_offset vp) (Z.min (selected_index vp) (sat_sub total 1)) total).

Definition select (vp : ScrollableViewport) (index : Z) : bool * ScrollableViewport :=
  let previous := selected_index vp in
  let total := total_items vp in
  if total =? 0 then (false, position vp 0 0 total)
  else
    let vp' := ensure_visible
      (position vp (scroll_offset vp) (Z.min index (sat_sub total 1)) total) in
    (negb (selected_index vp' =? previous), vp').
Definition select_next (vp : ScrollableViewport) : bool * ScrollableViewport :=
  select vp (sat_add usize_bits (selected_index vp) 1).
Definition select_prev (vp : ScrollableViewport) : bool * ScrollableViewport :=
  select vp (sat_sub (selected_index vp) 1).

Definition visible_range (vp : ScrollableViewport) : Z * Z :=
  if total_items vp =? 0 then (0, 0)
  else
    let start := Z.min (scroll_offset vp) (sat_sub (total_items vp) 1) in
    (start, Z.min (usize_add start (max_visible vp)) (total_items vp)).

Definition item_y (vp : ScrollableViewport) (index : Z) : Z :=
  let relative := sat_sub index (scroll_offset vp) in
  let relative_i32 := if relative <=? smax 32 then relative else smax 32 in
  wraps 32 (header_height vp + 2 + wraps 32 (relative_i32 * item_height vp)).

Definition has_more_below (vp : ScrollableViewport) : bool :=
  usize_add (scroll_offset vp) (max_visible vp) <? total_items vp.
Definition has_more_above (vp : ScrollableViewport) : bool := 0 <? scroll_offset vp.

(** ** The menu *)

Record Menu (V : Type -> nat -> Type) (I : Type) (MAX_ITEMS : nat) := {
  items : V I MAX_ITEMS;
  viewport : ScrollableViewport;
  editing : bool
}.
Arguments Build_Menu {V I MAX_ITEMS}.
Arguments items {V I MAX_ITEMS}.
Arguments viewport {V I MAX_ITEMS}.
Arguments editing {V I MAX_ITEMS}.

Section Menu.
Context {V : Type -> nat -> Type} `{FixedVec V}.
Context {I A : Type} `{MenuItem I A} {MAX_ITEMS : nat}.
#[local] Abbreviation Menu := (Menu V I MAX_ITEMS).

Definition Menu_new (viewport : ScrollableViewport) : Menu :=
  {| items := vec_new; viewport := viewport; editing := false |}.

Definition len (m : Menu) : Z := Z.of_nat (length (vec_list (items m))).
Definition is_empty (m : Menu) : bool := len m =? 0.
Definition get (m : Menu) (index : Z) : option I := vec_list (items m) !! Z.to_nat index.

Definition with_items (m : Menu) (v : V I MAX_ITEMS) : Menu :=
  {| items := v; viewport := viewport m; editing := editing m |}.
Definition with_viewport (m : Menu) (vp : ScrollableViewport) : Menu :=
  {| items := items m; viewport := vp; editing := editing m |}.
Definition with_editing (m : Menu) (b : bool) : Menu :=
  {| items := items m; viewport := viewport m; editing := b |}.
(** A write through [get_mut(index)]. *)
Definition put (m : Menu) (index : Z) (i : I) : Menu :=
  with_items m (vec_update (Z.to_nat index) i (items m)).

(** The item comes back when the menu is full. *)
Definition add (m : Menu) (item : I) : result I unit * Menu :=
  match vec_push item (items m) with
  | Ok v =>
      let m := with_items m v in
      (Ok tt, with_viewport m (set_total_items (viewport m) (len m)))
  | Err item => (Err item, m)
  end.

(** [on_next] and [on_prev] up to the item method and the viewport method. *)
Definition on_turn (edit : I -> bool * I)
    (scroll : ScrollableViewport -> bool * ScrollableViewport) (m : Menu)
  : MenuEvent A * Menu :=
  let index := selected_index (viewport m) in
  if editing m then
    match get m index with
    | None => (NoOp, m)
    | Some item =>
        let (changed, item) := edit item in
        (if changed then ValueChanged index else NoOp, put m index item)
    end
  else
    let (changed, vp) := scroll (viewport m) in
    (if changed then SelectionChanged (selected_index vp) else NoOp, with_viewport m vp).
Definition on_next : Menu -> MenuEvent A * Menu := on_turn increment select_next.
Definition on_prev : Menu -> MenuEvent A * Menu := on_turn decrement select_prev.

Definition on_select (m : Menu) : MenuEvent A * Menu :=
  let index := selected_index (viewport m) in
  match get m index with
  | None => (NoOp, m)
  | Some item =>
      if is_editable item then
        if editing m
        then (EditCompleted index, put (with_editing m false) index (on_exit_edit item))
        else (EditStarted index, put (with_editing m true) index (on_enter_edit item))
      else
        match action_id item with
        | None => (NoOp, m)
        | Some action => (ActionSelected index action, m)
        end
  end.

Definition handle_event (m : Menu) (event : UiEvent) : MenuEvent A * Menu :=
  if is_empty m then (NoOp, m)
  else match event with
       | NextScreen => on_next m
       | PrevScreen => on_prev m
       | Select => on_select m
       end.

Definition menu_is_modified (m : Menu) : bool := existsb is_modified (vec_list (items m)).
Definition commit_all (m : Menu) : Menu := with_items m (vec_map commit (items m)).
Definition discard_all (m : Menu) : Menu := with_items m (vec_map discard (items m)).

Definition set_selected (m : Menu) (index : Z) : bool * Menu :=
  let (changed, vp) := select (viewport m) index in
  (changed, with_viewport (if changed then with_editing m false else m) vp).

Definition is_editing (m : Menu) : bool := editing m.
Definition menu_selected_index (m : Menu) : Z := selected_index (viewport m).

(** *** The renderer *)

Record RenderItem := {
  y : Z;
  render_label : bytes;
  render_value : bytes;
  is_selected : bool;
  render_is_editing : bool
}.

Inductive ScrollIndicator := UpArrow | DownArrow.

Definition rendered (m : Menu) (index : Z) (item : I) : RenderItem := {|
  y := item_y (viewport m) index;
  render_label := label item;
  render_value := value_string item;
  is_selected := index =? menu_selected_index m;
  render_is_editing := (index =? menu_selected_index m) && is_editing m |}.

(** The loop over the range, stopping when the vector is full. *)
Fixpoint render_loop (m : Menu) (n : nat) (index : Z) (out : V RenderItem MAX_ITEMS)
  : V RenderItem MAX_ITEMS :=
  match n with
  | O => out
  | S n =>
      match get m index with
      | None => render_loop m n (index + 1) out
      | Some item =>
          match vec_push (rendered m index item) out with
          | Ok out => render_loop m n (index + 1) out
          | Err _ => out
          end
      end
  end.
Definition render_items (m : Menu) : V RenderItem MAX_ITEMS :=
  let (start, stop) := visible_range (viewport m) in
  render_loop m (Z.to_nat (stop - start)) start vec_new.

Definition scroll_indicator (m : Menu) : option ScrollIndicator :=
  if has_more_below (viewport m) then Some DownArrow
  else if has_more_above (viewport m) then Some UpArrow
  else None.
End Menu.

(** ** Numeric items

    The items whose range is a range of their type and whose step is not
    negative; both values stay in the range. *)
Section NumericProperties.
Context {t : int_type}.
#[local] Abbreviation NumericItem := (NumericItem t).

Record NumericWf (i : NumericItem) : Prop := {
  wf_range : int_min t <= range_min i <= range_max i /\ range_max i <= int_max t;
  wf_step : 0 <= step i;
  wf_pending : range_min i <= pending i <= range_max i;
  wf_current : range_min i <= current i <= range_max i
}.

Lemma checked_spec x :
  checked t x = if between (int_min t) (int_max t) x then Some x else None.
Proof. reflexivity. Qed.

(** Overflow of the type and overflow of the range end at the same value. *)
Lemma add_clamped_spec (x s hi : Z) :
  int_min t <= x -> 0 <= s -> hi <= int_max t -> add_clamped t x s hi = Z.min (x + s) hi.
Proof.
  intros Hx Hs Hhi. unfold add_clamped. rewrite checked_spec. unfold between.
  destruct (_ && _) eqn:E; [done|].
  apply andb_false_iff in E as [E|E]; bools; lia.
Qed.

Lemma sub_clamped_spec (x s lo : Z) :
  x <= int_max t -> 0 <= s -> int_min t <= lo -> sub_clamped t x s lo = Z.max (x - s) lo.
Proof.
  intros Hx Hs Hlo. unfold sub_clamped. rewrite checked_spec. unfold between.
  destruct (_ && _) eqn:E; [done|].
  apply andb_false_iff in E as [E|E]; bools; lia.
Qed.

Lemma numeric_new_wf (l : bytes) (initial lo hi s : Z) (f : Z -> bytes) (i : NumericItem) :
  int_min t <= lo -> hi <= int_max t -> 0 <= s ->
  NumericItem_new l initial lo hi s f = Some i -> NumericWf i.
Proof.
  unfold NumericItem_new, clamp_checked. intros Hlo Hhi Hs.
  destruct (lo <=? hi) eqn:E; [|done]. cbn. intros [= <-]. bools.
  split; cbn; unfold clamp; lia.
Qed.

Lemma with_pending_wf (i : NumericItem) p :
  NumericWf i -> range_min i <= p <= range_max i -> NumericWf (with_pending i p).
Proof. intros [] Hp. by split. Qed.
End NumericProperties.

(** ** The viewport *)

(** What every operation maintains: the layout is that of the constructor,
    and the selection is inside the window, which is inside the items. *)
Record ViewportWf (vp : ScrollableViewport) : Prop := {
  vp_header : u8 (header_height vp);
  vp_height : u8 (height vp);
  vp_item : 1 <= item_height vp <= 255;
  vp_rows : max_visible vp
    = Z.max (sat_sub (height vp) (sat_add 8 (header_height vp) 2) / item_height vp) 1;
  vp_total : 0 <= total_items vp < 2 ^ 31;
  vp_empty : total_items vp = 0 -> selected_index vp = 0 /\ scroll_offset vp = 0;
  vp_window : 0 <= scroll_offset vp <= Z.max (total_items vp - max_visible vp) 0;
  vp_selected : total_items vp <> 0 ->
    scroll_offset vp <= selected_index vp < scroll_offset vp + max_visible vp /\
    selected_index vp < total_items vp
}.

Lemma rows_bounds (h header ih : Z) :
  u8 h -> u8 header -> 1 <= ih -> 1 <= Z.max (sat_sub h (sat_add 8 header 2) / ih) 1 <= 255.
Proof.
  intros Hh Hhead Hi.
  assert (sat_sub h (sat_add 8 header 2) / ih <= 255 / 1).
  { transitivity (255 / ih); [apply Z.div_le_mono; num|].
    apply Z.div_le_compat_l; lia. }
  change (255 / 1) with 255 in *. lia.
Qed.

Lemma max_visible_bounds vp : ViewportWf vp -> 1 <= max_visible vp <= 255.
Proof. intros [Hhead Hh Hi -> _ _ _ _]. apply rows_bounds; [done|done|lia]. Qed.

Lemma usize_add_small x y : 0 <= x < 2 ^ 31 -> 0 <= y <= 255 -> usize_add x y = x + y.
Proof.
  intros. unfold usize_add, wrap, usize_bits. change (2 ^ 31) with 2147483648 in *.
  apply Z.mod_small. num.
Qed.

(** The scroll offset [ensure_visible] computes: the old one moved just as
    far as the selection needs. *)
Definition scrolled (offset selected mv total : Z) : Z :=
  Z.min (Z.min selected (Z.max offset (selected - (mv - 1)))) (Z.max (total - mv) 0).

Lemma ensure_visible_spec vp :
  0 < total_items vp < 2 ^ 31 -> 0 <= scroll_offset vp < 2 ^ 31 -> 1 <= max_visible vp <= 255 ->
  0 <= selected_index vp < total_items vp ->
  ensure_visible vp
  = position vp (scrolled (scroll_offset vp) (selected_index vp) (max_visible vp) (total_items vp))
      (selected_index vp) (total_items vp).
Proof.
  intros Ht Ho Hm Hs. unfold ensure_visible, scrolled.
  rewrite usize_add_small by lia.
  assert (wrap usize_bits (max_visible vp - 1) = max_visible vp - 1) as ->.
  { unfold wrap. apply Z.mod_small. num. }
  destruct (total_items vp =? 0) eqn:E0; bools; [lia|].
  destruct (selected_index vp <? scroll_offset vp) eqn:E1; bools; [f_equal; num|].
  destruct (_ <=? selected_index vp) eqn:E2; bools; f_equal; num.
Qed.

(** Placing the selection keeps the layout and satisfies the invariant. *)
Lemma place_wf vp index total :
  ViewportWf vp -> 0 < total < 2 ^ 31 -> 0 <= index < total ->
  ViewportWf (ensure_visible (position vp (scroll_offset vp) index total)).
Proof.
  intros Hwf Ht Hi. pose proof (max_visible_bounds vp Hwf) as Hm. destruct Hwf as [].
  rewrite ensure_visible_spec; cbn; try lia.
  split; cbn; try done; try lia; unfold scrolled; lia.
Qed.

Lemma empty_wf vp : ViewportWf vp -> ViewportWf (position vp 0 0 0).
Proof.
  intros Hwf. pose proof (max_visible_bounds vp Hwf) as Hm. destruct Hwf as [].
  split; cbn; try done; lia.
Qed.

Lemma with_metrics_wf (w h header ih : Z) :
  u8 h -> u8 header -> u8 ih -> ViewportWf (with_metrics w h header ih).
Proof.
  intros. pose proof (rows_bounds h header (Z.max ih 1)) as Hr.
  split; cbn; try done; try num.
Qed.

Lemma set_total_items_wf vp total :
  ViewportWf vp -> 0 <= total < 2 ^ 31 -> ViewportWf (set_total_items vp total).
Proof.
  intros Hwf Ht. unfold set_total_items.
  destruct (total =? 0) eqn:E; bools; [subst; by apply empty_wf|].
  apply place_wf; [done|lia|]. destruct Hwf as [].
  destruct (decide (total_items vp = 0)) as [H0|H0]; [|specialize (vp_selected0 H0); num].
  destruct (vp_empty0 H0) as [-> _]. num.
Qed.

Lemma set_total_items_total vp total : total_items (set_total_items vp total) = total.
Proof.
  unfold set_total_items, ensure_visible. destruct (total =? 0) eqn:E; [done|].
  cbn. by rewrite E.
Qed.

Lemma select_wf vp index :
  ViewportWf vp -> 0 <= index ->
  let r := select vp index in
  ViewportWf r.2 /\ total_items r.2 = total_items vp /\
  selected_index r.2 = (if total_items vp =? 0 then 0 else Z.min index (total_items vp - 1)) /\
  r.1 = negb (selected_index r.2 =? selected_index vp).
Proof.
  intros Hwf Hi. unfold select.
  pose proof (vp_total vp Hwf) as Ht.
  destruct (total_items vp =? 0) eqn:E; bools.
  - rewrite E. cbn. destruct (vp_empty vp Hwf E) as [-> _]. split; [by apply empty_wf | done].
  - cbn zeta. cbn [fst snd]. split; [apply place_wf; [done|lia|num]|].
    unfold ensure_visible. cbn. rewrite (proj2 (Z.eqb_neq _ _) E). cbn.
    split; [done|]. split; [num|done].
Qed.

(** The reference semantics of an item: a pair (pending, current) of
    unbounded integers. *)
Inductive item_op := Increment | Decrement | SetPending (value : Z) | Commit | Discard.

Definition item_step {t} (op : item_op) (i : NumericItem t) : option (NumericItem t) :=
  match op with
  | Increment => Some (numeric_increment i).2
  | Decrement => Some (numeric_decrement i).2
  | SetPending v => set_pending i v
  | Commit => Some (numeric_commit i)
  | Discard => Some (numeric_discard i)
  end.
Definition item_run {t} (ops : list item_op) (i : NumericItem t) : option (NumericItem t) :=
  fold_left (fun o op => i ← o; item_step op i) ops (Some i).

Definition ref_step (lo hi s : Z) (st : Z * Z) (op : item_op) : Z * Z :=
  let (p, c) := st in
  match op with
  | Increment => (clamp lo hi (p + s), c)
  | Decrement => (clamp lo hi (p - s), c)
  | SetPending v => (clamp lo hi v, c)
  | Commit => (p, p)
  | Discard => (c, c)
  end.

Lemma item_step_ref {t} (i : NumericItem t) op :
  NumericWf i ->
  exists i', item_step op i = Some i' /\ NumericWf i' /\
    (range_min i', range_max i', step i') = (range_min i, range_max i, step i) /\
    (pending i', current i')
    = ref_step (range_min i) (range_max i) (step i) (pending i, current i) op.
Proof.
  intros Hwf. destruct (Hwf) as [Hr Hs Hp Hc].
  destruct op; cbn [item_step numeric_increment numeric_decrement fst snd].
  - rewrite add_clamped_spec by lia. eexists; split_and!; [done | | done |].
    + apply with_pending_wf; [done|lia].
    + cbn. f_equal. num.
  - rewrite sub_clamped_spec by lia. eexists; split_and!; [done | | done |].
    + apply with_pending_wf; [done|lia].
    + cbn. f_equal. num.
  - unfold set_pending, clamp_checked. rewrite (proj2 (Z.leb_le _ _)) by lia. cbn.
    eexists; split_and!; [done | | done | done]. apply with_pending_wf; [done|num].
  - eexists; split_and!; [done | | done | done]. by split.
  - eexists; split_and!; [done | | done | done]. by apply with_pending_wf.
Qed.

(** a numeric menu item of any of the integer types behaves like unbounded
    arithmetic followed by a clamp: whatever sequence of increments,
    decrements, direct writes, commits and discards it receives, it never
    panics or wraps, its pending and committed values are those of the
    reference run, and both stay in the item's range. *)
Theorem numeric_item_refines {t} (label : bytes) (initial lo hi step0 : Z)
    (formatter : Z -> bytes) (ops : list item_op)
    (Hlo : int_min t <= lo) (Hrange : lo <= hi) (Hhi : hi <= int_max t) (Hstep : 0 <= step0) :
  exists i : NumericItem t,
    (i0 ← NumericItem_new label initial lo hi step0 formatter; item_run ops i0) = Some i /\
    (pending i, current i)
    = fold_left (ref_step lo hi step0) ops (clamp lo hi initial, clamp lo hi initial) /\
    lo <= pending i <= hi /\ lo <= current i <= hi.
Proof.
  destruct (NumericItem_new (t := t) label initial lo hi step0 formatter) as [i0|] eqn:E.
  2:{ unfold NumericItem_new, clamp_checked in E.
      by rewrite (proj2 (Z.leb_le _ _) Hrange) in E. }
  pose proof (numeric_new_wf _ _ _ _ _ _ _ Hlo Hhi Hstep E) as Hwf.
  assert ((range_min i0, range_max i0, step i0) = (lo, hi, step0) /\
    (pending i0, current i0) = (clamp lo hi initial, clamp lo hi initial)) as [Hp Hv].
  { unfold NumericItem_new, clamp_checked in E.
    rewrite (proj2 (Z.leb_le _ _) Hrange) in E. cbn in E. by injection E as <-. }
  cbn [mbind option_bind]. rewrite <- Hv. clear E Hv. revert i0 Hwf Hp.
  unfold item_run. induction ops as [|op ops IH]; intros i0 Hwf Hp; cbn [fold_left].
  - exists i0. injection Hp as <- <- <-. destruct Hwf as []. done.
  - destruct (item_step_ref i0 op Hwf) as (i1 & Hs & Hw & Hq & Hr).
    cbn [mbind option_bind]. rewrite Hs. injection Hp as <- <- <-. rewrite <- Hr.
    by apply IH.
Qed.

(** selecting an index scrolls the viewport by the least amount that makes
    the selected item visible, and the visible range is a full window of
    consecutive indices that contains the selection. *)
Theorem viewport_minimal_scroll (vp : ScrollableViewport) (index : Z)
    (Hwf : ViewportWf vp) (Hitems : 0 < total_items vp) (Hindex : 0 <= index) :
  let vp' := (select vp index).2 in
  let shows o := o <= selected_index vp' < o + max_visible vp in
  let (start, stop) := visible_range vp' in
  selected_index vp' = Z.min index (total_items vp - 1) /\
  start <= selected_index vp' < stop /\
  stop - start = Z.min (max_visible vp) (total_items vp) /\
  shows (scroll_offset vp') /\
  forall o, shows o -> Z.abs (scroll_offset vp' - scroll_offset vp) <= Z.abs (o - scroll_offset vp).
Proof.
  cbn zeta. destruct (select_wf vp index Hwf Hindex) as (Hwf' & Htot & Hsel & _).
  pose proof (max_visible_bounds _ Hwf) as Hmv. pose proof (vp_total _ Hwf) as Hlt.
  assert (max_visible (select vp index).2 = max_visible vp) as Hm.
  { unfold select, ensure_visible. cbn. by destruct (total_items vp =? 0). }
  assert (scroll_offset (select vp index).2
    = scrolled (scroll_offset vp) (Z.min index (total_items vp - 1)) (max_visible vp)
        (total_items vp)) as Hoff.
  { unfold select. destruct (total_items vp =? 0) eqn:E; bools; [lia|]. cbn [snd].
    destruct Hwf as []. rewrite ensure_visible_spec; cbn; try num.
    f_equal; num. }
  pose proof (vp_window _ Hwf) as Hwin.
  rewrite (proj2 (Z.eqb_neq (total_items vp) 0)) in Hsel by lia.
  unfold visible_range. rewrite Htot, Hm.
  rewrite (proj2 (Z.eqb_neq (total_items vp) 0)) by lia.
  pose proof (vp_selected _ Hwf) as Hs. pose proof (vp_window _ Hwf') as Hwin'.
  pose proof (vp_selected _ Hwf') as Hs'. rewrite Htot, Hm in Hwin', Hs'.
  assert (Z.min (scroll_offset (select vp index).2) (sat_sub (total_items vp) 1)
    = scroll_offset (select vp index).2) as ->.
  { num. }
  rewrite usize_add_small by lia. rewrite Hsel in *. specialize (Hs' ltac:(lia)).
  split; [done|]. split; [lia|]. split; [lia|]. split; [lia|].
  intros o Ho. rewrite Hoff. unfold scrolled. specialize (Hs ltac:(lia)). lia.
Qed.

(** ** Refinement

    The specification of a menu has no viewport: a list of items, a cursor
    and a flag. Only the item under the cursor is ever edited. *)
Section Refinement.
Context {V : Type -> nat -> Type} `{FixedVecLaws V}.
Context {I A : Type} `{MenuItemLaws I A} {MAX_ITEMS : nat}.
Context (Hcap : Z.of_nat MAX_ITEMS < 2 ^ 31).
#[local] Abbreviation Menu := (Menu V I MAX_ITEMS).

Record Spec := { entries : list I; cursor : nat; edit : bool }.

Inductive menu_op :=
| Add (item : I)
| Event (event : UiEvent)
| SetSelected (index : Z)
| CommitAll
| DiscardAll.
Inductive menu_out :=
| Added (r : result I unit)
| Happened (event : MenuEvent A)
| Moved (changed : bool)
| Nothing.

Definition menu_step (m : Menu) (op : menu_op) : menu_out * Menu :=
  match op with
  | Add item => let (r, m) := add m item in (Added r, m)
  | Event e => let (ev, m) := handle_event m e in (Happened ev, m)
  | SetSelected i => let (b, m) := set_selected m i in (Moved b, m)
  | CommitAll => (Nothing, commit_all m)
  | DiscardAll => (Nothing, discard_all m)
  end.

Definition move (s : Spec) (target : nat) : bool * Spec :=
  (negb (target =? cursor s)%nat, {| entries := entries s; cursor := target; edit := edit s |}).
Definition edit_item (s : Spec) (i : I) (b : bool) : Spec :=
  {| entries := <[cursor s := i]> (entries s); cursor := cursor s; edit := b |}.
Definition spec_turn (f : I -> bool * I) (target : nat) (s : Spec) (item : I)
  : MenuEvent A * Spec :=
  if edit s then
    (if (f item).1 then ValueChanged (Z.of_nat (cursor s)) else NoOp,
     edit_item s (f item).2 true)
  else
    let (changed, s) := move s target in
    (if changed then SelectionChanged (Z.of_nat target) else NoOp, s).
Definition spec_event (s : Spec) (event : UiEvent) : MenuEvent A * Spec :=
  match entries s !! cursor s with
  | None => (NoOp, s)
  | Some item =>
      match event with
      | NextScreen =>
          spec_turn increment (Nat.min (S (cursor s)) (length (entries s) - 1)) s item
      | PrevScreen => spec_turn decrement (pred (cursor s)) s item
      | Select =>
          if is_editable item then
            if edit s
            then (EditCompleted (Z.of_nat (cursor s)), edit_item s (on_exit_edit item) false)
            else (EditStarted (Z.of_nat (cursor s)), edit_item s (on_enter_edit item) true)
          else (default NoOp (ActionSelected (Z.of_nat (cursor s)) <$> action_id item), s)
      end
  end.
Definition spec_step (s : Spec) (op : menu_op) : menu_out * Spec :=
  match op with
  | Add item =>
      if (length (entries s) <? MAX_ITEMS)%nat
      then (Added (Ok tt),
            {| entries := entries s ++ [item]; cursor := cursor s; edit := edit s |})
      else (Added (Err item), s)
  | Event e => let (ev, s) := spec_event s e in (Happened ev, s)
  | SetSelected i =>
      let (changed, s') := move s (Nat.min (Z.to_nat i) (length (entries s) - 1)) in
      (Moved changed,
       if changed then {| entries := entries s'; cursor := cursor s'; edit := false |} else s')
  | CommitAll =>
      (Nothing, {| entries := commit <$> entries s; cursor := cursor s; edit := edit s |})
  | DiscardAll =>
      (Nothing, {| entries := discard <$> entries s; cursor := cursor s; edit := edit s |})
  end.

Definition abs (m : Menu) : Spec :=
  {| entries := vec_list (items m); cursor := Z.to_nat (selected_index (viewport m));
     edit := editing m |}.

Record MenuWf (m : Menu) : Prop := {
  menu_viewport : ViewportWf (viewport m);
  menu_total : total_items (viewport m) = len m;
  menu_editing : editing m = true ->
    exists item, get m (selected_index (viewport m)) = Some item /\ is_editable item = true
}.

Lemma len_small (m : Menu) : 0 <= len m < 2 ^ 31.
Proof. unfold len. pose proof (vec_capacity (items m)). lia. Qed.

Lemma cursor_bounds (m : Menu) : MenuWf m ->
  0 <= selected_index (viewport m) /\
  (len m <> 0 -> selected_index (viewport m) < len m) /\
  (len m = 0 -> selected_index (viewport m) = 0).
Proof.
  intros [Hv Ht _]. rewrite <- Ht. pose proof (vp_window _ Hv).
  destruct (decide (total_items (viewport m) = 0)) as [Hz|Hz].
  - destruct (vp_empty _ Hv Hz). lia.
  - pose proof (vp_selected _ Hv Hz). lia.
Qed.

Lemma get_cursor (m : Menu) : get m (selected_index (viewport m)) = entries (abs m) !! cursor (abs m).
Proof. done. Qed.

Lemma get_some (m : Menu) : MenuWf m -> len m <> 0 ->
  exists item, get m (selected_index (viewport m)) = Some item.
Proof.
  intros Hwf Hne. destruct (cursor_bounds m Hwf) as (Hz & Hb & _). specialize (Hb Hne).
  apply lookup_lt_is_Some_2. unfold len in Hb. lia.
Qed.

Lemma put_abs (m : Menu) (item : I) (b : bool) : MenuWf m ->
  abs (put (with_editing m b) (selected_index (viewport m)) item) = edit_item (abs m) item b.
Proof.
  intros _. unfold abs, put, edit_item. cbn. by rewrite vec_update_list.
Qed.

Lemma put_wf (m : Menu) (item i : I) (b : bool) : MenuWf m ->
  get m (selected_index (viewport m)) = Some item -> is_editable i = is_editable item ->
  (b = true -> is_editable item = true) ->
  MenuWf (put (with_editing m b) (selected_index (viewport m)) i).
Proof.
  intros Hwf Hg Hi Hb. destruct (Hwf) as [Hv Ht _]. split; cbn; [done | |].
  - unfold len in *. cbn. by rewrite vec_update_list, length_insert.
  - intros ->. exists i. unfold get in *. cbn. rewrite vec_update_list, Hi. split; [|auto].
    apply list_lookup_insert_eq. by eapply lookup_lt_Some.
Qed.

Lemma turn_step (f : I -> bool * I) (g : ScrollableViewport -> bool * ScrollableViewport)
    (target : Z) (m : Menu) (item : I) :
  (forall i, is_editable (f i).2 = is_editable i) ->
  MenuWf m -> get m (selected_index (viewport m)) = Some item ->
  g (viewport m) = select (viewport m) target -> 0 <= target ->
  let r := on_turn f g m in
  let s := spec_turn f (Nat.min (Z.to_nat target) (length (entries (abs m)) - 1)) (abs m) item in
  r.1 = s.1 /\ abs r.2 = s.2 /\ MenuWf r.2.
Proof.
  intros Hf Hwf Hg Hsel Htar. pose proof (cursor_bounds m Hwf) as (Hz & Hlt & _).
  assert (len m <> 0) as Hne.
  { apply lookup_lt_Some in Hg. unfold len. lia. }
  specialize (Hlt Hne).
  unfold on_turn, spec_turn. rewrite Hg.
  assert (edit (abs m) = editing m) as -> by done.
  destruct (editing m) eqn:Hed; cbn zeta.
  - destruct (f item) as [changed i] eqn:Ef. cbn [fst snd].
    assert (put m (selected_index (viewport m)) i
      = put (with_editing m true) (selected_index (viewport m)) i) as ->
      by (unfold put, with_items; cbn; by rewrite Hed).
    split; [cbn; rewrite Z2Nat.id by lia; by destruct changed|].
    split; [by apply put_abs|]. apply (put_wf m item); try done.
    + change i with (changed, i).2. rewrite <- Ef. apply Hf.
    + intros _. destruct (menu_editing m Hwf Hed) as (x & Hx & He). congruence.
  - rewrite Hsel.
    destruct (select_wf (viewport m) target (menu_viewport m Hwf) Htar)
      as (Hv & Ht & Hs & Hc).
    destruct (select (viewport m) target) as [changed vp]. cbn [fst snd] in *.
    rewrite (menu_total m Hwf) in Hs, Ht. rewrite (proj2 (Z.eqb_neq _ _) Hne) in Hs.
    cbn [move fst snd abs entries cursor edit with_viewport viewport items editing] in *.
    assert (Z.of_nat (Nat.min (Z.to_nat target) (length (vec_list (items m)) - 1))
      = selected_index vp) as Htgt by (unfold len in *; lia).
    assert (changed = negb (Nat.min (Z.to_nat target) (length (vec_list (items m)) - 1)
      =? Z.to_nat (selected_index (viewport m)))%nat) as ->.
    { rewrite Hc, <- Htgt. f_equal. apply eq_true_iff_eq.
      rewrite Z.eqb_eq, Nat.eqb_eq. lia. }
    split; [by rewrite Htgt|]. split; [unfold abs; cbn; f_equal; lia|].
    split; cbn; [done|done|congruence].
Qed.
Lemma event_step (m : Menu) (e : UiEvent) : MenuWf m ->
  (handle_event m e).1 = (spec_event (abs m) e).1 /\
  abs (handle_event m e).2 = (spec_event (abs m) e).2 /\ MenuWf (handle_event m e).2.
Proof.
  intros Hwf. pose proof (cursor_bounds m Hwf) as (Hz & Hlt & Hz0).
  unfold handle_event, spec_event, is_empty. rewrite <- get_cursor.
  destruct (Z.eqb_spec (len m) 0) as [He|He].
  { assert (get m (selected_index (viewport m)) = None) as ->; [|done].
    apply lookup_ge_None_2. unfold len in He. lia. }
  specialize (Hlt He). destruct (get_some m Hwf He) as [item Hg]. rewrite Hg.
  pose proof (len_small m) as Hsm.
  destruct e; unfold on_next, on_prev.
  - replace (S (cursor (abs m))) with (Z.to_nat (sat_add usize_bits (selected_index (viewport m)) 1))
      by (cbn; num).
    apply turn_step; [apply increment_editable | done | done | done | num].
  - replace (pred (cursor (abs m))) with
      (Nat.min (Z.to_nat (sat_sub (selected_index (viewport m)) 1)) (length (entries (abs m)) - 1))
      by (cbn; unfold len in *; num).
    apply turn_step; [apply decrement_editable | done | done | done | num].
  - unfold on_select. rewrite Hg.
    assert (edit (abs m) = editing m) as -> by done.
    assert (Z.of_nat (cursor (abs m)) = selected_index (viewport m)) as -> by (cbn; lia).
    destruct (is_editable item) eqn:Hed; [destruct (editing m)|].
    + split; [done|]. split; [by apply put_abs|].
      apply (put_wf m item); try done. by rewrite exit_editable.
    + split; [done|]. split; [by apply put_abs|].
      apply (put_wf m item); try done. by rewrite enter_editable.
    + by destruct (action_id item).
Qed.

Lemma add_step (m : Menu) (item : I) : MenuWf m ->
  (menu_step m (Add item)).1 = (spec_step (abs m) (Add item)).1 /\
  abs (menu_step m (Add item)).2 = (spec_step (abs m) (Add item)).2 /\
  MenuWf (menu_step m (Add item)).2.
Proof.
  intros Hwf. pose proof (vec_capacity (items m)) as Hn. cbn [menu_step spec_step]. unfold add.
  assert (entries (abs m) = vec_list (items m)) as -> by done.
  destruct (Nat.ltb_spec (length (vec_list (items m))) MAX_ITEMS) as [Hr|Hr].
  2:{ by rewrite vec_push_full by lia. }
  destruct (vec_push_room item (items m) Hr) as (v & -> & Hv). cbn [fst snd].
  destruct (Hwf) as [Hvp Htot Hed]. split; [done|].
  set (m' := with_viewport _ _).
  assert (len (with_items m v) = len m + 1) as Hl.
  { unfold len. cbn. rewrite Hv, length_app. cbn. lia. }
  assert (ViewportWf (viewport m')) as Hw.
  { apply set_total_items_wf; [done|]. apply len_small. }
  assert (selected_index (viewport m') = selected_index (viewport m)) as Hs.
  { pose proof (len_small m). cbn [m' with_viewport viewport]. rewrite Hl.
    unfold set_total_items. rewrite (proj2 (Z.eqb_neq _ _)) by lia.
    unfold ensure_visible. cbn [total_items position].
    rewrite (proj2 (Z.eqb_neq _ _)) by lia. cbn.
    pose proof (cursor_bounds m Hwf). num. }
  split.
  - unfold abs. rewrite Hs. cbn. by rewrite Hv.
  - split; [done | |].
    + cbn. rewrite set_total_items_total. done.
    + intros He. rewrite Hs. destruct (Hed He) as (x & Hx & Hxe). exists x. split; [|done].
      unfold get, m'. cbn. rewrite Hv. by apply lookup_app_l_Some.
Qed.

Lemma set_selected_step (m : Menu) (i : Z) : MenuWf m -> 0 <= i ->
  (menu_step m (SetSelected i)).1 = (spec_step (abs m) (SetSelected i)).1 /\
  abs (menu_step m (SetSelected i)).2 = (spec_step (abs m) (SetSelected i)).2 /\
  MenuWf (menu_step m (SetSelected i)).2.
Proof.
  intros Hwf Hi. pose proof (cursor_bounds m Hwf) as (Hz & Hlt & Hz0).
  cbn [menu_step spec_step]. unfold set_selected.
  destruct (select_wf (viewport m) i (menu_viewport m Hwf) Hi) as (Hv & Ht & Hs & Hc).
  destruct (select (viewport m) i) as [changed vp]. cbn [fst snd] in *.
  rewrite (menu_total m Hwf) in Hs, Ht.
  assert (Nat.min (Z.to_nat i) (length (entries (abs m)) - 1) = Z.to_nat (selected_index vp)) as ->.
  { cbn. unfold len in *. destruct (_ =? 0) eqn:E; bools; lia. }
  assert (0 <= selected_index vp) as Hnn.
  { unfold len in *. destruct (_ =? 0) eqn:E; bools; lia. }
  assert (negb (Z.to_nat (selected_index vp) =? cursor (abs m))%nat = changed) as Hb.
  { rewrite Hc. f_equal. apply eq_true_iff_eq. rewrite Z.eqb_eq, Nat.eqb_eq. cbn. lia. }
  unfold move. cbn [fst snd]. rewrite Hb. destruct changed; cbn [fst snd].
  - split; [done|]. split; [done|]. split; [done|done|]. cbn. done.
  - split; [done|]. split; [done|]. symmetry in Hc. apply negb_false_iff, Z.eqb_eq in Hc.
    split; [done|done|]. cbn. rewrite Hc. exact (menu_editing m Hwf).
Qed.

Lemma map_step (m : Menu) (f : I -> I) : MenuWf m ->
  (forall i, is_editable (f i) = is_editable i) ->
  MenuWf (with_items m (vec_map f (items m))).
Proof.
  intros [Hv Ht He] Hf. split; cbn; [done | |].
  - unfold len in *. cbn. by rewrite vec_map_list, length_fmap.
  - intros Hm. destruct (He Hm) as (x & Hx & Hxe). exists (f x).
    unfold get in *. cbn. rewrite vec_map_list, list_lookup_fmap, Hx. by rewrite Hf.
Qed.

(** Indices are unsigned. *)
Definition op_valid (op : menu_op) : Prop :=
  match op with SetSelected i => 0 <= i | _ => True end.

Lemma menu_step_refines (m : Menu) (op : menu_op) : MenuWf m -> op_valid op ->
  (menu_step m op).1 = (spec_step (abs m) op).1 /\
  abs (menu_step m op).2 = (spec_step (abs m) op).2 /\ MenuWf (menu_step m op).2.
Proof.
  intros Hwf Hop. destruct op as [item|e|i| |].
  - by apply add_step.
  - pose proof (event_step m e Hwf) as (H1' & H2' & H3'). cbn [menu_step spec_step].
    destruct (handle_event m e), (spec_event (abs m) e). cbn in *. by subst.
  - by apply set_selected_step.
  - split; [done|]. split; [|apply map_step; [done | apply commit_editable]].
    unfold abs, commit_all. cbn. by rewrite vec_map_list.
  - split; [done|]. split; [|apply map_step; [done | apply discard_editable]].
    unfold abs, discard_all. cbn. by rewrite vec_map_list.
Qed.

Fixpoint run {S} (f : S -> menu_op -> menu_out * S) (s : S) (ops : list menu_op)
  : list menu_out * S :=
  match ops with
  | [] => ([], s)
  | op :: ops =>
      let (out, s) := f s op in
      let (outs, s) := run f s ops in (out :: outs, s)
  end.

Lemma menu_run_refines (ops : list menu_op) (m : Menu) : MenuWf m -> Forall op_valid ops ->
  (run menu_step m ops).1 = (run spec_step (abs m) ops).1 /\
  abs (run menu_step m ops).2 = (run spec_step (abs m) ops).2 /\
  MenuWf (run menu_step m ops).2.
Proof.
  revert m. induction ops as [|op ops IH]; intros m Hwf Hops; [done|].
  apply Forall_cons_1 in Hops as [Hop Hops].
  destruct (menu_step_refines m op Hwf Hop) as (Ho & Ha & Hw). cbn [run].
  destruct (menu_step m op) as [o m'], (spec_step (abs m) op) as [o' s']. cbn in *. subst.
  destruct (IH m' Hw Hops) as (Hos & Has & Hws).
  destruct (run menu_step m' ops), (run spec_step (abs m') ops). cbn in *. by subst.
Qed.

Lemma new_wf (vp : ScrollableViewport) :
  ViewportWf vp -> total_items vp = 0 -> MenuWf (Menu_new vp).
Proof.
  intros Hv Ht. split; cbn; [done| |done]. unfold len. cbn. by rewrite vec_new_list.
Qed.

(** C11: the menu refines its viewport-free specification: from an empty
    menu, any sequence of item additions, encoder events, jumps, commits
    and discards produces exactly the outputs of the specification, and
    ends in a menu whose items, cursor and editing flag are the
    specification's, whose cursor is inside the visible window, and whose
    editing flag is set only on an editable item. *)
Theorem menu_refines (w h header ih : Z) (ops : list menu_op)
    (Hh : u8 h) (Hheader : u8 header) (Hih : u8 ih) (Hops : Forall op_valid ops) :
  let m0 : Menu := Menu_new (with_metrics w h header ih) in
  let s0 := {| entries := []; cursor := 0%nat; edit := false |} in
  (run menu_step m0 ops).1 = (run spec_step s0 ops).1 /\
  abs (run menu_step m0 ops).2 = (run spec_step s0 ops).2 /\
  MenuWf (run menu_step m0 ops).2.
Proof.
  intros m0 s0. assert (abs m0 = s0) as <-.
  { unfold abs. cbn. by rewrite vec_new_list. }
  apply menu_run_refines; [|done]. apply new_wf; [by apply with_metrics_wf | done].
Qed.

(** *** Rendering *)

(** The rows of [n] items from index [start]. *)
Definition rows (m : Menu) (start : Z) (n : nat) : list RenderItem :=
  imap (fun k => rendered (A := A) m (start + Z.of_nat k))
    (take n (drop (Z.to_nat start) (vec_list (items m)))).

Lemma render_loop_rows (m : Menu) (n : nat) (index : Z) (out : V RenderItem MAX_ITEMS) :
  0 <= index -> index + Z.of_nat n <= len m ->
  (length (vec_list out) + n <= MAX_ITEMS)%nat ->
  vec_list (render_loop (A := A) m n index out) = vec_list out ++ rows m index n.
Proof.
  revert index out. induction n as [|n IH]; intros index out Hi Hn Hroom; cbn [render_loop].
  { unfold rows. cbn. by rewrite app_nil_r. }
  destruct (lookup_lt_is_Some_2 (vec_list (items m)) (Z.to_nat index)) as [item Hg];
    [unfold len in Hn; lia|].
  unfold get. rewrite Hg.
  destruct (vec_push_room (rendered (A := A) m index item) out) as (out' & -> & Ho); [lia|].
  rewrite IH; [|lia|lia|rewrite Ho, length_app; cbn; lia].
  rewrite Ho. unfold rows. rewrite (drop_S _ _ _ Hg). cbn [take imap].
  rewrite <- app_assoc. cbn. replace (Z.to_nat (index + 1)) with (S (Z.to_nat index)) by lia.
  rewrite Z.add_0_r. do 2 f_equal. apply imap_ext. intros k x _. cbn. f_equal. lia.
Qed.

Lemma rows_lookup (m : Menu) (start : Z) (n k : nat) (r : RenderItem) : 0 <= start ->
  rows m start n !! k = Some r <->
  (k < n)%nat /\ exists item, get m (start + Z.of_nat k) = Some item /\
    r = rendered (A := A) m (start + Z.of_nat k) item.
Proof.
  intros Hs. unfold rows, get. rewrite list_lookup_imap.
  replace (Z.to_nat (start + Z.of_nat k)) with (Z.to_nat start + k)%nat by lia.
  destruct (Nat.lt_ge_cases k n) as [Hk|Hk].
  - rewrite lookup_take_lt, lookup_drop by done.
    destruct (_ !! _) as [item|]; cbn; naive_solver.
  - rewrite lookup_take_ge by done. cbn. split; [done|lia].
Qed.

Definition window (m : Menu) : nat := Z.to_nat (Z.min (max_visible (viewport m)) (len m)).

Lemma render_items_rows (m : Menu) : MenuWf m ->
  vec_list (render_items (A := A) m) = rows m (scroll_offset (viewport m)) (window m).
Proof.
  intros [Hv Ht _]. pose proof (max_visible_bounds _ Hv) as Hmv.
  pose proof (vp_window _ Hv) as Hw. pose proof (vec_capacity (items m)) as Hc.
  unfold render_items, visible_range, window. rewrite Ht in *.
  destruct (Z.eqb_spec (len m) 0) as [He|He].
  - transitivity (vec_list (@vec_new V _ RenderItem MAX_ITEMS)); [done|].
    rewrite vec_new_list, He, Z.min_r by lia. done.
  - pose proof (vp_selected _ Hv) as Hsel. pose proof (vp_total _ Hv) as Hlt.
    rewrite Ht in *. specialize (Hsel He).
    replace (Z.min (scroll_offset (viewport m)) (sat_sub (len m) 1))
      with (scroll_offset (viewport m)) by num.
    rewrite usize_add_small by lia.
    replace (_ - scroll_offset (viewport m)) with (Z.min (max_visible (viewport m)) (len m))
      by lia.
    rewrite render_loop_rows; rewrite ?vec_new_list; cbn [length app]; try lia; [done|].
    unfold len in *. lia.
Qed.

Lemma item_y_spec (vp : ScrollableViewport) (k : Z) :
  ViewportWf vp -> 0 <= k < max_visible vp ->
  item_y vp (scroll_offset vp + k) = header_height vp + 2 + k * item_height vp.
Proof.
  intros Hv Hk. pose proof (max_visible_bounds _ Hv) as Hmv. destruct Hv as [].
  assert (k * item_height vp <= 254 * 255) by (apply Z.mul_le_mono_nonneg; lia).
  assert (0 <= k * item_height vp) by lia.
  unfold item_y. replace (sat_sub _ _) with k by num.
  rewrite (proj2 (Z.leb_le k _)) by num.
  rewrite (wraps_small 32 (k * _)) by num. apply wraps_small; num.
Qed.

Lemma row_fits (vp : ScrollableViewport) (k : Z) :
  ViewportWf vp -> header_height vp + 2 + item_height vp <= height vp ->
  0 <= k < max_visible vp ->
  header_height vp + 2 + k * item_height vp + item_height vp <= height vp.
Proof.
  intros [Hhead Hh Hi Hr _ _ _ _] Hfit Hk.
  assert (sat_sub (height vp) (sat_add 8 (header_height vp) 2)
    = height vp - (header_height vp + 2)) as Ha by num.
  rewrite Ha in Hr.
  assert (1 <= (height vp - (header_height vp + 2)) / item_height vp)
    by (apply Z.div_le_lower_bound; lia).
  rewrite Z.max_l in Hr by lia.
  pose proof (Z.mul_div_le (height vp - (header_height vp + 2)) (item_height vp)) as Hm.
  rewrite <- Hr in Hm. nia.
Qed.

(** what is drawn for a well-formed menu is a full window of its items,
    in order and at successive rows: no row is missing for lack of space
    in the output vector, exactly one row is the selected one, every row
    lies between the header and the bottom of the screen when the layout
    has room for one, and the scroll indicator tells whether items are
    hidden below or, failing that, above. *)
Theorem render_spec (m : Menu) (Hwf : MenuWf m) :
  let vp := viewport m in
  let out := vec_list (render_items (A := A) m) in
  let start := scroll_offset vp in
  length out = window m /\
  (forall k r, out !! k = Some r -> exists item,
     get m (start + Z.of_nat k) = Some item /\
     r = {| y := header_height vp + 2 + Z.of_nat k * item_height vp;
            render_label := label item; render_value := value_string item;
            is_selected := (start + Z.of_nat k =? selected_index vp);
            render_is_editing := (start + Z.of_nat k =? selected_index vp) && editing m |} /\
     (header_height vp + 2 + item_height vp <= height vp -> y r + item_height vp <= height vp)) /\
  (len m <> 0 -> exists k r, out !! k = Some r /\ is_selected r = true /\
     forall k' r', out !! k' = Some r' -> is_selected r' = true -> k' = k) /\
  scroll_indicator m =
    (if start + Z.of_nat (length out) <? len m then Some DownArrow
     else if 0 <? start then Some UpArrow else None).
Proof.
  cbn zeta. rewrite (render_items_rows m Hwf). destruct (Hwf) as [Hv Ht He].
  pose proof (max_visible_bounds _ Hv) as Hmv. pose proof (vp_window _ Hv) as Hw.
  pose proof (len_small m) as Hlm. rewrite Ht in Hw.
  assert (length (rows m (scroll_offset (viewport m)) (window m)) = window m) as Hlen.
  { unfold rows, window. rewrite length_imap, length_take, length_drop. unfold len in *. lia. }
  assert (forall k r, rows m (scroll_offset (viewport m)) (window m) !! k = Some r ->
    0 <= Z.of_nat k < max_visible (viewport m)) as Hk.
  { intros k r Hr. apply lookup_lt_Some in Hr. rewrite Hlen in Hr. unfold window in Hr. lia. }
  split; [done|]. split; [|split].
  - intros k r Hr. pose proof (Hk _ _ Hr) as Hkb.
    apply rows_lookup in Hr as (_ & item & Hg & ->); [|lia].
    exists item. split; [done|]. unfold rendered. cbn [y].
    rewrite item_y_spec by done. split; [done|]. intros Hfit.
    apply row_fits; done.
  - intros Hne. pose proof (vp_selected _ Hv) as Hs. rewrite Ht in Hs. specialize (Hs Hne).
    destruct (get_some m Hwf Hne) as [item Hg].
    set (k := Z.to_nat (selected_index (viewport m) - scroll_offset (viewport m))).
    assert (scroll_offset (viewport m) + Z.of_nat k = selected_index (viewport m)) as Ek by lia.
    exists k, (rendered (A := A) m (selected_index (viewport m)) item). split.
    + apply rows_lookup; [lia|]. split; [unfold window; lia|]. exists item. by rewrite Ek.
    + split; [cbn; apply Z.eqb_refl|]. intros k' r' Hr' Hsel.
      apply rows_lookup in Hr' as (_ & x & _ & ->); [|lia]. cbn in Hsel. bools.
      unfold menu_selected_index in Hsel. lia.
  - rewrite Hlen. unfold scroll_indicator, has_more_below, has_more_above.
    rewrite Ht, usize_add_small by lia.
    assert ((scroll_offset (viewport m) + max_visible (viewport m) <? len m)
      = (scroll_offset (viewport m) + Z.of_nat (window m) <? len m)) as ->; [|done].
    unfold window. apply eq_true_iff_eq. rewrite !Z.ltb_lt. lia.
Qed.
End Refinement.

(** ** A concrete menu: the layout of the 128 x 64 display *)
Module Sample.
Definition screen : ScrollableViewport := ScrollableViewport_new 128 64.
Definition entry (v : Z) : MenuEntry (Unsigned 8) Z :=
  default (Command {| action_label := lit "none"; action_item_id := 0 |})
    (Numeric <$> NumericItem_new (lit "Item") v 0 10 1 (fun z => [48 + z])).
Definition save : MenuEntry (Unsigned 8) Z :=
  Command {| action_label := lit "Save"; action_item_id := 7 |}.
Definition session : list (menu_op (I := MenuEntry (Unsigned 8) Z)) :=
  [Add (entry 1); Add (entry 2); Add (entry 3); Add (entry 4); Add (entry 5); Add save;
   Event Select; Event NextScreen; Event Select; SetSelected 5; Event Select].
Definition final : Menu bounded (MenuEntry (Unsigned 8) Z) 8 :=
  (run menu_step (Menu_new screen) session).2.

Lemma screen_wf : ViewportWf screen.
Proof. apply with_metrics_wf; num. Qed.

Lemma session_valid : Forall op_valid session.
Proof. repeat constructor. cbn. lia. Qed.

Lemma cap_small : Z.of_nat 8 < 2 ^ 31.
Proof. lia. Qed.

Lemma final_wf : MenuWf final.
Proof.
  unfold final. apply (menu_run_refines cap_small); [|apply session_valid].
  apply new_wf; [apply screen_wf | done].
Qed.

Example session_outputs :
  drop 6 (run (A := Z) menu_step (Menu_new (V := bounded) (MAX_ITEMS := 8) screen) session).1
  = [Happened (EditStarted 0); Happened (ValueChanged 0); Happened (EditCompleted 0);
     Moved true; Happened (ActionSelected 5 7)].
Proof. vm_compute. reflexivity. Qed.

Example numeric_item_refines_witness :
  exists i : NumericItem (Unsigned 8),
    (i0 ← NumericItem_new [] 5 0 255 100 (fun _ => []);
     item_run [Increment; Increment; Increment; Commit; Decrement] i0) = Some i /\
    pending i = 155 /\ current i = 255.
Proof.
  destruct (numeric_item_refines (t := Unsigned 8) [] 5 0 255 100 (fun _ => [])
    [Increment; Increment; Increment; Commit; Decrement]
    ltac:(cbn; lia) ltac:(lia) ltac:(cbn; num) ltac:(lia)) as (i & Hrun & Heq & _).
  exists i. split; [exact Hrun|]. cbn in Heq. by injection Heq.
Defined.

Example viewport_minimal_scroll_witness :
  let vp := set_total_items screen 6 in
  (let (start, stop) := visible_range (select vp 5).2 in start <= 5 < stop /\ stop - start = 4) /\
  selected_index (select vp 5).2 = 5.
Proof.
  intros vp.
  assert (ViewportWf vp) as Hwf by (apply set_total_items_wf; [apply screen_wf | lia]).
  pose proof (viewport_minimal_scroll vp 5 Hwf ltac:(vm_compute; reflexivity) ltac:(lia)) as Hm.
  cbn zeta in Hm. destruct (visible_range (select vp 5).2) as [start stop].
  destruct Hm as (Hs & Hin & Hlen & _).
  change (Z.min 5 (total_items vp - 1)) with 5 in Hs.
  change (Z.min (max_visible vp) (total_items vp)) with 4 in Hlen.
  rewrite Hs in Hin. split; [split; [exact Hin | exact Hlen] | exact Hs].
Defined.

Example menu_refines_witness :
  cursor (abs final) = 5%nat /\ edit (abs final) = false.
Proof.
  unfold final.
  destruct (menu_refines (V := bounded) (MAX_ITEMS := 8) cap_small 128 64 22 10 session
    ltac:(num) ltac:(num) ltac:(num) session_valid) as (_ & Ha & _).
  change (ScrollableViewport_new 128 64) with (with_metrics 128 64 22 10).
  unfold screen, ScrollableViewport_new. rewrite Ha. vm_compute. split; reflexivity.
Defined.

Example render_spec_witness : length (vec_list (render_items (A := Z) final)) = 4%nat.
Proof.
  destruct (render_spec (V := bounded) cap_small final final_wf) as (Hlen & _).
  rewrite Hlen. vm_compute. reflexivity.
Defined.
End Sample.
