(* ===== verification/Publish.v ===== *)
(** * Publications

    [firmware/src/tasks/mqtt/publish.rs]: the topic and the JSON payload a
    reading is published with, written into bounded strings, and the
    Standard Library's number formatting they use. The publication itself is
    a step of the task in MqttTask. *)
From S2P Require Import Prelude Str F32 EuDst NtpServers TimeSync OtaManifest ConfigRules Rubicson Messages.

(** ** Formatting *)

(** [{}] of a signed integer. *)
Definition show_int (n : Z) : bytes := if n <? 0 then 45 :: dec (- n) else dec n.

(** The integer nearest to [n / d], the even one of two. *)
Definition round_even (n d : Z) : Z :=
  let q := n / d in let r := n mod d in
  if (d <? 2 * r) || ((2 * r =? d) && Z.odd q) then q + 1 else q.

(** [{:.1}] of a float: the exact value rounded to tenths. A finite single
    has at most 39 digits before the point. *)
Definition show_tenths (x : f32) : bytes :=
  match x with
  | S754_nan => lit "NaN"
  | S754_infinity s => (if s then [45] else []) ++ lit "inf"
  | S754_zero s => (if s then [45] else []) ++ lit "0.0"
  | S754_finite s m e =>
      let n := if 0 <=? e then Z.pos m * 2 ^ e * 10 else round_even (Z.pos m * 10) (2 ^ (- e)) in
      (if s then [45] else []) ++ dec_aux 39 (n / 10) [] ++ [46; 48 + n mod 10]
  end.

(** ** The publication of a reading *)

Definition build_topic (reading : RadioReading) : option bytes :=
  write_pieces 64
    [lit "home/sensors/rubicson/"; dec (id (inner reading)); lit "/temperature"].

(** [current_time] is the value of the time watch. The outer [None] is the
    panic of a reference from the future, the inner one a payload that does
    not fit. *)
Definition build_payload (current_time : option TimeReference) (now : Z) (reading : RadioReading)
  : option (option bytes) :=
  unix_secs ←
    match current_time with
    | None => Some 0
    | Some time_ref => now_unix_secs now time_ref
    end;
  let batt := if battery_ok (inner reading) then lit "ok" else lit "low" in
  Some (write_pieces 128
    [qlit "{'id':"; dec (id (inner reading)); qlit ",'ch':"; dec (channel (inner reading));
     qlit ",'temp':"; show_tenths (temperature_c (inner reading)); qlit ",'batt':'"; batt;
     qlit "','rssi':"; show_int (rssi reading); qlit ",'unix_s':";
     dec (default (umax 32) (try_from_u 32 unix_secs)); lit "}"]).

(** ** Properties *)

(** The field types of a reading. *)
Record ReadingTyped (r : RadioReading) : Prop := {
  rt_id : u8 (id (inner r));
  rt_channel : u8 (channel (inner r));
  rt_rssi : sint 16 (rssi r)
}.

Lemma dec_u8_length n : u8 n -> (length (dec n) <= 3)%nat.
Proof. intros Hn. apply dec_length; [num | lia]. Qed.

Lemma show_int_length n : sint 16 n -> (length (show_int n) <= 6)%nat.
Proof.
  intros Hn. unfold show_int. destruct (Z.ltb_spec n 0); cbn [length].
  - pose proof (dec_length 5 (- n)). num_unfold. change (10 ^ Z.of_nat 5) with 100000 in *. lia.
  - pose proof (dec_length 5 n). num_unfold. change (10 ^ Z.of_nat 5) with 100000 in *. lia.
Qed.

Lemma show_tenths_length x : (length (show_tenths x) <= 42)%nat.
Proof.
  destruct x as [s|s| |s m e]; cbn [show_tenths]; try (destruct s; cbn; lia); [cbn; lia|].
  cbv zeta. match goal with |- context [dec_aux 39 ?n []] => pose proof (dec_aux_length 39 n []) end.
  rewrite !length_app. cbn [length] in *. destruct s; cbn [length]; lia.
Qed.

Lemma secs_u32 s : u32 (default (umax 32) (try_from_u 32 s)).
Proof.
  unfold try_from_u. destruct ((0 <=? s) && (s <=? umax 32)) eqn:E; cbn; [bools|]; num.
Qed.

Lemma dec_u32_length n : u32 n -> (length (dec n) <= 10)%nat.
Proof. intros Hn. apply dec_length; [change (10 ^ Z.of_nat 10) with 10000000000; num | lia]. Qed.

(** The time the payload carries. *)
Definition payload_secs (current_time : option TimeReference) (now : Z) : option Z :=
  s ← match current_time with None => Some 0 | Some r => now_unix_secs now r end;
  Some (default (umax 32) (try_from_u 32 s)).

(** Whatever the temperature is, NaN included, topic and payload fit. *)
Lemma publication_fits current_time now r : ReadingTyped r ->
  build_topic r = Some (lit "home/sensors/rubicson/" ++ dec (id (inner r)) ++ lit "/temperature") /\
  build_payload current_time now r =
    (s ← payload_secs current_time now;
     Some (Some (qlit "{'id':" ++ dec (id (inner r)) ++ qlit ",'ch':" ++ dec (channel (inner r)) ++
       qlit ",'temp':" ++ show_tenths (temperature_c (inner r)) ++ qlit ",'batt':'" ++
       (if battery_ok (inner r) then lit "ok" else lit "low") ++ qlit "','rssi':" ++
       show_int (rssi r) ++ qlit ",'unix_s':" ++ dec s ++ lit "}"))).
Proof.
  intros [Hi Hc Hr]. pose proof (dec_u8_length _ Hi). pose proof (dec_u8_length _ Hc).
  pose proof (show_int_length _ Hr). pose proof (show_tenths_length (temperature_c (inner r))).
  split.
  - apply write_pieces_fits; [done|]. rewrite !length_app. cbn [length].
    change (length (lit "home/sensors/rubicson/")) with 22%nat.
    change (length (lit "/temperature")) with 12%nat. lia.
  - unfold build_payload, payload_secs. destruct (match current_time with None => _ | _ => _ end) as [s|];
      cbn [mbind option_bind]; [|done].
    pose proof (dec_u32_length _ (secs_u32 s)). set (t := default _ _) in *.
    f_equal. apply write_pieces_fits; [done|]. rewrite !length_app.
    assert (length (if battery_ok (inner r) then lit "ok" else lit "low") <= 3)%nat
      by (destruct (battery_ok (inner r)); cbn; lia).
    change (length (qlit "{'id':")) with 6%nat. change (length (qlit ",'ch':")) with 6%nat.
    change (length (qlit ",'temp':")) with 8%nat. change (length (qlit ",'batt':'")) with 9%nat.
    change (length (qlit "','rssi':")) with 9%nat. change (length (qlit ",'unix_s':")) with 10%nat.
    change (length (lit "}")) with 1%nat. lia.
Qed.

(** Tenths of a degree in decimal. *)
Definition show_raw (raw : Z) : bytes :=
  (if raw <? 0 then [45] else []) ++ dec (Z.abs raw / 10) ++ [46; 48 + Z.abs raw mod 10].

(** The text of a single-precision temperature shows exactly the transmitted
    tenths, checked over the twelve-bit range. *)
Lemma show_tenths_exact raw : -2048 <= raw < 2048 ->
  show_tenths (f32_div (f32_from raw) f32_ten) = show_raw raw.
Proof.
  intros Hr.
  pose (f := fun t =>
    bool_decide (show_tenths (f32_div (f32_from (t - 2048)) f32_ten) = show_raw (t - 2048))).
  assert (f (raw + 2048) = true) as Hf.
  { apply (forall_below (Z.to_nat 4096)); [vm_compute; reflexivity | lia]. }
  unfold f in Hf. apply bool_decide_eq_true in Hf.
  by replace (raw + 2048 - 2048) with raw in Hf by lia.
Qed.

Lemma digit_not_minus n t1 t2 : 0 <= n < 10 ^ 20 -> dec n ++ t1 <> 45 :: t2.
Proof.
  intros Hn E. destruct (dec_spec n Hn) as (Hd & _ & Hne).
  destruct Hd as [|b ds Hb _]; [done|]. injection E as -> _. discriminate Hb.
Qed.

Lemma show_raw_inj x y t1 t2 : Z.abs x < 10 ^ 20 -> Z.abs y < 10 ^ 20 ->
  show_raw x ++ t1 = show_raw y ++ t2 -> x = y /\ t1 = t2.
Proof.
  intros Hx Hy E. unfold show_raw in E. rewrite <- !app_assoc in E.
  assert (forall n, 0 <= Z.abs n / 10 <= Z.abs n) as Hq by (intros n; Z.div_mod_to_equations; lia).
  destruct (Z.ltb_spec x 0), (Z.ltb_spec y 0); cbn [app] in E;
    try (exfalso; symmetry in E; eapply digit_not_minus; [|exact E]; pose proof (Hq x); pose proof (Hq y); lia);
    try (exfalso; eapply digit_not_minus; [|exact E]; pose proof (Hq x); pose proof (Hq y); lia);
    try injection E as E;
    (apply dec_inj in E as [Eq E];
      [| pose proof (Hq x); lia | pose proof (Hq y); lia | by intros ? ? [= <- _] | by intros ? ? [= <- _]]);
    injection E as Em ->; (split; [|done]);
    pose proof (Z.div_mod (Z.abs x) 10); pose proof (Z.div_mod (Z.abs y) 10); lia.
Qed.

Lemma show_int_inj x y c s t1 t2 : Z.abs x < 10 ^ 20 -> Z.abs y < 10 ^ 20 ->
  is_digit (if byte_char c =? 39 then 34 else byte_char c) = false ->
  show_int x ++ qlit (String c s) ++ t1 = show_int y ++ qlit (String c s) ++ t2 -> x = y /\ t1 = t2.
Proof.
  intros Hx Hy Hc E. unfold show_int in E.
  destruct (Z.ltb_spec x 0), (Z.ltb_spec y 0); cbn [app] in E;
    try (exfalso; symmetry in E; eapply digit_not_minus; [|exact E]; lia);
    try (exfalso; eapply digit_not_minus; [|exact E]; lia);
    try injection E as E; apply dec_field_inj in E as [E ->];
    first [done | lia | split; [lia | done]].
Qed.

(** What a sensor's packet and the radio make of a reading. *)
Record Transmitted (r : RadioReading) (sensor channel0 : Z) (battery : bool) (temp_raw : Z) : Prop := {
  tx_inner : inner r = reading_of sensor channel0 battery temp_raw;
  tx_id : u8 sensor;
  tx_channel : 0 <= channel0 < 4;
  tx_temp : -2048 <= temp_raw < 2048;
  tx_rssi : sint 16 (rssi r)
}.

Lemma transmitted_typed r i c b t : Transmitted r i c b t -> ReadingTyped r.
Proof.
  intros [E Hi Hc _ Hr]. split; rewrite ?E; cbn; [done | num | done].
Qed.

(** The text a reading is published as. *)
Definition payload_text (sensor channel0 : Z) (battery : bool) (temp_raw rssi secs : Z) : bytes :=
  qlit "{'id':" ++ dec sensor ++ qlit ",'ch':" ++ dec (channel0 + 1) ++
  qlit ",'temp':" ++ show_raw temp_raw ++ qlit ",'batt':'" ++
  (if battery then lit "ok" else lit "low") ++ qlit "','rssi':" ++
  show_int rssi ++ qlit ",'unix_s':" ++ dec secs ++ lit "}".

Lemma payload_text_inj i1 c1 b1 t1 r1 s1 i2 c2 b2 t2 r2 s2 :
  u8 i1 -> u8 i2 -> 0 <= c1 < 4 -> 0 <= c2 < 4 -> -2048 <= t1 < 2048 -> -2048 <= t2 < 2048 ->
  sint 16 r1 -> sint 16 r2 -> u32 s1 -> u32 s2 ->
  payload_text i1 c1 b1 t1 r1 s1 = payload_text i2 c2 b2 t2 r2 s2 ->
  (i1, c1, b1, t1, r1, s1) = (i2, c2, b2, t2, r2, s2).
Proof.
  intros. unfold payload_text in *. match goal with E : _ ++ _ = _ |- _ => same_lit E; rename E into E0 end.
  apply dec_field_inj in E0 as [-> E0]; [|num|num|done].
  apply dec_field_inj in E0 as [Ec E0]; [|num|num|done].
  apply show_raw_inj in E0 as [-> E0]; [|num|num]. same_lit E0.
  assert (b1 = b2 /\ show_int r1 ++ qlit ",'unix_s':" ++ dec s1 ++ lit "}" =
    show_int r2 ++ qlit ",'unix_s':" ++ dec s2 ++ lit "}") as [-> E1].
  { destruct b1, b2; try (apply (f_equal head) in E0; discriminate E0);
      same_lit E0; same_lit E0; done. }
  apply show_int_inj in E1 as [-> E1]; [|num|num|done].
  apply dec_inj in E1 as [-> _]; [|num|num|by intros ? ? [= <- _]|by intros ? ? [= <- _]].
  by replace c1 with c2 by lia.
Qed.

(** what reaches the broker about a transmitted reading: topic and
    payload always fit their buffers, the payload is the JSON text with the
    exact tenths of a degree although the temperature went through single
    precision, and it determines sensor, channel, battery flag, temperature,
    signal strength and time: no two different readings are published as the
    same text. *)
Theorem payload_roundtrip (r1 r2 : RadioReading) i1 c1 b1 t1 i2 c2 b2 t2 now1 now2 time1 time2 s1 s2
    (H1 : Transmitted r1 i1 c1 b1 t1) (H2 : Transmitted r2 i2 c2 b2 t2)
    (Hs1 : payload_secs time1 now1 = Some s1) (Hs2 : payload_secs time2 now2 = Some s2) :
  build_topic r1 = Some (lit "home/sensors/rubicson/" ++ dec i1 ++ lit "/temperature") /\
  build_payload time1 now1 r1 = Some (Some (payload_text i1 c1 b1 t1 (rssi r1) s1)) /\
  (build_payload time1 now1 r1 = build_payload time2 now2 r2 ->
   (i1, c1, b1, t1, rssi r1, s1) = (i2, c2, b2, t2, rssi r2, s2)).
Proof.
  destruct (publication_fits time1 now1 r1 (transmitted_typed _ _ _ _ _ H1)) as [T1 P1].
  destruct (publication_fits time2 now2 r2 (transmitted_typed _ _ _ _ _ H2)) as [_ P2].
  rewrite Hs1 in P1. rewrite Hs2 in P2. destruct H1 as [E1 ? ? ? ?], H2 as [E2 ? ? ? ?].
  rewrite E1 in T1, P1. rewrite E2 in P2.
  cbn [id channel battery_ok temperature_c reading_of mbind option_bind] in T1, P1, P2.
  rewrite show_tenths_exact in P1, P2 by done.
  split; [done|]. split; [exact P1|]. intros E. rewrite P1, P2 in E. apply (inj Some), (inj Some) in E.
  assert (forall t n s, payload_secs t n = Some s -> u32 s) as Hu.
  { intros t n s Ht. unfold payload_secs in Ht.
    destruct (match t with None => _ | _ => _ end); [|done]. injection Ht as <-. apply secs_u32. }
  pose proof (Hu _ _ _ Hs1). pose proof (Hu _ _ _ Hs2). by apply payload_text_inj.
Qed.

Module Sample.
Definition reading : RadioReading :=
  {| inner := reading_of 230 0 true (-94); rssi := -70; detection_threshold := 8; received_at := 5 |}.
Lemma reading_transmitted : Transmitted reading 230 0 true (-94).
Proof. split; done. Qed.
Definition reference : TimeReference := {| unix_secs := 1700000000; captured_at := 1000000 |}.

Example reading_text :
  payload_text 230 0 true (-94) (-70) 1700000002
  = qlit "{'id':230,'ch':1,'temp':-9.4,'batt':'ok','rssi':-70,'unix_s':1700000002}".
Proof. reflexivity. Qed.

Lemma payload_roundtrip_witness :
  build_payload (Some reference) 3000000 reading
  = Some (Some (payload_text 230 0 true (-94) (-70) 1700000002)).
Proof.
  apply (payload_roundtrip reading reading 230 0 true (-94) 230 0 true (-94) 3000000 3000000
    (Some reference) (Some reference) 1700000002 1700000002 reading_transmitted reading_transmitted
    eq_refl eq_refl).
Defined.
End Sample.
