(* ===== verification/RsaVerify.v ===== *)
(** * RSA-2048 signature verification

    [crates/rsa-verify-core/src/lib.rs] and the verifier of
    [firmware/src/ota/hw_rsa.rs] that feeds the RSA peripheral: multi-word
    arithmetic for the Montgomery parameters, a DER reader for PKCS#1 public
    keys, and the PKCS#1 v1.5 and PSS encodings. Arrays of [u32] are lists of
    64 words, least significant first; the peripheral and SHA-256 are
    interfaces. *)
From S2P Require Import Prelude OtaCrypto.

Definition RSA_2048_LEN : nat := 256.
Definition SHA256_LEN : nat := 32.
Definition PSS_TRAILER_FIELD : Z := 0xbc.
Definition PSS_EM_LEN : nat := RSA_2048_LEN.
Definition PSS_MASKED_DB_LEN : nat := PSS_EM_LEN - SHA256_LEN - 1.
Definition PSS_SALT_LEN : nat := SHA256_LEN.
Definition PSS_PS_LEN : nat := PSS_MASKED_DB_LEN - PSS_SALT_LEN - 1.
Definition SHA256_DIGEST_INFO_PREFIX : bytes :=
  [0x30; 0x31; 0x30; 0x0d; 0x06; 0x09; 0x60; 0x86; 0x48; 0x01; 0x65; 0x03; 0x04; 0x02; 0x01; 0x05;
   0x00; 0x04; 0x20].

Inductive RsaVerifyError := MalformedDer | UnsupportedKey | InvalidSignature.

Record Rsa2048PublicKey := { modulus_be : bytes; exponent_be : bytes }.

(** ** Words *)

Abbreviation words := (list Z).

(** [words[index] = ...] for every index of a zeroed array. *)
Definition rsa2048_be_bytes_to_le_words (bs : bytes) : words :=
  fold_left (fun ws index =>
    let byte_offset := (RSA_2048_LEN - (index + 1) * 4)%nat in
    <[index := of_be_bytes [nth byte_offset bs 0; nth (byte_offset + 1) bs 0;
                            nth (byte_offset + 2) bs 0; nth (byte_offset + 3) bs 0]]> ws)
    (seq 0 64) (replicate 64 0).

Definition rsa2048_le_words_to_be_bytes (ws : words) : bytes :=
  fold_left (fun bs index =>
    let byte_offset := (RSA_2048_LEN - (index + 1) * 4)%nat in
    list_inserts byte_offset (be_bytes 4 (nth index ws 0)) bs)
    (seq 0 64) (replicate RSA_2048_LEN 0).

Definition rsa2048_exponent_be_to_le_words (bs : bytes) : words :=
  <[0%nat := of_be_bytes bs]> (replicate 64 0).

(** ** Montgomery parameters *)

Definition newton_step (modulus_limb inverse : Z) : Z :=
  wrap 32 (inverse * wrap 32 (2 - wrap 32 (modulus_limb * inverse))).
Definition compute_m_prime (modulus_le : words) : Z :=
  let modulus_limb := nth 0 modulus_le 0 in
  let inverse := Nat.iter 5 (newton_step modulus_limb) 1 in
  wrap 32 (- inverse).

(** The doubling loop: the words and the last carry. *)
Fixpoint double_words (value : words) (carry : Z) : words * Z :=
  match value with
  | [] => ([], carry)
  | w :: value =>
      let doubled := Z.lor (wrap 64 (Z.shiftl w 1)) carry in
      let (value, last) := double_words value (Z.shiftr doubled 32) in
      (wrap 32 doubled :: value, last)
  end.

Fixpoint cmp_loop (index : nat) (left_words right_words : words) : comparison :=
  match index with
  | O => Eq
  | S index =>
      if nth index left_words 0 <? nth index right_words 0 then Lt
      else if nth index right_words 0 <? nth index left_words 0 then Gt
      else cmp_loop index left_words right_words
  end.
Definition cmp_le_words (left_words right_words : words) : comparison := cmp_loop 64 left_words right_words.

Fixpoint sub_loop (left_words right_words : words) (borrow : Z) : words :=
  match left_words, right_words with
  | lhs :: left_words, r :: right_words =>
      let rhs := r + borrow in
      wrap 32 (wrap 64 (lhs - rhs)) :: sub_loop left_words right_words (Z.b2z (lhs <? rhs))
  | _, _ => left_words
  end.
Definition sub_assign_le_words (left_words right_words : words) : words := sub_loop left_words right_words 0.

Definition double_mod (value modulus : words) : words :=
  let (value, carry) := double_words value 0 in
  if negb (carry =? 0) || bool_decide (cmp_le_words value modulus <> Lt)
  then sub_assign_le_words value modulus else value.

Definition one : words := <[0%nat := 1]> (replicate 64 0).
Definition compute_r_squared_mod_n (modulus_le : words) : words :=
  Nat.iter (RSA_2048_LEN * 16) (fun value => double_mod value modulus_le) one.

(** ** DER *)

Record DerReader := { der : bytes; offset : Z }.
Definition at_offset (r : DerReader) (o : Z) : DerReader := {| der := der r; offset := o |}.
Definition DerReader_new (bs : bytes) : DerReader := {| der := bs; offset := 0 |}.
Definition der_len (r : DerReader) : Z := Z.of_nat (length (der r)).
Definition is_empty (self : DerReader) : bool := offset self =? der_len self.

Definition read_byte (self : DerReader) : result RsaVerifyError (Z * DerReader) :=
  byte ← ok_or (der self !! Z.to_nat (offset self)) MalformedDer;
  Ok (byte, at_offset self (offset self + 1)).

Fixpoint read_len_bytes (n : nat) (len : Z) (self : DerReader)
  : result RsaVerifyError (Z * DerReader) :=
  match n with
  | O => Ok (len, self)
  | S n =>
      '(byte, self) ← read_byte self;
      read_len_bytes n (Z.lor (wrap usize_bits (Z.shiftl len 8)) byte) self
  end.

Definition read_len (self : DerReader) : result RsaVerifyError (Z * DerReader) :=
  '(first, self) ← read_byte self;
  if Z.land first 0x80 =? 0 then Ok (first, self)
  else
    let len_len := Z.land first 0x7f in
    if (len_len =? 0) || (usize_bits / 8 <? len_len) then Err MalformedDer
    else read_len_bytes (Z.to_nat len_len) 0 self.

Definition read_tlv (tag : Z) (self : DerReader) : result RsaVerifyError (bytes * DerReader) :=
  '(byte, self) ← read_byte self;
  if negb (byte =? tag) then Err MalformedDer
  else
    '(len, self) ← read_len self;
    end_ ← ok_or (try_from_u usize_bits (offset self + len)) MalformedDer;
    if der_len self <? end_ then Err MalformedDer
    else Ok (take (Z.to_nat len) (drop (Z.to_nat (offset self)) (der self)), at_offset self end_).

Definition parse_rsa2048_modulus (integer : bytes) : result RsaVerifyError bytes :=
  match integer with
  | 0 :: rest =>
      if Nat.eqb (length rest) RSA_2048_LEN then Ok rest
      else if Nat.eqb (length integer) RSA_2048_LEN then Ok integer else Err UnsupportedKey
  | rest => if Nat.eqb (length rest) RSA_2048_LEN then Ok rest else Err UnsupportedKey
  end.

Definition parse_rsa_exponent (integer : bytes) : result RsaVerifyError bytes :=
  if Nat.eqb (length integer) 0 || (4 <? length integer)%nat then Err UnsupportedKey
  else
    let exponent := replicate (4 - length integer) 0 ++ integer in
    if bool_decide (exponent = replicate 4 0) || (Z.land (nth 3 exponent 0) 1 =? 0)
    then Err UnsupportedKey else Ok exponent.

Definition parse_pkcs1_rsa2048_public_key_der (bs : bytes)
  : result RsaVerifyError Rsa2048PublicKey :=
  '(sequence, reader) ← read_tlv 0x30 (DerReader_new bs);
  if negb (is_empty reader) then Err MalformedDer
  else
    '(modulus_integer, reader) ← read_tlv 0x02 (DerReader_new sequence);
    '(exponent_integer, reader) ← read_tlv 0x02 reader;
    if negb (is_empty reader) then Err MalformedDer
    else
      modulus ← parse_rsa2048_modulus modulus_integer;
      exponent ← parse_rsa_exponent exponent_integer;
      Ok {| modulus_be := modulus; exponent_be := exponent |}.

(** ** Encoded messages *)

Section Encodings.
Context `{Sha256}.

(** [out.chunks_mut(32)]: [n] bytes remain to be filled. *)
Fixpoint mgf1_loop (fuel : nat) (seed : bytes) (counter : Z) (n : nat) : bytes :=
  match fuel with
  | O => []
  | S fuel =>
      if (n =? 0)%nat then []
      else
        let digest := sha256 (seed ++ be_bytes 4 counter) in
        let copy_len := Nat.min n SHA256_LEN in
        take copy_len digest ++ mgf1_loop fuel seed (wrap 32 (counter + 1)) (n - copy_len)
  end.
Definition mgf1_sha256 (seed : bytes) (n : nat) : bytes := mgf1_loop n seed 0 n.

Definition verify_pss_sha256_encoded_message (message encoded_message : bytes)
  : result RsaVerifyError unit :=
  if negb (nth (RSA_2048_LEN - 1) encoded_message 0 =? PSS_TRAILER_FIELD)
  then Err InvalidSignature
  else if negb (Z.land (nth 0 encoded_message 0) 0x80 =? 0) then Err InvalidSignature
  else
    let masked_db := take PSS_MASKED_DB_LEN encoded_message in
    let h := take (RSA_2048_LEN - 1 - PSS_MASKED_DB_LEN) (drop PSS_MASKED_DB_LEN encoded_message) in
    let db_mask := mgf1_sha256 h PSS_MASKED_DB_LEN in
    let db := zip_with Z.lxor masked_db db_mask in
    let db := alter (fun b => Z.land b 0x7f) 0%nat db in
    if negb (forallb (fun byte => byte =? 0) (take PSS_PS_LEN db))
       || negb (nth PSS_PS_LEN db 0 =? 0x01)
    then Err InvalidSignature
    else
      let salt := drop (PSS_PS_LEN + 1) db in
      let message_hash := sha256 message in
      let expected_h := sha256 (replicate 8 0 ++ message_hash ++ salt) in
      if bool_decide (expected_h = h) then Ok tt else Err InvalidSignature.

Definition verify_pkcs1v15_sha256_encoded_message (message encoded_message : bytes)
  : result RsaVerifyError unit :=
  if negb (nth 0 encoded_message 0 =? 0x00) || negb (nth 1 encoded_message 0 =? 0x01)
  then Err InvalidSignature
  else
    let separator_index :=
      (RSA_2048_LEN - length SHA256_DIGEST_INFO_PREFIX - SHA256_LEN - 1)%nat in
    if negb (forallb (fun byte => byte =? 0xff)
               (take (separator_index - 2) (drop 2 encoded_message)))
       || negb (nth separator_index encoded_message 0 =? 0x00)
    then Err InvalidSignature
    else
      let prefix_start := (separator_index + 1)%nat in
      let digest_start := (prefix_start + length SHA256_DIGEST_INFO_PREFIX)%nat in
      if negb (bool_decide (take (digest_start - prefix_start) (drop prefix_start encoded_message)
                            = SHA256_DIGEST_INFO_PREFIX))
      then Err InvalidSignature
      else
        let expected_digest := sha256 message in
        if bool_decide (drop digest_start encoded_message = expected_digest)
        then Ok tt else Err InvalidSignature.
End Encodings.

(** ** The hardware operation *)

(** [RsaModularExponentiation::<Op2048>]: the exponent, the modulus and
    [m_prime], then the base and [r_squared]. *)
Class RsaEngine := { mod_exp : words -> words -> Z -> words -> words -> words }.

Inductive TlsError := DecodeError | InvalidCertificate | TlsInvalidSignature | InvalidSignatureScheme.

Definition map_rsa_error (error : RsaVerifyError) : TlsError :=
  match error with
  | MalformedDer | UnsupportedKey => InvalidCertificate
  | InvalidSignature => TlsInvalidSignature
  end.

Section Hardware.
Context `{Sha256} `{RsaEngine}.

Definition rsa_public_operation_2048 (public_key_der signature : bytes)
  : result TlsError bytes :=
  public_key ← map_err map_rsa_error (parse_pkcs1_rsa2048_public_key_der public_key_der);
  guard_ok (Nat.eqb (length signature) RSA_2048_LEN) DecodeError;;
  let modulus := rsa2048_be_bytes_to_le_words (modulus_be public_key) in
  let exponent := rsa2048_exponent_be_to_le_words (exponent_be public_key) in
  let base := rsa2048_be_bytes_to_le_words signature in
  let m_prime := compute_m_prime modulus in
  let r_squared := compute_r_squared_mod_n modulus in
  Ok (rsa2048_le_words_to_be_bytes (mod_exp exponent modulus m_prime base r_squared)).

Definition verify_sha256_signature
    (verify_encoded_message : bytes -> bytes -> result RsaVerifyError unit)
    (public_key_der message signature : bytes) : result TlsError unit :=
  encoded_message ← rsa_public_operation_2048 public_key_der signature;
  map_err map_rsa_error (verify_encoded_message message encoded_message).

Definition verify_pkcs1v15_sha256 : bytes -> bytes -> bytes -> result TlsError unit :=
  verify_sha256_signature verify_pkcs1v15_sha256_encoded_message.
Definition verify_pss_sha256 : bytes -> bytes -> bytes -> result TlsError unit :=
  verify_sha256_signature verify_pss_sha256_encoded_message.
Definition verify_pss_sha384 (public_key_der message signature : bytes) : result TlsError unit :=
  Err InvalidSignatureScheme.
Definition verify_pss_sha512 (public_key_der message signature : bytes) : result TlsError unit :=
  Err InvalidSignatureScheme.
End Hardware.

(** ** Arithmetic *)

(** The number a list of 32-bit words denotes. *)
Fixpoint of_words (ws : words) : Z :=
  match ws with
  | [] => 0
  | w :: ws => w + 2 ^ 32 * of_words ws
  end.
Definition word_range (n : nat) : Z := 2 ^ (32 * Z.of_nat n).

Lemma word_range_S n : word_range (S n) = 2 ^ 32 * word_range n.
Proof. unfold word_range. rewrite <- Z.pow_add_r by lia. f_equal. lia. Qed.

Lemma word_range_pos n : 0 < word_range n.
Proof. apply Z.pow_pos_nonneg; lia. Qed.

Lemma of_words_range ws : Forall (uint 32) ws -> 0 <= of_words ws < word_range (length ws).
Proof.
  induction 1 as [|w ws Hw _ IH]; cbn [of_words length].
  - change (word_range 0) with 1. lia.
  - rewrite word_range_S. num.
Qed.

Lemma of_words_app l1 l2 : of_words (l1 ++ l2) = of_words l1 + word_range (length l1) * of_words l2.
Proof.
  induction l1 as [|w l1 IH]; cbn [of_words app length].
  - change (word_range 0) with 1. lia.
  - rewrite word_range_S, IH. ring.
Qed.

Lemma lor_carry x c : 0 <= x -> 0 <= c <= 1 -> Z.lor (2 * x) c = 2 * x + c.
Proof.
  intros Hx Hc. assert (c = 0 \/ c = 1) as [->| ->] by lia; [by rewrite Z.lor_0_r, Z.add_0_r|].
  destruct x; [done | done | lia].
Qed.

Lemma double_words_spec ws c :
  Forall (uint 32) ws -> 0 <= c <= 1 ->
  let r := double_words ws c in
  length r.1 = length ws /\ Forall (uint 32) r.1 /\ 0 <= r.2 <= 1 /\
  of_words r.1 + word_range (length ws) * r.2 = 2 * of_words ws + c.
Proof.
  intros Hws. revert c. induction Hws as [|w ws Hw _ IH]; intros c Hc; cbn [double_words].
  { change (word_range (length (@nil Z))) with 1. cbn [fst snd of_words].
    split_and!; (done || lia). }
  assert (Z.lor (wrap 64 (Z.shiftl w 1)) c = 2 * w + c) as ->.
  { rewrite Z.shiftl_mul_pow2 by lia. unfold wrap. rewrite Z.mod_small by num.
    rewrite Z.mul_comm. apply lor_carry; num. }
  rewrite Z.shiftr_div_pow2 by lia.
  assert (0 <= (2 * w + c) / 2 ^ 32 <= 1) as Hc'.
  { split; [apply Z.div_pos; num|]. apply Z.lt_succ_r, Z.div_lt_upper_bound; num. }
  specialize (IH _ Hc'). destruct (double_words ws _) as [v last]. cbn [fst snd] in *.
  destruct IH as (Hl & Hv & Hlast & Heq). cbn [length of_words].
  split; [by rewrite Hl|].
  split; [constructor; [unfold wrap, uint; apply Z.mod_pos_bound; lia | done]|].
  split; [done|]. rewrite word_range_S. unfold wrap.
  pose proof (Z.div_mod (2 * w + c) (2 ^ 32)) as Hdm. num.
Qed.

Lemma sub_loop_spec l r b :
  Forall (uint 32) l -> Forall (uint 32) r -> length l = length r -> 0 <= b <= 1 ->
  exists b', 0 <= b' <= 1 /\ length (sub_loop l r b) = length l /\
    Forall (uint 32) (sub_loop l r b) /\
    of_words (sub_loop l r b) = of_words l - of_words r - b + word_range (length l) * b'.
Proof.
  intros Hl. revert r b. induction Hl as [|x l Hx _ IH]; intros [|y r] b Hr Hlen Hb; try done.
  { exists b. cbn. change (word_range 0) with 1. repeat split; try lia. done. }
  apply Forall_cons_1 in Hr as [Hy Hr]. cbn [sub_loop].
  destruct (IH r (Z.b2z (x <? y + b)) Hr) as (b' & Hb' & Hlen' & Hf & Heq);
    [cbn in Hlen; lia | destruct (x <? y + b); cbn; lia|].
  assert (wrap 32 (wrap 64 (x - (y + b))) = x - (y + b) + 2 ^ 32 * Z.b2z (x <? y + b)) as Hw.
  { unfold wrap. destruct (x <? y + b) eqn:E; bools; cbn [Z.b2z].
    - replace ((x - (y + b)) mod 2 ^ 64) with (x - (y + b) + 2 ^ 64).
      2:{ apply Z.mod_unique with (-1); num. }
      symmetry. apply Z.mod_unique with (2 ^ 32 - 1); num.
    - rewrite (Z.mod_small _ (2 ^ 64)) by num. rewrite Z.mod_small; num. }
  exists b'. cbn [length of_words]. rewrite Heq, Hw, word_range_S.
  repeat split; try lia.
  constructor; [|done]. unfold uint. rewrite <- Hw. unfold wrap. apply Z.mod_pos_bound. lia.
Qed.

Lemma nth_take_S (l : words) n : (n < length l)%nat -> take (S n) l = take n l ++ [nth n l 0].
Proof.
  intros Hn. destruct (lookup_lt_is_Some_2 l n Hn) as [x Hx].
  rewrite (take_S_r _ _ _ Hx). f_equal. by rewrite (nth_lookup_Some _ _ 0 x Hx).
Qed.

Lemma cmp_loop_spec n l r :
  Forall (uint 32) l -> Forall (uint 32) r -> (n <= length l)%nat -> (n <= length r)%nat ->
  cmp_loop n l r = (of_words (take n l) ?= of_words (take n r)).
Proof.
  intros Hl Hr. induction n as [|n IH]; intros Hnl Hnr; [done|]. cbn [cmp_loop].
  rewrite !nth_take_S, !of_words_app by lia. rewrite !length_take, !Nat.min_l by lia.
  cbn [of_words]. rewrite !Z.mul_0_r, !Z.add_0_r. rewrite IH by lia.
  pose proof (of_words_range _ (Forall_take _ n _ Hl)) as Bl.
  pose proof (of_words_range _ (Forall_take _ n _ Hr)) as Br.
  rewrite length_take, Nat.min_l in Bl, Br by lia.
  pose proof (word_range_pos n).
  destruct (nth n l 0 <? nth n r 0) eqn:E1; bools.
  { symmetry. apply Z.compare_lt_iff.
    assert (word_range n * nth n l 0 + word_range n <= word_range n * nth n r 0) by nia. lia. }
  destruct (nth n r 0 <? nth n l 0) eqn:E2; bools.
  { symmetry. apply Z.compare_gt_iff.
    assert (word_range n * nth n r 0 + word_range n <= word_range n * nth n l 0) by nia. lia. }
  assert (nth n l 0 = nth n r 0) as -> by lia. by rewrite !(Z.add_comm _ (_ * _)), Z.add_compare_mono_l.
Qed.

(** *** Montgomery parameters *)

Lemma cmp_le_words_spec l r :
  Forall (uint 32) l -> Forall (uint 32) r -> length l = 64%nat -> length r = 64%nat ->
  cmp_le_words l r = (of_words l ?= of_words r).
Proof.
  intros Hl Hr Hll Hrl. unfold cmp_le_words. rewrite cmp_loop_spec by (done || lia).
  by rewrite !take_ge by lia.
Qed.

Definition is_words (ws : words) : Prop := Forall (uint 32) ws /\ length ws = 64%nat.

Lemma double_mod_spec v m :
  is_words v -> is_words m -> of_words v < of_words m ->
  is_words (double_mod v m) /\ of_words (double_mod v m) = (2 * of_words v) mod of_words m.
Proof.
  intros [Hv Hvl] [Hm Hml] Hlt. unfold double_mod.
  destruct (double_words_spec v 0 Hv ltac:(lia)) as (Hdl & Hd & Hc & Heq).
  destruct (double_words v 0) as [d c]. cbn [fst snd] in *. rewrite Hvl in *.
  rewrite cmp_le_words_spec by (done || lia).
  pose proof (of_words_range v Hv) as Bv. pose proof (of_words_range m Hm) as Bm.
  pose proof (of_words_range d Hd) as Bd. rewrite Hvl in Bv. rewrite Hml in Bm. rewrite Hdl in Bd.
  unfold sub_assign_le_words.
  destruct (sub_loop_spec d m 0 Hd Hm ltac:(lia) ltac:(lia)) as (b & Hb & Hsl & Hs & Hse).
  rewrite Hdl in *. pose proof (of_words_range _ Hs) as Bs. rewrite Hsl in Bs.
  destruct (negb (c =? 0) || _) eqn:E.
  - split; [by split|].
    assert (of_words m <= 2 * of_words v) as Hge.
    { apply orb_true_iff in E as [E|E]; bools; [nia|].
      assert (of_words m <= of_words d) by (destruct (Z.compare_spec (of_words d) (of_words m)); done || lia).
      nia. }
    assert (b = c) as ->.
    { assert (b = 0 \/ b = 1) as Hb' by lia. assert (c = 0 \/ c = 1) as Hc' by lia.
      destruct Hb', Hc'; subst; lia. }
    apply Z.mod_unique with 1; lia.
  - apply orb_false_iff in E as [Ec E]. bools. assert (c = 0) as -> by lia.
    split; [by split|]. rewrite Z.mod_small; [lia|].
    destruct (Z.compare_spec (of_words d) (of_words m)); try lia; exfalso; naive_solver.
Qed.

Lemma iter_double_mod m n :
  is_words m -> 1 < of_words m ->
  let v := Nat.iter n (fun v => double_mod v m) one in
  is_words v /\ of_words v = 2 ^ Z.of_nat n mod of_words m.
Proof.
  intros Hm Hgt. induction n as [|n [Hw He]]; cbn zeta.
  - cbn [Nat.iter]. split; [split; [forall_list ltac:(num) | done]|].
    change (of_words (Nat.iter 0 _ one)) with 1. change (2 ^ Z.of_nat 0) with 1. rewrite Z.mod_small; lia.
  - cbn [Nat.iter nat_rect]. change (nat_rect _ _ _ n) with (Nat.iter n (fun v => double_mod v m) one).
    destruct (double_mod_spec _ m Hw Hm) as [Hw' He'].
    { rewrite He. apply Z.mod_pos_bound. lia. }
    split; [exact Hw'|]. rewrite He', He, Nat2Z.inj_succ, Z.pow_succ_r by lia.
    by rewrite Z.mul_mod_idemp_r by lia.
Qed.

Lemma newton_step_spec n x k :
  0 < k -> 2 * k <= 32 -> (2 ^ k | n * x - 1) -> (2 ^ (2 * k) | n * newton_step n x - 1).
Proof.
  intros Hk Hk2 [q Hq]. unfold newton_step, wrap.
  assert ((2 ^ (2 * k) | 2 ^ 32)) as [p Hp].
  { exists (2 ^ (32 - 2 * k)). rewrite <- Z.pow_add_r by lia. f_equal. lia. }
  assert (2 ^ (2 * k) = 2 ^ k * 2 ^ k) as Hkk by (rewrite <- Z.pow_add_r by lia; f_equal; lia).
  set (a := (n * x) mod 2 ^ 32). set (b := (2 - a) mod 2 ^ 32).
  pose proof (Z.div_mod (n * x) (2 ^ 32)) as Ha.
  pose proof (Z.div_mod (2 - a) (2 ^ 32)) as Hb. fold a in Ha. fold b in Hb.
  pose proof (Z.div_mod (x * b) (2 ^ 32)) as Hc.
  set (i := n * x / 2 ^ 32) in *. set (j := (2 - a) / 2 ^ 32) in *.
  set (l := x * b / 2 ^ 32) in *. set (r := (x * b) mod 2 ^ 32) in *.
  rewrite Hp in Ha, Hb, Hc. specialize (Ha ltac:(lia)). specialize (Hb ltac:(lia)).
  specialize (Hc ltac:(lia)).
  assert (n * x = 1 + q * 2 ^ k) as Hnx by lia.
  exists (p * (n * x * (i - j) - n * l) - q * q).
  transitivity (n * x * b - n * l * (p * 2 ^ (2 * k)) - 1).
  { replace (n * x * b) with (n * (x * b)) by ring. rewrite Hc. ring. }
  assert (b = 2 - n * x + (p * 2 ^ (2 * k)) * (i - j)) as ->.
  { rewrite Ha at 1. lia. }
  transitivity (n * x * (2 - n * x) - 1 + p * (n * x * (i - j) - n * l) * 2 ^ (2 * k)); [ring|].
  assert (n * x * (2 - n * x) - 1 = - (q * q) * 2 ^ (2 * k)) as ->; [|ring].
  rewrite Hnx, Hkk. ring.
Qed.

Lemma m_prime_spec (m : words) :
  Z.odd (nth 0 m 0) = true ->
  (nth 0 m 0 * compute_m_prime m + 1) mod 2 ^ 32 = 0.
Proof.
  intros Hodd. set (n := nth 0 m 0) in *.
  assert ((2 ^ 1 | n * 1 - 1)) as H1.
  { apply Z.odd_spec in Hodd as [q Hq]. exists q. lia. }
  apply (newton_step_spec _ _ 1) in H1; [|lia|lia].
  apply (newton_step_spec _ _ 2) in H1; [|lia|lia].
  apply (newton_step_spec _ _ 4) in H1; [|lia|lia].
  apply (newton_step_spec _ _ 8) in H1; [|lia|lia].
  apply (newton_step_spec _ _ 16) in H1; [|lia|lia].
  unfold compute_m_prime. fold n. cbn [Nat.iter nat_rect].
  set (x := newton_step n _) in *. destruct H1 as [q Hq]. change (2 * 16) with 32 in Hq.
  unfold wrap. apply Z.mod_divide; [lia|].
  pose proof (Z.div_mod (- x) (2 ^ 32)) as Hd. specialize (Hd ltac:(lia)).
  exists (- q - n * (- x / 2 ^ 32)).
  assert ((- x) mod 2 ^ 32 = - x - 2 ^ 32 * (- x / 2 ^ 32)) as -> by lia. lia.
Qed.

Lemma mod_low_word w t p b : (w * p + 1) mod b = 0 -> ((w + b * t) * p + 1) mod b = 0.
Proof.
  intros H. replace ((w + b * t) * p + 1) with (w * p + 1 + (t * p) * b) by ring.
  by rewrite Z_mod_plus_full.
Qed.

Lemma r_squared_exponent : 2 ^ Z.of_nat (RSA_2048_LEN * 16) = (2 ^ 2048) ^ 2.
Proof.
  assert (Z.of_nat (RSA_2048_LEN * 16) = 2048 * 2) as -> by (vm_compute; reflexivity).
  apply (Z.pow_mul_r 2 2048 2); vm_compute; discriminate.
Qed.

Opaque double_mod.

Lemma montgomery_aux (modulus_le : words) :
  is_words modulus_le -> Z.odd (of_words modulus_le) = true -> 1 < of_words modulus_le ->
  (of_words modulus_le * compute_m_prime modulus_le + 1) mod 2 ^ 32 = 0 /\
  u32 (compute_m_prime modulus_le) /\
  of_words (compute_r_squared_mod_n modulus_le) = (2 ^ 2048) ^ 2 mod of_words modulus_le /\
  is_words (compute_r_squared_mod_n modulus_le).
Proof.
  intros Hwords Hodd Hgt.
  destruct (iter_double_mod modulus_le (RSA_2048_LEN * 16) Hwords Hgt) as [Hw He].
  split; [|split; [|split]].
  - clear Hw He. destruct Hwords as [Hf Hl]. destruct modulus_le as [|w ws]; [discriminate Hl|].
    cbn [of_words] in *. rewrite Z.odd_add_mul_even in Hodd by (exists (2 ^ 31); lia).
    pose proof (m_prime_spec (w :: ws) Hodd) as Hm. cbn [nth] in Hm.
    by apply mod_low_word.
  - unfold compute_m_prime, wrap, uint. apply Z.mod_pos_bound. lia.
  - unfold compute_r_squared_mod_n. rewrite He. by rewrite r_squared_exponent.
  - exact Hw.
Qed.

(** the two parameters the RSA peripheral's Montgomery reduction needs are
    right for every odd 2048-bit modulus above one: [compute_m_prime] is the
    negated inverse of the modulus modulo 2^32, and the 4096 modular doublings
    of [compute_r_squared_mod_n], done word by word with carries and borrows,
    leave 2^4096 modulo the modulus, in 64 words of 32 bits. *)
Theorem montgomery_parameters (modulus_le : words)
    (Hwords : is_words modulus_le) (Hodd : Z.odd (of_words modulus_le) = true)
    (Hgt : 1 < of_words modulus_le) :
  (of_words modulus_le * compute_m_prime modulus_le + 1) mod 2 ^ 32 = 0 /\
  u32 (compute_m_prime modulus_le) /\
  of_words (compute_r_squared_mod_n modulus_le) = (2 ^ 2048) ^ 2 mod of_words modulus_le /\
  is_words (compute_r_squared_mod_n modulus_le).
Proof. by apply montgomery_aux. Qed.

(** *** Bytes and words *)

Lemma fold_insert_map {B} (f : nat -> B) (d : B) (n : nat) :
  fold_left (fun ws i => <[i := f i]> ws) (seq 0 n) (replicate n d) = f <$> seq 0 n.
Proof.
  assert (forall k, (k <= n)%nat ->
    fold_left (fun ws i => <[i := f i]> ws) (seq 0 k) (replicate n d)
    = (f <$> seq 0 k) ++ replicate (n - k) d) as Hk.
  { induction k as [|k IH]; intros Hk; [cbn; by rewrite Nat.sub_0_r|].
    rewrite seq_S, fold_left_app, IH, fmap_app by lia. cbn [fold_left fmap list_fmap Nat.add].
    replace (n - k)%nat with (S (n - S k)) by lia. cbn [replicate].
    rewrite insert_app_r_alt by (rewrite length_fmap, length_seq; lia).
    rewrite length_fmap, length_seq, Nat.sub_diag. cbn. by rewrite <- app_assoc. }
  rewrite Hk by lia. by rewrite Nat.sub_diag, app_nil_r.
Qed.

(** A number read four bytes at a time. *)
Lemma of_words_quads (n : nat) (l : bytes) :
  length l = (4 * n)%nat ->
  of_words ((fun i => of_le_bytes [nth (4 * i) l 0; nth (4 * i + 1) l 0; nth (4 * i + 2) l 0;
                                   nth (4 * i + 3) l 0]) <$> seq 0 n) = of_le_bytes l.
Proof.
  revert l. induction n as [|n IH]; intros l Hl.
  { destruct l; [done|cbn in Hl; lia]. }
  destruct l as [|a [|b [|c [|d l]]]]; cbn [length] in Hl; try lia.
  cbn [seq fmap list_fmap of_words]. rewrite <- seq_shift.
  change (map S (seq 0 n)) with (S <$> seq 0 n). rewrite <- list_fmap_compose.
  erewrite list_fmap_ext; [rewrite (IH l) by lia|].
  - cbn [Nat.mul Nat.add nth of_le_bytes]. change (2 ^ 32) with 4294967296. lia.
  - intros i x _. unfold compose. replace (4 * S x)%nat with (S (S (S (S (4 * x))))) by lia.
    reflexivity.
Qed.

Lemma quads_words (n : nat) (l : bytes) : is_bytes l -> length l = (4 * n)%nat ->
  Forall (uint 32) ((fun i => of_le_bytes [nth (4 * i) l 0; nth (4 * i + 1) l 0;
                             nth (4 * i + 2) l 0; nth (4 * i + 3) l 0]) <$> seq 0 n).
Proof.
  intros Hl Hlen. apply Forall_fmap, Forall_forall. intros i Hi. apply elem_of_seq in Hi.
  assert (forall k, (k < 4)%nat -> u8 (nth (4 * i + k) l 0)) as Hb.
  { intros k Hk. destruct (lookup_lt_is_Some_2 l (4 * i + k)) as [x Hx]; [lia|].
    rewrite (nth_lookup_Some _ _ 0 x Hx). by eapply Forall_lookup_1. }
  cbn [compose]. unfold uint.
  assert (is_bytes [nth (4 * i) l 0; nth (4 * i + 1) l 0; nth (4 * i + 2) l 0;
                    nth (4 * i + 3) l 0]) as Hq.
  { pose proof (Hb 0%nat ltac:(lia)) as H0. rewrite Nat.add_0_r in H0.
    pose proof (Hb 1%nat ltac:(lia)). pose proof (Hb 2%nat ltac:(lia)).
    pose proof (Hb 3%nat ltac:(lia)). forall_list done. }
  exact (of_le_bytes_range _ Hq).
Qed.

Lemma be_bytes_to_le_words_spec (bs : bytes) :
  is_bytes bs -> length bs = RSA_2048_LEN ->
  is_words (rsa2048_be_bytes_to_le_words bs) /\
  of_words (rsa2048_be_bytes_to_le_words bs) = of_be_bytes bs.
Proof.
  intros Hb Hl. unfold rsa2048_be_bytes_to_le_words.
  rewrite (fold_insert_map (fun index => of_be_bytes
    [nth (RSA_2048_LEN - (index + 1) * 4) bs 0; nth (RSA_2048_LEN - (index + 1) * 4 + 1) bs 0;
     nth (RSA_2048_LEN - (index + 1) * 4 + 2) bs 0; nth (RSA_2048_LEN - (index + 1) * 4 + 3) bs 0])
    0 64).
  assert (exists l, bs = rev l) as [l ->] by (exists (rev bs); by rewrite rev_involutive).
  apply Forall_rev in Hb. rewrite rev_involutive in Hb. rewrite length_rev in Hl.
  assert (length l = (4 * 64)%nat) as Hll by exact Hl.
  erewrite list_fmap_ext.
  - split; [split; [by apply (quads_words 64 l)|]|].
    + by rewrite length_fmap, length_seq.
    + rewrite (of_words_quads 64 l Hll). unfold of_be_bytes. by rewrite rev_involutive.
  - intros i x Hx. apply lookup_seq in Hx as [-> Hx]. cbn [Nat.add] in *.
    unfold of_be_bytes. cbn [rev app]. unfold RSA_2048_LEN.
    rewrite !rev_nth by lia. rewrite Hll. repeat f_equal; lia.
Qed.

Lemma le_words_to_be_bytes_aux (ws : words) (k : nat) :
  (k <= 64)%nat -> length ws = 64%nat ->
  fold_left (fun bs index =>
    list_inserts (RSA_2048_LEN - (index + 1) * 4) (be_bytes 4 (nth index ws 0)) bs)
    (seq 0 k) (replicate RSA_2048_LEN 0)
  = replicate (RSA_2048_LEN - 4 * k) 0 ++ rev (mjoin (le_bytes 4 <$> take k ws)).
Proof.
  intros Hk Hl. induction k as [|k IH].
  { cbn [seq fold_left take fmap list_fmap mjoin list_join rev]. by rewrite Nat.sub_0_r, app_nil_r. }
  rewrite seq_S, fold_left_app, IH by lia. cbn [fold_left Nat.add].
  rewrite nth_take_S, fmap_app, join_app, rev_app_distr by lia.
  cbn [fmap list_fmap mjoin list_join]. rewrite app_nil_r.
  unfold RSA_2048_LEN.
  replace (256 - 4 * k)%nat with ((256 - 4 * S k) + 4)%nat by lia.
  rewrite replicate_add, <- app_assoc.
  replace (256 - (k + 1) * 4)%nat with (length (replicate (256 - 4 * S k) 0%Z) + 0)%nat
    by (rewrite length_replicate; lia).
  rewrite list_inserts_app_r, list_inserts_0_r by (by rewrite length_be_bytes).
  reflexivity.
Qed.

Lemma le_words_to_be_bytes_spec (ws : words) :
  is_words ws -> rsa2048_le_words_to_be_bytes ws = be_bytes RSA_2048_LEN (of_words ws).
Proof.
  intros [Hw Hl]. unfold rsa2048_le_words_to_be_bytes.
  rewrite le_words_to_be_bytes_aux by lia. change (RSA_2048_LEN - 4 * 64)%nat with 0%nat.
  cbn [replicate app]. rewrite take_ge by lia. unfold be_bytes. f_equal.
  assert (RSA_2048_LEN = (4 * length ws)%nat) as -> by (by rewrite Hl).
  clear Hl. induction Hw as [|w ws Hw _ IH]; [reflexivity|].
  change (mjoin (le_bytes 4 <$> w :: ws)) with (le_bytes 4 w ++ mjoin (le_bytes 4 <$> ws)).
  rewrite IH. cbn [length of_words].
  replace (4 * S (length ws))%nat with (4 + 4 * length ws)%nat by lia.
  change (2 ^ 32) with (256 ^ Z.of_nat 4). symmetry. by apply le_bytes_app.
Qed.

(** ** The encodings against RFC 8017 *)
Section Emsa.
Context `{Sha256Laws}.

(** EMSA-PKCS1-v1_5 for SHA-256 and a 2048-bit key. *)
Definition emsa_pkcs1 (message : bytes) : bytes :=
  [0; 1] ++ replicate 202 0xff ++ [0] ++ SHA256_DIGEST_INFO_PREFIX ++ sha256 message.

Lemma forallb_replicate (c : Z) (l : bytes) :
  forallb (fun b => b =? c) l = true <-> l = replicate (length l) c.
Proof.
  induction l as [|b l IH]; cbn; [done|]. rewrite andb_true_iff, Z.eqb_eq, IH. split.
  - intros [-> E]. by rewrite <- E.
  - intros [= -> E]. done.
Qed.

Lemma drop_split (l : bytes) (i n : nat) : drop i l = take n (drop i l) ++ drop (i + n) l.
Proof. by rewrite <- drop_drop, take_drop. Qed.

Lemma take_one (l : bytes) (i : nat) : (i < length l)%nat -> take 1 (drop i l) = [nth i l 0].
Proof.
  intros Hi. destruct (lookup_lt_is_Some_2 l i Hi) as [x Hx].
  rewrite (nth_lookup_Some _ _ 0 x Hx). by rewrite (drop_S _ _ _ Hx).
Qed.

Lemma pkcs1_spec (message em : bytes) :
  length em = RSA_2048_LEN ->
  verify_pkcs1v15_sha256_encoded_message message em = Ok tt <-> em = emsa_pkcs1 message.
Proof.
  intros Hl. unfold RSA_2048_LEN in Hl. unfold verify_pkcs1v15_sha256_encoded_message.
  change (RSA_2048_LEN - length SHA256_DIGEST_INFO_PREFIX - SHA256_LEN - 1)%nat with 204%nat.
  change (204 + 1 + length SHA256_DIGEST_INFO_PREFIX)%nat with 224%nat.
  change (224 - (204 + 1))%nat with 19%nat. change (204 + 1)%nat with 205%nat.
  change (204 - 2)%nat with 202%nat. cbv zeta. split.
  - destruct (negb (nth 0 em 0 =? 0) || _) eqn:E0; [done|].
    destruct (negb (forallb _ _) || _) eqn:E1; [done|].
    destruct (bool_decide (take _ _ = _)) eqn:E2; cbn [negb]; [|done].
    destruct (bool_decide (drop _ _ = _)) eqn:E3; [intros _|done].
    apply orb_false_iff in E0 as [Ea Eb]. apply orb_false_iff in E1 as [Ef Ec].
    apply negb_false_iff, forallb_replicate in Ef. bools.
    rewrite length_take, length_drop, Nat.min_l in Ef by lia.
    pose proof (drop_split em 0 1) as D0. pose proof (drop_split em 1 1) as D1.
    pose proof (drop_split em 2 202) as D2. pose proof (drop_split em 204 1) as D3.
    pose proof (drop_split em 205 19) as D4. cbn [Nat.add] in *.
    rewrite take_one in D0, D1, D3 by lia. rewrite drop_0 in D0.
    by rewrite D0, D1, D2, D3, D4, Ef, E2, E3, Ea, Eb, Ec.
  - intros Hem. set (d := sha256 message) in *.
    assert (nth 0 em 0 = 0) as -> by (by rewrite Hem).
    assert (nth 1 em 0 = 1) as -> by (by rewrite Hem).
    assert (nth 204 em 0 = 0) as -> by (by rewrite Hem).
    assert (take 202 (drop 2 em) = replicate 202 0xff) as -> by (by rewrite Hem).
    assert (take 19 (drop 205 em) = SHA256_DIGEST_INFO_PREFIX) as -> by (by rewrite Hem).
    assert (drop 224 em = d) as -> by (by rewrite Hem).
    cbn [negb orb Z.eqb]. rewrite (proj2 (forallb_replicate 0xff _)) by reflexivity.
    by rewrite !bool_decide_eq_true_2.
Qed.

(** EMSA-PSS with SHA-256, MGF1 and a 32-byte salt; the top bit is cleared
    because the modulus has 2048 bits. *)
Definition mask_db (h db : bytes) : bytes :=
  alter (fun b => Z.land b 0x7f) 0%nat (zip_with Z.lxor db (mgf1_sha256 h PSS_MASKED_DB_LEN)).
Definition emsa_pss (message salt : bytes) : bytes :=
  let h := sha256 (replicate 8 0 ++ sha256 message ++ salt) in
  mask_db h (replicate PSS_PS_LEN 0 ++ [0x01] ++ salt) ++ h ++ [0xbc].

Lemma mgf1_loop_spec (fuel : nat) (seed : bytes) (c : Z) (n : nat) : (n <= fuel)%nat ->
  length (mgf1_loop fuel seed c n) = n /\ is_bytes (mgf1_loop fuel seed c n).
Proof.
  revert c n. induction fuel as [|fuel IH]; intros c n Hn; cbn [mgf1_loop].
  { split; [cbn; lia | done]. }
  destruct (Nat.eqb_spec n 0) as [->|Hne]; [done|].
  destruct (IH (wrap 32 (c + 1)) (n - Nat.min n SHA256_LEN)%nat) as [Hl Hb];
    [unfold SHA256_LEN; lia|].
  split.
  - rewrite length_app, Hl, length_take, sha256_length. unfold SHA256_LEN. lia.
  - apply Forall_app. split; [|done]. apply Forall_take, sha256_bytes.
Qed.

Lemma mgf1_spec (seed : bytes) (n : nat) :
  length (mgf1_sha256 seed n) = n /\ is_bytes (mgf1_sha256 seed n).
Proof. by apply mgf1_loop_spec. Qed.

Lemma length_mask_db h db : length db = PSS_MASKED_DB_LEN -> length (mask_db h db) = PSS_MASKED_DB_LEN.
Proof.
  intros Hl. unfold mask_db. rewrite length_alter, length_zip_with, Hl.
  rewrite (proj1 (mgf1_spec _ _)). apply Nat.min_id.
Qed.

(** The top bit of the first byte, masked and unmasked. *)
Lemma mask_top (m k : Z) : u8 m -> u8 k -> Z.land m 0x80 = 0 ->
  Z.land (Z.lxor (Z.land (Z.lxor m k) 0x7f) k) 0x7f = m.
Proof.
  intros Hm Hk Ht.
  pose (f := fun m k => negb (Z.land m 0x80 =? 0)
    || (Z.land (Z.lxor (Z.land (Z.lxor m k) 0x7f) k) 0x7f =? m)).
  assert (f m k = true) as Hf by (apply (forall_u8_pair f); [vm_compute; reflexivity | done | done]).
  unfold f in Hf. apply orb_true_iff in Hf as [Hf|Hf]; bools; [done|lia].
Qed.

Lemma mask_db_involutive h db :
  is_bytes db -> length db = PSS_MASKED_DB_LEN -> Z.land (nth 0 db 0) 0x80 = 0 ->
  mask_db h (mask_db h db) = db.
Proof.
  intros Hdb Hl Htop. unfold mask_db.
  destruct (mgf1_spec h PSS_MASKED_DB_LEN) as [Hml Hmb].
  set (mk := mgf1_sha256 _ _) in *. clearbody mk. rewrite <- Hl in Hml.
  destruct db as [|d db]; [done|]. destruct mk as [|k mk]; [done|].
  apply Forall_cons_1 in Hdb as [Hd Hdb]. apply Forall_cons_1 in Hmb as [Hk Hmb].
  cbn in Htop, Hml |- *. f_equal; [by apply mask_top|].
  clear Hl Hdb Hmb. assert (length mk = length db) as Hlen by lia. clear Hml.
  revert mk Hlen. induction db as [|x db IH]; intros [|y mk] Hlen; try done.
  cbn in *. rewrite IH by lia. by rewrite Z.lxor_assoc, Z.lxor_nilpotent, Z.lxor_0_r.
Qed.

Lemma mask_db_top h db : length db = PSS_MASKED_DB_LEN -> Z.land (nth 0 (mask_db h db) 0) 0x80 = 0.
Proof.
  intros Hl. unfold mask_db. destruct db as [|d db]; [done|].
  destruct (mgf1_spec h PSS_MASKED_DB_LEN) as [Hml _].
  destruct (mgf1_sha256 h PSS_MASKED_DB_LEN) as [|k mk]; [done|].
  cbn [zip_with alter list_alter nth]. by rewrite <- Z.land_assoc, Z.land_0_r.
Qed.

Lemma pss_spec (message em : bytes) :
  is_bytes em -> length em = RSA_2048_LEN ->
  verify_pss_sha256_encoded_message message em = Ok tt <->
  exists salt, is_bytes salt /\ length salt = PSS_SALT_LEN /\ em = emsa_pss message salt.
Proof.
  intros Hb Hl. unfold RSA_2048_LEN in Hl. unfold verify_pss_sha256_encoded_message, emsa_pss.
  change (RSA_2048_LEN - 1 - PSS_MASKED_DB_LEN)%nat with 32%nat.
  change (RSA_2048_LEN - 1)%nat with 255%nat. change (PSS_PS_LEN + 1)%nat with 191%nat.
  change PSS_SALT_LEN with 32%nat. cbv zeta.
  set (mdb := take PSS_MASKED_DB_LEN em). set (h := take 32 (drop PSS_MASKED_DB_LEN em)).
  fold (mask_db h mdb).
  assert (length mdb = PSS_MASKED_DB_LEN) as Hml.
  { unfold mdb. rewrite length_take, Hl. reflexivity. }
  pose proof (drop_split em 0 PSS_MASKED_DB_LEN) as D0.
  pose proof (drop_split em PSS_MASKED_DB_LEN 32) as D1.
  change (PSS_MASKED_DB_LEN + 32)%nat with 255%nat in D1. cbn [Nat.add] in D0.
  rewrite drop_0 in D0. fold mdb in D0. fold h in D1.
  pose proof (drop_split em 255 1) as D2. rewrite take_one in D2 by lia.
  rewrite (drop_ge em (255 + 1)) in D2 by lia.
  assert (nth 0 em 0 = nth 0 mdb 0) as Htop.
  { unfold mdb. destruct em; [done|]. reflexivity. }
  split.
  - destruct (negb (nth 255 em 0 =? _)) eqn:E0; [done|].
    destruct (negb (Z.land _ _ =? 0)) eqn:E1; [done|].
    set (db := mask_db h mdb).
    destruct (negb (forallb _ _) || _) eqn:E2; [done|].
    apply orb_false_iff in E2 as [Ef Es]. apply negb_false_iff, forallb_replicate in Ef.
    destruct (bool_decide _) eqn:E3; [intros _|done]. bools. rewrite Htop in E1.
    assert (length db = PSS_MASKED_DB_LEN) as Hdl by (by apply length_mask_db).
    rewrite length_take, Hdl in Ef. change (PSS_PS_LEN `min` PSS_MASKED_DB_LEN)%nat with PSS_PS_LEN in Ef.
    assert (is_bytes mdb) as Hmb by (by apply Forall_take).
    exists (drop 191 db). split; [|split].
    + apply Forall_drop. unfold db, mask_db. apply Forall_alter; [|intros x _ Hx].
      * apply Forall_lookup_2. intros i x Hx. apply lookup_zip_with_Some in Hx as (a & b & -> & Ha & Hx).
        apply (Forall_lookup_1 _ _ _ _ Hmb) in Ha.
        apply (Forall_lookup_1 _ _ _ _ (proj2 (mgf1_spec h PSS_MASKED_DB_LEN))) in Hx.
        pose (f := fun a b => bool_decide (u8 (Z.lxor a b))).
        apply (bool_decide_eq_true_1 _).
        by apply (forall_u8_pair f); [vm_compute; reflexivity| |].
      * pose (f := fun a => bool_decide (u8 (Z.land a 0x7f))).
        apply (bool_decide_eq_true_1 _). by apply (forall_u8 f); [vm_compute; reflexivity|].
    + rewrite length_drop, Hdl. reflexivity.
    + rewrite E3. rewrite D0, D1, D2, E0. f_equal.
      rewrite <- (mask_db_involutive h mdb) at 1 by done. fold db. f_equal.
      pose proof (drop_split db 0 PSS_PS_LEN) as F0. pose proof (drop_split db PSS_PS_LEN 1) as F1.
      rewrite drop_0 in F0. rewrite take_one in F1 by (rewrite Hdl; cbn; lia).
      rewrite F0 at 1. rewrite Ef. f_equal. cbn [Nat.add]. rewrite F1, Es. reflexivity.
  - intros (salt & Hsb & Hsl & Hem).
    set (h' := sha256 (replicate 8 0 ++ sha256 message ++ salt)) in *.
    set (db := replicate PSS_PS_LEN 0 ++ [1] ++ salt) in *.
    assert (length db = PSS_MASKED_DB_LEN) as Hdl.
    { unfold db. rewrite !length_app, length_replicate, Hsl. reflexivity. }
    assert (mdb = mask_db h' db) as Hmdb.
    { unfold mdb. rewrite Hem. by rewrite take_app_length' by (by rewrite length_mask_db). }
    assert (h = h') as Hh.
    { unfold h. rewrite Hem, drop_app_length' by (by rewrite length_mask_db).
      by rewrite take_app_length' by (unfold h'; by rewrite sha256_length). }
    assert (nth 255 em 0 = 0xbc) as ->.
    { rewrite Hem, app_assoc, app_nth2; rewrite length_app, length_mask_db by done;
        unfold h'; rewrite sha256_length; [reflexivity|cbn; lia]. }
    rewrite Htop, Hmdb, mask_db_top by done. cbn [negb Z.eqb Pos.eqb].
    rewrite Hh, mask_db_involutive; [| |done|].
    + assert (take PSS_PS_LEN db = replicate PSS_PS_LEN 0) as -> by reflexivity.
      assert (nth PSS_PS_LEN db 0 = 1) as -> by reflexivity.
      rewrite (proj2 (forallb_replicate 0 _)) by reflexivity. cbn [negb orb Z.eqb Pos.eqb].
      by rewrite bool_decide_eq_true_2.
    + unfold db. apply Forall_app. split; [apply Forall_replicate; num|].
      apply Forall_cons_2; [num|done].
    + reflexivity.
Qed.

(** the two message checks accept exactly the encodings of RFC 8017: a
    256-byte block passes the PKCS#1 v1.5 check for a message if and only
    if it is the message's EMSA-PKCS1-v1_5 encoding, and the PSS check if
    and only if it is its EMSA-PSS encoding (SHA-256, MGF1, 32-byte salt)
    for some salt. *)
Theorem emsa_spec (message em : bytes) (Hbytes : is_bytes em)
    (Hlength : length em = RSA_2048_LEN) :
  (verify_pkcs1v15_sha256_encoded_message message em = Ok tt <-> em = emsa_pkcs1 message) /\
  (verify_pss_sha256_encoded_message message em = Ok tt <->
   exists salt, is_bytes salt /\ length salt = PSS_SALT_LEN /\ em = emsa_pss message salt).
Proof. split; [by apply pkcs1_spec | by apply pss_spec]. Qed.
End Emsa.

(** ** DER *)

(** The encoder: minimal lengths of at most two bytes. *)
Definition der_length (n : nat) : bytes :=
  let n := Z.of_nat n in
  if n <? 128 then [n] else if n <? 256 then [0x81; n] else [0x82; n / 256; n mod 256].
Definition tlv (tag : Z) (v : bytes) : bytes := tag :: der_length (length v) ++ v.

(** A PKCS#1 public key; the integer of the modulus has a leading zero, its
    top bit being set. *)
Definition der_public_key (modulus exponent : bytes) : bytes :=
  tlv 0x30 (tlv 0x02 (0 :: modulus) ++ tlv 0x02 exponent).

Definition reader_at (pre rest : bytes) : DerReader :=
  {| der := pre ++ rest; offset := Z.of_nat (length pre) |}.

Lemma reader_new rest : DerReader_new rest = reader_at [] rest.
Proof. reflexivity. Qed.

Lemma read_byte_at pre b rest : read_byte (reader_at pre (b :: rest)) = Ok (b, reader_at (pre ++ [b]) rest).
Proof.
  unfold read_byte, reader_at. cbn [der offset]. rewrite Nat2Z.id.
  rewrite lookup_app_r, Nat.sub_diag by lia. cbn. unfold at_offset. cbn.
  rewrite <- app_assoc, length_app. cbn. do 3 f_equal. lia.
Qed.

Lemma disjoint_bytes x y : Z.land (x * 256) (y mod 256) = 0.
Proof.
  change 256 with (2 ^ 8). apply Z.bits_inj'. intros k Hk.
  rewrite Z.land_spec, Z.bits_0, Z.mul_pow2_bits by lia.
  destruct (Z.ltb_spec k 8); [by rewrite Z.testbit_neg_r by lia|].
  by rewrite Z.mod_pow2_bits_high, andb_false_r by lia.
Qed.

Lemma read_len_at pre (n : nat) rest : Z.of_nat n < 65536 ->
  read_len (reader_at pre (der_length n ++ rest))
  = Ok (Z.of_nat n, reader_at (pre ++ der_length n) rest).
Proof.
  intros Hn. unfold der_length, read_len.
  destruct (Z.ltb_spec (Z.of_nat n) 128) as [H1|H1]; [|destruct (Z.ltb_spec (Z.of_nat n) 256) as [H2|H2]];
    cbn [app]; rewrite read_byte_at; cbn [mbind result_bind].
  - pose (f := fun x => negb (x <? 128) || (Z.land x 128 =? 0)).
    assert (f (Z.of_nat n) = true) as Hf by (apply (forall_u8 f); [vm_compute; reflexivity | num]).
    unfold f in Hf. apply orb_true_iff in Hf as [Hf|Hf]; [bools; lia|]. by rewrite Hf.
  - change (Z.land 129 128 =? 0) with false. cbv iota.
    change (Z.land 129 127) with 1. change ((1 =? 0) || (usize_bits / 8 <? 1)) with false. cbv iota.
    change (Z.to_nat 1) with 1%nat. cbn [read_len_bytes]. rewrite read_byte_at.
    cbn [mbind result_bind]. change (wrap usize_bits (Z.shiftl 0 8)) with 0. rewrite Z.lor_0_l.
    by rewrite <- app_assoc.
  - change (Z.land 130 128 =? 0) with false. cbv iota.
    change (Z.land 130 127) with 2. change ((2 =? 0) || (usize_bits / 8 <? 2)) with false. cbv iota.
    change (Z.to_nat 2) with 2%nat. cbn [read_len_bytes]. rewrite read_byte_at.
    cbn [mbind result_bind]. rewrite read_byte_at. cbn [mbind result_bind].
    change (wrap usize_bits (Z.shiftl 0 8)) with 0. rewrite Z.lor_0_l.
    rewrite <- !app_assoc. cbn [app]. do 3 f_equal.
    rewrite Z.shiftl_mul_pow2 by lia. change (2 ^ 8) with 256.
    assert (0 <= Z.of_nat n / 256 < 256) as Hd
      by (split; [apply Z.div_pos; lia | apply Z.div_lt_upper_bound; lia]).
    unfold wrap. rewrite Z.mod_small by num.
    rewrite <- Z.lxor_lor, <- Z.add_nocarry_lxor; cycle 1.
    1, 2: apply disjoint_bytes.
    pose proof (Z.div_mod (Z.of_nat n) 256). lia.
Qed.

Lemma read_tlv_at pre tag v rest :
  Z.of_nat (length v) < 65536 -> Z.of_nat (length (pre ++ tlv tag v ++ rest)) < 2 ^ 32 ->
  read_tlv tag (reader_at pre (tlv tag v ++ rest)) = Ok (v, reader_at (pre ++ tlv tag v) rest).
Proof.
  intros Hv Hsmall. unfold read_tlv, tlv at 1. cbn [app].
  rewrite read_byte_at. cbn [mbind result_bind].
  rewrite Z.eqb_refl. cbn [negb]. rewrite <- app_assoc, read_len_at by done.
  cbn [mbind result_bind].
  set (pre' := (pre ++ [tag]) ++ der_length (length v)).
  assert (pre ++ tlv tag v = pre' ++ v) as Hp.
  { unfold pre', tlv. cbn. by rewrite <- !app_assoc. }
  rewrite app_assoc, Hp in Hsmall. rewrite !length_app in Hsmall.
  unfold reader_at, der_len. cbn [offset der].
  unfold try_from_u. rewrite (proj2 (Z.leb_le 0 _)), (proj2 (Z.leb_le _ (umax usize_bits)))
    by num.
  cbn [andb ok_or mbind result_bind].
  rewrite (proj2 (Z.ltb_ge _ _)) by (rewrite !length_app; lia).
  rewrite !Nat2Z.id, drop_app_length, take_app_length. unfold at_offset. cbn [der].
  rewrite Hp, <- app_assoc, length_app. do 3 f_equal. lia.
Qed.

Lemma der_length_bounds n : (length (der_length n) <= 3)%nat.
Proof. unfold der_length. repeat case_match; cbn; lia. Qed.

Lemma length_tlv tag v : (length (tlv tag v) <= length v + 4)%nat.
Proof. unfold tlv. cbn. rewrite length_app. pose proof (der_length_bounds (length v)). lia. Qed.

Lemma exponent_ok (e : bytes) (l : Z) :
  (length e <= 3)%nat -> is_bytes (e ++ [l]) -> Z.odd l = true ->
  parse_rsa_exponent (e ++ [l]) = Ok (replicate (3 - length e) 0 ++ e ++ [l]).
Proof.
  intros He Hb Hodd. unfold parse_rsa_exponent. rewrite length_app. cbn [length].
  rewrite (proj2 (Nat.eqb_neq _ _)) by lia. rewrite (proj2 (Nat.ltb_ge _ _)) by lia. cbn [orb].
  replace (4 - (length e + 1))%nat with (3 - length e)%nat by lia.
  assert (nth 3 (replicate (3 - length e) 0 ++ e ++ [l]) 0 = l) as Hn.
  { rewrite app_assoc, app_nth2; rewrite length_app, length_replicate; [|lia].
    by replace (3 - (3 - length e + length e))%nat with 0%nat by lia. }
  rewrite bool_decide_eq_false_2.
  2:{ intros E. rewrite E in Hn. cbn in Hn. by subst. }
  rewrite Hn. change (Z.land l 1) with (Z.land l (Z.ones 1)).
  rewrite Z.land_ones by lia. change (2 ^ 1) with 2. rewrite Zmod_odd, Hodd. reflexivity.
Qed.

Lemma der_roundtrip_aux (modulus e : bytes) (l : Z) :
  length modulus = RSA_2048_LEN -> (length e <= 3)%nat -> is_bytes (e ++ [l]) -> Z.odd l = true ->
  parse_pkcs1_rsa2048_public_key_der (der_public_key modulus (e ++ [l]))
  = Ok {| modulus_be := modulus; exponent_be := replicate (3 - length e) 0 ++ e ++ [l] |}.
Proof.
  intros Hmodulus He Hbytes Hodd.
  unfold RSA_2048_LEN in Hmodulus. unfold parse_pkcs1_rsa2048_public_key_der, der_public_key.
  pose proof (length_tlv 2 (0 :: modulus)) as H1. pose proof (length_tlv 2 (e ++ [l])) as H2.
  cbn [length] in H1. rewrite length_app in H2. cbn [length] in H2.
  set (body := tlv 2 (0 :: modulus) ++ tlv 2 (e ++ [l])).
  assert (length body < 600)%nat as Hbody by (unfold body; rewrite length_app; lia).
  pose proof (length_tlv 48 body) as H3.
  rewrite reader_new. rewrite <- (app_nil_r (tlv 48 body)).
  rewrite read_tlv_at by (rewrite ?length_app; cbn [length]; lia).
  cbn [mbind result_bind].
  assert (forall pre, is_empty (reader_at pre []) = true) as Hend.
  { intros pre. unfold is_empty, der_len, reader_at. cbn. rewrite app_nil_r. apply Z.eqb_refl. }
  rewrite Hend. cbn [negb]. rewrite reader_new. unfold body.
  rewrite read_tlv_at by (rewrite ?length_app; cbn [length]; rewrite ?length_app; cbn [length]; lia).
  cbn [mbind result_bind]. rewrite <- (app_nil_r (tlv 2 (e ++ [l]))).
  rewrite read_tlv_at by (rewrite ?length_app; cbn [length]; rewrite ?length_app; cbn [length]; lia).
  cbn [mbind result_bind]. rewrite Hend. cbn [negb].
  cbn [parse_rsa2048_modulus]. rewrite Hmodulus.
  change (256 =? RSA_2048_LEN)%nat with true. cbn [mbind result_bind].
  by rewrite exponent_ok.
Qed.

(** parsing undoes the DER encoding of every RSA-2048 public key with an
    odd exponent of one to four bytes: the modulus comes back as its 256
    bytes and the exponent padded to four. *)
Theorem der_roundtrip (modulus e : bytes) (l : Z)
    (Hmodulus : length modulus = RSA_2048_LEN) (He : (length e <= 3)%nat)
    (Hbytes : is_bytes (e ++ [l])) (Hodd : Z.odd l = true) :
  parse_pkcs1_rsa2048_public_key_der (der_public_key modulus (e ++ [l]))
  = Ok {| modulus_be := modulus; exponent_be := replicate (3 - length e) 0 ++ e ++ [l] |}.
Proof. by apply der_roundtrip_aux. Qed.

(** ** Signatures *)

(** The engine's manual: with the two Montgomery parameters of an odd
    modulus, a base below it is raised to the exponent modulo it. *)
Class RsaEngineLaws `{RsaEngine} := {
  mod_exp_words e n m_prime b r_squared : is_words (mod_exp e n m_prime b r_squared);
  mod_exp_spec e n m_prime b r_squared :
    is_words e -> is_words n -> is_words b ->
    Z.odd (of_words n) = true -> 1 < of_words n -> of_words b < of_words n ->
    (of_words n * m_prime + 1) mod 2 ^ 32 = 0 ->
    of_words r_squared = (2 ^ 2048) ^ 2 mod of_words n ->
    of_words (mod_exp e n m_prime b r_squared) = of_words b ^ of_words e mod of_words n
}.

Section Signatures.
Context `{Sha256Laws} `{RsaEngineLaws}.

Lemma exponent_words (e : bytes) :
  is_bytes e -> length e = 4%nat ->
  is_words (rsa2048_exponent_be_to_le_words e) /\
  of_words (rsa2048_exponent_be_to_le_words e) = of_be_bytes e.
Proof.
  intros Hb Hl. unfold rsa2048_exponent_be_to_le_words.
  assert (u32 (of_be_bytes e)) as Hr.
  { unfold of_be_bytes. apply Forall_rev in Hb.
    pose proof (of_le_bytes_range _ Hb) as Hr. rewrite length_rev, Hl in Hr. exact Hr. }
  split; [split; [|by rewrite length_insert]|].
  - apply Forall_insert; [apply Forall_replicate; num | done].
  - generalize (of_be_bytes e). intros x. cbn [replicate insert list_insert of_words]. lia.
Qed.

Lemma of_be_zeros (n : nat) (l : bytes) : of_be_bytes (replicate n 0 ++ l) = of_be_bytes l.
Proof.
  unfold of_be_bytes. rewrite rev_app_distr, of_le_bytes_app.
  assert (of_le_bytes (rev (replicate n 0)) = 0) as ->; [|lia].
  assert (Forall (eq 0) (rev (replicate n 0))) as Hz by (by apply Forall_rev, Forall_replicate).
  induction Hz as [|x z <- _ IH]; cbn [of_le_bytes]; lia.
Qed.

(** What the peripheral answers for a key and a signature, as the bytes the
    verifiers look at. *)
Definition rsa_answer (key : Rsa2048PublicKey) (signature : bytes) : bytes :=
  let modulus := rsa2048_be_bytes_to_le_words (modulus_be key) in
  rsa2048_le_words_to_be_bytes
    (mod_exp (rsa2048_exponent_be_to_le_words (exponent_be key)) modulus (compute_m_prime modulus)
       (rsa2048_be_bytes_to_le_words signature) (compute_r_squared_mod_n modulus)).

Lemma rsa_answer_bytes key signature :
  is_bytes (rsa_answer key signature) /\ length (rsa_answer key signature) = RSA_2048_LEN.
Proof.
  unfold rsa_answer. rewrite le_words_to_be_bytes_spec by apply mod_exp_words.
  split; [apply be_bytes_is_bytes | apply length_be_bytes].
Qed.

Lemma public_operation_unfold (public_key_der signature : bytes) (key : Rsa2048PublicKey) :
  parse_pkcs1_rsa2048_public_key_der public_key_der = Ok key ->
  rsa_public_operation_2048 public_key_der signature
  = if Nat.eqb (length signature) RSA_2048_LEN then Ok (rsa_answer key signature)
    else Err DecodeError.
Proof.
  intros Hk. unfold rsa_public_operation_2048, rsa_answer. rewrite Hk. cbn [map_err mbind result_bind].
  generalize (compute_r_squared_mod_n (rsa2048_be_bytes_to_le_words (modulus_be key))). intros r_squared.
  by destruct (Nat.eqb (length signature) RSA_2048_LEN).
Qed.

(** Below the modulus the answer is the power RFC 8017 asks for. *)
Lemma rsa_answer_spec (key : Rsa2048PublicKey) (signature : bytes) :
  is_bytes (modulus_be key) -> length (modulus_be key) = RSA_2048_LEN ->
  is_bytes (exponent_be key) -> length (exponent_be key) = 4%nat ->
  Z.odd (of_be_bytes (modulus_be key)) = true -> 1 < of_be_bytes (modulus_be key) ->
  is_bytes signature -> length signature = RSA_2048_LEN ->
  of_be_bytes signature < of_be_bytes (modulus_be key) ->
  rsa_answer key signature
  = be_bytes RSA_2048_LEN
      (of_be_bytes signature ^ of_be_bytes (exponent_be key) mod of_be_bytes (modulus_be key)).
Proof.
  intros Hmb Hml Heb Hel Hmo Hgt Hsb Hsl Hlt. unfold rsa_answer.
  destruct (be_bytes_to_le_words_spec (modulus_be key) Hmb Hml) as [Hmw Hme].
  destruct (be_bytes_to_le_words_spec signature Hsb Hsl) as [Hsw Hse].
  destruct (exponent_words (exponent_be key) Heb Hel) as [Hew Hee].
  destruct (montgomery_aux (rsa2048_be_bytes_to_le_words (modulus_be key))) as (Hp & _ & Hr & _);
    [done | by rewrite Hme | by rewrite Hme|].
  rewrite le_words_to_be_bytes_spec by apply mod_exp_words. f_equal.
  rewrite mod_exp_spec; rewrite ?Hme, ?Hse; try done; [|by rewrite Hme in Hp | by rewrite Hme in Hr].
  by rewrite Hee.
Qed.

Lemma read_tlv_bytes tag r v r' : is_bytes (der r) -> read_tlv tag r = Ok (v, r') ->
  is_bytes v /\ is_bytes (der r').
Proof.
  intros Hb Hr. unfold read_tlv in Hr.
  assert (forall r x q, read_byte r = Ok (x, q) -> der q = der r) as Hbyte.
  { intros ? ? ? Hq. unfold read_byte in Hq. destruct (_ !! _); cbn in Hq; [|done].
    by injection Hq as <- <-. }
  assert (forall n len r x q, read_len_bytes n len r = Ok (x, q) -> der q = der r) as Hlens.
  { intros n. induction n as [|n IH]; intros len r0 x q Hq; cbn [read_len_bytes] in Hq.
    - by injection Hq as <- <-.
    - destruct (read_byte r0) as [[byte r1]|] eqn:E; cbn [mbind result_bind] in Hq; [|done].
      rewrite (IH _ _ _ _ Hq). by apply Hbyte in E. }
  destruct (read_byte r) as [[byte r1]|] eqn:E1; cbn [mbind result_bind] in Hr; [|done].
  destruct (negb _); [done|].
  destruct (read_len r1) as [[len r2]|] eqn:E2; cbn [mbind result_bind] in Hr; [|done].
  assert (der r2 = der r) as Hd.
  { apply Hbyte in E1. rewrite <- E1. unfold read_len in E2.
    destruct (read_byte r1) as [[first r3]|] eqn:E3; cbn [mbind result_bind] in E2; [|done].
    apply Hbyte in E3. rewrite <- E3.
    destruct (Z.land first 128 =? 0); [by injection E2 as <- <-|].
    destruct (_ || _); [done|]. by apply Hlens in E2. }
  destruct (ok_or _ _) as [stop|]; cbn [mbind result_bind] in Hr; [|done].
  destruct (_ <? _); [done|]. injection Hr as <- <-. cbn [der at_offset]. rewrite Hd.
  split; [|done]. by apply Forall_take, Forall_drop.
Qed.

(** Every key the parser lets through has 256 bytes of modulus and four of
    exponent. *)
Lemma parse_key_shape (public_key_der : bytes) (key : Rsa2048PublicKey) :
  is_bytes public_key_der -> parse_pkcs1_rsa2048_public_key_der public_key_der = Ok key ->
  is_bytes (modulus_be key) /\ length (modulus_be key) = RSA_2048_LEN /\
  is_bytes (exponent_be key) /\ length (exponent_be key) = 4%nat.
Proof.
  intros Hb Hk. unfold parse_pkcs1_rsa2048_public_key_der in Hk.
  destruct (read_tlv 48 _) as [[sequence r1]|] eqn:E1; cbn [mbind result_bind] in Hk; [|done].
  destruct (read_tlv_bytes 48 (DerReader_new public_key_der) _ _ Hb E1) as [Hs _].
  destruct (negb _); [done|].
  destruct (read_tlv 2 (DerReader_new sequence)) as [[m r2]|] eqn:E2; cbn [mbind result_bind] in Hk; [|done].
  destruct (read_tlv_bytes 2 (DerReader_new sequence) _ _ Hs E2) as [Hm Hr2].
  destruct (read_tlv 2 r2) as [[x r3]|] eqn:E3; cbn [mbind result_bind] in Hk; [|done].
  destruct (read_tlv_bytes _ _ _ _ Hr2 E3) as [Hx _].
  destruct (negb _); [done|].
  destruct (parse_rsa2048_modulus m) as [mo|] eqn:E4; cbn [mbind result_bind] in Hk; [|done].
  destruct (parse_rsa_exponent x) as [ex|] eqn:E5; cbn [mbind result_bind] in Hk; [|done].
  injection Hk as <-. cbn [modulus_be exponent_be].
  assert (is_bytes mo /\ length mo = RSA_2048_LEN) as [? ?].
  { clear -E4 Hm. unfold parse_rsa2048_modulus in E4.
    repeat case_match; simplify_eq; rewrite ?Nat.eqb_eq in *; split; try done;
      by apply Forall_cons in Hm as [_ ?]. }
  split_and!; [done | done | |]; unfold parse_rsa_exponent in E5;
    destruct ((length x =? 0)%nat || (4 <? length x)%nat) eqn:El; try done;
    destruct (_ || _) in E5; try done; injection E5 as <-.
  - apply Forall_app. split; [apply Forall_replicate; num | done].
  - apply orb_false_iff in El as [_ El]. apply Nat.ltb_ge in El.
    rewrite length_app, length_replicate. lia.
Qed.

End Signatures.

(** ** A concrete engine *)
Module Sample.
Export OtaCrypto.Sample.

Fixpoint to_words (n : nat) (z : Z) : words :=
  match n with O => [] | S n => z mod 2 ^ 32 :: to_words n (z / 2 ^ 32) end.

Lemma to_words_spec n z : 0 <= z < word_range n ->
  length (to_words n z) = n /\ of_words (to_words n z) = z.
Proof.
  revert z. induction n as [|n IH]; intros z Hz; cbn [to_words length of_words].
  - change (word_range 0) with 1 in Hz. lia.
  - rewrite word_range_S in Hz. destruct (IH (z / 2 ^ 32)) as [Hl He].
    { split; [apply Z.div_pos; lia | apply Z.div_lt_upper_bound; lia]. }
    rewrite Hl, He. pose proof (Z.div_mod z (2 ^ 32)). lia.
Qed.

Lemma to_words_range n z : is_words (to_words 64 z) /\ Forall (uint 32) (to_words n z).
Proof.
  assert (forall n z, Forall (uint 32) (to_words n z)) as Hf.
  { clear. intros n. induction n as [|n IH]; intros z; constructor; [|done].
    unfold uint. apply Z.mod_pos_bound. lia. }
  split; [split; [apply Hf|]|apply Hf]. generalize 64%nat. clear.
  intros n. revert z. induction n; intros z; cbn; auto.
Qed.

#[export] Instance calculator : RsaEngine := {
  mod_exp e n _ b _ := to_words 64 (of_words b ^ of_words e mod of_words n)
}.
#[export] Instance calculator_laws : RsaEngineLaws.
Proof.
  split.
  - intros. apply (to_words_range 0).
  - intros e n mp b r _ [Hn Hnl] _ _ Hgt _ _ _.
    pose proof (of_words_range n Hn) as Hr. rewrite Hnl in Hr.
    pose proof (Z.mod_pos_bound (of_words b ^ of_words e) (of_words n) ltac:(lia)) as Hb.
    refine (proj2 (to_words_spec 64 _ _)). lia.
Defined.

Lemma forallb_is_bytes (l : bytes) : forallb (fun b => bool_decide (u8 b)) l = true -> is_bytes l.
Proof.
  induction l as [|b l IH]; cbn; intros Hl; [done|]. bools. constructor; auto.
Qed.

(** A modulus with its top bit set and the exponent one, for which a
    signature is its own encoding. *)
Definition modulus : bytes := replicate 255 255 ++ [251].
Definition message : bytes := lit "motonet".

Example montgomery_parameters_witness :
  (of_words (rsa2048_be_bytes_to_le_words modulus)
   * compute_m_prime (rsa2048_be_bytes_to_le_words modulus) + 1) mod 2 ^ 32 = 0.
Proof.
  destruct (montgomery_parameters (rsa2048_be_bytes_to_le_words modulus)) as (Hm & _).
  - apply be_bytes_to_le_words_spec; [|reflexivity]. apply Forall_app.
    split; [apply Forall_replicate; num | forall_list ltac:(num)].
  - vm_compute. reflexivity.
  - vm_compute. reflexivity.
  - exact Hm.
Defined.

Example emsa_spec_witness :
  verify_pkcs1v15_sha256_encoded_message message (emsa_pkcs1 message) = Ok tt /\
  verify_pss_sha256_encoded_message message (emsa_pkcs1 message) <> Ok tt.
Proof.
  assert (is_bytes (emsa_pkcs1 message)) as Hb.
  { apply forallb_is_bytes. vm_compute. reflexivity. }
  destruct (emsa_spec message (emsa_pkcs1 message) Hb eq_refl) as [H1 H2].
  split; [by apply H1 | vm_compute; discriminate].
Defined.

Example der_roundtrip_witness :
  parse_pkcs1_rsa2048_public_key_der (der_public_key modulus [1; 0; 1])
  = Ok {| modulus_be := modulus; exponent_be := [0; 1; 0; 1] |}.
Proof.
  apply (der_roundtrip modulus [1; 0] 1); [reflexivity | cbn; lia | forall_list ltac:(num) | reflexivity].
Defined.

End Sample.
