(* ===== verification/TlsPki.v ===== *)
(** * Certificates of the TLS library

    [tools/embedded-tls/src/pki.rs] and [der_certificate.rs], and the provider
    of [tools/reqwless/src/client.rs]: the chain of certificates up to the
    pinned one, the names of a certificate against the host's, the signature of
    the handshake. The [der] and ECDSA crates are an interface, the RSA
    verifier is the firmware's of [RsaVerify]. *)
From S2P Require Import Prelude Str OtaCrypto RsaVerify HttpBody OtaFlash HttpWriter HttpRequest TlsBuffer TlsKeys TlsMessages TlsRecord TlsConn.

(** ** Decoded certificates *)

Record Attribute := { at_oid : bytes; at_value : bytes }.
Record Extension := { extn_id : bytes; extn_tag : Z; extn_value : bytes }.
(** The algorithms of the build, without [ed25519]. *)
Inductive SignatureAlgorithm := ECDSA_SHA256 | ECDSA_SHA384 | RSA_PKCS1_SHA256 | RSA_PKCS1_SHA384 | RSA_PKCS1_SHA512 | OtherAlgorithm.
(** What [pki.rs] uses of a certificate; a bit string that is no whole number
    of bytes has none, times are seconds since 1970, and a set of attributes
    holds at most one. *)
Record DecodedCertificate := {
  dc_public_key : option bytes;
  dc_algorithm : SignatureAlgorithm;
  dc_signature : option bytes;
  dc_not_before : Z;
  dc_not_after : Z;
  dc_subject : list (option Attribute);
  dc_extensions : option (list Extension)
}.
(** The [der] crate: a decoded certificate, and the tag and the length of a
    header with the bytes behind it. *)
Class Der := {
  from_der : bytes -> option DecodedCertificate;
  der_header : bytes -> option (Z * nat * bytes)
}.
(** A header takes bytes. *)
Class DerLaws `{Der} := { der_header_shorter d t n r : der_header d = Some (t, n, r) -> (length r < length d)%nat }.

Definition MAX_SAN_DNS_NAMES : nat := 8.
Definition HOSTNAME_MAXLEN : nat := 64.
Definition DNS_NAME_TAG : Z := 0x82.
Definition COMMON_NAME_OID : bytes := [0x55; 0x04; 0x03].
Definition SUBJECT_ALT_NAME_OID : bytes := [0x55; 0x1D; 0x11].
Definition TAG_SEQUENCE : Z := 0x30.
Definition TAG_OCTET_STRING : Z := 0x04.

(** [extract_common_name]: the last one counts. *)
Fixpoint common_name_loop (subject : list (option Attribute)) (common_name : option bytes) : option (option bytes) :=
  match subject with
  | [] => Some common_name
  | elems :: subject =>
      attrs ← elems;
      if bool_decide (at_oid attrs = COMMON_NAME_OID) then
        if (HOSTNAME_MAXLEN <? length (at_value attrs))%nat then None
        else common_name_loop subject (from_utf8 (at_value attrs))
      else common_name_loop subject common_name
  end.
Definition extract_common_name (tbs : DecodedCertificate) : option (option bytes) := common_name_loop (dc_subject tbs) None.

Section Pki.
Context `{Der}.

(** [read_slice]. *)
Definition read_slice (n : nat) (d : bytes) : option (bytes * bytes) :=
  if (n <=? length d)%nat then Some (take n d, drop n d) else None.
(** The general names of an extension; every round takes a header. *)
Fixpoint general_names (fuel : nat) (gn : bytes) (dns_names : list bytes) : option (list bytes) :=
  match gn with
  | [] => Some dns_names
  | tag_byte :: _ =>
      match fuel with
      | O => None
      | S fuel =>
          '(_, len, r) ← der_header gn;
          '(gn_value, r) ← read_slice len r;
          if tag_byte =? DNS_NAME_TAG then
            gn_value ← from_utf8 gn_value;
            if (HOSTNAME_MAXLEN <? length gn_value)%nat then None
            else
              let dns_names := if (length dns_names <? MAX_SAN_DNS_NAMES)%nat then dns_names ++ [gn_value] else dns_names in
              if (length dns_names =? MAX_SAN_DNS_NAMES)%nat then Some dns_names
              else general_names fuel r dns_names
          else general_names fuel r dns_names
      end
  end.
Fixpoint san_loop (extensions : list Extension) (dns_names : list bytes) : option (list bytes) :=
  match extensions with
  | [] => Some dns_names
  | elems :: extensions =>
      if bool_decide (extn_id elems = SUBJECT_ALT_NAME_OID) then
        if extn_tag elems =? TAG_OCTET_STRING then
          '(tag, len, r) ← der_header (extn_value elems);
          if tag =? TAG_SEQUENCE then
            '(san_content, _) ← read_slice len r;
            dns_names ← general_names (length san_content) san_content dns_names;
            san_loop extensions dns_names
          else None
        else None
      else san_loop extensions dns_names
  end.
Definition extract_san_dns_names (tbs : DecodedCertificate) : option (list bytes) :=
  match dc_extensions tbs with None => Some [] | Some l => san_loop l [] end.

(** [get_certificate_tlv_bytes]: the header of the inner sequence with its
    content. *)
Definition get_certificate_tlv_bytes (input : bytes) : option bytes :=
  '(tag, _, r) ← der_header input;
  if tag =? TAG_SEQUENCE then
    '(tag, len, r2) ← der_header r;
    if tag =? TAG_SEQUENCE then fst <$> read_slice (length r - length r2 + len) r else None
  else None.
End Pki.

(** ** Host names *)

Record CertificateNames := { common_name : option bytes; san_dns_names : list bytes }.
Definition host_byte (b : Z) : bool := is_lower b || is_upper b || is_digit b || (b =? 45) || (b =? 46).
Definition cn_byte (b : Z) : bool := host_byte b || (b =? 42).
Definition count (c : Z) (s : bytes) : nat := length (filter (fun b => b = c) s).
Fixpoint lowercase_eq (a b : bytes) : bool :=
  match a, b with
  | x :: a, y :: b => (to_ascii_lowercase x =? to_ascii_lowercase y) && lowercase_eq a b
  | _, _ => true
  end.
(** The comparison loops over the indices of [a], once the lengths agree. *)
Definition same_lowercase (a b : bytes) : bool := (length a =? length b)%nat && lowercase_eq a b.
Definition tls_hostname_match_impl (cn host : bytes) : bool :=
  if negb (forallb cn_byte cn) then false
  else if negb (forallb host_byte host) then false
  else
    let cn_labels := (1 + count 46 cn)%nat in
    let host_labels := (1 + count 46 host)%nat in
    let stars := count 42 cn in
    if (stars =? 0)%nat then same_lowercase cn host
    else if negb (stars =? 1)%nat then false
    else if negb (starts_with [42; 46] cn) then false
    else if (cn_labels <? 3)%nat then false
    else if negb (cn_labels =? host_labels)%nat then false
    else match split_once 46 host with
    | None => false
    | Some (_, host_suffix) => same_lowercase (drop 2 cn) host_suffix
    end.
Definition tls_hostname_match (names : CertificateNames) (hostname : option bytes) : bool :=
  match hostname with
  | None => bool_decide (common_name names = None) && bool_decide (san_dns_names names = [])
  | Some hostname =>
      if existsb (fun san => tls_hostname_match_impl san hostname) (san_dns_names names) then true
      else match common_name names with
      | Some cn => tls_hostname_match_impl cn hostname
      | None => false
      end
  end.

(** ** Signatures *)

(** [RsaVerifier], and the curves of the [p256] and [p384] crates: which keys
    and which DER signatures they accept, and what they verify. *)
Record RsaVerifier := {
  pss_sha256 : bytes -> bytes -> bytes -> result TlsError unit;
  pss_sha384 : bytes -> bytes -> bytes -> result TlsError unit;
  pss_sha512 : bytes -> bytes -> bytes -> result TlsError unit;
  pkcs1v15_sha256 : bytes -> bytes -> bytes -> result TlsError unit;
  pkcs1v15_sha384 : bytes -> bytes -> bytes -> result TlsError unit;
  pkcs1v15_sha512 : bytes -> bytes -> bytes -> result TlsError unit
}.
Record Curve := { key_ok : bytes -> bool; sig_ok : bytes -> bool; curve_verify : bytes -> bytes -> bytes -> bool }.
Class Curves := { p256 : Curve; p384 : Curve }.
Definition unsupported_rsa (_ _ _ : bytes) : result TlsError unit := Err InvalidSignatureScheme.
(** [Esp32RsaVerifier] of [firmware/src/ota/hw_rsa.rs]; the other methods are the
    trait's. *)
Definition hw_error (e : RsaVerify.TlsError) : TlsError :=
  match e with
  | RsaVerify.DecodeError => DecodeError | RsaVerify.InvalidCertificate => InvalidCertificate
  | RsaVerify.TlsInvalidSignature => InvalidSignature | RsaVerify.InvalidSignatureScheme => InvalidSignatureScheme
  end.
Definition Esp32RsaVerifier `{OtaCrypto.Sha256} `{RsaVerify.RsaEngine} : RsaVerifier := {|
  pss_sha256 k m s := map_err hw_error (RsaVerify.verify_pss_sha256 k m s);
  pss_sha384 k m s := map_err hw_error (RsaVerify.verify_pss_sha384 k m s);
  pss_sha512 k m s := map_err hw_error (RsaVerify.verify_pss_sha512 k m s);
  pkcs1v15_sha256 k m s := map_err hw_error (RsaVerify.verify_pkcs1v15_sha256 k m s);
  pkcs1v15_sha384 := unsupported_rsa;
  pkcs1v15_sha512 := unsupported_rsa |}.

Section Verification.
Context `{Der} `{Curves}.

(** An RSA check by the verifier, if there is one. *)
Definition with_rsa (rsa : option RsaVerifier) (check : RsaVerifier -> result TlsError unit) : result TlsError unit :=
  r ← ok_or rsa InvalidSignatureScheme; check r.
Definition certificate_ecdsa (c : Curve) (key data : bytes) (signature : option bytes) : result TlsError bool :=
  guard_ok (key_ok c key) DecodeError;;
  s ← ok_or signature (ParseErr InvalidData);
  guard_ok (sig_ok c s) (ParseErr InvalidData);;
  Ok (curve_verify c key data s).
Definition certificate_rsa (rsa : option RsaVerifier) (check : RsaVerifier -> bytes -> bytes -> bytes -> result TlsError unit)
    (key data : bytes) (signature : option bytes) : result TlsError bool :=
  s ← ok_or signature (ParseErr InvalidData);
  with_rsa rsa (fun r => check r key data s);;
  Ok true.
(** The signature of a certificate under the key of its issuer. *)
Definition certificate_signature (rsa : option RsaVerifier) (cert : DecodedCertificate) (key data : bytes) : result TlsError bool :=
  match dc_algorithm cert with
  | ECDSA_SHA256 => certificate_ecdsa p256 key data (dc_signature cert)
  | ECDSA_SHA384 => certificate_ecdsa p384 key data (dc_signature cert)
  | RSA_PKCS1_SHA256 => certificate_rsa rsa pkcs1v15_sha256 key data (dc_signature cert)
  | RSA_PKCS1_SHA384 => certificate_rsa rsa pkcs1v15_sha384 key data (dc_signature cert)
  | RSA_PKCS1_SHA512 => certificate_rsa rsa pkcs1v15_sha512 key data (dc_signature cert)
  | OtherAlgorithm => Err InvalidSignatureScheme
  end.
(** [verify_certificate] of one certificate by its issuer's. *)
Definition verify_one (verifier certificate : CertificateEntryRef) (now : option Z) (rsa : option RsaVerifier) : result TlsError CertificateNames :=
  ca_certificate ← (match verifier with X509 verifier => ok_or (from_der verifier) DecodeError | RawPublicKey _ => Err DecodeError end);
  match certificate with
  | X509 certificate =>
      parsed ← ok_or (from_der certificate) DecodeError;
      ca_public_key ← ok_or (dc_public_key ca_certificate) DecodeError;
      common_name ← ok_or (extract_common_name parsed) DecodeError;
      san_dns_names ← ok_or (extract_san_dns_names parsed) DecodeError;
      guard_ok (match now with Some now => (dc_not_before parsed <=? now) && (now <=? dc_not_after parsed) | None => true end) InvalidCertificate;;
      certificate_data ← ok_or (get_certificate_tlv_bytes certificate) DecodeError;
      verified ← certificate_signature rsa parsed ca_public_key certificate_data;
      guard_ok verified InvalidCertificate;;
      Ok {| common_name := common_name; san_dns_names := san_dns_names |}
  | RawPublicKey _ => Err InvalidCertificate
  end.

Definition certificate_entry_eq (left right : CertificateEntryRef) : bool :=
  match left, right with X509 l, X509 r => bool_decide (l = r) | _, _ => false end.
Definition certificate_entry_same_public_key (left right : CertificateEntryRef) : bool :=
  match left, right with
  | X509 l, X509 r =>
      match from_der l, from_der r with
      | Some l, Some r => bool_decide (dc_public_key l = dc_public_key r)
      | _, _ => false
      end
  | _, _ => false
  end.
(** The loop over the chain from [idx] on; [now] is the clock at each round. *)
Fixpoint verify_chain (ca : CertificateEntryRef) (now : nat -> option Z) (rsa : option RsaVerifier) (idx : nat)
    (l : list CertificateEntryRef) (names : CertificateNames) : result TlsError CertificateNames :=
  match l with
  | [] => Ok names
  | certificate :: l =>
      if certificate_entry_eq certificate ca || ((0 <? idx)%nat && certificate_entry_same_public_key certificate ca) then Ok names
      else
        verified_names ← verify_one (default ca (head l)) certificate (now idx) rsa;
        verify_chain ca now rsa (S idx) l (if (idx =? 0)%nat then verified_names else names)
  end.
Definition no_names : CertificateNames := {| common_name := None; san_dns_names := [] |}.

(** *** The verifier *)

(** [host] is a string of at most 64 bytes; the certificate is kept as its bytes. *)
Record CertVerifier := {
  ca : CertificateEntryRef;
  host : option bytes;
  certificate_transcript : option bytes;
  certificate : option Certificate;
  rsa_verifier : option RsaVerifier
}.
Definition CertVerifier_new (ca : CertificateEntryRef) : CertVerifier :=
  {| ca := ca; host := None; certificate_transcript := None; certificate := None; rsa_verifier := None |}.
Definition with_rsa_verifier (r : RsaVerifier) (self : CertVerifier) : CertVerifier :=
  {| ca := ca self; host := host self; certificate_transcript := certificate_transcript self; certificate := certificate self; rsa_verifier := Some r |}.
Definition verifier_set_hostname (hostname : bytes) : Op CertVerifier TlsError unit := fun self =>
  if (64 <? length hostname)%nat then Some (Err InsufficientSpace, self)
  else Some (Ok tt, {| ca := ca self; host := Some hostname; certificate_transcript := certificate_transcript self;
                       certificate := certificate self; rsa_verifier := rsa_verifier self |}).
Definition verifier_certificate (cert_size : nat) (now : nat -> option Z) (transcript : bytes) (cert : CertificateRef) : Op CertVerifier TlsError unit := fun self =>
  let r :=
    names ← verify_chain (ca self) now (rsa_verifier self) 0 (entries cert) no_names;
    guard_ok (tls_hostname_match names (host self)) InvalidCertificate;;
    Certificate_try_from cert_size cert in
  match r with
  | Err e => Some (Err e, self)
  | Ok owned => Some (Ok tt, {| ca := ca self; host := host self; certificate_transcript := Some transcript; certificate := Some owned;
                                rsa_verifier := rsa_verifier self |})
  end.
Definition handshake_ecdsa (c : Curve) (key message signature : bytes) : result TlsError unit :=
  guard_ok (key_ok c key) DecodeError;;
  guard_ok (sig_ok c signature) DecodeError;;
  guard_ok (curve_verify c key message signature) InvalidSignature.
Definition handshake_signature (rsa : option RsaVerifier) (key message : bytes) (verify : CertificateVerify) : result TlsError unit :=
  match signature_scheme verify with
  | EcdsaSecp256r1Sha256 => handshake_ecdsa p256 key message (signature verify)
  | EcdsaSecp384r1Sha384 => handshake_ecdsa p384 key message (signature verify)
  | RsaPssRsaeSha256 => with_rsa rsa (fun r => pss_sha256 r key message (signature verify))
  | RsaPssRsaeSha384 => with_rsa rsa (fun r => pss_sha384 r key message (signature verify))
  | RsaPssRsaeSha512 => with_rsa rsa (fun r => pss_sha512 r key message (signature verify))
  | _ => Err InvalidSignatureScheme
  end.
(** [verify_signature] over the message, by the key of the first certificate. *)
Definition verify_signature_of (message : bytes) (certificate : CertificateRef) (verify : CertificateVerify) (rsa : option RsaVerifier) : result TlsError unit :=
  match head (entries certificate) with
  | Some (X509 certificate) =>
      certificate ← ok_or (from_der certificate) DecodeError;
      public_key ← ok_or (dc_public_key certificate) DecodeError;
      handshake_signature rsa public_key message verify
  | _ => Err DecodeError
  end.
End Verification.

(** The transcript is taken; without one, or without a certificate, [unwrap!]
    panics. *)
Definition verifier_signature {K : Type} `{TlsCrypto K} `{Der} `{Curves} (verify : CertificateVerify) : Op CertVerifier TlsError unit := fun self =>
  transcript ← certificate_transcript self;
  let self := {| ca := ca self; host := host self; certificate_transcript := None; certificate := certificate self; rsa_verifier := rsa_verifier self |} in
  match verify_message (lit "TLS 1.3, server CertificateVerify" ++ [0]) transcript with
  | Err e => Some (Err e, self)
  | Ok message =>
      owned ← certificate self;
      cert ← CertificateRef_try_from owned;
      Some (cert ← cert; verify_signature_of message cert verify (rsa_verifier self), self)
  end.

(** ** The provider of the HTTP client *)

(** The generator ([rand_chacha]) and the signing keys ([p256]) are crates'. *)
Class Randomness (K R : Type) := { draw_bytes : R -> bytes * R; draw_secret : R -> K * R }.
Class Signing := { signing_key : bytes -> option (bytes -> bytes) }.
Record Provider (R : Type) := { rng : R; verifier : CertVerifier; pv_key : option bytes; pv_cert : option CertificateEntryRef }.
Arguments rng {R} p.
Arguments verifier {R} p.
Arguments pv_key {R} p.
Arguments pv_cert {R} p.
Definition CERT_SIZE : nat := Z.to_nat 8192.
Section Client.
Context {K R : Type} `{TlsCrypto K} `{Randomness K R} `{Signing} `{Der} `{Curves}.

Definition on_rng {A} (f : R -> A * R) (p : Provider R) : A * Provider R :=
  let (a, r) := f (rng p) in (a, {| rng := r; verifier := verifier p; pv_key := pv_key p; pv_cert := pv_cert p |}).
Definition on_verifier (m : Op CertVerifier TlsError unit) : Op (Provider R) TlsError unit := fun p =>
  '(r, v) ← m (verifier p); Some (r, {| rng := rng p; verifier := v; pv_key := pv_key p; pv_cert := pv_cert p |}).
Definition provider_signer : Op (Provider R) TlsError ((bytes -> bytes) * SignatureScheme) :=
  p ← op_get;
  key_der ← op_ok_or (pv_key p) InvalidPrivateKey;
  sign ← op_ok_or (signing_key key_der) InvalidPrivateKey;
  mret (sign, EcdsaSecp256r1Sha256).
(** [NoClock]: no time is known. *)
#[export] Instance client_provider : CryptoProvider K (Provider R) := {
  fill_random := on_rng draw_bytes;
  random_secret := on_rng draw_secret;
  has_verifier _ := true;
  set_hostname_verification name := on_verifier (verifier_set_hostname name);
  verify_certificate transcript cert := on_verifier (verifier_certificate CERT_SIZE (fun _ => None) transcript cert);
  verify_signature v := on_verifier (verifier_signature v);
  signer := provider_signer;
  client_cert_of p := (pv_cert p, p) }.
End Client.

(** [UnsecureProvider] of [config.rs]: no verifier. *)
Record UnsecureProvider (R : Type) := { up_rng : R; priv_key : option bytes; up_client_cert : option CertificateEntryRef }.
Arguments up_rng {R} u.
Arguments priv_key {R} u.
Arguments up_client_cert {R} u.
Section Unsecure.
Context {K R : Type} `{Randomness K R} `{Signing}.
Definition on_up_rng {A} (f : R -> A * R) (p : UnsecureProvider R) : A * UnsecureProvider R :=
  let (a, r) := f (up_rng p) in (a, {| up_rng := r; priv_key := priv_key p; up_client_cert := up_client_cert p |}).
Definition unsecure_signer : Op (UnsecureProvider R) TlsError ((bytes -> bytes) * SignatureScheme) :=
  p ← op_get;
  key_der ← op_ok_or (priv_key p) InvalidPrivateKey;
  sign ← op_ok_or (signing_key key_der) InvalidPrivateKey;
  mret (sign, EcdsaSecp256r1Sha256).
#[export] Instance unsecure_provider : CryptoProvider K (UnsecureProvider R) := {
  fill_random := on_up_rng draw_bytes;
  random_secret := on_up_rng draw_secret;
  has_verifier _ := false;
  set_hostname_verification _ := mret tt;
  verify_certificate _ _ := mret tt;
  verify_signature _ := mret tt;
  signer := unsecure_signer;
  client_cert_of p := (up_client_cert p, p) }.
End Unsecure.

(** As many rounds as there are bytes are enough for the general names. *)
Lemma general_names_fuel `{DerLaws} fuel : forall fuel' gn names, (length gn <= fuel)%nat -> (length gn <= fuel')%nat ->
  general_names fuel gn names = general_names fuel' gn names.
Proof.
  induction fuel as [|fuel IH]; intros [|fuel'] [|b gn] names Hf Hf'; try (cbn in *; lia); try done.
  cbn [general_names]. destruct (der_header (b :: gn)) as [[[t n] r]|] eqn:Eh; [|done]. cbn [mbind option_bind].
  apply der_header_shorter in Eh. unfold read_slice. destruct (_ <=? _)%nat eqn:En; [|done]. cbn [mbind option_bind]. apply Nat.leb_le in En.
  assert (forall names, general_names fuel (drop n r) names = general_names fuel' (drop n r) names) as Hgo.
  { intros names'. apply IH; rewrite length_drop; cbn [length] in *; lia. }
  destruct (b =? DNS_NAME_TAG); [|apply Hgo]. destruct (from_utf8 _); [|done]. cbn [mbind option_bind].
  destruct (_ <? _)%nat; [done|]. destruct (_ =? _)%nat; [done | apply Hgo].
Qed.

(** ** Names that match *)

Abbreviation lowercase s := (to_ascii_lowercase <$> s).
(** RFC 6125, with one wildcard for the whole left-most label and at least two
    labels behind it. *)
Definition Matches (name host : bytes) : Prop :=
  forallb cn_byte name = true /\ forallb host_byte host = true /\
  ((42 ∉ name) /\ lowercase name = lowercase host \/
   exists suffix label host_suffix, name = [42; 46] ++ suffix /\ (42 ∉ suffix) /\ 46 ∈ suffix /\
     host = label ++ 46 :: host_suffix /\ (46 ∉ label) /\ lowercase suffix = lowercase host_suffix).

Lemma same_lowercase_spec a : forall b, same_lowercase a b = true <-> lowercase a = lowercase b.
Proof.
  unfold same_lowercase. induction a as [|x a IH]; intros [|y b]; cbn [length lowercase_eq]; try done. rewrite !fmap_cons.
  specialize (IH b). cbn [Nat.eqb]. destruct (length a =? length b)%nat eqn:El; cbn [andb] in *.
  - rewrite andb_true_iff, Z.eqb_eq, IH. split; [by intros [-> ->] | by intros [= -> ->]].
  - split; [done|]. intros [= _ E]. by apply IH in E.
Qed.
Lemma count_zero c s : count c s = 0%nat <-> c ∉ s.
Proof.
  unfold count. induction s as [|b s IH]; [split; [intros _; apply not_elem_of_nil | done]|]. rewrite filter_cons.
  destruct (decide (b = c)) as [->|Hb]; cbn [length]; [set_solver|]. rewrite IH. set_solver.
Qed.
Lemma count_app c a b : count c (a ++ b) = (count c a + count c b)%nat.
Proof. unfold count. by rewrite filter_app, length_app. Qed.
Lemma lowercase_dot x y : to_ascii_lowercase x = to_ascii_lowercase y -> x = 46 <-> y = 46.
Proof.
  unfold to_ascii_lowercase, is_upper, between. intros E.
  destruct (65 <=? x) eqn:E1, (x <=? 90) eqn:E2, (65 <=? y) eqn:E3, (y <=? 90) eqn:E4; cbn [andb] in E; lia.
Qed.
Lemma lowercase_dots a : forall b, lowercase a = lowercase b -> count 46 a = count 46 b.
Proof.
  induction a as [|x a IH]; intros [|y b]; try done. rewrite !fmap_cons. intros [= E1 E2]. specialize (IH b E2).
  apply lowercase_dot in E1. unfold count in *. rewrite !filter_cons. destruct (decide (x = 46)), (decide (y = 46)); cbn [length]; tauto || lia.
Qed.
Lemma hostname_impl_spec cn host : tls_hostname_match_impl cn host = true <-> Matches cn host.
Proof.
  unfold tls_hostname_match_impl, Matches. destruct (forallb cn_byte cn); cbn [negb]; [|naive_solver].
  destruct (forallb host_byte host); cbn [negb]; [|naive_solver].
  destruct (Nat.eqb_spec (count 42 cn) 0) as [E0|E0].
  { apply count_zero in E0. rewrite same_lowercase_spec. split; [naive_solver|].
    intros (_ & _ & [[_ E]|(suffix & _ & _ & -> & _)]); [done|]. exfalso. apply E0. by left. }
  assert (~ (42 ∉ cn)) as Hin by by rewrite <- count_zero.
  destruct (starts_with [42; 46] cn) eqn:Es.
  - apply starts_with_spec in Es as (suffix & ->). rewrite !count_app. change (count 42 [42; 46]) with 1%nat. change (count 46 [42; 46]) with 1%nat.
    destruct (Nat.eqb_spec (1 + count 42 suffix) 1) as [E1|E1]; cbn [negb].
    + assert (42 ∉ suffix) as Hs by (apply count_zero; lia). cbn [app drop].
      destruct (Nat.ltb_spec (1 + (1 + count 46 suffix)) 3) as [El|El].
      { split; [done|]. intros (_ & _ & [[Hn _]|(s & l & hs & E & _ & Hd & _)]); [done|]. injection E as <-.
        assert (count 46 suffix = 0)%nat as Hc by lia. by apply count_zero in Hc. }
      destruct (Nat.eqb_spec (1 + (1 + count 46 suffix)) (1 + count 46 host)) as [Ec|Ec]; cbn [negb].
      * destruct (split_once 46 host) as [[label host_suffix]|] eqn:Eh.
        -- apply split_once_spec in Eh as [-> Hl]. rewrite same_lowercase_spec. split.
           ++ intros E. split_and!; [done..|]. right. exists suffix, label, host_suffix. split_and!; try done.
              destruct (decide (46 ∈ suffix)) as [|Hd]; [done|]. apply count_zero in Hd. lia.
           ++ intros (_ & _ & [[Hn _]|(s & l & hs & E & _ & _ & Eh & Hl' & Elow)]); [done|]. injection E as <-.
              assert (split_once 46 (label ++ 46 :: host_suffix) = Some (l, hs)) as E by (apply split_once_spec; by split).
              assert (split_once 46 (label ++ 46 :: host_suffix) = Some (label, host_suffix)) as E' by (apply split_once_spec; by split).
              rewrite E in E'. by injection E' as -> ->.
        -- split; [done|]. intros (_ & _ & [[Hn _]|(s & l & hs & _ & _ & _ & -> & _)]); [done|]. apply split_once_None in Eh. set_solver.
      * split; [done|]. intros (_ & _ & [[Hn _]|(s & l & hs & E & _ & _ & -> & Hl & Elow)]); [done|]. injection E as <-. exfalso. apply Ec.
        rewrite count_app. apply count_zero in Hl. rewrite Hl. change (46 :: hs) with ([46] ++ hs). rewrite count_app, (lowercase_dots _ _ Elow). done.
    + split; [done|]. intros (_ & _ & [[Hn _]|(s & l & hs & E & Hs & _)]); [done|]. injection E as <-. apply count_zero in Hs. lia.
  - destruct (negb _); (split; [done|]); intros (_ & _ & [[Hn _]|(s & l & hs & -> & _)]); try done;
      by rewrite (proj2 (starts_with_spec [42; 46] ([42; 46] ++ s))) in Es by by exists s.
Qed.

(** ** What an accepted chain says *)
Section Chains.
Context `{Der} `{Curves}.

Definition key_of (e : CertificateEntryRef) : option bytes :=
  match e with X509 d => c ← from_der d; dc_public_key c | RawPublicKey _ => None end.
(** [cert] carries a signature that verifies under [key]. *)
Definition SignedWith (rsa : option RsaVerifier) (cert key : bytes) : Prop := exists parsed data,
  from_der cert = Some parsed /\ get_certificate_tlv_bytes cert = Some data /\ certificate_signature rsa parsed key data = Ok true.
(** A path of signatures from the pinned certificate's key. *)
Inductive Certified (rsa : option RsaVerifier) (ca : CertificateEntryRef) : bytes -> Prop :=
| certified_by_ca cert key : key_of ca = Some key -> SignedWith rsa cert key -> Certified rsa ca cert
| certified_by_issuer cert issuer key : Certified rsa ca issuer -> key_of (X509 issuer) = Some key -> SignedWith rsa cert key -> Certified rsa ca cert.
(** The names a certificate has. *)
Definition names_of (cert : bytes) : option CertificateNames :=
  parsed ← from_der cert; cn ← extract_common_name parsed; sans ← extract_san_dns_names parsed; Some {| common_name := cn; san_dns_names := sans |}.

Lemma verify_one_inv issuer e now rsa names : verify_one issuer e now rsa = Ok names -> exists cert key, e = X509 cert /\
  key_of issuer = Some key /\ SignedWith rsa cert key /\ names_of cert = Some names.
Proof.
  unfold verify_one. intros E. apply bind_ok_inv in E as (dca & Eca & E). destruct e as [cert|]; [|discriminate E].
  destruct (from_der cert) as [parsed|] eqn:Ep; [|discriminate E]. cbn [ok_or mbind result_bind] in E.
  destruct (dc_public_key dca) as [key|] eqn:Ek; [|discriminate E]. cbn [ok_or mbind result_bind] in E.
  destruct (extract_common_name parsed) as [cn|] eqn:Ecn; [|discriminate E]. cbn [ok_or mbind result_bind] in E.
  destruct (extract_san_dns_names parsed) as [sans|] eqn:Es; [|discriminate E]. cbn [ok_or mbind result_bind] in E.
  apply guard_ok_inv in E as [_ E]. destruct (get_certificate_tlv_bytes cert) as [data|] eqn:Ed; [|discriminate E]. cbn [ok_or mbind result_bind] in E.
  apply bind_ok_inv in E as (verified & Ev & E). apply guard_ok_inv in E as [-> E]. injection E as <-.
  exists cert, key. split_and!; [done | | by exists parsed, data | unfold names_of; rewrite Ep; cbn; by rewrite Ecn, Es].
  destruct issuer as [i|]; [|discriminate Eca]. unfold key_of. destruct (from_der i); [|discriminate Eca]. injection Eca as ->. done.
Qed.
(** A certificate of the chain is the pinned one's key, or certified. *)
Definition Anchored (rsa : option RsaVerifier) (ca e : CertificateEntryRef) : Prop :=
  key_of e = key_of ca \/ exists cert, e = X509 cert /\ Certified rsa ca cert.
Lemma anchored_signs rsa ca e cert key : Anchored rsa ca e -> key_of e = Some key -> SignedWith rsa cert key -> Certified rsa ca cert.
Proof.
  intros [E|(i & -> & Hi)] Hk Hs; [apply (certified_by_ca _ _ _ key); [congruence | done] | by apply (certified_by_issuer _ _ _ i key)].
Qed.
Lemma same_key l r : certificate_entry_eq l r || certificate_entry_same_public_key l r = true -> key_of l = key_of r.
Proof.
  destruct l as [l|], r as [r|]; cbn; try done. intros E. apply orb_true_iff in E as [E|E].
  - by apply bool_decide_eq_true in E as ->.
  - destruct (from_der l), (from_der r); try discriminate E. by apply bool_decide_eq_true in E.
Qed.
Lemma chain_anchored ca now rsa l : forall idx names0 names, verify_chain ca now rsa (S idx) l names0 = Ok names ->
  names = names0 /\ forall e, head l = Some e -> Anchored rsa ca e.
Proof.
  induction l as [|e l IH]; intros idx names0 names E; cbn [verify_chain] in E; [by injection E as ->|].
  destruct (certificate_entry_eq e ca || ((0 <? S idx)%nat && certificate_entry_same_public_key e ca)) eqn:Eb.
  - injection E as ->. split; [done|]. intros e' [= <-]. left. apply same_key. exact Eb.
  - apply bind_ok_inv in E as (v & Ev & E). change (S idx =? 0)%nat with false in E. apply IH in E as [-> Hl].
    split; [done|]. intros e' [= <-]. right. apply verify_one_inv in Ev as (cert & key & -> & Hk & Hs & _). exists cert. split; [done|].
    destruct (head l) as [i|] eqn:Ei; cbn [default] in Hk.
    + by eapply anchored_signs; [apply Hl | |].
    + by eapply certified_by_ca.
Qed.
(** An accepted chain certifies its first certificate, unless it names nobody. *)
Lemma chain_certified ca now rsa l names : verify_chain ca now rsa 0 l no_names = Ok names ->
  names = no_names \/ exists cert l', l = X509 cert :: l' /\ Certified rsa ca cert /\ names_of cert = Some names.
Proof.
  destruct l as [|e l]; cbn [verify_chain]; [intros [= <-]; by left|].
  destruct (_ || _); [intros [= <-]; by left|]. intros E. apply bind_ok_inv in E as (v & Ev & E). right.
  apply chain_anchored in E as [-> Hl]. apply verify_one_inv in Ev as (cert & key & -> & Hk & Hs & Hn). exists cert, l. split_and!; [done | | done].
  destruct (head l) as [i|] eqn:Ei; cbn [default] in Hk; [by eapply anchored_signs; [apply Hl | |] | by eapply certified_by_ca].
Qed.
Lemma hostname_match_spec names h : tls_hostname_match names (Some h) = true <->
  exists name, (name ∈ san_dns_names names \/ common_name names = Some name) /\ Matches name h.
Proof.
  unfold tls_hostname_match. destruct (existsb _ _) eqn:Ex.
  - split; [intros _|done]. apply existsb_exists in Ex as (name & Hin & Hm). exists name. apply list_elem_of_In in Hin.
    split; [by left | by apply hostname_impl_spec].
  - assert (forall name, name ∈ san_dns_names names -> ~ Matches name h) as Hno.
    { intros name Hin Hm. apply hostname_impl_spec in Hm. apply list_elem_of_In in Hin.
      assert (existsb (fun san => tls_hostname_match_impl san h) (san_dns_names names) = true) by (apply existsb_exists; by exists name). congruence. }
    destruct (common_name names) as [cn|] eqn:Ec.
    + rewrite hostname_impl_spec. split; [intros Hm; exists cn; split; [by right | done]|]. intros (name & [Hin|[= ->]] & Hm); [by apply Hno in Hm | done].
    + split; [done|]. intros (name & [Hin|[=]] & Hm). by apply Hno in Hm.
Qed.

(** C28: a host name matches a certificate exactly when one of its alternative
    names or its common name does, and a single name matches by the rule of RFC
    6125 for names and wildcards: both are made of letters, digits, hyphens and dots, and they are the same but for case, or
    the name is a star for the whole first label followed by at least two labels
    that are the host's remaining ones. Which names count is not
    the choice of RFC 6125: the common name counts even when there are
    alternative names. *)
Theorem hostname_match_exact (names : CertificateNames) (h : bytes) : tls_hostname_match names (Some h) = true <->
  exists name, (name ∈ san_dns_names names \/ common_name names = Some name) /\ forallb cn_byte name = true /\ forallb host_byte h = true /\
    ((42 ∉ name) /\ lowercase name = lowercase h \/
     exists suffix label host_suffix, name = lit "*." ++ suffix /\ (42 ∉ suffix) /\ 46 ∈ suffix /\
       h = label ++ 46 :: host_suffix /\ (46 ∉ label) /\ lowercase suffix = lowercase host_suffix).
Proof. exact (hostname_match_spec names h). Qed.

End Chains.

(** ** A certificate of a pinned authority *)
Module Sample.
Import TlsKeys.Sample.

Definition ca_cert : bytes := [0x30; 0].
Definition leaf_cert : bytes := [0x30; 4; 0x30; 2; 7; 7].
(** The key of the authority is 1, the server's is 2; a signature is the key. *)
Definition decoded (key : Z) (name : bytes) : DecodedCertificate := {|
  dc_public_key := Some [key]; dc_algorithm := ECDSA_SHA256; dc_signature := Some [1]; dc_not_before := 0; dc_not_after := 9;
  dc_subject := [Some {| at_oid := COMMON_NAME_OID; at_value := name |}];
  dc_extensions := Some [{| extn_id := SUBJECT_ALT_NAME_OID; extn_tag := TAG_OCTET_STRING; extn_value := [0x30; 13; DNS_NAME_TAG; 11] ++ lit "*.b.example" |}] |}.
#[export] Instance toy_der : Der := {
  from_der d := if bool_decide (d = ca_cert) then Some (decoded 1 (lit "authority"))
                else if bool_decide (d = leaf_cert) then Some (decoded 2 (lit "a.example")) else None;
  der_header d := match d with t :: n :: r => Some (t, Z.to_nat n, r) | _ => None end }.
#[export] Instance toy_der_laws : DerLaws.
Proof. split. intros [|x [|y d]] t n r E; cbn in E; try done. injection E as _ _ <-. cbn. lia. Qed.
Definition toy_curve : Curve := {| key_ok _ := true; sig_ok _ := true; curve_verify k _ s := bool_decide (s = k) |}.
#[export] Instance toy_curves : Curves := { p256 := toy_curve; p384 := toy_curve }.
Definition served : CertificateRef := {| raw_entries := cert_entry_bytes leaf_cert; request_context := []; entries := [X509 leaf_cert] |}.
Definition signed : CertificateVerify := {| signature_scheme := EcdsaSecp256r1Sha256; signature := [2] |}.
Definition pinned : CertVerifier :=
  {| ca := X509 ca_cert; host := Some (lit "x.B.example"); certificate_transcript := None; certificate := None; rsa_verifier := None |}.
Definition checked : CertVerifier :=
  {| ca := X509 ca_cert; host := Some (lit "x.B.example"); certificate_transcript := Some [5]; certificate := Some {| own_context := []; entries_data := cert_entry_bytes leaf_cert |}; rsa_verifier := None |}.
Definition done_checking : CertVerifier :=
  {| ca := X509 ca_cert; host := Some (lit "x.B.example"); certificate_transcript := None; certificate := Some {| own_context := []; entries_data := cert_entry_bytes leaf_cert |}; rsa_verifier := None |}.
(** The certificate of someone else. *)
Example other_host : (r ← verifier_certificate 100 (fun _ => None) [5] served
  {| ca := X509 ca_cert; host := Some (lit "y.x.b.example"); certificate_transcript := None; certificate := None; rsa_verifier := None |}; Some r.1) =
  Some (Err InvalidCertificate).
Proof. vm_compute. reflexivity. Qed.
End Sample.
