(* ===== verification/OtaTasks.v ===== *)
(** * Coordinating an update between tasks

    The coordination helpers of [crates/ota-core/src/lib.rs] (the OTA state,
    the delivery rule for retained manifests, the topics), how the MQTT task
    hands a manifest over ([firmware/src/tasks/mqtt/mod.rs] and
    [session.rs]), the OTA task ([firmware/src/tasks/ota.rs]) and the
    confirmation task ([firmware/src/tasks/ota_confirm.rs]). An await on
    another task's signal is a list of the values it would observe. *)
From S2P Require Import Prelude Str Heapless OtaUrl OtaManifest OtaCrypto OtaFlash.

(** ** The OTA state *)

Inductive OtaState := Inactive | Downloading | Applying | PendingConfirmation.

#[export] Instance OtaState_eq_dec : EqDecision OtaState.
Proof. solve_decision. Defined.

Definition as_u8 (s : OtaState) : Z :=
  match s with Inactive => 0 | Downloading => 1 | Applying => 2 | PendingConfirmation => 3 end.
Definition from_u8 (value : Z) : OtaState :=
  if value =? 1 then Downloading
  else if value =? 2 then Applying
  else if value =? 3 then PendingConfirmation
  else Inactive.

Inductive OtaManifestDeliveryAction := ForwardOnly | ForwardAndClearRetained | ClearRetainedOnly.

Definition classify_ota_manifest_delivery (state : OtaState) (retained : bool)
  : OtaManifestDeliveryAction :=
  match state, retained with
  | PendingConfirmation, true => ClearRetainedOnly
  | _, true => ForwardAndClearRetained
  | _, false => ForwardOnly
  end.

Definition is_ota_manifest_payload_candidate (payload_len : Z) : bool := negb (payload_len =? 0).
Definition is_mqtt_allowed (state : OtaState) : bool :=
  match state with Inactive | PendingConfirmation => true | _ => false end.
Definition is_radio_capture_allowed (state : OtaState) : bool :=
  match state with Inactive => true | _ => false end.
Definition is_ui_input_allowed (state : OtaState) : bool :=
  match state with Inactive => true | _ => false end.
Definition display_message (state : OtaState) : option bytes :=
  match state with
  | Downloading => Some (lit "OTA download...")
  | Applying => Some (lit "OTA applying...")
  | _ => None
  end.

(** ** Topics *)

Definition MQTT_TOPIC_MAX_LEN : Z := 96.
Inductive TopicError := DeviceIdTooLong.

Definition topic_of (pieces : list bytes) : result TopicError bytes :=
  ok_or (write_pieces MQTT_TOPIC_MAX_LEN pieces) DeviceIdTooLong.
Definition status_topic (device_id : bytes) : result TopicError bytes :=
  topic_of [lit "motonet/"; device_id; lit "/status"].
Definition ota_command_topic (device_id : bytes) : result TopicError bytes :=
  topic_of [lit "motonet/"; device_id; lit "/cmd/ota"].
Definition ota_status_topic (device_id : bytes) : result TopicError bytes :=
  topic_of [lit "motonet/"; device_id; lit "/ota/status"].

(** ** Handing a manifest over *)

Record Publish := { topic : bytes; message : bytes; retain : bool }.

(** The events of the MQTT client; the acknowledgement of a subscription
    carries its packet identifier and whether it succeeded. *)
Inductive Event :=
| EventPublish (publish : Publish)
| Pingresp
| PublishAcknowledged
| Suback (packet_identifier : Z) (success : bool)
| Unsuback
| Ignored
| Duplicate
| PublishRejected
| PublishReceived
| PublishReleased
| PublishComplete.

Record IncomingOtaManifest := { im_bytes : bytes; im_retained : bool }.

Definition OTA_MANIFEST_MAX_BYTES : Z := MAX_MANIFEST_BYTES.

Definition copy_ota_manifest (publish : Publish) (ota_topic : bytes) : option IncomingOtaManifest :=
  if negb (bool_decide (topic publish = ota_topic)) then None
  else
    let payload := message publish in
    if negb (is_ota_manifest_payload_candidate (Z.of_nat (length payload))) then None
    else if OTA_MANIFEST_MAX_BYTES <? Z.of_nat (length payload) then None
    else
      owned ← write_pieces OTA_MANIFEST_MAX_BYTES [payload];
      Some {| im_bytes := owned; im_retained := retain publish |}.

Inductive MqttEventOutcome := Continue | ClearRetained | OtaForwarded.

Section Delivery.
Context `{SerdeJson} {V : Type} `{SignatureVerifier V}.
(** The key the build verifies manifests with. *)
Context (ota_manifest_verifier : V).

Definition resolve_ota_manifest_action (ota_state : OtaState) (retained : bool)
    (manifest_bytes : bytes) : OtaManifestDeliveryAction :=
  match classify_ota_manifest_delivery ota_state retained with
  | ClearRetainedOnly =>
      match parse_and_verify manifest_bytes ota_manifest_verifier with
      | Ok incoming => if force incoming then ForwardAndClearRetained else ClearRetainedOnly
      | Err _ => ClearRetainedOnly
      end
  | action => action
  end.

(** The outcome and what was sent to the OTA task. *)
Definition handle_mqtt_event (event : Event) (ota_topic : bytes) (ota_state : OtaState)
  : MqttEventOutcome * list bytes :=
  let manifest :=
    match event with
    | EventPublish publish => copy_ota_manifest publish ota_topic
    | _ => None
    end in
  match manifest with
  | None => (Continue, [])
  | Some manifest =>
      match resolve_ota_manifest_action ota_state (im_retained manifest) (im_bytes manifest) with
      | ForwardOnly => (OtaForwarded, [im_bytes manifest])
      | ForwardAndClearRetained => (OtaForwarded, [im_bytes manifest])
      | ClearRetainedOnly => (ClearRetained, [])
      end
  end.

(** The wait for the acknowledgement of the subscription, over the results
    of [client.poll()]: how it ends ([None] while it is still waiting),
    what was sent to the OTA task and how often the retained message was
    cleared. *)
Fixpoint subscribe_loop (packet_identifier : Z) (ota_topic : bytes) (ota_state : OtaState)
    (polls : list (option Event)) : option (result unit unit) * list bytes * nat :=
  match polls with
  | [] => (None, [], 0%nat)
  | None :: _ => (Some (Err tt), [], 0%nat)
  | Some event :: polls =>
      let continue_ := subscribe_loop packet_identifier ota_topic ota_state polls in
      match event with
      | Suback id success =>
          if id =? packet_identifier
          then (Some (if success then Ok tt else Err tt), [], 0%nat)
          else continue_
      | EventPublish publish =>
          match copy_ota_manifest publish ota_topic with
          | None => continue_
          | Some manifest =>
              match resolve_ota_manifest_action ota_state (im_retained manifest)
                      (im_bytes manifest) with
              | ForwardOnly | ForwardAndClearRetained =>
                  (Some (Err tt), [im_bytes manifest], 0%nat)
              | ClearRetainedOnly =>
                  let '(r, sent, cleared) := continue_ in (r, sent, S cleared)
              end
          end
      | _ => continue_
      end
  end.
End Delivery.

(** ** The OTA task *)

Inductive MqttHealth := Disconnected | HeartbeatPublished.

#[export] Instance MqttHealth_eq_dec : EqDecision MqttHealth.
Proof. solve_decision. Defined.

Definition MQTT_STANDDOWN_TIMEOUT_SECS : Z := 30.

(** The current value of the watch, then the values it takes before the
    timeout elapses. *)
Definition wait_for_mqtt_stand_down (current : option MqttHealth) (changes : list MqttHealth)
  : bool :=
  bool_decide (current = Some Disconnected)
  || existsb (fun h => bool_decide (h = Disconnected)) changes.

Inductive reaction := Rejected | Aborted | WriteFailed | Reset.

Section OtaTask.
Context {D R N : Type} `{OtaDevice D} `{BufRead R} `{HttpClient N R}.
Context `{Sha256} `{AesCtr} `{SerdeJson} {V : Type} `{SignatureVerifier V}.
Context (ota_manifest_verifier : V).
(** The build's secrets. *)
Context (OTA_TLS_ALLOW_INVALID_CA : bool)
        (OTA_TLS_CA_CERT_DER OTA_ASSET_TLS_CA_CERT_DER : bytes)
        (OTA_ENCRYPTION_MASTER_KEY : bytes) (OTA_ENCRYPTION_KEY_ID : Z).

(** One iteration of the task on a received command: how it ended, the
    states it published in order, and the world after it; [None] is a
    panic. A reset ends the program. *)
Definition ota_task_step (manifest_bytes : bytes) (health : option MqttHealth)
    (changes : list MqttHealth) (s : N * D) : option (reaction * list OtaState * (N * D)) :=
  match parse_and_verify manifest_bytes ota_manifest_verifier with
  | Err _ => Some (Rejected, [], s)
  | Ok manifest =>
      if negb (is_ok (validate_ota_url_policy (url manifest))) then Some (Rejected, [], s)
      else if negb (enc_key_id (enc manifest) =? OTA_ENCRYPTION_KEY_ID)
      then Some (Rejected, [], s)
      else if negb (wait_for_mqtt_stand_down health changes)
      then Some (Aborted, [Downloading; Inactive], s)
      else
        match download_and_write_to_flash OTA_TLS_ALLOW_INVALID_CA OTA_TLS_CA_CERT_DER
                OTA_ASSET_TLS_CA_CERT_DER manifest OTA_ENCRYPTION_MASTER_KEY s with
        | None => None
        | Some (Ok _, s) => Some (Reset, [Downloading; Applying], s)
        | Some (Err _, s) => Some (WriteFailed, [Downloading; Applying; Inactive], s)
        end
  end.
End OtaTask.

(** ** The confirmation task *)

Inductive OtaImageState := New | PendingVerify | Valid | Invalid | AbortedImage | Undefined.

(** The OTA data partition of the running image. *)
Class BootState (D : Type) := {
  boot_error : Type;
  boot_open : D -> result boot_error unit * D;
  current_ota_state : D -> result boot_error OtaImageState * D;
  set_current_valid : D -> result boot_error unit * D
}.

Definition CONFIRMATION_WINDOW_SECS : Z := 30.

Section Confirm.
Context {D : Type} `{BootState D}.

Definition is_pending (s : OtaImageState) : bool :=
  match s with New | PendingVerify => true | _ => false end.

Definition current_app_pending_confirmation (d : D) : result boot_error bool * D :=
  let (s, d) := current_ota_state d in
  (match s with Ok s => Ok (is_pending s) | Err e => Err e end, d).
Definition mark_current_app_valid (d : D) : result boot_error unit * D := set_current_valid d.

Definition boot_metadata_pending (d : D) : bool * D :=
  let (opened, d) := boot_open d in
  match opened with
  | Err _ => (false, d)
  | Ok _ =>
      let (pending, d) := current_app_pending_confirmation d in
      (match pending with Ok b => b | Err _ => false end, d)
  end.

(** The health loop: the health and the uptime in seconds each time the
    loop looks at them; [true] once the gate is passed. *)
Fixpoint health_gate (looks : list (option MqttHealth * Z)) : bool :=
  match looks with
  | [] => false
  | (health, secs) :: looks =>
      let elapsed := default (umax 32) (try_from_u 32 secs) in
      if bool_decide (default Disconnected health = HeartbeatPublished)
         && (CONFIRMATION_WINDOW_SECS <=? elapsed)
      then true else health_gate looks
  end.

(** The states it published, whether it announced the confirmation, and the
    flash after it; while the gate is closed the task is still waiting. *)
Definition ota_confirm_task (looks : list (option MqttHealth * Z)) (d : D)
  : list OtaState * bool * D :=
  let (pending, d) := boot_metadata_pending d in
  if negb pending then ([PendingConfirmation; Inactive], false, d)
  else if negb (health_gate looks) then ([PendingConfirmation], false, d)
  else
    let (opened, d) := boot_open d in
    match opened with
    | Err _ => ([PendingConfirmation], false, d)
    | Ok _ =>
        let (marked, d) := mark_current_app_valid d in
        match marked with
        | Err _ => ([PendingConfirmation], false, d)
        | Ok _ => ([PendingConfirmation; Inactive], true, d)
        end
    end.
End Confirm.

(** ** Properties *)

Section DeliveryProperties.
Context `{SerdeJson} {V : Type} `{SignatureVerifier V}.
Context (ota_manifest_verifier : V).

(** A payload the OTA task may be given: a manifest-sized, non-empty
    command, and while an image awaits its confirmation a retained one only
    if it is signed and forces the update. *)
Definition deliverable (ota_state : OtaState) (retained : bool) (payload : bytes) : Prop :=
  1 <= Z.of_nat (length payload) <= 1024 /\
  (ota_state = PendingConfirmation -> retained = true ->
   exists m, parse_and_verify payload ota_manifest_verifier = Ok m /\ force m = true).

Lemma copy_spec publish ota_topic im :
  copy_ota_manifest publish ota_topic = Some im <->
  topic publish = ota_topic /\ 1 <= Z.of_nat (length (message publish)) <= 1024 /\
  im = {| im_bytes := message publish; im_retained := retain publish |}.
Proof.
  unfold copy_ota_manifest, is_ota_manifest_payload_candidate, OTA_MANIFEST_MAX_BYTES,
    MAX_MANIFEST_BYTES.
  destruct (bool_decide (topic publish = ota_topic)) eqn:E1; cbn [negb]; bools;
    [|split; [done | by intros [? _]]].
  destruct (Z.of_nat (length (message publish)) =? 0) eqn:E2; cbn [negb]; bools;
    [split; [done|lia]|].
  destruct (1024 <? _) eqn:E3; bools; [split; [done|lia]|].
  rewrite write_one by done. cbn. split; [intros [= <-]; split_and!; (done || lia)|].
  by intros (_ & _ & ->).
Qed.

Lemma resolve_spec ota_state retained payload :
  resolve_ota_manifest_action ota_manifest_verifier ota_state retained payload
    <> ClearRetainedOnly <->
  (ota_state = PendingConfirmation -> retained = true ->
   exists m, parse_and_verify payload ota_manifest_verifier = Ok m /\ force m = true).
Proof.
  unfold resolve_ota_manifest_action, classify_ota_manifest_delivery.
  destruct ota_state, retained; try (split; [intros _ ??; done | intros _; done]).
  destruct (parse_and_verify payload ota_manifest_verifier) as [m|e]; [destruct (force m) eqn:Ef|];
    split; try done.
  - intros _ _ _. by exists m.
  - intros Hx. destruct (Hx eq_refl eq_refl) as (m' & [= <-] & Hf). congruence.
  - intros Hx. by destruct (Hx eq_refl eq_refl) as (m' & ? & _).
Qed.

Lemma copied_deliverable publish ota_topic im ota_state :
  copy_ota_manifest publish ota_topic = Some im ->
  resolve_ota_manifest_action ota_manifest_verifier ota_state (im_retained im) (im_bytes im)
    <> ClearRetainedOnly <->
  deliverable ota_state (retain publish) (message publish).
Proof.
  intros (_ & Hl & ->)%copy_spec. rewrite resolve_spec. cbn. unfold deliverable. tauto.
Qed.

Lemma handle_sends (ota_topic : bytes) (ota_state : OtaState) (event : Event) outcome sent p :
  handle_mqtt_event ota_manifest_verifier event ota_topic ota_state = (outcome, sent) ->
  sent = [p] <-> exists publish, event = EventPublish publish /\
     topic publish = ota_topic /\ message publish = p /\
     deliverable ota_state (retain publish) p.
Proof.
  intros Eh.
  unfold handle_mqtt_event in Eh. destruct event as [publish| | | | | | | | | |];
    try (injection Eh as <- <-; split; [done | by intros (? & ? & _)]).
  destruct (copy_ota_manifest publish ota_topic) as [im|] eqn:Ec.
  + pose proof (copied_deliverable _ _ _ ota_state Ec) as Hd.
    apply copy_spec in Ec as (Ht & Hl & ->). cbn in Eh, Hd.
    destruct (resolve_ota_manifest_action _ _ _ _); injection Eh as <- <-;
      (split; [intros Hp; first [injection Hp as <-; exists publish; split_and!; try done;
                                  by apply Hd | done]
              | intros (q & [= <-] & _ & <- & Hq); first [done | by apply Hd in Hq]]).
  + injection Eh as <- <-. split; [done|]. intros (q & [= <-] & Ht & <- & Hq & _).
    assert (copy_ota_manifest publish ota_topic
      = Some {| im_bytes := message publish; im_retained := retain publish |})
      by (by apply copy_spec). congruence.
Qed.

Lemma subscribe_sends (ota_topic : bytes) (ota_state : OtaState) (id : Z) polls r early cleared :
  subscribe_loop ota_manifest_verifier id ota_topic ota_state polls = (r, early, cleared) ->
  early = [] \/ exists publish, Some (EventPublish publish) ∈ polls /\
     topic publish = ota_topic /\ early = [message publish] /\ r = Some (Err tt) /\
     deliverable ota_state (retain publish) (message publish).
Proof.
  intros Es.
  revert r early cleared Es. induction polls as [|[event'|] polls IH]; intros r early cleared Es;
    [injection Es as <- <- <-; by left | | injection Es as <- <- <-; by left].
  assert (subscribe_loop ota_manifest_verifier id ota_topic ota_state polls = (r, early, cleared) ->
    early = [] \/ exists publish, Some (EventPublish publish) ∈ Some event' :: polls /\
      topic publish = ota_topic /\ early = [message publish] /\ r = Some (Err tt) /\
      deliverable ota_state (retain publish) (message publish)) as Hrec.
  { intros Hx. destruct (IH _ _ _ Hx) as [He|(q & Hq & Hr)]; [by left|right].
    exists q. split; [by apply list_elem_of_further | done]. }
  cbn [subscribe_loop] in Es. destruct event'; try (by apply Hrec).
  + destruct (copy_ota_manifest publish ota_topic) as [im|] eqn:Ec; [|by apply Hrec].
    pose proof (copied_deliverable _ _ _ ota_state Ec) as Hd.
    apply copy_spec in Ec as (Ht & Hl & ->). cbn in Es, Hd.
    destruct (resolve_ota_manifest_action _ _ _ _);
      [injection Es as <- <- <-; right; exists publish; split_and!;
         [apply list_elem_of_here | done.. | by apply Hd] | idtac | ].
    * injection Es as <- <- <-; right; exists publish; split_and!;
         [apply list_elem_of_here | done.. | by apply Hd].
    * destruct (subscribe_loop _ _ _ _ polls) as [[r' e'] c'] eqn:Ep. injection Es as <- <- <-.
      destruct (IH _ _ _ eq_refl) as [He|(q & Hq & Hr)]; [by left|right].
      exists q. split; [by apply list_elem_of_further | done].
  + destruct (packet_identifier =? id); [injection Es as <- <- <-; by left | by apply Hrec].
Qed.

(** the hand-over of OTA commands: while connected the MQTT task passes
    a payload to the OTA task exactly when it arrived on the device's
    command topic, is not empty and at most 1024 bytes long, and is not a
    retained command during post-reboot confirmation that lacks a verified
    [force]; and while it still waits for its subscription it passes at
    most one such payload, after which it gives the session up. *)
Theorem delivery_spec (ota_topic : bytes) (ota_state : OtaState) (event : Event) (id : Z)
    (polls : list (option Event)) :
  let '(outcome, sent) := handle_mqtt_event ota_manifest_verifier event ota_topic ota_state in
  let '(r, early, _) := subscribe_loop ota_manifest_verifier id ota_topic ota_state polls in
  (forall p, sent = [p] <-> exists publish, event = EventPublish publish /\
     topic publish = ota_topic /\ message publish = p /\
     deliverable ota_state (retain publish) p) /\
  (sent = [] \/ exists p, sent = [p] /\ outcome = OtaForwarded) /\
  (early = [] \/ exists publish, Some (EventPublish publish) ∈ polls /\
     topic publish = ota_topic /\ early = [message publish] /\ r = Some (Err tt) /\
     deliverable ota_state (retain publish) (message publish)).
Proof.
  destruct (handle_mqtt_event _ _ _ _) as [outcome sent] eqn:Eh.
  destruct (subscribe_loop _ _ _ _ _) as [[r early] cleared] eqn:Es.
  split; [|split].
  - intros p. by eapply handle_sends.
  - unfold handle_mqtt_event in Eh.
    destruct (match event with EventPublish _ => _ | _ => _ end) as [im|];
      [|injection Eh as <- <-; by left].
    destruct (resolve_ota_manifest_action _ _ _ _); injection Eh as <- <-; eauto.
  - by eapply subscribe_sends.
Qed.
End DeliveryProperties.

Section OtaTaskProperties.
Context {D R N : Type} `{OtaDeviceLaws D} `{BufRead R} `{HttpClient N R}.
Context `{Sha256Laws} `{AesCtrLaws} `{SerdeJson} {V : Type} `{SignatureVerifier V}.
Context (verifier : V) (allow_invalid_ca : bool) (ca_github ca_asset master_key : bytes)
        (key_id : Z).

Lemma verified_size manifest_bytes m :
  (forall m', from_slice manifest_bytes = Some m' -> ManifestTyped m') ->
  parse_and_verify manifest_bytes verifier = Ok m -> 1 <= image_size m < 2 ^ 32.
Proof.
  intros Ht Hp. unfold parse_and_verify, parse in Hp.
  destruct (_ <? _); [done|].
  destruct (from_slice manifest_bytes) as [m'|] eqn:E; [|done].
  specialize (Ht _ eq_refl). cbn in Hp. destruct (validate m') as [[]|] eqn:Ev; [|done].
  cbn in Hp. destruct (canonical_unsigned_json m'); [|done]. cbn in Hp.
  destruct (verify _ _ _ _); [|done]. apply ok_inj in Hp as <-.
  apply validate_spec in Ev; [|done]. pose proof (valid_image_size _ Ev).
  pose proof (typed_image_size _ Ht). num.
Qed.

(** C3: what one command can make the OTA task do. It never panics. It
    resets the device only when the command is a verified manifest with an
    allowed URL and the configured encryption key, MQTT was seen
    disconnected, and the boot selection is a partition bootable under that
    manifest; a rejected or aborted command leaves the world untouched; and
    unless it resets, the last state it publishes, if any, is Inactive. *)
Theorem ota_task_spec (manifest_bytes : bytes) (health : option MqttHealth)
    (changes : list MqttHealth) (n : N) (d : D)
    (Htyped : forall m, from_slice manifest_bytes = Some m -> ManifestTyped m) :
  exists how states n' d',
    ota_task_step verifier allow_invalid_ca ca_github ca_asset master_key key_id
      manifest_bytes health changes (n, d) = Some (how, states, (n', d')) /\
    (how = Reset -> exists m,
       parse_and_verify manifest_bytes verifier = Ok m /\
       is_ok (validate_ota_url_policy (url m)) = true /\ enc_key_id (enc m) = key_id /\
       (health = Some Disconnected \/ Disconnected ∈ changes) /\
       bootable m master_key (boot_image d')) /\
    (how = Rejected \/ how = Aborted -> (n', d') = (n, d)) /\
    (states = match how with
              | Rejected => [] | Aborted => [Downloading; Inactive]
              | WriteFailed => [Downloading; Applying; Inactive]
              | Reset => [Downloading; Applying]
              end).
Proof.
  unfold ota_task_step.
  destruct (parse_and_verify manifest_bytes verifier) as [m|e] eqn:Ep.
  2:{ exists Rejected, [], n, d. by split_and!. }
  destruct (is_ok (validate_ota_url_policy (url m))) eqn:Eu; cbn [negb].
  2:{ exists Rejected, [], n, d. by split_and!. }
  destruct (Z.eqb_spec (enc_key_id (enc m)) key_id) as [Ek|]; cbn [negb].
  2:{ exists Rejected, [], n, d. by split_and!. }
  destruct (wait_for_mqtt_stand_down health changes) eqn:Ew; cbn [negb].
  2:{ exists Aborted, [Downloading; Inactive], n, d. by split_and!. }
  pose proof (verified_size _ _ Htyped Ep) as Hsize.
  destruct (wp_some _ _ _ (download_wp allow_invalid_ca ca_github ca_asset m master_key n d Hsize))
    as (res & [n' d'] & Hr & _ & Hb).
  rewrite Hr. destruct res as [[]|e].
  - exists Reset, [Downloading; Applying], n', d'. split_and!; [done | | by intros [|] | done].
    intros _. exists m. split_and!; [done | done | done | | by apply Hb].
    unfold wait_for_mqtt_stand_down in Ew. apply orb_true_iff in Ew as [Ew|Ew]; bools; [by left|].
    right. apply existsb_exists in Ew as (h & Hh & Eh). bools. subst. by apply list_elem_of_In.
  - exists WriteFailed, [Downloading; Applying; Inactive], n', d'.
    split_and!; [done | done | by intros [|] | done].
Qed.
End OtaTaskProperties.

(** Reading the boot state does not change it. *)
Class BootStateLaws (D : Type) `{BootState D} := {
  image_state : D -> OtaImageState;
  boot_open_keeps d r d' : boot_open d = (r, d') -> image_state d' = image_state d;
  current_ota_state_spec d r d' : current_ota_state d = (r, d') ->
    image_state d' = image_state d /\ (forall s, r = Ok s -> s = image_state d);
  set_current_valid_spec d d' : set_current_valid d = (Ok tt, d') -> image_state d' = Valid
}.

Section ConfirmProperties.
Context {D : Type} `{BootStateLaws D}.

Lemma health_gate_spec looks :
  health_gate looks = true <->
  exists secs, (Some HeartbeatPublished, secs) ∈ looks /\ (30 <= secs \/ secs < 0).
Proof.
  induction looks as [|[h secs] looks IH]; cbn [health_gate].
  { split; [done | by intros (? & Hin%elem_of_nil & _)]. }
  destruct (bool_decide _ && _) eqn:E.
  - split; [intros _|done]. bools. exists secs.
    destruct h as [h|]; [|done]. cbn in *. subst. split; [apply list_elem_of_here|].
    unfold try_from_u, CONFIRMATION_WINDOW_SECS in *.
    destruct ((0 <=? secs) && (secs <=? umax 32)) eqn:Et; cbn in *; bools; [by left|].
    apply andb_false_iff in Et as [Et|Et]; bools; [by right | left; num].
  - rewrite IH. split; intros (t & Ht & Hs); exists t; (split; [|done]).
    + by apply list_elem_of_further.
    + apply elem_of_cons in Ht as [[= <- <-]|Ht]; [|done].
      rewrite bool_decide_eq_true_2 in E by done. cbn [andb] in E.
      unfold try_from_u, CONFIRMATION_WINDOW_SECS in E. exfalso.
      destruct ((0 <=? t) && (t <=? umax 32)) eqn:Et; cbn in E; bools; [lia|].
      change (umax 32) with 4294967295 in E. lia.
Qed.

(** Some look at the health signal saw a published heartbeat 30 seconds after
    the warm-up or later. *)
Definition gate_seen (looks : list (option MqttHealth * Z)) : Prop :=
  exists secs, (Some HeartbeatPublished, secs) ∈ looks /\ 30 <= secs.

Lemma health_gate_seen looks : Forall (fun look => 0 <= look.2) looks ->
  health_gate looks = true <-> gate_seen looks.
Proof.
  intros Hup. rewrite health_gate_spec. rewrite Forall_forall in Hup.
  split; intros (secs & Hin & Hs); exists secs; (split; [done|]);
    specialize (Hup _ Hin); cbn in Hup; lia.
Qed.

Lemma boot_metadata_pending_spec d p d' : boot_metadata_pending d = (p, d') ->
  image_state d' = image_state d /\ (p = true -> is_pending (image_state d) = true).
Proof.
  unfold boot_metadata_pending, current_app_pending_confirmation.
  destruct (boot_open d) as [[u|e] d1] eqn:E1; [|intros [= <- <-]; apply boot_open_keeps in E1; done].
  apply boot_open_keeps in E1. destruct (current_ota_state d1) as [s d2] eqn:E2.
  apply current_ota_state_spec in E2 as [K2 V2]. intros [= <- <-]. split; [congruence|].
  destruct s as [s|e]; [|done]. intros Hp. by rewrite <- E1, <- (V2 s eq_refl).
Qed.

(** No access to the boot metadata fails. *)
Definition MetadataWorks : Prop := forall d : D,
  is_ok (boot_open d).1 = true /\ is_ok (current_ota_state d).1 = true /\
  is_ok (set_current_valid d).1 = true.

Lemma boot_metadata_pending_works d : MetadataWorks ->
  (boot_metadata_pending d).1 = is_pending (image_state d).
Proof.
  intros Hw. destruct (Hw d) as (Hopen & _). unfold boot_metadata_pending, current_app_pending_confirmation.
  destruct (boot_open d) as [[u|e] d1] eqn:E1; [|done]. apply boot_open_keeps in E1.
  destruct (Hw d1) as (_ & Hread & _). destruct (current_ota_state d1) as [[s|e] d2] eqn:E2; [|done].
  apply current_ota_state_spec in E2 as [_ V2]. cbn. by rewrite <- E1, <- (V2 s eq_refl).
Qed.

(** C33: the confirmation task. It leaves the state of the image as it found
    it unless the bootloader had the image as new or pending and some look at
    the health signal saw a published heartbeat 30 seconds after the warm-up
    or later; nothing pending, it goes from pending confirmation to inactive,
    and with a closed gate it stays at pending confirmation. It announces the
    confirmation only when it has marked the image as valid, and sets the
    state to inactive only then or with the image untouched. As long as no
    access to the boot metadata fails, a pending image with an open gate is
    marked and announced. *)
Theorem ota_confirm_spec (looks : list (option MqttHealth * Z)) (d : D)
    (Huptime : Forall (fun look => 0 <= look.2) looks) :
  let '(states, confirmed, d') := ota_confirm_task looks d in
  (image_state d' <> image_state d -> is_pending (image_state d) = true /\ gate_seen looks) /\
  (confirmed = true ->
     is_pending (image_state d) = true /\ gate_seen looks /\ image_state d' = Valid /\
     states = [PendingConfirmation; Inactive]) /\
  (is_pending (image_state d) = false -> states = [PendingConfirmation; Inactive]) /\
  (confirmed = false -> Inactive ∈ states -> image_state d' = image_state d) /\
  (MetadataWorks -> is_pending (image_state d) = true ->
     (gate_seen looks -> confirmed = true) /\ (~ gate_seen looks -> states = [PendingConfirmation])).
Proof.
  pose proof (health_gate_seen looks Huptime) as Hgate.
  pose proof (boot_metadata_pending_works d) as Hworks. unfold ota_confirm_task, mark_current_app_valid.
  destruct (boot_metadata_pending d) as [p d1] eqn:E1.
  apply boot_metadata_pending_spec in E1 as [K1 V1]. cbn in Hworks.
  assert (Inactive ∉ [PendingConfirmation]) as Hnot by (intros Hin%list_elem_of_singleton; done).
  destruct p; cbn [negb].
  2:{ split_and!; [done.. | intros Hw Hp; specialize (Hworks Hw); congruence]. }
  pose proof (V1 eq_refl) as Hp. destruct (health_gate looks); cbn [negb].
  2:{ assert (~ gate_seen looks) by (intros Hg; by apply Hgate in Hg).
      by split_and!; [| |congruence|..]. }
  assert (gate_seen looks) as Hseen by (by apply Hgate).
  destruct (boot_open d1) as [[u|e] d2] eqn:E2; cbn.
  2:{ split_and!; try done; [congruence|]. intros Hw _. destruct (Hw d1) as [Ho _]. by rewrite E2 in Ho. }
  destruct (set_current_valid d2) as [[[]|e] d3] eqn:E3.
  - apply set_current_valid_spec in E3. by split_and!.
  - split_and!; try done; [congruence|]. intros Hw _. destruct (Hw d2) as (_ & _ & Hs). by rewrite E3 in Hs.
Qed.
End ConfirmProperties.

(** ** A command that updates the device *)
Module Sample.
Export OtaFlash.Sample.

(** The update of the flash example, signed. *)
Definition command : bytes := lit "update".
Definition signed : OtaManifest :=
  {| schema := schema small; key_id := key_id small; target := target small; chip := chip small;
     version := version small; build := build small; force := force small; url := url small;
     download_size := download_size small; image_size := image_size small;
     image_sha256 := image_sha256 small; enc := enc small;
     signature := hex_encode (replicate 64 0) |}.
#[export] Instance command_json : SerdeJson := {|
  from_slice := fun text => if bool_decide (text = command) then Some signed else None;
  to_string := @to_string sample_json
|}.

Lemma command_typed m : from_slice command = Some m -> ManifestTyped m.
Proof. cbn. intros [= <-]. split; by apply (bool_decide_eq_true_1 _). Qed.

Definition outcome (o : option (reaction * list OtaState * (requests * sim_device)))
  : option (reaction * bool) :=
  match o with
  | Some (how, _, (_, d)) => Some (how, bool_decide (take 16 (sim_boot d) = image))
  | None => None
  end.

(** The command resets the device into the new image, once MQTT is
    disconnected; for another key it is rejected. *)
Example command_runs :
  outcome (ota_task_step tt false [1] [2] master 7 command (Some HeartbeatPublished)
    [HeartbeatPublished; Disconnected] ([], blank)) = Some (Reset, true).
Proof. vm_compute. reflexivity. Qed.

Definition how_of (o : option (reaction * list OtaState * (requests * sim_device))) : reaction :=
  match o with Some (how, _, _) => how | None => Rejected end.
Lemma how_reset :
  how_of (ota_task_step tt false [1] [2] master 7 command (Some HeartbeatPublished)
    [HeartbeatPublished; Disconnected] ([] : requests, blank)) = Reset.
Proof. vm_compute. reflexivity. Qed.

Example ota_task_spec_witness :
  exists states (n' : requests) (d' : sim_device) m,
    ota_task_step tt false [1] [2] master 7 command (Some HeartbeatPublished)
      [HeartbeatPublished; Disconnected] ([], blank) = Some (Reset, states, (n', d')) /\
    states = [Downloading; Applying] /\ bootable m master (sim_boot d').
Proof.
  destruct (ota_task_spec tt false [1] [2] master 7 command (Some HeartbeatPublished)
    [HeartbeatPublished; Disconnected] ([] : requests) blank command_typed)
    as (how & states & n' & d' & Hrun & Hreset & _ & Hstates).
  pose proof (eq_trans (eq_sym (f_equal how_of Hrun)) how_reset) as Hr. cbn [how_of] in Hr.
  subst how. destruct (Hreset eq_refl) as (m & _ & _ & _ & _ & Hboot).
  exists states, n', d', m. split; [exact Hrun|]. split; [exact Hstates | exact Hboot].
Defined.

#[export] Instance cell : BootState OtaImageState := {
  boot_error := unit;
  boot_open s := (Ok tt, s);
  current_ota_state s := (Ok s, s);
  set_current_valid _ := (Ok tt, Valid)
}.
#[export] Instance cell_laws : BootStateLaws OtaImageState.
Proof.
  refine {| image_state := fun s => s |}.
  - intros d r d' Hd. by injection Hd as _ <-.
  - intros d r d' Hd. injection Hd as <- <-. split; [done|]. intros s Hs. by apply ok_inj in Hs.
  - intros d d' Hd. by injection Hd as <-.
Defined.

Definition looks : list (option MqttHealth * Z) :=
  [(Some Disconnected, 1); (Some HeartbeatPublished, 12); (Some HeartbeatPublished, 30)].

Example ota_confirm_spec_witness :
  exists states (d' : OtaImageState), ota_confirm_task looks PendingVerify = (states, true, d') /\
    d' = Valid /\ gate_seen looks.
Proof.
  assert (Forall (fun look => 0 <= look.2) looks) as Hup by (repeat constructor; cbn; lia).
  pose proof (ota_confirm_spec looks PendingVerify Hup) as Hc.
  change (ota_confirm_task looks PendingVerify)
    with ([PendingConfirmation; Inactive], true, Valid) in *.
  destruct Hc as (_ & Hc & _). destruct (Hc eq_refl) as (_ & Hgate & Hv & _).
  exists [PendingConfirmation; Inactive], Valid. split; [reflexivity|]. split; [exact Hv | exact Hgate].
Defined.
End Sample.
