(* ===== verification/Settings.v ===== *)
(** * Applied and persisted settings

    [firmware/src/radio_settings.rs], [firmware/src/power/] and the control
    dispatch of [firmware/src/app_bus.rs]: the settings of the radio and of
    the power policy as they are applied at run time, kept in RTC memory over
    deep sleep and restored at boot, and the decision to sleep. The state is
    the two RTC words, the power atomics and the two settings watches; time
    is read as an argument. *)
From S2P Require Import Prelude ConfigRules RtcSchema Messages Rubicson OtaTasks.

(** ** State *)

Record Device := {
  PERSISTED_RADIO_SETTINGS_WORD : Z;
  PERSISTED_POWER_WORD : Z;
  PREDICTIVE_SLEEP_ENABLED : bool;
  SLEEP_DURATION_SECS : Z;
  UI_IDLE_TIMEOUT_SECS : Z;
  UI_IDLE_DEADLINE_SECS : Z;
  RADIO_SETTINGS_WATCH : option RadioSettings;
  POWER_SETTINGS_WATCH : option PowerSettings
}.

Definition set_radio_word (d : Device) (w : Z) : Device :=
  {| PERSISTED_RADIO_SETTINGS_WORD := w; PERSISTED_POWER_WORD := PERSISTED_POWER_WORD d;
     PREDICTIVE_SLEEP_ENABLED := PREDICTIVE_SLEEP_ENABLED d;
     SLEEP_DURATION_SECS := SLEEP_DURATION_SECS d; UI_IDLE_TIMEOUT_SECS := UI_IDLE_TIMEOUT_SECS d;
     UI_IDLE_DEADLINE_SECS := UI_IDLE_DEADLINE_SECS d;
     RADIO_SETTINGS_WATCH := RADIO_SETTINGS_WATCH d; POWER_SETTINGS_WATCH := POWER_SETTINGS_WATCH d |}.
Definition set_power_word (d : Device) (w : Z) : Device :=
  {| PERSISTED_RADIO_SETTINGS_WORD := PERSISTED_RADIO_SETTINGS_WORD d; PERSISTED_POWER_WORD := w;
     PREDICTIVE_SLEEP_ENABLED := PREDICTIVE_SLEEP_ENABLED d;
     SLEEP_DURATION_SECS := SLEEP_DURATION_SECS d; UI_IDLE_TIMEOUT_SECS := UI_IDLE_TIMEOUT_SECS d;
     UI_IDLE_DEADLINE_SECS := UI_IDLE_DEADLINE_SECS d;
     RADIO_SETTINGS_WATCH := RADIO_SETTINGS_WATCH d; POWER_SETTINGS_WATCH := POWER_SETTINGS_WATCH d |}.
Definition set_atomics (d : Device) (s : PowerSettings) (deadline : Z) : Device :=
  {| PERSISTED_RADIO_SETTINGS_WORD := PERSISTED_RADIO_SETTINGS_WORD d;
     PERSISTED_POWER_WORD := PERSISTED_POWER_WORD d;
     PREDICTIVE_SLEEP_ENABLED := predictive_sleep_enabled s;
     SLEEP_DURATION_SECS := sleep_duration_secs s; UI_IDLE_TIMEOUT_SECS := ui_idle_timeout_secs s;
     UI_IDLE_DEADLINE_SECS := deadline;
     RADIO_SETTINGS_WATCH := RADIO_SETTINGS_WATCH d; POWER_SETTINGS_WATCH := POWER_SETTINGS_WATCH d |}.
Definition send_radio (d : Device) (s : RadioSettings) : Device :=
  {| PERSISTED_RADIO_SETTINGS_WORD := PERSISTED_RADIO_SETTINGS_WORD d;
     PERSISTED_POWER_WORD := PERSISTED_POWER_WORD d;
     PREDICTIVE_SLEEP_ENABLED := PREDICTIVE_SLEEP_ENABLED d;
     SLEEP_DURATION_SECS := SLEEP_DURATION_SECS d; UI_IDLE_TIMEOUT_SECS := UI_IDLE_TIMEOUT_SECS d;
     UI_IDLE_DEADLINE_SECS := UI_IDLE_DEADLINE_SECS d;
     RADIO_SETTINGS_WATCH := Some s; POWER_SETTINGS_WATCH := POWER_SETTINGS_WATCH d |}.
Definition send_power (d : Device) (s : PowerSettings) : Device :=
  {| PERSISTED_RADIO_SETTINGS_WORD := PERSISTED_RADIO_SETTINGS_WORD d;
     PERSISTED_POWER_WORD := PERSISTED_POWER_WORD d;
     PREDICTIVE_SLEEP_ENABLED := PREDICTIVE_SLEEP_ENABLED d;
     SLEEP_DURATION_SECS := SLEEP_DURATION_SECS d; UI_IDLE_TIMEOUT_SECS := UI_IDLE_TIMEOUT_SECS d;
     UI_IDLE_DEADLINE_SECS := UI_IDLE_DEADLINE_SECS d;
     RADIO_SETTINGS_WATCH := RADIO_SETTINGS_WATCH d; POWER_SETTINGS_WATCH := Some s |}.

(** ** Radio settings ([radio_settings.rs]) *)

Definition radio_to_rtc_payload (settings : RadioSettings) : RadioSettingsPayload := {|
  rp_detection_threshold_db := detection_threshold_db settings;
  rp_magn_target := magn_target settings;
  rp_channel_bandwidth_index := channel_bandwidth_index settings;
  rp_carrier_sense_threshold := carrier_sense_threshold settings |}.
Definition radio_from_rtc_payload (payload : RadioSettingsPayload) : RadioSettings := {|
  detection_threshold_db := rp_detection_threshold_db payload;
  magn_target := rp_magn_target payload;
  channel_bandwidth_index := rp_channel_bandwidth_index payload;
  carrier_sense_threshold := rp_carrier_sense_threshold payload |}.
Definition radio_clamp_settings (settings : RadioSettings) : RadioSettings :=
  clamp_radio_config settings.

Definition radio_persist_settings (settings : RadioSettings) (d : Device) : Device :=
  let clamped := radio_clamp_settings settings in
  set_radio_word d (encode_radio_settings (radio_to_rtc_payload clamped)).

Definition load_settings (d : Device) : option RadioSettings * Device :=
  match decode_radio_settings (PERSISTED_RADIO_SETTINGS_WORD d) with
  | Ok decoded =>
      let settings := radio_clamp_settings (radio_from_rtc_payload (value decoded)) in
      let d :=
        if bool_decide (settings <> radio_from_rtc_payload (value decoded))
        then set_radio_word d (encode_radio_settings (radio_to_rtc_payload settings)) else d in
      (Some settings, d)
  | Err _ => (None, d)
  end.
Definition radio_load_settings_or_default (d : Device) : RadioSettings * Device :=
  let (settings, d) := load_settings d in (default DEFAULT_RADIO_SETTINGS settings, d).

(** ** Power settings ([power/]) *)

(** [mod.rs]; [clamp] with constant bounds that do not cross. *)
Definition load_ui_idle_timeout_secs (d : Device) : Z :=
  clamp POWER_UI_IDLE_TIMEOUT_MIN_SECS POWER_UI_IDLE_TIMEOUT_MAX_SECS (UI_IDLE_TIMEOUT_SECS d).
Definition load_sleep_duration_secs (d : Device) : Z :=
  clamp POWER_SLEEP_DURATION_MIN_SECS POWER_SLEEP_DURATION_MAX_SECS (SLEEP_DURATION_SECS d).
(** [Instant::now().as_secs()] as a [u32]. *)
Definition now_secs (instant_secs : Z) : Z := default (umax 32) (try_from_u 32 instant_secs).
Definition set_deadline (d : Device) (deadline : Z) : Device :=
  {| PERSISTED_RADIO_SETTINGS_WORD := PERSISTED_RADIO_SETTINGS_WORD d;
     PERSISTED_POWER_WORD := PERSISTED_POWER_WORD d;
     PREDICTIVE_SLEEP_ENABLED := PREDICTIVE_SLEEP_ENABLED d;
     SLEEP_DURATION_SECS := SLEEP_DURATION_SECS d; UI_IDLE_TIMEOUT_SECS := UI_IDLE_TIMEOUT_SECS d;
     UI_IDLE_DEADLINE_SECS := deadline;
     RADIO_SETTINGS_WATCH := RADIO_SETTINGS_WATCH d; POWER_SETTINGS_WATCH := POWER_SETTINGS_WATCH d |}.
Definition rearm_ui_idle_deadline (instant_secs : Z) (d : Device) : Device :=
  set_deadline d (sat_add 32 (now_secs instant_secs) (load_ui_idle_timeout_secs d)).
Definition power_clamp_settings (settings : PowerSettings) : PowerSettings :=
  clamp_power_config settings.

(** [persistence.rs]. *)
Definition power_to_rtc_payload (settings : PowerSettings) : PowerSettingsPayload := {|
  pp_predictive_sleep_enabled := predictive_sleep_enabled settings;
  pp_sleep_duration_secs := sleep_duration_secs settings;
  pp_ui_idle_timeout_secs := ui_idle_timeout_secs settings |}.
Definition power_from_rtc_payload (payload : PowerSettingsPayload) : PowerSettings := {|
  predictive_sleep_enabled := pp_predictive_sleep_enabled payload;
  sleep_duration_secs := pp_sleep_duration_secs payload;
  ui_idle_timeout_secs := pp_ui_idle_timeout_secs payload |}.
Definition settings_within_bounds (settings : PowerSettings) : bool :=
  between POWER_SLEEP_DURATION_MIN_SECS POWER_SLEEP_DURATION_MAX_SECS (sleep_duration_secs settings)
  && between POWER_UI_IDLE_TIMEOUT_MIN_SECS POWER_UI_IDLE_TIMEOUT_MAX_SECS
       (ui_idle_timeout_secs settings).
Definition power_persist_settings (settings : PowerSettings) (d : Device) : Device :=
  set_power_word d (encode_power_settings (power_to_rtc_payload (power_clamp_settings settings))).
Definition power_load_settings_or_default (d : Device) : PowerSettings * Device :=
  match decode_power_settings (PERSISTED_POWER_WORD d) with
  | Ok decoded =>
      let settings := power_from_rtc_payload (value decoded) in
      if settings_within_bounds settings then
        let d :=
          if needs_migration decoded
          then set_power_word d (encode_power_settings (value decoded)) else d in
        (settings, d)
      else (DEFAULT_POWER_SETTINGS, d)
  | Err _ => (DEFAULT_POWER_SETTINGS, d)
  end.

(** [policy.rs]. *)
Definition is_ota_sleep_blocked (state : OtaState) : bool := negb (bool_decide (state = Inactive)).
Definition is_ota_update_in_progress (state : OtaState) : bool :=
  match state with Downloading | Applying => true | _ => false end.

Definition apply_settings (settings : PowerSettings) (persist rearm_idle_countdown : bool)
    (instant_secs : Z) (d : Device) : Device :=
  let clamped := power_clamp_settings settings in
  let current_deadline := UI_IDLE_DEADLINE_SECS d in
  let d := set_atomics d clamped current_deadline in
  let d := if persist then power_persist_settings clamped d else d in
  let now := now_secs instant_secs in
  let next_deadline := next_ui_idle_deadline_secs (predictive_sleep_enabled clamped)
    rearm_idle_countdown now current_deadline (ui_idle_timeout_secs clamped) in
  set_deadline d next_deadline.
Definition set_settings (settings : PowerSettings) : Z -> Device -> Device :=
  apply_settings settings true true.
Definition restore_settings_after_reset (settings : PowerSettings) : Z -> Device -> Device :=
  apply_settings settings false false.
Definition get_settings (d : Device) : PowerSettings := {|
  predictive_sleep_enabled := PREDICTIVE_SLEEP_ENABLED d;
  sleep_duration_secs := load_sleep_duration_secs d;
  ui_idle_timeout_secs := load_ui_idle_timeout_secs d |}.
Definition notify_ui_activity (instant_secs : Z) (d : Device) : Device :=
  if PREDICTIVE_SLEEP_ENABLED d then rearm_ui_idle_deadline instant_secs d else d.

(** The time of the deep sleep entered, if one is; the outer [None] is a
    panic. *)
Definition maybe_sleep_after_publish (queue_empty : bool) (time_since_measurement : Duration)
    (ota_state : OtaState) (instant_secs : Z) (d : Device) : option (option Z) :=
  let settings := get_settings d in
  let now := now_secs instant_secs in
  let idle_deadline := UI_IDLE_DEADLINE_SECS d in
  if is_ota_sleep_blocked ota_state then Some None
  else
    decision ← predictive_sleep_decision queue_empty time_since_measurement
      (predictive_sleep_enabled settings) (sleep_duration_secs settings) now
      (is_ota_update_in_progress ota_state) idle_deadline;
    Some match decision with Sleep sleep_secs => Some sleep_secs | _ => None end.

(** ** Control dispatch ([app_bus.rs]) *)

Inductive AppCommand :=
| ApplySettings (radio : RadioSettings) (power : PowerSettings)
| PublishTelemetry (reading : RadioReading)
| OtaConfirmed.

Inductive ControlDispatch :=
| DispatchSettings (radio : RadioSettings) (power : PowerSettings)
| Ignore.

Definition classify_control_dispatch (command : AppCommand) : ControlDispatch :=
  match command with
  | ApplySettings radio power => DispatchSettings radio power
  | PublishTelemetry _ | OtaConfirmed => Ignore
  end.

(** One iteration of [app_command_dispatch_task]. *)
Definition dispatch (command : AppCommand) (instant_secs : Z) (d : Device) : Device :=
  match classify_control_dispatch command with
  | DispatchSettings radio power_settings =>
      let d := send_radio d radio in
      let d := radio_persist_settings radio d in
      let d := send_power d power_settings in
      set_settings power_settings instant_secs d
  | Ignore => d
  end.

(** ** Boot ([startup/hw_context.rs])

    Deep sleep keeps the RTC words; everything else starts from its
    initialiser. *)
Definition after_reset (d : Device) : Device :=
  {| PERSISTED_RADIO_SETTINGS_WORD := PERSISTED_RADIO_SETTINGS_WORD d;
     PERSISTED_POWER_WORD := PERSISTED_POWER_WORD d;
     PREDICTIVE_SLEEP_ENABLED := predictive_sleep_enabled DEFAULT_POWER_SETTINGS;
     SLEEP_DURATION_SECS := sleep_duration_secs DEFAULT_POWER_SETTINGS;
     UI_IDLE_TIMEOUT_SECS := ui_idle_timeout_secs DEFAULT_POWER_SETTINGS;
     UI_IDLE_DEADLINE_SECS := 0;
     RADIO_SETTINGS_WATCH := None; POWER_SETTINGS_WATCH := None |}.
Definition boot (instant_secs : Z) (d : Device) : Device :=
  let (initial_power_settings, d) := power_load_settings_or_default d in
  let d := restore_settings_after_reset initial_power_settings instant_secs d in
  let d := send_power d initial_power_settings in
  let (initial_radio_settings, d) := radio_load_settings_or_default d in
  send_radio d initial_radio_settings.

(** ** Properties *)

Lemma radio_fits s : RadioInBounds s -> RadioPayloadFits (radio_to_rtc_payload s).
Proof. intros (Hd & Hm & Hc & Hs). unfold RadioPayloadFits. cbn. num. Qed.

Lemma power_fits s : PowerInBounds s -> PowerPayloadFits (power_to_rtc_payload s).
Proof. intros (Hd & Hu). unfold PowerPayloadFits. cbn. num. Qed.

Lemma within_bounds_spec s : settings_within_bounds s = true <-> PowerInBounds s.
Proof.
  unfold settings_within_bounds, between, PowerInBounds, POWER_SLEEP_DURATION_MIN_SECS,
    POWER_SLEEP_DURATION_MAX_SECS, POWER_UI_IDLE_TIMEOUT_MIN_SECS, POWER_UI_IDLE_TIMEOUT_MAX_SECS.
  rewrite !andb_true_iff, !Z.leb_le. lia.
Qed.

Lemma default_in_bounds : RadioInBounds DEFAULT_RADIO_SETTINGS /\ PowerInBounds DEFAULT_POWER_SETTINGS.
Proof.
  split; [split; [by left|]|]; split_and!; apply Z.leb_le; reflexivity.
Qed.

Lemma get_settings_bounds d : PowerInBounds (get_settings d).
Proof.
  unfold PowerInBounds, get_settings, load_sleep_duration_secs, load_ui_idle_timeout_secs. cbn.
  rules. lia.
Qed.

Lemma get_set_atomics d s deadline :
  PowerInBounds s -> get_settings (set_atomics d s deadline) = s.
Proof.
  intros [Hs Hu]. destruct s as [e sl ui]. unfold get_settings, load_sleep_duration_secs,
    load_ui_idle_timeout_secs. cbn in *. rules. f_equal; lia.
Qed.

Lemma load_after_persist_radio d s :
  PERSISTED_RADIO_SETTINGS_WORD d = encode_radio_settings (radio_to_rtc_payload s) ->
  RadioInBounds s -> load_settings d = (Some s, d).
Proof.
  intros Hw Hs. unfold load_settings. rewrite Hw, decode_encode_radio by (by apply radio_fits).
  cbn [value]. assert (radio_from_rtc_payload (radio_to_rtc_payload s) = s) as -> by (by destruct s).
  unfold radio_clamp_settings. rewrite clamp_radio_fixed by done.
  by rewrite bool_decide_eq_false_2 by naive_solver.
Qed.

Lemma load_after_persist_power d s :
  PERSISTED_POWER_WORD d = encode_power_settings (power_to_rtc_payload s) ->
  PowerInBounds s -> power_load_settings_or_default d = (s, d).
Proof.
  intros Hw Hs. unfold power_load_settings_or_default.
  rewrite Hw, decode_encode_power by (by apply power_fits). cbn [value needs_migration].
  assert (power_from_rtc_payload (power_to_rtc_payload s) = s) as -> by (by destruct s).
  by rewrite (proj2 (within_bounds_spec s)).
Qed.

(** What loading yields from any word at all: settings in bounds, and a word
    from which the same settings are loaded again. *)
Lemma load_power_stable d :
  let '(s, d') := power_load_settings_or_default d in
  PowerInBounds s /\ PERSISTED_RADIO_SETTINGS_WORD d' = PERSISTED_RADIO_SETTINGS_WORD d /\
  forall d'', PERSISTED_POWER_WORD d'' = PERSISTED_POWER_WORD d' ->
    (power_load_settings_or_default d'').1 = s.
Proof.
  destruct (power_load_settings_or_default d) as [s d'] eqn:E.
  pose proof default_in_bounds as [_ Hd].
  unfold power_load_settings_or_default in E.
  destruct (decode_power_settings (PERSISTED_POWER_WORD d)) as [decoded|e] eqn:Ed.
  - destruct (settings_within_bounds _) eqn:Eb.
    + destruct (needs_migration decoded) eqn:Em; injection E as <- <-.
      * apply within_bounds_spec in Eb. split; [done|]. split; [done|].
        intros d'' Hw. rewrite (load_after_persist_power d'' (power_from_rtc_payload (value decoded)));
          [done | | done]. rewrite Hw. cbn. by destruct (value decoded).
      * split; [by apply within_bounds_spec|]. split; [done|]. intros d'' Hw.
        unfold power_load_settings_or_default. by rewrite Hw, Ed, Eb.
    + injection E as <- <-. split; [done|]. split; [done|]. intros d'' Hw.
      unfold power_load_settings_or_default. by rewrite Hw, Ed, Eb.
  - injection E as <- <-. split; [done|]. split; [done|]. intros d'' Hw.
    unfold power_load_settings_or_default. by rewrite Hw, Ed.
Qed.

Lemma load_radio_stable d :
  let '(s, d') := radio_load_settings_or_default d in
  RadioInBounds s /\ PERSISTED_POWER_WORD d' = PERSISTED_POWER_WORD d /\
  forall d'', PERSISTED_RADIO_SETTINGS_WORD d'' = PERSISTED_RADIO_SETTINGS_WORD d' ->
    (radio_load_settings_or_default d'').1 = s.
Proof.
  destruct (radio_load_settings_or_default d) as [s d'] eqn:E.
  pose proof default_in_bounds as [Hd _].
  unfold radio_load_settings_or_default, load_settings in E.
  destruct (decode_radio_settings (PERSISTED_RADIO_SETTINGS_WORD d)) as [decoded|e] eqn:Ed.
  - set (c := radio_clamp_settings _) in *.
    assert (RadioInBounds c) as Hc by apply clamp_radio_bounds.
    destruct (bool_decide (c <> _)) eqn:Eb; cbn [default] in E; injection E as <- <-.
    + split; [done|]. split; [done|]. intros d'' Hw. unfold radio_load_settings_or_default.
      by rewrite (load_after_persist_radio d'' c).
    + split; [done|]. split; [done|]. intros d'' Hw.
      unfold radio_load_settings_or_default, load_settings. rewrite Hw, Ed. fold c.
      by destruct (bool_decide _).
  - injection E as <- <-. split; [done|]. split; [done|]. intros d'' Hw.
    unfold radio_load_settings_or_default, load_settings. by rewrite Hw, Ed.
Qed.

(** What a boot amounts to. *)
Lemma boot_unfold t d ps d1 rs d2 :
  power_load_settings_or_default d = (ps, d1) ->
  radio_load_settings_or_default
    (send_power (restore_settings_after_reset ps t d1) ps) = (rs, d2) ->
  boot t d = send_radio d2 rs.
Proof. intros H1 H2. unfold boot. by rewrite H1, H2. Qed.

Lemma load_radio_keeps d rs d' :
  radio_load_settings_or_default d = (rs, d') ->
  get_settings d' = get_settings d /\ POWER_SETTINGS_WATCH d' = POWER_SETTINGS_WATCH d.
Proof.
  unfold radio_load_settings_or_default, load_settings.
  destruct (decode_radio_settings _); [destruct (bool_decide _)|]; cbn; by intros [= _ <-].
Qed.

Lemma restore_get ps t d : PowerInBounds ps -> get_settings (restore_settings_after_reset ps t d) = ps.
Proof.
  intros Hps. unfold restore_settings_after_reset, apply_settings, power_clamp_settings.
  rewrite clamp_power_fixed by done. exact (get_set_atomics d ps _ Hps).
Qed.

(** C20: settings survive deep sleep: after the control task applied a pair of
    settings and the chip slept and booted again, at whatever times, the
    radio and the power policy run with exactly those settings clamped to
    their bounds, both watches hold them, and the words in RTC memory are the
    ones written before. *)
Theorem settings_survive_sleep (radio : RadioSettings) (power : PowerSettings) (d : Device)
    (applied_at booted_at : Z) :
  let before := dispatch (ApplySettings radio power) applied_at d in
  let after := boot booted_at (after_reset before) in
  RADIO_SETTINGS_WATCH after = Some (clamp_radio_config radio) /\
  POWER_SETTINGS_WATCH after = Some (clamp_power_config power) /\
  get_settings after = clamp_power_config power /\
  get_settings before = clamp_power_config power /\
  PERSISTED_RADIO_SETTINGS_WORD after = PERSISTED_RADIO_SETTINGS_WORD before /\
  PERSISTED_POWER_WORD after = PERSISTED_POWER_WORD before.
Proof.
  cbn zeta. set (before := dispatch _ _ _).
  pose proof (clamp_power_bounds power) as Hp. pose proof (clamp_radio_bounds radio) as Hr.
  assert (PERSISTED_POWER_WORD before
    = encode_power_settings (power_to_rtc_payload (clamp_power_config power))) as Hpw.
  { change (PERSISTED_POWER_WORD before) with (encode_power_settings
      (power_to_rtc_payload (clamp_power_config (clamp_power_config power)))).
    by rewrite (clamp_power_fixed (clamp_power_config power)). }
  assert (PERSISTED_RADIO_SETTINGS_WORD before
    = encode_radio_settings (radio_to_rtc_payload (clamp_radio_config radio))) as Hrw by done.
  pose proof (load_after_persist_power (after_reset before) _ Hpw Hp) as Hload.
  set (d1 := restore_settings_after_reset (clamp_power_config power) booted_at (after_reset before)).
  set (d2 := send_power d1 (clamp_power_config power)).
  assert (radio_load_settings_or_default d2 = (clamp_radio_config radio, d2)) as Hload2.
  { unfold radio_load_settings_or_default. by rewrite (load_after_persist_radio d2 _ Hrw Hr). }
  rewrite (boot_unfold _ _ _ _ _ _ Hload Hload2).
  split; [done|]. split; [done|]. split; [|split; [|by split]].
  - exact (restore_get _ booted_at (after_reset before) Hp).
  - exact (get_set_atomics _ _ _ Hp).
Qed.

(** C39: whatever the two RTC words contain, zeroed, corrupted, written by an
    older schema or out of range, a boot ends with settings inside the
    bounds of the radio and the power policy, the watches agree with the
    policy's settings, and booting again yields the same settings. *)
Theorem boot_valid (d : Device) (t t' : Z) :
  let after := boot t (after_reset d) in
  exists rs ps, RADIO_SETTINGS_WATCH after = Some rs /\ RadioInBounds rs /\
    POWER_SETTINGS_WATCH after = Some ps /\ PowerInBounds ps /\ get_settings after = ps /\
    RADIO_SETTINGS_WATCH (boot t' (after_reset after)) = Some rs /\
    POWER_SETTINGS_WATCH (boot t' (after_reset after)) = Some ps.
Proof.
  cbn zeta.
  pose proof (load_power_stable (after_reset d)) as Hp.
  destruct (power_load_settings_or_default (after_reset d)) as [ps d1] eqn:E1.
  destruct Hp as (Hps & _ & Hpstable).
  pose proof (load_radio_stable (send_power (restore_settings_after_reset ps t d1) ps)) as Hr.
  destruct (radio_load_settings_or_default _) as [rs d2] eqn:E2.
  destruct Hr as (Hrs & Hpw & Hrstable).
  destruct (load_radio_keeps _ _ _ E2) as [Hg Hw].
  rewrite (boot_unfold _ _ _ _ _ _ E1 E2).
  exists rs, ps. split; [done|]. split; [done|]. split; [exact Hw|]. split; [done|].
  split; [exact (eq_trans Hg (restore_get ps t d1 Hps))|].
  destruct (power_load_settings_or_default (after_reset (send_radio d2 rs))) as [ps' d3] eqn:E3.
  assert (ps' = ps) as ->.
  { change ps' with (ps', d3).1. rewrite <- E3. apply Hpstable. exact Hpw. }
  pose proof (load_power_stable (after_reset (send_radio d2 rs))) as Hp3. rewrite E3 in Hp3.
  destruct Hp3 as (_ & Hrw3 & _).
  destruct (radio_load_settings_or_default (send_power (restore_settings_after_reset ps t' d3) ps))
    as [rs' d4] eqn:E4.
  assert (rs' = rs) as ->.
  { change rs' with (rs', d4).1. rewrite <- E4. apply Hrstable. exact Hrw3. }
  rewrite (boot_unfold _ _ _ _ _ _ E3 E4). split; [done|].
  exact (proj2 (load_radio_keeps _ _ _ E4)).
Qed.

Lemma age_bounds age : valid_duration age -> duration_gt age (from_secs 20) = false ->
  0 <= secs age <= 20.
Proof. intros [Hage _] Hgt. unfold duration_gt in Hgt. cbn in Hgt. bools. num. Qed.

(** The decision to sleep never panics. *)
Lemma sleep_decides (queue_empty : bool) (age : Duration) (ota_state : OtaState) (t : Z)
    (d : Device) (Hage : valid_duration age) :
  exists r, maybe_sleep_after_publish queue_empty age ota_state t d = Some r /\
   forall s, r = Some s <->
     ota_state = Inactive /\ queue_empty = true /\ duration_gt age (from_secs 20) = false /\
     PREDICTIVE_SLEEP_ENABLED d = true /\ UI_IDLE_DEADLINE_SECS d <= now_secs t /\
     s = Z.min (sleep_duration_secs (get_settings d)) (50 - secs age) /\
     1 <= s /\ secs age + s <= 60 - 10.
Proof.
  unfold maybe_sleep_after_publish, is_ota_sleep_blocked.
  destruct (bool_decide (ota_state = Inactive)) eqn:Eo; cbn [negb]; bools.
  2:{ eexists. split; [done|]. intros s. split; [done | by intros [-> _]]. }
  subst. unfold predictive_sleep_decision.
  destruct queue_empty; cbn [negb]; [|eexists; split; [done | naive_solver]].
  change (from_secs PREDICTIVE_SLEEP_MAX_MEASUREMENT_AGE_SECS) with (from_secs 20).
  destruct (duration_gt age (from_secs 20)) eqn:Hgt; [eexists; split; [done | naive_solver]|].
  cbn [predictive_sleep_enabled get_settings].
  destruct (PREDICTIVE_SLEEP_ENABLED d); cbn [negb]; [|eexists; split; [done | naive_solver]].
  destruct (Z.ltb_spec (now_secs t) (UI_IDLE_DEADLINE_SECS d));
    [eexists; split; [done | naive_solver lia]|].
  cbn [is_ota_update_in_progress].
  pose proof (age_bounds age Hage Hgt) as Hs. pose proof (get_settings_bounds d) as [Hb _].
  rewrite window_cap_spec by done. unfold clamp_checked, POWER_SLEEP_DURATION_MIN_SECS.
  destruct (Z.leb_spec 1 (50 - secs age)); [|lia]. cbn [mbind option_bind].
  eexists. split; [reflexivity|]. unfold clamp. intros s. split.
  + intros [= <-]. cbn [sleep_duration_secs get_settings] in *. split_and!; auto; lia.
  + intros (_ & _ & _ & _ & _ & -> & _). f_equal. cbn [sleep_duration_secs get_settings] in *. lia.
Qed.

(** the sleep policy at run time: after a publication the decision never
    panics, and the device enters deep sleep exactly when no update is
    running or awaiting confirmation, the queue is empty, the measurement is
    at most 20 seconds old, predictive sleep is on and the UI idle deadline
    has passed; it then sleeps between one second and the configured time,
    and wakes at least ten seconds before the sensor's next transmission.
    Turning the knob defers it for the whole idle timeout. *)
Theorem sleep_policy (queue_empty : bool) (age : Duration) (ota_state : OtaState) (t : Z)
    (d : Device) (Hage : valid_duration age) :
  (exists r, maybe_sleep_after_publish queue_empty age ota_state t d = Some r /\
   forall s, r = Some s <->
     ota_state = Inactive /\ queue_empty = true /\ duration_gt age (from_secs 20) = false /\
     PREDICTIVE_SLEEP_ENABLED d = true /\ UI_IDLE_DEADLINE_SECS d <= now_secs t /\
     s = Z.min (sleep_duration_secs (get_settings d)) (50 - secs age) /\
     1 <= s /\ secs age + s <= 60 - 10) /\
  (forall t0, 0 <= t0 -> t0 <= t < t0 + ui_idle_timeout_secs (get_settings d) -> t < umax 32 ->
   PREDICTIVE_SLEEP_ENABLED d = true ->
   maybe_sleep_after_publish queue_empty age ota_state t (notify_ui_activity t0 d) = Some None).
Proof.
  split.
  - by apply sleep_decides.
  - intros t0 Ht0 Ht Hmax Hen. unfold maybe_sleep_after_publish, notify_ui_activity. rewrite Hen.
    destruct (is_ota_sleep_blocked ota_state); [done|]. unfold predictive_sleep_decision.
    destruct queue_empty; cbn [negb]; [|done]. destruct (duration_gt _ _); [done|].
    cbn [predictive_sleep_enabled get_settings].
    assert (PREDICTIVE_SLEEP_ENABLED (rearm_ui_idle_deadline t0 d) = true) as -> by done.
    cbn [negb]. pose proof (get_settings_bounds d) as [_ Hb].
    assert (now_secs t < UI_IDLE_DEADLINE_SECS (rearm_ui_idle_deadline t0 d)) as Hlt.
    { assert (forall x, 0 <= x -> x < umax 32 -> now_secs x = x) as Hnow.
      { intros x Hx0 Hx. unfold now_secs, try_from_u. rewrite (proj2 (Z.leb_le 0 x)) by lia.
        by rewrite (proj2 (Z.leb_le x _)) by lia. }
      cbn [UI_IDLE_DEADLINE_SECS rearm_ui_idle_deadline set_deadline].
      cbn [ui_idle_timeout_secs get_settings] in *. rewrite !Hnow by num. num. }
    by rewrite (proj2 (Z.ltb_lt _ _) Hlt).
Qed.

Definition blank_device : Device := after_reset
  {| PERSISTED_RADIO_SETTINGS_WORD := 0; PERSISTED_POWER_WORD := 0;
     PREDICTIVE_SLEEP_ENABLED := true; SLEEP_DURATION_SECS := 45; UI_IDLE_TIMEOUT_SECS := 60;
     UI_IDLE_DEADLINE_SECS := 0; RADIO_SETTINGS_WATCH := None; POWER_SETTINGS_WATCH := None |}.

Example sleep_policy_witness :
  maybe_sleep_after_publish true (from_secs 20) Inactive 100 (boot 7 blank_device) = Some (Some 30) /\
  maybe_sleep_after_publish true (from_secs 20) Inactive 100
    (notify_ui_activity 90 (boot 7 blank_device)) = Some None.
Proof.
  assert (valid_duration (from_secs 20)) as Hage by (split; cbn; num).
  destruct (sleep_policy true (from_secs 20) Inactive 100 (boot 7 blank_device) Hage)
    as ((r & Hr & Hs) & Hdefer).
  split.
  - rewrite Hr. f_equal. apply Hs. vm_compute. split_and!; (reflexivity || discriminate).
  - apply Hdefer; vm_compute; (reflexivity || discriminate || (split; (reflexivity || discriminate))).
Defined.
