(* ===== verification/Radio.v ===== *)
(** * The 433 MHz receiver

    [firmware/src/radio_433.rs] (the CC1101 with its cached settings), the
    settings part of [firmware/src/pulse_capture.rs], and the sweep over RF
    profiles, its persistence and the preparation for capture of
    [firmware/src/tasks/radio_433.rs]. The [cc1101] crate is an interface: a
    call of the driver either fails or programs the chip. *)
From Stdlib Require Import Sorted.
From stdpp Require Import sorting.
From S2P Require Import Prelude ConfigRules RtcSchema Rubicson Messages Settings.

(** ** The driver *)

Inductive DecisionBoundary := Db4 | Db8 | Db12 | Db16.
Inductive TargetAmplitude := Db24 | Db27 | Db30 | Db33 | Db36 | Db38 | Db40 | Db42.
Inductive RadioMode := Idle | Receive.
Inductive GdoCfg := SERIAL_DATA_OUT | CLK_XOSC_192.

(** The calls that program the chip. *)
Inductive command :=
| ResetChip
| WhiteDataEnable (on : bool)
| SetFreqIf (hz : Z)
| SetAutocalibrationFromIdle
| SetMaxLnaGainBelow9_2
| SetFrequency (hz : Z)
| SetModulationOok
| SetSyncModeDisabled
| SetPacketLengthInfinite
| SetDataRate (baud : Z)
| SetChannelBandwidth (hz : Z)
| SetMagnTarget (level : TargetAmplitude)
| SetFilterLength (boundary : DecisionBoundary)
| SetCarrierSense (threshold : Z)
| SetGdo0 (config : GdoCfg)
| SetRawMode
| SetRadioMode (mode : RadioMode).

Record PacketStatus := { ps_carrier_sense : bool; ps_pqt : bool; ps_gdo0 : bool; ps_gdo2 : bool }.

(** The driver, and the levels of the two pins of the microcontroller the
    chip drives. *)
Class Cc1101 (D : Type) := {
  run : command -> D -> bool * D;
  get_rssi : D -> option Z * D;
  get_packet_status : D -> option PacketStatus * D;
  get_hw_info : D -> option (Z * Z) * D;
  gdo0_high : D -> bool;
  gdo2_high : D -> bool
}.

(** What the firmware programs, as the chip has it. *)
Record Chip := {
  frequency : Z;
  bandwidth : Z;
  magn : TargetAmplitude;
  boundary : DecisionBoundary;
  carrier_sense : Z;
  mode : RadioMode
}.

(** The effect of a call on these registers; [reset] are their values after a
    reset of the chip. *)
Definition program (reset : Chip) (c : command) (k : Chip) : Chip :=
  match c with
  | ResetChip => reset
  | SetFrequency hz => {| frequency := hz; bandwidth := bandwidth k; magn := magn k;
      boundary := boundary k; carrier_sense := carrier_sense k; mode := mode k |}
  | SetChannelBandwidth hz => {| frequency := frequency k; bandwidth := hz; magn := magn k;
      boundary := boundary k; carrier_sense := carrier_sense k; mode := mode k |}
  | SetMagnTarget level => {| frequency := frequency k; bandwidth := bandwidth k; magn := level;
      boundary := boundary k; carrier_sense := carrier_sense k; mode := mode k |}
  | SetFilterLength b => {| frequency := frequency k; bandwidth := bandwidth k; magn := magn k;
      boundary := b; carrier_sense := carrier_sense k; mode := mode k |}
  | SetCarrierSense t => {| frequency := frequency k; bandwidth := bandwidth k; magn := magn k;
      boundary := boundary k; carrier_sense := t; mode := mode k |}
  | SetRadioMode m => {| frequency := frequency k; bandwidth := bandwidth k; magn := magn k;
      boundary := boundary k; carrier_sense := carrier_sense k; mode := m |}
  | _ => k
  end.

(** A call that succeeds has its effect, one that fails has it or not; reading
    changes no register; the signal strength is a 16-bit integer. *)
Class Cc1101Laws (D : Type) `{Cc1101 D} := {
  reset_chip : Chip;
  chip : D -> Chip;
  run_done c d d' : run c d = (true, d') -> chip d' = program reset_chip c (chip d);
  run_failed c d d' : run c d = (false, d') ->
    chip d' = chip d \/ chip d' = program reset_chip c (chip d);
  rssi_chip d : chip (get_rssi d).2 = chip d;
  rssi_range d r : (get_rssi d).1 = Some r -> smin 16 <= r <= smax 16;
  status_chip d : chip (get_packet_status d).2 = chip d;
  hw_info_chip d : chip (get_hw_info d).2 = chip d
}.

(** ** The radio ([radio_433.rs]) *)

Inductive RadioError := Spi | NotResponding | ConfigError.

Record SignalSnapshot := {
  ss_carrier_sense : bool;
  preamble_quality_reached : bool;
  pktstatus_gdo0 : bool;
  pktstatus_gdo2 : bool;
  pin_gdo0 : bool;
  pin_gdo2 : bool
}.

Definition decision_boundary_for_threshold (db : Z) : DecisionBoundary :=
  let q := quantize_detection_threshold_db db in
  if q =? 4 then Db4 else if q =? 8 then Db8 else if q =? 12 then Db12 else Db16.

Definition target_amplitude_for_level (level : Z) : TargetAmplitude :=
  if level =? 0 then Db24
  else if level =? 1 then Db27
  else if level =? 2 then Db30
  else if level =? 3 then Db33
  else if level =? 4 then Db36
  else if level =? 5 then Db38
  else if level =? 6 then Db40
  else Db42.

(** [data_pin] is whether the pin has not been taken yet; [cached] are the four
    fields with the settings. *)
Record Cc1101Radio (D : Type) := { driver : D; data_pin : bool; cached : RadioSettings }.
Arguments driver {D} c.
Arguments data_pin {D} c.
Arguments cached {D} c.

Definition with_threshold (s : RadioSettings) (db : Z) : RadioSettings :=
  {| detection_threshold_db := db; magn_target := magn_target s;
     channel_bandwidth_index := channel_bandwidth_index s;
     carrier_sense_threshold := carrier_sense_threshold s |}.
Definition with_magn (s : RadioSettings) (level : Z) : RadioSettings :=
  {| detection_threshold_db := detection_threshold_db s; magn_target := level;
     channel_bandwidth_index := channel_bandwidth_index s;
     carrier_sense_threshold := carrier_sense_threshold s |}.
Definition with_bandwidth (s : RadioSettings) (index : Z) : RadioSettings :=
  {| detection_threshold_db := detection_threshold_db s; magn_target := magn_target s;
     channel_bandwidth_index := index; carrier_sense_threshold := carrier_sense_threshold s |}.
Definition with_carrier_sense (s : RadioSettings) (threshold : Z) : RadioSettings :=
  {| detection_threshold_db := detection_threshold_db s; magn_target := magn_target s;
     channel_bandwidth_index := channel_bandwidth_index s; carrier_sense_threshold := threshold |}.

Section Radio.
Context {D : Type} `{Cc1101 D}.
Abbreviation Radio := (Cc1101Radio D).

(** Operations on the radio: [Result]s that thread its state. *)
Definition R (A : Type) : Type := Radio -> result RadioError A * Radio.
#[local] Instance R_ret : MRet R := fun A a r => (Ok a, r).
#[local] Instance R_bind : MBind R := fun A B f m r =>
  match m r with (Ok a, r) => f a r | (Err e, r) => (Err e, r) end.

Definition with_driver (r : Radio) (d : D) : Radio :=
  {| driver := d; data_pin := data_pin r; cached := cached r |}.
Definition call (c : command) : R unit := fun r =>
  let (ok, d) := run c (driver r) in (if ok then Ok tt else Err ConfigError, with_driver r d).
Definition cache (f : RadioSettings -> RadioSettings) : R unit := fun r =>
  (Ok tt, {| driver := driver r; data_pin := data_pin r; cached := f (cached r) |}).
Fixpoint calls (cs : list command) : R unit :=
  match cs with
  | [] => mret tt
  | c :: cs => call c;; calls cs
  end.

Definition Cc1101Radio_new (d : D) : Radio :=
  {| driver := d; data_pin := true; cached := DEFAULT_RADIO_SETTINGS |}.

Definition restore_settings_after_reset (settings : RadioSettings) (r : Radio) : Radio :=
  {| driver := driver r; data_pin := data_pin r; cached := {|
       detection_threshold_db := quantize_detection_threshold_db (detection_threshold_db settings);
       magn_target := Z.min (magn_target settings) MAGN_TARGET_MAX;
       channel_bandwidth_index :=
         Z.min (channel_bandwidth_index settings) CHANNEL_BANDWIDTH_MAX_INDEX;
       carrier_sense_threshold := Z.min (carrier_sense_threshold settings) CARRIER_SENSE_MAX |} |}.

Definition set_detection_threshold (db : Z) : R unit :=
  let quantized_db := quantize_detection_threshold_db db in
  calls [SetRadioMode Idle; SetFilterLength (decision_boundary_for_threshold quantized_db);
         SetRadioMode Receive];;
  cache (fun s => with_threshold s quantized_db).
Definition set_filter_level (level : Z) : R unit :=
  let clamped_level := Z.min level MAGN_TARGET_MAX in
  calls [SetRadioMode Idle; SetMagnTarget (target_amplitude_for_level clamped_level);
         SetRadioMode Receive];;
  cache (fun s => with_magn s clamped_level).
Definition set_channel_bandwidth_index (index : Z) : R unit :=
  let clamped_index := Z.min index CHANNEL_BANDWIDTH_MAX_INDEX in
  calls [SetRadioMode Idle; SetChannelBandwidth (channel_bandwidth_hz clamped_index);
         SetRadioMode Receive];;
  cache (fun s => with_bandwidth s clamped_index).
Definition set_carrier_sense_threshold (threshold : Z) : R unit :=
  let clamped_threshold := Z.min threshold CARRIER_SENSE_MAX in
  calls [SetRadioMode Idle; SetCarrierSense clamped_threshold; SetRadioMode Receive];;
  cache (fun s => with_carrier_sense s clamped_threshold).

Definition get_detection_threshold (r : Radio) : Z :=
  quantize_detection_threshold_db (detection_threshold_db (cached r)).
Definition get_filter_level (r : Radio) : Z := magn_target (cached r).
Definition get_channel_bandwidth_index (r : Radio) : Z := channel_bandwidth_index (cached r).
Definition get_carrier_sense_threshold (r : Radio) : Z := carrier_sense_threshold (cached r).

Definition apply_settings (settings : RadioSettings) : R unit :=
  set_detection_threshold (detection_threshold_db settings);;
  set_filter_level (magn_target settings);;
  set_channel_bandwidth_index (channel_bandwidth_index settings);;
  set_carrier_sense_threshold (carrier_sense_threshold settings).

Definition init : R unit := fun r =>
  (calls [ResetChip; WhiteDataEnable false; SetFreqIf 203125; SetAutocalibrationFromIdle;
          SetMaxLnaGainBelow9_2; SetFrequency 433920000; SetModulationOok; SetSyncModeDisabled;
          SetPacketLengthInfinite; SetDataRate 4800;
          SetChannelBandwidth (channel_bandwidth_hz (channel_bandwidth_index (cached r)));
          SetMagnTarget (target_amplitude_for_level (magn_target (cached r)))];;
   let detection_threshold_db := quantize_detection_threshold_db (detection_threshold_db (cached r)) in
   call (SetFilterLength (decision_boundary_for_threshold detection_threshold_db));;
   cache (fun s => with_threshold s detection_threshold_db);;
   calls [SetCarrierSense (carrier_sense_threshold (cached r)); SetGdo0 SERIAL_DATA_OUT; SetRawMode]) r.

Definition signal_snapshot : R SignalSnapshot := fun r =>
  let (status, d) := get_packet_status (driver r) in
  match status with
  | None => (Err Spi, with_driver r d)
  | Some status =>
      (Ok {| ss_carrier_sense := ps_carrier_sense status; preamble_quality_reached := ps_pqt status;
             pktstatus_gdo0 := ps_gdo0 status; pktstatus_gdo2 := ps_gdo2 status;
             pin_gdo0 := data_pin r && gdo0_high d; pin_gdo2 := gdo2_high d |}, with_driver r d)
  end.

Definition apply_rf_profile (freq_hz bandwidth_hz : Z) : R unit :=
  calls [SetRadioMode Idle; SetFrequency freq_hz; SetChannelBandwidth bandwidth_hz;
         SetRadioMode Receive];;
  cache (fun s => with_bandwidth s (channel_bandwidth_index_of_hz bandwidth_hz)).

Definition get_rssi_dbm : R Z := fun r =>
  let (rssi, d) := get_rssi (driver r) in
  (match rssi with Some rssi => Ok rssi | None => Err Spi end, with_driver r d).

(** [edge] is whether an edge comes before the timer. *)
Definition probe_gdo0_edge_path (edge : bool) : R bool := fun r =>
  (call (SetGdo0 CLK_XOSC_192);;
   let edge_seen := data_pin r && edge in
   call (SetGdo0 SERIAL_DATA_OUT);; mret edge_seen) r.

Definition take_data_pin (r : Radio) : bool * Radio :=
  (data_pin r, {| driver := driver r; data_pin := false; cached := cached r |}).

(** ** Settings that arrive while capturing ([pulse_capture.rs]) *)

Definition ignore (m : R unit) (r : Radio) : Radio := (m r).2.
Definition unless (b : bool) (m : R unit) (r : Radio) : Radio := if b then r else ignore m r.

Definition apply_pending_settings (settings : option RadioSettings) (r : Radio) : Radio :=
  match settings with
  | None => r
  | Some s =>
      let r := unless (detection_threshold_db s =? get_detection_threshold r)
                 (set_detection_threshold (detection_threshold_db s)) r in
      let r := unless (magn_target s =? get_filter_level r) (set_filter_level (magn_target s)) r in
      let r := unless (channel_bandwidth_index s =? get_channel_bandwidth_index r)
                 (set_channel_bandwidth_index (channel_bandwidth_index s)) r in
      unless (carrier_sense_threshold s =? get_carrier_sense_threshold r)
        (set_carrier_sense_threshold (carrier_sense_threshold s)) r
  end.

(** ** The sweep over RF profiles ([tasks/radio_433.rs]) *)

Record RfSweepCandidate := { freq_hz : Z; bandwidth_hz : Z }.
Definition RF_SWEEP_CANDIDATES : list RfSweepCandidate :=
  [ {| freq_hz := 433920000; bandwidth_hz := 325000 |};
    {| freq_hz := 433920000; bandwidth_hz := 203000 |};
    {| freq_hz := 433920000; bandwidth_hz := 162000 |};
    {| freq_hz := 433920000; bandwidth_hz := 135000 |};
    {| freq_hz := 433820000; bandwidth_hz := 203000 |};
    {| freq_hz := 434020000; bandwidth_hz := 203000 |};
    {| freq_hz := 433870000; bandwidth_hz := 162000 |};
    {| freq_hz := 433970000; bandwidth_hz := 162000 |} ].
Definition RF_SWEEP_ENABLED : bool := true.
Definition RF_SWEEP_DWELL_SAMPLES : nat := 24.

Record SignalStats := {
  sample_count : Z;
  carrier_sense_samples : Z;
  pqt_samples : Z;
  pkt_gdo0_high_samples : Z;
  pkt_gdo2_high_samples : Z;
  pin_gdo0_high_samples : Z;
  pin_gdo2_high_samples : Z;
  pin_gdo0_toggles : Z;
  min_rssi : Z;
  max_rssi : Z
}.
Definition SignalStats_new : SignalStats := {|
  sample_count := 0; carrier_sense_samples := 0; pqt_samples := 0; pkt_gdo0_high_samples := 0;
  pkt_gdo2_high_samples := 0; pin_gdo0_high_samples := 0; pin_gdo2_high_samples := 0;
  pin_gdo0_toggles := 0; min_rssi := 0; max_rssi := -128 |}.
Definition score (s : SignalStats) : Z :=
  pin_gdo0_toggles s * 100 + pin_gdo0_high_samples s * 10 + pkt_gdo0_high_samples s.

Definition count_rssi (rssi : Z) (s : SignalStats) : SignalStats := {|
  sample_count := sample_count s; carrier_sense_samples := carrier_sense_samples s;
  pqt_samples := pqt_samples s; pkt_gdo0_high_samples := pkt_gdo0_high_samples s;
  pkt_gdo2_high_samples := pkt_gdo2_high_samples s; pin_gdo0_high_samples := pin_gdo0_high_samples s;
  pin_gdo2_high_samples := pin_gdo2_high_samples s; pin_gdo0_toggles := pin_gdo0_toggles s;
  min_rssi := if rssi <? min_rssi s then rssi else min_rssi s;
  max_rssi := if max_rssi s <? rssi then rssi else max_rssi s |}.
Definition count_snapshot (previous_pin_gdo0 : option bool) (snapshot : SignalSnapshot)
    (s : SignalStats) : SignalStats := {|
  sample_count := wrap 16 (sample_count s + 1);
  carrier_sense_samples := wrap 16 (carrier_sense_samples s + Z.b2z (ss_carrier_sense snapshot));
  pqt_samples := wrap 16 (pqt_samples s + Z.b2z (preamble_quality_reached snapshot));
  pkt_gdo0_high_samples := wrap 16 (pkt_gdo0_high_samples s + Z.b2z (pktstatus_gdo0 snapshot));
  pkt_gdo2_high_samples := wrap 16 (pkt_gdo2_high_samples s + Z.b2z (pktstatus_gdo2 snapshot));
  pin_gdo0_high_samples := wrap 16 (pin_gdo0_high_samples s + Z.b2z (pin_gdo0 snapshot));
  pin_gdo2_high_samples := wrap 16 (pin_gdo2_high_samples s + Z.b2z (pin_gdo2 snapshot));
  pin_gdo0_toggles :=
    match previous_pin_gdo0 with
    | Some previous => if negb (Bool.eqb previous (pin_gdo0 snapshot))
                       then wrap 16 (pin_gdo0_toggles s + 1) else pin_gdo0_toggles s
    | None => pin_gdo0_toggles s
    end;
  min_rssi := min_rssi s; max_rssi := max_rssi s |}.

Fixpoint sample_loop (samples : nat) (previous_pin_gdo0 : option bool) (stats : SignalStats)
    (r : Radio) : SignalStats * Radio :=
  match samples with
  | O => (stats, r)
  | S samples =>
      let (rssi, r) := get_rssi_dbm r in
      let stats := match rssi with Ok rssi => count_rssi rssi stats | Err _ => stats end in
      let (snapshot, r) := signal_snapshot r in
      match snapshot with
      | Ok snapshot => sample_loop samples (Some (pin_gdo0 snapshot))
                         (count_snapshot previous_pin_gdo0 snapshot stats) r
      | Err _ => sample_loop samples previous_pin_gdo0 stats r
      end
  end.
Definition sample_signal_stats (samples : nat) (r : Radio) : SignalStats * Radio :=
  sample_loop samples None SignalStats_new r.

(** [best] is the index and the score of the best candidate so far. *)
Fixpoint sweep_loop (candidates : list (nat * RfSweepCandidate)) (best : option (nat * RfSweepCandidate * Z))
    (r : Radio) : option (nat * RfSweepCandidate * Z) * Radio :=
  match candidates with
  | [] => (best, r)
  | (index, candidate) :: candidates =>
      match apply_rf_profile (freq_hz candidate) (bandwidth_hz candidate) r with
      | (Err _, r) => sweep_loop candidates best r
      | (Ok _, r) =>
          let (stats, r) := sample_signal_stats RF_SWEEP_DWELL_SAMPLES r in
          let best :=
            if match best with Some (_, _, best_score) => best_score <? score stats | None => true end
            then Some (index, candidate, score stats) else best in
          sweep_loop candidates best r
      end
  end.
Definition run_rf_sweep (r : Radio) : option nat * Radio :=
  if negb RF_SWEEP_ENABLED then (None, r)
  else
    match sweep_loop (imap pair RF_SWEEP_CANDIDATES) None r with
    | (Some (index, candidate, _), r) =>
        match apply_rf_profile (freq_hz candidate) (bandwidth_hz candidate) r with
        | (Err _, r) => (None, r)
        | (Ok _, r) => (Some index, r)
        end
    | (None, r) => (None, r)
    end.

(** The word in RTC memory. *)
Definition persist_rf_profile_index (index : nat) (word : Z) : Z :=
  match try_from_u 8 (Z.of_nat index) with
  | None => word
  | Some index_u8 => encode_rf_profile {| profile_index := index_u8 |}
  end.
Definition load_persisted_rf_profile_index (word : Z) : option nat * Z :=
  match decode_rf_profile word with
  | Ok decoded =>
      let index := Z.to_nat (profile_index (value decoded)) in
      if (length RF_SWEEP_CANDIDATES <=? index)%nat then (None, word)
      else (Some index, if needs_migration decoded then encode_rf_profile (value decoded) else word)
  | Err _ => (None, word)
  end.

Definition current_radio_settings (r : Radio) : RadioSettings := {|
  detection_threshold_db := get_detection_threshold r;
  magn_target := get_filter_level r;
  channel_bandwidth_index := get_channel_bandwidth_index r;
  carrier_sense_threshold := get_carrier_sense_threshold r |}.

(** The RF profile: swept after a cold boot, otherwise the persisted one.
    [None]: the index is out of bounds of the table. *)
Definition choose_rf_profile (cold_boot : bool) (word : Z) (r : Radio) : option (Z * Radio) :=
  if cold_boot then
    match run_rf_sweep r with
    | (Some index, r) => Some (persist_rf_profile_index index word, r)
    | (None, r) => Some (word, r)
    end
  else
    match load_persisted_rf_profile_index word with
    | (Some index, word) =>
        candidate ← RF_SWEEP_CANDIDATES !! index;
        Some (word, ignore (apply_rf_profile (freq_hz candidate) (bandwidth_hz candidate)) r)
    | (None, word) => Some (word, r)
    end.

(** [None] is a panic; [Err] ends the task. *)
Definition prepare_radio_for_capture (cold_boot : bool) (word : Z) (d : Device) (r : Radio)
  : option (result unit RadioSettings * Z * Device * Radio) :=
  let (info, c) := get_hw_info (driver r) in
  let r := with_driver r c in
  match info with
  | None => Some (Err tt, word, d, r)
  | Some _ =>
      match call (SetRadioMode Receive) r with
      | (Err _, r) => Some (Err tt, word, d, r)
      | (Ok _, r) =>
          '(word, r) ← choose_rf_profile cold_boot word r;
          let (settings, d) := load_settings d in
          let r := match settings with Some s => ignore (apply_settings s) r | None => r end in
          let (_, r) := sample_signal_stats 60 r in
          Some (Ok (current_radio_settings r), word, d, r)
      end
  end.
End Radio.
Arguments Cc1101Radio D : clear implicits.

(** ** Properties *)

Section Properties.
Context {D : Type} `{Cc1101Laws D}.
Abbreviation Radio := (Cc1101Radio D).
Abbreviation k r := (chip (driver r)).

(** What the chip is programmed with for given settings. *)
Definition Programs (s : RadioSettings) (c : Chip) : Prop :=
  bandwidth c = channel_bandwidth_hz (channel_bandwidth_index s) /\
  magn c = target_amplitude_for_level (magn_target s) /\
  boundary c = decision_boundary_for_threshold (detection_threshold_db s) /\
  carrier_sense c = carrier_sense_threshold s.
(** The cached settings are valid and the ones the chip works with. *)
Definition Programmed (r : Radio) : Prop := RadioInBounds (cached r) /\ Programs (cached r) (k r).

Definition programs (cs : list command) (c : Chip) : Chip := foldl (fun c x => program reset_chip x c) c cs.
Arguments programs : simpl never.

Lemma call_spec c r : let (res, r') := call c r in
  data_pin r' = data_pin r /\ cached r' = cached r /\
  match res with
  | Ok _ => k r' = program reset_chip c (k r)
  | Err e => e = ConfigError /\ (k r' = k r \/ k r' = program reset_chip c (k r))
  end.
Proof.
  unfold call. destruct (run c (driver r)) as [[] d] eqn:E; cbn; split_and!; try done.
  - by apply run_done.
  - by apply run_failed.
Qed.

(** A run of calls that fails has programmed a prefix of them. *)
Lemma calls_spec cs r : let (res, r') := calls cs r in
  data_pin r' = data_pin r /\ cached r' = cached r /\
  match res with
  | Ok _ => k r' = programs cs (k r)
  | Err e => e = ConfigError /\ exists n, k r' = programs (take n cs) (k r)
  end.
Proof.
  revert r. induction cs as [|c cs IH]; intros r; cbn [calls]; [done|].
  unfold mbind, R_bind. pose proof (call_spec c r) as Hc. destruct (call c r) as [[[]|e] r1].
  - destruct Hc as (Hd & Hs & Hk). specialize (IH r1). destruct (calls cs r1) as [[[]|e] r2].
    + destruct IH as (-> & -> & ->). by rewrite Hk.
    + destruct IH as (-> & -> & -> & n & ->). split_and!; [done..|]. exists (S n). by rewrite Hk.
  - destruct Hc as (Hd & Hs & -> & [Hk|Hk]); (split_and!; [done..|]); [by exists 0%nat | by exists 1%nat].
Qed.

(** The pattern of the setters: idle, program, receive, and only then the
    cached value. *)
Definition setter (c : command) (f : RadioSettings -> RadioSettings) : R unit :=
  R_bind _ _ (fun _ => cache f) (calls [SetRadioMode Idle; c; SetRadioMode Receive]).

Lemma setter_spec c f r : let (res, r') := setter c f r in
  data_pin r' = data_pin r /\
  match res with
  | Ok _ => cached r' = f (cached r) /\
      k r' = programs [SetRadioMode Idle; c; SetRadioMode Receive] (k r)
  | Err e => e = ConfigError /\ cached r' = cached r /\
      exists n, k r' = programs (take n [SetRadioMode Idle; c; SetRadioMode Receive]) (k r)
  end.
Proof.
  unfold setter, R_bind. pose proof (calls_spec [SetRadioMode Idle; c; SetRadioMode Receive] r) as Hc.
  destruct (calls _ r) as [[[]|e] r1]; destruct Hc as (Hd & Hs & Hk).
  - cbn -[programs]. by rewrite Hs.
  - by destruct Hk.
Qed.

(** A driver whose calls succeed. *)
Definition Reliable : Prop := forall c (d : D), (run c d).1 = true.

Lemma reliable_calls cs r : Reliable -> (calls cs r).1 = Ok tt.
Proof.
  intros Hr. revert r. induction cs as [|c cs IH]; intros r; cbn [calls]; [done|].
  unfold mbind, R_bind, call. pose proof (Hr c (driver r)) as Hc. destruct (run c (driver r)) as [b d].
  cbn in Hc. subst b. apply IH.
Qed.

Lemma reliable_setter c f r : Reliable -> exists r', setter c f r = (Ok tt, r') /\
  data_pin r' = data_pin r /\ cached r' = f (cached r) /\
  k r' = programs [SetRadioMode Idle; c; SetRadioMode Receive] (k r).
Proof.
  intros Hr. pose proof (setter_spec c f r) as Hs. unfold setter, R_bind in *.
  pose proof (reliable_calls [SetRadioMode Idle; c; SetRadioMode Receive] r Hr) as Hc.
  destruct (calls _ r) as [res r1]. cbn in Hc. subst res. cbn in *. eexists. split; [done|].
  destruct Hs as (Hd & Hs & Hk). by split_and!.
Qed.

Lemma min_clamp hi x : 0 <= x -> Z.min x hi = clamp 0 hi x.
Proof. unfold clamp. lia. Qed.

Lemma clamp_min hi x : 0 <= x <= hi -> Z.min x hi = x.
Proof. lia. Qed.

Ltac settings s := destruct s as [? ? ? ?]; cbn in *.

(** One setting at a time: valid values in, and what the chip is given. *)
Lemma set_threshold_as db : set_detection_threshold db =
  setter (SetFilterLength (decision_boundary_for_threshold (quantize_detection_threshold_db db)))
    (fun s => with_threshold s (quantize_detection_threshold_db db)).
Proof. done. Qed.
Lemma set_filter_as l : set_filter_level l =
  setter (SetMagnTarget (target_amplitude_for_level (Z.min l MAGN_TARGET_MAX)))
    (fun s => with_magn s (Z.min l MAGN_TARGET_MAX)).
Proof. done. Qed.
Lemma set_bandwidth_as i : set_channel_bandwidth_index i =
  setter (SetChannelBandwidth (channel_bandwidth_hz (Z.min i CHANNEL_BANDWIDTH_MAX_INDEX)))
    (fun s => with_bandwidth s (Z.min i CHANNEL_BANDWIDTH_MAX_INDEX)).
Proof. done. Qed.
Lemma set_carrier_as t : set_carrier_sense_threshold t =
  setter (SetCarrierSense (Z.min t CARRIER_SENSE_MAX))
    (fun s => with_carrier_sense s (Z.min t CARRIER_SENSE_MAX)).
Proof. done. Qed.

Lemma boundary_quantized db :
  decision_boundary_for_threshold (quantize_detection_threshold_db db) = decision_boundary_for_threshold db.
Proof.
  unfold decision_boundary_for_threshold. by rewrite (quantize_fixed _ (quantize_cases db)).
Qed.

(** What the cached settings may become. *)
Inductive Setting : command -> (RadioSettings -> RadioSettings) -> Prop :=
| setting_threshold db : Setting (SetFilterLength (decision_boundary_for_threshold (quantize_detection_threshold_db db)))
    (fun s => with_threshold s (quantize_detection_threshold_db db))
| setting_magn l : 0 <= l <= 7 -> Setting (SetMagnTarget (target_amplitude_for_level l)) (fun s => with_magn s l)
| setting_bandwidth i : 0 <= i <= 3 ->
    Setting (SetChannelBandwidth (channel_bandwidth_hz i)) (fun s => with_bandwidth s i)
| setting_carrier t : 0 <= t <= 7 -> Setting (SetCarrierSense t) (fun s => with_carrier_sense s t).

Lemma setting_bounds c f s : Setting c f -> RadioInBounds s -> RadioInBounds (f s).
Proof.
  intros Hs (Hd & Hm & Hb & Hc). destruct Hs; unfold RadioInBounds; cbn; split_and!; try done; try lia.
  apply quantize_cases.
Qed.
Lemma setting_programs c f s h : Setting c f -> Programs s h -> Programs (f s) (program reset_chip c h).
Proof.
  intros Hs (Hb & Hm & Hd & Hc). destruct Hs; unfold Programs; cbn; split_and!; try done.
Qed.
Lemma setting_mode c f h : Setting c f ->
  mode (program reset_chip c h) = mode h /\ frequency (program reset_chip c h) = frequency h.
Proof. by intros []. Qed.
Lemma mode_programs s h m : Programs s (program reset_chip (SetRadioMode m) h) <-> Programs s h.
Proof. done. Qed.

Lemma setter_programmed c f r : Setting c f -> Programmed r -> Reliable -> exists r',
  setter c f r = (Ok tt, r') /\ data_pin r' = data_pin r /\ cached r' = f (cached r) /\ Programmed r' /\
  mode (k r') = Receive /\ frequency (k r') = frequency (k r).
Proof.
  intros Hs [Hb Hp] Hr. destruct (reliable_setter c f r Hr) as (r' & E & Hd & Hc & Hk).
  exists r'. split_and!; try done.
  - split; rewrite Hc; [by eapply setting_bounds|]. rewrite Hk. unfold programs. cbn [foldl].
    apply mode_programs. apply setting_programs; [done|]. by apply mode_programs.
  - by rewrite Hk.
  - rewrite Hk. unfold programs. cbn [foldl]. destruct (setting_mode c f (program reset_chip (SetRadioMode Idle) (k r)) Hs) as [_ Hf].
    cbn in *. exact Hf.
Qed.

Lemma setter_bounds c f r : Setting c f -> RadioInBounds (cached r) ->
  RadioInBounds (cached (setter c f r).2).
Proof.
  intros Hs Hb. pose proof (setter_spec c f r) as Hr. destruct (setter c f r) as [[[]|e] r']; cbn.
  - destruct Hr as (_ & -> & _). by eapply setting_bounds.
  - by destruct Hr as (_ & _ & -> & _).
Qed.

Lemma unless_programmed b c f r : Setting c f -> (b = true -> f (cached r) = cached r) ->
  Programmed r -> Reliable ->
  let r' := unless b (setter c f) r in
  Programmed r' /\ frequency (k r') = frequency (k r) /\ cached r' = f (cached r) /\
  mode (k r') = (if b then mode (k r) else Receive) /\ data_pin r' = data_pin r.
Proof.
  intros Hs Hf Hp Hr. destruct b; cbn; [by rewrite Hf|]. clear Hf. unfold ignore.
  destruct (setter_programmed c f r Hs Hp Hr) as (r' & -> & Hd & Hc & Hp' & Hm & Hf). by split_and!.
Qed.

Lemma unless_bounds b c f r : Setting c f -> RadioInBounds (cached r) ->
  RadioInBounds (cached (unless b (setter c f) r)).
Proof. intros Hs Hb. destruct b; [done | by apply setter_bounds]. Qed.

(** The four steps of [apply_pending_settings], each with a valid value. *)
Lemma pending_steps s r : RadioInBounds s -> RadioInBounds (cached r) ->
  apply_pending_settings (Some s) r =
    let r := unless (detection_threshold_db s =? detection_threshold_db (cached r))
      (setter (SetFilterLength (decision_boundary_for_threshold (quantize_detection_threshold_db (detection_threshold_db s))))
        (fun c => with_threshold c (quantize_detection_threshold_db (detection_threshold_db s)))) r in
    let r := unless (magn_target s =? magn_target (cached r))
      (setter (SetMagnTarget (target_amplitude_for_level (magn_target s))) (fun c => with_magn c (magn_target s))) r in
    let r := unless (channel_bandwidth_index s =? channel_bandwidth_index (cached r))
      (setter (SetChannelBandwidth (channel_bandwidth_hz (channel_bandwidth_index s)))
        (fun c => with_bandwidth c (channel_bandwidth_index s))) r in
    unless (carrier_sense_threshold s =? carrier_sense_threshold (cached r))
      (setter (SetCarrierSense (carrier_sense_threshold s)) (fun c => with_carrier_sense c (carrier_sense_threshold s))) r.
Proof.
  intros (Hd & Hm & Hb & Hc) (Hd' & _). unfold apply_pending_settings, get_detection_threshold.
  rewrite (quantize_fixed (detection_threshold_db (cached r))) by done.
  rewrite set_threshold_as, set_filter_as, set_bandwidth_as, set_carrier_as.
  by rewrite !clamp_min by (unfold MAGN_TARGET_MAX, CHANNEL_BANDWIDTH_MAX_INDEX, CARRIER_SENSE_MAX; lia).
Qed.

Lemma settings_eta s : {| detection_threshold_db := detection_threshold_db s; magn_target := magn_target s;
  channel_bandwidth_index := channel_bandwidth_index s;
  carrier_sense_threshold := carrier_sense_threshold s |} = s.
Proof. by destruct s. Qed.

Lemma with_threshold_id s v : (v =? detection_threshold_db s) = true -> with_threshold s v = s.
Proof. intros ->%Z.eqb_eq. by destruct s. Qed.
Lemma with_magn_id s v : (v =? magn_target s) = true -> with_magn s v = s.
Proof. intros ->%Z.eqb_eq. by destruct s. Qed.
Lemma with_bandwidth_id s v : (v =? channel_bandwidth_index s) = true -> with_bandwidth s v = s.
Proof. intros ->%Z.eqb_eq. by destruct s. Qed.
Lemma with_carrier_sense_id s v : (v =? carrier_sense_threshold s) = true -> with_carrier_sense s v = s.
Proof. intros ->%Z.eqb_eq. by destruct s. Qed.

(** With a driver whose calls succeed, the settings end up programmed. *)
Lemma pending_reliable s r : RadioInBounds s -> Programmed r -> Reliable ->
  let r' := apply_pending_settings (Some s) r in
  cached r' = s /\ Programmed r' /\ frequency (k r') = frequency (k r) /\
  (if bool_decide (s = cached r) then r' = r else mode (k r') = Receive).
Proof.
  cbv zeta. intros Hs Hp Hr. pose proof Hs as (Hd & Hm & Hi & Hc). pose proof Hp as [Hb _].
  case_bool_decide as E.
  { assert (apply_pending_settings (Some s) r = r) as ->; [|by split_and!].
    rewrite pending_steps by done. subst s. cbv zeta. by do 4 (rewrite Z.eqb_refl; cbn [unless]). }
  rewrite pending_steps by done. cbv zeta.
  set (c1 := SetFilterLength _). set (f1 := fun c : RadioSettings => with_threshold c _).
  set (c2 := SetMagnTarget _). set (f2 := fun c : RadioSettings => with_magn c _).
  set (c3 := SetChannelBandwidth _). set (f3 := fun c : RadioSettings => with_bandwidth c _).
  set (c4 := SetCarrierSense _). set (f4 := fun c : RadioSettings => with_carrier_sense c _).
  assert (quantize_detection_threshold_db (detection_threshold_db s) = detection_threshold_db s) as Eq
    by (by apply quantize_fixed).
  destruct (unless_programmed (detection_threshold_db s =? detection_threshold_db (cached r)) c1 f1 r)
    as (P1 & F1 & S1 & M1 & _); [apply setting_threshold | unfold f1; rewrite Eq; apply with_threshold_id | done | done |].
  set (r1 := unless _ (setter c1 f1) r) in *.
  destruct (unless_programmed (magn_target s =? magn_target (cached r1)) c2 f2 r1)
    as (P2 & F2 & S2 & M2 & _); [by apply setting_magn | apply with_magn_id | done | done |].
  set (r2 := unless _ (setter c2 f2) r1) in *.
  destruct (unless_programmed (channel_bandwidth_index s =? channel_bandwidth_index (cached r2)) c3 f3 r2)
    as (P3 & F3 & S3 & M3 & _); [by apply setting_bandwidth | apply with_bandwidth_id | done | done |].
  set (r3 := unless _ (setter c3 f3) r2) in *.
  destruct (unless_programmed (carrier_sense_threshold s =? carrier_sense_threshold (cached r3)) c4 f4 r3)
    as (P4 & F4 & S4 & M4 & _); [by apply setting_carrier | apply with_carrier_sense_id | done | done |].
  set (r4 := unless _ (setter c4 f4) r3) in *.
  assert (cached r4 = s) as Es.
  { rewrite S4, S3, S2, S1. unfold f1. rewrite Eq. by destruct s. }
  split_and!; [done | done | congruence |].
  rewrite M4, M3, M2, M1, S3, S2, S1. unfold f1, f2, f3. clear -E.
  destruct s as [s1 s2 s3 s4], (cached r) as [t1 t2 t3 t4]. cbn.
  destruct (s1 =? t1) eqn:E1, (s2 =? t2) eqn:E2, (s3 =? t3) eqn:E3, (s4 =? t4) eqn:E4; try done.
  bools. by subst.
Qed.

(** A setter that fails at its own register leaves the chip idle. *)
Lemma setter_left_idle c f (r : Radio) d1 d2 : Setting c f ->
  run (SetRadioMode Idle) (driver r) = (true, d1) -> run c d1 = (false, d2) ->
  exists r2, setter c f r = (Err ConfigError, r2) /\ mode (k r2) = Idle /\ cached r2 = cached r.
Proof.
  intros Hset Hi1 Hc1. unfold setter, R_bind. cbn [calls]. unfold mbind, R_bind, call.
  rewrite Hi1. cbn. rewrite Hc1. eexists. split; [done|]. cbn. split; [|done].
  apply run_done in Hi1. apply run_failed in Hc1.
  destruct Hc1 as [->| ->]; [|destruct (setting_mode c f (chip d1) Hset) as [-> _]]; by rewrite Hi1.
Qed.

(** settings from the watch are applied one by one, and only those that
    differ. When every call of the driver succeeds the radio ends with exactly
    these settings, on the chip as in the cache, on the same frequency and
    receiving again; nothing is sent to the chip when nothing differs. When a
    call fails, each cached value is still valid and is the old or the new
    one - but a setter that fails after it has put the chip into idle mode
    leaves it there, not receiving, with its cached value unchanged. *)
Theorem pending_settings_spec (s : RadioSettings) (r : Radio)
    (Hs : RadioInBounds s) (Hb : RadioInBounds (cached r)) :
  let r' := apply_pending_settings (Some s) r in
  RadioInBounds (cached r') /\
  (Programmed r -> Reliable ->
    cached r' = s /\ Programmed r' /\ frequency (k r') = frequency (k r) /\
    (if bool_decide (s = cached r) then r' = r else mode (k r') = Receive)) /\
  (forall c f d1 d2, Setting c f -> run (SetRadioMode Idle) (driver r) = (true, d1) ->
    run c d1 = (false, d2) -> exists r2, setter c f r = (Err ConfigError, r2) /\
      mode (k r2) = Idle /\ cached r2 = cached r).
Proof.
  cbv zeta. pose proof Hs as (Hd & Hm & Hi & Hc). split_and!.
  - rewrite pending_steps by done. cbv zeta.
    repeat (apply unless_bounds; [by constructor|]). exact Hb.
  - intros Hp Hr. by apply pending_reliable.
  - intros c f d1 d2. apply setter_left_idle.
Qed.

(** *** Start-up *)

Lemma calls_ok cs r r' : calls cs r = (Ok tt, r') ->
  data_pin r' = data_pin r /\ cached r' = cached r /\ k r' = programs cs (k r).
Proof. intros E. pose proof (calls_spec cs r) as Hc. by rewrite E in Hc. Qed.

Lemma init_spec r r' : init r = (Ok tt, r') -> RadioInBounds (cached r) ->
  Programmed r' /\ cached r' = cached r /\ data_pin r' = data_pin r /\ frequency (k r') = 433920000.
Proof.
  intros Ei Hb. unfold init in Ei. unfold mbind, R_bind at 1 in Ei.
  destruct (calls _ r) as [[[]|e] r1] eqn:E1 in Ei; [|done].
  apply calls_ok in E1 as (D1 & C1 & K1). cbv zeta in Ei. unfold R_bind at 1 in Ei.
  destruct (call _ r1) as [[[]|e] r2] eqn:E2 in Ei; [|done].
  pose proof (call_spec (SetFilterLength (decision_boundary_for_threshold
    (quantize_detection_threshold_db (detection_threshold_db (cached r))))) r1) as H2.
  rewrite E2 in H2. destruct H2 as (D2 & C2 & K2).
  unfold R_bind at 1, cache in Ei. apply calls_ok in Ei as (D3 & C3 & K3). cbn in D3, C3, K3.
  assert (detection_threshold_db (cached r) = quantize_detection_threshold_db (detection_threshold_db (cached r))) as Eq
    by (symmetry; apply quantize_fixed, Hb).
  assert (cached r' = cached r) as Ec.
  { rewrite C3, C2, C1. rewrite <- Eq. by destruct (cached r). }
  split_and!; [|done|congruence|].
  - split; rewrite Ec; [done|]. rewrite K3, K2, K1. unfold programs. cbn.
    split_and!; cbn; try done. by rewrite boundary_quantized.
  - by rewrite K3, K2, K1.
Qed.

Lemma restore_clamps s (r : Radio) : 0 <= magn_target s -> 0 <= channel_bandwidth_index s -> 0 <= carrier_sense_threshold s ->
  cached (restore_settings_after_reset s r) = clamp_radio_config s.
Proof. intros Hm Hb Hc. cbn. unfold clamp_radio_config. by rewrite !min_clamp by done. Qed.

Lemma reliable_init r : Reliable -> exists r', init r = (Ok tt, r').
Proof.
  intros Hr. unfold init. unfold mbind, R_bind at 1.
  pose proof (reliable_calls [ResetChip; WhiteDataEnable false; SetFreqIf 203125; SetAutocalibrationFromIdle;
          SetMaxLnaGainBelow9_2; SetFrequency 433920000; SetModulationOok; SetSyncModeDisabled;
          SetPacketLengthInfinite; SetDataRate 4800;
          SetChannelBandwidth (channel_bandwidth_hz (channel_bandwidth_index (cached r)));
          SetMagnTarget (target_amplitude_for_level (magn_target (cached r)))] r Hr) as H1.
  destruct (calls _ r) as [res1 r1]. cbn in H1. subst res1. cbv zeta. unfold R_bind at 1, call.
  match goal with |- context [run ?c (driver r1)] => pose proof (Hr c (driver r1)) as H2 end.
  destruct (run _ (driver r1)) as [b d]. cbn in H2. subst b. unfold R_bind, cache.
  match goal with |- context [calls ?cs ?r2] => pose proof (reliable_calls cs r2 Hr) as H3 end.
  destruct (calls _ _) as [res r']. cbn in H3. subst res. by exists r'.
Qed.

(** *** Profiles *)

(** Nothing of the radio's settings changes. *)
Definition SameRadio (r r' : Radio) : Prop :=
  data_pin r' = data_pin r /\ cached r' = cached r /\ k r' = k r.

(** Every setting but the bandwidth. *)
Definition Settled (r : Radio) : Prop :=
  RadioInBounds (cached r) /\ magn (k r) = target_amplitude_for_level (magn_target (cached r)) /\
  boundary (k r) = decision_boundary_for_threshold (detection_threshold_db (cached r)) /\
  carrier_sense (k r) = carrier_sense_threshold (cached r).

Lemma programmed_settled r : Programmed r -> Settled r.
Proof. by intros [Hb (_ & Hm & Hd & Hc)]. Qed.

Lemma apply_profile_spec f b r : let (res, r') := apply_rf_profile f b r in
  data_pin r' = data_pin r /\
  magn (k r') = magn (k r) /\ boundary (k r') = boundary (k r) /\ carrier_sense (k r') = carrier_sense (k r) /\
  match res with
  | Ok _ => frequency (k r') = f /\ bandwidth (k r') = b /\ mode (k r') = Receive /\
      cached r' = with_bandwidth (cached r) (channel_bandwidth_index_of_hz b)
  | Err _ => cached r' = cached r
  end.
Proof.
  unfold apply_rf_profile, mbind, R_bind.
  pose proof (calls_spec [SetRadioMode Idle; SetFrequency f; SetChannelBandwidth b; SetRadioMode Receive] r) as Hc.
  destruct (calls _ r) as [[[]|e] r1]; destruct Hc as (Hd & Hs & Hk); cbn.
  - rewrite Hk, Hs. by split_and!.
  - destruct Hk as (_ & n & Hk). rewrite Hk. destruct n as [|[|[|[|[|n]]]]]; done.
Qed.

Lemma candidate_bandwidth c : c ∈ RF_SWEEP_CANDIDATES ->
  0 <= channel_bandwidth_index_of_hz (bandwidth_hz c) <= 3 /\
  channel_bandwidth_hz (channel_bandwidth_index_of_hz (bandwidth_hz c)) = bandwidth_hz c.
Proof.
  revert c. apply Forall_forall. repeat constructor; cbn; done.
Qed.

(** A profile of the table replaces frequency and bandwidth and nothing
    else. *)
Lemma profile_programmed c r r' : c ∈ RF_SWEEP_CANDIDATES -> Settled r ->
  apply_rf_profile (freq_hz c) (bandwidth_hz c) r = (Ok tt, r') ->
  Programmed r' /\ frequency (k r') = freq_hz c /\ mode (k r') = Receive /\ data_pin r' = data_pin r /\
  cached r' = with_bandwidth (cached r) (channel_bandwidth_index_of_hz (bandwidth_hz c)).
Proof.
  intros Hc ((Hd & Hm & Hb & Hs) & Pm & Pd & Pc) E.
  pose proof (apply_profile_spec (freq_hz c) (bandwidth_hz c) r) as Hp. rewrite E in Hp.
  destruct Hp as (Hpin & Kmg & Kd & Kc & Kf & Kb & Km & Ec). destruct (candidate_bandwidth c Hc) as [Hi Hz].
  split_and!; try done. split; rewrite Ec; unfold with_bandwidth.
  - unfold RadioInBounds. cbn. split; [done | lia].
  - unfold Programs. cbn. rewrite Kb, Kmg, Kd, Kc. by split_and!.
Qed.

Lemma with_bandwidth_twice s b b' : with_bandwidth (with_bandwidth s b) b' = with_bandwidth s b'.
Proof. done. Qed.

(** Nothing but the bandwidth changes in the cache. *)
Definition SameBut (r r' : Radio) : Prop :=
  data_pin r' = data_pin r /\ exists bw, cached r' = with_bandwidth (cached r) bw.
Lemma same_but r r' : SameRadio r r' -> SameBut r r'.
Proof.
  intros (Hd & Hc & _). split; [done|]. exists (channel_bandwidth_index (cached r)). rewrite Hc. by destruct (cached r).
Qed.
Lemma same_but_trans r r1 r2 : SameBut r r1 -> SameBut r1 r2 -> SameBut r r2.
Proof. intros [D1 [b1 E1]] [D2 [b2 E2]]. split; [congruence|]. exists b2. by rewrite E2, E1. Qed.

(** An attempt that fails leaves the rest as it was. *)
Lemma profile_settled c r : c ∈ RF_SWEEP_CANDIDATES -> Settled r ->
  let (res, r') := apply_rf_profile (freq_hz c) (bandwidth_hz c) r in Settled r' /\ SameBut r r'.
Proof.
  intros Hc Hs. pose proof (apply_profile_spec (freq_hz c) (bandwidth_hz c) r) as Hp.
  destruct (apply_rf_profile _ _ r) as [[[]|e] r'] eqn:E.
  - apply profile_programmed in E as (Hp' & _ & _ & Hd & Hb); [|done..].
    split; [by apply programmed_settled|]. split; [done | by eexists].
  - destruct Hp as (Hd & Km & Kd & Kc & Ec). split; [unfold Settled; by rewrite Ec, Km, Kd, Kc|].
    split; [done|]. exists (channel_bandwidth_index (cached r)). rewrite Ec. by destruct (cached r).
Qed.

Lemma same_settled r r' : SameRadio r r' -> Settled r -> Settled r'.
Proof. intros (_ & Hc & Hk). unfold Settled. by rewrite Hc, Hk. Qed.
Lemma same_programmed r r' : SameRadio r r' -> Programmed r -> Programmed r'.
Proof. intros (_ & Hc & Hk). unfold Programmed. by rewrite Hc, Hk. Qed.

Lemma reliable_profile f b r : Reliable -> exists r', apply_rf_profile f b r = (Ok tt, r').
Proof.
  intros Hr. unfold apply_rf_profile, mbind, R_bind.
  pose proof (reliable_calls [SetRadioMode Idle; SetFrequency f; SetChannelBandwidth b; SetRadioMode Receive] r Hr) as Hc.
  destruct (calls _ r) as [res r1]. cbn in Hc. subst res. by eexists.
Qed.

(** *** Samples *)

(** After [j] samples; [pin] is whether the data pin is still the radio's. *)
Record StatsOk (j : Z) (pin : bool) (previous : option bool) (s : SignalStats) : Prop := {
  so_count : 0 <= sample_count s <= j;
  so_toggles : 0 <= pin_gdo0_toggles s <= sample_count s;
  so_high : 0 <= pin_gdo0_high_samples s <= sample_count s;
  so_packet : 0 <= pkt_gdo0_high_samples s <= sample_count s;
  so_blind : pin = false -> pin_gdo0_toggles s = 0 /\ pin_gdo0_high_samples s = 0 /\ previous <> Some true
}.

Lemma stats_snapshot j pin previous snapshot s : StatsOk j pin previous s -> j < 65535 ->
  (pin = false -> pin_gdo0 snapshot = false) ->
  StatsOk (j + 1) pin (Some (pin_gdo0 snapshot)) (count_snapshot previous snapshot s).
Proof.
  intros [Hc Ht Hh Hp Hb] Hj Hpin.
  assert (forall x, 0 <= x <= j + 1 -> wrap 16 x = x) as Hw
    by (intros x Hx; apply Z.mod_small; num).
  assert (forall b, 0 <= Z.b2z b <= 1) as Hz by (intros []; cbn; lia).
  pose proof (Hz (pin_gdo0 snapshot)). pose proof (Hz (pktstatus_gdo0 snapshot)).
  split; cbn.
  - rewrite Hw; lia.
  - rewrite (Hw (sample_count s + 1)) by lia. destruct previous as [p|]; [|lia]. case_match; [rewrite Hw by lia|]; lia.
  - rewrite !Hw; lia.
  - rewrite !Hw; lia.
  - intros E. destruct (Hb E) as (T0 & Hi0 & Hprev). rewrite (Hpin E), Hi0. cbn. split_and!; try done.
    destruct previous as [[]|]; [done | done |]. done.
Qed.

Lemma sample_loop_spec n : forall previous s r j, StatsOk j (data_pin r) previous s ->
  j + Z.of_nat n <= 65535 ->
  let (s', r') := sample_loop n previous s r in
  SameRadio r r' /\ exists previous', StatsOk (j + Z.of_nat n) (data_pin r) previous' s'.
Proof.
  induction n as [|n IH]; intros previous s r j Hs Hj; cbn [sample_loop].
  { split; [done|]. exists previous. by rewrite Z.add_0_r. }
  rewrite Nat2Z.inj_succ in *. unfold get_rssi_dbm. pose proof (rssi_chip (driver r)) as Hr.
  destruct (get_rssi (driver r)) as [rssi d]. cbn in Hr. unfold signal_snapshot. cbn [driver with_driver].
  pose proof (status_chip d) as Hst. destruct (get_packet_status d) as [status d']. cbn in Hst.
  set (s1 := match match rssi with Some _ => _ | None => _ end with Ok _ => _ | Err _ => _ end).
  assert (StatsOk j (data_pin r) previous s1) as Hs1.
  { unfold s1. destruct rssi; cbn; [|done]. destruct Hs. by split. }
  set (r2 := with_driver (with_driver r d) d').
  assert (SameRadio r r2) as H2 by (unfold SameRadio; cbn; by rewrite Hst, Hr).
  destruct status as [status|]; cbn beta iota match zeta.
  - match goal with |- context [sample_loop n (Some ?p) ?s2 ?r3] =>
      assert (StatsOk (j + 1) (data_pin r2) (Some p) s2) as Hs2 end.
    { apply (stats_snapshot j (data_pin r) previous); [done | lia |]. cbn. by intros ->. }
    specialize (IH _ _ r2 _ Hs2 ltac:(lia)). destruct (sample_loop n _ _ _) as [s' r'].
    destruct IH as [(Hd & Hc & Hk) [p' Hp]]. destruct H2 as (D2 & C2 & K2).
    split; [by unfold SameRadio; rewrite Hd, Hc, Hk|]. exists p'. by replace (j + Z.succ (Z.of_nat n)) with (j + 1 + Z.of_nat n) by lia.
  - assert (StatsOk (j + 1) (data_pin r2) previous s1) as Hs2 by (destruct Hs1; split; [lia | done..]).
    specialize (IH _ _ r2 _ Hs2 ltac:(lia)). destruct (sample_loop n _ _ _) as [s' r'].
    destruct IH as [(Hd & Hc & Hk) [p' Hp]]. destruct H2 as (D2 & C2 & K2).
    split; [by unfold SameRadio; rewrite Hd, Hc, Hk|]. exists p'. by replace (j + Z.succ (Z.of_nat n)) with (j + 1 + Z.of_nat n) by lia.
Qed.

Lemma sample_spec n r : Z.of_nat n <= 65535 ->
  let (s, r') := sample_signal_stats n r in
  SameRadio r r' /\ 0 <= score s <= Z.of_nat n * 111 /\ (data_pin r = false -> score s <= Z.of_nat n).
Proof.
  intros Hn. unfold sample_signal_stats.
  assert (StatsOk 0 (data_pin r) None SignalStats_new) as Hs by (by split; cbn).
  pose proof (sample_loop_spec n None SignalStats_new r 0 Hs ltac:(lia)) as Hl.
  destruct (sample_loop _ _ _ _) as [s r']. destruct Hl as [Hr [p [Hc Ht Hh Hp Hb]]].
  split; [done|]. unfold score. split; [lia|]. intros E. destruct (Hb E) as (-> & -> & _). lia.
Qed.

(** *** The sweep *)

(** The candidates that could be set, each with its score, in order. *)
Fixpoint sweep_scores (candidates : list (nat * RfSweepCandidate)) (r : Radio)
  : list (nat * RfSweepCandidate * Z) * Radio :=
  match candidates with
  | [] => ([], r)
  | (index, candidate) :: candidates =>
      match apply_rf_profile (freq_hz candidate) (bandwidth_hz candidate) r with
      | (Err _, r) => sweep_scores candidates r
      | (Ok _, r) =>
          let (stats, r) := sample_signal_stats RF_SWEEP_DWELL_SAMPLES r in
          let (l, r) := sweep_scores candidates r in ((index, candidate, score stats) :: l, r)
      end
  end.
Definition better (best : option (nat * RfSweepCandidate * Z)) (x : nat * RfSweepCandidate * Z) :=
  if match best with Some (_, _, best_score) => best_score <? x.2 | None => true end then Some x else best.

Lemma sweep_loop_scores cs best r :
  sweep_loop cs best r = (foldl better best (sweep_scores cs r).1, (sweep_scores cs r).2).
Proof.
  revert best r. induction cs as [|[i c] cs IH]; intros best r; cbn [sweep_loop sweep_scores]; [done|].
  destruct (apply_rf_profile _ _ r) as [[[]|e] r1]; [|apply IH].
  destruct (sample_signal_stats _ r1) as [stats r2]. rewrite IH.
  by destruct (sweep_scores cs r2) as [l r3].
Qed.

(** The first of the best ones. *)
Lemma better_first l : match foldl better None l with
  | None => l = []
  | Some x => exists l1 l2, l = l1 ++ x :: l2 /\ Forall (fun y => y.2 < x.2) l1 /\ Forall (fun y => y.2 <= x.2) l2
  end.
Proof.
  induction l as [|y l IH] using rev_ind; [done|]. rewrite foldl_snoc.
  destruct (foldl better None l) as [x|]; cbn.
  - destruct IH as (l1 & l2 & -> & H1 & H2). destruct x as [xi xs]. cbn in *. unfold better. cbn.
    destruct xi as [xi xc]. destruct (xs <? y.2) eqn:E; bools.
    + exists ((l1 ++ (xi, xc, xs) :: l2)), []. split; [done|]. split; [|done].
      apply Forall_app. split; [eapply Forall_impl; [exact H1|]; cbn; lia|].
      constructor; [done|]. eapply Forall_impl; [exact H2|]; cbn; lia.
    + exists l1, (l2 ++ [y]). rewrite <- app_assoc. split; [done|]. split; [done|].
      apply Forall_app. by split; [|constructor].
  - subst l. by exists [], [].
Qed.

Lemma scores_indices cs r : (fun x => x.1) <$> (sweep_scores cs r).1 `sublist_of` cs.
Proof.
  revert r. induction cs as [|[i c] cs IH]; intros r; cbn [sweep_scores]; [constructor|].
  destruct (apply_rf_profile _ _ r) as [[[]|e] r1]; [|by constructor].
  destruct (sample_signal_stats _ r1) as [stats r2]. specialize (IH r2).
  destruct (sweep_scores cs r2) as [l r3]. cbn in *. by constructor.
Qed.

(** A candidate with a smaller index comes first. *)
Lemma sorted_sublist {A} (Rel : relation A) l l' : l `sublist_of` l' -> StronglySorted Rel l' -> StronglySorted Rel l.
Proof.
  induction 1 as [|x l l' Hl IH|x l l' Hl IH]; [done | |]; intros [Hs Hf]%StronglySorted_inv; [|by apply IH].
  constructor; [by apply IH|]. apply Forall_forall. intros y Hy.
  apply (proj1 (Forall_forall _ _) Hf). eapply elem_of_submseteq; [exact Hy | by apply sublist_submseteq].
Qed.

Lemma first_before i c s l1 l2 j c' s' :
  (fun x : nat * RfSweepCandidate * Z => x.1) <$> (l1 ++ (i, c, s) :: l2) `sublist_of` imap pair RF_SWEEP_CANDIDATES ->
  Forall (fun y => y.2 < s) l1 -> Forall (fun y => y.2 <= s) l2 ->
  (j, c', s') ∈ l1 ++ (i, c, s) :: l2 -> s' <= s /\ ((j < i)%nat -> s' < s).
Proof.
  intros Hsub H1 H2 Hj.
  assert (StronglySorted (fun a b : nat * RfSweepCandidate => (a.1 < b.1)%nat) (imap pair RF_SWEEP_CANDIDATES)) as Hso.
  { cbn. repeat (constructor; [|repeat constructor; cbn; lia]). constructor. }
  apply (sorted_sublist _ _ _ Hsub) in Hso. rewrite fmap_app in Hso. cbn in Hso.
  rewrite elem_of_app, elem_of_cons in Hj. destruct Hj as [Hj|[[= -> -> ->]|Hj]].
  - pose proof (proj1 (Forall_forall _ _) H1 _ Hj) as Hs. cbn in Hs. lia.
  - lia.
  - pose proof (proj1 (Forall_forall _ _) H2 _ Hj) as Hs. cbn in Hs. split; [done|].
    apply StronglySorted_app_1_r, StronglySorted_inv in Hso as [_ Hf].
    apply (list_elem_of_fmap_2 fst) in Hj as Hj'.
    rewrite Forall_forall in Hf. specialize (Hf (j, c')). cbn in Hf.
    intros Hlt. assert (i < j)%nat; [|lia]. apply Hf. apply list_elem_of_fmap. by exists (j, c', s').
Qed.

Lemma scores_spec cs r : Forall (fun x => x.2 ∈ RF_SWEEP_CANDIDATES) cs -> Settled r ->
  let (l, r') := sweep_scores cs r in
  Settled r' /\ SameBut r r' /\ (Reliable -> length l = length cs) /\
  Forall (fun x => 0 <= x.2 <= 24 * 111 /\ (data_pin r = false -> x.2 <= 24)) l.
Proof.
  revert r. induction cs as [|[i c] cs IH]; intros r Hcs Hs; cbn [sweep_scores].
  { split_and!; [done | by apply same_but | done | constructor]. }
  apply Forall_cons in Hcs as [Hc Hcs]. cbn in Hc.
  pose proof (profile_settled c r Hc Hs) as Hp. pose proof (reliable_profile (freq_hz c) (bandwidth_hz c) r) as Hrel.
  destruct (apply_rf_profile _ _ r) as [[[]|e] r1]; destruct Hp as [Hs1 Hb1].
  - pose proof (sample_spec RF_SWEEP_DWELL_SAMPLES r1 ltac:(done)) as Hsm.
    destruct (sample_signal_stats _ r1) as [stats r2]. destruct Hsm as (Hsame & Hb & Hblind).
    specialize (IH r2 Hcs (same_settled _ _ Hsame Hs1)). destruct (sweep_scores cs r2) as [l r3].
    assert (SameBut r r2) as Hb2 by (eapply same_but_trans; [exact Hb1 | by apply same_but]).
    destruct IH as (Hs3 & Hb3 & Hn & Hl). rewrite (proj1 Hb2) in Hl.
    split_and!; [done | by eapply same_but_trans | intros Hr; cbn; by rewrite Hn |].
    constructor; [|done]. cbn. rewrite (proj1 Hb1) in Hblind. by split.
  - specialize (IH r1 Hcs Hs1). destruct (sweep_scores cs r1) as [l r3].
    destruct IH as (Hs3 & Hb3 & Hn & Hl). rewrite (proj1 Hb1) in Hl.
    split_and!; [done | by eapply same_but_trans | | done]. intros Hr. by destruct (Hrel Hr) as [? ?].
Qed.

Definition indexed : list (nat * RfSweepCandidate) := imap pair RF_SWEEP_CANDIDATES.

Lemma indexed_spec i c : (i, c) ∈ indexed -> RF_SWEEP_CANDIDATES !! i = Some c.
Proof.
  intros Hi. apply elem_of_lookup_imap in Hi as (j & c' & E & Hl). injection E as <- <-. done.
Qed.
Lemma indexed_candidates : Forall (fun x => x.2 ∈ RF_SWEEP_CANDIDATES) indexed.
Proof.
  apply Forall_forall. intros [i c] Hi. by apply indexed_spec, list_elem_of_lookup_2 in Hi.
Qed.

Lemma sweep_result r : Settled r ->
  let (selected, r') := run_rf_sweep r in
  (Reliable -> is_Some selected) /\ SameBut r r' /\ Settled r' /\
  forall i, selected = Some i -> exists c s l1 l2, (sweep_scores indexed r).1 = l1 ++ (i, c, s) :: l2 /\
    Forall (fun y => y.2 < s) l1 /\ Forall (fun y => y.2 <= s) l2 /\
    RF_SWEEP_CANDIDATES !! i = Some c /\ Programmed r' /\ frequency (k r') = freq_hz c /\ mode (k r') = Receive /\
    cached r' = with_bandwidth (cached r) (channel_bandwidth_index_of_hz (bandwidth_hz c)).
Proof.
  intros Hs. pose proof (scores_spec indexed r indexed_candidates Hs) as Hsc.
  pose proof (scores_indices indexed r) as Hsub. unfold run_rf_sweep. cbn [negb RF_SWEEP_ENABLED].
  rewrite sweep_loop_scores. fold indexed. destruct (sweep_scores indexed r) as [l r1]. cbn [fst snd] in *.
  destruct Hsc as (Hs1 & Hb1 & Hn & _). pose proof (better_first l) as Hbest.
  destruct (foldl better None l) as [[[i c] s]|].
  - destruct Hbest as (l1 & l2 & -> & H1 & H2).
    assert ((i, c) ∈ indexed) as Hic.
    { eapply elem_of_submseteq; [|apply sublist_submseteq; exact Hsub]. rewrite fmap_app. set_solver. }
    pose proof (proj1 (Forall_forall _ _) indexed_candidates _ Hic) as Hc. cbn in Hc.
    pose proof (profile_settled c r1 Hc Hs1) as Hp. pose proof (reliable_profile (freq_hz c) (bandwidth_hz c) r1) as Hrel.
    destruct (apply_rf_profile _ _ r1) as [[[]|e] r2] eqn:Ea; destruct Hp as [Hs2 Hb2];
      (split_and!; [intros Hr; by destruct (Hrel Hr) | by eapply same_but_trans | done |]); [|done].
    intros ? [= <-]. apply profile_programmed in Ea as (Hp & Hf & Hm & _ & Hcached); [|done..].
    exists c, s, l1, l2. split_and!; try done; [by apply indexed_spec|].
    destruct Hb1 as [_ [bw Eb]]. by rewrite Hcached, Eb.
  - subst l. split_and!; [|done..]. intros Hr. by specialize (Hn Hr).
Qed.

(** the sweep over the eight RF profiles, calls of the driver failing as
    they like: it selects the first of the profiles with the highest score
    among those it could set (all eight when no call fails), and leaves the
    chip receiving on that profile, with the cached bandwidth to match and the
    other settings as they were. A score lies between 0 and 2664, no counter
    wraps - and once the data pin has been handed to the pulse receiver, as
    in the build that uses the RMT peripheral, it is at most 24: the two pin
    terms that carry the weights are always zero then. *)
Theorem sweep_spec (r : Radio) (Hs : Settled r) :
  let scores := (sweep_scores indexed r).1 in
  let (selected, r') := run_rf_sweep r in
  (Reliable -> length scores = 8%nat /\ is_Some selected) /\ Settled r' /\
  Forall (fun x => 0 <= x.2 <= 2664 /\ (data_pin r = false -> x.2 <= 24)) scores /\
  forall i, selected = Some i -> exists c s, (i, c, s) ∈ scores /\ RF_SWEEP_CANDIDATES !! i = Some c /\
    (forall j c' s', (j, c', s') ∈ scores -> s' <= s /\ ((j < i)%nat -> s' < s)) /\
    Programmed r' /\ frequency (k r') = freq_hz c /\ mode (k r') = Receive.
Proof.
  cbv zeta. pose proof (scores_spec indexed r indexed_candidates Hs) as Hsc.
  pose proof (scores_indices indexed r) as Hsub. pose proof (sweep_result r Hs) as Hres.
  destruct (run_rf_sweep r) as [selected r']. destruct (sweep_scores indexed r) as [l r1]. cbn [fst snd] in *.
  destruct Hsc as (_ & _ & Hn & Hl). destruct Hres as (Hrel & _ & Hs' & Hres).
  split_and!; [|done|done|]. { intros Hr. split; [by apply Hn | by apply Hrel]. }
  intros i Hi. destruct (Hres i Hi) as (c & s & l1 & l2 & -> & H1 & H2 & Hc & Hp & Hf & Hm & _).
  exists c, s. split_and!; [set_solver | done | | done..].
  intros j c' s' Hj. by apply (first_before i c s l1 l2 j c' s').
Qed.

(** *** The profile across sleep *)

Lemma persisted_profile i word : (i < 8)%nat ->
  load_persisted_rf_profile_index (persist_rf_profile_index i word)
  = (Some i, persist_rf_profile_index i word).
Proof.
  intros Hi. unfold persist_rf_profile_index, try_from_u. rewrite (proj2 (Z.leb_le _ _)) by lia.
  rewrite (proj2 (Z.leb_le _ _)) by num. cbn [andb]. unfold load_persisted_rf_profile_index.
  rewrite decode_encode_rf by (cbn; num). cbn [value needs_migration profile_index].
  rewrite Nat2Z.id. cbn [length RF_SWEEP_CANDIDATES]. by rewrite (proj2 (Nat.leb_gt _ _)).
Qed.

(** Whatever the word, the index is one of the table's. *)
Lemma loaded_profile word i : (load_persisted_rf_profile_index word).1 = Some i ->
  exists c, RF_SWEEP_CANDIDATES !! i = Some c /\ c ∈ RF_SWEEP_CANDIDATES.
Proof.
  unfold load_persisted_rf_profile_index. intros Hl.
  destruct (decode_rf_profile word) as [decoded|]; [|done].
  destruct (length RF_SWEEP_CANDIDATES <=? _)%nat eqn:E; [done|]. apply Nat.leb_gt in E.
  injection Hl as <-. destruct (lookup_lt_is_Some_2 _ _ E) as [c Hc].
  exists c. split; [done|]. by eapply list_elem_of_lookup_2.
Qed.

(** The profile a word holds. *)
Definition profile_of (word : Z) : option RfSweepCandidate :=
  (load_persisted_rf_profile_index word).1 ≫= (RF_SWEEP_CANDIDATES !!.).

Lemma profile_persisted i c word : RF_SWEEP_CANDIDATES !! i = Some c ->
  profile_of (persist_rf_profile_index i word) = Some c.
Proof.
  intros Hi. unfold profile_of. rewrite persisted_profile by (by apply lookup_lt_Some in Hi). exact Hi.
Qed.

Lemma decoded_profile_nonneg word d : decode_rf_profile word = Ok d -> 0 <= profile_index (value d).
Proof.
  unfold decode_rf_profile, word_bytes, mbind, result_bind. intros Hd.
  repeat (case_match; try discriminate Hd); injection Hd as <-; cbn; apply Z.mod_pos_bound; done.
Qed.

(** Loading may write the word anew, with the same profile. *)
Lemma profile_reloaded word : profile_of (load_persisted_rf_profile_index word).2 = profile_of word.
Proof.
  destruct (load_persisted_rf_profile_index word) as [o word'] eqn:E. cbn [snd].
  pose proof E as E'. unfold load_persisted_rf_profile_index in E.
  destruct (decode_rf_profile word) as [d|] eqn:Ed; [|by injection E as <- <-].
  destruct (length _ <=? _)%nat eqn:El; [by injection E as <- <-|].
  destruct (needs_migration d) eqn:Em; injection E as <- <-; [|done].
  apply Nat.leb_gt in El. assert (0 <= profile_index (value d)) as Hv by (by eapply decoded_profile_nonneg).
  cbn [length RF_SWEEP_CANDIDATES] in El.
  destruct (lookup_lt_is_Some_2 RF_SWEEP_CANDIDATES (Z.to_nat (profile_index (value d))) El) as [c Hc].
  assert (encode_rf_profile (value d) = persist_rf_profile_index (Z.to_nat (profile_index (value d))) 0) as ->.
  { unfold persist_rf_profile_index, try_from_u. rewrite Z2Nat.id by done.
    rewrite (proj2 (Z.leb_le _ _)), (proj2 (Z.leb_le _ _)) by num. cbn. by destruct (value d). }
  rewrite (profile_persisted _ c) by done. unfold profile_of. rewrite E'. by rewrite <- Hc.
Qed.

(** The sweep from this radio selects the profile: of those with the highest
    score, the first. *)
Definition Swept (r : Radio) (i : nat) (c : RfSweepCandidate) : Prop :=
  RF_SWEEP_CANDIDATES !! i = Some c /\ exists score, (i, c, score) ∈ (sweep_scores indexed r).1 /\
  forall j c' score', (j, c', score') ∈ (sweep_scores indexed r).1 ->
    score' <= score /\ ((j < i)%nat -> score' < score).

(** What a profile makes of frequency and settings. *)
Definition on_profile (profile : option RfSweepCandidate) (s : RadioSettings) : RadioSettings :=
  match profile with
  | Some c => with_bandwidth s (channel_bandwidth_index_of_hz (bandwidth_hz c))
  | None => s
  end.

Lemma choose_profile_spec cold_boot word r : Programmed r -> Reliable -> mode (k r) = Receive -> exists word' r',
  choose_rf_profile cold_boot word r = Some (word', r') /\
  Programmed r' /\ mode (k r') = Receive /\
  frequency (k r') = from_option freq_hz (frequency (k r)) (profile_of word') /\
  cached r' = on_profile (profile_of word') (cached r) /\
  if cold_boot then exists i c, word' = persist_rf_profile_index i word /\ profile_of word' = Some c /\ Swept r i c
  else profile_of word' = profile_of word.
Proof.
  intros Hprog Hr Hmode. pose proof (programmed_settled _ Hprog) as Hs. unfold choose_rf_profile. destruct cold_boot.
  - pose proof (sweep_result r Hs) as Hsw. pose proof (scores_indices indexed r) as Hsub.
    destruct (run_rf_sweep r) as [selected r1].
    destruct Hsw as (Hrel & _ & _ & Hsel). destruct (Hrel Hr) as [i ->].
    destruct (Hsel i eq_refl) as (c & s & l1 & l2 & El & H1 & H2 & Hi & Hp & Hf & Hm & Hc).
    pose proof (profile_persisted i c word Hi) as Hw. eexists _, r1. rewrite Hw. split_and!; try done.
    exists i, c. split_and!; [done..|]. split; [done|]. exists s. rewrite El in Hsub |- *. split; [set_solver|].
    intros j c' s' Hj. by apply (first_before i c s l1 l2 j c' s').
  - pose proof (loaded_profile word) as Hl. pose proof (profile_reloaded word) as Hw. revert Hl Hw.
    unfold profile_of at 2. destruct (load_persisted_rf_profile_index word) as [[i|] word'] eqn:E;
      cbn [fst snd]; intros Hl Hw.
    + destruct (Hl i eq_refl) as (c & Hi & Hc). cbn [mbind option_bind] in *. rewrite Hi in Hw |- *.
      cbn [mbind option_bind]. destruct (reliable_profile (freq_hz c) (bandwidth_hz c) r Hr) as [r2 E2].
      unfold ignore. rewrite E2. apply profile_programmed in E2 as (Hp & Hf & Hm & _ & Hca); [|done..].
      exists word', r2. rewrite Hw. split_and!; try done. unfold profile_of. rewrite E. cbn. by rewrite Hi.
    + cbn [mbind option_bind] in Hw. exists word', r. rewrite Hw. split_and!; try done.
      unfold profile_of. by rewrite E.
Qed.

(** *** Ready to receive *)

Lemma apply_settings_steps s r : Reliable -> RadioInBounds s -> Programmed r ->
  let r' := ignore (apply_settings s) r in
  Programmed r' /\ cached r' = s /\ mode (k r') = Receive /\ frequency (k r') = frequency (k r) /\
  data_pin r' = data_pin r.
Proof.
  intros Hr (Hd & Hm & Hi & Hc) Hp. unfold apply_settings, ignore, mbind.
  rewrite set_threshold_as, set_filter_as, set_bandwidth_as, set_carrier_as.
  rewrite !clamp_min by (unfold MAGN_TARGET_MAX, CHANNEL_BANDWIDTH_MAX_INDEX, CARRIER_SENSE_MAX; lia).
  unfold R_bind.
  destruct (setter_programmed _ _ r (setting_threshold (detection_threshold_db s)) Hp Hr)
    as (r1 & -> & D1 & C1 & P1 & M1 & F1).
  destruct (setter_programmed _ _ r1 (setting_magn _ Hm) P1 Hr) as (r2 & -> & D2 & C2 & P2 & M2 & F2).
  destruct (setter_programmed _ _ r2 (setting_bandwidth _ Hi) P2 Hr) as (r3 & -> & D3 & C3 & P3 & M3 & F3).
  destruct (setter_programmed _ _ r3 (setting_carrier _ Hc) P3 Hr) as (r4 & -> & D4 & C4 & P4 & M4 & F4).
  cbn. split_and!; [done | | done | congruence | congruence].
  rewrite C4, C3, C2, C1, (quantize_fixed (detection_threshold_db s)) by done. by destruct s.
Qed.

Lemma load_again d : let (s, d') := load_settings d in (load_settings d').1 = s.
Proof.
  pose proof (load_radio_stable d) as Hs. unfold radio_load_settings_or_default in Hs.
  destruct (load_settings d) as [s d'] eqn:E. destruct Hs as (_ & _ & Hs). specialize (Hs d' eq_refl).
  unfold load_settings in E. destruct (decode_radio_settings (PERSISTED_RADIO_SETTINGS_WORD d)) as [decoded|] eqn:Ed.
  - destruct (load_settings d') as [[s'|] d''] eqn:E'; cbn in Hs.
    + injection E as <- _. cbn in *. by subst.
    + exfalso. unfold load_settings in E'.
      injection E as <- <-. destruct (bool_decide _) eqn:Eb.
      * cbn [PERSISTED_RADIO_SETTINGS_WORD set_radio_word] in E'.
        rewrite decode_encode_radio in E' by (apply radio_fits, clamp_radio_bounds). by destruct (bool_decide _) in E'.
      * rewrite Ed in E'. by destruct (bool_decide _) in E'.
  - injection E as <- <-. unfold load_settings. by rewrite Ed.
Qed.

Lemma load_in_bounds d s : (load_settings d).1 = Some s -> RadioInBounds s.
Proof.
  unfold load_settings. destruct (decode_radio_settings _); [|done]. intros [= <-]. apply clamp_radio_bounds.
Qed.

(** C21: from power-on to the pulse capture, with any contents of RTC memory
    and whether or not the data pin has been handed to the pulse receiver in
    between: when the chip answers and no call to it fails, the radio ends
    receiving, programmed with exactly the settings it reports. After a cold
    boot it is on the profile of the sweep - the first among those with the
    highest score, measured from a radio programmed with the loaded settings -
    and that profile is persisted; after sleep it is on the persisted profile,
    which stays persisted, or on 433.92 MHz when there is none: so a device
    that sleeps wakes up on the frequency it had chosen. The settings are the
    persisted ones if there are any, otherwise the defaults on the bandwidth of
    the profile. Nothing in RTC memory makes it panic. (A call that fails may
    leave the chip idle: [pending_settings_spec].) *)
Theorem radio_ready (cold_boot pin : bool) (word : Z) (d : Device) (r0 : Radio)
    (Hrel : Reliable) (Hhw : forall c : D, is_Some (get_hw_info c).1) :
  let (s0, d1) := radio_load_settings_or_default d in
  exists r1, init (restore_settings_after_reset s0 r0) = (Ok tt, r1) /\
  exists s word' d2 r2,
    prepare_radio_for_capture cold_boot word d1
      {| driver := driver r1; data_pin := pin; cached := cached r1 |} = Some (Ok s, word', d2, r2) /\
    cached r2 = s /\ Programmed r2 /\ mode (k r2) = Receive /\
    frequency (k r2) = from_option freq_hz 433920000 (profile_of word') /\
    s = default (on_profile (profile_of word') DEFAULT_RADIO_SETTINGS) (load_settings d).1 /\
    if cold_boot then exists r3 i c, Programmed r3 /\ cached r3 = s0 /\ data_pin r3 = pin /\ Swept r3 i c /\
      word' = persist_rf_profile_index i word /\ profile_of word' = Some c
    else profile_of word' = profile_of word.
Proof.
  pose proof (load_radio_stable d) as Hst. pose proof (load_again d) as Hag.
  pose proof (load_in_bounds d) as Hlb. unfold radio_load_settings_or_default in *.
  destruct (load_settings d) as [p d1]. destruct Hst as (Hb0 & _ & _). set (s0 := default _ p) in *.
  destruct (reliable_init (restore_settings_after_reset s0 r0) Hrel) as [r1 Ei]. exists r1. split; [done|].
  pose proof (init_spec _ _ Ei) as Hinit.
  rewrite restore_clamps, (clamp_radio_fixed s0) in Hinit by (done || apply Hb0).
  destruct (Hinit Hb0) as (Hp1 & Hc1 & _ & Hf1). clear Hinit.
  unfold prepare_radio_for_capture. cbn [driver].
  pose proof (hw_info_chip (driver r1)) as Hk. pose proof (Hhw (driver r1)) as Hi.
  destruct (get_hw_info (driver r1)) as [info c]. cbn in Hk, Hi. destruct Hi as [hw ->].
  set (r2 := with_driver _ c). pose proof (call_spec (SetRadioMode Receive) r2) as Hcall.
  pose proof (Hrel (SetRadioMode Receive) (driver r2)) as Hok. unfold call in *.
  destruct (run _ (driver r2)) as [b c']. cbn in Hok. subst b. cbn in Hcall. destruct Hcall as (_ & _ & Hk2).
  set (r3 := with_driver r2 c').
  assert (Programmed r3) as Hp3.
  { destruct Hp1 as [? ?]. split; cbn; rewrite ?Hc1 in *; [done|]. rewrite Hk2, Hk. done. }
  assert (frequency (k r3) = 433920000 /\ mode (k r3) = Receive) as [Hf3 Hm3] by (cbn; by rewrite Hk2, Hk).
  destruct (choose_profile_spec cold_boot word r3 Hp3 Hrel Hm3) as (word' & r4 & -> & Hp4 & Hm4 & Hf4 & Hb4 & Hch).
  cbn [mbind option_bind].
  destruct (load_settings d1) as [p' d2]. cbn in Hag. subst p'.
  set (r5 := match p with Some s => ignore (apply_settings s) r4 | None => r4 end).
  assert (Programmed r5 /\ mode (k r5) = Receive /\ frequency (k r5) = frequency (k r4) /\
    match p with Some s => cached r5 = s | None => cached r5 = cached r4 end) as (Hp5 & Hm5 & Hf5 & Hc5).
  { unfold r5. destruct p as [s|]; [|done].
    destruct (apply_settings_steps s r4 Hrel (Hlb s eq_refl) Hp4) as (? & ? & ? & ? & _). by split_and!. }
  pose proof (sample_spec 60 r5 ltac:(done)) as Hsm. destruct (sample_signal_stats 60 r5) as [stats r6].
  destruct Hsm as [(_ & Hc6 & Hk6) _].
  assert (current_radio_settings r6 = cached r6) as Hcur.
  { unfold current_radio_settings, get_detection_threshold, get_filter_level, get_channel_bandwidth_index,
      get_carrier_sense_threshold. rewrite Hc6, (quantize_fixed (detection_threshold_db (cached r5))) by apply Hp5.
    by destruct (cached r5). }
  eexists _, _, _, r6. split; [done|]. rewrite Hcur. split; [done|].
  split; [unfold Programmed; rewrite Hc6, Hk6; exact Hp5|]. split; [by rewrite Hk6|]. split.
  { by rewrite Hk6, Hf5, Hf4, Hf3. }
  split.
  - rewrite Hc6. destruct p as [s|]; cbn [fst default from_option]; [done|]. rewrite Hc5, Hb4. cbn. by rewrite Hc1.
  - destruct cold_boot; [|done]. destruct Hch as (i & c0 & -> & Hpr & Hsw).
    exists r3, i, c0. by split_and!.
Qed.
End Properties.

(** ** An instance for witnesses *)

Module Sample.

(** A chip that counts its reads; the packet bit is high on one profile. With
    [ok] false the filter cannot be set. *)
Record sim (ok : bool) := { sim_chip : Chip; reads : Z }.
Arguments sim_chip {ok} s.
Arguments reads {ok} s.
Definition after_power_on : Chip := {|
  frequency := 800000000; bandwidth := 203000; magn := Db33; boundary := Db8; carrier_sense := 0; mode := Idle |}.
Definition works (ok : bool) (c : command) : bool :=
  ok || match c with SetFilterLength _ => false | _ => true end.
#[export] Instance sim_driver ok : Cc1101 (sim ok) := {
  run c d := if works ok c then (true, {| sim_chip := program after_power_on c (sim_chip d); reads := reads d |})
             else (false, d);
  get_rssi d := (Some (-70), d);
  get_packet_status d :=
    (Some {| ps_carrier_sense := false; ps_pqt := false;
             ps_gdo0 := (frequency (sim_chip d) =? 433870000) && Z.odd (reads d); ps_gdo2 := false |},
     {| sim_chip := sim_chip d; reads := reads d + 1 |});
  get_hw_info d := (Some (0, 20), d);
  gdo0_high d := Z.odd (reads d);
  gdo2_high d := false
}.
#[export] Instance sim_laws ok : Cc1101Laws (sim ok).
Proof.
  refine {| reset_chip := after_power_on; chip := sim_chip |}.
  - intros c d d'. cbn. destruct (works ok c); [by intros [= <-] | done].
  - intros c d d'. cbn. destruct (works ok c); [done|]. intros [= <-]. by left.
  - done.
  - intros d r [= <-]. done.
  - done.
  - done.
Defined.

Definition fresh : Cc1101Radio (sim true) := Cc1101Radio_new {| sim_chip := after_power_on; reads := 0 |}.
Definition started : Cc1101Radio (sim true) := (init fresh).2.
Lemma sim_reliable : Reliable (D := sim true).
Proof. done. Qed.

Lemma started_programmed : Programmed started.
Proof.
  destruct (reliable_init fresh sim_reliable) as [r1 E]. unfold started. rewrite E.
  apply (init_spec fresh r1 E), default_in_bounds.
Qed.

(** The sweep picks the only profile with a signal, although the pin is gone. *)
Definition blind : Cc1101Radio (sim true) := (take_data_pin started).2.
Example sweep_runs : (run_rf_sweep blind).1 = Some 6%nat.
Proof. vm_compute. reflexivity. Qed.

Lemma sweep_spec_witness :
  exists s, (6%nat, {| freq_hz := 433870000; bandwidth_hz := 162000 |}, s) ∈ (sweep_scores indexed blind).1 /\ 0 <= s <= 24.
Proof.
  pose proof (sweep_spec blind (programmed_settled _ started_programmed)) as Hs.
  destruct (run_rf_sweep blind) as [selected r'] eqn:E.
  assert (selected = Some 6%nat) as -> by (pose proof sweep_runs as Hr; rewrite E in Hr; exact Hr).
  destruct Hs as (_ & _ & Hf & Hsel). destruct (Hsel 6%nat eq_refl) as (c & s & Hin & Hc & _).
  injection Hc as <-. exists s. split; [exact Hin|].
  pose proof (proj1 (Forall_forall _ _) Hf _ Hin) as [[H0 _] Hb]. split; [exact H0 | exact (Hb eq_refl)].
Defined.

(** Settings persisted before the device slept on profile 5. *)
Definition wanted : RadioSettings := {|
  detection_threshold_db := 12; magn_target := 5; channel_bandwidth_index := 2; carrier_sense_threshold := 3 |}.
Lemma wanted_bounds : RadioInBounds wanted.
Proof. unfold RadioInBounds, wanted. cbn. lia. Qed.
Definition slept : Device := radio_persist_settings wanted blank_device.

Lemma radio_ready_witness :
  let (s0, d1) := radio_load_settings_or_default slept in
  exists r1, init (restore_settings_after_reset s0 fresh) = (Ok tt, r1) /\
  exists word' d2 r2,
    prepare_radio_for_capture false (persist_rf_profile_index 5 0) d1
      {| driver := driver r1; data_pin := false; cached := cached r1 |} = Some (Ok wanted, word', d2, r2) /\
    frequency (chip (driver r2)) = 434020000.
Proof.
  pose proof (radio_ready false false (persist_rf_profile_index 5 0) slept fresh sim_reliable
    (fun c => mk_is_Some _ _ eq_refl)) as Hr.
  destruct (radio_load_settings_or_default slept) as [s0 d1].
  destruct Hr as (r1 & Ei & s & word' & d2 & r2 & E & _ & _ & _ & Hf & Hs & Hp). rewrite Hp in Hf.
  exists r1. split; [exact Ei|]. exists word', d2, r2.
  assert ((load_settings slept).1 = Some wanted) as Hl by (vm_compute; reflexivity). rewrite Hl in Hs. subst s.
  split; [exact E|]. exact Hf.
Defined.

(** The same radio on a chip that refuses the filter command. *)
Definition deaf : Cc1101Radio (sim false) :=
  {| driver := {| sim_chip := sim_chip (driver started); reads := 0 |}; data_pin := true; cached := cached started |}.
Definition deaf_idle : sim false :=
  {| sim_chip := program after_power_on (SetRadioMode Idle) (sim_chip (driver started)); reads := 0 |}.
Lemma pending_settings_spec_witness :
  RadioInBounds (cached (apply_pending_settings (Some wanted) deaf)) /\
  exists r2, setter (SetFilterLength Db12) (fun s => with_threshold s 12) deaf = (Err ConfigError, r2) /\
    mode (chip (driver r2)) = Idle.
Proof.
  destruct (pending_settings_spec wanted deaf wanted_bounds (proj1 started_programmed)) as (Hb & _ & Hf).
  split; [exact Hb|].
  destruct (Hf (SetFilterLength Db12) (fun s => with_threshold s 12) deaf_idle deaf_idle
    (setting_threshold 12) eq_refl eq_refl) as (r2 & E & Hm & _).
  exists r2. split; [exact E | exact Hm].
Defined.
End Sample.
