(* ===== verification/Bus.v ===== *)
(** * The application bus

    The events of [firmware/src/app_bus.rs] with their routing, and the
    statics the tasks share, with the OTA
    state and MQTT health watches, the three channels, the time watch of
    [time_sync.rs], the flash mutex, and the flag of the shared TLS workspace
    ([firmware/src/tls_workspace.rs]). The executor is cooperative and single
    threaded: code between two awaits runs in one piece. *)
From S2P Require Import Prelude Heapless EuDst TimeSync Messages OtaTasks Settings Sync.

(** ** Input events and routing *)

Inductive UiEvent := NextScreen | PrevScreen | Select.

Inductive UiInputEvent :=
| Navigation (event : UiEvent)
| UiApplySettings (radio : RadioSettings) (power : PowerSettings).
Inductive AppEvent :=
| UiInput (input : UiInputEvent)
| RadioFrameDecoded (reading : RadioReading)
| TimeUpdated (unix_secs : Z).

Definition route_event (event : AppEvent) : option AppCommand :=
  match event with
  | UiInput (UiApplySettings radio power) => Some (ApplySettings radio power)
  | RadioFrameDecoded reading => Some (PublishTelemetry reading)
  | UiInput (Navigation _) | TimeUpdated _ => None
  end.
Definition route_event_to_control_command (event : AppEvent) : option AppCommand :=
  match route_event event with
  | Some (ApplySettings radio power) => Some (ApplySettings radio power)
  | Some (PublishTelemetry _ | OtaConfirmed) | None => None
  end.
Definition route_event_to_mqtt_command (event : AppEvent) : option AppCommand :=
  match route_event event with
  | Some (PublishTelemetry reading) => Some (PublishTelemetry reading)
  | Some (OtaConfirmed | ApplySettings _ _) | None => None
  end.

(** ** The statics *)

Definition MQTT_COMMAND_CHANNEL_DEPTH : nat := 16.
Definition OTA_COMMAND_CHANNEL_DEPTH : nat := 1.
Definition RADIO_TELEMETRY_CHANNEL_DEPTH : nat := 16.

(** Receivers of the OTA state watch and of the MQTT health watch. *)
Definition OTA_STATE_RX_MQTT : nat := 0.
Definition OTA_STATE_RX_ROUTER : nat := 2.
Definition MQTT_HEALTH_RX_CONFIRM : nat := 0.
Definition MQTT_HEALTH_RX_OTA : nat := 1.

Section Bus.
Context {W : Type -> Type} `{Watch W} {C : Type -> nat -> Type} `{Channel C}.

Record Bus := {
  OTA_STATE_WATCH : W OtaState;
  MQTT_HEALTH_WATCH : W MqttHealth;
  MQTT_COMMAND_CHANNEL : C AppCommand MQTT_COMMAND_CHANNEL_DEPTH;
  OTA_COMMAND_CHANNEL : C bytes OTA_COMMAND_CHANNEL_DEPTH;
  RADIO_TELEMETRY_CHANNEL : C RadioReading RADIO_TELEMETRY_CHANNEL_DEPTH;
  TIME_WATCH : option TimeReference;
  TLS_WORKSPACE_IN_USE : bool;
  FLASH_LOCKED : bool;
  device : Device
}.

Definition set_ota_state (b : Bus) (w : W OtaState) : Bus :=
  {| OTA_STATE_WATCH := w; MQTT_HEALTH_WATCH := MQTT_HEALTH_WATCH b;
     MQTT_COMMAND_CHANNEL := MQTT_COMMAND_CHANNEL b; OTA_COMMAND_CHANNEL := OTA_COMMAND_CHANNEL b;
     RADIO_TELEMETRY_CHANNEL := RADIO_TELEMETRY_CHANNEL b; TIME_WATCH := TIME_WATCH b;
     TLS_WORKSPACE_IN_USE := TLS_WORKSPACE_IN_USE b; FLASH_LOCKED := FLASH_LOCKED b;
     device := device b |}.
Definition set_health (b : Bus) (w : W MqttHealth) : Bus :=
  {| OTA_STATE_WATCH := OTA_STATE_WATCH b; MQTT_HEALTH_WATCH := w;
     MQTT_COMMAND_CHANNEL := MQTT_COMMAND_CHANNEL b; OTA_COMMAND_CHANNEL := OTA_COMMAND_CHANNEL b;
     RADIO_TELEMETRY_CHANNEL := RADIO_TELEMETRY_CHANNEL b; TIME_WATCH := TIME_WATCH b;
     TLS_WORKSPACE_IN_USE := TLS_WORKSPACE_IN_USE b; FLASH_LOCKED := FLASH_LOCKED b;
     device := device b |}.
Definition set_commands (b : Bus) (c : C AppCommand MQTT_COMMAND_CHANNEL_DEPTH) : Bus :=
  {| OTA_STATE_WATCH := OTA_STATE_WATCH b; MQTT_HEALTH_WATCH := MQTT_HEALTH_WATCH b;
     MQTT_COMMAND_CHANNEL := c; OTA_COMMAND_CHANNEL := OTA_COMMAND_CHANNEL b;
     RADIO_TELEMETRY_CHANNEL := RADIO_TELEMETRY_CHANNEL b; TIME_WATCH := TIME_WATCH b;
     TLS_WORKSPACE_IN_USE := TLS_WORKSPACE_IN_USE b; FLASH_LOCKED := FLASH_LOCKED b;
     device := device b |}.
Definition set_ota_commands (b : Bus) (c : C bytes OTA_COMMAND_CHANNEL_DEPTH) : Bus :=
  {| OTA_STATE_WATCH := OTA_STATE_WATCH b; MQTT_HEALTH_WATCH := MQTT_HEALTH_WATCH b;
     MQTT_COMMAND_CHANNEL := MQTT_COMMAND_CHANNEL b; OTA_COMMAND_CHANNEL := c;
     RADIO_TELEMETRY_CHANNEL := RADIO_TELEMETRY_CHANNEL b; TIME_WATCH := TIME_WATCH b;
     TLS_WORKSPACE_IN_USE := TLS_WORKSPACE_IN_USE b; FLASH_LOCKED := FLASH_LOCKED b;
     device := device b |}.
Definition set_telemetry (b : Bus) (c : C RadioReading RADIO_TELEMETRY_CHANNEL_DEPTH) : Bus :=
  {| OTA_STATE_WATCH := OTA_STATE_WATCH b; MQTT_HEALTH_WATCH := MQTT_HEALTH_WATCH b;
     MQTT_COMMAND_CHANNEL := MQTT_COMMAND_CHANNEL b; OTA_COMMAND_CHANNEL := OTA_COMMAND_CHANNEL b;
     RADIO_TELEMETRY_CHANNEL := c; TIME_WATCH := TIME_WATCH b;
     TLS_WORKSPACE_IN_USE := TLS_WORKSPACE_IN_USE b; FLASH_LOCKED := FLASH_LOCKED b;
     device := device b |}.
Definition set_workspace (b : Bus) (in_use : bool) : Bus :=
  {| OTA_STATE_WATCH := OTA_STATE_WATCH b; MQTT_HEALTH_WATCH := MQTT_HEALTH_WATCH b;
     MQTT_COMMAND_CHANNEL := MQTT_COMMAND_CHANNEL b; OTA_COMMAND_CHANNEL := OTA_COMMAND_CHANNEL b;
     RADIO_TELEMETRY_CHANNEL := RADIO_TELEMETRY_CHANNEL b; TIME_WATCH := TIME_WATCH b;
     TLS_WORKSPACE_IN_USE := in_use; FLASH_LOCKED := FLASH_LOCKED b; device := device b |}.
Definition set_flash (b : Bus) (locked : bool) : Bus :=
  {| OTA_STATE_WATCH := OTA_STATE_WATCH b; MQTT_HEALTH_WATCH := MQTT_HEALTH_WATCH b;
     MQTT_COMMAND_CHANNEL := MQTT_COMMAND_CHANNEL b; OTA_COMMAND_CHANNEL := OTA_COMMAND_CHANNEL b;
     RADIO_TELEMETRY_CHANNEL := RADIO_TELEMETRY_CHANNEL b; TIME_WATCH := TIME_WATCH b;
     TLS_WORKSPACE_IN_USE := TLS_WORKSPACE_IN_USE b; FLASH_LOCKED := locked; device := device b |}.

(** [try_acquire] and [Drop] of the TLS workspace guard. *)
Definition try_acquire (b : Bus) : option Bus :=
  if TLS_WORKSPACE_IN_USE b then None else Some (set_workspace b true).
Definition drop_guard (b : Bus) : Bus := set_workspace b false.

(** Senders and [try_get()] with the default both tasks use. *)
Definition send_ota_state (s : OtaState) (b : Bus) : Bus :=
  set_ota_state b (watch_send s (OTA_STATE_WATCH b)).
Definition send_health (h : MqttHealth) (b : Bus) : Bus :=
  set_health b (watch_send h (MQTT_HEALTH_WATCH b)).
Definition get_ota_state (rx : nat) (b : Bus) : OtaState * Bus :=
  let (s, w) := watch_try_get rx (OTA_STATE_WATCH b) in
  (default Inactive s, set_ota_state b w).
Definition ota_state_of (b : Bus) : OtaState := default Inactive (watch_value (OTA_STATE_WATCH b)).
End Bus.
Arguments Bus W C : clear implicits.
