(* ===== verification/MqttTask.v ===== *)
(** * The MQTT task

    [firmware/src/tasks/mqtt/mod.rs] and [session.rs]: the task that keeps
    one session with the broker, as a machine. A state is an await of the
    task, with the local variables that live across it; a step is what the
    task does from the moment that await resolves to the next one, and which
    actions it performs. The MQTT client, TCP and TLS are the results of the
    awaits. *)
From S2P Require Import Prelude Str Heapless OtaManifest TimeSync ConfigRules Rubicson Messages Publish OtaTasks Settings Sync Bus.

Definition PING_INTERVAL_SECS : Z := 90.
(** [Timer::after(Duration::from_secs(secs))] resolves from this instant on. *)
Definition deadline (now secs : Z) : Z := now + secs * TICK_HZ.

(** The awaits of [establish_mqtt_session_*] before the subscription is
    acknowledged. *)
Inductive stage := ConnectTcp | OpenTls | SendConnect | PublishOnline | SendSubscribe.

Inductive mqtt_pc :=
| Standing
| Backoff (until : Z)
| Establishing (s : stage) (ota_state : OtaState)
| Subscribing (packet_identifier : Z) (ota_state : OtaState)
| EarlyForward (manifest : bytes)
| EarlyClear (packet_identifier : Z) (ota_state : OtaState)
| Selecting (until : Z)
| PublishingReading (reading : RadioReading) (ota_state : OtaState) (topic payload : bytes)
| PublishingConfirmed
| PollingBody
| Forwarding (manifest : bytes)
| Clearing
| Pinging
| Asleep (sleep_secs : Z)
| Panicked.

(** [guard] is the TLS workspace guard of the session. *)
Record Mqtt := {
  pc : mqtt_pc;
  backoff_secs : Z;
  deferred_reading : option RadioReading;
  last_activity : Z;
  guard : bool
}.

(** How the await of a state resolves: its timer, a change of the OTA state,
    the end of a network operation, the packet identifier of a subscription,
    a polled event or header, a command, or room in the OTA channel. *)
Inductive wake :=
| Elapsed
| StateChanged
| Done (ok : bool)
| Subscribed (packet_identifier : option Z)
| Polled (event : option Event)
| HeaderPolled (ok : bool)
| CommandReady
| Sent.

Inductive action :=
| Took (command : AppCommand)
| OnlinePublished
| ReadingPublished (reading : RadioReading) (topic payload : bytes)
| ReadingDropped (reading : RadioReading)
| ConfirmedPublished (topic payload : bytes)
| ManifestForwarded (manifest : bytes)
| HealthSent (health : MqttHealth).

Definition with_pc (m : Mqtt) (p : mqtt_pc) : Mqtt :=
  {| pc := p; backoff_secs := backoff_secs m; deferred_reading := deferred_reading m;
     last_activity := last_activity m; guard := guard m |}.
Definition with_backoff (m : Mqtt) (secs : Z) : Mqtt :=
  {| pc := pc m; backoff_secs := secs; deferred_reading := deferred_reading m;
     last_activity := last_activity m; guard := guard m |}.
Definition with_deferred (m : Mqtt) (r : option RadioReading) : Mqtt :=
  {| pc := pc m; backoff_secs := backoff_secs m; deferred_reading := r;
     last_activity := last_activity m; guard := guard m |}.
Definition with_activity (m : Mqtt) (now : Z) : Mqtt :=
  {| pc := pc m; backoff_secs := backoff_secs m; deferred_reading := deferred_reading m;
     last_activity := now; guard := guard m |}.
Definition with_guard (m : Mqtt) (g : bool) : Mqtt :=
  {| pc := pc m; backoff_secs := backoff_secs m; deferred_reading := deferred_reading m;
     last_activity := last_activity m; guard := g |}.

Section MqttTask.
Context {W : Type -> Type} `{Watch W} {C : Type -> nat -> Type} `{Channel C}.
Context `{SerdeJson} {V : Type} `{SignatureVerifier V}.
(** The key the build verifies manifests with, and the build's secrets. *)
Context (ota_manifest_verifier : V).
Context (MQTT_USE_TLS : bool) (MQTT_TLS_CA_CERT_DER DEVICE_ID : bytes).
(** Whether the credentials convert to the client's types. *)
Context (CONNECT_OPTIONS_OK : bool).

Definition outcome : Type := Mqtt * Bus W C * list action.
Definition emit (a : action) (o : outcome) : outcome :=
  let '(m, b, acts) := o in (m, b, a :: acts).

Definition release (m : Mqtt) (b : Bus W C) : Mqtt * Bus W C :=
  if guard m then (with_guard m false, drop_guard b) else (m, b).

(** A session that cannot be set up: the retry timer runs before the locals
    of the block are dropped. *)
Definition session_failed (now : Z) (m : Mqtt) (b : Bus W C) : outcome :=
  (with_pc m (Backoff (deadline now (backoff_secs m))), b, []).

(** After [run_connected_loop] returned. *)
Definition end_session (now : Z) (m : Mqtt) (b : Bus W C) : outcome :=
  let (m, b) := release m b in
  let b := send_health Disconnected b in
  (with_pc m (Backoff (deadline now (backoff_secs m))), b, [HealthSent Disconnected]).

Definition open_session (now : Z) (m : Mqtt) (b : Bus W C) : outcome :=
  if MQTT_USE_TLS then
    match try_acquire b with
    | None => session_failed now m b
    | Some b =>
        let m := with_guard m true in
        let (ota_state, b) := get_ota_state OTA_STATE_RX_MQTT b in
        if bool_decide (MQTT_TLS_CA_CERT_DER = []) then session_failed now m b
        else (with_pc m (Establishing ConnectTcp ota_state), b, [])
    end
  else
    let (ota_state, b) := get_ota_state OTA_STATE_RX_MQTT b in
    (with_pc m (Establishing ConnectTcp ota_state), b, []).

(** The head of the task's loop. *)
Definition loop_head (now : Z) (m : Mqtt) (b : Bus W C) : outcome :=
  let (ota_state, b) := get_ota_state OTA_STATE_RX_MQTT b in
  if negb (is_mqtt_allowed ota_state) then (with_pc m Standing, b, [])
  else open_session now m b.

Definition start (now : Z) (b : Bus W C) : outcome :=
  let m := {| pc := Standing; backoff_secs := MQTT_MIN_BACKOFF_SECS; deferred_reading := None;
              last_activity := now; guard := false |} in
  emit (HealthSent Disconnected) (loop_head now m (send_health Disconnected b)).

Definition backoff_elapsed (now : Z) (m : Mqtt) (b : Bus W C) : outcome :=
  let m := with_backoff m (next_mqtt_backoff_secs (backoff_secs m)) in
  let (m, b) := release m b in
  loop_head now m b.

(** ** The connected loop *)

Definition select (now : Z) (m : Mqtt) (b : Bus W C) : outcome :=
  (with_pc m (Selecting (deadline now PING_INTERVAL_SECS)), b, []).

Definition handle_reading (now : Z) (reading : RadioReading) (ota_state : OtaState) (m : Mqtt)
    (b : Bus W C) : outcome :=
  match duration_since now (last_activity m) with
  | None => (with_pc m Panicked, b, [])
  | Some idle =>
      if should_reconnect_before_publish (as_secs idle)
      then end_session now (with_deferred m (Some reading)) b
      else
        match build_topic reading with
        | None => emit (ReadingDropped reading) (select now m b)
        | Some topic =>
            match build_payload (TIME_WATCH b) now reading with
            | None => (with_pc m Panicked, b, [])
            | Some None => emit (ReadingDropped reading) (select now m b)
            | Some (Some payload) =>
                (with_pc m (PublishingReading reading ota_state topic payload), b, [])
            end
        end
  end.

(** The rest of [handle_reading] once the publication resolved. *)
Definition reading_published (now : Z) (reading : RadioReading) (ota_state : OtaState)
    (topic payload : bytes) (ok : bool) (m : Mqtt) (b : Bus W C) : outcome :=
  if negb ok then end_session now (with_deferred m (Some reading)) b
  else
    emit (ReadingPublished reading topic payload)
      (if bool_decide (ota_state = Inactive) then
         match duration_since now (received_at reading) with
         | None => (with_pc m Panicked, b, [])
         | Some time_since_measurement =>
             match maybe_sleep_after_publish (chan_is_empty (MQTT_COMMAND_CHANNEL b))
                     (from_secs (as_secs time_since_measurement)) ota_state (as_secs now) (device b)
             with
             | None => (with_pc m Panicked, b, [])
             | Some (Some sleep_secs) => (with_pc m (Asleep sleep_secs), b, [])
             | Some None => select now (with_activity m now) b
             end
         end
       else select now (with_activity m now) b).

(** The head of the connected loop. *)
Definition connected_head (now : Z) (m : Mqtt) (b : Bus W C) : outcome :=
  match deferred_reading m with
  | Some reading =>
      let m := with_deferred m None in
      let (ota_state, b) := get_ota_state OTA_STATE_RX_MQTT b in
      handle_reading now reading ota_state m b
  | None => select now m b
  end.

Definition session_established (now : Z) (m : Mqtt) (b : Bus W C) : outcome :=
  let m := with_backoff m MQTT_MIN_BACKOFF_SECS in
  let b := send_health HeartbeatPublished b in
  emit (HealthSent HeartbeatPublished)
    match ota_command_topic DEVICE_ID with
    | Err _ => end_session now m b
    | Ok _ => connected_head now (with_activity m now) b
    end.

Definition command_received (now : Z) (m : Mqtt) (b : Bus W C) : option outcome :=
  match chan_try_receive (MQTT_COMMAND_CHANNEL b) with
  | None => None
  | Some (command, c) =>
      let b := set_commands b c in
      Some (emit (Took command)
        match command with
        | PublishTelemetry reading =>
            let (ota_state, b) := get_ota_state OTA_STATE_RX_MQTT b in
            handle_reading now reading ota_state m b
        | OtaConfirmed =>
            match ota_status_topic DEVICE_ID with
            | Err _ => end_session now m b
            | Ok _ => (with_pc m PublishingConfirmed, b, [])
            end
        | ApplySettings _ _ => select now m b
        end)
  end.

Definition confirmed_published (now : Z) (ok : bool) (m : Mqtt) (b : Bus W C) : outcome :=
  match ota_status_topic DEVICE_ID with
  | Ok topic =>
      if ok then
        emit (ConfirmedPublished topic (qlit "{'status':'confirmed'}"))
          (select now (with_activity m now) b)
      else end_session now m b
  | Err _ => end_session now m b
  end.

Definition body_polled (now : Z) (event : option Event) (m : Mqtt) (b : Bus W C) : outcome :=
  match event with
  | None => end_session now m b
  | Some event =>
      let (ota_state, b) := get_ota_state OTA_STATE_RX_MQTT b in
      let ota_topic := default [] (ok (ota_command_topic DEVICE_ID)) in
      match handle_mqtt_event ota_manifest_verifier event ota_topic ota_state with
      | (OtaForwarded, [manifest]) => (with_pc m (Forwarding manifest), b, [])
      | (ClearRetained, _) => (with_pc m Clearing, b, [])
      | _ => select now (with_activity m now) b
      end
  end.

(** [ota_sender.send(manifest).await] resolves once the channel has room. *)
Definition manifest_sent (manifest : bytes) (b : Bus W C) : option (Bus W C) :=
  c ← chan_try_send manifest (OTA_COMMAND_CHANNEL b); Some (set_ota_commands b c).

(** ** Session set-up *)

Definition connect_broker (now : Z) (ota_state : OtaState) (m : Mqtt) (b : Bus W C) : outcome :=
  if is_ok (status_topic DEVICE_ID) && CONNECT_OPTIONS_OK
  then (with_pc m (Establishing SendConnect ota_state), b, [])
  else session_failed now m b.

Definition stage_done (now : Z) (s : stage) (ota_state : OtaState) (m : Mqtt) (b : Bus W C)
  : outcome :=
  match s with
  | ConnectTcp =>
      if MQTT_USE_TLS then (with_pc m (Establishing OpenTls ota_state), b, [])
      else connect_broker now ota_state m b
  | OpenTls => connect_broker now ota_state m b
  | SendConnect => (with_pc m (Establishing PublishOnline ota_state), b, [])
  | PublishOnline =>
      emit OnlinePublished
        (if is_ok (ota_command_topic DEVICE_ID)
         then (with_pc m (Establishing SendSubscribe ota_state), b, [])
         else session_failed now m b)
  | SendSubscribe => session_failed now m b
  end.

(** One turn of the loop that waits for the acknowledgement. *)
Definition subscription_polled (now packet_identifier : Z) (ota_state : OtaState)
    (event : option Event) (m : Mqtt) (b : Bus W C) : outcome :=
  let stay := (with_pc m (Subscribing packet_identifier ota_state), b, []) in
  match event with
  | None => session_failed now m b
  | Some (Suback id success) =>
      if id =? packet_identifier
      then if success then session_established now m b else session_failed now m b
      else stay
  | Some (EventPublish publish) =>
      match copy_ota_manifest publish (default [] (ok (ota_command_topic DEVICE_ID))) with
      | None => stay
      | Some manifest =>
          match resolve_ota_manifest_action ota_manifest_verifier ota_state
                  (im_retained manifest) (im_bytes manifest) with
          | ForwardOnly | ForwardAndClearRetained =>
              (with_pc m (EarlyForward (im_bytes manifest)), b, [])
          | ClearRetainedOnly => (with_pc m (EarlyClear packet_identifier ota_state), b, [])
          end
      end
  | Some _ => stay
  end.

(** ** The machine *)

(** [None]: the await of the state does not resolve that way now. *)
Definition mqtt_step (now : Z) (w : wake) (m : Mqtt) (b : Bus W C) : option outcome :=
  match pc m, w with
  | Standing, StateChanged =>
      match watch_changed OTA_STATE_RX_MQTT (OTA_STATE_WATCH b) with
      | None => None
      | Some (_, s) => Some (loop_head now m (set_ota_state b s))
      end
  | Backoff until, Elapsed => if until <=? now then Some (backoff_elapsed now m b) else None
  | Establishing SendSubscribe ota_state, Subscribed (Some packet_identifier) =>
      Some (with_pc m (Subscribing packet_identifier ota_state), b, [])
  | Establishing SendSubscribe _, Subscribed None => Some (session_failed now m b)
  | Establishing SendSubscribe _, _ => None
  | Establishing s ota_state, Done true => Some (stage_done now s ota_state m b)
  | Establishing _ _, Done false => Some (session_failed now m b)
  | Subscribing packet_identifier ota_state, Polled event =>
      Some (subscription_polled now packet_identifier ota_state event m b)
  | EarlyForward manifest, Sent =>
      b ← manifest_sent manifest b;
      Some (emit (ManifestForwarded manifest) (session_failed now m b))
  | EarlyClear packet_identifier ota_state, Done _ =>
      Some (with_pc m (Subscribing packet_identifier ota_state), b, [])
  | Selecting _, CommandReady => command_received now m b
  | Selecting _, HeaderPolled true => Some (with_pc m PollingBody, b, [])
  | Selecting _, HeaderPolled false => Some (end_session now m b)
  | Selecting until, Elapsed => if until <=? now then Some (with_pc m Pinging, b, []) else None
  | Selecting _, StateChanged =>
      match watch_changed OTA_STATE_RX_MQTT (OTA_STATE_WATCH b) with
      | None => None
      | Some (state, s) =>
          let b := set_ota_state b s in
          Some (if negb (is_mqtt_allowed state) then end_session now m b else select now m b)
      end
  | PublishingReading reading ota_state topic payload, Done ok =>
      Some (reading_published now reading ota_state topic payload ok m b)
  | PublishingConfirmed, Done ok => Some (confirmed_published now ok m b)
  | PollingBody, Polled event => Some (body_polled now event m b)
  | Forwarding manifest, Sent =>
      b ← manifest_sent manifest b;
      Some (emit (ManifestForwarded manifest) (end_session now m b))
  | Clearing, Done _ => Some (select now (with_activity m now) b)
  | Pinging, Done true => Some (select now (with_activity m now) b)
  | Pinging, Done false => Some (end_session now m b)
  | _, _ => None
  end.
End MqttTask.

(** ** Properties *)

(** The readings among the actions: taken from the channel, published
    successfully, dropped. *)
Definition taken (acts : list action) : list RadioReading :=
  omap (fun a => match a with Took (PublishTelemetry r) => Some r | _ => None end) acts.
Definition delivered (acts : list action) : list RadioReading :=
  omap (fun a => match a with ReadingPublished r _ _ => Some r | _ => None end) acts.
Definition dropped (acts : list action) : list RadioReading :=
  omap (fun a => match a with ReadingDropped r => Some r | _ => None end) acts.
(** The health signals among the actions. *)
Definition signals (acts : list action) : list MqttHealth :=
  omap (fun a => match a with HealthSent h => Some h | _ => None end) acts.

(** The reading the task has in hand. *)
Definition publishing (p : mqtt_pc) : list RadioReading :=
  match p with PublishingReading r _ _ _ => [r] | _ => [] end.
Definition held (m : Mqtt) : list RadioReading :=
  publishing (pc m) ++ option_list (deferred_reading m).

(** A publication is a reading's own topic and its payload at some time. *)
Definition Genuine (r : RadioReading) (topic payload : bytes) : Prop :=
  build_topic r = Some topic /\
  exists current_time now, build_payload current_time now r = Some (Some payload).
Definition GenuineAction (a : action) : Prop :=
  match a with ReadingPublished r t p => Genuine r t p | _ => True end.
Definition GenuinePc (p : mqtt_pc) : Prop :=
  match p with PublishingReading r _ t p => Genuine r t p | _ => True end.

(** The states inside [run_connected_loop]. *)
Definition connected (p : mqtt_pc) : bool :=
  match p with
  | Selecting _ | PublishingReading _ _ _ _ | PublishingConfirmed | PollingBody | Forwarding _
  | Clearing | Pinging => true
  | _ => false
  end.
(** The states in which the program has ended. *)
Definition ended (p : mqtt_pc) : bool :=
  match p with Asleep _ | Panicked => true | _ => false end.

Section Properties.
Context {W : Type -> Type} `{WatchLaws W} {C : Type -> nat -> Type} `{ChannelLaws C}.
Context `{SerdeJson} {V : Type} `{SignatureVerifier V}.
Context (ota_manifest_verifier : V).
Context (MQTT_USE_TLS : bool) (MQTT_TLS_CA_CERT_DER DEVICE_ID : bytes).
Context (CONNECT_OPTIONS_OK : bool).

Local Abbreviation mqtt_step :=
  (mqtt_step ota_manifest_verifier MQTT_USE_TLS MQTT_TLS_CA_CERT_DER DEVICE_ID CONNECT_OPTIONS_OK).
Local Abbreviation start := (start (W := W) (C := C) MQTT_USE_TLS MQTT_TLS_CA_CERT_DER).

(** Instants and readings are as the rest of the firmware produces them. *)
Definition ReadingOk (now : Z) (r : RadioReading) : Prop :=
  ReadingTyped r /\ 0 <= received_at r <= now.
Record BusOk (now : Z) (b : Bus W C) : Prop := {
  bo_now : 0 <= now < 2 ^ 63;
  bo_time : forall t, TIME_WATCH b = Some t ->
    u32 (unix_secs t) /\ 0 <= captured_at t <= now;
  bo_commands : forall r, PublishTelemetry r ∈ chan_list (MQTT_COMMAND_CHANNEL b) -> ReadingOk now r
}.
Record MqttOk (now : Z) (m : Mqtt) : Prop := {
  mo_held : Forall (ReadingOk now) (held m);
  mo_activity : 0 <= last_activity m <= now;
  mo_connected : connected (pc m) = true -> deferred_reading m = None;
  mo_backoff : MQTT_MIN_BACKOFF_SECS <= backoff_secs m <= MQTT_MAX_BACKOFF_SECS;
  mo_running : pc m <> Panicked;
  mo_genuine : GenuinePc (pc m)
}.

(** A piece of the task that starts with the readings [h] in hand. *)
Definition Keeps (now : Z) (h : list RadioReading) (o : outcome (W := W) (C := C)) : Prop :=
  let '(m, _, acts) := o in
  MqttOk now m /\ h ++ taken acts = delivered acts ++ held m /\ dropped acts = [] /\
  Forall GenuineAction acts.

(** The parts of a state that matter while no reading is being published. *)
Record Idle (now : Z) (m : Mqtt) : Prop := {
  id_deferred : Forall (ReadingOk now) (option_list (deferred_reading m));
  id_activity : 0 <= last_activity m <= now;
  id_backoff : MQTT_MIN_BACKOFF_SECS <= backoff_secs m <= MQTT_MAX_BACKOFF_SECS
}.

Lemma idle_pc now m p : Idle now m -> publishing p = [] -> p <> Panicked ->
  (connected p = true -> deferred_reading m = None) -> MqttOk now (with_pc m p).
Proof.
  intros [Hd Ha Hb] Hp Hn Hc. split; cbn; try done.
  - unfold held. cbn. by rewrite Hp.
  - by destruct p.
Qed.

Lemma idle_of now m : MqttOk now m -> publishing (pc m) = [] -> Idle now m.
Proof. intros [Hh Ha _ Hb _ _] Hp. split; try done. unfold held in Hh. by rewrite Hp in Hh. Qed.

Lemma release_idle now m (b : Bus W C) : Idle now m ->
  let (m', b') := release m b in
  Idle now m' /\ deferred_reading m' = deferred_reading m /\ backoff_secs m' = backoff_secs m /\
  last_activity m' = last_activity m.
Proof. intros [? ? ?]. unfold release. destruct (guard m); cbn; (split; [by split | done]). Qed.

Lemma keeps_pc now m (b : Bus W C) p : Idle now m -> publishing p = [] -> p <> Panicked ->
  (connected p = true -> deferred_reading m = None) ->
  Keeps now (option_list (deferred_reading m)) (with_pc m p, b, []).
Proof.
  intros Hi Hp Hn Hc. unfold Keeps. split; [by apply idle_pc|]. split_and!; [|done | constructor].
  cbn. unfold held. cbn. by rewrite Hp, app_nil_r.
Qed.

Lemma keeps_failed now m (b : Bus W C) : Idle now m ->
  Keeps now (option_list (deferred_reading m)) (session_failed now m b).
Proof. intros Hi. by apply keeps_pc. Qed.

Lemma keeps_emit now h a (o : outcome (W := W) (C := C)) :
  taken [a] = [] -> delivered [a] = [] -> dropped [a] = [] -> GenuineAction a ->
  Keeps now h o -> Keeps now h (emit a o).
Proof.
  destruct o as [[m b] acts]. intros Ht Hd Hx Hg (Hm & Hk & Hn & Hgs). unfold emit, Keeps.
  change (taken (a :: acts)) with (taken ([a] ++ acts)).
  change (delivered (a :: acts)) with (delivered ([a] ++ acts)).
  change (dropped (a :: acts)) with (dropped ([a] ++ acts)).
  unfold taken, delivered, dropped in *. rewrite !omap_app, Ht, Hd, Hx.
  split_and!; try done. by constructor.
Qed.

Lemma keeps_end now m (b : Bus W C) : Idle now m ->
  Keeps now (option_list (deferred_reading m)) (end_session now m b).
Proof.
  intros Hi. unfold end_session. pose proof (release_idle now m b Hi) as Hr.
  destruct (release m b) as [m' b']. destruct Hr as (Hi' & <- & _).
  apply (keeps_emit _ _ _ (with_pc m' _, _, [])); try done. by apply keeps_pc.
Qed.

Lemma keeps_open now m (b : Bus W C) : Idle now m ->
  Keeps now (option_list (deferred_reading m)) (open_session MQTT_USE_TLS MQTT_TLS_CA_CERT_DER now m b).
Proof.
  intros Hi. unfold open_session. destruct MQTT_USE_TLS.
  - destruct (try_acquire b) as [b'|]; [|by apply keeps_failed].
    destruct (get_ota_state _ b') as [s b'']. assert (Idle now (with_guard m true)) by (destruct Hi; by split).
    case_bool_decide; [by apply (keeps_failed now (with_guard m true))
                      | by apply (keeps_pc now (with_guard m true))].
  - destruct (get_ota_state _ b) as [s b']. by apply keeps_pc.
Qed.

Lemma keeps_head now m (b : Bus W C) : Idle now m ->
  Keeps now (option_list (deferred_reading m)) (loop_head MQTT_USE_TLS MQTT_TLS_CA_CERT_DER now m b).
Proof.
  intros Hi. unfold loop_head. destruct (get_ota_state _ b) as [s b'].
  destruct (is_mqtt_allowed s); cbn [negb]; [by apply keeps_open | by apply keeps_pc].
Qed.

Lemma backoff_range s : MQTT_MIN_BACKOFF_SECS <= s <= MQTT_MAX_BACKOFF_SECS ->
  MQTT_MIN_BACKOFF_SECS <= next_mqtt_backoff_secs s <= MQTT_MAX_BACKOFF_SECS.
Proof.
  unfold next_mqtt_backoff_secs, MQTT_MIN_BACKOFF_SECS, MQTT_MAX_BACKOFF_SECS. intros Hs. num.
Qed.

Lemma keeps_backoff now m (b : Bus W C) : Idle now m ->
  Keeps now (option_list (deferred_reading m))
    (backoff_elapsed MQTT_USE_TLS MQTT_TLS_CA_CERT_DER now m b).
Proof.
  intros Hi. unfold backoff_elapsed.
  assert (Idle now (with_backoff m (next_mqtt_backoff_secs (backoff_secs m)))) as Hi'.
  { destruct Hi. split; cbn; try done. by apply backoff_range. }
  pose proof (release_idle now _ b Hi') as Hr. destruct (release _ b) as [m' b'].
  destruct Hr as (Hi'' & Hd & _). cbn in Hd. rewrite <- Hd. by apply keeps_head.
Qed.

Lemma keeps_select now m (b : Bus W C) : Idle now m -> deferred_reading m = None ->
  Keeps now [] (select now m b).
Proof.
  intros Hi Hd. pose proof (keeps_pc now m b (Selecting (deadline now PING_INTERVAL_SECS)) Hi) as Hk.
  rewrite Hd in Hk. by apply Hk.
Qed.

Lemma bus_ok_ota now (b : Bus W C) w : BusOk now b -> BusOk now (set_ota_state b w).
Proof. intros [? ? ?]. by split. Qed.
Lemma bus_ok_get now (b : Bus W C) rx : BusOk now b -> BusOk now (get_ota_state rx b).2.
Proof. intros Hb. unfold get_ota_state. destruct (watch_try_get _ _). by apply bus_ok_ota. Qed.
Lemma bus_ok_health now (b : Bus W C) h : BusOk now b -> BusOk now (send_health h b).
Proof. intros [? ? ?]. by split. Qed.

Lemma since_some now t : 0 <= t <= now -> duration_since now t = Some (now - t).
Proof. intros Ht. unfold duration_since. by rewrite (proj2 (Z.leb_le _ _)) by lia. Qed.

Lemma keeps_handle now r s m (b : Bus W C) : Idle now m -> deferred_reading m = None ->
  ReadingOk now r -> BusOk now b -> Keeps now [r] (handle_reading now r s m b).
Proof.
  intros Hi Hd Hr Hb. unfold handle_reading. rewrite since_some by apply Hi.
  destruct (should_reconnect_before_publish _).
  { apply (keeps_end now (with_deferred m (Some r))). destruct Hi. split; try done. by constructor. }
  destruct Hr as [Ht Hr]. destruct (publication_fits (TIME_WATCH b) now r Ht) as [Et Ep].
  assert (exists s, payload_secs (TIME_WATCH b) now = Some s) as [secs Es].
  { unfold payload_secs. destruct (TIME_WATCH b) as [t|] eqn:Etime; [|by eexists].
    destruct (bo_time _ _ Hb t Etime) as [Hu Hc]. pose proof (bo_now _ _ Hb).
    rewrite now_elapsed by (done || lia). by eexists. }
  rewrite Es in Ep. cbn [mbind option_bind] in Ep. rewrite Et, Ep.
  unfold Keeps. destruct Hi. split_and!; [| |done | constructor].
  - split; cbn; try done; [|split; [done | by eexists _, _]].
    unfold held. cbn. rewrite Hd. cbn. by constructor.
  - unfold held. cbn. by rewrite Hd.
Qed.

Lemma idle_activity now m : Idle now m -> 0 <= now -> Idle now (with_activity m now).
Proof. intros [? ? ?] Hn. split; cbn; (done || lia). Qed.

Lemma keeps_active now m (b : Bus W C) : Idle now m -> deferred_reading m = None -> 0 <= now ->
  Keeps now [] (select now (with_activity m now) b).
Proof. intros Hi Hd Hn. apply keeps_select; [by apply idle_activity | done]. Qed.

Lemma keeps_published now r s t p ok m (b : Bus W C) : Genuine r t p -> Idle now m -> deferred_reading m = None ->
  ReadingOk now r -> BusOk now b -> Keeps now [r] (reading_published now r s t p ok m b).
Proof.
  intros Hg Hi Hd Hr Hb. unfold reading_published. destruct ok; cbn [negb].
  2:{ apply (keeps_end now (with_deferred m (Some r))). destruct Hi. split; try done. by constructor. }
  assert (forall o, Keeps now [] o -> Keeps now [r] (emit (ReadingPublished r t p) o)) as He.
  { intros [[m' b'] acts] (Hm & Hk & Hn & Hgs). split; [done|].
    split_and!; [exact (f_equal (cons r) Hk) | done | by constructor]. }
  apply He. pose proof (bo_now _ _ Hb). destruct Hr as [_ Hr].
  case_bool_decide; [|by apply keeps_active; (done || lia)]. rewrite since_some by done.
  destruct (sleep_decides (chan_is_empty (MQTT_COMMAND_CHANNEL b))
    (from_secs (as_secs (now - received_at r))) s (as_secs now) (device b)) as (q & -> & _).
  { unfold valid_duration, from_secs, as_secs, TICK_HZ. cbn.
    change (2 ^ 63) with 9223372036854775808 in *.
    assert (0 <= (now - received_at r) / 1000000 <= now) by (Z.div_mod_to_equations; lia). num. }
  destruct q as [secs|]; [|by apply keeps_active; (done || lia)].
  pose proof (keeps_pc now m b (Asleep secs) Hi) as Hk. rewrite Hd in Hk. by apply Hk.
Qed.

Lemma keeps_connected now m (b : Bus W C) : Idle now m -> BusOk now b ->
  Keeps now (option_list (deferred_reading m)) (connected_head now m b).
Proof.
  intros Hi Hb. unfold connected_head. destruct (deferred_reading m) as [r|] eqn:Ed.
  - pose proof (bus_ok_get now b OTA_STATE_RX_MQTT Hb) as Hb'.
    destruct (get_ota_state _ b) as [s b']. destruct Hi as [Hr Ha Hbo]. rewrite Ed in Hr.
    apply keeps_handle; [by split | done | by inversion Hr | done].
  - by apply keeps_select.
Qed.

Lemma keeps_established now m (b : Bus W C) : Idle now m -> BusOk now b ->
  Keeps now (option_list (deferred_reading m)) (session_established DEVICE_ID now m b).
Proof.
  intros Hi Hb. unfold session_established. apply keeps_emit; try done.
  assert (Idle now (with_backoff m MQTT_MIN_BACKOFF_SECS)) as Hi' by (destruct Hi; by split).
  destruct (ota_command_topic DEVICE_ID) as [t|e].
  - apply (keeps_connected now (with_activity (with_backoff m MQTT_MIN_BACKOFF_SECS) now)).
    + apply idle_activity; [done | apply Hb].
    + by apply bus_ok_health.
  - by apply (keeps_end now (with_backoff m MQTT_MIN_BACKOFF_SECS)).
Qed.

Lemma keeps_command now m (b : Bus W C) o : Idle now m -> deferred_reading m = None -> BusOk now b ->
  command_received DEVICE_ID now m b = Some o -> Keeps now [] o.
Proof.
  intros Hi Hd Hb Ho. unfold command_received in Ho.
  destruct (chan_try_receive (MQTT_COMMAND_CHANNEL b)) as [[c ch]|] eqn:Ec; [|done].
  injection Ho as <-. apply chan_receive_some in Ec.
  assert (BusOk now (set_commands b ch)) as Hb'.
  { destruct Hb as [Hn Ht Hc]. split; try done. intros r Hr. apply Hc. rewrite Ec. by right. }
  destruct c as [radio power|r|].
  - apply keeps_emit; try done. by apply keeps_select.
  - pose proof (bus_ok_get now _ OTA_STATE_RX_MQTT Hb') as Hb''.
    destruct (get_ota_state _ _) as [s b2].
    assert (Keeps now [r] (handle_reading now r s m b2)) as Hk.
    { apply keeps_handle; try done. apply (bo_commands _ _ Hb). rewrite Ec. by left. }
    destruct (handle_reading _ _ _ _ _) as [[m' b'] acts]. destruct Hk as (Hm & Hk & Hn & Hgs).
    split_and!; try done. by constructor.
  - apply keeps_emit; try done. pose proof (keeps_end now m (set_commands b ch) Hi) as He.
    pose proof (keeps_pc now m (set_commands b ch) PublishingConfirmed Hi) as Hp.
    rewrite Hd in *. destruct (ota_status_topic DEVICE_ID); auto.
Qed.

Lemma ok_later t now m : MqttOk t m -> t <= now -> MqttOk now m.
Proof.
  intros [Hh Ha Hc Hb Hp Hg] Ht. split; try done; [|lia].
  eapply Forall_impl; [exact Hh|]. intros r [Hr Hl]. split; [done | lia].
Qed.

Lemma held_idle m : publishing (pc m) = [] -> held m = option_list (deferred_reading m).
Proof. intros Hp. unfold held. by rewrite Hp. Qed.

Lemma keeps_with_pc now m (b : Bus W C) p : MqttOk now m -> publishing (pc m) = [] ->
  publishing p = [] -> p <> Panicked -> (connected p = true -> deferred_reading m = None) ->
  Keeps now (held m) (with_pc m p, b, []).
Proof. intros Hm Hpm Hp Hn Hc. rewrite held_idle by done. apply keeps_pc; try done. by apply idle_of. Qed.

Lemma keeps_stage now s ota_state m (b : Bus W C) : MqttOk now m -> publishing (pc m) = [] ->
  Keeps now (held m) (stage_done MQTT_USE_TLS DEVICE_ID CONNECT_OPTIONS_OK now s ota_state m b).
Proof.
  intros Hm Hp. pose proof (idle_of _ _ Hm Hp) as Hi.
  pose proof (keeps_failed now m b Hi) as Hf. rewrite <- held_idle in Hf by done.
  assert (Keeps now (held m) (connect_broker DEVICE_ID CONNECT_OPTIONS_OK now ota_state m b)) as Hc.
  { unfold connect_broker. destruct (is_ok _ && _); [by apply keeps_with_pc | done]. }
  destruct s; cbn [stage_done]; [destruct MQTT_USE_TLS; [by apply keeps_with_pc | done] | done
    | by apply keeps_with_pc | | done].
  apply keeps_emit; try done. destruct (is_ok _); [by apply keeps_with_pc | done].
Qed.

Lemma keeps_subscription now id ota_state event m (b : Bus W C) : MqttOk now m ->
  publishing (pc m) = [] -> BusOk now b ->
  Keeps now (held m) (subscription_polled ota_manifest_verifier DEVICE_ID now id ota_state event m b).
Proof.
  intros Hm Hp Hb. pose proof (idle_of _ _ Hm Hp) as Hi.
  pose proof (keeps_failed now m b Hi) as Hf. pose proof (keeps_established now m b Hi Hb) as He.
  rewrite <- held_idle in Hf, He by done. unfold subscription_polled.
  destruct event as [[publish| | |id' success| | | | | | |]|]; try done; try by apply keeps_with_pc.
  - destruct (copy_ota_manifest _ _) as [im|]; [|by apply keeps_with_pc].
    destruct (resolve_ota_manifest_action _ _ _ _); by apply keeps_with_pc.
  - destruct (id' =? id); [destruct success; done | by apply keeps_with_pc].
Qed.

Lemma keeps_body now event m (b : Bus W C) : MqttOk now m -> connected (pc m) = true ->
  publishing (pc m) = [] -> BusOk now b ->
  Keeps now (held m) (body_polled ota_manifest_verifier DEVICE_ID now event m b).
Proof.
  intros Hm Hc Hp Hb. pose proof (idle_of _ _ Hm Hp) as Hi. pose proof (mo_connected _ _ Hm Hc) as Hd.
  unfold body_polled. destruct event as [event|].
  2:{ rewrite held_idle by done. by apply keeps_end. }
  destruct (get_ota_state _ b) as [s b']. pose proof (proj1 (bo_now _ _ Hb)) as Hn.
  assert (Keeps now (held m) (select now (with_activity m now) b')) as Hs.
  { rewrite held_idle, Hd by done. by apply keeps_active. }
  destruct (handle_mqtt_event _ _ _ _) as [[] sent]; try done; [by apply keeps_with_pc|].
  destruct sent as [|manifest [|? ?]]; try done. by apply keeps_with_pc.
Qed.

Lemma keeps_publishing now r s t p ok m (b : Bus W C) : MqttOk now m ->
  pc m = PublishingReading r s t p -> BusOk now b ->
  Keeps now (held m) (reading_published now r s t p ok m b).
Proof.
  intros Hm Hp Hb. pose proof (mo_connected _ _ Hm) as Hd. rewrite Hp in Hd. specialize (Hd eq_refl).
  assert (held m = [r]) as Hh by (unfold held; by rewrite Hp, Hd).
  pose proof (mo_held _ _ Hm) as Hr. rewrite Hh in *. inversion Hr; subst.
  pose proof (mo_genuine _ _ Hm) as Hg. rewrite Hp in Hg.
  apply keeps_published; try done. destruct Hm. split; try done. by rewrite Hd.
Qed.

Lemma step_keeps now w m b o : MqttOk now m -> BusOk now b ->
  mqtt_step now w m b = Some o -> Keeps now (held m) o.
Proof.
  intros Hm Hb Ho. pose proof (mo_connected _ _ Hm) as Hd. pose proof (proj1 (bo_now _ _ Hb)) as Hn.
  assert (publishing (pc m) = [] -> Idle now m) as Hi by apply (idle_of now m Hm).
  unfold MqttTask.mqtt_step in Ho. pose proof (held_idle m) as Hh.
  assert (connected (pc m) = true -> publishing (pc m) = [] -> held m = []) as Hh0.
  { intros Hc Hp. by rewrite Hh, Hd. }
  assert (publishing (pc m) = [] -> Keeps now (held m) (session_failed now m b)) as Hf.
  { intros Hp. rewrite Hh by done. by apply keeps_failed, Hi. }
  destruct (pc m) as [|until|st s|id s|manifest|id s|until|r s t p| | |manifest| | |secs|] eqn:Epc;
    cbn [publishing connected] in *; try specialize (Hi eq_refl); try specialize (Hh eq_refl);
    try specialize (Hf eq_refl); try specialize (Hd eq_refl); try specialize (Hh0 eq_refl eq_refl).
  all: try (assert (forall b, Keeps now (held m) (end_session now m b)) as Hend
              by (intros; rewrite Hh; by apply keeps_end)).
  all: try (assert (forall b, Keeps now (held m) (select now (with_activity m now) b)) as Hact
              by (intros; rewrite Hh0; by apply keeps_active)).
  all: destruct w as [| |[]|[id'|]|event|[]| |]; try discriminate Ho.
  all: try (apply (inj Some) in Ho as <-; first [done | apply keeps_with_pc; try rewrite Epc; done]).
  1: { destruct (watch_changed _ _) as [[? w]|]; [|done]. apply (inj Some) in Ho as <-.
       rewrite Hh. by apply keeps_head. }
  1: { destruct (until <=? now); [|done]. apply (inj Some) in Ho as <-. rewrite Hh. by apply keeps_backoff. }
  1-11: destruct st; try discriminate Ho; apply (inj Some) in Ho as <-;
    first [done | apply keeps_with_pc; rewrite ?Epc; done | apply keeps_stage; [done | by rewrite Epc]].
  - apply (inj Some) in Ho as <-. by apply keeps_subscription; rewrite ?Epc.
  - destruct (manifest_sent manifest b) as [b'|]; [|done]. apply (inj Some) in Ho as <-.
    by apply keeps_emit.
  - destruct (until <=? now); [|done]. apply (inj Some) in Ho as <-. by apply keeps_with_pc; rewrite ?Epc.
  - destruct (watch_changed _ _) as [[s w]|]; [|done]. apply (inj Some) in Ho as <-.
    destruct (is_mqtt_allowed s); cbn [negb]; [rewrite Hh0; by apply keeps_select | done].
  - rewrite Hh0. by eapply keeps_command.
  - apply (inj Some) in Ho as <-. by apply keeps_publishing.
  - apply (inj Some) in Ho as <-. by apply keeps_publishing.
  - apply (inj Some) in Ho as <-. unfold confirmed_published.
    destruct (ota_status_topic DEVICE_ID); [by apply keeps_emit | done].
  - apply (inj Some) in Ho as <-. unfold confirmed_published. by destruct (ota_status_topic DEVICE_ID).
  - apply (inj Some) in Ho as <-. by apply keeps_body; rewrite ?Epc.
  - destruct (manifest_sent manifest b) as [b'|]; [|done]. apply (inj Some) in Ho as <-.
    by apply keeps_emit.
Qed.

(** ** What a step does to the bus *)

(** Sessions are announced while these states last. *)
Definition live (p : mqtt_pc) : bool := connected p || ended p.
Arguments live : simpl never.

Definition forwarded (acts : list action) : list bytes :=
  omap (fun a => match a with ManifestForwarded m => Some m | _ => None end) acts.
Definition commands_taken (acts : list action) : list AppCommand :=
  omap (fun a => match a with Took c => Some c | _ => None end) acts.

(** The health signals of a step that starts and ends in a session or
    outside one. *)
Definition session_signals (before after : bool) : list (list MqttHealth) :=
  match before, after with
  | false, false => [[]; [HeartbeatPublished; Disconnected]]
  | false, true => [[HeartbeatPublished]]
  | true, true => [[]]
  | true, false => [[Disconnected]]
  end.

(** The effect of the task on the state it shares. *)
Record Frame (m : Mqtt) (b : Bus W C) (m' : Mqtt) (b' : Bus W C) (acts : list action) : Prop := {
  fr_ota_state : watch_value (OTA_STATE_WATCH b') = watch_value (OTA_STATE_WATCH b);
  fr_ota_unseen : forall j, j <> OTA_STATE_RX_MQTT ->
    watch_unseen j (OTA_STATE_WATCH b') = watch_unseen j (OTA_STATE_WATCH b);
  fr_health : watch_value (MQTT_HEALTH_WATCH b') =
    match last (signals acts) with Some h => Some h | None => watch_value (MQTT_HEALTH_WATCH b) end;
  fr_quiet : signals acts = [] -> MQTT_HEALTH_WATCH b' = MQTT_HEALTH_WATCH b;
  fr_signals : signals acts ∈ session_signals (live (pc m)) (live (pc m'));
  fr_commands : chan_list (MQTT_COMMAND_CHANNEL b) =
    commands_taken acts ++ chan_list (MQTT_COMMAND_CHANNEL b');
  fr_ota_commands : chan_list (OTA_COMMAND_CHANNEL b') =
    chan_list (OTA_COMMAND_CHANNEL b) ++ forwarded acts;
  fr_workspace :
    guard m' = guard m /\ (TLS_WORKSPACE_IN_USE b' = TLS_WORKSPACE_IN_USE b \/
      guard m = true /\ TLS_WORKSPACE_IN_USE b' = true) \/
    guard m = false /\ guard m' = true /\ TLS_WORKSPACE_IN_USE b = false /\
      TLS_WORKSPACE_IN_USE b' = true \/
    guard m = true /\ guard m' = false /\ TLS_WORKSPACE_IN_USE b' = false;
  fr_telemetry : RADIO_TELEMETRY_CHANNEL b' = RADIO_TELEMETRY_CHANNEL b;
  fr_time : TIME_WATCH b' = TIME_WATCH b;
  fr_flash : FLASH_LOCKED b' = FLASH_LOCKED b
}.

Lemma try_get_seen {A} i (w w' : W A) o : watch_try_get i w = (o, w') ->
  o = watch_value w /\ SeenBy i w w'.
Proof.
  intros E. pose proof (watch_try_get_value i w) as Hv. pose proof (watch_try_get_seen i w) as Hs.
  rewrite E in *. by split.
Qed.

Lemma seen_value {A} i (w w' : W A) : SeenBy i w w' -> watch_value w' = watch_value w.
Proof. by intros (? & _ & _). Qed.
Lemma seen_other {A} i j (w w' : W A) : SeenBy i w w' -> j <> i ->
  watch_unseen j w' = watch_unseen j w.
Proof. intros (_ & _ & Hs). apply Hs. Qed.

Definition Framed (m : Mqtt) (b : Bus W C) (o : outcome (W := W) (C := C)) : Prop :=
  let '(m', b', acts) := o in Frame m b m' b' acts.

(** A transition that sends no health signal: it may be followed by
    another. *)
Lemma framed_after m b m1 b1 acts1 (o : outcome (W := W) (C := C)) :
  Frame m b m1 b1 acts1 -> signals acts1 = [] -> live (pc m1) = live (pc m) ->
  Framed m1 b1 o -> Framed m b (let '(m', b', acts) := o in (m', b', acts1 ++ acts)).
Proof.
  intros F1 Hs Hl. destruct o as [[m2 b2] acts2]. unfold Framed. intros F2.
  assert (signals (acts1 ++ acts2) = signals acts2) as Es
    by (unfold signals in *; by rewrite omap_app, Hs).
  pose proof (fr_quiet _ _ _ _ _ F1 Hs) as Hq. destruct F1, F2. split.
  - congruence.
  - intros j Hj. by rewrite fr_ota_unseen1, fr_ota_unseen0.
  - by rewrite Es, fr_health1, Hq.
  - rewrite Es. intros E. by rewrite fr_quiet1, Hq.
  - by rewrite Es, <- Hl.
  - unfold commands_taken in *. by rewrite omap_app, <- app_assoc, <- fr_commands1.
  - unfold forwarded in *. by rewrite omap_app, fr_ota_commands1, fr_ota_commands0, <- app_assoc.
  - revert fr_workspace0 fr_workspace1. clear.
    destruct (guard m), (guard m1), (guard m2), (TLS_WORKSPACE_IN_USE b),
      (TLS_WORKSPACE_IN_USE b1), (TLS_WORKSPACE_IN_USE b2); intuition discriminate.
  - congruence.
  - congruence.
  - congruence.
Qed.

(** *** The primitives *)

Lemma mqtt_frame_refl m b p : live p = live (pc m) -> Frame m b (with_pc m p) b [].
Proof.
  intros Hl. split; try done; [|by rewrite app_nil_r | by left; split; [|left]].
  cbn. rewrite Hl. destruct (live (pc m)); apply list_elem_of_here.
Qed.

Lemma frame_local m m' b : pc m' = pc m -> guard m' = guard m -> Frame m b m' b [].
Proof.
  intros Hp Hg. split; try done; [|by rewrite app_nil_r | by left; split; [|left]].
  rewrite Hp. destruct (live (pc m)); apply list_elem_of_here.
Qed.

Lemma frame_get m b : Frame m b m (get_ota_state OTA_STATE_RX_MQTT b).2 [].
Proof.
  unfold get_ota_state. destruct (watch_try_get _ _) as [o w] eqn:E.
  apply try_get_seen in E as [_ E]. split; cbn; try done.
  - apply (seen_value _ _ _ E).
  - intros j Hj. by apply (seen_other _ _ _ _ E).
  - destruct (live (pc m)); apply list_elem_of_here.
  - by rewrite app_nil_r.
  - by left; split; [|left].
Qed.

Lemma frame_changed m b s w : watch_changed OTA_STATE_RX_MQTT (OTA_STATE_WATCH b) = Some (s, w) ->
  Frame m b m (set_ota_state b w) [].
Proof.
  intros E. apply watch_changed_some in E as (_ & _ & E). split; cbn; try done.
  - apply (seen_value _ _ _ E).
  - intros j Hj. by apply (seen_other _ _ _ _ E).
  - destruct (live (pc m)); apply list_elem_of_here.
  - by rewrite app_nil_r.
  - by left; split; [|left].
Qed.

Lemma frame_release m b : Frame m b (release m b).1 (release m b).2 [].
Proof.
  unfold release. destruct (guard m) eqn:Eg; cbn; [|by apply frame_local].
  split; cbn; try done; [|by rewrite app_nil_r | by right; right].
  destruct (live (pc m)); apply list_elem_of_here.
Qed.

Lemma framed_then m b m1 b1 (o : outcome (W := W) (C := C)) :
  Frame m b m1 b1 [] -> live (pc m1) = live (pc m) -> Framed m1 b1 o -> Framed m b o.
Proof.
  intros F Hl Ho. pose proof (framed_after m b m1 b1 [] o F eq_refl Hl Ho) as Hf.
  by destruct o as [[m2 b2] acts].
Qed.

Lemma framed_emit m b m1 b1 a (o : outcome (W := W) (C := C)) :
  Frame m b m1 b1 [a] -> signals [a] = [] -> live (pc m1) = live (pc m) ->
  Framed m1 b1 o -> Framed m b (emit a o).
Proof.
  intros F Hs Hl Ho. pose proof (framed_after m b m1 b1 [a] o F Hs Hl Ho) as Hf.
  by destruct o as [[m2 b2] acts].
Qed.

(** An action that touches neither the bus nor the health. *)
Lemma framed_act m b a (o : outcome (W := W) (C := C)) :
  signals [a] = [] -> commands_taken [a] = [] -> forwarded [a] = [] ->
  Framed m b o -> Framed m b (emit a o).
Proof.
  intros Hs Hc Hf. apply framed_emit; [|done..]. split; try done.
  - by rewrite Hs.
  - rewrite Hs. destruct (live (pc m)); apply list_elem_of_here.
  - by rewrite Hc.
  - by rewrite Hf, app_nil_r.
  - by left; split; [|left].
Qed.

Lemma framed_pc m b p : live p = live (pc m) -> Framed m b (with_pc m p, b, []).
Proof. apply mqtt_frame_refl. Qed.

Lemma framed_end now m b : live (pc m) = true -> Framed m b (end_session now m b).
Proof.
  intros Hl. unfold end_session. pose proof (frame_release m b) as Hr.
  assert (pc (release m b).1 = pc m) as Hp by (unfold release; by destruct (guard m)).
  destruct (release m b) as [m1 b1]. cbn in Hr, Hp.
  eapply framed_then; [exact Hr | by rewrite Hp |]. split; cbn; try done.
  - apply watch_send_value.
  - rewrite Hp, Hl. apply list_elem_of_here.
  - by rewrite app_nil_r.
  - by left; split; [|left].
Qed.

Lemma framed_failed now m b : live (pc m) = false -> Framed m b (session_failed now m b).
Proof. intros Hl. by apply framed_pc. Qed.

Lemma framed_get m b (k : OtaState -> Bus W C -> outcome (W := W) (C := C)) :
  (forall s b', Framed m b' (k s b')) ->
  Framed m b (let (s, b') := get_ota_state OTA_STATE_RX_MQTT b in k s b').
Proof.
  intros Hk. pose proof (frame_get m b) as Hg.
  destruct (get_ota_state OTA_STATE_RX_MQTT b) as [s b']. by eapply framed_then.
Qed.

Lemma framed_open now m b : live (pc m) = false ->
  Framed m b (open_session MQTT_USE_TLS MQTT_TLS_CA_CERT_DER now m b).
Proof.
  intros Hl. unfold open_session. destruct MQTT_USE_TLS.
  2:{ apply framed_get. intros s b'. by apply framed_pc. }
  unfold try_acquire. destruct (TLS_WORKSPACE_IN_USE b) eqn:Eu; [by apply framed_failed|].
  apply (framed_then m b (with_guard m true) (set_workspace b true)); [|done|].
  - split; cbn; try done; [destruct (live (pc m)); apply list_elem_of_here | by rewrite app_nil_r |].
    destruct (guard m) eqn:Eg; [left; split; [done | by right] | by right; left].
  - apply framed_get. intros s b'. case_bool_decide; [by apply framed_failed | by apply framed_pc].
Qed.

Lemma framed_head now m b : live (pc m) = false ->
  Framed m b (loop_head MQTT_USE_TLS MQTT_TLS_CA_CERT_DER now m b).
Proof.
  intros Hl. unfold loop_head. apply framed_get. intros s b'.
  destruct (is_mqtt_allowed s); cbn [negb]; [by apply framed_open | by apply framed_pc].
Qed.

Lemma framed_backoff now m b : live (pc m) = false ->
  Framed m b (backoff_elapsed MQTT_USE_TLS MQTT_TLS_CA_CERT_DER now m b).
Proof.
  intros Hl. unfold backoff_elapsed. set (m0 := with_backoff m _).
  pose proof (frame_release m0 b) as Hr.
  assert (pc (release m0 b).1 = pc m) as Hp by (unfold release; by destruct (guard m0)).
  destruct (release m0 b) as [m1 b1]. cbn in Hr, Hp.
  apply (framed_then m b m0 b); [by apply frame_local | done |].
  eapply framed_then; [exact Hr | by rewrite Hp |]. apply framed_head. by rewrite Hp.
Qed.

Lemma framed_select now m b : live (pc m) = true -> Framed m b (select now m b).
Proof. intros Hl. by apply framed_pc. Qed.

Lemma framed_active now m b : live (pc m) = true -> Framed m b (select now (with_activity m now) b).
Proof. intros Hl. apply (framed_then m b (with_activity m now) b); [by apply frame_local | done | by apply framed_select]. Qed.

Lemma framed_defer now r m b : live (pc m) = true ->
  Framed m b (end_session now (with_deferred m r) b).
Proof.
  intros Hl. apply (framed_then m b (with_deferred m r) b); [by apply frame_local | done |].
  by apply framed_end.
Qed.

Lemma framed_handle now r s m b : live (pc m) = true -> Framed m b (handle_reading now r s m b).
Proof.
  intros Hl. unfold handle_reading. destruct (duration_since _ _) as [idle|]; [|by apply framed_pc].
  destruct (should_reconnect_before_publish _); [by apply framed_defer|].
  destruct (build_topic r); [|by apply framed_act; try done; apply framed_select].
  destruct (build_payload _ _ _) as [[p|]|]; [by apply framed_pc | | by apply framed_pc].
  by apply framed_act; try done; apply framed_select.
Qed.

Lemma framed_published now r s t p ok m b : live (pc m) = true ->
  Framed m b (reading_published now r s t p ok m b).
Proof.
  intros Hl. unfold reading_published. destruct ok; cbn [negb]; [|by apply framed_defer].
  apply framed_act; try done. case_bool_decide; [|by apply framed_active].
  destruct (duration_since _ _); [|by apply framed_pc].
  destruct (maybe_sleep_after_publish _ _ _ _ _) as [[secs|]|];
    [by apply framed_pc | by apply framed_active | by apply framed_pc].
Qed.

Lemma framed_connected now m b : live (pc m) = true -> Framed m b (connected_head now m b).
Proof.
  intros Hl. unfold connected_head. destruct (deferred_reading m) as [r|]; [|by apply framed_select].
  apply (framed_then m b (with_deferred m None) b); [by apply frame_local | done |].
  apply (framed_get _ _ (fun s b' => handle_reading now r s (with_deferred m None) b')).
  intros s b'. by apply framed_handle.
Qed.

(** The announcement of a session. *)
Lemma framed_heartbeat now m b o : live (pc m) = false ->
  Framed (with_pc m (Selecting now)) (send_health HeartbeatPublished b) o ->
  Framed m b (emit (HealthSent HeartbeatPublished) o).
Proof.
  intros Hl. destruct o as [[m2 b2] acts]. unfold Framed, emit. intros [].
  assert (signals (HealthSent HeartbeatPublished :: acts) = HeartbeatPublished :: signals acts) as Es by done.
  cbn in fr_signals0. split; try done.
  - rewrite fr_health0, Es. cbn. rewrite watch_send_value.
    destruct (live (pc m2)); set_unfold in fr_signals0; destruct_or!; by rewrite fr_signals0.
  - rewrite Es, Hl. destruct (live (pc m2)); set_unfold in fr_signals0; set_unfold;
      destruct_or!; rewrite fr_signals0; auto.
Qed.

(** Which await came before does not matter to these. *)
Lemma end_session_pc now m p (b : Bus W C) : end_session now (with_pc m p) b = end_session now m b.
Proof. unfold end_session, release. cbn [guard with_pc]. by destruct (guard m). Qed.

Lemma connected_head_pc now m p (b : Bus W C) : connected_head now (with_pc m p) b = connected_head now m b.
Proof.
  unfold connected_head. cbn [deferred_reading with_pc]. destruct (deferred_reading m) as [r|]; [|done].
  destruct (get_ota_state OTA_STATE_RX_MQTT b) as [s b']. unfold handle_reading.
  cbn [last_activity with_pc with_deferred]. destruct (duration_since now (last_activity m)); [|done].
  destruct (should_reconnect_before_publish _); [by apply (end_session_pc now (with_deferred m (Some r)))|].
  destruct (build_topic r); [|done]. by destruct (build_payload _ _ _) as [[|]|].
Qed.

Lemma framed_established now m b : live (pc m) = false ->
  Framed m b (session_established DEVICE_ID now m b).
Proof.
  intros Hl. unfold session_established. apply (framed_heartbeat now); [done|].
  set (m1 := with_pc m (Selecting now)). set (b1 := send_health HeartbeatPublished b).
  set (m2 := with_backoff m MQTT_MIN_BACKOFF_SECS).
  set (m2' := with_pc m2 (Selecting now)).
  destruct (ota_command_topic DEVICE_ID).
  - apply (framed_then m1 b1 (with_activity m2' now) b1); [by apply frame_local | done |].
    rewrite <- (connected_head_pc now _ (Selecting now)). by apply framed_connected.
  - apply (framed_then m1 b1 m2' b1); [by apply frame_local | done |].
    rewrite <- (end_session_pc now _ (Selecting now)). by apply framed_end.
Qed.

Lemma framed_stage now s ota_state m b : live (pc m) = false ->
  Framed m b (stage_done MQTT_USE_TLS DEVICE_ID CONNECT_OPTIONS_OK now s ota_state m b).
Proof.
  intros Hl. assert (Framed m b (connect_broker DEVICE_ID CONNECT_OPTIONS_OK now ota_state m b)) as Hc.
  { unfold connect_broker. destruct (is_ok _ && _); [by apply framed_pc | by apply framed_failed]. }
  destruct s; cbn [stage_done]; [destruct MQTT_USE_TLS; [by apply framed_pc | done] | done
    | by apply framed_pc | | by apply framed_failed].
  apply framed_act; try done. destruct (is_ok _); [by apply framed_pc | by apply framed_failed].
Qed.

Lemma framed_subscription now id ota_state event m b : live (pc m) = false ->
  Framed m b (subscription_polled ota_manifest_verifier DEVICE_ID now id ota_state event m b).
Proof.
  intros Hl. unfold subscription_polled.
  destruct event as [[publish| | |id' success| | | | | | |]|]; try by apply framed_pc.
  - destruct (copy_ota_manifest _ _) as [im|]; [|by apply framed_pc].
    destruct (resolve_ota_manifest_action _ _ _ _); by apply framed_pc.
  - destruct (id' =? id); [|by apply framed_pc].
    destruct success; [by apply framed_established | by apply framed_failed].
Qed.

Lemma framed_command now m b o : live (pc m) = true -> command_received DEVICE_ID now m b = Some o ->
  Framed m b o.
Proof.
  intros Hl Ho. unfold command_received in Ho.
  destruct (chan_try_receive _) as [[c ch]|] eqn:Ec; [|done]. apply (inj Some) in Ho as <-.
  apply chan_receive_some in Ec.
  apply (framed_emit m b m (set_commands b ch)); [|done|done|].
  - split; try done; [destruct (live (pc m)); apply list_elem_of_here | by rewrite app_nil_r
      | by left; split; [|left]].
  - destruct c as [radio power|r|]; [by apply framed_select | |].
    + apply (framed_get _ _ (fun s b' => handle_reading now r s m b')). intros s b'. by apply framed_handle.
    + destruct (ota_status_topic DEVICE_ID); [by apply framed_pc | by apply framed_end].
Qed.

Lemma framed_sent m b b' manifest (o : outcome (W := W) (C := C)) :
  manifest_sent manifest b = Some b' -> Framed m b' o -> Framed m b (emit (ManifestForwarded manifest) o).
Proof.
  unfold manifest_sent. destruct (chan_try_send _ _) as [c|] eqn:Ec; [|done]. intros [= <-].
  apply chan_send_some in Ec as [_ Ec]. apply framed_emit; [|done|done].
  split; try done; [destruct (live (pc m)); apply list_elem_of_here | by left; split; [|left]].
Qed.

Lemma framed_body now event m b : live (pc m) = true ->
  Framed m b (body_polled ota_manifest_verifier DEVICE_ID now event m b).
Proof.
  intros Hl. unfold body_polled. destruct event as [event|]; [|by apply framed_end].
  apply framed_get. intros s b'.
  destruct (handle_mqtt_event _ _ _ _) as [[] sent]; [by apply framed_active | by apply framed_pc |].
  destruct sent as [|manifest [|? ?]]; [by apply framed_active | by apply framed_pc | by apply framed_active].
Qed.

Lemma framed_confirmed now ok m b : live (pc m) = true ->
  Framed m b (confirmed_published DEVICE_ID now ok m b).
Proof.
  intros Hl. unfold confirmed_published. destruct (ota_status_topic DEVICE_ID); [|by apply framed_end].
  destruct ok; [|by apply framed_end]. by apply framed_act; try done; apply framed_active.
Qed.

Lemma step_framed now w m b o : mqtt_step now w m b = Some o -> Framed m b o.
Proof.
  intros Ho. unfold MqttTask.mqtt_step in Ho.
  destruct (pc m) as [|until|st s|id s|manifest|id s|until|r s t p| | |manifest| | |secs|] eqn:Epc.
  all: assert (live (pc m) = live (pc m)) as Hl by done; rewrite Epc in Hl at 2; cbv in Hl.
  all: destruct w as [| |[]|[id'|]|event|[]| |]; try discriminate Ho.
  all: try (apply (inj Some) in Ho as <-;
    first [ apply framed_pc; symmetry; exact Hl | by apply framed_failed | by apply framed_end
          | by apply framed_subscription | by apply framed_published | by apply framed_confirmed
          | by apply framed_body | by apply framed_active ]).
  1: { destruct (watch_changed _ _) as [[s w]|] eqn:E; [|done]. apply (inj Some) in Ho as <-.
       eapply framed_then; [by eapply frame_changed | done | by apply framed_head]. }
  1: { destruct (until <=? now); [|done]. apply (inj Some) in Ho as <-. by apply framed_backoff. }
  1-11: destruct st; try discriminate Ho; apply (inj Some) in Ho as <-;
    first [by apply framed_stage | by apply framed_failed | apply framed_pc; symmetry; exact Hl].
  - destruct (manifest_sent manifest b) as [b'|] eqn:E; [|done]. apply (inj Some) in Ho as <-.
    eapply framed_sent; [done | by apply framed_failed].
  - destruct (until <=? now); [|done]. apply (inj Some) in Ho as <-. apply framed_pc. symmetry. exact Hl.
  - destruct (watch_changed _ _) as [[s w]|] eqn:E; [|done]. apply (inj Some) in Ho as <-.
    eapply framed_then; [by eapply frame_changed | done |].
    destruct (is_mqtt_allowed s); cbn [negb]; [by apply framed_select | by apply framed_end].
  - by eapply framed_command.
  - destruct (manifest_sent manifest b) as [b'|] eqn:E; [|done]. apply (inj Some) in Ho as <-.
    eapply framed_sent; [done | by apply framed_end].
Qed.

(** ** Runs of the task *)

(** The task from its start, each step at some time with the bus as the
    other tasks have left it. *)
Inductive mqtt_run : Z -> Mqtt -> list action -> Prop :=
| mqtt_started now b m b' acts : BusOk now b -> start now b = (m, b', acts) -> mqtt_run now m acts
| mqtt_steps t now w b m acts m' b' acts' : mqtt_run t m acts -> t <= now -> BusOk now b ->
    mqtt_step now w m b = Some (m', b', acts') -> mqtt_run now m' (acts ++ acts').

Lemma keeps_start now b : BusOk now b -> Keeps now [] (start now b).
Proof.
  intros Hb. unfold MqttTask.start. apply keeps_emit; try done.
  set (m := {| pc := Standing; backoff_secs := MQTT_MIN_BACKOFF_SECS; deferred_reading := None;
               last_activity := now; guard := false |}).
  apply (keeps_head now m). pose proof (bo_now _ _ Hb). split; cbn; [constructor | lia | done].
Qed.

Lemma taken_app acts acts' : taken (acts ++ acts') = taken acts ++ taken acts'.
Proof. apply omap_app. Qed.
Lemma delivered_app acts acts' : delivered (acts ++ acts') = delivered acts ++ delivered acts'.
Proof. apply omap_app. Qed.
Lemma dropped_app acts acts' : dropped (acts ++ acts') = dropped acts ++ dropped acts'.
Proof. apply omap_app. Qed.
Lemma signals_app acts acts' : signals (acts ++ acts') = signals acts ++ signals acts'.
Proof. apply omap_app. Qed.

Lemma run_keeps now m acts : mqtt_run now m acts ->
  MqttOk now m /\ taken acts = delivered acts ++ held m /\ dropped acts = [] /\
  Forall GenuineAction acts.
Proof.
  induction 1 as [now b m b' acts Hb Hs|t now w b m acts m' b' acts' Hr IH Ht Hb Hs].
  - pose proof (keeps_start now b Hb) as Hk. rewrite Hs in Hk. exact Hk.
  - destruct IH as (Hm & Hk & Hd & Hg). apply (ok_later t now) in Hm; [|done].
    pose proof (step_keeps now w m b _ Hm Hb Hs) as (Hm' & Hk' & Hd' & Hg').
    rewrite taken_app, delivered_app, dropped_app, Hk, Hd, Hd', <- app_assoc, Hk', <- app_assoc.
    split_and!; try done. by apply Forall_app.
Qed.

Lemma held_short now m : MqttOk now m -> (length (held m) <= 1)%nat.
Proof.
  intros Hm. pose proof (mo_connected _ _ Hm) as Hd. unfold held.
  destruct (pc m); cbn in *; try rewrite Hd by done; destruct (deferred_reading m); cbn; lia.
Qed.

(** C12: the MQTT task loses no reading. Whatever the broker, the network and
    the other tasks do and however often the session breaks, the readings it
    took from its channel are, in order, those for which [client.publish]
    returned successfully (the task does not wait for the broker's
    acknowledgement) followed by the at most one it has in hand; each is
    published so once, under its own topic and with its payload; none is dropped
    for its size, the task never panics, and its retry interval stays between
    one and sixty seconds. *)
Theorem mqtt_delivery now m acts (Hrun : mqtt_run now m acts) :
  taken acts = delivered acts ++ held m /\ (length (held m) <= 1)%nat /\
  dropped acts = [] /\ pc m <> Panicked /\
  (forall r topic payload, ReadingPublished r topic payload ∈ acts -> Genuine r topic payload) /\
  1 <= backoff_secs m <= 60.
Proof.
  destruct (run_keeps _ _ _ Hrun) as (Hm & Hk & Hd & Hg). split_and!; try done.
  - by eapply held_short.
  - apply Hm.
  - intros r topic payload Hin. by apply (proj1 (Forall_forall _ _) Hg _ Hin).
  - apply Hm.
  - apply Hm.
Qed.

(** The alternation of the health signals. *)
Definition signal_at (i : nat) : MqttHealth := if Nat.even i then Disconnected else HeartbeatPublished.

Lemma start_signals now b m b' acts : start now b = (m, b', acts) ->
  signals acts = [Disconnected] /\ live (pc m) = false.
Proof.
  unfold MqttTask.start. set (m0 := {| pc := Standing; backoff_secs := _; deferred_reading := _;
    last_activity := _; guard := _ |}).
  pose proof (framed_head now m0 (send_health Disconnected b) eq_refl) as Hf.
  destruct (loop_head _ _ _ _ _) as [[m1 b1] acts1] eqn:El. intros [= <- <- <-].
  destruct (live (pc m1)) eqn:Eh; pose proof (fr_signals _ _ _ _ _ Hf) as Hs; rewrite Eh in Hs.
  - exfalso. revert El Eh. unfold loop_head, open_session.
    destruct (get_ota_state _ _) as [s b2]. destruct (negb _); [by intros [= <- _ _]|].
    destruct MQTT_USE_TLS; [destruct (try_acquire b2) as [b3|]|];
      try (destruct (get_ota_state _ _)); try case_bool_decide; by intros [= <- _ _].
  - split; [|done]. set_unfold in Hs. destruct Hs as [Hs|[Hs|[]]].
    + change (Disconnected :: signals acts1 = [Disconnected]). by rewrite Hs.
    + exfalso. revert El Hs. unfold loop_head, open_session.
      destruct (get_ota_state _ _) as [s b2]. destruct (negb _); [by intros [= _ _ <-]|].
      destruct MQTT_USE_TLS; [destruct (try_acquire b2) as [b3|]|];
        try (destruct (get_ota_state _ _)); try case_bool_decide; by intros [= _ _ <-].
Qed.

Lemma step_alternates now w m b m' b' acts n : mqtt_step now w m b = Some (m', b', acts) ->
  live (pc m) = Nat.even n ->
  exists k, signals acts = signal_at <$> seq n k /\ live (pc m') = Nat.even (n + k).
Proof.
  intros Hs Hn. pose proof (fr_signals _ _ _ _ _ (step_framed _ _ _ _ _ Hs)) as Hf. rewrite Hn in Hf.
  assert (forall k, Nat.even (n + k) = if Nat.even k then Nat.even n else negb (Nat.even n)) as He.
  { intros k. rewrite Nat.even_add. by destruct (Nat.even n), (Nat.even k). }
  exists (length (signals acts)).
  destruct (Nat.even n) eqn:En, (live (pc m')) eqn:El; set_unfold in Hf; destruct_or!;
    try (exfalso; exact Hf); rewrite Hf; cbn [length seq fmap list_fmap]; unfold signal_at;
    rewrite ?Nat.even_succ, <- ?Nat.negb_even, ?En, He; done.
Qed.

(** the health watch tells the truth about sessions: the task's signals
    strictly alternate, starting with [Disconnected], and the last one is
    [HeartbeatPublished] exactly while a session is up (from the
    acknowledged subscription to the end of the connected loop, or the deep
    sleep entered inside it). *)
Theorem mqtt_health_signals now m acts (Hrun : mqtt_run now m acts) :
  exists n, (1 <= n)%nat /\ signals acts = signal_at <$> seq 0 n /\
    live (pc m) = Nat.even n /\
    (last (signals acts) = Some HeartbeatPublished <-> live (pc m) = true).
Proof.
  assert (exists n, (1 <= n)%nat /\ signals acts = signal_at <$> seq 0 n /\
    live (pc m) = Nat.even n) as (n & Hn & Hs & Hl).
  { induction Hrun as [now b m b' acts Hb Hs|t now w b m acts m' b' acts' Hr IH Ht Hb Hs].
    - apply start_signals in Hs as [Hs Hl]. exists 1%nat. by rewrite Hs.
    - destruct IH as (n & Hn & Hsn & Hln). destruct (step_alternates _ _ _ _ _ _ _ n Hs Hln) as (k & Hk & Hl).
      exists (n + k)%nat. split_and!; [lia | | done].
      by rewrite signals_app, Hsn, Hk, seq_app, fmap_app. }
  exists n. split_and!; try done. rewrite Hs, Hl.
  destruct n as [|n]; [lia|]. rewrite seq_S, fmap_app.
  change (signal_at <$> [(0 + n)%nat]) with [signal_at n]. rewrite last_snoc.
  unfold signal_at. rewrite Nat.even_succ, <- Nat.negb_even. by destruct (Nat.even n).
Qed.

(** ** When sessions start and end *)

Lemma head_opens now m (b : Bus W C) : let '(m', _, acts) := loop_head MQTT_USE_TLS MQTT_TLS_CA_CERT_DER now m b in
  acts = [] /\ (forall s, pc m' = Establishing ConnectTcp s ->
    s = ota_state_of b /\ is_mqtt_allowed (ota_state_of b) = true).
Proof.
  unfold loop_head, get_ota_state. destruct (watch_try_get _ _) as [o w] eqn:E.
  apply try_get_seen in E as [-> E]. fold (ota_state_of b).
  destruct (is_mqtt_allowed (ota_state_of b)); cbn [negb]; [|done]. unfold open_session, get_ota_state.
  assert (forall b' : Bus W C, watch_value (OTA_STATE_WATCH b') = watch_value w ->
    forall o' w', watch_try_get OTA_STATE_RX_MQTT (OTA_STATE_WATCH b') = (o', w') ->
    default Inactive o' = ota_state_of b) as Hget.
  { intros b' Hb' o' w' E'. apply try_get_seen in E' as [-> _]. rewrite Hb'. unfold ota_state_of.
    by rewrite (seen_value _ _ _ E). }
  destruct MQTT_USE_TLS.
  - unfold try_acquire. destruct (TLS_WORKSPACE_IN_USE _); [done|].
    destruct (watch_try_get _ (OTA_STATE_WATCH (set_workspace _ _))) as [o' w'] eqn:E'.
    apply Hget in E'; [|done]. case_bool_decide; [done|]. split; [done|]. by intros s [= <-].
  - destruct (watch_try_get _ (OTA_STATE_WATCH (set_ota_state _ _))) as [o' w'] eqn:E'.
    apply Hget in E'; [|done]. split; [done|]. by intros s [= <-].
Qed.

(** Takes an outcome apart into its branches. *)
Ltac leaves Ho :=
  repeat match type of Ho with
  | Some _ = Some _ => apply (inj Some) in Ho
  | context [match ?x with _ => _ end] =>
      lazymatch x with
      | context [match _ with _ => _ end] => fail
      | _ => destruct x eqn:?; try discriminate Ho
      end
  end.

Definition by_loop_head (now : Z) (b : Bus W C) (o : outcome (W := W) (C := C)) : Prop :=
  exists m1 b1, ota_state_of b1 = ota_state_of b /\
    o = loop_head MQTT_USE_TLS MQTT_TLS_CA_CERT_DER now m1 b1.

(** Outside the head of its loop the task neither opens a session nor,
    except on the acknowledgement of its subscription, announces one. *)
Definition Quiet (ack : bool) (o : outcome (W := W) (C := C)) : Prop :=
  (forall s, pc o.1.1 <> Establishing ConnectTcp s) /\
  (ack = false -> HeartbeatPublished ∉ signals o.2).

Lemma quiet_pc ack m (b : Bus W C) p : (forall s, p <> Establishing ConnectTcp s) ->
  Quiet ack (with_pc m p, b, []).
Proof. intros Hp. split; [done | set_solver]. Qed.

Lemma quiet_emit ack a (o : outcome (W := W) (C := C)) :
  (ack = false -> a <> HealthSent HeartbeatPublished) -> Quiet ack o -> Quiet ack (emit a o).
Proof.
  destruct o as [[m b] acts]. intros Ha [Hp Hs]. split; [done|]. intros E. specialize (Ha E).
  specialize (Hs E). cbn in *. destruct a as [| | | | | |[]]; cbn; try done. set_solver.
Qed.

Lemma quiet_end now m (b : Bus W C) ack : Quiet ack (end_session now m b).
Proof.
  unfold end_session. destruct (release m b) as [m' b']. split; [done|]. cbn. set_solver.
Qed.
Create HintDb quiet.
#[local] Hint Resolve quiet_end : quiet.
#[local] Hint Extern 1 (Quiet _ (with_pc _ _, _, [])) => by apply quiet_pc : quiet.
#[local] Hint Extern 1 (Quiet _ (select _ _ _)) => by apply quiet_pc : quiet.
#[local] Hint Extern 1 (Quiet _ (session_failed _ _ _)) => by apply quiet_pc : quiet.
#[local] Hint Extern 1 (Quiet _ (emit _ _)) => apply quiet_emit; [done|] : quiet.
Local Ltac quiet := repeat (case_match || case_bool_decide); eauto with quiet.

Lemma quiet_handle ack now r s m (b : Bus W C) : Quiet ack (handle_reading now r s m b).
Proof. unfold handle_reading. quiet. Qed.
#[local] Hint Resolve quiet_handle : quiet.

Lemma quiet_published ack now r s t p ok m (b : Bus W C) : Quiet ack (reading_published now r s t p ok m b).
Proof. unfold reading_published. quiet. Qed.

Lemma quiet_connected ack now m (b : Bus W C) : Quiet ack (connected_head now m b).
Proof. unfold connected_head. quiet. Qed.
#[local] Hint Resolve quiet_published quiet_connected : quiet.

Lemma quiet_established now m (b : Bus W C) : Quiet true (session_established DEVICE_ID now m b).
Proof. unfold session_established. quiet. Qed.
#[local] Hint Resolve quiet_established : quiet.

Lemma quiet_stage ack now s o m (b : Bus W C) :
  Quiet ack (stage_done MQTT_USE_TLS DEVICE_ID CONNECT_OPTIONS_OK now s o m b).
Proof. destruct s; cbn [stage_done]; unfold connect_broker; quiet. Qed.

Lemma quiet_body ack now event m (b : Bus W C) :
  Quiet ack (body_polled ota_manifest_verifier DEVICE_ID now event m b).
Proof. unfold body_polled. quiet. Qed.

Lemma quiet_confirmed ack now ok m (b : Bus W C) : Quiet ack (confirmed_published DEVICE_ID now ok m b).
Proof. unfold confirmed_published. quiet. Qed.

Lemma quiet_command ack now m (b : Bus W C) o :
  command_received DEVICE_ID now m b = Some o -> Quiet ack o.
Proof. unfold command_received. intros Ho. repeat case_match; simplify_eq; eauto with quiet. Qed.
#[local] Hint Resolve quiet_stage quiet_body quiet_confirmed quiet_command : quiet.

Definition acknowledges (m : Mqtt) (w : wake) : bool :=
  match pc m, w with
  | Subscribing id _, Polled (Some (Suback id' true)) => id' =? id
  | _, _ => false
  end.

Lemma step_quiet now w m b o : mqtt_step now w m b = Some o ->
  Quiet (acknowledges m w) o \/ by_loop_head now b o.
Proof.
  intros Ho. unfold MqttTask.mqtt_step in Ho. unfold acknowledges.
  destruct (pc m) as [|until|st s0|id s0|manifest|id s0|until|r s0 t p| | |manifest| | |secs|] eqn:Epc;
    destruct w as [| |[]|[id'|]|event|[]| |]; try discriminate Ho.
  all: try (apply (inj Some) in Ho as <-; left; by eauto with quiet).
  all: try (left; by eauto with quiet).
  1: { destruct (watch_changed _ _) as [[s w]|] eqn:E; [|done]. apply (inj Some) in Ho as <-.
       right. exists m, (set_ota_state b w). split; [|done].
       apply watch_changed_some in E as (_ & _ & E). unfold ota_state_of. cbn. by rewrite (seen_value _ _ _ E). }
  1: { destruct (until <=? now); [|done]. apply (inj Some) in Ho as <-. right.
       unfold backoff_elapsed. set (m0 := with_backoff m _). unfold release.
       destruct (guard m0); [by exists (with_guard m0 false), (drop_guard b) | by exists m0, b]. }
  1-11: left; destruct st; try discriminate Ho; apply (inj Some) in Ho as <-; by eauto with quiet.
  - apply (inj Some) in Ho as <-. left. unfold subscription_polled.
    destruct event as [[publish| | |id' success| | | | | | |]|]; cbv beta iota zeta;
      try (by eauto with quiet).
    + destruct (copy_ota_manifest _ _); [|by eauto with quiet].
      destruct (resolve_ota_manifest_action _ _ _ _); by eauto with quiet.
    + destruct success, (id' =? id); by eauto with quiet.
  - left. destruct (manifest_sent manifest b) as [b'|]; [|done]. apply (inj Some) in Ho as <-. by eauto with quiet.
  - left. destruct (until <=? now); [|done]. apply (inj Some) in Ho as <-. by eauto with quiet.
  - left. destruct (watch_changed _ _) as [[s w]|]; [|done]. apply (inj Some) in Ho as <-.
    destruct (negb (is_mqtt_allowed s)); by eauto with quiet.
  - left. destruct (manifest_sent manifest b) as [b'|]; [|done]. apply (inj Some) in Ho as <-. by eauto with quiet.
Qed.

(** The TLS guard lives as long as the session; a task that stands by holds
    none. *)
Definition in_session (p : mqtt_pc) : bool :=
  match p with Standing | Backoff _ => false | _ => true end.
Definition Guarded (g : bool) (o : outcome (W := W) (C := C)) : Prop :=
  (in_session (pc o.1.1) = true -> guard o.1.1 = g) /\
  (pc o.1.1 = Standing -> guard o.1.1 = false).

Lemma guarded_pc g m (b : Bus W C) p : guard m = g -> p <> Standing -> Guarded g (with_pc m p, b, []).
Proof. by intros Hg Hp. Qed.
Lemma guarded_failed g now m (b : Bus W C) : Guarded g (session_failed now m b).
Proof. done. Qed.
Lemma guarded_emit g a (o : outcome (W := W) (C := C)) : Guarded g o -> Guarded g (emit a o).
Proof. by destruct o as [[m b] acts]. Qed.
Lemma guarded_end g now m (b : Bus W C) : Guarded g (end_session now m b).
Proof. unfold end_session. by destruct (release m b). Qed.
Create HintDb guarded.
#[local] Hint Resolve guarded_end guarded_pc guarded_emit guarded_failed : guarded.
#[local] Hint Extern 1 (Guarded _ (select _ _ _)) => apply guarded_pc : guarded.
#[local] Hint Extern 1 (_ <> Standing) => discriminate : guarded.
Local Ltac guarded := repeat (case_match || case_bool_decide); eauto with guarded.

Lemma guarded_handle g now r s m (b : Bus W C) : guard m = g -> Guarded g (handle_reading now r s m b).
Proof. intros Hg. unfold handle_reading. guarded. Qed.
#[local] Hint Resolve guarded_handle : guarded.
Lemma guarded_published g now r s t p ok m (b : Bus W C) : guard m = g ->
  Guarded g (reading_published now r s t p ok m b).
Proof. intros Hg. unfold reading_published. guarded. Qed.
Lemma guarded_connected g now m (b : Bus W C) : guard m = g -> Guarded g (connected_head now m b).
Proof. intros Hg. unfold connected_head. guarded. Qed.
#[local] Hint Resolve guarded_published guarded_connected : guarded.
Lemma guarded_established g now m (b : Bus W C) : guard m = g ->
  Guarded g (session_established DEVICE_ID now m b).
Proof. intros Hg. unfold session_established. guarded. Qed.
#[local] Hint Resolve guarded_established : guarded.
Lemma guarded_stage g now s o m (b : Bus W C) : guard m = g ->
  Guarded g (stage_done MQTT_USE_TLS DEVICE_ID CONNECT_OPTIONS_OK now s o m b).
Proof. intros Hg. destruct s; cbn [stage_done]; unfold connect_broker; guarded. Qed.
Lemma guarded_body g now event m (b : Bus W C) : guard m = g ->
  Guarded g (body_polled ota_manifest_verifier DEVICE_ID now event m b).
Proof. intros Hg. unfold body_polled. guarded. Qed.
Lemma guarded_confirmed g now ok m (b : Bus W C) : guard m = g ->
  Guarded g (confirmed_published DEVICE_ID now ok m b).
Proof. intros Hg. unfold confirmed_published. guarded. Qed.
Lemma guarded_command g now m (b : Bus W C) o : guard m = g ->
  command_received DEVICE_ID now m b = Some o -> Guarded g o.
Proof. unfold command_received. intros Hg Ho. repeat case_match; simplify_eq; eauto with guarded. Qed.
Lemma guarded_subscription g now id s event m (b : Bus W C) : guard m = g ->
  Guarded g (subscription_polled ota_manifest_verifier DEVICE_ID now id s event m b).
Proof. intros Hg. unfold subscription_polled. cbv zeta. guarded. Qed.
#[local] Hint Resolve guarded_stage guarded_body guarded_confirmed guarded_command guarded_subscription : guarded.

Lemma guarded_head now m (b : Bus W C) : guard m = false ->
  Guarded MQTT_USE_TLS (loop_head MQTT_USE_TLS MQTT_TLS_CA_CERT_DER now m b).
Proof.
  intros Hg. unfold loop_head, open_session. destruct (get_ota_state _ b) as [s b'].
  destruct (is_mqtt_allowed s); cbn [negb]; [|done]. destruct MQTT_USE_TLS; guarded.
Qed.

Lemma step_guarded now w m b o : mqtt_step now w m b = Some o ->
  in_session (pc m) = true -> Guarded (guard m) o.
Proof.
  intros Ho Hi. unfold MqttTask.mqtt_step in Ho.
  destruct (pc m) as [|until|st s|id s|manifest|id s|until|r s t p| | |manifest| | |secs|] eqn:Epc;
    try discriminate Hi; destruct w as [| |[]|[id'|]|event|[]| |]; try discriminate Ho.
  all: try (apply (inj Some) in Ho as <-; by eauto with guarded).
  all: try (by eauto with guarded).
  1-11: destruct st; try discriminate Ho; apply (inj Some) in Ho as <-; by eauto with guarded.
  all: try (destruct (manifest_sent manifest b) as [b'|]; [|done]; apply (inj Some) in Ho as <-; by eauto with guarded).
  - destruct (until <=? now); [|done]. apply (inj Some) in Ho as <-. by eauto with guarded.
  - destruct (watch_changed _ _) as [[s w]|]; [|done]. apply (inj Some) in Ho as <-.
    destruct (negb (is_mqtt_allowed s)); by eauto with guarded.
Qed.

Definition GuardOk (m : Mqtt) : Prop :=
  (in_session (pc m) = true -> guard m = MQTT_USE_TLS) /\ (pc m = Standing -> guard m = false).

Lemma guard_ok_step now w m b o : mqtt_step now w m b = Some o -> GuardOk m -> GuardOk o.1.1.
Proof.
  intros Ho [Hs Hst]. destruct (in_session (pc m)) eqn:Ei.
  { pose proof (step_guarded _ _ _ _ _ Ho Ei) as Hg. by rewrite Hs in Hg. }
  unfold MqttTask.mqtt_step in Ho.
  destruct (pc m) as [|until| | | | | | | | | | | | |] eqn:Epc; try discriminate Ei;
    destruct w; try discriminate Ho.
  - destruct (watch_changed _ _) as [[s w]|]; [|done]. apply (inj Some) in Ho as <-.
    by apply guarded_head, Hst.
  - destruct (until <=? now); [|done]. apply (inj Some) in Ho as <-. unfold backoff_elapsed.
    set (m0 := with_backoff m _). destruct (guard m0) eqn:Eg; unfold release; rewrite Eg;
      by apply guarded_head.
Qed.

(** when sessions start and end. A session is announced only by the
    broker's acknowledgement of this session's subscription to the update
    topic; a new one is attempted only while the OTA state allows MQTT; and
    a waiting session ends at the first change it sees to a state that does
    not, giving up the TLS buffers and reporting itself disconnected in the
    same step. A state it has already seen, through [try_get], does not wake
    it. *)
Theorem mqtt_sessions_spec now w m b :
  (forall m' b' acts, mqtt_step now w m b = Some (m', b', acts) ->
    (HeartbeatPublished ∈ signals acts ->
     exists id s, pc m = Subscribing id s /\ w = Polled (Some (Suback id true))) /\
    (forall s, pc m' = Establishing ConnectTcp s ->
     s = ota_state_of b /\ is_mqtt_allowed (ota_state_of b) = true)) /\
  (forall until s, pc m = Selecting until -> watch_value (OTA_STATE_WATCH b) = Some s ->
    (watch_unseen OTA_STATE_RX_MQTT (OTA_STATE_WATCH b) = true -> is_mqtt_allowed s = false ->
     exists m' b', mqtt_step now StateChanged m b = Some (m', b', [HealthSent Disconnected]) /\
       live (pc m') = false /\ guard m' = false /\
       watch_value (MQTT_HEALTH_WATCH b') = Some Disconnected /\
       (guard m = true -> TLS_WORKSPACE_IN_USE b' = false)) /\
    (watch_unseen OTA_STATE_RX_MQTT (OTA_STATE_WATCH b) = false ->
     mqtt_step now StateChanged m b = None)).
Proof.
  split.
  - intros m' b' acts Hs. destruct (step_quiet _ _ _ _ _ Hs) as [[Hp Hh]|(m1 & b1 & Hb & Ho)].
    + split; [|intros s E; by destruct (Hp s)]. intros Hin. unfold acknowledges in Hh.
      destruct (pc m) as [| | |id s| | | | | | | | | | |]; try by destruct (Hh eq_refl Hin).
      destruct w as [| | | |[[]|]| | |]; try by destruct (Hh eq_refl Hin).
      destruct success; [|by destruct (Hh eq_refl Hin)].
      destruct (Z.eqb_spec packet_identifier id) as [->|]; [|by destruct (Hh eq_refl Hin)].
      by eexists _, _.
    + pose proof (head_opens now m1 b1) as Hop. rewrite <- Ho, Hb in Hop. destruct Hop as [-> Hop].
      split; [set_solver | exact Hop].
  - intros u s Hp Hv. split.
    + intros Hu Hs. destruct (watch_changed_ready _ _ Hu) as (s' & w' & Ec & Hv' & Hw).
      assert (s' = s) as -> by congruence. unfold MqttTask.mqtt_step. rewrite Hp, Ec, Hs. cbn [negb].
      unfold end_session, release. destruct (guard m) eqn:Eg; (eexists _, _; split_and!; [done | done | | | done]);
        cbn; (done || apply watch_send_value).
    + intros Hu. unfold MqttTask.mqtt_step. by rewrite Hp, watch_changed_pending.
Qed.

(** *** The state a publication decides with *)

(** A reading is published under the OTA state [st] seen when it was taken;
    only the end of a publication puts the device to sleep. *)
Definition Captures (st : OtaState) (o : outcome (W := W) (C := C)) : Prop :=
  (forall r s t p, pc o.1.1 = PublishingReading r s t p -> s = st) /\ (forall k, pc o.1.1 <> Asleep k).

Lemma captures_pc st m (b : Bus W C) p : publishing p = [] -> ended p = false ->
  Captures st (with_pc m p, b, []).
Proof. intros Hp He. by destruct p. Qed.
Lemma captures_emit st a (o : outcome (W := W) (C := C)) : Captures st o -> Captures st (emit a o).
Proof. by destruct o as [[m b] acts]. Qed.
Lemma captures_end st now m (b : Bus W C) : Captures st (end_session now m b).
Proof. unfold end_session. by destruct (release m b). Qed.
Lemma captures_panicked st m (b : Bus W C) : Captures st (with_pc m Panicked, b, []).
Proof. done. Qed.
Lemma captures_publishing st m (b : Bus W C) r t p :
  Captures st (with_pc m (PublishingReading r st t p), b, []).
Proof. split; [|done]. by intros ? ? ? ? [= <- <- <- <-]. Qed.
Create HintDb captures.
#[local] Hint Resolve captures_end captures_panicked captures_publishing captures_emit : captures.
#[local] Hint Extern 1 (Captures _ (with_pc _ _, _, [])) => by apply captures_pc : captures.
#[local] Hint Extern 1 (Captures _ (select _ _ _)) => by apply captures_pc : captures.
#[local] Hint Extern 1 (Captures _ (session_failed _ _ _)) => by apply captures_pc : captures.
Local Ltac captures := repeat (case_match || case_bool_decide); auto with captures.

Lemma captures_handle now r s m (b : Bus W C) : Captures s (handle_reading now r s m b).
Proof. unfold handle_reading. captures. Qed.

Lemma captures_head st now m (b : Bus W C) :
  Captures st (loop_head MQTT_USE_TLS MQTT_TLS_CA_CERT_DER now m b).
Proof. unfold loop_head, open_session. captures. Qed.

(** The state is read from the bus at the moment the reading is taken. *)
Lemma captures_get now r m (b : Bus W C) :
  Captures (ota_state_of b)
    (let (s, b) := get_ota_state OTA_STATE_RX_MQTT b in handle_reading now r s m b).
Proof.
  unfold get_ota_state. destruct (watch_try_get _ _) as [o w] eqn:E.
  apply try_get_seen in E as [-> E]. apply captures_handle.
Qed.

Lemma captures_established now m (b : Bus W C) :
  Captures (ota_state_of b) (session_established DEVICE_ID now m b).
Proof.
  unfold session_established. apply captures_emit.
  case_match; [|apply captures_end]. unfold connected_head. case_match; [|by apply captures_pc].
  apply (captures_get now _ _ (send_health HeartbeatPublished b)).
Qed.

Lemma captures_command now m (b : Bus W C) o : command_received DEVICE_ID now m b = Some o ->
  Captures (ota_state_of b) o.
Proof.
  unfold command_received. intros Ho. destruct (chan_try_receive _) as [[c rest]|]; [|done].
  apply (inj Some) in Ho as <-. apply captures_emit. destruct c as [radio power|r|].
  - by apply captures_pc.
  - apply (captures_get now r m (set_commands b rest)).
  - captures.
Qed.

Lemma captures_published st now r s t p ok m (b : Bus W C) :
  Captures st (reading_published now r s t p ok m b) \/ s = Inactive.
Proof.
  unfold reading_published. destruct (decide (s = Inactive)) as [Hs|Hs]; [by right | left].
  rewrite (bool_decide_eq_false_2 _ Hs). captures.
Qed.

#[local] Hint Resolve captures_head captures_established captures_command : captures.

Lemma captures_subscription now id st event m (b : Bus W C) : Captures (ota_state_of b)
  (subscription_polled ota_manifest_verifier DEVICE_ID now id st event m b).
Proof. unfold subscription_polled. captures. Qed.
Lemma captures_body st now event m (b : Bus W C) :
  Captures st (body_polled ota_manifest_verifier DEVICE_ID now event m b).
Proof. unfold body_polled. captures. Qed.
Lemma captures_stage st now s o m (b : Bus W C) :
  Captures st (stage_done MQTT_USE_TLS DEVICE_ID CONNECT_OPTIONS_OK now s o m b).
Proof. destruct s; cbn [stage_done]; unfold connect_broker; captures. Qed.
#[local] Hint Resolve captures_subscription captures_body captures_stage : captures.

Lemma step_captures now w m b o : mqtt_step now w m b = Some o ->
  Captures (ota_state_of b) o \/ exists r t p, pc m = PublishingReading r Inactive t p.
Proof.
  intros Ho. unfold MqttTask.mqtt_step in Ho.
  destruct (pc m) as [|until|st s|id s|manifest|id s|until|r s t p| | |manifest| | |secs|] eqn:Epc;
    destruct w as [| |[]|[id'|]|event|[]| |]; try discriminate Ho.
  all: try (apply (inj Some) in Ho as <-; left; by captures).
  all: try (left; by eauto with captures).
  all: try (destruct (manifest_sent manifest b) as [b'|]; [|done]; apply (inj Some) in Ho as <-;
    left; by auto with captures).
  all: try (destruct (watch_changed _ _) as [[s w]|]; [|done]; apply (inj Some) in Ho as <-;
    left; by captures).
  all: try (destruct st; try discriminate Ho; apply (inj Some) in Ho as <-; left; by auto with captures).
  - destruct (until <=? now); [|done]. apply (inj Some) in Ho as <-. left. unfold backoff_elapsed.
    destruct (release _ _). apply captures_head.
  - destruct (until <=? now); [|done]. apply (inj Some) in Ho as <-. left. by captures.
  - apply (inj Some) in Ho as <-.
    destruct (captures_published (ota_state_of b) now r s t p true m b) as [Hc| ->]; [by left | right; eauto].
  - apply (inj Some) in Ho as <-. left. unfold reading_published. captures.
  - apply (inj Some) in Ho as <-. left. unfold confirmed_published. captures.
  - apply (inj Some) in Ho as <-. left. unfold confirmed_published. captures.
Qed.

End Properties.

Module Sample.
Import OtaManifest.Sample Publish.Sample.

Definition idle_bus : Bus cell bounded := {|
  OTA_STATE_WATCH := watch_send Inactive watch_new;
  MQTT_HEALTH_WATCH := watch_new;
  MQTT_COMMAND_CHANNEL := chan_new;
  OTA_COMMAND_CHANNEL := chan_new;
  RADIO_TELEMETRY_CHANNEL := chan_new;
  TIME_WATCH := Some reference;
  TLS_WORKSPACE_IN_USE := false;
  FLASH_LOCKED := false;
  device := boot 1 blank_device |}.
(** The router has queued a reading; the OTA task has started an update. *)
Definition reading_bus : Bus cell bounded :=
  set_commands idle_bus (default chan_new (chan_try_send (PublishTelemetry reading) chan_new)).
Definition update_bus : Bus cell bounded := send_ota_state Downloading idle_bus.

Abbreviation step := (mqtt_step (W := cell) (C := bounded) tt true [1] (lit "hut") true).
Abbreviation begin := (start (W := cell) (C := bounded) true [1]).
Abbreviation run := (mqtt_run (W := cell) (C := bounded) tt true [1] (lit "hut") true).

Lemma idle_ok now : 2000000 <= now < 2 ^ 63 -> BusOk now idle_bus.
Proof.
  intros Hn. split; [lia | | set_solver].
  intros t [= <-]. cbn. num_unfold. lia.
Qed.
Lemma reading_ok now : 2000000 <= now < 2 ^ 63 -> BusOk now reading_bus.
Proof.
  intros Hn. split; [lia | apply (idle_ok now Hn) |].
  intros r Hr. change (chan_list (MQTT_COMMAND_CHANNEL reading_bus)) with [PublishTelemetry reading] in Hr.
  apply list_elem_of_singleton in Hr. injection Hr as ->.
  split; [apply (transmitted_typed _ _ _ _ _ reading_transmitted) | cbn; lia].
Qed.

(** A script of awaits that resolve, each with the bus it finds. *)
Inductive situation := Calm | Queued.
Definition bus_of (s : situation) : Bus cell bounded :=
  match s with Calm => idle_bus | Queued => reading_bus end.
Fixpoint play (script : list (Z * wake * situation)) (t : Z) (m : Mqtt) (acts : list action)
  : option (Z * Mqtt * list action) :=
  match script with
  | [] => Some (t, m, acts)
  | (now, w, s) :: script =>
      if (t <=? now) && (now <? 2 ^ 63) then
        match step now w m (bus_of s) with
        | Some (m', _, acts') => play script now m' (acts ++ acts')
        | None => None
        end
      else None
  end.

Lemma play_run script t m acts t' m' acts' : 2000000 <= t -> run t m acts ->
  play script t m acts = Some (t', m', acts') -> run t' m' acts'.
Proof.
  revert t m acts. induction script as [|[[now w] s] script IH]; intros t m acts Ht Hr Hp; cbn [play] in Hp.
  - by injection Hp as <- <- <-.
  - destruct ((t <=? now) && (now <? 2 ^ 63)) eqn:En; [|done]. bools.
    destruct (step now w m (bus_of s)) as [[[m1 b1] acts1]|] eqn:Es; [|done].
    eapply IH; [| |exact Hp]; [lia|]. eapply mqtt_steps; [exact Hr | lia | | exact Es].
    destruct s; [apply idle_ok; lia | apply reading_ok; lia].
Qed.

Definition connecting (t : Z) : list (Z * wake * situation) :=
  [(t, Done true, Calm); (t, Done true, Calm); (t, Done true, Calm); (t, Done true, Calm);
   (t, Subscribed (Some 5), Calm); (t, Polled (Some (Suback 5 true)), Calm)].
(** The first publication fails; the reading goes out in the next session,
    after which the device sleeps. *)
Definition script : list (Z * wake * situation) :=
  connecting 2000000
  ++ [(2100000, CommandReady, Queued); (2200000, Done false, Calm); (3300000, Elapsed, Calm)]
  ++ connecting 3400000 ++ [(3500000, Done true, Calm)].

Definition first : Mqtt * list action := let '(m, _, acts) := begin 2000000 idle_bus in (m, acts).
Definition end_of (o : option (Z * Mqtt * list action)) : Z * Mqtt * list action :=
  default (0, first.1, []) o.
Definition final : Z * Mqtt * list action := end_of (play script 2000000 first.1 first.2).

Example script_ends :
  (pc final.1.2, delivered final.2, signals final.2)
  = (Asleep 45, [reading], [Disconnected; HeartbeatPublished; Disconnected; HeartbeatPublished]).
Proof. vm_compute. reflexivity. Qed.

Lemma script_plays : is_Some (play script 2000000 first.1 first.2).
Proof. vm_compute. by eexists. Qed.

Lemma final_run : run final.1.1 final.1.2 final.2.
Proof.
  assert (run 2000000 first.1 first.2) as Hf.
  { apply (mqtt_started _ _ _ _ _ 2000000 idle_bus first.1 (begin 2000000 idle_bus).1.2);
      [by apply idle_ok|]. unfold first. by destruct (begin 2000000 idle_bus) as [[? ?] ?]. }
  unfold final. destruct script_plays as [[[t m] acts] E]. rewrite E. cbn.
  by eapply play_run; [|exact Hf|exact E].
Qed.

Lemma mqtt_delivery_witness : taken final.2 = [reading] ++ held final.1.2.
Proof.
  pose proof (mqtt_delivery _ _ _ _ _ _ _ _ final_run) as (Ht & _). exact Ht.
Defined.

Lemma mqtt_health_signals_witness : last (signals final.2) = Some HeartbeatPublished.
Proof.
  destruct (mqtt_health_signals _ _ _ _ _ _ _ _ final_run) as (_ & _ & _ & _ & Hh).
  apply Hh. vm_compute. reflexivity.
Defined.

Definition waiting : Mqtt :=
  {| pc := Selecting 92000000; backoff_secs := 1; deferred_reading := None;
     last_activity := 2000000; guard := true |}.
Lemma mqtt_sessions_spec_witness :
  exists m' b', step 2000000 StateChanged waiting update_bus = Some (m', b', [HealthSent Disconnected]) /\
    TLS_WORKSPACE_IN_USE b' = false.
Proof.
  destruct (mqtt_sessions_spec tt true [1] (lit "hut") true 2000000 StateChanged waiting update_bus) as [_ Hw].
  destruct (Hw 92000000 Downloading eq_refl eq_refl) as [Hend _].
  destruct (Hend eq_refl eq_refl) as (m' & b' & Hs & _ & _ & _ & Hg).
  exists m', b'. split; [exact Hs | exact (Hg eq_refl)].
Defined.
End Sample.
