(* ===== verification/System.v ===== *)
(** * The tasks together

    The update task ([firmware/src/tasks/ota.rs], with the awaits of the
    download in [firmware/src/ota/flash_write.rs]), the confirmation task
    ([firmware/src/tasks/ota_confirm.rs]) and the router of readings
    ([radio_433_event_router_task] of [firmware/src/tasks/radio_433.rs]) as
    machines like the one of MqttTask, and the interleavings of the four
    tasks and the radio over the bus. *)
From S2P Require Import Prelude Str Heapless OtaUrl OtaManifest OtaCrypto OtaFlash TimeSync ConfigRules Rubicson Messages Publish OtaTasks Settings Sync Bus MqttTask.

(** ** The update task *)

Definition MQTT_STANDDOWN_TIMEOUT_SECS : Z := 30.
Definition TLS_WORKSPACE_WAIT_ATTEMPTS : nat := 250.
Definition TLS_WORKSPACE_WAIT_INTERVAL_MS : Z := 100.
Definition deadline_ms (now ms : Z) : Z := now + ms * 1000.

(** [https] is whether the manifest's URL needs TLS; [redirects] counts the
    redirects followed. [AcquireTls n] has [n] attempts left once its timer
    fires. *)
Inductive ota_pc :=
| OtaIdle
| StandDown (until : Z) (https : bool)
| AwaitFlash (https : bool)
| Preparing (https : bool)
| AcquireTls (attempts : nat) (until : Z) (redirects : nat)
| Fetching (tls : bool) (redirects : nat)
| Verifying
| OtaReset.

(** A command, a health change, a timer, the flash mutex; the download's
    outcomes: the partition is ready, a redirect, the whole body, an error,
    the verified image. *)
Inductive ota_wake :=
| CommandIn | HealthChanged | OtaElapsed | FlashFree | Prepared | Redirected | BodyDone | Failed
| Verified.

(** ** The confirmation task *)

Inductive confirm_pc :=
| ConfirmSpawned
| ReadBoot
| WarmUp (until : Z)
| WaitHealth (boot_at : Z)
| WaitUptime (boot_at until : Z)
| MarkValid
| Announce
| ConfirmDone (confirmed : bool).

(** The first poll, what the boot metadata says, a timer, a health change, the result of
    marking the image, and room in the command channel. *)
Inductive confirm_wake :=
| ConfirmStarts | BootRead (pending : bool) | ConfirmElapsed | ConfirmHealth | Marked (ok : bool) | Announced.

(** ** The router *)

Inductive router_pc := RouterSpawned | Quiesced | Receiving | Routing (command : AppCommand).
Inductive router_wake := RouterStarts | RouterStateChanged | ReadingIn | Routed.

Section Tasks.
Context {W : Type -> Type} `{Watch W} {C : Type -> nat -> Type} `{Channel C}.
Context `{SerdeJson} {V : Type} `{SignatureVerifier V}.
Context (ota_manifest_verifier : V) (OTA_ENCRYPTION_KEY_ID : Z).

(** The checks before an update starts. *)
Definition accepted (manifest_bytes : bytes) : option OtaManifest :=
  match parse_and_verify manifest_bytes ota_manifest_verifier with
  | Err _ => None
  | Ok manifest =>
      if is_ok (validate_ota_url_policy (url manifest))
         && (enc_key_id (enc manifest) =? OTA_ENCRYPTION_KEY_ID)
      then Some manifest else None
  end.

(** The end of an attempt that did not reset the device: the flash guard goes
    first, then the state. *)
Definition ota_failed (b : Bus W C) : ota_pc * Bus W C :=
  (OtaIdle, send_ota_state Inactive (set_flash b false)).

Definition stood_down (https : bool) (b : Bus W C) : ota_pc * Bus W C :=
  (AwaitFlash https, send_ota_state Applying b).

Definition health_of (rx : nat) (b : Bus W C) : option MqttHealth * Bus W C :=
  let (h, w) := watch_try_get rx (MQTT_HEALTH_WATCH b) in (h, set_health b w).

(** The head of [wait_until_mqtt_disconnected]. *)
Definition await_disconnect (until : Z) (https : bool) (b : Bus W C) : ota_pc * Bus W C :=
  let (h, b) := health_of MQTT_HEALTH_RX_OTA b in
  if bool_decide (h = Some Disconnected) then stood_down https b else (StandDown until https, b).

Definition command_in (now : Z) (b : Bus W C) : option (ota_pc * Bus W C) :=
  match chan_try_receive (OTA_COMMAND_CHANNEL b) with
  | None => None
  | Some (manifest_bytes, c) =>
      let b := set_ota_commands b c in
      Some match accepted manifest_bytes with
           | None => (OtaIdle, b)
           | Some manifest =>
               let b := send_ota_state Downloading b in
               await_disconnect (deadline now MQTT_STANDDOWN_TIMEOUT_SECS)
                 (starts_with (lit "https://") (url manifest)) b
           end
  end.

(** One attempt at the TLS workspace, with [attempts] left after it. *)
Definition acquire_tls (now : Z) (attempts redirects : nat) (b : Bus W C) : ota_pc * Bus W C :=
  match try_acquire b with
  | Some b => (Fetching true redirects, b)
  | None =>
      (AcquireTls attempts (deadline_ms now TLS_WORKSPACE_WAIT_INTERVAL_MS) redirects, b)
  end.

(** The head of the redirect loop. *)
Definition fetch (now : Z) (https : bool) (redirects : nat) (b : Bus W C) : ota_pc * Bus W C :=
  if https then acquire_tls now (Nat.pred TLS_WORKSPACE_WAIT_ATTEMPTS) redirects b
  else (Fetching false redirects, b).

Definition drop_tls (tls : bool) (b : Bus W C) : Bus W C := if tls then drop_guard b else b.

Definition ota_step (now : Z) (w : ota_wake) (p : ota_pc) (b : Bus W C) : option (ota_pc * Bus W C) :=
  match p, w with
  | OtaIdle, CommandIn => command_in now b
  | StandDown until https, HealthChanged =>
      match watch_changed MQTT_HEALTH_RX_OTA (MQTT_HEALTH_WATCH b) with
      | None => None
      | Some (h, w) =>
          let b := set_health b w in
          Some (if bool_decide (h = Disconnected) then stood_down https b
                else await_disconnect until https b)
      end
  | StandDown until _, OtaElapsed =>
      if until <=? now then Some (OtaIdle, send_ota_state Inactive b) else None
  | AwaitFlash https, FlashFree =>
      if FLASH_LOCKED b then None else Some (Preparing https, set_flash b true)
  | Preparing https, Prepared => Some (fetch now https 0 b)
  | Preparing _, Failed => Some (ota_failed b)
  | AcquireTls attempts until redirects, OtaElapsed =>
      if until <=? now then
        Some match attempts with
             | O => ota_failed b
             | S attempts => acquire_tls now attempts redirects b
             end
      else None
  | Fetching tls redirects, Redirected =>
      let b := drop_tls tls b in
      Some (if MAX_REDIRECTS <=? Z.of_nat redirects then ota_failed b
            else fetch now true (S redirects) b)
  | Fetching tls _, BodyDone => Some (Verifying, drop_tls tls b)
  | Fetching tls _, Failed => Some (ota_failed (drop_tls tls b))
  | Verifying, Verified => Some (OtaReset, b)
  | Verifying, Failed => Some (ota_failed b)
  | _, _ => None
  end.

(** ** The confirmation task's steps *)

(** The head of the health loop. *)
Definition look (now boot_at : Z) (b : Bus W C) : confirm_pc * Bus W C :=
  let (h, b) := health_of MQTT_HEALTH_RX_CONFIRM b in
  if bool_decide (default Disconnected h = HeartbeatPublished) then
    let elapsed := default (umax 32) (try_from_u 32 (as_secs (now - boot_at))) in
    if CONFIRMATION_WINDOW_SECS <=? elapsed then (MarkValid, b)
    else (WaitUptime boot_at (deadline now (Z.max (CONFIRMATION_WINDOW_SECS - elapsed) 1)), b)
  else (WaitHealth boot_at, b).

Definition confirm_step (now : Z) (w : confirm_wake) (p : confirm_pc) (b : Bus W C)
  : option (confirm_pc * Bus W C) :=
  match p, w with
  | ConfirmSpawned, ConfirmStarts => Some (ReadBoot, send_ota_state PendingConfirmation b)
  | ReadBoot, BootRead pending =>
      if FLASH_LOCKED b then None
      else if pending then Some (WarmUp (deadline now 2), b)
      else Some (ConfirmDone false, send_ota_state Inactive b)
  | WarmUp until, ConfirmElapsed => if until <=? now then Some (look now now b) else None
  | WaitUptime boot_at until, ConfirmElapsed =>
      if until <=? now then Some (look now boot_at b) else None
  | WaitHealth boot_at, ConfirmHealth =>
      match watch_changed MQTT_HEALTH_RX_CONFIRM (MQTT_HEALTH_WATCH b) with
      | None => None
      | Some (_, w) => Some (look now boot_at (set_health b w))
      end
  | MarkValid, Marked ok =>
      if FLASH_LOCKED b then None
      else if ok then Some (Announce, send_ota_state Inactive b) else Some (ConfirmDone false, b)
  | Announce, Announced =>
      c ← chan_try_send OtaConfirmed (MQTT_COMMAND_CHANNEL b);
      Some (ConfirmDone true, set_commands b c)
  | _, _ => None
  end.

(** ** The router's steps *)

Definition router_head (b : Bus W C) : router_pc * Bus W C :=
  let (ota_state, b) := get_ota_state OTA_STATE_RX_ROUTER b in
  (if is_radio_capture_allowed ota_state then Receiving else Quiesced, b).

Definition router_step (w : router_wake) (p : router_pc) (b : Bus W C) : option (router_pc * Bus W C) :=
  match p, w with
  | RouterSpawned, RouterStarts => Some (router_head b)
  | Quiesced, RouterStateChanged =>
      match watch_changed OTA_STATE_RX_ROUTER (OTA_STATE_WATCH b) with
      | None => None
      | Some (_, w) => Some (router_head (set_ota_state b w))
      end
  | Receiving, ReadingIn =>
      match chan_try_receive (RADIO_TELEMETRY_CHANNEL b) with
      | None => None
      | Some (reading, c) =>
          let b := set_telemetry b c in
          Some match route_event_to_mqtt_command (RadioFrameDecoded reading) with
               | Some command => (Routing command, b)
               | None => router_head b
               end
      end
  | Routing command, Routed =>
      c ← chan_try_send command (MQTT_COMMAND_CHANNEL b);
      Some (router_head (set_commands b c))
  | _, _ => None
  end.
End Tasks.

(** ** The system

    [mqtt_started] is whether the MQTT task has been polled; [queued] and
    [log] are histories: the readings the radio's channel accepted and the
    actions of the MQTT task. *)

(** One poll of a task on the await that resolved, or something from
    outside: time passes, the radio offers a reading, the clock is set. *)
Inductive event :=
| Tick (t : Z)
| MqttStarts
| MqttWakes (w : wake)
| OtaWakes (w : ota_wake)
| ConfirmWakes (w : confirm_wake)
| RouterWakes (w : router_wake)
| Heard (reading : RadioReading)
| Synchronised (t : TimeReference).

Definition heard_ok (now : Z) (r : RadioReading) : bool :=
  bool_decide (u8 (id (inner r))) && bool_decide (u8 (channel (inner r)))
  && between (smin 16) (smax 16) (rssi r) && between 0 now (received_at r).
Definition sync_ok (now : Z) (t : TimeReference) : bool :=
  bool_decide (u32 (unix_secs t)) && between 0 now (captured_at t).

Section System.
Context {W : Type -> Type} `{Watch W} {C : Type -> nat -> Type} `{Channel C}.
Context `{SerdeJson} {V : Type} `{SignatureVerifier V}.
Context (ota_manifest_verifier : V) (OTA_ENCRYPTION_KEY_ID : Z).
Context (MQTT_USE_TLS : bool) (MQTT_TLS_CA_CERT_DER DEVICE_ID : bytes).
Context (CONNECT_OPTIONS_OK : bool).

Record System := {
  clock : Z;
  mqtt_started : bool;
  mqtt : Mqtt;
  ota : ota_pc;
  confirm : confirm_pc;
  router : router_pc;
  bus : Bus W C;
  queued : list RadioReading;
  log : list action
}.

(** The statics when the tasks are spawned: [spawn_tasks] has sent the first
    OTA state. *)
Definition spawned_bus (d : Device) : Bus W C := {|
  OTA_STATE_WATCH := watch_send Inactive watch_new;
  MQTT_HEALTH_WATCH := watch_new;
  MQTT_COMMAND_CHANNEL := chan_new;
  OTA_COMMAND_CHANNEL := chan_new;
  RADIO_TELEMETRY_CHANNEL := chan_new;
  TIME_WATCH := None;
  TLS_WORKSPACE_IN_USE := false;
  FLASH_LOCKED := false;
  device := d |}.
Definition spawned (now : Z) (d : Device) : System := {|
  clock := now; mqtt_started := false;
  mqtt := {| pc := Standing; backoff_secs := MQTT_MIN_BACKOFF_SECS; deferred_reading := None;
             last_activity := now; guard := false |};
  ota := OtaIdle; confirm := ConfirmSpawned; router := RouterSpawned;
  bus := spawned_bus d; queued := []; log := [] |}.

(** Deep sleep and the reset after an update end the program. *)
Definition running (s : System) : bool :=
  negb (ended (pc (mqtt s))) && match ota s with OtaReset => false | _ => true end.

Definition after_mqtt (s : System) (o : outcome (W := W) (C := C)) : System :=
  let '(m, b, acts) := o in
  {| clock := clock s; mqtt_started := true; mqtt := m; ota := ota s; confirm := confirm s;
     router := router s; bus := b; queued := queued s; log := log s ++ acts |}.
Definition after_ota (s : System) (o : ota_pc * Bus W C) : System :=
  {| clock := clock s; mqtt_started := mqtt_started s; mqtt := mqtt s; ota := o.1;
     confirm := confirm s; router := router s; bus := o.2; queued := queued s; log := log s |}.
Definition after_confirm (s : System) (o : confirm_pc * Bus W C) : System :=
  {| clock := clock s; mqtt_started := mqtt_started s; mqtt := mqtt s; ota := ota s;
     confirm := o.1; router := router s; bus := o.2; queued := queued s; log := log s |}.
Definition after_router (s : System) (o : router_pc * Bus W C) : System :=
  {| clock := clock s; mqtt_started := mqtt_started s; mqtt := mqtt s; ota := ota s;
     confirm := confirm s; router := o.1; bus := o.2; queued := queued s; log := log s |}.
Definition with_clock (s : System) (t : Z) : System :=
  {| clock := t; mqtt_started := mqtt_started s; mqtt := mqtt s; ota := ota s;
     confirm := confirm s; router := router s; bus := bus s; queued := queued s; log := log s |}.
Definition with_reading (s : System) (r : RadioReading)
    (c : C RadioReading RADIO_TELEMETRY_CHANNEL_DEPTH) : System :=
  {| clock := clock s; mqtt_started := mqtt_started s; mqtt := mqtt s; ota := ota s;
     confirm := confirm s; router := router s; bus := set_telemetry (bus s) c;
     queued := queued s ++ [r]; log := log s |}.
Definition set_time (b : Bus W C) (t : TimeReference) : Bus W C :=
  {| OTA_STATE_WATCH := OTA_STATE_WATCH b; MQTT_HEALTH_WATCH := MQTT_HEALTH_WATCH b;
     MQTT_COMMAND_CHANNEL := MQTT_COMMAND_CHANNEL b; OTA_COMMAND_CHANNEL := OTA_COMMAND_CHANNEL b;
     RADIO_TELEMETRY_CHANNEL := RADIO_TELEMETRY_CHANNEL b; TIME_WATCH := Some t;
     TLS_WORKSPACE_IN_USE := TLS_WORKSPACE_IN_USE b; FLASH_LOCKED := FLASH_LOCKED b;
     device := device b |}.
Definition with_time (s : System) (t : TimeReference) : System :=
  {| clock := clock s; mqtt_started := mqtt_started s; mqtt := mqtt s; ota := ota s;
     confirm := confirm s; router := router s; bus := set_time (bus s) t; queued := queued s;
     log := log s |}.

Definition sys_step (e : event) (s : System) : option System :=
  if negb (running s) then None
  else
    match e with
    | Tick t => if (clock s <=? t) && (t <? 2 ^ 63) then Some (with_clock s t) else None
    | MqttStarts =>
        if mqtt_started s then None
        else Some (after_mqtt s (start MQTT_USE_TLS MQTT_TLS_CA_CERT_DER (clock s) (bus s)))
    | MqttWakes w =>
        if mqtt_started s then
          after_mqtt s <$> mqtt_step ota_manifest_verifier MQTT_USE_TLS MQTT_TLS_CA_CERT_DER DEVICE_ID
            CONNECT_OPTIONS_OK (clock s) w (mqtt s) (bus s)
        else None
    | OtaWakes w =>
        after_ota s <$> ota_step ota_manifest_verifier OTA_ENCRYPTION_KEY_ID (clock s) w (ota s) (bus s)
    | ConfirmWakes w => after_confirm s <$> confirm_step (clock s) w (confirm s) (bus s)
    | RouterWakes w => after_router s <$> router_step w (router s) (bus s)
    | Heard r =>
        if heard_ok (clock s) r then
          Some match chan_try_send r (RADIO_TELEMETRY_CHANNEL (bus s)) with
               | Some c => with_reading s r c
               | None => s
               end
        else None
    | Synchronised t => if sync_ok (clock s) t then Some (with_time s t) else None
    end.

(** The states a boot can lead to. *)
Inductive reachable : System -> Prop :=
| reach_spawned now d : 0 <= now < 2 ^ 63 -> reachable (spawned now d)
| reach_step e s s' : reachable s -> sys_step e s = Some s' -> reachable s'.

Fixpoint run_events (es : list event) (s : System) : option System :=
  match es with
  | [] => Some s
  | e :: es => s ← sys_step e s; run_events es s
  end.

Lemma run_reachable es s s' : reachable s -> run_events es s = Some s' -> reachable s'.
Proof.
  revert s. induction es as [|e es IH]; intros s Hr Hs; cbn in Hs; [by injection Hs as <-|].
  destruct (sys_step e s) as [s1|] eqn:E; [|done]. eapply IH; [|exact Hs]. by eapply reach_step.
Qed.
End System.
Arguments System W C : clear implicits.

(** ** Invariants *)

Definition ota_guard (p : ota_pc) : bool := match p with Fetching true _ => true | _ => false end.
Definition ota_flash (p : ota_pc) : bool :=
  match p with OtaIdle | StandDown _ _ | AwaitFlash _ => false | _ => true end.

Definition readings_of (cs : list AppCommand) : list RadioReading :=
  omap (fun c => match c with PublishTelemetry r => Some r | _ => None end) cs.
Definition routing (p : router_pc) : list RadioReading :=
  match p with Routing c => readings_of [c] | _ => [] end.

Lemma readings_of_app cs cs' : readings_of (cs ++ cs') = readings_of cs ++ readings_of cs'.
Proof. apply omap_app. Qed.

Lemma readings_of_length cs : (length (readings_of cs) <= length cs)%nat.
Proof.
  unfold readings_of. induction cs as [|c cs IH]; [done|]. cbn. destruct c; cbn; lia.
Qed.

Lemma taken_readings acts : taken acts = readings_of (commands_taken acts).
Proof.
  induction acts as [|a acts IH]; [done|]. unfold taken, commands_taken, readings_of in *. cbn.
  destruct a as [[]| | | | | |]; cbn; by rewrite IH.
Qed.

Section Invariants.
Context {W : Type -> Type} `{WatchLaws W} {C : Type -> nat -> Type} `{ChannelLaws C}.
Context `{SerdeJson} {V : Type} `{SignatureVerifier V}.
Context (ota_manifest_verifier : V) (OTA_ENCRYPTION_KEY_ID : Z).
Context (MQTT_USE_TLS : bool) (MQTT_TLS_CA_CERT_DER DEVICE_ID : bytes).
Context (CONNECT_OPTIONS_OK : bool).

Local Abbreviation ota_step := (ota_step (W := W) (C := C) ota_manifest_verifier OTA_ENCRYPTION_KEY_ID).
Local Abbreviation sys_step := (sys_step (W := W) (C := C) ota_manifest_verifier OTA_ENCRYPTION_KEY_ID
  MQTT_USE_TLS MQTT_TLS_CA_CERT_DER DEVICE_ID CONNECT_OPTIONS_OK).
Local Abbreviation reachable := (reachable (W := W) (C := C) ota_manifest_verifier OTA_ENCRYPTION_KEY_ID
  MQTT_USE_TLS MQTT_TLS_CA_CERT_DER DEVICE_ID CONNECT_OPTIONS_OK).

(** What the update, confirmation and router tasks leave alone. *)
Record Kept (b b' : Bus W C) : Prop := {
  kept_health : watch_value (MQTT_HEALTH_WATCH b') = watch_value (MQTT_HEALTH_WATCH b);
  kept_time : TIME_WATCH b' = TIME_WATCH b
}.

Lemma kept_refl b : Kept b b.
Proof. done. Qed.
Lemma kept_trans b b1 b2 : Kept b b1 -> Kept b1 b2 -> Kept b b2.
Proof. intros [? ?] [? ?]. split; congruence. Qed.

(** The update task's effect: its own guard and the flash mutex follow its
    state. *)
Record OtaFrame (p : ota_pc) (b : Bus W C) (p' : ota_pc) (b' : Bus W C) : Prop := {
  of_kept : Kept b b';
  of_commands : MQTT_COMMAND_CHANNEL b' = MQTT_COMMAND_CHANNEL b;
  of_telemetry : RADIO_TELEMETRY_CHANNEL b' = RADIO_TELEMETRY_CHANNEL b;
  of_flash : FLASH_LOCKED b = ota_flash p -> FLASH_LOCKED b' = ota_flash p';
  of_workspace : forall other, TLS_WORKSPACE_IN_USE b = other || ota_guard p ->
    other && ota_guard p = false ->
    TLS_WORKSPACE_IN_USE b' = other || ota_guard p' /\ other && ota_guard p' = false
}.

Definition OtaFramed (p : ota_pc) (b : Bus W C) (o : ota_pc * Bus W C) : Prop := OtaFrame p b o.1 o.2.

Lemma ota_framed_then p b p1 b1 o : OtaFrame p b p1 b1 -> OtaFramed p1 b1 o -> OtaFramed p b o.
Proof.
  intros [K1 ? ? F1 W1] [K2 ? ? F2 W2]. split.
  - by eapply kept_trans.
  - congruence.
  - congruence.
  - auto.
  - intros other Ho Hx. destruct (W1 other Ho Hx). auto.
Qed.

Lemma frame_send p p' b s : ota_flash p' = ota_flash p -> ota_guard p' = ota_guard p ->
  OtaFrame p b p' (send_ota_state s b).
Proof. intros Hf Hg. split; try done; cbn; rewrite ?Hf, ?Hg; auto. Qed.

Lemma frame_failed p b : ota_flash p = true -> ota_guard p = false -> OtaFramed p b (ota_failed b).
Proof. intros Hf Hg. split; try done; cbn. rewrite Hg. auto. Qed.

Lemma frame_health p b : OtaFrame p b p (health_of MQTT_HEALTH_RX_OTA b).2.
Proof.
  unfold health_of. destruct (watch_try_get _ _) as [h w] eqn:E. apply try_get_seen in E as [_ E].
  split; try done. split; [|done]. apply (seen_value _ _ _ E).
Qed.

Lemma frame_await until https p b : ota_flash p = false -> ota_guard p = false ->
  OtaFramed p b (await_disconnect until https b).
Proof.
  intros Hf Hg. unfold await_disconnect. pose proof (frame_health p b) as Hh.
  destruct (health_of MQTT_HEALTH_RX_OTA b) as [h b1]. eapply ota_framed_then; [exact Hh|].
  case_bool_decide; [by apply frame_send|]. split; try done; cbn; rewrite ?Hf, ?Hg; auto.
Qed.

Lemma frame_acquire now n r p b : ota_flash p = true -> ota_guard p = false ->
  OtaFramed p b (acquire_tls now n r b).
Proof.
  intros Hf Hg. unfold acquire_tls, try_acquire. destruct (TLS_WORKSPACE_IN_USE b) eqn:Eu.
  - split; try done; cbn; rewrite ?Hf, ?Hg; auto.
  - split; try done; cbn; rewrite ?Hf, ?Hg; auto.
    intros other Ho Hx. rewrite orb_false_r in Ho. rewrite Eu in Ho. subst other. done.
Qed.

Lemma frame_fetch now https r p b : ota_flash p = true -> ota_guard p = false ->
  OtaFramed p b (fetch now https r b).
Proof.
  intros Hf Hg. unfold fetch. destruct https; [by apply frame_acquire|].
  split; try done; cbn; rewrite ?Hf, ?Hg; auto.
Qed.

(** Giving up the guard between two requests. *)
Lemma frame_drop tls r p' b : ota_flash p' = true -> ota_guard p' = false ->
  OtaFrame (Fetching tls r) b p' (drop_tls tls b).
Proof.
  intros Hf Hg. destruct tls; split; try done; cbn; rewrite ?Hf, ?Hg; auto.
  intros other Ho Hx. by destruct other.
Qed.

Lemma ota_step_framed now w p b o : ota_step now w p b = Some o -> OtaFramed p b o.
Proof.
  intros Ho. unfold System.ota_step in Ho.
  destruct p as [|until https|https|https|n until r|tls r| |]; destruct w; try discriminate Ho.
  - unfold command_in in Ho. destruct (chan_try_receive _) as [[bs c]|]; [|done].
    apply (inj Some) in Ho as <-. apply (ota_framed_then _ _ OtaIdle (set_ota_commands b c)); [by split|].
    destruct (accepted _ _ bs) as [m|]; [|by split].
    eapply ota_framed_then; [by apply (frame_send OtaIdle OtaIdle) | by apply frame_await].
  - destruct (watch_changed _ _) as [[h w]|] eqn:E; [|done]. apply (inj Some) in Ho as <-.
    apply watch_changed_some in E as (_ & _ & E).
    apply (ota_framed_then _ _ (StandDown until https) (set_health b w)).
    { split; try done. split; [|done]. apply (seen_value _ _ _ E). }
    case_bool_decide; [by apply frame_send | by apply frame_await].
  - destruct (until <=? now); [|done]. apply (inj Some) in Ho as <-. by apply frame_send.
  - destruct (FLASH_LOCKED b); [done|]. apply (inj Some) in Ho as <-. by split.
  - apply (inj Some) in Ho as <-. by apply frame_fetch.
  - apply (inj Some) in Ho as <-. by apply frame_failed.
  - destruct (until <=? now); [|done]. apply (inj Some) in Ho as <-.
    destruct n; [by apply frame_failed | by apply frame_acquire].
  - apply (inj Some) in Ho as <-. eapply ota_framed_then; [by apply (frame_drop tls r Verifying)|].
    destruct (MAX_REDIRECTS <=? _); [by apply frame_failed | by apply frame_fetch].
  - apply (inj Some) in Ho as <-. by apply frame_drop.
  - apply (inj Some) in Ho as <-. eapply ota_framed_then; [by apply (frame_drop tls r Verifying)|].
    by apply frame_failed.
  - apply (inj Some) in Ho as <-. by apply frame_failed.
  - apply (inj Some) in Ho as <-. by split.
Qed.

(** The confirmation task: it can only add its announcement to the commands. *)
Record ConfirmFrame (b b' : Bus W C) : Prop := {
  cf_kept : Kept b b';
  cf_telemetry : RADIO_TELEMETRY_CHANNEL b' = RADIO_TELEMETRY_CHANNEL b;
  cf_flash : FLASH_LOCKED b' = FLASH_LOCKED b;
  cf_workspace : TLS_WORKSPACE_IN_USE b' = TLS_WORKSPACE_IN_USE b;
  cf_commands : readings_of (chan_list (MQTT_COMMAND_CHANNEL b')) =
    readings_of (chan_list (MQTT_COMMAND_CHANNEL b))
}.

Lemma look_frame now boot_at b : ConfirmFrame b (look now boot_at b).2.
Proof.
  unfold look, health_of. destruct (watch_try_get _ _) as [h w] eqn:E.
  apply try_get_seen in E as [_ E].
  assert (ConfirmFrame b (set_health b w)) as Hc.
  { split; try done. split; [|done]. apply (seen_value _ _ _ E). }
  case_bool_decide; [|done]. by destruct (CONFIRMATION_WINDOW_SECS <=? _).
Qed.

Lemma confirm_frame_seen b w now boot_at : SeenBy MQTT_HEALTH_RX_CONFIRM (MQTT_HEALTH_WATCH b) w ->
  ConfirmFrame b (look now boot_at (set_health b w)).2.
Proof.
  intros E. destruct (look_frame now boot_at (set_health b w)) as [[Hh Ht] ? ? ? ?].
  split; try done. split; [|done]. rewrite Hh. apply (seen_value _ _ _ E).
Qed.

Lemma confirm_step_frame now w p b o : confirm_step now w p b = Some o -> ConfirmFrame b o.2.
Proof.
  intros Ho. unfold confirm_step in Ho.
  destruct p as [| |until|boot_at|boot_at until| | |done]; destruct w; try discriminate Ho.
  - by apply (inj Some) in Ho as <-.
  - destruct (FLASH_LOCKED b); [discriminate Ho|].
    destruct pending; by apply (inj Some) in Ho as <-.
  - destruct (until <=? now); [|discriminate Ho]. apply (inj Some) in Ho as <-. apply look_frame.
  - destruct (watch_changed _ _) as [[h w]|] eqn:E; [|discriminate Ho]. apply (inj Some) in Ho as <-.
    apply watch_changed_some in E as (_ & _ & E). by apply confirm_frame_seen.
  - destruct (until <=? now); [|discriminate Ho]. apply (inj Some) in Ho as <-. apply look_frame.
  - destruct (FLASH_LOCKED b); [discriminate Ho|]. destruct ok; by apply (inj Some) in Ho as <-.
  - destruct (chan_try_send _ _) as [c|] eqn:E; [|discriminate Ho]. apply (inj Some) in Ho as <-.
    apply chan_send_some in E as [_ E]. split; try done. cbn. by rewrite E, readings_of_app, app_nil_r.
Qed.

(** The router moves readings towards the MQTT task, keeping their order. *)
Definition upstream (p : router_pc) (b : Bus W C) : list RadioReading :=
  readings_of (chan_list (MQTT_COMMAND_CHANNEL b)) ++ routing p ++ chan_list (RADIO_TELEMETRY_CHANNEL b).

Record RouterFrame (p : router_pc) (b : Bus W C) (p' : router_pc) (b' : Bus W C) : Prop := {
  rf_kept : Kept b b';
  rf_flash : FLASH_LOCKED b' = FLASH_LOCKED b;
  rf_workspace : TLS_WORKSPACE_IN_USE b' = TLS_WORKSPACE_IN_USE b;
  rf_upstream : upstream p' b' = upstream p b
}.

Lemma router_head_frame b p : routing p = [] -> RouterFrame p b (router_head b).1 (router_head b).2.
Proof.
  intros Hp. unfold router_head, get_ota_state. destruct (watch_try_get _ _) as [o w].
  destruct (is_radio_capture_allowed _); (split; try done); unfold upstream; by rewrite Hp.
Qed.

Lemma router_frame_then p b p1 b1 p2 b2 : RouterFrame p b p1 b1 -> RouterFrame p1 b1 p2 b2 ->
  RouterFrame p b p2 b2.
Proof. intros [? ? ? ?] [? ? ? ?]. split; [by eapply kept_trans | congruence..]. Qed.

Lemma router_step_frame w p b o : router_step w p b = Some o -> RouterFrame p b o.1 o.2.
Proof.
  intros Ho. unfold router_step in Ho. destruct p as [| | |command]; destruct w; try discriminate Ho.
  - apply (inj Some) in Ho as <-. by apply router_head_frame.
  - destruct (watch_changed _ _) as [[h w]|]; [|done]. apply (inj Some) in Ho as <-.
    apply (router_frame_then _ _ Quiesced (set_ota_state b w)); [by split | by apply router_head_frame].
  - destruct (chan_try_receive _) as [[r c]|] eqn:E; [|done]. apply (inj Some) in Ho as <-.
    apply chan_receive_some in E. split; try done. unfold upstream. cbn. by rewrite E.
  - destruct (chan_try_send _ _) as [c|] eqn:E; [|done]. apply (inj Some) in Ho as <-.
    apply chan_send_some in E as [_ E].
    apply (router_frame_then _ _ Receiving (set_commands b c)); [|by apply router_head_frame].
    split; try done. unfold upstream. cbn -[readings_of]. rewrite E, readings_of_app, <- app_assoc.
    done.
Qed.

(** *** The invariant *)

Record Inv (s : System W C) : Prop := {
  inv_clock : 0 <= clock s < 2 ^ 63;
  inv_mqtt : MqttOk (clock s) (mqtt s);
  inv_guarded : GuardOk MQTT_USE_TLS (mqtt s);
  inv_time : forall t, TIME_WATCH (bus s) = Some t -> u32 (unix_secs t) /\ 0 <= captured_at t <= clock s;
  inv_readings : Forall (ReadingOk (clock s)) (upstream (router s) (bus s));
  inv_flash : FLASH_LOCKED (bus s) = ota_flash (ota s);
  inv_workspace : TLS_WORKSPACE_IN_USE (bus s) = guard (mqtt s) || ota_guard (ota s) /\
    guard (mqtt s) && ota_guard (ota s) = false;
  inv_health : watch_value (MQTT_HEALTH_WATCH (bus s)) =
    if mqtt_started s
    then Some (if live (pc (mqtt s)) then HeartbeatPublished else Disconnected) else None;
  inv_unstarted : mqtt_started s = false ->
    pc (mqtt s) = Standing /\ deferred_reading (mqtt s) = None /\ log s = [] /\
    backoff_secs (mqtt s) = MQTT_MIN_BACKOFF_SECS;
  inv_pipeline : queued s = delivered (log s) ++ held (mqtt s) ++ upstream (router s) (bus s)
}.

Lemma bus_ok s : Inv s -> BusOk (clock s) (bus s).
Proof.
  intros Hi. split; [apply Hi | apply Hi |]. intros r Hr.
  pose proof (inv_readings _ Hi) as Hf. unfold upstream in Hf. rewrite !Forall_app in Hf.
  destruct Hf as [Hf _]. apply (proj1 (Forall_forall _ _) Hf).
  apply list_elem_of_omap. by exists (PublishTelemetry r).
Qed.

Lemma health_after before (after : bool) acts (v : option MqttHealth) :
  signals acts ∈ session_signals before after ->
  v = Some (if before then HeartbeatPublished else Disconnected) ->
  match last (signals acts) with Some h => Some h | None => v end
  = Some (if after then HeartbeatPublished else Disconnected).
Proof.
  intros Hs ->. destruct before, after; set_unfold in Hs; destruct_or!; try done; by rewrite Hs.
Qed.

Lemma inv_spawned now d : 0 <= now < 2 ^ 63 -> Inv (spawned now d).
Proof.
  intros Hn. split; cbn.
  - done.
  - split; cbn; try done; lia.
  - by split.
  - done.
  - unfold upstream. cbn. rewrite !chan_new_list. constructor.
  - done.
  - done.
  - apply watch_new_value.
  - done.
  - unfold upstream. cbn. by rewrite !chan_new_list.
Qed.

Definition WorkspaceMove (m m' : Mqtt) (b b' : Bus W C) : Prop :=
  forall other, TLS_WORKSPACE_IN_USE b = guard m || other -> guard m && other = false ->
    TLS_WORKSPACE_IN_USE b' = guard m' || other /\ guard m' && other = false.

Lemma frame_workspace_move m b m' b' acts : Frame m b m' b' acts -> WorkspaceMove m m' b b'.
Proof.
  intros Hf other. pose proof (fr_workspace _ _ _ _ _ Hf) as Hw. revert Hw. clear.
  destruct (guard m), (guard m'), other, (TLS_WORKSPACE_IN_USE b), (TLS_WORKSPACE_IN_USE b');
    intuition discriminate.
Qed.

Lemma inv_after_mqtt s m' b' acts : Inv s -> Keeps (clock s) (held (mqtt s)) (m', b', acts) ->
  GuardOk MQTT_USE_TLS m' -> WorkspaceMove (mqtt s) m' (bus s) b' ->
  chan_list (MQTT_COMMAND_CHANNEL (bus s)) =
    commands_taken acts ++ chan_list (MQTT_COMMAND_CHANNEL b') ->
  RADIO_TELEMETRY_CHANNEL b' = RADIO_TELEMETRY_CHANNEL (bus s) -> TIME_WATCH b' = TIME_WATCH (bus s) ->
  FLASH_LOCKED b' = FLASH_LOCKED (bus s) ->
  watch_value (MQTT_HEALTH_WATCH b') =
    Some (if live (pc m') then HeartbeatPublished else Disconnected) ->
  Inv (after_mqtt s (m', b', acts)).
Proof.
  intros Hi (Hm & Hk & _ & _) Hg Hw Hc Ht Htime Hf Hh.
  assert (upstream (router s) (bus s) = taken acts ++ upstream (router s) b') as Hu.
  { unfold upstream. by rewrite Hc, Ht, readings_of_app, <- taken_readings, <- app_assoc. }
  split; cbn; try done; try apply Hi.
  - intros t Et. apply (inv_time _ Hi). by rewrite <- Htime.
  - pose proof (inv_readings _ Hi) as Hr. rewrite Hu in Hr. by apply Forall_app in Hr as [_ Hr].
  - rewrite Hf. apply Hi.
  - apply Hw; apply Hi.
  - rewrite (inv_pipeline _ Hi), Hu, delivered_app, <- app_assoc. f_equal.
    rewrite !app_assoc. f_equal. exact Hk.
Qed.

Lemma inv_mqtt_step s w o : Inv s -> mqtt_started s = true ->
  mqtt_step ota_manifest_verifier MQTT_USE_TLS MQTT_TLS_CA_CERT_DER DEVICE_ID CONNECT_OPTIONS_OK
    (clock s) w (mqtt s) (bus s) = Some o -> Inv (after_mqtt s o).
Proof.
  intros Hi Hst Ho. destruct o as [[m' b'] acts].
  pose proof (step_framed _ _ _ _ _ _ _ _ _ _ Ho) as Hf. unfold Framed in Hf.
  pose proof (inv_health _ Hi) as Hh. rewrite Hst in Hh.
  apply inv_after_mqtt; try done.
  - eapply step_keeps; [apply Hi | by apply bus_ok | exact Ho].
  - eapply (guard_ok_step _ _ _ _ _ _ _ _ _ _ Ho), Hi.
  - by eapply frame_workspace_move.
  - apply Hf.
  - apply Hf.
  - apply Hf.
  - apply Hf.
  - rewrite (fr_health _ _ _ _ _ Hf). eapply health_after; [apply Hf | exact Hh].
Qed.

Lemma inv_mqtt_start s : Inv s -> mqtt_started s = false ->
  Inv (after_mqtt s (start MQTT_USE_TLS MQTT_TLS_CA_CERT_DER (clock s) (bus s))).
Proof.
  intros Hi Hst. destruct (inv_unstarted _ Hi Hst) as (Hp & Hd & Hl & Hb).
  pose proof (keeps_start MQTT_USE_TLS MQTT_TLS_CA_CERT_DER _ _ (bus_ok s Hi)) as Hk.
  destruct (start _ _ (clock s) (bus s)) as [[m' b'] acts] eqn:Es.
  pose proof (start_signals _ _ _ _ _ _ _ Es) as [Hs Hlive].
  unfold MqttTask.start in Es. set (m0 := {| pc := Standing; backoff_secs := _; deferred_reading := _;
    last_activity := _; guard := _ |}) in Es.
  pose proof (framed_head MQTT_USE_TLS MQTT_TLS_CA_CERT_DER (clock s) m0
    (send_health Disconnected (bus s)) eq_refl) as Hf.
  pose proof (guarded_head MQTT_USE_TLS MQTT_TLS_CA_CERT_DER (clock s) m0
    (send_health Disconnected (bus s)) eq_refl) as Hg.
  destruct (loop_head _ _ (clock s) m0 _) as [[m1 b1] acts1] eqn:El. injection Es as <- <- <-.
  assert (guard (mqtt s) = false) as Hg0 by (by apply (inv_guarded _ Hi)).
  assert (signals acts1 = []) as Hs1 by (by injection Hs).
  apply inv_after_mqtt; try done.
  - unfold held. rewrite Hp, Hd. exact Hk.
  - pose proof (frame_workspace_move _ _ _ _ _ Hf) as Hw. intros other Ho Hx.
    rewrite Hg0 in Ho. by apply Hw.
  - apply Hf.
  - apply Hf.
  - apply Hf.
  - apply Hf.
  - rewrite (fr_quiet _ _ _ _ _ Hf Hs1), Hlive. apply watch_send_value.
Qed.

Lemma readings_later now t l : now <= t -> Forall (ReadingOk now) l -> Forall (ReadingOk t) l.
Proof. intros Ht Hl. eapply Forall_impl; [exact Hl|]. intros r [Hr Hn]. split; [done | lia]. Qed.

Lemma system_inv_step e s s' : Inv s -> sys_step e s = Some s' -> Inv s'.
Proof.
  intros Hi Hs. unfold System.sys_step in Hs. destruct (running s); [|done]. cbn [negb] in Hs.
  destruct e as [t| |w|w|w|w|r|t].
  - destruct ((clock s <=? t) && (t <? 2 ^ 63)) eqn:Et; [|done]. injection Hs as <-. bools.
    pose proof (inv_clock _ Hi). split; cbn; try apply Hi; [lia | | |].
    + eapply ok_later; [apply Hi | done].
    + intros t' Ht'. destruct (inv_time _ Hi t' Ht'). split; [done | lia].
    + eapply readings_later; [|apply Hi]. done.
  - destruct (mqtt_started s) eqn:Est; [done|]. apply (inj Some) in Hs as <-. by apply inv_mqtt_start.
  - destruct (mqtt_started s) eqn:Est; [|done].
    destruct (mqtt_step _ _ _ _ _ _ _ _ _) as [o|] eqn:Eo; [|done]. apply (inj Some) in Hs as <-.
    by eapply inv_mqtt_step.
  - destruct (ota_step _ _ _ _) as [o|] eqn:Eo; [|done]. apply (inj Some) in Hs as <-.
    apply ota_step_framed in Eo as [[Kh Kt] Hc Ht Hf Hw].
    assert (upstream (router s) o.2 = upstream (router s) (bus s)) as Hu
      by (unfold upstream; by rewrite Hc, Ht).
    split; cbn; rewrite ?Hu, ?Kh, ?Kt; try apply Hi; [by apply Hf, Hi |].
    rewrite !(andb_comm (guard (mqtt s))), <- !(andb_comm (guard (mqtt s))).
    apply Hw; apply Hi.
  - destruct (confirm_step _ _ _ _) as [o|] eqn:Eo; [|done]. apply (inj Some) in Hs as <-.
    apply confirm_step_frame in Eo as [[Kh Kt] Ht Hf Hw Hc].
    assert (upstream (router s) o.2 = upstream (router s) (bus s)) as Hu
      by (unfold upstream; by rewrite Hc, Ht).
    split; cbn; rewrite ?Hu, ?Kh, ?Kt, ?Hf, ?Hw; apply Hi.
  - destruct (router_step _ _ _) as [o|] eqn:Eo; [|done]. apply (inj Some) in Hs as <-.
    apply router_step_frame in Eo as [[Kh Kt] Hf Hw Hu].
    split; cbn; rewrite ?Hu, ?Kh, ?Kt, ?Hf, ?Hw; apply Hi.
  - destruct (heard_ok (clock s) r) eqn:Er; [|done]. apply (inj Some) in Hs as <-.
    destruct (chan_try_send _ _) as [c|] eqn:Ec; [|done]. apply chan_send_some in Ec as [_ Ec].
    assert (upstream (router s) (set_telemetry (bus s) c) = upstream (router s) (bus s) ++ [r]) as Hu.
    { unfold upstream. cbn. by rewrite Ec, !app_assoc. }
    split; cbn; rewrite ?Hu; try apply Hi.
    + apply Forall_app. split; [apply Hi|]. constructor; [|done]. unfold heard_ok, between in Er. bools.
      split; [split; (done || num) | lia].
    + rewrite (inv_pipeline _ Hi). by rewrite <- !app_assoc.
  - destruct (sync_ok (clock s) t) eqn:Et; [|done]. apply (inj Some) in Hs as <-.
    unfold sync_ok, between in Et. bools.
    split; cbn; try apply Hi. intros t' [= <-]. split; [done | lia].
Qed.

Lemma reachable_inv s : reachable s -> Inv s.
Proof. induction 1 as [now d Hn|e s s' _ IH Hs]; [by apply inv_spawned | by eapply system_inv_step]. Qed.

(** *** What the tasks promise each other *)

Lemma live_session p : live p = true -> ended p = false -> in_session p = true.
Proof. unfold live. by destruct p. Qed.

(** The update waits for the broker's session to be gone. *)
Lemma await_disconnected until https (b : Bus W C) https' :
  (await_disconnect until https b).1 = AwaitFlash https' ->
  watch_value (MQTT_HEALTH_WATCH b) = Some Disconnected.
Proof.
  unfold await_disconnect, health_of. destruct (watch_try_get _ _) as [h w] eqn:E.
  apply try_get_seen in E as [-> _]. by case_bool_decide.
Qed.

Lemma command_in_downloads now (b : Bus W C) o : command_in ota_manifest_verifier OTA_ENCRYPTION_KEY_ID now b = Some o ->
  forall https, o.1 = AwaitFlash https -> watch_value (MQTT_HEALTH_WATCH b) = Some Disconnected.
Proof.
  intros Ho https Hp. unfold command_in in Ho. destruct (chan_try_receive _) as [[bs c]|]; [|done].
  apply (inj Some) in Ho as <-. destruct (accepted _ _ bs) as [m|]; [|done].
  set (b0 := send_ota_state Downloading _) in Hp. apply (await_disconnected _ _ b0 https Hp).
Qed.

Lemma ota_step_hand_over now w p b o : ota_step now w p b = Some o -> forall https,
  o.1 = AwaitFlash https -> watch_value (MQTT_HEALTH_WATCH b) = Some Disconnected.
Proof.
  intros Ho https Hp. unfold System.ota_step in Ho.
  destruct p as [|until h|h|h|n until r|tls r| |]; destruct w; try discriminate Ho.
  - by eapply command_in_downloads.
  - destruct (watch_changed _ _) as [[a w]|] eqn:E; [|done]. apply (inj Some) in Ho as <-.
    apply watch_changed_some in E as (_ & Ev & Es). case_bool_decide as Ha; [by rewrite Ev, Ha|].
    rewrite <- (seen_value _ _ _ Es). change w with (MQTT_HEALTH_WATCH (set_health b w)).
    by apply (await_disconnected until h _ https).
  - destruct (until <=? now); [|done]. by apply (inj Some) in Ho as <-.
  - destruct (FLASH_LOCKED b); [done|]. by apply (inj Some) in Ho as <-.
  - apply (inj Some) in Ho as <-. revert Hp. unfold fetch, acquire_tls. destruct h; [|done].
    by destruct (try_acquire b).
  - by apply (inj Some) in Ho as <-.
  - destruct (until <=? now); [|done]. apply (inj Some) in Ho as <-. revert Hp.
    unfold acquire_tls. destruct n; [done|]. by destruct (try_acquire b).
  - apply (inj Some) in Ho as <-. revert Hp. unfold fetch, acquire_tls.
    destruct (MAX_REDIRECTS <=? _); [done|]. by destruct (try_acquire _).
  - by apply (inj Some) in Ho as <-.
  - by apply (inj Some) in Ho as <-.
  - by apply (inj Some) in Ho as <-.
  - by apply (inj Some) in Ho as <-.
Qed.

(** C13: In every state a boot can lead to, with the tasks interleaved in any
    order: at most one of the MQTT task and the update task owns the shared
    TLS buffers, and the flag of [tls_workspace.rs] says whether one does;
    the flash mutex is held by the update exactly from its acquisition to
    its end, so the two can only meet over the buffers; the health watch
    holds [HeartbeatPublished] exactly while a broker session is up, hence
    an update gets past the stand-down only when no session is; and over TLS
    an update that downloads has the whole MQTT session gone. *)
Theorem tasks_exclusive s (Hr : reachable s) (Hrun : running s = true) :
  guard (mqtt s) && ota_guard (ota s) = false /\
  TLS_WORKSPACE_IN_USE (bus s) = guard (mqtt s) || ota_guard (ota s) /\
  FLASH_LOCKED (bus s) = ota_flash (ota s) /\
  (watch_value (MQTT_HEALTH_WATCH (bus s)) = Some HeartbeatPublished <-> live (pc (mqtt s)) = true) /\
  (forall w s' https, sys_step (OtaWakes w) s = Some s' -> ota s' = AwaitFlash https ->
    live (pc (mqtt s)) = false) /\
  (MQTT_USE_TLS = true -> ota_guard (ota s) = true -> in_session (pc (mqtt s)) = false).
Proof.
  pose proof (reachable_inv s Hr) as Hi. pose proof (inv_health _ Hi) as Hh.
  pose proof (inv_unstarted _ Hi) as Hu. destruct (inv_workspace _ Hi) as [Hw Hx].
  split_and!; [done | done | apply Hi | | |].
  - rewrite Hh. destruct (mqtt_started s); [by destruct (live _)|].
    destruct (Hu eq_refl) as (-> & _). done.
  - intros w s' https Hs Hp. unfold System.sys_step in Hs. rewrite Hrun in Hs. cbn [negb] in Hs.
    destruct (ota_step _ _ _ _) as [o|] eqn:Eo; [|done]. apply (inj Some) in Hs as <-.
    pose proof (ota_step_hand_over _ _ _ _ _ Eo _ Hp) as Hd. rewrite Hd in Hh.
    destruct (mqtt_started s); [|done]. by destruct (live _).
  - intros Ht Ho. rewrite Ho, andb_true_r in Hx. destruct (in_session _) eqn:Ein; [|done].
    by rewrite (proj1 (inv_guarded _ Hi) Ein), Ht in Hx.
Qed.

(** C14: In every state a boot can lead to, the readings the radio handed
    over are, in their order and each once: those that [client.publish] of
    the MQTT client has reported as sent, the one the MQTT task has in hand,
    those in the command channel, the one the router is passing on, and those
    in the radio's channel. Nothing is lost, repeated or overtaken between the
    radio's channel and that call, whatever happens to sessions, updates and
    the confirmation; and the task's arithmetic on instants never panics. What
    becomes of a reading after the call is not claimed: the task does not wait
    for the broker's acknowledgement. *)
Theorem pipeline_fifo s (Hr : reachable s) :
  queued s = delivered (log s) ++ held (mqtt s) ++ upstream (router s) (bus s) /\
  (length (held (mqtt s)) <= 1)%nat /\ (length (upstream (router s) (bus s)) <= 33)%nat /\
  pc (mqtt s) <> Panicked.
Proof.
  pose proof (reachable_inv s Hr) as Hi. split_and!; [apply Hi | | | apply Hi].
  - eapply held_short, Hi.
  - unfold upstream. rewrite !length_app.
    pose proof (chan_capacity (RADIO_TELEMETRY_CHANNEL (bus s))).
    pose proof (chan_capacity (MQTT_COMMAND_CHANNEL (bus s))).
    pose proof (readings_of_length (chan_list (MQTT_COMMAND_CHANNEL (bus s)))).
    assert (length (routing (router s)) <= 1)%nat
      by (destruct (router s) as [| | |c]; [cbn; lia..|]; apply (readings_of_length [c])).
    unfold RADIO_TELEMETRY_CHANNEL_DEPTH, MQTT_COMMAND_CHANNEL_DEPTH in *. lia.
Qed.

(** *** Sleep and an image that waits for its confirmation *)

(** The confirmation task has announced the image and not decided yet. *)
Definition awaiting (p : confirm_pc) : bool :=
  match p with ConfirmSpawned | Announce | ConfirmDone _ => false | _ => true end.

(** As long as no manifest has been forwarded. *)
Record Unforwarded (s : System W C) : Prop := {
  uf_ota : ota s = OtaIdle;
  uf_commands : chan_list (OTA_COMMAND_CHANNEL (bus s)) = [];
  uf_state : awaiting (confirm s) = true -> ota_state_of (bus s) = PendingConfirmation
}.

Lemma ota_state_seen i (b : Bus W C) w : SeenBy i (OTA_STATE_WATCH b) w ->
  ota_state_of (set_ota_state b w) = ota_state_of b.
Proof. intros Hs. unfold ota_state_of. cbn. by rewrite (seen_value _ _ _ Hs). Qed.

(** The confirmation task either has announced [PendingConfirmation] and
    waits on, or waits no longer. *)
Lemma confirm_state now w p (b : Bus W C) o : confirm_step now w p b = Some o ->
  o.1 <> ConfirmSpawned /\ OTA_COMMAND_CHANNEL o.2 = OTA_COMMAND_CHANNEL b /\
  (awaiting o.1 = true -> (p = ConfirmSpawned /\ ota_state_of o.2 = PendingConfirmation) \/
    (awaiting p = true /\ ota_state_of o.2 = ota_state_of b)).
Proof.
  assert (forall boot_at (b' : Bus W C), ota_state_of b' = ota_state_of b ->
    OTA_COMMAND_CHANNEL b' = OTA_COMMAND_CHANNEL b ->
    (look now boot_at b').1 <> ConfirmSpawned /\
    OTA_COMMAND_CHANNEL (look now boot_at b').2 = OTA_COMMAND_CHANNEL b /\
    ota_state_of (look now boot_at b').2 = ota_state_of b) as Hlook.
  { intros boot_at b' <- <-. unfold look, health_of. destruct (watch_try_get _ _) as [h w'].
    case_bool_decide; [|done]. by destruct (CONFIRMATION_WINDOW_SECS <=? _). }
  intros Ho. unfold confirm_step in Ho.
  destruct p as [| |until|boot_at|boot_at until| | |done]; destruct w; try discriminate Ho.
  - apply (inj Some) in Ho as <-. split_and!; [done..|]. intros _. left. split; [done|].
    unfold ota_state_of, send_ota_state. cbn. by rewrite watch_send_value.
  - destruct (FLASH_LOCKED b); [discriminate Ho|]. destruct pending; apply (inj Some) in Ho as <-; [|done].
    split_and!; [done..|]. by right.
  - destruct (until <=? now); [|discriminate Ho]. apply (inj Some) in Ho as <-.
    destruct (Hlook now b) as (? & ? & ?); [done..|]. split_and!; [done..|]. by right.
  - destruct (watch_changed _ _) as [[h w]|]; [|discriminate Ho]. apply (inj Some) in Ho as <-.
    destruct (Hlook boot_at (set_health b w)) as (? & ? & ?); [done..|]. split_and!; [done..|]. by right.
  - destruct (until <=? now); [|discriminate Ho]. apply (inj Some) in Ho as <-.
    destruct (Hlook boot_at b) as (? & ? & ?); [done..|]. split_and!; [done..|]. by right.
  - destruct (FLASH_LOCKED b); [discriminate Ho|]. destruct ok; by apply (inj Some) in Ho as <-.
  - destruct (chan_try_send _ _) as [c|]; [|discriminate Ho]. by apply (inj Some) in Ho as <-.
Qed.

Lemma router_state w p (b : Bus W C) o : router_step w p b = Some o ->
  OTA_COMMAND_CHANNEL o.2 = OTA_COMMAND_CHANNEL b /\ ota_state_of o.2 = ota_state_of b.
Proof.
  assert (forall b' : Bus W C, OTA_COMMAND_CHANNEL (router_head b').2 = OTA_COMMAND_CHANNEL b' /\
    ota_state_of (router_head b').2 = ota_state_of b') as Hhead.
  { intros b'. unfold router_head, get_ota_state. destruct (watch_try_get _ _) as [st w'] eqn:E.
    apply try_get_seen in E as [_ E]. split; [done | by eapply ota_state_seen]. }
  intros Ho. unfold router_step in Ho. destruct p as [| | |command]; destruct w; try discriminate Ho.
  - apply (inj Some) in Ho as <-. apply Hhead.
  - destruct (watch_changed _ _) as [[h w]|] eqn:E; [|done]. apply (inj Some) in Ho as <-.
    apply watch_changed_some in E as (_ & _ & E).
    destruct (Hhead (set_ota_state b w)) as [-> ->]. split; [done | by eapply ota_state_seen].
  - destruct (chan_try_receive _) as [[r c]|]; [|done]. by apply (inj Some) in Ho as <-.
  - destruct (chan_try_send _ _) as [c|]; [|done]. apply (inj Some) in Ho as <-. apply (Hhead (set_commands b c)).
Qed.

(** The update task cannot move without a command. *)
Lemma ota_idle now w (b : Bus W C) : chan_list (OTA_COMMAND_CHANNEL b) = [] ->
  ota_step now w OtaIdle b = None.
Proof. intros Hc. destruct w; try done. cbn. unfold command_in. by rewrite chan_receive_nil. Qed.

Lemma forwarded_app acts acts' : forwarded (acts ++ acts') = forwarded acts ++ forwarded acts'.
Proof. apply omap_app. Qed.

Lemma frame_unforwarded m (b : Bus W C) m' b' acts : Frame m b m' b' acts -> forwarded acts = [] ->
  chan_list (OTA_COMMAND_CHANNEL b') = chan_list (OTA_COMMAND_CHANNEL b) /\ ota_state_of b' = ota_state_of b.
Proof.
  intros Hf Ha. split.
  - by rewrite (fr_ota_commands _ _ _ _ _ Hf), Ha, app_nil_r.
  - unfold ota_state_of. by rewrite (fr_ota_state _ _ _ _ _ Hf).
Qed.

Lemma start_frame now (b : Bus W C) m' b' acts :
  start MQTT_USE_TLS MQTT_TLS_CA_CERT_DER now b = (m', b', acts) -> forwarded acts = [] ->
  chan_list (OTA_COMMAND_CHANNEL b') = chan_list (OTA_COMMAND_CHANNEL b) /\
  ota_state_of b' = ota_state_of b /\ Captures (ota_state_of b) (m', b', acts).
Proof.
  intros Es Ha. pose proof Es as Ec. unfold start in Es, Ec. set (m0 := {| pc := Standing; backoff_secs := _;
    deferred_reading := _; last_activity := _; guard := _ |}) in *.
  pose proof (framed_head MQTT_USE_TLS MQTT_TLS_CA_CERT_DER now m0 (send_health Disconnected b) eq_refl) as Hf.
  pose proof (captures_head MQTT_USE_TLS MQTT_TLS_CA_CERT_DER (ota_state_of b) now m0
    (send_health Disconnected b)) as Hc.
  destruct (loop_head _ _ _ m0 _) as [[m1 b1] acts1]. injection Es as <- <- <-.
  split_and!; [by eapply (frame_unforwarded _ _ _ _ _ Hf) .. | done].
Qed.

Lemma unforwarded_step e s s' : (forwarded (log s) = [] -> Unforwarded s) -> sys_step e s = Some s' ->
  forwarded (log s') = [] -> Unforwarded s'.
Proof.
  intros Hu Hs Hf. unfold System.sys_step in Hs. destruct (running s); [|done]. cbn [negb] in Hs.
  assert (forall acts, forwarded (log s ++ acts) = [] -> forwarded acts = [] /\ Unforwarded s) as Hlog.
  { intros acts Ha. rewrite forwarded_app in Ha. apply app_eq_nil in Ha as [? ?]. auto. }
  destruct e as [t| |w|w|w|w|r|t].
  - destruct ((clock s <=? t) && (t <? 2 ^ 63)); [|done]. injection Hs as <-. split; by apply Hu.
  - destruct (mqtt_started s); [done|]. apply (inj Some) in Hs as <-.
    destruct (start _ _ _ _) as [[m' b'] acts] eqn:Es. apply Hlog in Hf as [Ha [Ho Hc Hst]].
    destruct (start_frame _ _ _ _ _ Es Ha) as (Ec & Est & _). split; cbn; [done | by rewrite Ec | by rewrite Est].
  - destruct (mqtt_started s); [|done].
    destruct (mqtt_step _ _ _ _ _ _ _ _ _) as [[[m' b'] acts]|] eqn:Eo; [|done]. apply (inj Some) in Hs as <-.
    apply step_framed in Eo. apply Hlog in Hf as [Ha [Ho Hc Hst]].
    destruct (frame_unforwarded _ _ _ _ _ Eo Ha) as [Ec Est]. split; cbn; [done | by rewrite Ec | by rewrite Est].
  - destruct (ota_step _ _ _ _) as [o|] eqn:Eo; [|done]. apply (inj Some) in Hs as <-.
    destruct (Hu Hf) as [Ho Hc Hst]. by rewrite Ho, ota_idle in Eo.
  - destruct (confirm_step _ _ _ _) as [o|] eqn:Eo; [|done]. apply (inj Some) in Hs as <-.
    destruct (Hu Hf) as [Ho Hc Hst]. apply confirm_state in Eo as (_ & Ec & Est).
    split; cbn; [done | by rewrite Ec |]. intros Hw. destruct (Est Hw) as [[_ ->]|[Hp ->]]; auto.
  - destruct (router_step _ _ _) as [o|] eqn:Eo; [|done]. apply (inj Some) in Hs as <-.
    destruct (Hu Hf) as [Ho Hc Hst]. apply router_state in Eo as [Ec Est].
    split; cbn; [done | by rewrite Ec | by rewrite Est].
  - destruct (heard_ok _ _); [|done]. apply (inj Some) in Hs as <-.
    destruct (chan_try_send _ _); (split; by apply Hu).
  - destruct (sync_ok _ _); [|done]. apply (inj Some) in Hs as <-. split; by apply Hu.
Qed.

Lemma reachable_unforwarded s : reachable s -> forwarded (log s) = [] -> Unforwarded s.
Proof.
  induction 1 as [now d Hn|e s s' _ IH Hs]; [|by eapply unforwarded_step].
  intros _. split; [done | apply chan_new_list | done].
Qed.

(** The MQTT task does not carry a decision to sleep taken before the
    announcement. *)
Definition Wakeful (s : System W C) : Prop :=
  (forall r t p, pc (mqtt s) <> PublishingReading r Inactive t p) /\ (forall k, pc (mqtt s) <> Asleep k).

Lemma wakeful_captures (o : outcome (W := W) (C := C)) s : Captures PendingConfirmation o ->
  mqtt s = o.1.1 -> Wakeful s.
Proof.
  intros [Hp Ha] E. split; rewrite E; [|apply Ha]. intros r t p Epc. by apply Hp in Epc.
Qed.

Lemma wakeful_step e s s' : reachable s -> awaiting (confirm s) = true ->
  (forwarded (log s) = [] -> Wakeful s) -> sys_step e s = Some s' -> forwarded (log s') = [] -> Wakeful s'.
Proof.
  intros Hr Hw Hwk Hs Hf. pose proof (reachable_unforwarded _ Hr) as Hu.
  unfold System.sys_step in Hs. destruct (running s); [|done]. cbn [negb] in Hs.
  assert (forall acts, forwarded (log s ++ acts) = [] -> forwarded acts = [] /\ forwarded (log s) = []) as Hlog.
  { intros acts Ha. rewrite forwarded_app in Ha. by apply app_eq_nil in Ha as [? ?]. }
  destruct e as [t| |w|w|w|w|r|t].
  - destruct ((clock s <=? t) && (t <? 2 ^ 63)); [|done]. injection Hs as <-. by apply Hwk.
  - destruct (mqtt_started s); [done|]. apply (inj Some) in Hs as <-.
    destruct (start _ _ _ _) as [[m' b'] acts] eqn:Es. apply Hlog in Hf as [Ha Hl].
    destruct (start_frame _ _ _ _ _ Es Ha) as (_ & _ & Hc).
    rewrite (uf_state _ (Hu Hl) Hw) in Hc. by eapply wakeful_captures.
  - destruct (mqtt_started s); [|done].
    destruct (mqtt_step _ _ _ _ _ _ _ _ _) as [[[m' b'] acts]|] eqn:Eo; [|done]. apply (inj Some) in Hs as <-.
    apply Hlog in Hf as [Ha Hl]. apply step_captures in Eo as [Hc|(r & t & p & Epc)].
    + rewrite (uf_state _ (Hu Hl) Hw) in Hc. by eapply wakeful_captures.
    + by apply (Hwk Hl) in Epc.
  - destruct (ota_step _ _ _ _) as [o|]; [|done]. apply (inj Some) in Hs as <-. by apply Hwk.
  - destruct (confirm_step _ _ _ _) as [o|]; [|done]. apply (inj Some) in Hs as <-. by apply Hwk.
  - destruct (router_step _ _ _) as [o|]; [|done]. apply (inj Some) in Hs as <-. by apply Hwk.
  - destruct (heard_ok _ _); [|done]. apply (inj Some) in Hs as <-.
    destruct (chan_try_send _ _); by apply Hwk.
  - destruct (sync_ok _ _); [|done]. apply (inj Some) in Hs as <-. by apply Hwk.
Qed.

Lemma awaiting_back e s s' : sys_step e s = Some s' -> confirm s <> ConfirmSpawned ->
  confirm s' <> ConfirmSpawned /\ (awaiting (confirm s') = true -> awaiting (confirm s) = true).
Proof.
  intros Hs Hn. unfold System.sys_step in Hs. destruct (running s); [|done]. cbn [negb] in Hs.
  destruct e; repeat (case_match; try discriminate Hs);
    try (destruct (mqtt_step _ _ _ _ _ _ _ _ _) as [[[? ?] ?]|]; try discriminate Hs);
    try (destruct (start _ _ _ _) as [[? ?] ?]);
    try (destruct (ota_step _ _ _ _) as [?|]; try discriminate Hs);
    try (destruct (router_step _ _ _) as [?|]; try discriminate Hs);
    try (apply (inj Some) in Hs as <-; done).
  destruct (confirm_step _ _ _ _) as [o|] eqn:Eo; [|done]. apply (inj Some) in Hs as <-. cbn.
  pose proof (confirm_state _ _ _ _ _ Eo) as (Hs & _ & Ha). naive_solver.
Qed.

Lemma awaiting_over es s s' : awaiting (confirm s) = false -> confirm s <> ConfirmSpawned ->
  run_events ota_manifest_verifier OTA_ENCRYPTION_KEY_ID MQTT_USE_TLS MQTT_TLS_CA_CERT_DER
    DEVICE_ID CONNECT_OPTIONS_OK es s = Some s' -> awaiting (confirm s') = false.
Proof.
  revert s. induction es as [|e es IH]; intros s Hw Hn Hrun; cbn in Hrun; [by injection Hrun as <-|].
  destruct (System.sys_step _ _ _ _ _ _ e s) as [s1|] eqn:Es; [|done].
  destruct (awaiting_back _ _ _ Es Hn) as [Hn1 Hb]. apply (IH s1); [|done..].
  destruct (awaiting (confirm s1)); [by rewrite Hb in Hw | done].
Qed.

(** C15: A device that has booted an unconfirmed image does not go to deep
    sleep, which would make the boot loader roll it back: from any state
    [s0] in which the confirmation task has announced the pending image and
    still waits, and the MQTT task has not yet begun to publish, whatever the tasks, the
    broker, the radio and the clock do, the MQTT task is not asleep while
    the confirmation task still waits - as long as no manifest was forwarded
    to the update task in between. The protection ends with the waiting: a
    confirmation task that cannot read the boot metadata takes the image for
    confirmed and sets the state to inactive, and the device may then sleep
    with the image unconfirmed; one that cannot mark the image as valid stops
    and leaves the state at pending, about which nothing is claimed here. *)
Theorem sleep_awaits_confirmation s0 es s (Hr : reachable s0) (Hw0 : awaiting (confirm s0) = true)
    (Hp0 : publishing (pc (mqtt s0)) = [] /\ running s0 = true)
    (Hrun : run_events ota_manifest_verifier OTA_ENCRYPTION_KEY_ID MQTT_USE_TLS MQTT_TLS_CA_CERT_DER
      DEVICE_ID CONNECT_OPTIONS_OK es s0 = Some s) :
  awaiting (confirm s) = true -> forwarded (log s) = [] ->
  ota_state_of (bus s) = PendingConfirmation /\ forall k, pc (mqtt s) <> Asleep k.
Proof.
  assert (forwarded (log s0) = [] -> Wakeful s0) as Hwk.
  { destruct Hp0 as [Hp Hrun0]. unfold running in Hrun0. intros _.
    split; intros; intros E; rewrite E in *; done. }
  assert (confirm s0 <> ConfirmSpawned) as Hn by (intros E; by rewrite E in Hw0).
  clear Hw0 Hp0. revert s0 Hr Hwk Hn Hrun. induction es as [|e es IH]; intros s0 Hr Hwk Hn Hrun; cbn in Hrun.
  - injection Hrun as <-. intros Hw Hf. split; [by apply reachable_unforwarded | by apply Hwk].
  - destruct (System.sys_step _ _ _ _ _ _ e s0) as [s1|] eqn:Es; [|done]. cbn in Hrun.
    destruct (awaiting_back _ _ _ Es Hn) as [Hn1 Hb].
    destruct (awaiting (confirm s1)) eqn:Hw1.
    + apply (IH s1); [by eapply reach_step | | done | done]. by eapply wakeful_step; [| |exact Hwk|exact Es]; auto.
    + intros Hw. by rewrite (awaiting_over es s1 s) in Hw.
Qed.
End Invariants.

(** ** Runs of the whole system *)

Module Sample.
Import OtaTasks.Sample Publish.Sample.

Abbreviation sys := (System Sync.cell bounded).
Abbreviation runs := (run_events (W := Sync.cell) (C := bounded) tt 7 true [1] (lit "hut") true).
Abbreviation reach := (reachable (W := Sync.cell) (C := bounded) tt 7 true [1] (lit "hut") true).
Definition booted : sys := spawned 2000000 (boot 1 blank_device).

Definition after (es : list event) (s : sys) : sys := default s (runs es s).
Definition runs_ok (es : list event) (s : sys) : bool := bool_decide (is_Some (runs es s)).

Lemma booted_reach : reach booted.
Proof. constructor. lia. Qed.
Lemma after_runs es s : runs_ok es s = true -> runs es s = Some (after es s).
Proof.
  unfold runs_ok, after. intros Hs. apply bool_decide_eq_true_1 in Hs as [s' Hs]. by rewrite Hs.
Qed.
Lemma after_reach es s : reach s -> runs_ok es s = true -> reach (after es s).
Proof. intros Hr Hs. eapply run_reachable; [exact Hr | by apply after_runs]. Qed.

Definition manifest (retain : bool) : Event :=
  EventPublish {| topic := default [] (ok (ota_command_topic (lit "hut"))); message := command;
                  retain := retain |}.
(** From a fresh session to the one that waits for the acknowledgement. *)
Definition subscribing : list event :=
  map MqttWakes [Done true; Done true; Done true; Done true; Subscribed (Some 5)].
Definition connecting : list event := subscribing ++ [MqttWakes (Polled (Some (Suback 5 true)))].

(** Attempts to reach the broker that fail, each with the pause after it. *)
Fixpoint refused (pauses : list Z) (t : Z) : list event :=
  match pauses with
  | [] => []
  | p :: pauses =>
      let t := t + p * TICK_HZ in
      [MqttWakes (Done false); Tick t; MqttWakes Elapsed] ++ refused pauses t
  end.

(** *** A manifest before the subscription is acknowledged *)

Definition early : sys := after
  ([MqttStarts] ++ refused [1; 2; 4; 8; 16; 32] 2000000 ++ subscribing
   ++ [MqttWakes (Polled (Some (manifest false))); MqttWakes Sent; OtaWakes CommandIn;
       OtaWakes FlashFree]) booted.
Fixpoint attempts (n : nat) (t : Z) : list event :=
  match n with
  | O => []
  | S n => [Tick (t + 100000); OtaWakes OtaElapsed] ++ attempts n (t + 100000)
  end.
Definition starved : sys := after (OtaWakes Prepared :: attempts 250 (clock early)) early.

(** *** An update attempt while an image waits for its confirmation *)

Definition confirming : sys := after
  ([ConfirmWakes ConfirmStarts; ConfirmWakes (BootRead true); RouterWakes RouterStarts; MqttStarts;
    Synchronised reference]
   ++ connecting ++ [Tick 4000000; ConfirmWakes ConfirmElapsed]) booted.
Definition unconfirming : list event :=
  [MqttWakes (HeaderPolled true); MqttWakes (Polled (Some (manifest false))); MqttWakes Sent;
   OtaWakes CommandIn; OtaWakes FlashFree; OtaWakes Failed;
   RouterWakes RouterStateChanged; Tick 5500000; MqttWakes Elapsed]
  ++ connecting
  ++ [Heard reading; RouterWakes ReadingIn; RouterWakes Routed; MqttWakes CommandReady;
      MqttWakes (Done true)].
Definition unconfirmed : sys := after unconfirming confirming.

(** An update can be starved by the session that started it. There is a
    run in which a manifest arrives before the subscription is acknowledged,
    after the broker was unreachable for a minute: the MQTT task forwards it
    and gives the session up, but keeps the TLS buffers while its retry timer
    runs; the update, which has passed its stand-down, makes its 250
    attempts for the buffers in 25 s and is given up as failed, half a minute
    before the MQTT task lets go of the buffers. *)
Theorem early_manifest_starves_update :
  exists s until, reach s /\ last (log s) = Some (ManifestForwarded command) /\
    ota s = Preparing true /\ ota_state_of (bus s) = Applying /\
    pc (mqtt s) = Backoff until /\ guard (mqtt s) = true /\
    exists s', runs (OtaWakes Prepared :: attempts 250 (clock s)) s = Some s' /\
      ota s' = OtaIdle /\ ota_state_of (bus s') = Inactive /\ mqtt s' = mqtt s /\
      clock s' = clock s + 25 * TICK_HZ /\ clock s' + 30 * TICK_HZ < until.
Proof.
  exists early, 125000000. split; [apply after_reach; [apply booted_reach | vm_compute; reflexivity]|].
  split_and!; [vm_compute; reflexivity..|]. exists starved.
  split; [apply after_runs; vm_compute; reflexivity|].
  split_and!; vm_compute; reflexivity.
Qed.

(** The exception in [sleep_awaits_confirmation] is real: while a freshly
    booted image waits for its confirmation, a manifest arrives over the
    healthy session, the update it asks for fails, and the update task
    resets the OTA state to [Inactive]; the device then goes to deep sleep
    after its next reading, with the confirmation task still waiting. *)
Theorem sleeps_before_confirmation :
  exists s es s', reach s /\ awaiting (confirm s) = true /\ publishing (pc (mqtt s)) = [] /\
    ota_state_of (bus s) = PendingConfirmation /\ runs es s = Some s' /\
    awaiting (confirm s') = true /\ forwarded (log s') = [command] /\
    delivered (log s') = [reading] /\ ota_state_of (bus s') = Inactive /\ exists secs, pc (mqtt s') = Asleep secs.
Proof.
  exists confirming, unconfirming, unconfirmed.
  split; [apply after_reach; [apply booted_reach | vm_compute; reflexivity]|].
  split_and!; try (vm_compute; reflexivity). exists 45. vm_compute. reflexivity.
Qed.

Lemma confirming_reach : reach confirming.
Proof. apply after_reach; [apply booted_reach | vm_compute; reflexivity]. Qed.
Lemma starved_reach : reach starved.
Proof.
  apply after_reach; [|vm_compute; reflexivity]. apply after_reach; [apply booted_reach | vm_compute; reflexivity].
Qed.

Lemma tasks_exclusive_witness :
  guard (mqtt starved) && ota_guard (ota starved) = false /\
  TLS_WORKSPACE_IN_USE (bus starved) = guard (mqtt starved) || ota_guard (ota starved).
Proof.
  destruct (tasks_exclusive tt 7 true [1] (lit "hut") true starved starved_reach) as (Hx & Hu & _);
    [vm_compute; reflexivity|].
  split; [exact Hx | exact Hu].
Defined.

Lemma unconfirmed_reach : reach unconfirmed.
Proof. apply after_reach; [apply confirming_reach | vm_compute; reflexivity]. Qed.

Lemma pipeline_fifo_witness :
  queued unconfirmed = delivered (log unconfirmed) ++ held (mqtt unconfirmed)
    ++ upstream (router unconfirmed) (bus unconfirmed).
Proof.
  destruct (pipeline_fifo tt 7 true [1] (lit "hut") true unconfirmed unconfirmed_reach) as [Hp _].
  exact Hp.
Defined.

(** A reading heard before the confirmation task started and published while
    the image waits: the device stays awake. *)
Definition announced : sys := after
  [RouterWakes RouterStarts; Heard reading; RouterWakes ReadingIn; RouterWakes Routed;
   ConfirmWakes ConfirmStarts; ConfirmWakes (BootRead true); Synchronised reference] booted.
Definition reading_out : list event :=
  MqttStarts :: connecting ++ [MqttWakes CommandReady; MqttWakes (Done true)].
Definition awake : sys := after reading_out announced.
Lemma announced_reach : reach announced.
Proof. apply after_reach; [apply booted_reach | vm_compute; reflexivity]. Qed.

Lemma sleep_awaits_confirmation_witness :
  delivered (log awake) = [reading] /\ ota_state_of (bus awake) = PendingConfirmation /\
  forall k, pc (mqtt awake) <> Asleep k.
Proof.
  split; [vm_compute; reflexivity|].
  apply (sleep_awaits_confirmation tt 7 true [1] (lit "hut") true announced reading_out awake
    announced_reach);
    [vm_compute; reflexivity | split; vm_compute; reflexivity
    | apply after_runs; vm_compute; reflexivity | vm_compute; reflexivity | vm_compute; reflexivity].
Defined.
End Sample.
