(* ===== verification/PulseCapture.v ===== *)
(** * Pulse capture

    [firmware/src/pulse_capture_rmt.rs] (the default build) and the settings
    task of [firmware/src/tasks/radio_433.rs]. The receiver peripheral is an
    input: a reception ends with a count or an error and some contents of the
    symbol buffer. *)
From S2P Require Import Prelude Heapless Sync System Bus Rubicson Messages OtaTasks Settings Radio Telemetry.

(** ** Symbols of the receiver peripheral *)

Inductive Level := Low | High.
#[export] Instance Level_eq_dec : EqDecision Level.
Proof. solve_decision. Defined.

(** Each symbol holds two levels with their lengths in microseconds. *)
Record PulseCode := { level1 : Level; length1 : Z; level2 : Level; length2 : Z }.
Definition PulseCode_default : PulseCode := {| level1 := Low; length1 := 0; level2 := Low; length2 := 0 |}.

Record PulseDistanceIter := { symbols : list PulseCode; symbol_idx : nat; part : nat; done : bool }.
Definition PulseDistanceIter_new (buffer : list PulseCode) (symbol_count : nat) : PulseDistanceIter :=
  let count := (symbol_count `min` length buffer)%nat in
  {| symbols := take count buffer; symbol_idx := 0; part := 0; done := false |}.

(** The [while] loop of [next]. [None]: out of fuel, or an index out of
    range. *)
Fixpoint next_loop (fuel : nat) (self : PulseDistanceIter) : option (option Z * PulseDistanceIter) :=
  match fuel with
  | O => None
  | S fuel =>
      if negb (done self) && (symbol_idx self <? length (symbols self))%nat then
        code ← symbols self !! symbol_idx self;
        if (part self =? 0)%nat then
          let self := {| symbols := symbols self; symbol_idx := symbol_idx self; part := 1; done := done self |} in
          let len1 := length1 code in
          if len1 =? 0 then
            Some (None, {| symbols := symbols self; symbol_idx := symbol_idx self; part := part self; done := true |})
          else if decide (level1 code = Low) then Some (Some len1, self)
          else next_loop fuel self
        else
          let self := {| symbols := symbols self; symbol_idx := S (symbol_idx self); part := 0; done := done self |} in
          let len2 := length2 code in
          if len2 =? 0 then
            Some (None, {| symbols := symbols self; symbol_idx := symbol_idx self; part := part self; done := true |})
          else if decide (level2 code = Low) then Some (Some len2, self)
          else next_loop fuel self
      else Some (None, self)
  end.

(** The entries left bound the iterations. *)
Definition iter_fuel (self : PulseDistanceIter) : nat := S (2 * length (symbols self)).
Definition next (self : PulseDistanceIter) : option (option Z * PulseDistanceIter) :=
  next_loop (iter_fuel self) self.
(** What a [for] loop over the iterator sees. *)
Fixpoint gaps_loop (fuel : nat) (self : PulseDistanceIter) : option (list Z) :=
  match fuel with
  | O => None
  | S fuel =>
      '(gap, self) ← next self;
      match gap with
      | None => Some []
      | Some gap => cons gap <$> gaps_loop fuel self
      end
  end.
Definition gaps (self : PulseDistanceIter) : option (list Z) := gaps_loop (iter_fuel self) self.

(** ** The capture task *)

Definition OTA_STATE_RX_RADIO : nat := 1.
Definition SYMBOLS : nat := 512.
Definition MIN_SYMBOLS : nat := 12 * 36.
Definition CAPTURE_PAUSE_SECS : Z := 45.
Definition DEDUPE_CAPACITY : nat := 32.

Definition now_ms (now : Z) : Z := now / 1000.

(** How [channel.receive] ends. *)
Inductive Reception := Count (symbol_count : nat) | ReceiverError | OtherError.

Inductive capture_pc :=
| CaptureSpawned
| CaptureQuiesced
| Listening
| Paused (until : Z)
| CapturePanicked.
Inductive capture_wake :=
| CaptureStarts
| CaptureStateChanged
| Received (result : Reception) (buffer : list PulseCode)
| PauseOver.

Section Capture.
Context {W : Type -> Type} `{Watch W} {C : Type -> nat -> Type} `{Channel C}.
Context {Vec : Type -> nat -> Type} `{FixedVec Vec} {D : Type} `{Cc1101 D}.

Record PulseCapture := {
  cpc : capture_pc;
  quiesced : bool;
  radio : Cc1101Radio D;
  READING_WATCH : W RadioReading;
  telemetry_adapter : @TelemetryPipelineAdapter Vec DEDUPE_CAPACITY
}.
Definition with_cpc (c : PulseCapture) (p : capture_pc) (q : bool) : PulseCapture :=
  {| cpc := p; quiesced := q; radio := radio c; READING_WATCH := READING_WATCH c;
     telemetry_adapter := telemetry_adapter c |}.

(** The state, the statics, and the readings decoded with what became of
    them. *)
Definition capture_outcome : Type :=
  PulseCapture * Bus W C * list (RadioReading * TelemetryEnqueueOutcome).

Definition capture_head (c : PulseCapture) (b : Bus W C) : capture_outcome :=
  let (ota_state, b) := get_ota_state OTA_STATE_RX_RADIO b in
  if is_radio_capture_allowed ota_state then (with_cpc c Listening false, b, [])
  else (with_cpc c CaptureQuiesced true, b, []).

Definition try_send (channel : C RadioReading RADIO_TELEMETRY_CHANNEL_DEPTH) (reading : RadioReading)
  : bool * C RadioReading RADIO_TELEMETRY_CHANNEL_DEPTH :=
  match chan_try_send reading channel with
  | Some channel => (true, channel)
  | None => (false, channel)
  end.

Definition panicked (c : PulseCapture) (b : Bus W C) : capture_outcome :=
  (with_cpc c CapturePanicked (quiesced c), b, []).

(** What both back ends do with a decoded reading: signal strength, then the
    display's watch and the channel. [None]: a panic. *)
Definition deliver (now : Z) (reading : RubicsonReading) (radio : Cc1101Radio D) (readings : W RadioReading)
    (adapter : @TelemetryPipelineAdapter Vec DEDUPE_CAPACITY) (channel : C RadioReading RADIO_TELEMETRY_CHANNEL_DEPTH)
  : option (RadioReading * TelemetryEnqueueOutcome * Cc1101Radio D * W RadioReading *
      @TelemetryPipelineAdapter Vec DEDUPE_CAPACITY * C RadioReading RADIO_TELEMETRY_CHANNEL_DEPTH) :=
  let (rssi, radio) := get_rssi_dbm radio in
  let rssi := match rssi with Ok rssi => rssi | Err _ => -128 end in
  let radio_reading := {| inner := reading; rssi := rssi;
    detection_threshold := get_detection_threshold radio; received_at := now |} in
  '(o, adapter, channel, _) ← enqueue_with try_send adapter radio_reading (now_ms now) channel;
  Some (radio_reading, o, radio, watch_send radio_reading readings, adapter, channel).

(** A decoded reading is delivered, then the task pauses. *)
Definition decoded (now : Z) (reading : RubicsonReading) (c : PulseCapture) (b : Bus W C) : capture_outcome :=
  match deliver now reading (radio c) (READING_WATCH c) (telemetry_adapter c) (RADIO_TELEMETRY_CHANNEL b) with
  | None => panicked c b
  | Some (radio_reading, o, radio, readings, adapter, channel) =>
      ({| cpc := Paused (now + CAPTURE_PAUSE_SECS * 1000000); quiesced := quiesced c; radio := radio;
          READING_WATCH := readings; telemetry_adapter := adapter |},
       set_telemetry b channel, [(radio_reading, o)])
  end.

Definition received (now : Z) (result : Reception) (buffer : list PulseCode) (c : PulseCapture) (b : Bus W C)
  : capture_outcome :=
  match match result with
        | Count symbol_count => Some symbol_count
        | ReceiverError => Some (length buffer)
        | OtherError => None
        end with
  | None => capture_head c b
  | Some symbol_count =>
      if (MIN_SYMBOLS <=? symbol_count)%nat then
        match gaps (PulseDistanceIter_new buffer symbol_count) ≫= decode_gaps_iter with
        | None => panicked c b
        | Some (Ok (_, reading)) => decoded now reading c b
        | Some (Err _) => capture_head c b
        end
      else capture_head c b
  end.

(** One poll of the task. *)
Definition capture_step (now : Z) (w : capture_wake) (c : PulseCapture) (b : Bus W C) : option capture_outcome :=
  let changed :=
    '(_, w) ← watch_changed OTA_STATE_RX_RADIO (OTA_STATE_WATCH b);
    Some (capture_head c (set_ota_state b w)) in
  match cpc c, w with
  | CaptureSpawned, CaptureStarts => Some (capture_head c b)
  | CaptureQuiesced, CaptureStateChanged => changed
  | Listening, Received result buffer => Some (received now result buffer c b)
  | Listening, CaptureStateChanged => changed
  | Paused until, PauseOver => if until <=? now then Some (capture_head c b) else None
  | Paused _, CaptureStateChanged => changed
  | _, _ => None
  end.

(** [PulseCapture::new] when the task is spawned. *)
Definition PulseCapture_new (r : Cc1101Radio D) (readings : W RadioReading) : PulseCapture := {|
  cpc := CaptureSpawned; quiesced := false; radio := r; READING_WATCH := readings;
  telemetry_adapter := adapter_new |}.

(** [radio_433_settings_task] beside it: one wake-up, on a change of the
    settings watch. *)
Definition settings_step (rx : nat) (w : W RadioSettings) (r : Cc1101Radio D) : option (W RadioSettings * Cc1101Radio D) :=
  match watch_changed rx w with
  | None => None
  | Some (_, w) =>
      let (settings, w) := watch_try_get rx w in Some (w, apply_pending_settings settings r)
  end.
End Capture.
Arguments PulseCapture W {Vec} D.

(** ** The gaps of a reception *)

(** The entries of the symbols in order, up to the first of length zero; the
    low ones count. *)
Definition entries (buffer : list PulseCode) : list (Level * Z) :=
  buffer ≫= fun c => [(level1 c, length1 c); (level2 c, length2 c)].
Fixpoint low_gaps (es : list (Level * Z)) : list Z :=
  match es with
  | [] => []
  | (level, len) :: es =>
      if len =? 0 then [] else if decide (level = Low) then len :: low_gaps es else low_gaps es
  end.

Definition left_over (self : PulseDistanceIter) : list (Level * Z) :=
  if done self then [] else drop (part self) (entries (drop (symbol_idx self) (symbols self))).

Lemma length_entries buffer : length (entries buffer) = (2 * length buffer)%nat.
Proof. unfold entries. induction buffer as [|c l IH]; [done|]. cbn in *. lia. Qed.

(** The iterator inside a reception, before the level [p] of symbol [i]. *)
Definition at_entry (buffer : list PulseCode) (i p : nat) : PulseDistanceIter :=
  {| symbols := buffer; symbol_idx := i; part := p; done := false |}.

Lemma left_over_first buffer i code : buffer !! i = Some code ->
  left_over (at_entry buffer i 0) = (level1 code, length1 code) :: left_over (at_entry buffer i 1) /\
  left_over (at_entry buffer i 1) = (level2 code, length2 code) :: left_over (at_entry buffer (S i) 0).
Proof. intros Hc. unfold left_over. cbn. by rewrite (drop_S _ _ _ Hc). Qed.

(** What a call of [next] promises. *)
Definition NextSpec (self : PulseDistanceIter) (res : option (option Z * PulseDistanceIter)) : Prop :=
  exists o self', res = Some (o, self') /\
  match o with
  | None => low_gaps (left_over self) = []
  | Some gap => low_gaps (left_over self) = gap :: low_gaps (left_over self') /\
      (length (left_over self') < length (left_over self))%nat /\
      exists i p, (p <= 1)%nat /\ self' = at_entry (symbols self) i p
  end.

Lemma next_skips self self' res len : left_over self = (High, len) :: left_over self' -> (len =? 0) = false ->
  symbols self' = symbols self -> NextSpec self' res -> NextSpec self res.
Proof.
  intros E Hl Hs (o & s2 & -> & Ho). exists o, s2. split; [done|]. rewrite E. cbn [low_gaps length]. rewrite Hl.
  rewrite decide_False by done. destruct o as [gap|]; [|done]. destruct Ho as (-> & ? & i & p & ? & ->).
  split_and!; [done | lia |]. exists i, p. by rewrite Hs.
Qed.

Lemma next_loop_spec fuel buffer i p : (p <= 1)%nat ->
  (length (left_over (at_entry buffer i p)) < fuel)%nat ->
  NextSpec (at_entry buffer i p) (next_loop fuel (at_entry buffer i p)).
Proof.
  revert i p. induction fuel as [|fuel IH]; intros i p Hp Hf; [lia|]. cbn [next_loop at_entry done negb andb symbol_idx symbols].
  destruct (Nat.ltb_spec i (length buffer)) as [Hi|Hi]; last first.
  { do 2 eexists. split; [done|]. unfold left_over. cbn. rewrite (drop_ge buffer) by done. by destruct p. }
  destruct (lookup_lt_is_Some_2 _ _ Hi) as [code Hc]. rewrite Hc. cbn [mbind option_bind].
  destruct (left_over_first buffer i code Hc) as [E0 E1].
  destruct p as [|[|]]; [| |lia]; cbn [part at_entry Nat.eqb]; fold (at_entry buffer i 0); fold (at_entry buffer i 1); [rewrite E0 in Hf | rewrite E1 in Hf]; cbn [length] in Hf;
    [destruct (length1 code =? 0) eqn:El | destruct (length2 code =? 0) eqn:El];
    try (do 2 eexists; split; [done|]; rewrite ?E0, ?E1; cbn [low_gaps]; by rewrite El).
  all: case_decide as Hl.
  - do 2 eexists. split; [done|]. fold (at_entry buffer i 1). rewrite E0. cbn [low_gaps length]. rewrite El, decide_True by done.
    split_and!; [done | lia |]. by exists i, 1%nat.
  - apply (next_skips _ (at_entry buffer i 1) _ (length1 code)); [|done..|apply IH; lia].
    rewrite E0. by destruct (level1 code).
  - do 2 eexists. split; [done|]. fold (at_entry buffer (S i) 0). rewrite E1. cbn [low_gaps length]. rewrite El, decide_True by done.
    split_and!; [done | lia |]. exists (S i), 0%nat. split; [lia|done].
  - apply (next_skips _ (at_entry buffer (S i) 0) _ (length2 code)); [|done..|apply IH; lia].
    rewrite E1. by destruct (level2 code).
Qed.

Lemma left_over_length buffer i p : (length (left_over (at_entry buffer i p)) <= 2 * length buffer)%nat.
Proof. unfold left_over. cbn [done at_entry symbols symbol_idx part]. rewrite length_drop, length_entries, length_drop. lia. Qed.

Lemma gaps_loop_spec fuel buffer i p : (p <= 1)%nat -> (length (left_over (at_entry buffer i p)) < fuel)%nat ->
  gaps_loop fuel (at_entry buffer i p) = Some (low_gaps (left_over (at_entry buffer i p))).
Proof.
  revert i p. induction fuel as [|fuel IH]; intros i p Hp Hf; [lia|]. cbn [gaps_loop].
  pose proof (left_over_length buffer i p).
  destruct (next_loop_spec (iter_fuel (at_entry buffer i p)) buffer i p Hp) as (o & self' & E & Ho);
    [unfold iter_fuel; cbn [symbols at_entry]; lia|].
  unfold next. rewrite E. cbn [mbind option_bind]. destruct o as [gap|]; [|by rewrite Ho].
  destruct Ho as (-> & Hl & i' & p' & Hp' & ->). cbn [symbols at_entry] in *.
  fold (at_entry buffer i' p') in *. by rewrite IH by lia.
Qed.

(** The iterator ends on every buffer and count, and yields exactly the
    lengths of the low levels among the first symbols, in order, up to the
    first entry of length zero. *)
Lemma pulse_gaps buffer symbol_count :
  gaps (PulseDistanceIter_new buffer symbol_count) = Some (low_gaps (entries (take symbol_count buffer))).
Proof.
  unfold gaps, PulseDistanceIter_new. set (b := take (symbol_count `min` length buffer) buffer).
  fold (at_entry b 0 0). pose proof (left_over_length b 0 0).
  rewrite gaps_loop_spec by (unfold iter_fuel; cbn [symbols at_entry]; lia). unfold left_over. cbn. do 3 f_equal.
  unfold b. destruct (decide (symbol_count <= length buffer)%nat); [by rewrite Nat.min_l|].
  rewrite Nat.min_r by lia. by rewrite !take_ge by lia.
Qed.


(** What the peripheral records of a burst: a pulse and the gap after it in
    each symbol. *)
Definition recorded (pulses : list (Z * Z)) : list PulseCode :=
  (fun p => {| level1 := High; length1 := p.1; level2 := Low; length2 := p.2 |}) <$> pulses.

Lemma length_recorded pulses : length (recorded pulses) = length pulses.
Proof. apply length_fmap. Qed.

Lemma low_gaps_recorded pulses rest : Forall (fun p => 0 < p.1 /\ 0 < p.2) pulses ->
  low_gaps (entries (recorded pulses ++ rest)) = pulses.*2 ++ low_gaps (entries rest).
Proof.
  induction 1 as [|[h g] pulses [Hh Hg] _ IH]; [done|]. cbn [fst snd] in Hh, Hg.
  change (entries (recorded ((h, g) :: pulses) ++ rest)) with
    ((High, h) :: (Low, g) :: entries (recorded pulses ++ rest)). cbn [low_gaps fmap list_fmap snd].
  rewrite (proj2 (Z.eqb_neq h 0)), (proj2 (Z.eqb_neq g 0)) by lia.
  rewrite decide_False, decide_True by done. by rewrite IH.
Qed.

(** ** The task *)

Section Properties.
Context {W : Type -> Type} `{WatchLaws W} {C : Type -> nat -> Type} `{ChannelLaws C}.
Context {Vec : Type -> nat -> Type} `{FixedVecLaws Vec} {D : Type} `{Cc1101Laws D}.
Local Abbreviation PulseCapture := (PulseCapture W (Vec := Vec) D).
Local Abbreviation adapter := (@TelemetryPipelineAdapter Vec DEDUPE_CAPACITY).
Implicit Types (c : PulseCapture) (b : Bus W C) (r : RadioReading).

Definition cached_keys (a : adapter) : list CacheEntry := contents (dedupe a).

(** The filter and the channel, for a reading offered at [now]. *)
Record Offered (now : Z) (r : RadioReading) (o : TelemetryEnqueueOutcome) (a a' : adapter)
    (channel channel' : C RadioReading RADIO_TELEMETRY_CHANNEL_DEPTH) : Prop := {
  of_ttl : ttl_ms (dedupe a') = ttl_ms (dedupe a);
  of_entries : forall e, e ∈ cached_keys a' ->
    e ∈ cached_keys a \/ expires_at e = sat_add 64 (now_ms now) (ttl_ms (dedupe a));
  of_outcome :
    if holds (dedupe_key (to_telemetry_record r)) (live (now_ms now) (cached_keys a))
    then o = RejectedAsDuplicate /\ channel' = channel
    else match chan_try_send r channel with
         | Some sent => o = Queued /\ channel' = sent
         | None => o = DroppedByPolicy /\ channel' = channel
         end
}.

Lemma live_elem now l e : e ∈ live now l -> e ∈ l.
Proof. unfold live. rewrite list_elem_of_filter. by intros []. Qed.

Lemma delete_elem {A} i (l : list A) e : e ∈ delete i l -> e ∈ l.
Proof. intros He. eapply elem_of_submseteq; [done|]. apply sublist_submseteq, sublist_delete. Qed.

Lemma observed_entries (d : @DedupeCache Vec DEDUPE_CAPACITY) record now : exists o d',
  observe d record now = Some (o, d') /\ ttl_ms d' = ttl_ms d /\
  (o = if holds (dedupe_key record) (live now (contents d)) then Duplicate else New) /\
  forall e, e ∈ contents d' -> e ∈ contents d \/ expires_at e = sat_add 64 now (ttl_ms d).
Proof.
  destruct (observe_step d record now) as (o & d' & E & Ht & Ho). exists o, d'. split; [done|]. split; [done|].
  destruct (holds _ _).
  - destruct Ho as [-> Hc]. split; [done|]. intros e. rewrite Hc. intros He%live_elem. by left.
  - destruct Ho as [-> Hc]. split; [done|]. intros e He. case_bool_decide.
    + rewrite Hc, elem_of_app, list_elem_of_singleton in He.
      destruct He as [He%live_elem | ->]; [by left | by right].
    + destruct Hc as [[? Hc] | (i & _ & Hc)]; rewrite Hc in He; [set_solver|].
      rewrite elem_of_app, list_elem_of_singleton in He.
      destruct He as [He%delete_elem%live_elem | ->]; [by left | by right].
Qed.

Lemma enqueue_offered now r (a : adapter) (channel : C RadioReading RADIO_TELEMETRY_CHANNEL_DEPTH) :
  exists o a' channel' log,
    enqueue_with try_send a r (now_ms now) channel = Some (o, a', channel', log) /\
    Offered now r o a a' channel channel'.
Proof.
  unfold enqueue_with, map_radio_reading_to_record.
  destruct (observed_entries (dedupe a) (to_telemetry_record r) (now_ms now)) as (o & d & -> & Ht & Ho & He).
  cbn [mbind option_bind]. destruct (holds _ _) eqn:Eh; subst o.
  - do 4 eexists. split; [done|]. split; [done | done |]. unfold cached_keys. by rewrite Eh.
  - unfold try_send. destruct (chan_try_send r channel) as [sent|] eqn:Es.
    + do 4 eexists. split; [done|]. split; [done | done |]. unfold cached_keys. by rewrite Eh, Es.
    + unfold maybe_log_drop_metrics. cbn [next_drop_log_ms].
      destruct (now_ms now <? next_drop_log_ms a);
        do 4 eexists; (split; [done|]); (split; [done | done |]); unfold cached_keys; by rewrite Eh, Es.
Qed.

(** A decoded reading is offered once and shown. *)
Record Delivered (now : Z) (reading : RubicsonReading) (c : PulseCapture) (b : Bus W C)
    (r : RadioReading) (o : TelemetryEnqueueOutcome) (c' : PulseCapture) (b' : Bus W C) : Prop := {
  de_inner : inner r = reading;
  de_time : received_at r = now;
  de_rssi : smin 16 <= rssi r <= smax 16;
  de_shown : watch_value (READING_WATCH c') = Some r;
  de_pause : cpc c' = Paused (now + CAPTURE_PAUSE_SECS * 1000000);
  de_offered : Offered now r o (telemetry_adapter c) (telemetry_adapter c')
    (RADIO_TELEMETRY_CHANNEL b) (RADIO_TELEMETRY_CHANNEL b');
  de_bus : exists channel, b' = set_telemetry b channel
}.

Lemma deliver_ok now reading (rd : Cc1101Radio D) (readings : W RadioReading) (a : adapter) channel :
  exists r o rd' readings' a' channel',
    deliver now reading rd readings a channel = Some (r, o, rd', readings', a', channel') /\
    inner r = reading /\ received_at r = now /\ smin 16 <= rssi r <= smax 16 /\ watch_value readings' = Some r /\
    Offered now r o a a' channel channel'.
Proof.
  unfold deliver. pose proof (rssi_range (driver rd)) as Hr. unfold get_rssi_dbm in *.
  destruct (get_rssi (driver rd)) as [s d]. cbn in Hr. set (r := {| inner := reading |}).
  destruct (enqueue_offered now r a channel) as (o & a' & ch & log & E & Ho).
  cbn [fst snd]. rewrite E. cbn [mbind option_bind]. do 6 eexists. split; [done|]. split_and!; cbn; try done.
  - destruct s as [s|]; cbn; [by apply Hr | num].
  - destruct s as [s|]; cbn; [by apply Hr | num].
  - by rewrite watch_send_value.
Qed.

Lemma decoded_delivered now reading c b : exists r o c' b',
  decoded now reading c b = (c', b', [(r, o)]) /\ Delivered now reading c b r o c' b'.
Proof.
  unfold decoded.
  destruct (deliver_ok now reading (radio c) (READING_WATCH c) (telemetry_adapter c) (RADIO_TELEMETRY_CHANNEL b))
    as (r & o & rd & w & a & ch & -> & ? & ? & ? & ? & ?).
  do 4 eexists. split; [done|]. split; cbn; try done. by eexists.
Qed.

(** C16: from the sensor to the channels. A burst whose pulses the peripheral
    has recorded - garbled repeats, then a repeat within tolerance and its
    break, whatever follows - is decoded to the reading the sensor encoded.
    The display's watch shows it, stamped with the time of the reception. The
    filter rejects it when it equals one accepted less than thirty seconds
    ago; otherwise it is queued for publication, or dropped when the channel
    is full. Capture then pauses for 45 seconds. *)
Theorem capture_delivers (now : Z) (c : PulseCapture) (b : Bus W C)
    (pulses : list (Z * Z)) (stop : PulseCode) (stale : list PulseCode) (symbol_count : nat)
    (garbled : list (list Z)) (gaps rest : list Z) (brk id channel0 temp_raw : Z) (battery : bool)
    (Hlistening : cpc c = Listening)
    (Hcount : (MIN_SYMBOLS <= symbol_count)%nat) (Hall : (length pulses < symbol_count)%nat)
    (Hpulses : Forall (fun p => 0 < p.1 /\ 0 < p.2) pulses) (Hstop : length1 stop = 0)
    (Hburst : pulses.*2 = mjoin garbled ++ gaps ++ brk :: rest)
    (Hgarbled : Forall rejected_repeat garbled) (Hrows : (length garbled < MAX_PACKETS)%nat)
    (Hid : u8 id) (Hchannel : 0 <= channel0 < 4) (Htemp : -2048 <= temp_raw < 2048)
    (Hgaps : transmits gaps (payload_bits (build_payload id channel0 battery temp_raw)))
    (Hbrk : is_break brk) :
  exists r o c' b',
    capture_step now (Received (Count symbol_count) (recorded pulses ++ stop :: stale)) c b
      = Some (c', b', [(r, o)]) /\
    Delivered now (reading_of id channel0 battery temp_raw) c b r o c' b'.
Proof.
  unfold capture_step. rewrite Hlistening. unfold received. rewrite (proj2 (Nat.leb_le _ _)) by done.
  rewrite pulse_gaps, take_app, length_recorded, (take_ge (recorded pulses)) by (rewrite length_recorded; lia).
  destruct (symbol_count - length pulses)%nat as [|n] eqn:En; [lia|]. cbn [take].
  rewrite low_gaps_recorded by done. cbn [entries mbind list_bind app low_gaps].
  rewrite Hstop. cbn [Z.eqb]. rewrite app_nil_r, Hburst. cbn [mbind option_bind].
  pose proof (decode_gaps_agrees (mjoin garbled ++ gaps ++ brk :: rest)) as Hd. unfold decode_loop_agrees, decode_gaps in Hd.
  erewrite first_valid_transmitted in Hd by done. rewrite Hd.
  destruct (decoded_delivered now (reading_of id channel0 battery temp_raw) c b) as (r & o & c' & b' & -> & Hdel).
  by exists r, o, c', b'.
Qed.

(** *** What a step may do *)

Lemma head_step c b :
  exists w p q, capture_head c b = (with_cpc c p q, set_ota_state b w, []) /\
  SeenBy OTA_STATE_RX_RADIO (OTA_STATE_WATCH b) w /\
  (p = Listening /\ is_radio_capture_allowed (ota_state_of b) = true \/
   p = CaptureQuiesced /\ is_radio_capture_allowed (ota_state_of b) = false).
Proof.
  unfold capture_head, get_ota_state, ota_state_of.
  pose proof (watch_try_get_value OTA_STATE_RX_RADIO (OTA_STATE_WATCH b)) as Hv.
  pose proof (watch_try_get_seen OTA_STATE_RX_RADIO (OTA_STATE_WATCH b)) as Hs.
  destruct (watch_try_get _ _) as [s w]. cbn in Hv, Hs. rewrite <- Hv.
  destruct (is_radio_capture_allowed _); do 3 eexists; (split; [done|]); (split; [done|]); auto.
Qed.

(** A step either looks at the update state and goes on, or decodes one
    reading; it never panics. *)
Inductive Stepped (now : Z) (w : capture_wake) (c : PulseCapture) (b : Bus W C) : capture_outcome -> Prop :=
| stepped_head w0 c' p q : SeenBy OTA_STATE_RX_RADIO (OTA_STATE_WATCH b) w0 -> c' = with_cpc c p q ->
    (p = Listening /\ is_radio_capture_allowed (ota_state_of b) = true \/
     p = CaptureQuiesced /\ is_radio_capture_allowed (ota_state_of b) = false) ->
    (forall until, cpc c = Paused until -> w = CaptureStateChanged \/ until <= now) ->
    Stepped now w c b (c', set_ota_state b w0, [])
| stepped_decoded reading r o c' b' : cpc c = Listening -> u8 (id reading) -> 1 <= channel reading <= 4 ->
    Delivered now reading c b r o c' b' -> Stepped now w c b (c', b', [(r, o)]).

Lemma head_stepped now w c b :
  (forall until, cpc c = Paused until -> w = CaptureStateChanged \/ until <= now) ->
  Stepped now w c b (capture_head c b).
Proof.
  intros Hp. destruct (head_step c b) as (w0 & p & q & -> & Hs & Ha). by eapply stepped_head.
Qed.

Lemma seen_trans {A} i (w1 w2 w3 : W A) : SeenBy i w1 w2 -> SeenBy i w2 w3 -> SeenBy i w1 w3.
Proof. intros (? & ? & H12) (? & ? & H23). split_and!; [congruence | done |]. intros j Hj. by rewrite H23, H12. Qed.

Lemma capture_stepped now w c b res : capture_step now w c b = Some res -> Stepped now w c b res.
Proof.
  unfold capture_step. intros E.
  assert (forall s w0, watch_changed OTA_STATE_RX_RADIO (OTA_STATE_WATCH b) = Some (s, w0) ->
    (forall until, cpc c = Paused until -> w = CaptureStateChanged \/ until <= now) ->
    Stepped now w c b (capture_head c (set_ota_state b w0))) as Hchanged.
  { intros s w0 Ew Hp. apply watch_changed_some in Ew as (_ & Hv & Hs).
    destruct (head_step c (set_ota_state b w0)) as (w1 & p & q & -> & Hs1 & Ha).
    apply (stepped_head now w c b w1 _ p q); [by eapply seen_trans | done | | done].
    unfold ota_state_of in *. cbn in Ha. by rewrite (proj1 Hs) in Ha. }
  destruct (cpc c) eqn:Ep, w as [| |result buffer|]; try done; try (apply (inj Some) in E as <-).
  - apply head_stepped. by rewrite Ep.
  - destruct (watch_changed _ _) as [[s w0]|] eqn:Ew; [|done]. apply (inj Some) in E as <-. by eapply Hchanged.
  - destruct (watch_changed _ _) as [[s w0]|] eqn:Ew; [|done]. apply (inj Some) in E as <-. by eapply Hchanged.
  - assert (Stepped now (Received result buffer) c b (capture_head c b)) as Hh by (by apply head_stepped; rewrite Ep).
    unfold received. destruct (match result with Count _ => _ | _ => _ end) as [n|]; [|done].
    destruct (MIN_SYMBOLS <=? n)%nat; [|done]. rewrite pulse_gaps. cbn [mbind option_bind].
    pose proof (decode_gaps_agrees (low_gaps (entries (take n buffer)))) as Hd. unfold decode_loop_agrees in Hd.
    pose proof (decoded_typed (low_gaps (entries (take n buffer)))) as Ht. unfold decode_gaps in *.
    destruct (first_valid _ _) as [[i reading]|]; [|by destruct Hd as (buf & -> & _)].
    rewrite Hd. destruct (decoded_delivered now reading c b) as (r & o & c' & b' & -> & Hdel).
    destruct (Ht _ _ Hd). by eapply stepped_decoded.
  - destruct (watch_changed _ _) as [[s w0]|] eqn:Ew; [|done]. apply (inj Some) in E as <-. eapply Hchanged; eauto.
  - destruct (until <=? now) eqn:El; [|done]. apply (inj Some) in E as <-. apply head_stepped.
    rewrite Ep. intros ? [= <-]. right. bools. lia.
Qed.

(** *** Runs

    The task among the others, which may send update states, set the radio up
    and use the channels, and only the task consumes its own receiver. [last]
    is when it decoded its last reading, [disturbed] whether the pause after
    it was cut short by an update. *)
Definition with_radio (c : PulseCapture) (r : Cc1101Radio D) : PulseCapture :=
  {| cpc := cpc c; quiesced := quiesced c; radio := r; READING_WATCH := READING_WATCH c;
     telemetry_adapter := telemetry_adapter c |}.
Definition unseen (b : Bus W C) : bool := watch_unseen OTA_STATE_RX_RADIO (OTA_STATE_WATCH b).
Definition Others (b b' : Bus W C) : Prop :=
  unseen b' = false -> unseen b = false /\ ota_state_of b' = ota_state_of b.
Definition cut_short (w : capture_wake) (c : PulseCapture) : bool :=
  match cpc c, w with Paused _, CaptureStateChanged => true | _, _ => false end.

Inductive capturing : Z -> PulseCapture -> Bus W C -> option Z -> bool -> Prop :=
| capture_spawned now (rd : Cc1101Radio D) (readings : W RadioReading) b : 0 <= now -> capturing now (PulseCapture_new rd readings) b None false
| capture_meanwhile now now' c (rd : Cc1101Radio D) b b' last disturbed : capturing now c b last disturbed ->
    now <= now' -> Others b b' -> capturing now' (with_radio c rd) b' last disturbed
| capture_idles now w c b c' b' last disturbed : capturing now c b last disturbed ->
    capture_step now w c b = Some (c', b', []) -> capturing now c' b' last (cut_short w c || disturbed)
| capture_decodes now w c b c' b' x last disturbed : capturing now c b last disturbed ->
    capture_step now w c b = Some (c', b', [x]) -> capturing now c' b' (Some now) false.

Record CaptureInv (now : Z) (c : PulseCapture) (b : Bus W C) (last : option Z) (disturbed : bool) : Prop := {
  ci_now : 0 <= now;
  ci_last : forall t, last = Some t -> 0 <= t <= now;
  ci_allowed : cpc c = Listening -> unseen b = false -> is_radio_capture_allowed (ota_state_of b) = true;
  ci_paused : forall until, cpc c = Paused until ->
    exists t, last = Some t /\ until = t + CAPTURE_PAUSE_SECS * 1000000;
  ci_rested : disturbed = false -> (forall until, cpc c <> Paused until) ->
    forall t, last = Some t -> t + CAPTURE_PAUSE_SECS * 1000000 <= now;
  ci_ttl : ttl_ms (dedupe (telemetry_adapter c)) = DEFAULT_DEDUPE_TTL_MS;
  ci_cache : forall e, e ∈ cached_keys (telemetry_adapter c) ->
    exists t, last = Some t /\ expires_at e <= now_ms t + DEFAULT_DEDUPE_TTL_MS
}.

Lemma sat_add_below now ttl : sat_add 64 now ttl <= now + ttl.
Proof. unfold sat_add. lia. Qed.

Lemma idle_inv now w c b c' b' last disturbed : CaptureInv now c b last disturbed ->
  Stepped now w c b (c', b', []) -> CaptureInv now c' b' last (cut_short w c || disturbed).
Proof.
  intros [Hn Hl Ha Hp Hr Ht Hc] Hs. inversion Hs as [w0 ? p q Hseen -> Hpq Hpause|]; subst.
  assert (ota_state_of (set_ota_state b w0) = ota_state_of b) as Eo
    by (unfold ota_state_of; cbn; by rewrite (proj1 Hseen)).
  split; cbn [cpc with_cpc telemetry_adapter]; try done.
  - intros ->. rewrite Eo. destruct Hpq as [[_ ?]|[? _]]; done.
  - intros u E. subst p. by destruct Hpq as [[? _]|[? _]].
  - intros [Hcut Hd]%orb_false_iff _ t Ht'. destruct (cpc c) as [| | |until|] eqn:Ep; try (by apply Hr).
    destruct (Hp until eq_refl) as (t0 & E & ->). rewrite Ht' in E. injection E as <-.
    destruct (Hpause _ eq_refl) as [-> | Hle]; [|done]. unfold cut_short in Hcut. by rewrite Ep in Hcut.
Qed.

Lemma decode_inv now w c b c' b' x last disturbed : CaptureInv now c b last disturbed ->
  Stepped now w c b (c', b', [x]) -> CaptureInv now c' b' (Some now) false.
Proof.
  intros [Hn Hl Ha Hp Hr Ht Hc] Hs. inversion Hs as [|reading r o ? ? Hpc Hid Hch Hd]; subst.
  destruct Hd as [_ _ _ _ Hpause [Httl He _] _]. split; rewrite ?Hpause; try done.
  - intros t [= <-]. lia.
  - intros u [= <-]. by exists now.
  - intros _ Hnp. by destruct (Hnp (now + CAPTURE_PAUSE_SECS * 1000000)).
  - by rewrite Httl.
  - intros e Hin. exists now. split; [done|]. destruct (He e Hin) as [Hold | ->].
    + destruct (Hc e Hold) as (t & E & Hle). specialize (Hl t E).
      pose proof (Z.div_le_mono t now 1000 ltac:(lia) ltac:(lia)). unfold now_ms in *. lia.
    + rewrite Ht. apply sat_add_below.
Qed.

Lemma meanwhile_inv now now' c (rd : Cc1101Radio D) b b' last disturbed : CaptureInv now c b last disturbed ->
  now <= now' -> Others b b' -> CaptureInv now' (with_radio c rd) b' last disturbed.
Proof.
  intros [Hn Hl Ha Hp Hr Ht Hc] Hle Ho. split; cbn; try done.
  - lia.
  - intros t E. specialize (Hl t E). lia.
  - intros E Hu. destruct (Ho Hu) as [Hu' ->]. by apply Ha.
  - intros Hd Hnp t E. specialize (Hr Hd Hnp t E). lia.
Qed.

Lemma capturing_inv now c b last disturbed :
  capturing now c b last disturbed -> CaptureInv now c b last disturbed.
Proof.
  induction 1 as [now r readings b Hn | now now' c r b b' last disturbed _ IH Hle Ho
    | now w c b c' b' last disturbed _ IH Hs | now w c b c' b' x last disturbed _ IH Hs].
  - split; cbn; try done. intros e. unfold cached_keys. cbn. rewrite contents_new. set_solver.
  - by eapply meanwhile_inv.
  - eapply idle_inv; [done | by apply capture_stepped].
  - eapply decode_inv; [done | by apply capture_stepped].
Qed.

Lemma rested_not_duplicate now c b last (r : RadioReading) :
  CaptureInv now c b last false -> cpc c = Listening ->
  holds (dedupe_key (to_telemetry_record r)) (live (now_ms now) (cached_keys (telemetry_adapter c))) = false.
Proof.
  intros Hi Hp. assert (live (now_ms now) (cached_keys (telemetry_adapter c)) = []) as ->; [|done].
  destruct (live _ _) as [|e l] eqn:El; [done|]. exfalso.
  assert (e ∈ live (now_ms now) (cached_keys (telemetry_adapter c))) as He by (rewrite El; by left).
  unfold live in He. apply list_elem_of_filter in He as [Hlt He]. bools.
  destruct (ci_cache _ _ _ _ _ Hi e He) as (t & E & Hexp).
  pose proof (ci_rested _ _ _ _ _ Hi eq_refl ltac:(by rewrite Hp) t E) as Hrest.
  unfold now_ms, CAPTURE_PAUSE_SECS, DEFAULT_DEDUPE_TTL_MS in *.
  pose proof (Z.div_le_mono (t + 45 * 1000 * 1000) now 1000 ltac:(lia) ltac:(lia)) as Hm.
  rewrite Z.div_add in Hm by lia. lia.
Qed.

(** C17: in every run of the capture task among the others, no step panics,
    and a step touches nothing on the bus but its receiver's mark on the
    update state and the radio's channel. A step that decodes has a reading
    in the sensor's ranges, stamped with the present time; shows it; and
    offers it once, to the filter and then to the channel. The task does so
    only if the last update state it has seen allows capture. Unless an
    update cut the pause after the last reading short ([disturbed]), the
    reading comes at least 45 seconds after that one and the duplicate filter,
    whose entries live for 30, does not reject it. *)
Theorem capture_safety (now : Z) (w : capture_wake) (c c' : PulseCapture) (b b' : Bus W C)
    (last : option Z) (disturbed : bool) (out : list (RadioReading * TelemetryEnqueueOutcome))
    (Hrun : capturing now c b last disturbed) (Hs : capture_step now w c b = Some (c', b', out)) :
  cpc c' <> CapturePanicked /\
  (exists w0 channel, b' = set_telemetry (set_ota_state b w0) channel /\ watch_value w0 = watch_value (OTA_STATE_WATCH b)) /\
  match out with
  | [] => RADIO_TELEMETRY_CHANNEL b' = RADIO_TELEMETRY_CHANNEL b /\ READING_WATCH c' = READING_WATCH c
  | [(r, o)] =>
      heard_ok now r = true /\ received_at r = now /\ watch_value (READING_WATCH c') = Some r /\
      Offered now r o (telemetry_adapter c) (telemetry_adapter c')
        (RADIO_TELEMETRY_CHANNEL b) (RADIO_TELEMETRY_CHANNEL b') /\
      (unseen b = false -> is_radio_capture_allowed (ota_state_of b) = true) /\
      (disturbed = false -> o <> RejectedAsDuplicate /\
        forall t, last = Some t -> t + CAPTURE_PAUSE_SECS * 1000000 <= now)
  | _ => False
  end.
Proof.
  pose proof (capturing_inv _ _ _ _ _ Hrun) as Hi. apply capture_stepped in Hs.
  inversion Hs as [w0 ? p q Hseen -> Hpq Hpause | reading r o ? ? Hpc Hid Hch Hd]; subst.
  - split; [by destruct Hpq as [[-> _]|[-> _]]|]. split; [|done].
    exists w0, (RADIO_TELEMETRY_CHANNEL b). split; [done|]. apply Hseen.
  - destruct Hd as [Hin Hat Hrssi Hshow Hpause Hoff [ch ->]]. split; [by rewrite Hpause|]. split.
    { exists (OTA_STATE_WATCH b), ch. split; [|done]. by destruct b. }
    pose proof (ci_now _ _ _ _ _ Hi) as Hn. split; [|split; [done|split; [done|split; [done|split]]]].
    + unfold heard_ok. rewrite Hin, Hat. unfold between. rewrite !bool_decide_eq_true_2 by (done || num).
      cbn [andb]. rewrite !(proj2 (Z.leb_le _ _)) by lia. done.
    + by apply Hi.
    + intros ->. split; [|by apply Hi; [|rewrite Hpc]].
      destruct Hoff as [_ _ Ho]. rewrite (rested_not_duplicate now c b last r Hi Hpc) in Ho.
      destruct (chan_try_send r _); by destruct Ho as [-> _].
Qed.
End Properties.

(** ** An instance for witnesses *)

Module Sample.
Import Radio.Sample.

(** A burst of twelve repeats, the first of them garbled; each gap follows a
    pulse of half a millisecond. *)
Definition packet_bits : list Z := payload_bits (build_payload 230 0 true (-94)).
Definition garbled_bits : list Z := alter (fun b => 1 - b) 7%nat packet_bits.
Definition repeat_of (bits : list Z) : list Z := nominal_gaps bits ++ [4000].
Definition burst : list Z := repeat_of garbled_bits ++ mjoin (replicate 11 (repeat_of packet_bits)).
Definition pulses : list (Z * Z) := (fun g => (500, g)) <$> burst.
Definition buffer : list PulseCode := recorded pulses ++ replicate (SYMBOLS - length pulses) PulseCode_default.

Definition bus : Bus Sync.cell bounded := spawned_bus blank_device.
Definition asleep : PulseCapture Sync.cell (Vec := bounded) (sim true) := PulseCapture_new started watch_new.
Definition awake : PulseCapture Sync.cell (Vec := bounded) (sim true) := (capture_head asleep bus).1.1.
Definition listening : Bus Sync.cell bounded := (capture_head asleep bus).1.2.

Lemma packet_bits_ok : Forall bit packet_bits.
Proof. vm_compute. forall_list ltac:(unfold bit; auto). Qed.
Lemma garbled_rejected : rejected_repeat (repeat_of garbled_bits).
Proof.
  exists (nominal_gaps garbled_bits), garbled_bits, 4000. split_and!; [done | | by vm_compute | vm_compute; reflexivity].
  apply nominal_gaps_transmit. vm_compute. forall_list ltac:(unfold bit; auto).
Qed.

Lemma pulses_fit : (length pulses < SYMBOLS)%nat.
Proof. apply Nat.ltb_lt. vm_compute. reflexivity. Qed.
Lemma buffer_split : buffer =
  recorded pulses ++ PulseCode_default :: replicate (SYMBOLS - length pulses - 1) PulseCode_default.
Proof.
  unfold buffer. pose proof pulses_fit as Hl. revert Hl. generalize (length pulses). intros n Hl.
  destruct (SYMBOLS - n)%nat as [|m] eqn:E; [lia|]. cbn [replicate]. do 3 f_equal. lia.
Qed.

Lemma pulses_positive : Forall (fun p => 0 < p.1 /\ 0 < p.2) pulses.
Proof.
  apply Forall_fmap, Forall_forall. intros g Hg.
  assert (forallb (Z.ltb 0) burst = true) as Hall by (vm_compute; reflexivity).
  rewrite forallb_forall in Hall. apply list_elem_of_In, Hall in Hg. cbn. bools. lia.
Qed.
Lemma pulses_burst : pulses.*2 = mjoin [repeat_of garbled_bits] ++ nominal_gaps packet_bits ++
  4000 :: mjoin (replicate 10 (repeat_of packet_bits)).
Proof. vm_compute. reflexivity. Qed.

Lemma capture_delivers_witness :
  exists r o c' b', capture_step 5000000 (Received (Count SYMBOLS) buffer) awake listening = Some (c', b', [(r, o)]) /\
    inner r = reading_of 230 0 true (-94) /\ watch_value (READING_WATCH c') = Some r /\
    cpc c' = Paused 50000000.
Proof.
  destruct (capture_delivers 5000000 awake listening pulses PulseCode_default
    (replicate (SYMBOLS - length pulses - 1) PulseCode_default) SYMBOLS
    [repeat_of garbled_bits] (nominal_gaps packet_bits) (mjoin (replicate 10 (repeat_of packet_bits))) 4000
    230 0 (-94) true) as (r & o & c' & b' & E & Hd).
  - reflexivity.
  - apply Nat.leb_le. vm_compute. reflexivity.
  - exact pulses_fit.
  - exact pulses_positive.
  - reflexivity.
  - exact pulses_burst.
  - constructor; [apply garbled_rejected | constructor].
  - apply Nat.ltb_lt. reflexivity.
  - num.
  - lia.
  - lia.
  - apply nominal_gaps_transmit, packet_bits_ok.
  - by vm_compute.
  - exists r, o, c', b'. destruct Hd as [Hin _ _ Hw Hp _ _].
    split; [rewrite buffer_split; exact E | split; [exact Hin | split; [exact Hw | exact Hp]]].
Defined.

(** The same reception in a run. *)
Lemma listening_run : capturing 5000000 awake listening None false.
Proof.
  apply (capture_idles 5000000 CaptureStarts asleep bus awake listening None false).
  - apply capture_spawned. lia.
  - reflexivity.
Qed.
Lemma buffer_decodes :
  decode_gaps_iter (low_gaps (entries (take SYMBOLS buffer))) = Some (Ok (1%nat, reading_of 230 0 true (-94))).
Proof. vm_compute. reflexivity. Qed.

Lemma capture_safety_witness :
  exists r o c' b', capture_step 5000000 (Received (Count SYMBOLS) buffer) awake listening = Some (c', b', [(r, o)]) /\
    heard_ok 5000000 r = true /\ o <> RejectedAsDuplicate.
Proof.
  destruct (decoded_delivered 5000000 (reading_of 230 0 true (-94)) awake listening) as (r & o & c' & b' & E & _).
  assert (capture_step 5000000 (Received (Count SYMBOLS) buffer) awake listening = Some (c', b', [(r, o)])) as Es.
  { rewrite <- E. change (Some (received 5000000 (Count SYMBOLS) buffer awake listening)
      = Some (decoded 5000000 (reading_of 230 0 true (-94)) awake listening)).
    unfold received. cbv beta iota. rewrite pulse_gaps.
    cbn [mbind option_bind]. rewrite buffer_decodes. reflexivity. }
  exists r, o, c', b'. split; [exact Es|].
  destruct (capture_safety 5000000 _ awake c' listening b' None false [(r, o)] listening_run Es)
    as (_ & _ & Hh & _ & _ & _ & _ & Ho).
  split; [exact Hh | exact (proj1 (Ho eq_refl))].
Defined.
End Sample.
