(* ===== verification/SwCapture.v ===== *)
(** * Pulse capture in software

    [firmware/src/pulse_capture_sw.rs], the back end of the build without the
    receiver peripheral: the task times the edges of the data pin itself, and
    applies changed settings between captures. Edges and timers are inputs, at
    instants that never decrease; the instant of a step is the one every
    [Instant::now()] of the step reads. *)
From S2P Require Import Prelude Heapless Sync System Bus Rubicson Messages OtaTasks Settings Radio Telemetry PulseCapture.

Definition TRANSMISSION_END_TIMEOUT_US : Z := 10000.
Definition GAP_BUFFER : nat := 512.
(** How long a level lasts before the receiver peripheral ends a reception, as
    [startup/hardware.rs] configures it: its ticks are microseconds. *)
Definition RMT_IDLE_US : Z := 5000.
Definition MIN_GAPS : nat := 36.
Definition DEBOUNCE_MS : Z := 1000.
(** The only receiver of the settings watch in this build. *)
Definition SETTINGS_RX : nat := 0.

(** The awaits of [run] and [sw_capture]. The two awaits of a capture carry
    when they began, which for a rising edge is [gap_start]. *)
Inductive sw_pc :=
| SwSpawned
| SwQuiesced
| SwListening
| AwaitFall (since : Z)
| AwaitRise (gap_start : Z)
| SwPaused (until : Z)
| Debouncing (until : Z)
| SwPanicked.
Inductive sw_wake := SwStarts | Edge | TimerExpired | SwStateChanged | SettingsChanged.

Section SwCapture.
Context {W : Type -> Type} `{Watch W} {C : Type -> nat -> Type} `{Channel C}.
Context {Vec : Type -> nat -> Type} `{FixedVec Vec} {D : Type} `{Cc1101 D}.

Record SwCapture := {
  spc : sw_pc;
  sw_quiesced : bool;
  sw_radio : Cc1101Radio D;
  sender : W RadioReading;
  settings_receiver : W RadioSettings;
  sw_adapter : @TelemetryPipelineAdapter Vec DEDUPE_CAPACITY;
  gap_buffer : list Z;
  gap_count : nat
}.
Definition with_spc (c : SwCapture) (p : sw_pc) : SwCapture :=
  {| spc := p; sw_quiesced := sw_quiesced c; sw_radio := sw_radio c; sender := sender c;
     settings_receiver := settings_receiver c; sw_adapter := sw_adapter c; gap_buffer := gap_buffer c; gap_count := gap_count c |}.
Definition with_gaps (c : SwCapture) (buffer : list Z) (count : nat) : SwCapture :=
  {| spc := spc c; sw_quiesced := sw_quiesced c; sw_radio := sw_radio c; sender := sender c;
     settings_receiver := settings_receiver c; sw_adapter := sw_adapter c; gap_buffer := buffer; gap_count := count |}.
Definition with_quiesced (c : SwCapture) (q : bool) : SwCapture :=
  {| spc := spc c; sw_quiesced := q; sw_radio := sw_radio c; sender := sender c;
     settings_receiver := settings_receiver c; sw_adapter := sw_adapter c; gap_buffer := gap_buffer c; gap_count := gap_count c |}.
Definition sw_outcome : Type := SwCapture * Bus W C * list (RadioReading * TelemetryEnqueueOutcome).

Definition sw_head (c : SwCapture) (b : Bus W C) : sw_outcome :=
  let (ota_state, b) := get_ota_state OTA_STATE_RX_RADIO b in
  if is_radio_capture_allowed ota_state then (with_spc (with_quiesced c false) SwListening, b, [])
  else (with_spc (with_quiesced c true) SwQuiesced, b, []).

(** [apply_pending_settings] on the task's receiver. *)
Definition sw_apply_settings (c : SwCapture) : SwCapture :=
  let (settings, w) := watch_try_get SETTINGS_RX (settings_receiver c) in
  {| spc := spc c; sw_quiesced := sw_quiesced c; sw_radio := apply_pending_settings settings (sw_radio c); sender := sender c;
     settings_receiver := w; sw_adapter := sw_adapter c; gap_buffer := gap_buffer c; gap_count := gap_count c |}.

(** A gap that does not fit in [u32] counts as the largest; a full buffer keeps
    what it has. *)
Definition store_gap (gap_us : Z) (c : SwCapture) : SwCapture :=
  if (gap_count c <? length (gap_buffer c))%nat
  then with_gaps c (<[gap_count c := default (umax 32) (try_from_u 32 gap_us)]> (gap_buffer c)) (S (gap_count c)) else c.

Definition sw_debounce (now : Z) (c : SwCapture) : SwCapture := with_spc c (Debouncing (now + DEBOUNCE_MS * 1000)).
Definition sw_panicked (c : SwCapture) (b : Bus W C) : sw_outcome := (with_spc c SwPanicked, b, []).

(** The end of a capture. A slice past the end of the buffer panics. *)
Definition captured (now : Z) (c : SwCapture) (b : Bus W C) : sw_outcome :=
  if (MIN_GAPS <=? gap_count c)%nat then
    if (gap_count c <=? length (gap_buffer c))%nat then
      match decode_gaps (take (gap_count c) (gap_buffer c)) with
      | None => sw_panicked c b
      | Some (Ok (_, reading)) =>
          match deliver now reading (sw_radio c) (sender c) (sw_adapter c) (RADIO_TELEMETRY_CHANNEL b) with
          | None => sw_panicked c b
          | Some (radio_reading, o, radio, readings, adapter, channel) =>
              ({| spc := SwPaused (now + CAPTURE_PAUSE_SECS * 1000000); sw_quiesced := sw_quiesced c; sw_radio := radio; sender := readings;
                  settings_receiver := settings_receiver c; sw_adapter := adapter; gap_buffer := gap_buffer c; gap_count := gap_count c |},
               set_telemetry b channel, [(radio_reading, o)])
          end
      | Some (Err _) => (sw_debounce now c, b, [])
      end
    else sw_panicked c b
  else (sw_debounce now c, b, []).

(** One poll of the task. *)
Definition sw_step (now : Z) (w : sw_wake) (c : SwCapture) (b : Bus W C) : option sw_outcome :=
  let changed (k : SwCapture -> Bus W C -> sw_outcome) :=
    '(_, w) ← watch_changed OTA_STATE_RX_RADIO (OTA_STATE_WATCH b);
    Some (k c (set_ota_state b w)) in
  match spc c, w with
  | SwSpawned, SwStarts => Some (sw_head c b)
  | SwQuiesced, SwStateChanged => changed sw_head
  | SwListening, Edge => Some (with_spc (with_gaps c (gap_buffer c) 0) (AwaitFall now), b, [])
  | SwListening, SettingsChanged =>
      '(_, w) ← watch_changed SETTINGS_RX (settings_receiver c);
      Some (sw_head (sw_apply_settings
        {| spc := spc c; sw_quiesced := sw_quiesced c; sw_radio := sw_radio c; sender := sender c;
           settings_receiver := w; sw_adapter := sw_adapter c; gap_buffer := gap_buffer c; gap_count := gap_count c |}) b)
  | SwListening, SwStateChanged => changed sw_head
  | AwaitFall _, Edge => Some (with_spc c (AwaitRise now), b, [])
  | AwaitRise gap_start, Edge =>
      Some (if now <? gap_start then sw_panicked c b
            else (with_spc (store_gap (now - gap_start) c) (AwaitFall now), b, []))
  | (AwaitFall since | AwaitRise since), TimerExpired =>
      if since + TRANSMISSION_END_TIMEOUT_US <=? now then Some (captured now c b) else None
  | SwPaused until, TimerExpired => if until <=? now then Some (sw_debounce now c, b, []) else None
  | SwPaused _, SwStateChanged => changed (fun c b => (sw_debounce now c, b, []))
  | Debouncing until, TimerExpired => if until <=? now then Some (sw_head (sw_apply_settings c) b) else None
  | Debouncing _, SwStateChanged => changed (fun c b => sw_head (sw_apply_settings c) b)
  | _, _ => None
  end.

(** [PulseCapture::new], and the buffer [run] starts with. *)
Definition SwCapture_new (r : Cc1101Radio D) (readings : W RadioReading) (settings : W RadioSettings) : SwCapture := {|
  spc := SwSpawned; sw_quiesced := false; sw_radio := r; sender := readings; settings_receiver := settings;
  sw_adapter := adapter_new; gap_buffer := replicate GAP_BUFFER 0; gap_count := 0 |}.

(** Steps at their instants, with all that was decoded. *)
Fixpoint sw_run (steps : list (Z * sw_wake)) (c : SwCapture) (b : Bus W C) : option sw_outcome :=
  match steps with
  | [] => Some (c, b, [])
  | (now, w) :: steps =>
      '(c, b, out) ← sw_step now w c b;
      '(c, b, outs) ← sw_run steps c b;
      Some (c, b, out ++ outs)
  end.
End SwCapture.
Arguments SwCapture W {Vec} D.

(** The edges of a burst whose first pulse began at [t]: after each pulse the
    falling edge, after each gap the rising edge of the next. *)
Fixpoint edges (t : Z) (pulses : list (Z * Z)) : list (Z * sw_wake) :=
  match pulses with
  | [] => []
  | (h, g) :: pulses => (t + h, Edge) :: (t + h + g, Edge) :: edges (t + h + g) pulses
  end.
Fixpoint burst_end (t : Z) (pulses : list (Z * Z)) : Z :=
  match pulses with [] => t | (h, g) :: pulses => burst_end (t + h + g) pulses end.

(** The whole of a burst, with the last pulse if the pin goes low after it,
    until the timer finds the pin still. *)
Definition tail_edges (t : Z) (tail : option Z) : list (Z * sw_wake) :=
  match tail with Some h => [(t + h, Edge)] | None => [] end.
Definition burst_steps (t : Z) (pulses : list (Z * Z)) (tail : option Z) (now : Z) : list (Z * sw_wake) :=
  (t, Edge) :: edges t pulses ++ tail_edges (burst_end t pulses) tail ++ [(now, TimerExpired)].
(** The last edge of a burst. *)
Definition still_from (t : Z) (pulses : list (Z * Z)) (tail : option Z) : Z := burst_end t pulses + default 0 tail.
(** The symbol the peripheral writes behind a burst: the last pulse and an end
    marker, or the end marker alone. *)
Definition stops_with (tail : option Z) (stop : PulseCode) : Prop :=
  match tail with
  | Some h => stop = {| level1 := High; length1 := h; level2 := Low; length2 := 0 |}
  | None => length1 stop = 0
  end.
(** Every level is shorter than what ends a capture, by either back end. *)
Definition lasts (x : Z) : Prop := 0 < x < RMT_IDLE_US.

Section Properties.
Context {W : Type -> Type} `{WatchLaws W} {C : Type -> nat -> Type} `{ChannelLaws C}.
Context {Vec : Type -> nat -> Type} `{FixedVecLaws Vec} {D : Type} `{Cc1101Laws D}.
Local Abbreviation SwCapture := (SwCapture W (Vec := Vec) D).
Implicit Types (c : SwCapture) (b : Bus W C) (r : RadioReading).

Lemma sw_run_app steps1 steps2 c b : sw_run (steps1 ++ steps2) c b =
  '(c, b, out1) ← sw_run steps1 c b; '(c, b, out2) ← sw_run steps2 c b; Some (c, b, out1 ++ out2).
Proof.
  revert c b. induction steps1 as [|[now w] steps1 IH]; intros c b; cbn [app sw_run].
  - cbn. destruct (sw_run steps2 c b) as [[[? ?] ?]|]; done.
  - destruct (sw_step now w c b) as [[[c1 b1] out]|]; [|done]. cbn [mbind option_bind]. rewrite IH.
    destruct (sw_run steps1 c1 b1) as [[[c2 b2] o1]|]; [|done]. cbn [mbind option_bind].
    destruct (sw_run steps2 c2 b2) as [[[c3 b3] o2]|]; [|done]. cbn. by rewrite app_assoc.
Qed.

Lemma sw_run_cons now w steps c b c1 b1 out : sw_step now w c b = Some (c1, b1, out) ->
  sw_run ((now, w) :: steps) c b = '(c, b, outs) ← sw_run steps c1 b1; Some (c, b, out ++ outs).
Proof. intros E. cbn [sw_run]. by rewrite E. Qed.

(** *** The gaps of a burst *)

(** The buffer holds these gaps, cut off where it is full. *)
Definition Timed (l : list Z) c : Prop :=
  length (gap_buffer c) = GAP_BUFFER /\ gap_count c = (length l `min` GAP_BUFFER)%nat /\ take (gap_count c) (gap_buffer c) = take GAP_BUFFER l.

Lemma store_timed l g c : uint 32 g -> Timed l c -> Timed (l ++ [g]) (store_gap g c).
Proof.
  intros Hg (Hl & Hc & Ht). unfold Timed, store_gap. rewrite Hl. destruct (Nat.ltb_spec (gap_count c) GAP_BUFFER) as [Hlt|Hge].
  - cbn [gap_buffer gap_count with_gaps]. rewrite length_insert, length_app. cbn [length]. split_and!; [done | lia |].
    assert (gap_count c = length l) as El by lia. rewrite El in *. unfold try_from_u. replace ((0 <=? g) && (g <=? umax 32)) with true by (symmetry; apply andb_true_iff; num_unfold; lia).
    cbn [default]. rewrite (take_S_r _ _ g) by (apply list_lookup_insert_eq; lia). rewrite take_insert_ge by lia. rewrite Ht.
    rewrite !take_ge by (rewrite ?length_app; cbn; lia). done.
  - split_and!; [done | rewrite length_app; cbn; lia |]. rewrite Ht, take_app_le by lia. done.
Qed.

(** What timing edges leaves as it was. *)
Record SwKept c c' : Prop := {
  kp_radio : sw_radio c' = sw_radio c;
  kp_sender : sender c' = sender c;
  kp_adapter : sw_adapter c' = sw_adapter c;
  kp_settings : settings_receiver c' = settings_receiver c
}.
Lemma sw_kept_trans c1 c2 c3 : SwKept c1 c2 -> SwKept c2 c3 -> SwKept c1 c3.
Proof. intros [] []. split; congruence. Qed.
Lemma sw_kept_store g c : SwKept c (store_gap g c).
Proof. unfold store_gap. by destruct (_ <? _)%nat. Qed.

Lemma edges_ok pulses : forall t l c b, Forall (fun p => 0 < p.1 /\ 0 < p.2 <= umax 32) pulses ->
  spc c = AwaitFall t -> Timed l c -> exists c',
  sw_run (edges t pulses) c b = Some (c', b, []) /\ spc c' = AwaitFall (burst_end t pulses) /\ Timed (l ++ pulses.*2) c' /\ SwKept c c'.
Proof.
  induction pulses as [|[h g] pulses IH]; intros t l c b Hp Hc Ht.
  { exists c. cbn. by rewrite app_nil_r. }
  apply Forall_cons in Hp as [[Hh Hg] Hp]. cbn [fst snd] in Hh, Hg. cbn [edges burst_end].
  erewrite sw_run_cons by (unfold sw_step; rewrite Hc; reflexivity).
  erewrite sw_run_cons by (unfold sw_step; cbn [spc with_spc]; rewrite (proj2 (Z.ltb_ge _ _)) by lia; reflexivity).
  replace (t + h + g - (t + h)) with g by lia.
  set (c1 := with_spc (store_gap g (with_spc c (AwaitRise (t + h)))) (AwaitFall (t + h + g))).
  destruct (IH (t + h + g) (l ++ [g]) c1 b Hp) as (c' & E & Hpc & Ht' & Hk).
  - done.
  - apply (store_timed l g (with_spc c _)); [num_unfold; lia | done].
  - rewrite E. cbn [mbind option_bind app]. exists c'. cbn [fmap list_fmap snd]. split_and!; [done | done | by rewrite <- app_assoc in Ht' |].
    eapply sw_kept_trans; [|exact Hk]. destruct (sw_kept_store g (with_spc c (AwaitRise (t + h)))). by split.
Qed.

(** A burst up to the end of the transmission: the gaps are in the buffer when
    it is decoded. *)
Lemma burst_ok pulses tail t now c b : Forall (fun p => 0 < p.1 /\ 0 < p.2 <= umax 32) pulses ->
  spc c = SwListening -> length (gap_buffer c) = GAP_BUFFER ->
  still_from t pulses tail + TRANSMISSION_END_TIMEOUT_US <= now -> exists c1,
  sw_run (burst_steps t pulses tail now) c b = Some (captured now c1 b) /\ Timed (pulses.*2) c1 /\ SwKept c c1.
Proof.
  intros Hp Hc Hl Hn. unfold burst_steps. erewrite sw_run_cons by (unfold sw_step; rewrite Hc; reflexivity).
  destruct (edges_ok pulses t [] (with_spc (with_gaps c (gap_buffer c) 0) (AwaitFall t)) b Hp) as (c1 & E & Hpc & Ht & Hk); [done | by split_and!|].
  rewrite sw_run_app, E. cbn [mbind option_bind]. clear E.
  assert (exists c2, sw_run (tail_edges (burst_end t pulses) tail ++ [(now, TimerExpired)]) c1 b = Some (captured now c2 b) /\
    Timed (pulses.*2) c2 /\ SwKept c1 c2) as (c2 & -> & Ht2 & Hk2).
  - unfold still_from in Hn. destruct tail as [h|]; cbn [default tail_edges app] in *.
    + exists (with_spc c1 (AwaitRise (burst_end t pulses + h))).
      erewrite sw_run_cons by (unfold sw_step; rewrite Hpc; reflexivity). cbn [sw_run]. unfold sw_step. cbn [spc with_spc].
      rewrite (proj2 (Z.leb_le _ _)) by exact Hn. cbn [mbind option_bind].
      destruct (captured _ _ _) as [[c' b'] out]. cbn. rewrite app_nil_r. by split_and!.
    + exists c1. cbn [sw_run]. unfold sw_step. rewrite Hpc, (proj2 (Z.leb_le _ _)) by lia. cbn [mbind option_bind].
      destruct (captured _ _ _) as [[c' b'] out]. cbn. rewrite app_nil_r. by split_and!.
  - exists c2. destruct (captured now c2 b) as [[c' b'] out]. cbn. split_and!; [done | done |].
    eapply sw_kept_trans; [|exact Hk2]. destruct Hk. by split.
Qed.

(** A reading that was decoded is offered once and shown, then the task pauses. *)
Record SwDelivered (now : Z) (reading : RubicsonReading) c b r (o : TelemetryEnqueueOutcome) c' b' : Prop := {
  sd_inner : inner r = reading;
  sd_time : received_at r = now;
  sd_rssi : smin 16 <= rssi r <= smax 16;
  sd_shown : watch_value (sender c') = Some r;
  sd_pause : spc c' = SwPaused (now + CAPTURE_PAUSE_SECS * 1000000);
  sd_offered : Offered now r o (sw_adapter c) (sw_adapter c') (RADIO_TELEMETRY_CHANNEL b) (RADIO_TELEMETRY_CHANNEL b');
  sd_bus : exists channel, b' = set_telemetry b channel
}.

(** The end of a capture decodes what is in the buffer, or waits. *)
Lemma captured_ok now c b : (gap_count c <= length (gap_buffer c))%nat ->
  (exists i reading r o c' b', (MIN_GAPS <= gap_count c)%nat /\ decode_gaps (take (gap_count c) (gap_buffer c)) = Some (Ok (i, reading)) /\
     captured now c b = (c', b', [(r, o)]) /\ SwDelivered now reading c b r o c' b' /\
     gap_buffer c' = gap_buffer c /\ gap_count c' = gap_count c) \/
  ((gap_count c < MIN_GAPS)%nat \/ exists e, decode_gaps (take (gap_count c) (gap_buffer c)) = Some (Err e)) /\ captured now c b = (sw_debounce now c, b, []).
Proof.
  intros Hl. unfold captured. destruct (Nat.leb_spec MIN_GAPS (gap_count c)) as [Hm|Hm]; [|right; split; [by left | done]].
  rewrite (proj2 (Nat.leb_le _ _)) by done. pose proof (decode_gaps_agrees (take (gap_count c) (gap_buffer c))) as Hd. unfold decode_loop_agrees in Hd.
  destruct (first_valid _ _) as [[i reading]|]; [left | right; destruct Hd as (e & -> & _); split; [right; by exists e | done]].
  rewrite Hd. destruct (deliver_ok now reading (sw_radio c) (sender c) (sw_adapter c) (RADIO_TELEMETRY_CHANNEL b)) as (r & o & rd & w & a & ch & -> & ? & ? & ? & ? & ?).
  do 6 eexists. split_and!; [done | done | done | | done | done]. split; try done. by eexists.
Qed.

Lemma timed_gaps l c : Timed l c -> (length l <= GAP_BUFFER)%nat -> gap_count c = length l /\ take (gap_count c) (gap_buffer c) = l.
Proof. intros (_ & Hc & Ht) Hl. split; [lia|]. rewrite Ht. by apply take_ge. Qed.

(** What a burst is turned into: the reading its gaps decode to, or nothing. *)
Lemma burst_decoded pulses tail t now c b : Forall (fun p => 0 < p.1 /\ 0 < p.2 <= umax 32) pulses -> spc c = SwListening ->
  length (gap_buffer c) = GAP_BUFFER -> still_from t pulses tail + TRANSMISSION_END_TIMEOUT_US <= now ->
  (length pulses <= GAP_BUFFER)%nat ->
  ((MIN_GAPS <= length pulses)%nat /\ exists i reading r o c' b', decode_gaps (pulses.*2) = Some (Ok (i, reading)) /\
     sw_run (burst_steps t pulses tail now) c b = Some (c', b', [(r, o)]) /\ SwDelivered now reading c b r o c' b') \/
  (((length pulses < MIN_GAPS)%nat \/ exists e, decode_gaps (pulses.*2) = Some (Err e)) /\
   exists c' b', sw_run (burst_steps t pulses tail now) c b = Some (c', b', [])).
Proof.
  intros Hp Hc Hl Hn Hlen. destruct (burst_ok pulses tail t now c b Hp Hc Hl Hn) as (c1 & E & Ht & [_ Hs Ha _]).
  destruct (timed_gaps _ _ Ht) as [Hcount Hgaps]; [rewrite length_fmap; lia|]. rewrite length_fmap in Hcount.
  destruct (captured_ok now c1 b) as [(i & reading & r & o & c' & b' & Hm & Hd & Ec & Hdel & _ & _) | [Hd Ec]]; [rewrite Hcount, (proj1 Ht); lia | left | right];
    rewrite Hgaps in Hd; rewrite Ec in E.
  - split; [by rewrite <- Hcount|]. exists i, reading, r, o, c', b'. split; [exact Hd | split; [exact E |]]. destruct Hdel as [? ? ? ? ? Ho ?]. rewrite Ha in Ho. by split.
  - split; [by rewrite <- Hcount | by eexists _, _].
Qed.

(** Edges are timed as the sensor made them: a burst - garbled repeats,
    then a repeat within tolerance and its break, whatever follows, in no more
    gaps than the buffer holds - is decoded to the reading the sensor encoded
    once the pin has been still for ten milliseconds. The display's watch shows
    it, the filter and the channel get it once, and the task pauses. *)
Theorem sw_capture_delivers (t now : Z) (c : SwCapture) (b : Bus W C) (pulses : list (Z * Z))
    (garbled : list (list Z)) (gaps rest : list Z) (brk id channel0 temp_raw : Z) (battery : bool)
    (Hlistening : spc c = SwListening) (Hbuffer : length (gap_buffer c) = GAP_BUFFER)
    (Hpulses : Forall (fun p => 0 < p.1 /\ 0 < p.2 <= umax 32) pulses) (Hlen : (MIN_GAPS <= length pulses <= GAP_BUFFER)%nat)
    (Hend : burst_end t pulses + TRANSMISSION_END_TIMEOUT_US <= now)
    (Hburst : pulses.*2 = mjoin garbled ++ gaps ++ brk :: rest)
    (Hgarbled : Forall rejected_repeat garbled) (Hrows : (length garbled < MAX_PACKETS)%nat)
    (Hid : u8 id) (Hchannel : 0 <= channel0 < 4) (Htemp : -2048 <= temp_raw < 2048)
    (Hgaps : transmits gaps (payload_bits (build_payload id channel0 battery temp_raw)))
    (Hbrk : is_break brk) :
  exists r o c' b', sw_run ((t, Edge) :: edges t pulses ++ [(now, TimerExpired)]) c b = Some (c', b', [(r, o)]) /\
    SwDelivered now (reading_of id channel0 battery temp_raw) c b r o c' b'.
Proof.
  pose proof (decode_gaps_agrees (pulses.*2)) as Hd. unfold decode_loop_agrees in Hd.
  replace (first_valid 0 (packets [] (pulses.*2))) with (Some (length garbled, reading_of id channel0 battery temp_raw)) in Hd
    by (rewrite Hburst; by erewrite first_valid_transmitted).
  destruct (burst_decoded pulses None t now c b) as [(_ & i & reading & r & o & c' & b' & Hd' & E & Hdel) | [[Hshort|[e Hd']] _]];
    [done | done | done | by unfold still_from; rewrite Z.add_0_r | lia | | lia | congruence].
  rewrite Hd in Hd'. injection Hd' as _ <-. by exists r, o, c', b'.
Qed.

(** The same for the receiver peripheral's task: [n] is the number of symbols
    it reports, with the one behind the burst or without. *)
Lemma rmt_decoded pulses tail stop stale n now (rc : PulseCapture W (Vec := Vec) D) b : cpc rc = Listening ->
  (length pulses <= n <= S (length pulses))%nat -> Forall (fun p => 0 < p.1 /\ 0 < p.2) pulses ->
  stops_with tail stop -> (forall h, tail = Some h -> 0 < h) ->
  ((MIN_SYMBOLS <= n)%nat /\ exists i reading r o rc' b', decode_gaps (pulses.*2) = Some (Ok (i, reading)) /\
     capture_step now (Received (Count n) (recorded pulses ++ stop :: stale)) rc b = Some (rc', b', [(r, o)]) /\ inner r = reading) \/
  (((n < MIN_SYMBOLS)%nat \/ exists e, decode_gaps (pulses.*2) = Some (Err e)) /\
   exists rc' b', capture_step now (Received (Count n) (recorded pulses ++ stop :: stale)) rc b = Some (rc', b', [])).
Proof.
  intros Hc Hl Hp Hs Ht. unfold capture_step. rewrite Hc. unfold received.
  destruct (head_step rc b) as (w & p & q & Hhead & _).
  destruct (Nat.leb_spec MIN_SYMBOLS n) as [Hn|Hn]; [|right; split; [by left | rewrite Hhead; by eexists _, _]].
  rewrite pulse_gaps, take_app, length_recorded, (take_ge (recorded pulses)) by (rewrite length_recorded; lia).
  rewrite low_gaps_recorded by done.
  assert (low_gaps (entries (take (n - length pulses) (stop :: stale))) = []) as ->.
  { assert (n - length pulses = 0 \/ n - length pulses = 1)%nat as [-> | ->] by lia; [done|].
    unfold stops_with in Hs. destruct tail as [h|].
    - rewrite Hs. specialize (Ht h eq_refl). cbn. by rewrite (proj2 (Z.eqb_neq _ _)) by lia.
    - cbn. by rewrite Hs. }
  rewrite app_nil_r. cbn [mbind option_bind].
  pose proof (decode_gaps_agrees (pulses.*2)) as Hd. unfold decode_loop_agrees, decode_gaps in *.
  destruct (first_valid _ _) as [[i reading]|]; [left | right].
  - rewrite Hd. destruct (decoded_delivered now reading rc b) as (r & o & rc' & b' & -> & [Hi _ _ _ _ _ _]).
    split; [done|]. by exists i, reading, r, o, rc', b'.
  - destruct Hd as (e & -> & _). split; [right; by exists e|]. rewrite Hhead. by eexists _, _.
Qed.

(** C18: The two back ends agree but for their thresholds: on a burst of at
    most 512 pulses, every level of it shorter than the 5 ms that end a reception
    by the peripheral (and so than the 10 ms that end a capture in software),
    the peripheral's task decodes a reading from the symbols recorded exactly
    when it was told of at least 432 symbols and the software decodes that
    reading from the edges. The peripheral records the pulses with the gap after
    each, then the last pulse if there is one without a gap, and an end marker;
    it counts the symbol with the end marker or not. *)
Theorem backends_agree (t now now' : Z) (c : SwCapture) (rc : PulseCapture W (Vec := Vec) D) (b b' : Bus W C) (pulses : list (Z * Z))
    (tail : option Z) (stop : PulseCode) (stale : list PulseCode) (n : nat) (reading : RubicsonReading) :
  spc c = SwListening -> length (gap_buffer c) = GAP_BUFFER -> cpc rc = Listening ->
  Forall (fun p => lasts p.1 /\ lasts p.2) pulses -> (forall h, tail = Some h -> lasts h) -> (length pulses <= GAP_BUFFER)%nat ->
  still_from t pulses tail + TRANSMISSION_END_TIMEOUT_US <= now ->
  stops_with tail stop -> (length pulses <= n <= S (length pulses))%nat ->
  (exists rc' b'' r o, capture_step now' (Received (Count n) (recorded pulses ++ stop :: stale)) rc b' = Some (rc', b'', [(r, o)]) /\ inner r = reading) <->
  (MIN_SYMBOLS <= n)%nat /\
  (exists c' b' r o, sw_run (burst_steps t pulses tail now) c b = Some (c', b', [(r, o)]) /\ inner r = reading).
Proof.
  intros Hc Hl Hrc Hlast Htail Hlen Hend Hs Hn. unfold lasts, RMT_IDLE_US in *.
  assert (Forall (fun p => 0 < p.1 /\ 0 < p.2) pulses) as Hp' by (eapply Forall_impl; [exact Hlast|]; intros p [[? ?] [? ?]]; lia).
  assert (Forall (fun p => 0 < p.1 /\ 0 < p.2 <= umax 32) pulses) as Hp by (eapply Forall_impl; [exact Hlast|]; intros p [[? ?] [? ?]]; change (umax 32) with 4294967295; lia).
  assert (MIN_SYMBOLS <= n -> MIN_GAPS <= length pulses)%nat as Hmin by (unfold MIN_SYMBOLS, MIN_GAPS; lia).
  destruct (burst_decoded pulses tail t now c b Hp Hc Hl Hend Hlen) as [(Hm & i & x & r & o & c1 & b1 & Ed & E & [Hi _ _ _ _ _ _]) | [Ed (c1 & b1 & E)]];
    destruct (rmt_decoded pulses tail stop stale n now' rc b' Hrc Hn Hp' Hs) as [(Hm2 & j & y & r2 & o2 & c2 & b2 & Ed2 & E2 & Hi2) | [Ed2 (c2 & b2 & E2)]];
    try (intros h Eh; by apply Htail in Eh as [? _]); rewrite E, E2.
  - rewrite Ed in Ed2. injection Ed2 as _ <-. split; [intros (c3 & b3 & r3 & o3 & [= <- <- <- <-] & <-); split; [done | exists c1, b1, r, o]
      | intros (_ & c3 & b3 & r3 & o3 & [= <- <- <- <-] & <-); exists c2, b2, r2, o2]; split; congruence.
  - split; [intros (c3 & b3 & r3 & o3 & E3 & _); congruence|].
    intros (Hm2 & _). destruct Ed2 as [?|[e ?]]; [lia | congruence].
  - destruct Ed as [?|[e ?]]; [specialize (Hmin Hm2); lia | congruence].
  - split; [intros (c3 & b3 & r3 & o3 & E3 & _) | intros (_ & c3 & b3 & r3 & o3 & E3 & _)]; congruence.
Qed.

(** *** Runs

    The task from its start, whatever the bus holds at each step and whatever
    settings the others send. *)
Definition with_settings c (w : W RadioSettings) : SwCapture :=
  {| spc := spc c; sw_quiesced := sw_quiesced c; sw_radio := sw_radio c; sender := sender c;
     settings_receiver := w; sw_adapter := sw_adapter c; gap_buffer := gap_buffer c; gap_count := gap_count c |}.

Inductive timing : Z -> SwCapture -> Prop :=
| timing_new now (rd : Cc1101Radio D) readings settings : timing now (SwCapture_new rd readings settings)
| timing_meanwhile now now' c w : timing now c -> now <= now' -> timing now' (with_settings c w)
| timing_step now w c b c' b' out : timing now c -> sw_step now w c b = Some (c', b', out) -> timing now c'.

(** The buffer never grows, and no edge lies ahead of the clock. *)
Record SwInv (now : Z) c : Prop := {
  si_buffer : length (gap_buffer c) = GAP_BUFFER;
  si_count : (gap_count c <= GAP_BUFFER)%nat;
  si_clock : forall t, spc c = AwaitRise t -> t <= now;
  si_alive : spc c <> SwPanicked
}.
Definition stops (p : sw_pc) : Prop := p <> SwPanicked /\ forall t, p <> AwaitRise t.

(** What a step leaves: nothing decoded and both outputs as they were, or one
    reading delivered from the gaps timed. *)
Inductive SwStepped (now : Z) c b : sw_outcome -> Prop :=
| sw_idle c' b' : SwInv now c' -> sender c' = sender c -> sw_adapter c' = sw_adapter c ->
    RADIO_TELEMETRY_CHANNEL b' = RADIO_TELEMETRY_CHANNEL b -> SwStepped now c b (c', b', [])
| sw_decoded c' b' i reading r o : SwInv now c' -> (MIN_GAPS <= gap_count c)%nat ->
    decode_gaps (take (gap_count c) (gap_buffer c)) = Some (Ok (i, reading)) ->
    SwDelivered now reading c b r o c' b' -> SwStepped now c b (c', b', [(r, o)]).

Lemma inv_moved now c p : SwInv now c -> stops p -> SwInv now (with_spc c p).
Proof. intros [? ? ? ?] [? Hp]. split; cbn; try done. intros t ->. by destruct (Hp t). Qed.
Lemma inv_settings now now' c w : SwInv now c -> now <= now' -> SwInv now' (with_settings c w).
Proof. intros [? ? Hc ?] Hle. split; cbn; try done. intros t E. specialize (Hc t E). lia. Qed.
Lemma inv_store now t g c : SwInv now c -> SwInv now (with_spc (store_gap g c) (AwaitFall t)).
Proof.
  intros [Hl ? ? ?]. unfold store_gap. rewrite Hl. destruct (Nat.ltb_spec (gap_count c) GAP_BUFFER); split; cbn; try done.
  - by rewrite length_insert.
Qed.

Lemma head_idle now c0 c b b0 : SwInv now c -> sender c = sender c0 -> sw_adapter c = sw_adapter c0 ->
  RADIO_TELEMETRY_CHANNEL b = RADIO_TELEMETRY_CHANNEL b0 -> SwStepped now c0 b0 (sw_head c b).
Proof.
  intros Hi Hs Ha Hb. unfold sw_head, get_ota_state. destruct (watch_try_get _ _) as [s w].
  destruct (is_radio_capture_allowed _); constructor; try done.
  all: apply (inv_moved now (with_quiesced c _)); [destruct Hi; by split | done].
Qed.

Lemma apply_inv now c : SwInv now c -> SwInv now (sw_apply_settings c) /\
  sender (sw_apply_settings c) = sender c /\ sw_adapter (sw_apply_settings c) = sw_adapter c.
Proof. intros [? ? ? ?]. unfold sw_apply_settings. destruct (watch_try_get _ _). done. Qed.

Lemma moved_idle now c b p : SwInv now c -> stops p -> SwStepped now c b (with_spc c p, b, []).
Proof. intros. constructor; try done. by apply inv_moved. Qed.

Lemma captured_stepped now c b : SwInv now c -> SwStepped now c b (captured now c b).
Proof.
  intros Hi. pose proof Hi as [Hl Hc _ _]. destruct (captured_ok now c b) as [(i & reading & r & o & c' & b' & Hm & Hd & -> & Hdel & Hg & Hn) | [_ ->]]; [lia | |].
  - eapply sw_decoded; try done. split; rewrite ?Hg, ?Hn; try done; rewrite (sd_pause _ _ _ _ _ _ _ _ Hdel); done.
  - by apply moved_idle.
Qed.

Lemma sw_stepped now w c b res : SwInv now c -> sw_step now w c b = Some res -> SwStepped now c b res.
Proof.
  intros Hi E. pose proof (apply_inv now c Hi) as (Hia & Hsa & Haa). unfold sw_step in E.
  destruct (spc c) eqn:Ep, w; try done; try (apply (inj Some) in E as <-).
  all: repeat match type of E with context [watch_changed ?i ?x] => destruct (watch_changed i x) as [[? ?]|]; cbn [mbind option_bind] in E
    | (if ?b then _ else _) = _ => destruct b end; try done; try (apply (inj Some) in E as <-).
  all: try (by apply head_idle); try (by apply moved_idle); try (by apply captured_stepped).
  - constructor; try done. destruct Hi. split; cbn; try done. unfold GAP_BUFFER. lia.
  - match goal with |- SwStepped _ _ _ (sw_head (sw_apply_settings ?x) _) => destruct (apply_inv now x) as (? & ? & ?) end;
      [destruct Hi; by split | by apply head_idle].
  - constructor; try done. destruct Hi. split; cbn; try done. intros t [= <-]. lia.
  - rewrite (proj2 (Z.ltb_ge _ _)) by (by apply (si_clock now c)). destruct (sw_kept_store (now - gap_start) c). constructor; try done. by apply inv_store.
  - constructor; try done. by apply inv_moved.
Qed.

Lemma timing_inv now c : timing now c -> SwInv now c.
Proof.
  induction 1 as [now rd readings settings | now now' c w _ IH Hle | now w c b c' b' out _ IH Hs].
  - split; cbn; try done. unfold GAP_BUFFER. lia.
  - by apply (inv_settings now).
  - apply sw_stepped in Hs; [|done]. by inversion Hs.
Qed.

(** In every run of the task no step panics and the gap buffer is never
    overrun: neither a capture longer than the buffer nor an edge at the very
    instant of the one before does. A step leaves the display's watch, the
    filter and the channel as they are, or it ends a capture of at least 36
    gaps that decode to a reading, which is shown and offered once. *)
Theorem sw_safety (now : Z) (w : sw_wake) (c c' : SwCapture) (b b' : Bus W C) (out : list (RadioReading * TelemetryEnqueueOutcome))
    (Hrun : timing now c) (Hs : sw_step now w c b = Some (c', b', out)) :
  spc c' <> SwPanicked /\ (gap_count c' <= length (gap_buffer c'))%nat /\
  match out with
  | [] => sender c' = sender c /\ sw_adapter c' = sw_adapter c /\ RADIO_TELEMETRY_CHANNEL b' = RADIO_TELEMETRY_CHANNEL b
  | [(r, o)] => (exists i, decode_gaps (take (gap_count c) (gap_buffer c)) = Some (Ok (i, inner r))) /\ (MIN_GAPS <= gap_count c)%nat /\
      SwDelivered now (inner r) c b r o c' b'
  | _ => False
  end.
Proof.
  apply sw_stepped in Hs; [|by apply timing_inv].
  inversion Hs as [c1 b1 [Hl Hc _ Hp] | c1 b1 i reading r o [Hl Hc _ Hp] Hm Hd Hdel]; subst; (split; [done|]; split; [lia|]); [done|].
  rewrite (sd_inner _ _ _ _ _ _ _ _ Hdel). split; [by exists i | done].
Qed.
End Properties.

(** ** An instance for witnesses: the burst of [PulseCapture.Sample], by its
    edges and as the peripheral records it. *)
Module Sample.
Import Radio.Sample PulseCapture.Sample.

Definition sw_awake : SwCapture Sync.cell (Vec := bounded) (sim true) :=
  (sw_head (SwCapture_new started watch_new watch_new) bus).1.1.
Definition burst_edges : list (Z * sw_wake) := (1000, Edge) :: edges 1000 pulses ++ [(6000000, TimerExpired)].

Lemma pulses_timed : Forall (fun p => 0 < p.1 /\ 0 < p.2 <= umax 32) pulses.
Proof.
  apply Forall_forall. intros p Hp.
  assert (forallb (fun p => (0 <? p.1) && (0 <? p.2) && (p.2 <=? umax 32)) pulses = true) as Hall by (vm_compute; reflexivity).
  rewrite forallb_forall in Hall. apply list_elem_of_In, Hall in Hp. bools. lia.
Qed.
Lemma pulses_enough : (MIN_GAPS <= length pulses <= GAP_BUFFER)%nat.
Proof. split; apply Nat.leb_le; vm_compute; reflexivity. Qed.
Lemma burst_over : burst_end 1000 pulses + TRANSMISSION_END_TIMEOUT_US <= 6000000.
Proof. apply Z.leb_le. vm_compute. reflexivity. Qed.

Lemma burst_decodes : decode_gaps (pulses.*2) = Some (Ok (1%nat, reading_of 230 0 true (-94))).
Proof. vm_compute. reflexivity. Qed.

Lemma sw_capture_delivers_witness :
  exists r o c' b', sw_run burst_edges sw_awake listening = Some (c', b', [(r, o)]) /\
    inner r = reading_of 230 0 true (-94) /\ watch_value (sender c') = Some r /\ spc c' = SwPaused 51000000.
Proof.
  destruct (sw_capture_delivers 1000 6000000 sw_awake listening pulses
    [repeat_of garbled_bits] (nominal_gaps packet_bits) (mjoin (replicate 10 (repeat_of packet_bits))) 4000
    230 0 (-94) true) as (r & o & c' & b' & E & [Hi _ _ Hw Hp _ _]).
  - reflexivity.
  - reflexivity.
  - exact pulses_timed.
  - exact pulses_enough.
  - exact burst_over.
  - exact pulses_burst.
  - constructor; [apply garbled_rejected | constructor].
  - apply Nat.ltb_lt. reflexivity.
  - num.
  - lia.
  - lia.
  - apply nominal_gaps_transmit, packet_bits_ok.
  - by vm_compute.
  - exists r, o, c', b'. split; [exact E | split; [exact Hi | split; [exact Hw | exact Hp]]].
Defined.

Lemma pulses_last : Forall (fun p => lasts p.1 /\ lasts p.2) pulses.
Proof.
  apply Forall_forall. intros p Hp.
  assert (forallb (fun p => (0 <? p.1) && (p.1 <? 5000) && (0 <? p.2) && (p.2 <? 5000)) pulses = true) as Hall by (vm_compute; reflexivity).
  rewrite forallb_forall in Hall. apply list_elem_of_In, Hall in Hp. bools. unfold lasts, RMT_IDLE_US. lia.
Qed.

(** The peripheral's task decodes that reading from its buffer because the
    software does from the edges. *)
Lemma backends_agree_witness :
  exists c' b' r o, capture_step 5000000 (Received (Count (S (length pulses))) buffer) awake listening = Some (c', b', [(r, o)]) /\
    inner r = reading_of 230 0 true (-94).
Proof.
  rewrite buffer_split. refine (proj2 (backends_agree 1000 6000000 5000000 sw_awake awake listening listening pulses
    None PulseCode_default (replicate (SYMBOLS - length pulses - 1) PulseCode_default) (S (length pulses)) (reading_of 230 0 true (-94)) _ _ _ _ _ _ _ _ _) _).
  - reflexivity.
  - reflexivity.
  - reflexivity.
  - exact pulses_last.
  - discriminate.
  - exact (proj2 pulses_enough).
  - unfold still_from. rewrite Z.add_0_r. exact burst_over.
  - reflexivity.
  - lia.
  - split; [apply Nat.leb_le; vm_compute; reflexivity|].
    destruct (burst_decoded pulses None 1000 6000000 sw_awake listening pulses_timed eq_refl eq_refl
      ltac:(unfold still_from; rewrite Z.add_0_r; exact burst_over) (proj2 pulses_enough))
      as [(_ & i & x & r & o & c' & b' & Hd & E & [Hi _ _ _ _ _ _]) | [[Hs|[e Hd]] _]].
    + exists c', b', r, o. split; [exact E|]. rewrite Hi. rewrite burst_decodes in Hd. injection Hd as _ <-. reflexivity.
    + pose proof (proj1 pulses_enough). lia.
    + rewrite burst_decodes in Hd. discriminate Hd.
Defined.

(** An edge at the instant of the one before is a gap of no length. *)
Definition sw_spawned : SwCapture Sync.cell (Vec := bounded) (sim true) := SwCapture_new started watch_new watch_new.
Definition sw_bus : Bus Sync.cell bounded := (sw_head sw_spawned bus).1.2.
Definition high := with_spc (with_gaps sw_awake (gap_buffer sw_awake) 0) (AwaitFall 7).
Definition low := with_spc high (AwaitRise 7).
Lemma low_timed : timing 7 low.
Proof.
  assert (timing 7 sw_awake) as Ha.
  { apply (timing_step 7 SwStarts sw_spawned bus sw_awake sw_bus []); [constructor | reflexivity]. }
  assert (timing 7 high) as Hh by (apply (timing_step 7 Edge sw_awake bus high bus []); [exact Ha | reflexivity]).
  apply (timing_step 7 Edge high bus low bus []); [exact Hh | reflexivity].
Qed.

Lemma sw_safety_witness :
  exists c', sw_step 7 Edge low bus = Some (c', bus, []) /\ gap_count c' = 1%nat /\ spc c' <> SwPanicked.
Proof.
  assert (sw_step 7 Edge low bus = Some (with_spc (store_gap 0 low) (AwaitFall 7), bus, [])) as Es by reflexivity.
  eexists. split; [exact Es|]. split; [reflexivity|].
  destruct (sw_safety 7 Edge low _ bus bus [] low_timed Es) as (Halive & _ & _). exact Halive.
Defined.
End Sample.
