(* ===== verification/Display.v ===== *)
(** * The display controller

    [firmware/src/tasks/display/]: the navigation reducers ([state.rs]), the
    frame keys ([frame_model.rs], [frame_map.rs]), the controller
    ([controller.rs]) over the settings menu and the loop of the display task
    ([display.rs]). Drawing on the panel is an input that says whether it
    succeeded. *)
From S2P Require Import Prelude Str Heapless ConfigRules Messages F32 Rubicson KaruMenu OtaTasks Settings Bus.

(** ** Screens ([state.rs]) *)

Inductive RadioState := Overview | Settings.
Inductive DisplayState := Main | Radio (screen : RadioState).
Inductive SettingsMenuOutcome := Unchanged | ValueChanged | SaveSelected.

#[export] Instance RadioState_eq_dec : EqDecision RadioState.
Proof. solve_decision. Defined.
#[export] Instance SettingsMenuOutcome_eq_dec : EqDecision SettingsMenuOutcome.
Proof. solve_decision. Defined.
#[export] Instance DisplayState_eq_dec : EqDecision DisplayState.
Proof. solve_decision. Defined.

Record TransitionEffects := {
  reset_settings_menu : bool;
  sync_pending_settings : bool;
  save_settings : bool
}.
Definition NONE : TransitionEffects :=
  {| reset_settings_menu := false; sync_pending_settings := false; save_settings := false |}.
Definition RESET_SETTINGS_MENU : TransitionEffects :=
  {| reset_settings_menu := true; sync_pending_settings := false; save_settings := false |}.
Definition SYNC_PENDING : TransitionEffects :=
  {| reset_settings_menu := false; sync_pending_settings := true; save_settings := false |}.
Definition SAVE_SETTINGS : TransitionEffects :=
  {| reset_settings_menu := false; sync_pending_settings := true; save_settings := true |}.

Record Transition := { next : DisplayState; effects : TransitionEffects }.

Definition reduce_navigation (state : DisplayState) (event : UiEvent) : Transition :=
  match state with
  | Main =>
      match event with
      | NextScreen | PrevScreen => {| next := Radio Overview; effects := NONE |}
      | Select => {| next := Radio Settings; effects := RESET_SETTINGS_MENU |}
      end
  | Radio Overview =>
      match event with
      | NextScreen | PrevScreen => {| next := Main; effects := NONE |}
      | Select => {| next := Radio Settings; effects := RESET_SETTINGS_MENU |}
      end
  | Radio Settings => {| next := Radio Settings; effects := NONE |}
  end.

Definition in_settings (state : DisplayState) : bool :=
  match state with Radio Settings => true | _ => false end.

Definition reduce_settings_menu (state : DisplayState) (outcome : SettingsMenuOutcome) : Transition :=
  if negb (in_settings state) then {| next := state; effects := NONE |}
  else
    match outcome with
    | Unchanged => {| next := state; effects := NONE |}
    | ValueChanged => {| next := state; effects := SYNC_PENDING |}
    | SaveSelected => {| next := Radio Overview; effects := SAVE_SETTINGS |}
    end.

(** ** Frames ([frame_model.rs], [frame_map.rs]) *)

Inductive UiScreenState := ScreenWaiting | ScreenMain | ScreenRadioOverview | ScreenRadioSettings.

Record MainFrameKey := {
  mf_temp_deci : Z; mf_sensor_id : Z; mf_channel : Z; mf_battery_ok : bool; mf_time_secs : option Z
}.
Record SettingsFrameKey := {
  nav_index : Z; sf_editing : bool; sf_threshold : Z; sf_magn : Z; sf_bandwidth_index : Z;
  sf_carrier_sense : Z; sf_predictive_sleep_enabled : bool; sf_sleep_duration_secs : Z;
  sf_ui_idle_timeout_secs : Z
}.
Inductive RadioFrameKey :=
| OverviewFrame (rssi : option Z) (detection_threshold : Z)
| SettingsFrame (key : SettingsFrameKey).
Inductive FrameKey :=
| WaitingFrame
| MainFrame (key : MainFrameKey)
| RadioFrame (key : RadioFrameKey).

#[export] Instance MainFrameKey_eq_dec : EqDecision MainFrameKey.
Proof. solve_decision. Defined.
#[export] Instance SettingsFrameKey_eq_dec : EqDecision SettingsFrameKey.
Proof. solve_decision. Defined.
#[export] Instance RadioFrameKey_eq_dec : EqDecision RadioFrameKey.
Proof. solve_decision. Defined.
#[export] Instance FrameKey_eq_dec : EqDecision FrameKey.
Proof. solve_decision. Defined.

Record DisplayFrameInput := {
  screen : UiScreenState;
  in_reading : option SensorReading;
  in_radio : RadioConfigView;
  in_power : PowerConfigView;
  time_secs : option Z;
  settings_nav_index : Z;
  settings_editing : bool
}.

Definition derive_frame (input : DisplayFrameInput) : FrameKey :=
  match screen input with
  | ScreenWaiting => WaitingFrame
  | ScreenMain =>
      match in_reading input with
      | None => WaitingFrame
      | Some reading => MainFrame {|
          mf_temp_deci := temp_to_deci (sr_temperature_c reading);
          mf_sensor_id := sr_sensor_id reading; mf_channel := sr_channel reading;
          mf_battery_ok := sr_battery_ok reading; mf_time_secs := time_secs input |}
      end
  | ScreenRadioOverview =>
      RadioFrame (OverviewFrame (rssi_dbm <$> in_reading input)
        (match in_reading input with
         | None => detection_threshold_db (in_radio input)
         | Some r => sr_detection_threshold_db r
         end))
  | ScreenRadioSettings => RadioFrame (SettingsFrame {|
      nav_index := settings_nav_index input; sf_editing := settings_editing input;
      sf_threshold := detection_threshold_db (in_radio input);
      sf_magn := magn_target (in_radio input);
      sf_bandwidth_index := channel_bandwidth_index (in_radio input);
      sf_carrier_sense := carrier_sense_threshold (in_radio input);
      sf_predictive_sleep_enabled := predictive_sleep_enabled (in_power input);
      sf_sleep_duration_secs := sleep_duration_secs (in_power input);
      sf_ui_idle_timeout_secs := ui_idle_timeout_secs (in_power input) |})
  end.

Definition to_ui_screen_state (state : DisplayState) : UiScreenState :=
  match state with
  | Main => ScreenMain
  | Radio Overview => ScreenRadioOverview
  | Radio Settings => ScreenRadioSettings
  end.

Definition frame_key (state : DisplayState) (reading : option RadioReading) (radio : RadioSettings)
    (power : PowerSettings) (time_secs : option Z) (nav_index : Z) (editing : bool) : FrameKey :=
  derive_frame {| screen := to_ui_screen_state state;
    in_reading := sensor_reading_from <$> reading; in_radio := radio; in_power := power;
    time_secs := time_secs; settings_nav_index := default (umax 8) (try_from_u 8 nav_index);
    settings_editing := editing |}.

(** ** The controller ([controller.rs]) *)

Inductive DisplayLoopEvent :=
| Reading (reading : RadioReading)
| NavigationEvent (event : UiEvent)
| Tick
| IgnoreEvent.

Definition navigation_event_from_app_event (event : AppEvent) : option UiEvent :=
  match event with UiInput (Navigation ui_event) => Some ui_event | _ => None end.

(** What the [select3] of the loop returns. *)
Inductive either3 := First (reading : RadioReading) | Second (event : AppEvent) | Third.
#[export] Instance DisplayLoopEvent_dec_ignore (e : DisplayLoopEvent) : Decision (e = IgnoreEvent).
Proof. destruct e; solve [by left | by right]. Defined.
Definition next_display_loop_event (selected : either3) : DisplayLoopEvent :=
  match selected with
  | First reading => Reading reading
  | Second app_event =>
      match navigation_event_from_app_event app_event with
      | Some event => NavigationEvent event
      | None => IgnoreEvent
      end
  | Third => Tick
  end.

Definition SETTINGS_MENU_CAPACITY : nat := 8.
Definition THRESHOLD_ITEM_INDEX : nat := 0.
Definition MAGN_ITEM_INDEX : nat := 1.
Definition BANDWIDTH_ITEM_INDEX : nat := 2.
Definition CARRIER_SENSE_ITEM_INDEX : nat := 3.
Definition PREDICTIVE_SLEEP_ITEM_INDEX : nat := 4.
Definition SLEEP_DURATION_ITEM_INDEX : nat := 5.
Definition UI_IDLE_TIMEOUT_ITEM_INDEX : nat := 6.

Inductive SettingsAction := Save.

Abbreviation Entry := (MenuEntry (Unsigned 8) SettingsAction).

Definition format_db (value : Z) : bytes := written 32 [] [dec value; lit "dB"].
Definition format_magn_target (value : Z) : bytes :=
  let magnitude_db :=
    if value =? 0 then 24 else if value =? 1 then 27 else if value =? 2 then 30
    else if value =? 3 then 33 else if value =? 4 then 36 else if value =? 5 then 38
    else if value =? 6 then 40 else 42 in
  written 32 [] [dec magnitude_db; lit "dB"].
Definition format_bandwidth (value : Z) : bytes :=
  written 32 [] [dec (channel_bandwidth_hz value / 1000); lit "kHz"].
Definition format_on_off (value : Z) : bytes :=
  written 32 [] [if value =? 0 then lit "Off" else lit "On"].
Definition format_seconds (value : Z) : bytes := written 32 [] [dec value; lit "s"].

Definition menu_event_from_ui_event (event : UiEvent) : KaruMenu.UiEvent :=
  match event with
  | NextScreen => KaruMenu.NextScreen
  | PrevScreen => KaruMenu.PrevScreen
  | Select => KaruMenu.Select
  end.
Definition settings_outcome_from_menu_event (event : MenuEvent SettingsAction)
  : SettingsMenuOutcome :=
  match event with
  | KaruMenu.ValueChanged _ => ValueChanged
  | ActionSelected _ Save => SaveSelected
  | _ => Unchanged
  end.

Section Controller.
Context {V : Type -> nat -> Type} `{FixedVec V}.

Definition SettingsMenu : Type := Menu V Entry SETTINGS_MENU_CAPACITY.

Definition reset_settings_menu_for_entry (menu : SettingsMenu) : SettingsMenu :=
  let menu :=
    if is_editing menu then (handle_event (A := SettingsAction) menu KaruMenu.Select).2 else menu in
  (set_selected menu 0).2.

(** A full menu only logs. *)
Definition add_menu_item (menu : SettingsMenu) (item : Entry) : SettingsMenu :=
  (add menu item).2.

Definition add_numeric (label : string) (initial lo hi step : Z) (formatter : Z -> bytes)
    (menu : SettingsMenu) : option SettingsMenu :=
  item ← NumericItem_new (lit label) initial lo hi step formatter;
  Some (add_menu_item menu (Numeric item)).

Definition build_settings_menu (radio : RadioSettings) (power : PowerSettings)
  : option SettingsMenu :=
  let menu := Menu_new (ScrollableViewport_new 128 64) in
  menu ← add_numeric "Threshold" (detection_threshold_db radio)
    DETECTION_THRESHOLD_MIN_DB DETECTION_THRESHOLD_MAX_DB DETECTION_THRESHOLD_STEP_DB format_db menu;
  menu ← add_numeric "Magn Tgt" (magn_target radio)
    MAGN_TARGET_MIN MAGN_TARGET_MAX 1 format_magn_target menu;
  menu ← add_numeric "Bandwidth" (channel_bandwidth_index radio)
    CHANNEL_BANDWIDTH_MIN_INDEX CHANNEL_BANDWIDTH_MAX_INDEX 1 format_bandwidth menu;
  menu ← add_numeric "CS Thrsh" (carrier_sense_threshold radio)
    CARRIER_SENSE_MIN CARRIER_SENSE_MAX 1 format_db menu;
  menu ← add_numeric "Pred Slp" (Z.b2z (predictive_sleep_enabled power)) 0 1 1 format_on_off menu;
  menu ← add_numeric "Sleep" (sleep_duration_secs power)
    POWER_SLEEP_DURATION_MIN_SECS POWER_SLEEP_DURATION_MAX_SECS 1 format_seconds menu;
  menu ← add_numeric "UI Idle" (ui_idle_timeout_secs power)
    POWER_UI_IDLE_TIMEOUT_MIN_SECS POWER_UI_IDLE_TIMEOUT_MAX_SECS 1 format_seconds menu;
  Some (add_menu_item menu
    (Command {| action_label := lit "Save"; action_item_id := Save |})).

Definition numeric_value_at (menu : SettingsMenu) (index : nat) : option Z :=
  match vec_list (items menu) !! index with
  | Some (Numeric item) => Some (pending item)
  | Some (Command _) | None => None
  end.

Definition sync_pending_from_menu (menu : SettingsMenu)
    (pending : RadioSettings * PowerSettings) : RadioSettings * PowerSettings :=
  let (radio, power) := pending in
  ({| detection_threshold_db :=
        default (detection_threshold_db radio) (numeric_value_at menu THRESHOLD_ITEM_INDEX);
      magn_target := default (magn_target radio) (numeric_value_at menu MAGN_ITEM_INDEX);
      channel_bandwidth_index :=
        default (channel_bandwidth_index radio) (numeric_value_at menu BANDWIDTH_ITEM_INDEX);
      carrier_sense_threshold :=
        default (carrier_sense_threshold radio) (numeric_value_at menu CARRIER_SENSE_ITEM_INDEX) |},
   {| predictive_sleep_enabled :=
        match numeric_value_at menu PREDICTIVE_SLEEP_ITEM_INDEX with
        | Some value => negb (value =? 0)
        | None => false
        end;
      sleep_duration_secs :=
        default (sleep_duration_secs power) (numeric_value_at menu SLEEP_DURATION_ITEM_INDEX);
      ui_idle_timeout_secs :=
        default (ui_idle_timeout_secs power) (numeric_value_at menu UI_IDLE_TIMEOUT_ITEM_INDEX) |}).

Record DisplayController := {
  state : DisplayState;
  last_reading : option RadioReading;
  pending_radio_settings : RadioSettings;
  pending_power_settings : PowerSettings;
  settings_menu : SettingsMenu;
  last_frame : option FrameKey
}.

(** [None] is a panic, here of [clamp]. *)
Definition DisplayController_new (initial_radio : option RadioSettings)
    (initial_power : option PowerSettings) : option DisplayController :=
  let pending_radio := default DEFAULT_RADIO_SETTINGS initial_radio in
  let pending_power := default DEFAULT_POWER_SETTINGS initial_power in
  menu ← build_settings_menu pending_radio pending_power;
  let (current_radio, current_power) :=
    sync_pending_from_menu menu (pending_radio, pending_power) in
  Some {| state := Main; last_reading := None; pending_radio_settings := current_radio;
          pending_power_settings := current_power; settings_menu := menu; last_frame := None |}.

Definition radio_overview_values (c : DisplayController) : option Z * Z :=
  (rssi <$> last_reading c,
   match last_reading c with
   | None => detection_threshold_db (pending_radio_settings c)
   | Some reading => detection_threshold reading
   end).

(** The effects in the order of the source: reset, sync, the new screen,
    save. *)
Definition apply_transition (c : DisplayController) (transition : Transition)
  : option AppCommand * DisplayController :=
  let menu :=
    if reset_settings_menu (effects transition)
    then reset_settings_menu_for_entry (settings_menu c) else settings_menu c in
  let (radio, power) :=
    if sync_pending_settings (effects transition)
    then sync_pending_from_menu menu (pending_radio_settings c, pending_power_settings c)
    else (pending_radio_settings c, pending_power_settings c) in
  if save_settings (effects transition) then
    let radio := clamp_radio_config radio in
    let power := clamp_power_config power in
    (Some (ApplySettings radio power),
     {| state := next transition; last_reading := last_reading c;
        pending_radio_settings := radio; pending_power_settings := power;
        settings_menu := commit_all (A := SettingsAction) menu; last_frame := last_frame c |})
  else
    (None,
     {| state := next transition; last_reading := last_reading c;
        pending_radio_settings := radio; pending_power_settings := power;
        settings_menu := menu; last_frame := last_frame c |}).

Definition with_menu (c : DisplayController) (menu : SettingsMenu) : DisplayController :=
  {| state := state c; last_reading := last_reading c;
     pending_radio_settings := pending_radio_settings c;
     pending_power_settings := pending_power_settings c;
     settings_menu := menu; last_frame := last_frame c |}.

(** The command, whether user activity was notified, and the controller. *)
Definition controller_handle_event (c : DisplayController) (event : DisplayLoopEvent)
  : option AppCommand * bool * DisplayController :=
  match event with
  | Reading reading =>
      (None, false,
       {| state := state c; last_reading := Some reading;
          pending_radio_settings := pending_radio_settings c;
          pending_power_settings := pending_power_settings c;
          settings_menu := settings_menu c; last_frame := last_frame c |})
  | NavigationEvent event =>
      let (transition, c) :=
        if in_settings (state c) then
          let (menu_event, menu) :=
            handle_event (A := SettingsAction) (settings_menu c) (menu_event_from_ui_event event) in
          (reduce_settings_menu (state c) (settings_outcome_from_menu_event menu_event),
           with_menu c menu)
        else (reduce_navigation (state c) event, c) in
      let (command, c) := apply_transition c transition in
      (command, true, c)
  | Tick | IgnoreEvent => (None, false, c)
  end.

(** A watched value that differs from the pending one. *)
Definition changed {A} `{EqDecision A} (watched : option A) (pending : A) : option A :=
  match watched with
  | Some settings => if bool_decide (settings <> pending) then Some settings else None
  | None => None
  end.

Definition sync_from_watchers (c : DisplayController) (radio_settings : option RadioSettings)
    (power_settings : option PowerSettings) : option DisplayController :=
  if in_settings (state c) then Some c
  else
    let new_radio := changed radio_settings (pending_radio_settings c) in
    let new_power := changed power_settings (pending_power_settings c) in
    let radio := default (pending_radio_settings c) new_radio in
    let power := default (pending_power_settings c) new_power in
    menu ← (if bool_decide (is_Some new_radio) || bool_decide (is_Some new_power)
            then build_settings_menu radio power else Some (settings_menu c));
    Some {| state := state c; last_reading := last_reading c; pending_radio_settings := radio;
            pending_power_settings := power; settings_menu := menu; last_frame := last_frame c |}.

Definition derive_frame_key (c : DisplayController) (time_secs : option Z) : FrameKey :=
  frame_key (state c) (last_reading c) (pending_radio_settings c) (pending_power_settings c)
    time_secs (menu_selected_index (settings_menu c)) (is_editing (settings_menu c)).
Definition should_render (c : DisplayController) (frame : FrameKey) : bool :=
  negb (bool_decide (Some frame = last_frame c)).
Definition mark_rendered (c : DisplayController) (frame : FrameKey) : DisplayController :=
  {| state := state c; last_reading := last_reading c;
     pending_radio_settings := pending_radio_settings c;
     pending_power_settings := pending_power_settings c;
     settings_menu := settings_menu c; last_frame := Some frame |}.

(** ** The display task ([display.rs])

    One iteration, given what the loop selected, the watches, the OTA
    state, the time and whether drawing succeeds: the command sent, the
    status message or the frame drawn, and the controller. *)
Record inputs := {
  selected : either3;
  radio_watch : option RadioSettings;
  power_watch : option PowerSettings;
  ota_state : option OtaState;
  unix_secs : option Z;
  render_ok : bool
}.
Inductive drawing := Nothing_drawn | Status (message : bytes) | Frame (frame : FrameKey).

Definition display_task_iteration (c : DisplayController) (i : inputs)
  : option (option AppCommand * drawing * DisplayController) :=
  match next_display_loop_event (selected i) with
  | IgnoreEvent => Some (None, Nothing_drawn, c)
  | loop_event =>
      let '(command, _, c) := controller_handle_event c loop_event in
      c ← sync_from_watchers c (radio_watch i) (power_watch i);
      match display_message (default Inactive (ota_state i)) with
      | Some message => Some (command, Status message, c)
      | None =>
          let frame := derive_frame_key c (unix_secs i) in
          if negb (should_render c frame) then Some (command, Nothing_drawn, c)
          else Some (command, Frame frame, if render_ok i then mark_rendered c frame else c)
      end
  end.
End Controller.

(** ** Properties *)

(** *** The rows of the settings menu *)

(** Range and step of the numeric rows, [None] for the Save row. *)
Definition row_specs : list (option (Z * Z * Z)) :=
  [Some (4, 16, 4); Some (0, 7, 1); Some (0, 3, 1); Some (0, 7, 1); Some (0, 1, 1);
   Some (1, 59, 1); Some (5, 180, 1); None].

(** The pending value sits on the grid of its row. *)
Record NumericOk (lo hi s : Z) (i : NumericItem (Unsigned 8)) : Prop := {
  ok_wf : NumericWf i;
  ok_range : (range_min i, range_max i, step i) = (lo, hi, s);
  ok_grid : (s | pending i - lo) /\ (s | hi - lo)
}.
Definition row_ok (spec : option (Z * Z * Z)) (e : Entry) : Prop :=
  match spec, e with
  | Some (lo, hi, s), Numeric i => NumericOk lo hi s i
  | None, Command a => action_item_id a = Save
  | _, _ => False
  end.

Definition row_value (e : Entry) : option Z :=
  match e with Numeric i => Some (pending i) | Command _ => None end.
(** The values the rows show for a pair of settings. *)
Definition shown (r : RadioSettings) (p : PowerSettings) : list (option Z) :=
  [Some (detection_threshold_db r); Some (magn_target r); Some (channel_bandwidth_index r);
   Some (carrier_sense_threshold r); Some (Z.b2z (predictive_sleep_enabled p));
   Some (sleep_duration_secs p); Some (ui_idle_timeout_secs p); None].

Lemma numeric_values lo hi s i : NumericOk lo hi s i ->
  exists k, pending i = lo + k * s /\ lo <= pending i <= hi.
Proof.
  intros [Hwf Hr [[k Hk] _]]. injection Hr as <- <- <-. exists k.
  split; [lia | apply (wf_pending _ Hwf)].
Qed.

Lemma rows_shown (l : list Entry) : Forall2 row_ok row_specs l ->
  exists r p, row_value <$> l = shown r p /\ RadioInBounds r /\ PowerInBounds p.
Proof.
  unfold row_specs. intros Hl.
  repeat match goal with
  | H : Forall2 row_ok (_ :: _) _ |- _ =>
      let e := fresh "e" in let Hr := fresh "Hr" in
      apply Forall2_cons_inv_l in H as (e & ? & Hr & H & ->);
      destruct e as [?i|?a]; cbn [row_ok] in Hr; try contradiction
  | H : Forall2 row_ok [] _ |- _ => apply Forall2_nil_inv_l in H as ->
  end.
  repeat match goal with
  | H : NumericOk _ _ _ _ |- _ =>
      let k := fresh "k" in apply numeric_values in H as (k & ? & ?)
  end.
  exists {| detection_threshold_db := pending i; magn_target := pending i0;
            channel_bandwidth_index := pending i1; carrier_sense_threshold := pending i2 |},
    {| predictive_sleep_enabled := negb (pending i3 =? 0);
       sleep_duration_secs := pending i4; ui_idle_timeout_secs := pending i5 |}.
  split; [|split; [unfold RadioInBounds; cbn; lia | unfold PowerInBounds; cbn; lia]].
  cbn. do 5 f_equal. assert (pending i3 = 0 \/ pending i3 = 1) as [->| ->] by lia; done.
Qed.

(** *** Editing a row *)

Lemma step_grid (op : item_op) lo hi s (i : NumericItem (Unsigned 8)) :
  op = Increment \/ op = Decrement -> NumericOk lo hi s i ->
  exists i', item_step op i = Some i' /\ NumericOk lo hi s i'.
Proof.
  intros Hop [Hwf Hr [Hg Hh]]. destruct (item_step_ref i op Hwf) as (i' & Hs & Hw & Hr' & Hv).
  exists i'. split; [done|]. split; [done | by rewrite Hr'|]. split; [|done].
  injection Hr as Hlo Hhi Hst. rewrite Hlo, Hhi, Hst in Hv.
  pose proof (wf_pending _ Hwf) as Hb. pose proof (wf_step _ Hwf) as Hs0.
  rewrite Hlo, Hhi in Hb. rewrite Hst in Hs0.
  assert (pending i' = hi \/ pending i' = lo \/ pending i' = pending i + s
    \/ pending i' = pending i - s) as Hc.
  { destruct Hop as [-> | ->]; cbn [ref_step] in Hv; injection Hv as -> _; unfold clamp; lia. }
  destruct Hg as [k Hk]. destruct Hc as [->|[->|[->| ->]]]; [done | exists 0; lia | | ].
  - exists (k + 1). lia.
  - exists (k - 1). lia.
Qed.

Section Rows.
#[local] Abbreviation menu_increment := (increment (I := Entry) (A := SettingsAction)).
#[local] Abbreviation menu_decrement := (decrement (I := Entry) (A := SettingsAction)).

Lemma row_increment spec e : row_ok spec e ->
  row_ok spec (menu_increment e).2 /\
  ((menu_increment e).1 = false -> row_value (menu_increment e).2 = row_value e).
Proof.
  destruct spec as [[[lo hi] s]|], e as [i|a]; cbn [row_ok]; try done. intros Hi.
  destruct (step_grid Increment lo hi s i (or_introl eq_refl) Hi) as (i' & [= <-] & Hi').
  split; [exact Hi'|]. cbn. intros Hc. apply negb_false_iff, Z.eqb_eq in Hc. by rewrite Hc.
Qed.

Lemma row_decrement spec e : row_ok spec e ->
  row_ok spec (menu_decrement e).2 /\
  ((menu_decrement e).1 = false -> row_value (menu_decrement e).2 = row_value e).
Proof.
  destruct spec as [[[lo hi] s]|], e as [i|a]; cbn [row_ok]; try done. intros Hi.
  destruct (step_grid Decrement lo hi s i (or_intror eq_refl) Hi) as (i' & [= <-] & Hi').
  split; [exact Hi'|]. cbn. intros Hc. apply negb_false_iff, Z.eqb_eq in Hc. by rewrite Hc.
Qed.

Lemma row_commit spec e : row_ok spec e ->
  row_ok spec (commit (A := SettingsAction) e) /\
  row_value (commit (A := SettingsAction) e) = row_value e.
Proof.
  destruct spec as [[[lo hi] s]|], e as [i|a]; cbn [row_ok]; try done.
  intros [Hwf Hr Hg]. split; [|done]. split; [|done|done]. destruct Hwf as []. by split.
Qed.

(** Replacing the row under the cursor. *)
Lemma rows_edit (l : list Entry) k e e' : Forall2 row_ok row_specs l -> l !! k = Some e ->
  (forall spec, row_ok spec e -> row_ok spec e') -> Forall2 row_ok row_specs (<[k := e']> l).
Proof.
  intros Hl He Hok. destruct (Forall2_lookup_r _ _ _ _ _ Hl He) as (spec & Hs & Hr).
  rewrite <- (list_insert_id row_specs k spec Hs). apply Forall2_insert; auto.
Qed.

Lemma values_edit (l : list Entry) k e e' : l !! k = Some e -> row_value e' = row_value e ->
  row_value <$> <[k := e']> l = row_value <$> l.
Proof.
  intros He Hv. rewrite list_fmap_insert, Hv. apply list_insert_id. by rewrite list_lookup_fmap, He.
Qed.

(** An encoder event keeps the rows on their grids; unless it reports a
    changed value it changes none; and it reports Save only for the Save
    row, which it leaves alone. *)
Lemma event_rows (s : Spec) (e : KaruMenu.UiEvent) :
  Forall2 row_ok row_specs (entries s) ->
  let r := spec_event (A := SettingsAction) s e in
  Forall2 row_ok row_specs (entries r.2) /\
  (settings_outcome_from_menu_event r.1 <> ValueChanged ->
   row_value <$> entries r.2 = row_value <$> entries s).
Proof.
  intros Hl. cbn zeta. unfold spec_event.
  destruct (entries s !! cursor s) as [item|] eqn:Hc; [|done].
  assert (Hturn : forall (f : Entry -> bool * Entry) target,
    (forall spec, row_ok spec item -> row_ok spec (f item).2) ->
    ((f item).1 = false -> row_value (f item).2 = row_value item) ->
    Forall2 row_ok row_specs (entries (spec_turn (A := SettingsAction) f target s item).2) /\
    (settings_outcome_from_menu_event (spec_turn f target s item).1 <> ValueChanged ->
     row_value <$> entries (spec_turn (A := SettingsAction) f target s item).2
     = row_value <$> entries s)).
  { intros f target Hok Hval. unfold spec_turn. destruct (edit s); [|by split].
    cbn [fst snd edit_item entries]. split; [by eapply rows_edit|].
    destruct (f item).1 eqn:Ef; [done|]. intros _. eapply values_edit; eauto. }
  destruct (Forall2_lookup_r _ _ _ _ _ Hl Hc) as (spec0 & _ & Hr0).
  destruct e.
  - apply Hturn; [intros spec Hs; by apply row_increment | by eapply row_increment].
  - apply Hturn; [intros spec Hs; by apply row_decrement | by eapply row_decrement].
  - destruct item as [i|a]; cbn.
    + destruct (edit s); cbn; rewrite list_insert_id by done; by split.
    + by split.
Qed.

(** Save is reported exactly by the push on the last row, which is not
    editable. *)
Lemma save_row (s : Spec) (e : KaruMenu.UiEvent) :
  Forall2 row_ok row_specs (entries s) ->
  let r := spec_event (A := SettingsAction) s e in
  (settings_outcome_from_menu_event r.1 = SaveSelected <->
   e = KaruMenu.Select /\ cursor s = 7%nat) /\
  (settings_outcome_from_menu_event r.1 = SaveSelected ->
   r.2 = s /\ exists a, entries s !! cursor s = Some (Command a)).
Proof.
  intros Hl. cbn zeta.
  assert (Hlast : forall item, entries s !! cursor s = Some item ->
    cursor s = 7%nat <-> exists a, item = Command a /\ action_item_id a = Save).
  { intros item Hc. destruct (Forall2_lookup_r _ _ _ _ _ Hl Hc) as (spec & Hs & Hr).
    destruct (cursor s) as [|[|[|[|[|[|[|[|k]]]]]]]]; cbn in Hs; try done;
      injection Hs as <-; destruct item as [i|a]; cbn in Hr; try done;
      (split; [try done | try done]); [by intros (? & ? & ?) .. |].
    intros _. by exists a. }
  unfold spec_event. destruct (entries s !! cursor s) as [item|] eqn:Hc.
  2:{ split; [split; [done|] | done]. intros [_ H7]. rewrite H7 in Hc.
      apply lookup_ge_None in Hc. apply Forall2_length in Hl. cbn in Hl. lia. }
  specialize (Hlast item eq_refl).
  assert (Hturn : forall (f : Entry -> bool * Entry) target,
    settings_outcome_from_menu_event (spec_turn (A := SettingsAction) f target s item).1
      <> SaveSelected).
  { intros f target. unfold spec_turn, move. destruct (edit s); cbn; [by destruct (f item) as [[] ?]|].
    by case_goal. }
  destruct e; [split; [split; [|naive_solver] |]; intros E; by apply Hturn in E ..|].
  destruct item as [i|[l []]]; cbn.
  - destruct (edit s); cbn; (split; [split; [done|] | done]); intros [_ H7];
      apply Hlast in H7 as (a & ? & _); done.
  - split; [|by eauto]. split; [|done]. intros _. split; [done|]. apply Hlast. eauto.
Qed.
End Rows.

(** *** The controller *)

Section ControllerProperties.
Context {V : Type -> nat -> Type} `{FixedVecLaws V}.
#[local] Abbreviation SettingsMenu := (SettingsMenu (V := V)).
#[local] Abbreviation DisplayController := (DisplayController (V := V)).

Lemma capacity_small : Z.of_nat SETTINGS_MENU_CAPACITY < 2 ^ 31.
Proof. unfold SETTINGS_MENU_CAPACITY. lia. Qed.

(** The menu is well formed, its rows are on their grids, and it shows the
    given settings. *)
Record MenuShows (menu : SettingsMenu) (r : RadioSettings) (p : PowerSettings) : Prop := {
  ms_wf : MenuWf (A := SettingsAction) menu;
  ms_rows : Forall2 row_ok row_specs (vec_list (items menu));
  ms_shown : row_value <$> vec_list (items menu) = shown r p
}.

Lemma value_at menu r p k v : MenuShows menu r p -> shown r p !! k = Some (Some v) ->
  numeric_value_at menu k = Some v.
Proof.
  intros [_ _ Hs] Hk. unfold numeric_value_at. rewrite <- Hs, list_lookup_fmap in Hk.
  destruct (_ !! k) as [[i|a]|]; cbn in Hk; naive_solver.
Qed.

Lemma sync_shown menu r p pending : MenuShows menu r p ->
  sync_pending_from_menu menu pending = (r, p).
Proof.
  intros Hm. unfold sync_pending_from_menu. destruct pending as [r0 p0].
  rewrite (value_at _ _ _ THRESHOLD_ITEM_INDEX _ Hm eq_refl),
    (value_at _ _ _ MAGN_ITEM_INDEX _ Hm eq_refl),
    (value_at _ _ _ BANDWIDTH_ITEM_INDEX _ Hm eq_refl),
    (value_at _ _ _ CARRIER_SENSE_ITEM_INDEX _ Hm eq_refl),
    (value_at _ _ _ PREDICTIVE_SLEEP_ITEM_INDEX _ Hm eq_refl),
    (value_at _ _ _ SLEEP_DURATION_ITEM_INDEX _ Hm eq_refl),
    (value_at _ _ _ UI_IDLE_TIMEOUT_ITEM_INDEX _ Hm eq_refl).
  cbn. destruct r, p as [[] ? ?]; done.
Qed.

Lemma shows_bounds menu r p : MenuShows menu r p -> RadioInBounds r /\ PowerInBounds p.
Proof.
  intros [_ Hr Hs]. destruct (rows_shown _ Hr) as (r' & p' & Hs' & Hrb & Hpb).
  rewrite Hs in Hs'. destruct r, p as [e sl ui], r', p' as [e' sl' ui'].
  unfold shown in Hs'. cbn in Hs'. injection Hs' as -> -> -> -> He -> ->. done.
Qed.

(** Handling an event keeps the menu showing settings: the same ones unless
    a value changed. *)
Lemma menu_event menu r p e : MenuShows menu r p ->
  let '(ev, menu') := handle_event (A := SettingsAction) menu e in
  exists r' p', MenuShows menu' r' p' /\
    (settings_outcome_from_menu_event ev <> ValueChanged -> (r', p') = (r, p)).
Proof.
  intros [Hwf Hrows Hs].
  destruct (event_step capacity_small menu e Hwf) as (H1 & H2 & H3).
  pose proof (event_rows (abs menu) e Hrows) as [Hrows' Hsame].
  rewrite <- H1, <- H2 in Hsame. rewrite <- H2 in Hrows'.
  destruct (handle_event menu e) as [ev menu']. cbn [fst snd] in *.
  destruct (decide (settings_outcome_from_menu_event ev = ValueChanged)) as [Hc|Hc].
  - destruct (rows_shown _ Hrows') as (r' & p' & Hs' & _). exists r', p'. by split.
  - exists r, p. split; [|done]. split; [done | done|].
    rewrite <- Hs. by apply Hsame.
Qed.

Lemma menu_select menu r p k : 0 <= k -> MenuShows menu r p ->
  MenuShows (set_selected menu k).2 r p.
Proof.
  intros Hk [Hwf Hrows Hs].
  destruct (set_selected_step (A := SettingsAction) menu k Hwf Hk) as (_ & Habs & Hwf').
  cbn [menu_step] in *. destruct (set_selected menu k) as [b menu'] eqn:E. cbn [snd] in *.
  assert (vec_list (items menu') = vec_list (items menu)) as Hv.
  { unfold set_selected in E. destruct (select _ k) as [[] vp]; by injection E as _ <-. }
  split; [done | by rewrite Hv | by rewrite Hv].
Qed.

Lemma select_outcome (menu : SettingsMenu) :
  settings_outcome_from_menu_event (handle_event (A := SettingsAction) menu KaruMenu.Select).1
    <> ValueChanged.
Proof.
  unfold handle_event, on_select.
  destruct (is_empty menu); [done|].
  match goal with |- context [get ?m ?k] => destruct (get m k) as [[i|[l []]]|] end;
    destruct (editing menu); done.
Qed.

Lemma menu_reset menu r p : MenuShows menu r p ->
  MenuShows (reset_settings_menu_for_entry menu) r p.
Proof.
  intros Hm. unfold reset_settings_menu_for_entry. apply menu_select; [done|].
  destruct (is_editing menu) eqn:Ee; [|done].
  pose proof (menu_event menu r p KaruMenu.Select Hm) as He.
  destruct (handle_event menu KaruMenu.Select) as [ev menu'] eqn:E.
  destruct He as (r' & p' & Hm' & Hsame).
  pose proof (select_outcome menu) as Hk. rewrite E in Hk.
  injection (Hsame Hk) as -> ->. done.
Qed.

Lemma menu_commit menu r p : MenuShows menu r p ->
  MenuShows (commit_all (A := SettingsAction) menu) r p.
Proof.
  intros [Hwf Hrows Hs]. unfold commit_all. split.
  - apply map_step; [done | apply commit_editable].
  - cbn. rewrite vec_map_list. apply Forall2_fmap_r.
    eapply Forall2_impl; [exact Hrows|]. intros spec e He. by apply row_commit.
  - cbn. rewrite vec_map_list, <- Hs, <- list_fmap_compose. apply list_fmap_ext.
    intros i e He. cbn. destruct (Forall2_lookup_r _ _ _ _ _ Hrows He) as (spec & _ & Hr).
    by eapply row_commit.
Qed.

(** *** Building the menu *)

(** A menu under construction: its rows so far, nothing selected or edited. *)
Record Built (rows : list Entry) (menu : SettingsMenu) : Prop := {
  b_wf : MenuWf (A := SettingsAction) menu;
  b_abs : abs menu = {| entries := rows; cursor := 0; edit := false |}
}.

Lemma built_add rows menu (e : Entry) : Built rows menu ->
  (length rows < SETTINGS_MENU_CAPACITY)%nat -> Built (rows ++ [e]) (add_menu_item menu e).
Proof.
  intros [Hwf Ha] Hroom.
  destruct (add_step (A := SettingsAction) capacity_small menu e Hwf) as (_ & Habs & Hwf').
  cbn [menu_step spec_step] in *. unfold add_menu_item. rewrite Ha in Habs.
  cbn [entries cursor edit] in Habs. rewrite (proj2 (Nat.ltb_lt _ _) Hroom) in Habs.
  destruct (add menu e) as [r m']. by split.
Qed.

Lemma built_numeric rows menu name v lo hi s f : Built rows menu ->
  (length rows < SETTINGS_MENU_CAPACITY)%nat ->
  0 <= lo -> hi <= 255 -> 0 <= s -> lo <= v <= hi -> (s | v - lo) -> (s | hi - lo) ->
  exists menu' i, add_numeric name v lo hi s f menu = Some menu' /\
    Built (rows ++ [Numeric i]) menu' /\ NumericOk lo hi s i /\ pending i = v.
Proof.
  intros Hb Hroom Hlo Hhi Hs Hv Hd Hd'. unfold add_numeric, NumericItem_new, clamp_checked.
  rewrite (proj2 (Z.leb_le _ _)) by lia. cbn [mbind option_bind].
  assert (clamp lo hi v = v) as -> by (unfold clamp; lia).
  eexists _, _. split; [done|]. split; [by apply built_add|]. split; [|done].
  assert (int_min (Unsigned 8) = 0 /\ int_max (Unsigned 8) = 255) as [Hmin Hmax] by done.
  split; [|done|done].
  split; rewrite ?Hmin, ?Hmax; cbn [range_min range_max step pending current]; lia.
Qed.

Ltac built_row :=
  match goal with Hb : Built _ ?m |- context [add_numeric ?n ?v ?lo ?hi ?s ?f ?m] =>
    let menu := fresh "menu" in let i := fresh "i" in let E := fresh "E" in
    let Hb' := fresh "Hb" in let Hi := fresh "Hi" in let Hp := fresh "Hp" in
    destruct (built_numeric _ m n v lo hi s f Hb) as (menu & i & E & Hb' & Hi & Hp);
    [ unfold SETTINGS_MENU_CAPACITY; cbn; lia | lia | lia | lia | lia
    | auto | auto
    | rewrite E; cbn [mbind option_bind]; clear E Hb ]
  end.

(** Building never panics; the new menu shows the settings, with the cursor
    on the first row and no row being edited. *)
Lemma build_shows r p : RadioInBounds r -> PowerInBounds p ->
  exists menu : SettingsMenu, build_settings_menu r p = Some menu /\ MenuShows menu r p /\
    is_editing menu = false.
Proof.
  intros (Ht & Hm & Hc & Hcs) (Hs & Hu). unfold build_settings_menu.
  assert (Built [] (Menu_new (ScrollableViewport_new 128 64))) as Hb.
  { split; [by apply new_wf; [apply with_metrics_wf|]|].
    unfold abs. cbn. by rewrite vec_new_list. }
  set (m0 := Menu_new _) in *. clearbody m0. cbn zeta.
  unfold DETECTION_THRESHOLD_MIN_DB, DETECTION_THRESHOLD_MAX_DB, DETECTION_THRESHOLD_STEP_DB.
  rules.
  assert (0 <= Z.b2z (predictive_sleep_enabled p) <= 1) by (destruct predictive_sleep_enabled; done).
  pose proof Z.divide_1_l as Hone.
  assert (4 | detection_threshold_db r - 4) as Hgrid.
  { by destruct Ht as [->|[->|[->| ->]]]; [exists 0|exists 1|exists 2|exists 3]. }
  assert (4 | 16 - 4) as Hfour by (by exists 3).
  do 7 built_row.
  eexists. split; [done|].
  match goal with Hb : Built _ _ |- _ =>
    eapply built_add in Hb as [Hw Ha]; [|unfold SETTINGS_MENU_CAPACITY; cbn; lia]
  end.
  pose proof (f_equal entries Ha) as Hrows. cbn in Hrows.
  split; [|exact (f_equal edit Ha)]. split; [exact Hw | |].
  - rewrite Hrows. unfold row_specs. repeat apply Forall2_cons_2; try apply Forall2_nil_2; done.
  - rewrite Hrows. cbn. unfold shown. congruence.
Qed.

(** *** The invariant of the controller *)

(** The menu shows the pending settings, and no row is being edited outside
    the settings screen. *)
Record Consistent (c : DisplayController) : Prop := {
  con_shows : MenuShows (settings_menu c) (pending_radio_settings c) (pending_power_settings c);
  con_edit : in_settings (state c) = false -> is_editing (settings_menu c) = false
}.

Definition watched_ok (radio : option RadioSettings) (power : option PowerSettings) : Prop :=
  (forall r, radio = Some r -> RadioInBounds r) /\ (forall p, power = Some p -> PowerInBounds p).

Lemma new_consistent radio power : watched_ok radio power ->
  exists c, DisplayController_new radio power = Some c /\ Consistent c.
Proof.
  intros [Hr Hp]. unfold DisplayController_new.
  destruct (build_shows (default DEFAULT_RADIO_SETTINGS radio)
    (default DEFAULT_POWER_SETTINGS power)) as (menu & E & Hm & He).
  { destruct radio; [by apply Hr | apply default_in_bounds]. }
  { destruct power; [by apply Hp | apply default_in_bounds]. }
  rewrite E. cbn [mbind option_bind]. rewrite (sync_shown _ _ _ _ Hm).
  eexists. split; [done|]. by split.
Qed.

Lemma changed_pending {A} `{EqDecision A} (watched : option A) (pending : A) :
  default pending (changed watched pending) = default pending watched.
Proof.
  unfold changed. destruct watched as [x|]; [|done]. case_bool_decide as Hx; [done|].
  cbn. by destruct (decide (x = pending)) as [->|].
Qed.

Lemma sync_consistent c radio power : watched_ok radio power -> Consistent c ->
  exists c', sync_from_watchers c radio power = Some c' /\ Consistent c' /\
    state c' = state c /\ (in_settings (state c) = true -> c' = c) /\
    (in_settings (state c) = false ->
     pending_radio_settings c' = default (pending_radio_settings c) radio /\
     pending_power_settings c' = default (pending_power_settings c) power).
Proof.
  intros [Hr Hp] Hc. destruct (shows_bounds _ _ _ (con_shows _ Hc)) as [Hbr Hbp].
  unfold sync_from_watchers. destruct (in_settings (state c)) eqn:Es.
  { exists c. done. }
  rewrite !changed_pending.
  destruct (bool_decide (is_Some (changed radio _)) || bool_decide (is_Some (changed power _)))
    eqn:Eb.
  - destruct (build_shows (default (pending_radio_settings c) radio)
      (default (pending_power_settings c) power)) as (menu & E & Hm & He).
    { destruct radio; [by apply Hr | done]. }
    { destruct power; [by apply Hp | done]. }
    rewrite E. eexists. split; [reflexivity|]. split; [split; [exact Hm | intros _; exact He]|].
    split; [reflexivity|]. split; [discriminate | intros _; split; reflexivity].
  - apply orb_false_iff in Eb as [E1 E2]. apply bool_decide_eq_false_1 in E1, E2.
    apply eq_None_not_Some in E1, E2.
    pose proof (changed_pending radio (pending_radio_settings c)) as K1.
    pose proof (changed_pending power (pending_power_settings c)) as K2.
    rewrite E1 in K1. rewrite E2 in K2. rewrite <- K1, <- K2. cbn.
    eexists. split; [reflexivity|]. split; [by destruct Hc|].
    split; [reflexivity|]. split; [discriminate | intros _; by split].
Qed.

Definition saves (c : DisplayController) (e : DisplayLoopEvent) : Prop :=
  in_settings (state c) = true /\ e = NavigationEvent Select /\
  menu_selected_index (settings_menu c) = 7.

(** The screen the reducers lead to; in Settings only Save leaves. *)
Definition screen_after (c : DisplayController) (e : DisplayLoopEvent) (saved : bool)
  : DisplayState :=
  match e with
  | NavigationEvent ev =>
      if in_settings (state c) then if saved then Radio Overview else state c
      else next (reduce_navigation (state c) ev)
  | _ => state c
  end.

(** A menu event on the settings screen. *)
Lemma settings_event c ev : Consistent c -> in_settings (state c) = true ->
  let '(command, _, c') := controller_handle_event c (NavigationEvent ev) in
  Consistent c' /\ last_frame c' = last_frame c /\
  (command = None /\ ~ saves c (NavigationEvent ev) /\ state c' = state c \/
   command = Some (ApplySettings (pending_radio_settings c) (pending_power_settings c)) /\
   saves c (NavigationEvent ev) /\ state c' = Radio Overview /\
   pending_radio_settings c' = pending_radio_settings c /\
   pending_power_settings c' = pending_power_settings c).
Proof.
  intros [Hm _] Hs. unfold controller_handle_event. rewrite Hs.
  pose proof (menu_event _ _ _ (menu_event_from_ui_event ev) Hm) as Hev.
  destruct (event_step capacity_small (settings_menu c) (menu_event_from_ui_event ev)
    (ms_wf _ _ _ Hm)) as (H1 & H2 & H3).
  destruct (save_row (abs (settings_menu c)) (menu_event_from_ui_event ev) (ms_rows _ _ _ Hm))
    as [Hsave Hkeep].
  rewrite <- H1 in Hsave, Hkeep. rewrite <- H2 in Hkeep.
  destruct (handle_event _ (menu_event_from_ui_event ev)) as [e menu].
  destruct Hev as (r' & p' & Hm' & Hsame). cbn [fst snd] in *.
  assert (Hsv : saves c (NavigationEvent ev) <->
    settings_outcome_from_menu_event e = SaveSelected).
  { rewrite Hsave. unfold saves. pose proof (cursor_bounds _ (ms_wf _ _ _ Hm)) as (Hz & _).
    split.
    - intros (_ & [= ->] & H7). split; [done|]. cbn. unfold menu_selected_index in H7. lia.
    - intros [He H7]. destruct ev; try done. split; [done|]. split; [done|].
      cbn in H7. unfold menu_selected_index. lia. }
  unfold reduce_settings_menu. rewrite Hs. cbn [negb].
  destruct (settings_outcome_from_menu_event e) eqn:Eo;
    unfold apply_transition; cbn -[sync_pending_from_menu clamp_radio_config clamp_power_config]; rewrite ?(sync_shown _ _ _ _ Hm').
  - injection (Hsame ltac:(done)) as -> ->. split; [split; cbn; [done|]|].
    { intros Hn. congruence. }
    split; [done|]. left. split; [done|]. by rewrite Hsv.
  - split; [split; cbn; [done|]|]. { intros Hn. congruence. }
    split; [done|]. left. split; [done|]. by rewrite Hsv.
  - injection (Hsame ltac:(done)) as -> ->.
    destruct (shows_bounds _ _ _ Hm') as [Hbr Hbp].
    rewrite (clamp_radio_fixed _ Hbr), (clamp_power_fixed _ Hbp).
    split; [split; cbn; [by apply menu_commit|]|].
    + intros _. unfold is_editing. cbn. destruct (Hkeep eq_refl) as [Ha [a Hlast]].
      destruct (editing menu) eqn:Ed; [|done]. exfalso.
      destruct (menu_editing _ (ms_wf _ _ _ Hm') Ed) as (x & Hx & Hxe).
      rewrite get_cursor, Ha, Hlast in Hx. injection Hx as <-. by destruct a.
    + split; [done|]. right. by rewrite Hsv.
Qed.

(** Away from the settings screen no command is emitted; entering it puts
    the cursor on the first row. *)
Lemma other_event c e : Consistent c ->
  (forall ev, e = NavigationEvent ev -> in_settings (state c) = false) ->
  let '(command, _, c') := controller_handle_event c e in
  Consistent c' /\ command = None /\ state c' = screen_after c e false /\
  pending_radio_settings c' = pending_radio_settings c /\
  pending_power_settings c' = pending_power_settings c /\
  last_frame c' = last_frame c /\
  (in_settings (state c) = false -> in_settings (state c') = true ->
   menu_selected_index (settings_menu c') = 0 /\ is_editing (settings_menu c') = false).
Proof.
  intros [Hm He] Hev. destruct e as [r|ev| |]; cbn.
  1, 3, 4: by (split; [by split|]); split_and!; try done; intros; congruence.
  specialize (Hev ev eq_refl). rewrite Hev. specialize (He Hev).
  destruct (set_selected_step (A := SettingsAction) (settings_menu c) 0 (ms_wf _ _ _ Hm)
    ltac:(done)) as (_ & Habs & _).
  cbn [menu_step spec_step] in Habs.
  assert (Hreset : MenuShows (reset_settings_menu_for_entry (settings_menu c))
      (pending_radio_settings c) (pending_power_settings c) /\
    menu_selected_index (reset_settings_menu_for_entry (settings_menu c)) = 0 /\
    is_editing (reset_settings_menu_for_entry (settings_menu c)) = false).
  { pose proof (menu_reset _ _ _ Hm) as Hr. split; [exact Hr|].
    unfold reset_settings_menu_for_entry in *. rewrite He in *.
    pose proof (cursor_bounds _ (ms_wf _ _ _ Hr)) as (Hz & _).
    destruct (set_selected (settings_menu c) 0) as [b m']. cbn [fst snd] in *.
    pose proof (f_equal cursor Habs) as Hc. pose proof (f_equal edit Habs) as Hd.
    unfold move in Hc, Hd. cbn in Hc, Hd. unfold menu_selected_index, is_editing in *.
    destruct (negb _) eqn:Eb in Hc, Hd; cbn in Hc, Hd; [split; [lia | done]|].
    apply negb_false_iff, Nat.eqb_eq in Eb. split; [lia | congruence]. }
  destruct Hreset as (Hr1 & Hr2 & Hr3).
  unfold apply_transition, reduce_navigation.
  destruct (state c) as [|[]]; cbn in Hev; try done;
    destruct ev; cbn -[reset_settings_menu_for_entry]; (split; [by split|]);
    split_and!; try done; intros; by split.
Qed.

(** *** Runs of the display task *)

Definition loop_event (i : inputs) : DisplayLoopEvent := next_display_loop_event (selected i).
Definition watches_ok (i : inputs) : Prop := watched_ok (radio_watch i) (power_watch i).
#[local] Abbreviation iteration := (display_task_iteration (V := V)).

(** What an event does to a consistent controller, in one statement. *)
Record Handled (c : DisplayController) (e : DisplayLoopEvent) (command : option AppCommand)
    (c' : DisplayController) : Prop := {
  h_consistent : Consistent c';
  h_frame : last_frame c' = last_frame c;
  h_command : command = None /\ ~ saves c e /\ state c' = screen_after c e false \/
    command = Some (ApplySettings (pending_radio_settings c) (pending_power_settings c)) /\
    saves c e /\ state c' = screen_after c e true;
  h_pending : (in_settings (state c) = false \/ saves c e) ->
    pending_radio_settings c' = pending_radio_settings c /\
    pending_power_settings c' = pending_power_settings c;
  h_entry : in_settings (state c) = false -> in_settings (state c') = true ->
    menu_selected_index (settings_menu c') = 0 /\ is_editing (settings_menu c') = false
}.

Lemma handled c e : Consistent c ->
  let '(command, _, c') := controller_handle_event c e in Handled c e command c'.
Proof.
  intros Hc.
  assert (Hother : (forall ev, e = NavigationEvent ev -> in_settings (state c) = false) ->
    let '(command, _, c') := controller_handle_event c e in Handled c e command c').
  { intros He. pose proof (other_event c e Hc He) as Ho.
    destruct (controller_handle_event c e) as [[command active] c'].
    destruct Ho as (H1 & H2 & H3 & H4 & H5 & H6 & H7).
    split; [done | done | left | by intros _ | done].
    split; [done|]. split; [|done]. intros (Hs & -> & _). by rewrite (He _ eq_refl) in Hs. }
  destruct e as [r|ev| |]; try (apply Hother; discriminate).
  destruct (in_settings (state c)) eqn:Es; [|apply Hother; by intros].
  pose proof (settings_event c ev Hc Es) as Hs.
  destruct (controller_handle_event c (NavigationEvent ev)) as [[command active] c'].
  destruct Hs as (H1 & H2 & Hcases).
  split; [done | done | | | congruence]; unfold screen_after; rewrite ?Es.
  - destruct Hcases as [(?&?&?)|(?&?&?&_)]; [by left | by right].
  - intros [?|Hsave]; [done|]. destruct Hcases as [(_ & Hn & _)|(_ & _ & _ & Hp)]; [done|exact Hp].
Qed.

(** One iteration: the event, then the watches, then the screen. *)
Lemma iteration_spec c i : Consistent c -> watches_ok i -> loop_event i <> IgnoreEvent ->
  exists command c1 c2,
    Handled c (loop_event i) command c1 /\ c1 = (controller_handle_event c (loop_event i)).2 /\
    sync_from_watchers c1 (radio_watch i) (power_watch i) = Some c2 /\ Consistent c2 /\
    state c2 = state c1 /\ last_frame c2 = last_frame c /\
    (in_settings (state c1) = true -> c2 = c1) /\
    (in_settings (state c1) = false ->
     pending_radio_settings c2 = default (pending_radio_settings c1) (radio_watch i) /\
     pending_power_settings c2 = default (pending_power_settings c1) (power_watch i)) /\
    iteration c i = Some
      match display_message (default Inactive (ota_state i)) with
      | Some message => (command, Status message, c2)
      | None =>
          let frame := derive_frame_key c2 (unix_secs i) in
          if negb (should_render c2 frame) then (command, Nothing_drawn, c2)
          else (command, Frame frame, if render_ok i then mark_rendered c2 frame else c2)
      end.
Proof.
  intros Hc Hw He. pose proof (handled c (loop_event i) Hc) as Hh.
  destruct (controller_handle_event c (loop_event i)) as [[command active] c1] eqn:Ec.
  destruct (sync_consistent c1 _ _ Hw (h_consistent _ _ _ _ Hh))
    as (c2 & Hs & Hc2 & Hst & Hin & Hout).
  assert (last_frame c2 = last_frame c) as Hlf.
  { rewrite <- (h_frame _ _ _ _ Hh). unfold sync_from_watchers in Hs.
    destruct (in_settings (state c1)); [by injection Hs as <-|].
    destruct (if (_ : bool) then _ else _) in Hs; [|discriminate]. by injection Hs as <-. }
  exists command, c1, c2. split; [done|]. split; [reflexivity|]. do 6 (split; [assumption|]).
  unfold display_task_iteration. fold (loop_event i).
  clear Hh. revert He Ec. destruct (loop_event i); intros He Ec; try done;
    rewrite Ec, Hs; cbn [mbind option_bind];
    destruct (display_message _); try reflexivity; cbn zeta; by destruct (negb _).
Qed.

(** Drawing changes nothing but the remembered frame. *)
Lemma drawn (message : option bytes) (frame : FrameKey) (stale ok : bool)
    (command command' : option AppCommand) d (c2 c' : DisplayController) :
  Some match message with
       | Some m => (command, Status m, c2)
       | None =>
           if negb stale then (command, Nothing_drawn, c2)
           else (command, Frame frame, if ok then mark_rendered c2 frame else c2)
       end = Some (command', d, c') ->
  command' = command /\ (c' = c2 \/ exists f, c' = mark_rendered c2 f).
Proof.
  destruct message, stale, ok; cbn; intros [= <- _ <-]; eauto.
Qed.

(** The controllers the task can reach when the watches only ever hold valid
    settings. *)
Inductive reachable : DisplayController -> Prop :=
| reach_new radio power c :
    watched_ok radio power -> DisplayController_new radio power = Some c -> reachable c
| reach_step c i command d c' :
    reachable c -> watches_ok i -> iteration c i = Some (command, d, c') -> reachable c'.

Lemma rendered_consistent c frame : Consistent c -> Consistent (mark_rendered c frame).
Proof. intros [? ?]. by split. Qed.

Lemma reachable_consistent c : reachable c -> Consistent c.
Proof.
  induction 1 as [radio power c Hw E | c i command d c' _ IH Hw E].
  - destruct (new_consistent radio power Hw) as (c' & E' & Hc). congruence.
  - destruct (decide (loop_event i = IgnoreEvent)) as [He|He].
    { unfold display_task_iteration in E. unfold loop_event in He. rewrite He in E.
      by injection E as _ _ <-. }
    destruct (iteration_spec c i IH Hw He) as (cmd & c1 & c2 & _ & _ & _ & Hc2 & _ & _ & _ & _ & E').
    rewrite E' in E. clear E'. apply drawn in E as [_ [->|[f ->]]]; [done|].
    by apply rendered_consistent.
Qed.

(** C19: what you see is what is saved. For every controller the display task
    can reach, no iteration panics, and it sends a command exactly when the
    event is the push on the Save row of the settings screen. That command
    carries the pending settings, which are the values the menu rows show,
    every one of them inside its bounds. *)
Theorem settings_wysiwyg c i (Hr : reachable c) (Hw : watches_ok i) :
  let r := pending_radio_settings c in
  let p := pending_power_settings c in
  row_value <$> vec_list (items (settings_menu c)) = shown r p /\
  RadioInBounds r /\ PowerInBounds p /\
  exists command d c', iteration c i = Some (command, d, c') /\
    (saves c (loop_event i) -> command = Some (ApplySettings r p)) /\
    (~ saves c (loop_event i) -> command = None).
Proof.
  cbn zeta. apply reachable_consistent in Hr as Hc. pose proof (con_shows _ Hc) as Hm.
  destruct (shows_bounds _ _ _ Hm) as [Hbr Hbp]. do 3 (split; [by destruct Hm|]).
  destruct (decide (loop_event i = IgnoreEvent)) as [He|He].
  { unfold display_task_iteration. fold (loop_event i). rewrite He.
    eexists _, _, _. split; [reflexivity|]. split; [by intros (_ & ? & _) | done]. }
  destruct (iteration_spec c i Hc Hw He) as (cmd & c1 & c2 & Hh & _ & _ & _ & _ & _ & _ & _ & ->).
  pose proof (h_command _ _ _ _ Hh) as Hcmd.
  exists cmd. destruct (display_message _); [|cbn zeta; destruct (negb _)];
    eexists _, _; (split; [reflexivity|]);
    destruct Hcmd as [(-> & Hn & _)|(-> & Hs & _)]; by split.
Qed.

(** the screens. The task follows the navigation reducer; the settings
    screen is left by Save and by nothing else, and while it stays open no
    watched value touches the edited settings; entering it puts the cursor
    on the first row with no row in edit mode; everywhere else the
    controller ends every iteration holding what the watches hold. *)
Theorem screen_flow c i command d c' (Hr : reachable c) (Hw : watches_ok i)
    (He : loop_event i <> IgnoreEvent) (Hrun : iteration c i = Some (command, d, c')) :
  state c' = screen_after c (loop_event i) (bool_decide (is_Some command)) /\
  (in_settings (state c) = true -> in_settings (state c') = false -> is_Some command) /\
  (in_settings (state c) = false -> in_settings (state c') = true ->
   menu_selected_index (settings_menu c') = 0 /\ is_editing (settings_menu c') = false /\
   pending_radio_settings c' = pending_radio_settings c /\
   pending_power_settings c' = pending_power_settings c) /\
  (in_settings (state c') = true ->
   c' = (controller_handle_event c (loop_event i)).2 \/
   exists frame, c' = mark_rendered (controller_handle_event c (loop_event i)).2 frame) /\
  (in_settings (state c') = false ->
   pending_radio_settings c' = default (pending_radio_settings c) (radio_watch i) /\
   pending_power_settings c' = default (pending_power_settings c) (power_watch i)).
Proof.
  apply reachable_consistent in Hr as Hc.
  destruct (iteration_spec c i Hc Hw He)
    as (cmd & c1 & c2 & Hh & H1 & _ & _ & Hst & _ & Hin & Hout & E).
  rewrite E in Hrun. clear E. apply drawn in Hrun as [-> Hcase].
  rewrite <- H1. clear H1.
  assert (state c' = state c1 /\ settings_menu c' = settings_menu c2 /\
    pending_radio_settings c' = pending_radio_settings c2 /\
    pending_power_settings c' = pending_power_settings c2) as (Es & Em & Epr & Epp).
  { rewrite <- Hst. by destruct Hcase as [->|[f ->]]. }
  rewrite Es, Em, Epr, Epp. clear Es Em Epr Epp Hst.
  assert (Hleft : in_settings (state c) = false \/ in_settings (state c1) = false ->
    in_settings (state c) = false \/ saves c (loop_event i)).
  { intros [?|Hf]; [by left|]. destruct (in_settings (state c)) eqn:Es; [|by left]. right.
    destruct (h_command _ _ _ _ Hh) as [(_ & _ & Hs)|(_ & Hs & _)]; [|done].
    rewrite Hs in Hf. unfold screen_after in Hf. rewrite Es in Hf.
    destruct (loop_event i); cbn in Hf; congruence. }
  split_and!.
  - by destruct (h_command _ _ _ _ Hh) as [(-> & _ & ->)|(-> & _ & ->)].
  - intros Hs Hf. destruct (h_command _ _ _ _ Hh) as [(_ & Hn & _)|(-> & _)]; [|by eexists].
    destruct (Hleft (or_intror Hf)); [congruence | done].
  - intros Hf Hs. rewrite (Hin Hs). destruct (h_entry _ _ _ _ Hh Hf Hs) as [? ?].
    destruct (h_pending _ _ _ _ Hh (or_introl Hf)) as [? ?]. done.
  - intros Hs. rewrite (Hin Hs) in Hcase. done.
  - intros Hf. destruct (Hout Hf) as [-> ->].
    by destruct (h_pending _ _ _ _ Hh (Hleft (or_intror Hf))) as [-> ->].
Qed.

(** What the panel holds after a drawing: a failed one leaves it unknown. *)
Definition panel_after (panel : option drawing) (d : drawing) (ok : bool) : option drawing :=
  match d with Nothing_drawn => panel | _ => if ok then Some d else None end.

(** the panel is current. Outside an update, when drawing succeeds and the
    panel held the last rendered frame, it holds the frame of the new state
    afterwards, drawn exactly when it differs from the old one; a drawing
    that fails is not remembered. *)
Theorem redraw_spec c i command d c' (panel : option drawing) (Hr : reachable c)
    (Hw : watches_ok i) (He : loop_event i <> IgnoreEvent)
    (Ho : display_message (default Inactive (ota_state i)) = None)
    (Hrun : iteration c i = Some (command, d, c'))
    (Hp : forall f, last_frame c = Some f -> panel = Some (Frame f)) :
  let frame := derive_frame_key c' (unix_secs i) in
  (d = Nothing_drawn <-> last_frame c = Some frame) /\
  (d <> Nothing_drawn -> d = Frame frame) /\
  (render_ok i = true ->
   panel_after panel d true = Some (Frame frame) /\ last_frame c' = Some frame) /\
  (render_ok i = false -> last_frame c' = last_frame c).
Proof.
  apply reachable_consistent in Hr as Hc. cbn zeta.
  destruct (iteration_spec c i Hc Hw He)
    as (cmd & c1 & c2 & _ & _ & _ & _ & _ & Hlf & _ & _ & E).
  rewrite E in Hrun. clear E. rewrite Ho in Hrun. cbn zeta in Hrun.
  assert (Hkey : forall f, derive_frame_key (mark_rendered c2 f) (unix_secs i)
    = derive_frame_key c2 (unix_secs i)) by done.
  unfold should_render in Hrun. rewrite negb_involutive, Hlf in Hrun.
  case_bool_decide as Hsame; injection Hrun as <- <- <-.
  - rewrite Hlf, <- Hsame. split; [done|]. split; [done|]. split; [|done].
    intros _. split; [by apply Hp | done].
  - destruct (render_ok i); rewrite ?Hkey; (split; [split; [done | congruence]|]);
      (split; [done|]); by split.
Qed.
End ControllerProperties.

(** ** Concrete runs *)
Module Sample.
Definition start : option (DisplayController (V := Heapless.bounded)) := DisplayController_new None None.
Definition input (selected : either3) (ota : OtaState) (ok : bool) : inputs :=
  {| selected := selected; radio_watch := Some DEFAULT_RADIO_SETTINGS; power_watch := None;
     ota_state := Some ota; unix_secs := None; render_ok := ok |}.
Definition turn (e : UiEvent) : inputs := input (Second (UiInput (Navigation e))) Inactive true.
Fixpoint session (c : DisplayController (V := Heapless.bounded)) (l : list inputs)
  : option (DisplayController (V := Heapless.bounded)) :=
  match l with
  | [] => Some c
  | i :: l => '(_, _, c) ← display_task_iteration c i; session c l
  end.
Fixpoint drawings (c : DisplayController (V := Heapless.bounded)) (l : list inputs)
  : option (list drawing) :=
  match l with
  | [] => Some []
  | i :: l => '(_, d, c) ← display_task_iteration c i; ds ← drawings c l; Some (d :: ds)
  end.
(** Open the settings, raise the threshold and go down to Save. *)
Definition editing : list UiEvent :=
  Select :: Select :: NextScreen :: Select :: replicate 7 NextScreen.
Definition blank : DisplayController (V := Heapless.bounded) :=
  {| state := Main; last_reading := None; pending_radio_settings := DEFAULT_RADIO_SETTINGS;
     pending_power_settings := DEFAULT_POWER_SETTINGS;
     settings_menu := Menu_new (ScrollableViewport_new 128 64); last_frame := None |}.
Definition run (l : list inputs) : option (DisplayController (V := Heapless.bounded)) :=
  c ← start; session c l.
Definition after (l : list inputs) : DisplayController (V := Heapless.bounded) :=
  default blank (run l).
Definition is_some {A} (o : option A) : bool := match o with Some _ => true | None => false end.

Lemma input_ok selected ota ok : watches_ok (input selected ota ok).
Proof.
  split; cbn; [|done]. intros r [= <-]. apply default_in_bounds.
Qed.

Lemma session_reachable l c c' : Forall watches_ok l -> reachable c -> session c l = Some c' ->
  reachable c'.
Proof.
  intros Hl. revert c. induction Hl as [|i l Hi _ IH]; intros c Hc; [by intros [= <-]|]. cbn.
  destruct (display_task_iteration c i) as [[[cmd d] c1]|] eqn:E; [|done]. cbn.
  apply IH. by eapply reach_step.
Qed.

Lemma after_reachable l : Forall watches_ok l -> is_some (run l) = true -> reachable (after l).
Proof.
  intros Hl Hs. unfold after. destruct (run l) as [c|] eqn:E; [|done]. cbn.
  unfold run in E. destruct start as [c0|] eqn:E0; [|done].
  apply (session_reachable l c0 c Hl); [|exact E].
  apply (reach_new None None); [by split | exact E0].
Qed.

Lemma turns_ok (l : list UiEvent) : Forall watches_ok (turn <$> l).
Proof. apply Forall_fmap, Forall_true. intros e. apply input_ok. Qed.

Lemma at_save_reachable : reachable (after (turn <$> editing)).
Proof. apply after_reachable; [apply turns_ok | vm_compute; reflexivity]. Qed.

Lemma settings_wysiwyg_witness :
  (exists command d c', display_task_iteration (after (turn <$> editing)) (turn Select)
      = Some (command, d, c') /\
    command = Some (ApplySettings (pending_radio_settings (after (turn <$> editing)))
      (pending_power_settings (after (turn <$> editing))))) /\
  detection_threshold_db (pending_radio_settings (after (turn <$> editing))) = 8.
Proof.
  split; [|vm_compute; reflexivity].
  destruct (settings_wysiwyg (after (turn <$> editing)) (turn Select) at_save_reachable
    (input_ok _ _ _)) as (_ & _ & _ & command & d & c' & E & Hs & _).
  exists command, d, c'. split; [exact E|]. apply Hs.
  split; [vm_compute; reflexivity|]. split; [reflexivity | vm_compute; reflexivity].
Defined.

(** An iteration runs, and what a function of its controller evaluates to. *)
Lemma iterates {B} (o : option (option AppCommand * drawing
    * DisplayController (V := Heapless.bounded))) (f : _ -> B) (b : B) :
  (match o with Some (_, _, c) => Some (f c) | None => None end) = Some b ->
  exists command d c, o = Some (command, d, c) /\ f c = b.
Proof. destruct o as [[[command d] c]|]; [|done]. intros [= <-]. eauto. Qed.

Lemma after_one e : reachable (after (turn <$> [e])).
Proof. apply after_reachable; [apply turns_ok | destruct e; vm_compute; reflexivity]. Qed.

(** Entering the settings from the overview. *)
Lemma screen_flow_witness :
  exists command d c', display_task_iteration (after (turn <$> [NextScreen])) (turn Select)
    = Some (command, d, c') /\
  menu_selected_index (settings_menu c') = 0 /\ is_editing (settings_menu c') = false.
Proof.
  assert (Ho : in_settings (state (after (turn <$> [NextScreen]))) = false)
    by (vm_compute; reflexivity).
  destruct (iterates (display_task_iteration (after (turn <$> [NextScreen])) (turn Select))
    (fun c => in_settings (state c)) true) as (command & d & c' & E & Hs).
  { vm_compute. reflexivity. }
  exists command, d, c'. split; [exact E|].
  destruct (screen_flow _ (turn Select) command d c' (after_one NextScreen) (input_ok _ _ _)
    ltac:(discriminate) E) as (_ & _ & Hin & _).
  destruct (Hin Ho Hs) as (H1 & H2 & _). split; [exact H1 | exact H2].
Defined.

(** The first frame of the overview. *)
Lemma redraw_spec_witness :
  exists command c', display_task_iteration (after []) (turn NextScreen)
    = Some (command, Frame (derive_frame_key c' None), c') /\
  last_frame c' = Some (derive_frame_key c' None).
Proof.
  assert (Hr : reachable (after [])).
  { apply after_reachable; [constructor | vm_compute; reflexivity]. }
  assert (Hn : last_frame (after []) = None) by (vm_compute; reflexivity).
  destruct (iterates (display_task_iteration (after []) (turn NextScreen)) (fun _ => tt) tt)
    as (command & d & c' & E & _).
  { vm_compute. reflexivity. }
  destruct (redraw_spec _ (turn NextScreen) command d c' None Hr (input_ok _ _ _)
    ltac:(discriminate) eq_refl E) as (Hd & Hf & Hok & _).
  { intros f Hl. rewrite Hn in Hl. discriminate. }
  destruct (Hok eq_refl) as [_ Hlast]. exists command, c'.
  split; [|exact Hlast]. rewrite E. f_equal. f_equal. f_equal. apply Hf. intros Hno.
  apply Hd in Hno. rewrite Hn in Hno. discriminate.
Defined.

(** A status message is not remembered as a frame: when an update ends
    without anything else on the screen having changed, the message stays
    on the panel. *)
Example stale_status :
  (c ← start; drawings c [input Third Inactive true; input Third Downloading true;
                          input Third Inactive true; input Third Inactive true])
  = Some [Frame WaitingFrame; Status (lit "OTA download..."); Nothing_drawn; Nothing_drawn].
Proof. vm_compute. reflexivity. Qed.
End Sample.
