(* ===== verification/Panel.v ===== *)
(** * The panel

    [firmware/src/display_driver.rs]: what the driver draws for each screen, on
    the canvas of the graphics crates, and the loop of [tasks/display.rs] with
    its drawing. The canvas collects strokes, in the order they are drawn since
    it was last cleared; the panel shows what was flushed to it last. A driver's
    operation is a function on the panel; drawing and flushing can fail. *)
From S2P Require Import Prelude Str Heapless ConfigRules Messages F32 Rubicson KaruMenu OtaTasks Settings Bus EuDst TimeSync Publish Display.

Inductive DisplayError := I2c | InitFailed | DrawFailed.
Inductive font := PROFONT_10_POINT | PROFONT_14_POINT | PROFONT_24_POINT.
Inductive Alignment := AlignLeft | AlignCenter | AlignRight.

(** What the driver asks the canvas for: a text at a point and a filled
    rectangle. *)
Inductive stroke :=
| TextAt (style : font) (alignment : Alignment) (x y : Z) (text : bytes)
| FillRect (x y w h : Z).

(** The display crate: initialisation, the canvas and the flush. *)
Class Panel (P : Type) := {
  panel_init : P -> result unit unit * P;
  canvas_clear : P -> P;
  canvas_draw : stroke -> P -> result unit unit * P;
  canvas_flush : P -> result unit unit * P
}.
Class PanelLaws (P : Type) `{Panel P} := {
  canvas : P -> list stroke;
  glass : P -> option (list stroke);
  clear_empties p : canvas (canvas_clear p) = [] /\ glass (canvas_clear p) = glass p;
  draw_adds s p p' : canvas_draw s p = (Ok tt, p') -> canvas p' = canvas p ++ [s] /\ glass p' = glass p;
  flush_shows p p' : canvas_flush p = (Ok tt, p') -> glass p' = Some (canvas p)
}.

(** ** The driver *)

Section Driver.
Context {P : Type} `{Panel P}.

Definition Drawing : Type := P -> result DisplayError unit * P.
Definition then_ (m k : Drawing) : Drawing := fun p =>
  match m p with (Ok _, p) => k p | (Err e, p) => (Err e, p) end.
Local Infix ">>" := then_ (at level 55, right associativity).
Definition done_ : Drawing := fun p => (Ok tt, p).

Definition Sh1106Display_new (p : P) : result DisplayError unit * P :=
  match panel_init p with
  | (Err _, p) => (Err InitFailed, p)
  | (Ok _, p) => let (flushed, p) := canvas_flush (canvas_clear p) in (map_err (fun _ => I2c) flushed, p)
  end.
Definition setup_sh1106_display : P -> result DisplayError unit * P := Sh1106Display_new.

Definition clear : Drawing := fun p => (Ok tt, canvas_clear p).
Definition flush : Drawing := fun p => let (flushed, p) := canvas_flush p in (map_err (fun _ => I2c) flushed, p).
(** [.draw(canvas).map_err(|_| DrawFailed)]. *)
Definition draw (s : stroke) : Drawing := fun p =>
  let (drawn, p) := canvas_draw s p in (map_err (fun _ => DrawFailed) drawn, p).

(** The texts of the main screen. The number is written in one piece: one that
    a packet can hold always fits. *)
Definition temp_str (temperature_c : f32) : bytes := written 16 [] [show_tenths temperature_c; lit "C"].
Definition info_str (sensor_id channel : Z) : bytes :=
  written 32 [] [lit "S"; dec sensor_id; lit " Ch"; dec channel].
Definition show_temperature (temperature_c : f32) (sensor_id channel : Z) (battery_ok : bool) (timestamp : option bytes) : Drawing :=
  clear >>
  draw (TextAt PROFONT_24_POINT AlignCenter 64 32 (temp_str temperature_c)) >>
  draw (TextAt PROFONT_10_POINT AlignLeft 4 10 (info_str sensor_id channel)) >>
  match timestamp with
  | Some ts => draw (TextAt PROFONT_10_POINT AlignRight 124 10 ts)
  | None => done_
  end >>
  draw (TextAt PROFONT_10_POINT AlignCenter 64 58 (lit (if battery_ok then "BAT OK" else "BAT LOW!"))) >>
  flush.

Definition show_status (message : bytes) : Drawing :=
  clear >> draw (TextAt PROFONT_14_POINT AlignCenter 64 32 message) >> flush.

Definition rssi_str (rssi_val : Z) : bytes := written 20 [] [lit "RSSI: "; show_int rssi_val; lit "dBm"].
Definition quality_str (rssi_val : Z) : bytes := written 24 [] [lit "Quality: "; as_str (from_rssi rssi_val)].
(** The rectangle of a line of the menu icon. *)
Definition menu_line (k : Z) : stroke :=
  let half_width := 14 / 2 in let menu_x := 64 - half_width in FillRect menu_x (52 + 4 * k) 14 2.
Definition show_radio_info (rssi : option Z) (_detection_threshold : Z) : Drawing :=
  clear >>
  draw (TextAt PROFONT_14_POINT AlignCenter 64 12 (lit "RADIO STATUS")) >>
  match rssi with
  | Some rssi_val =>
      draw (TextAt PROFONT_10_POINT AlignCenter 64 30 (rssi_str rssi_val)) >>
      draw (TextAt PROFONT_10_POINT AlignCenter 64 44 (quality_str rssi_val))
  | None => draw (TextAt PROFONT_10_POINT AlignCenter 64 37 (lit "No signal yet"))
  end >>
  draw (menu_line 0) >> draw (menu_line 1) >> draw (menu_line 2) >> flush.

Definition draw_header (title : bytes) : Drawing := draw (TextAt PROFONT_14_POINT AlignCenter 64 12 title).

(** The width of a text of the small font, saturating. *)
Definition text_width (text : bytes) : Z :=
  let len := Z.of_nat (length text) in
  let text_chars := if len <=? smax 32 then len else smax 32 / 6 in
  Z.min (text_chars * 6) (smax 32).
Definition draw_menu_item (item : RenderItem) : Drawing :=
  draw (TextAt PROFONT_10_POINT AlignLeft 8 (y item) (render_label item)) >>
  (if is_selected item && negb (render_is_editing item)
   then draw (FillRect 8 (wraps 32 (y item + 2)) (text_width (render_label item)) 1) else done_) >>
  match render_value item with
  | [] => done_
  | value =>
      draw (TextAt PROFONT_10_POINT AlignRight 120 (y item) value) >>
      (if render_is_editing item
       then draw (FillRect (120 - text_width value) (wraps 32 (y item + 2)) (text_width value) 1) else done_)
  end.

Definition draw_scroll_indicator (indicator : ScrollIndicator) : Drawing :=
  draw (TextAt PROFONT_10_POINT AlignRight 124 60 (lit match indicator with UpArrow => "^" | DownArrow => "v" end)).

(** [try_for_each]. *)
Fixpoint draw_items (items : list RenderItem) : Drawing :=
  match items with
  | [] => done_
  | item :: items => draw_menu_item item >> draw_items items
  end.

(** ** The task *)

Context {V : Type -> nat -> Type} `{FixedVec V}.
Local Abbreviation DisplayController := (DisplayController (V := V)).

(** The drawing of the loop; [None] is a panic of the clock. *)
Definition render (c : DisplayController) (now : Z) (current_time : option TimeReference) : option Drawing :=
  match state c with
  | Main =>
      match last_reading c with
      | Some reading =>
          timestamp ← match current_time with
                      | None => Some None
                      | Some time_ref => text ← format_time now time_ref []; Some (Some text)
                      end;
          let r := inner reading in
          Some (show_temperature (temperature_c r) (id r) (channel r) (battery_ok r) timestamp)
      | None => Some (show_status (lit "Waiting..."))
      end
  | Radio Overview => let (rssi, threshold) := radio_overview_values c in Some (show_radio_info rssi threshold)
  | Radio Settings =>
      Some (clear >> draw_header (lit "SETTINGS") >>
        draw_items (vec_list (render_items (A := SettingsAction) (settings_menu c))) >>
        match scroll_indicator (settings_menu c) with Some indicator => draw_scroll_indicator indicator | None => done_ end >>
        flush)
  end.

(** What an iteration of the loop finds: what the [select3] returns, what the
    watches hold, and the instant. The clock is read for the frame key and again
    for the text; both readings are taken to fall into the same second. *)
Record turn := {
  t_selected : either3;
  t_radio : option RadioSettings;
  t_power : option PowerSettings;
  t_ota : option OtaState;
  t_time : option TimeReference;
  t_now : Z
}.
Definition unix_secs_of (t : turn) : option (option Z) :=
  match t_time t with None => Some None | Some r => s ← now_unix_secs (t_now t) r; Some (Some s) end.

(** One iteration: the command sent, how drawing the frame ended if one was
    drawn, the controller and the panel. *)
Definition panel_turn (t : turn) (c : DisplayController) (p : P)
  : option (option AppCommand * option (result DisplayError unit) * DisplayController * P) :=
  match next_display_loop_event (t_selected t) with
  | IgnoreEvent => Some (None, None, c, p)
  | loop_event =>
      let '(command, _, c) := controller_handle_event c loop_event in
      c ← sync_from_watchers c (t_radio t) (t_power t);
      match display_message (default Inactive (t_ota t)) with
      | Some message => let (_, p) := show_status message p in Some (command, None, c, p)
      | None =>
          secs ← unix_secs_of t;
          let frame := derive_frame_key c secs in
          if negb (should_render c frame) then Some (command, None, c, p)
          else
            match render c (t_now t) (t_time t) with
            | None => None
            | Some drawing =>
                let (render_result, p) := drawing p in
                Some (command, Some render_result, if is_ok render_result then mark_rendered c frame else c, p)
            end
      end
  end.

(** [display_task] up to its loop. *)
Definition display_start (initial_radio : option RadioSettings) (initial_power : option PowerSettings) (p : P)
  : option (DisplayController * P) :=
  let (_, p) := show_status (lit "Waiting...") p in
  c ← DisplayController_new initial_radio initial_power; Some (c, p).
End Driver.

Local Infix ">>" := then_ (at level 55, right associativity).

(** ** Pictures: what a screen is meant to look like *)

Definition waiting_picture : list stroke := [TextAt PROFONT_14_POINT AlignCenter 64 32 (lit "Waiting...")].

Definition hms_text (secs : Z) : option bytes :=
  '(h, m, s) ← to_local_hms TIMEZONE secs;
  Some (written 16 [] [dec2 h; [58]; dec2 m; [58]; dec2 s]).

Definition main_picture (r : RubicsonReading) (timestamp : option bytes) : list stroke :=
  [TextAt PROFONT_24_POINT AlignCenter 64 32 (temp_str (temperature_c r));
   TextAt PROFONT_10_POINT AlignLeft 4 10 (info_str (id r) (channel r))] ++
  match timestamp with Some text => [TextAt PROFONT_10_POINT AlignRight 124 10 text] | None => [] end ++
  [TextAt PROFONT_10_POINT AlignCenter 64 58 (lit (if battery_ok r then "BAT OK" else "BAT LOW!"))].

Definition radio_picture (rssi : option Z) : list stroke :=
  TextAt PROFONT_14_POINT AlignCenter 64 12 (lit "RADIO STATUS") ::
  match rssi with
  | Some rssi => [TextAt PROFONT_10_POINT AlignCenter 64 30 (rssi_str rssi); TextAt PROFONT_10_POINT AlignCenter 64 44 (quality_str rssi)]
  | None => [TextAt PROFONT_10_POINT AlignCenter 64 37 (lit "No signal yet")]
  end ++ (menu_line <$> [0; 1; 2]).

(** Labels and values of the eight rows. *)
Definition row_texts (r : RadioSettings) (p : PowerSettings) : list (bytes * bytes) :=
  [(lit "Threshold", format_db (detection_threshold_db r)); (lit "Magn Tgt", format_magn_target (magn_target r));
   (lit "Bandwidth", format_bandwidth (channel_bandwidth_index r)); (lit "CS Thrsh", format_db (carrier_sense_threshold r));
   (lit "Pred Slp", format_on_off (Z.b2z (predictive_sleep_enabled p))); (lit "Sleep", format_seconds (sleep_duration_secs p));
   (lit "UI Idle", format_seconds (ui_idle_timeout_secs p)); (lit "Save", [])].

(** A row at height [y]: the label of the selected one is underlined, or its
    value while it is edited. *)
Definition row_picture (y : Z) (texts : bytes * bytes) (selected editing : bool) : list stroke :=
  let (label, value) := texts in
  TextAt PROFONT_10_POINT AlignLeft 8 y label ::
  (if selected && negb editing then [FillRect 8 (y + 2) (6 * Z.of_nat (length label)) 1] else []) ++
  match value with
  | [] => []
  | _ => TextAt PROFONT_10_POINT AlignRight 120 y value ::
         (if editing then [FillRect (120 - 6 * Z.of_nat (length value)) (y + 2) (6 * Z.of_nat (length value)) 1] else [])
  end.

(** Four rows from [offset] on, ten pixels apart below the header, and the
    arrow that tells of more. *)
Definition settings_picture (r : RadioSettings) (p : PowerSettings) (offset selected : nat) (editing : bool) : list stroke :=
  TextAt PROFONT_14_POINT AlignCenter 64 12 (lit "SETTINGS") ::
  mjoin (imap (fun k texts => row_picture (24 + 10 * Z.of_nat k) texts (offset + k =? selected)%nat ((offset + k =? selected)%nat && editing))
    (take 4 (drop offset (row_texts r p)))) ++
  (if (offset + 4 <? 8)%nat then [TextAt PROFONT_10_POINT AlignRight 124 60 (lit "v")]
   else if (0 <? offset)%nat then [TextAt PROFONT_10_POINT AlignRight 124 60 (lit "^")] else []).

(** ** Drawing adds strokes *)

Section Drawings.
Context {P : Type} `{PanelLaws P}.
Implicit Types (m k : Drawing (P := P)) (l : list stroke).

Lemma then_ok m k p p' : (m >> k) p = (Ok tt, p') -> exists p1, m p = (Ok tt, p1) /\ k p1 = (Ok tt, p').
Proof. unfold then_. destruct (m p) as [[[]|e] p1]; [by exists p1 | done]. Qed.

(** A drawing that adds these strokes, and one that adds them and flushes. *)
Definition Draws m l : Prop := forall p p', m p = (Ok tt, p') -> canvas p' = canvas p ++ l /\ glass p' = glass p.
Definition Flushes m l : Prop := forall p p', m p = (Ok tt, p') -> glass p' = Some (canvas p ++ l).

Lemma draws_stroke s : Draws (draw s) [s].
Proof.
  intros p p'. unfold draw. pose proof (draw_adds s p) as Hd. destruct (canvas_draw s p) as [[[]|[]] p1]; [|done].
  intros [= <-]. by apply Hd.
Qed.
Lemma draws_done : Draws done_ [].
Proof. intros p p' [= <-]. by rewrite app_nil_r. Qed.
Lemma draws_then m k l1 l2 : Draws m l1 -> Draws k l2 -> Draws (m >> k) (l1 ++ l2).
Proof.
  intros Hm Hk p p' (p1 & E1 & E2)%then_ok. destruct (Hm _ _ E1) as [C1 G1], (Hk _ _ E2) as [C2 G2].
  by rewrite C2, G2, C1, G1, app_assoc.
Qed.
Lemma flushes_flush : Flushes flush [].
Proof.
  intros p p'. unfold flush. pose proof (flush_shows p) as Hf. destruct (canvas_flush p) as [[[]|[]] p1]; [|done].
  intros [= <-]. rewrite app_nil_r. by apply Hf.
Qed.
Lemma flushes_then m k l1 l2 : Draws m l1 -> Flushes k l2 -> Flushes (m >> k) (l1 ++ l2).
Proof.
  intros Hm Hk p p' (p1 & E1 & E2)%then_ok. destruct (Hm _ _ E1) as [C1 G1]. by rewrite (Hk _ _ E2), C1, app_assoc.
Qed.

(** What a drawing on a clear canvas leaves on the glass. *)
Definition Shows m l : Prop := forall p p', m p = (Ok tt, p') -> glass p' = Some l.
Lemma shows_clear k l : Flushes k l -> Shows (clear >> k) l.
Proof.
  intros Hk p p' (p1 & E1 & E2)%then_ok. injection E1 as <-. rewrite (Hk _ _ E2). by destruct (clear_empties p) as [-> _].
Qed.
End Drawings.
Create HintDb panel.
#[export] Hint Resolve draws_stroke draws_done draws_then flushes_flush flushes_then shows_clear : panel.
#[export] Hint Extern 1 (Draws (match ?o with _ => _ end) _) => destruct o : panel.

(** Settles a drawing stroke by stroke and compares the lists. *)
Ltac strokes := eapply shows_clear; repeat (eapply flushes_then; [solve [eauto with panel]|]); apply flushes_flush.

Section Pictures.
Context {P : Type} `{PanelLaws P}.

Lemma shows_eq (m : Drawing (P := P)) l l' : Shows m l -> l = l' -> Shows m l'.
Proof. by intros ? <-. Qed.

Lemma status_shown message : Shows (show_status message) [TextAt PROFONT_14_POINT AlignCenter 64 32 message].
Proof. eapply shows_eq; [unfold show_status; strokes | done]. Qed.

Lemma temperature_shown r timestamp :
  Shows (show_temperature (temperature_c r) (id r) (channel r) (battery_ok r) timestamp) (main_picture r timestamp).
Proof. unfold show_temperature, main_picture. destruct timestamp; (eapply shows_eq; [strokes | done]). Qed.

Lemma radio_shown rssi threshold : Shows (show_radio_info rssi threshold) (radio_picture rssi).
Proof. unfold show_radio_info, radio_picture. destruct rssi; (eapply shows_eq; [strokes | done]). Qed.

(** *** The settings screen *)

Lemma written_within cap pieces : forall out, Z.of_nat (length out) <= cap -> Z.of_nat (length (written cap out pieces)) <= cap.
Proof.
  induction pieces as [|piece pieces IH]; intros out Hl; cbn [written]; [done|].
  destruct (Z.leb_spec (Z.of_nat (length out + length piece)) cap); [|done]. apply IH. by rewrite length_app.
Qed.

Lemma text_width_small text : (length text <= 32)%nat -> text_width text = 6 * Z.of_nat (length text).
Proof. intros Hl. unfold text_width. change (smax 32) with 2147483647. rewrite (proj2 (Z.leb_le _ _)) by lia. lia. Qed.

Lemma draws_eq (m : Drawing (P := P)) l l' : Draws m l -> l = l' -> Draws m l'.
Proof. by intros ? <-. Qed.
Lemma item_shown (i : RenderItem) : (length (render_label i) <= 32)%nat -> (length (render_value i) <= 32)%nat -> 0 <= y i <= 1000 ->
  Draws (draw_menu_item i) (row_picture (y i) (render_label i, render_value i) (is_selected i) (render_is_editing i)).
Proof.
  intros Hl Hv Hy. unfold draw_menu_item, row_picture. rewrite !text_width_small by done.
  rewrite (wraps_small 32) by num.
  destruct (is_selected i) eqn:Es, (render_is_editing i) eqn:Ee, (render_value i); cbn [andb negb]; cbv beta iota;
    (eapply draws_eq; [eauto 10 with panel | by rewrite ?(text_width_small (_ :: _)) by done]).
Qed.

Lemma items_shown (its : list RenderItem) :
  Forall (fun i => (length (render_label i) <= 32)%nat /\ (length (render_value i) <= 32)%nat /\ 0 <= y i <= 1000) its ->
  Draws (draw_items its) (mjoin ((fun i => row_picture (y i) (render_label i, render_value i) (is_selected i) (render_is_editing i)) <$> its)).
Proof.
  induction 1 as [|i its (Hl & Hv & Hy) _ IH]; [apply draws_done|]. cbn [draw_items fmap list_fmap]. apply draws_then; [by apply item_shown | exact IH].
Qed.
End Pictures.

(** ** What the rows say

    Labels and formats of the rows and the layout of the screen never change. *)
Section Faces.
Context {V : Type -> nat -> Type} `{FixedVecLaws V}.
Local Abbreviation SettingsMenu := (SettingsMenu (V := V)).
Implicit Types (menu : SettingsMenu).

Definition tag (e : Entry) : bytes * option (Z -> bytes) :=
  match e with Numeric i => (numeric_label i, Some (formatter i)) | Command a => (action_label a, None) end.
Definition tags : list (bytes * option (Z -> bytes)) :=
  [(lit "Threshold", Some format_db); (lit "Magn Tgt", Some format_magn_target); (lit "Bandwidth", Some format_bandwidth);
   (lit "CS Thrsh", Some format_db); (lit "Pred Slp", Some format_on_off); (lit "Sleep", Some format_seconds);
   (lit "UI Idle", Some format_seconds); (lit "Save", None)].
Definition layout (vp : ScrollableViewport) : Z * Z * Z := (height vp, header_height vp, item_height vp).

Record Face menu : Prop := {
  face_tags : tag <$> vec_list (items menu) = tags;
  face_layout : layout (viewport menu) = (64, 22, 10)
}.

(** The text of a row from its tag and its value. *)
Definition text_of (t : bytes * option (Z -> bytes)) (v : option Z) : bytes * bytes :=
  (t.1, match t.2, v with Some f, Some v => f v | _, _ => [] end).
Definition entry_text (e : Entry) : bytes * bytes := (label (A := SettingsAction) e, value_string (A := SettingsAction) e).

Lemma entry_texts (l : list Entry) r p : tag <$> l = tags -> row_value <$> l = shown r p -> entry_text <$> l = row_texts r p.
Proof.
  intros Ht Hv. transitivity (zip_with text_of (tag <$> l) (row_value <$> l)).
  - clear. induction l as [|[i|a] l IH]; [done|..]; cbn [fmap list_fmap zip_with]; by rewrite IH.
  - by rewrite Ht, Hv.
Qed.

Lemma tags_edit (l : list Entry) k e e' : l !! k = Some e -> tag e' = tag e -> tag <$> <[k := e']> l = tag <$> l.
Proof. intros He Ht. rewrite list_fmap_insert, Ht. apply list_insert_id. by rewrite list_lookup_fmap, He. Qed.

Lemma event_tags (s : Spec) (e : KaruMenu.UiEvent) :
  tag <$> entries (spec_event (A := SettingsAction) s e).2 = tag <$> entries s.
Proof.
  unfold spec_event. destruct (entries s !! cursor s) as [item|] eqn:Hc; [|done].
  assert (forall (f : Entry -> bool * Entry) target, tag (f item).2 = tag item ->
    tag <$> entries (spec_turn (A := SettingsAction) f target s item).2 = tag <$> entries s) as Hturn.
  { intros f target Hf. unfold spec_turn. destruct (edit s); [|done]. cbn [snd edit_item entries]. by eapply tags_edit. }
  destruct e; [apply Hturn; by destruct item | apply Hturn; by destruct item |].
  destruct (is_editable item); [|done]. destruct (edit s); cbn [snd edit_item entries]; (eapply tags_edit; [exact Hc | by destruct item]).
Qed.

Lemma position_layout vp a b c : layout (position vp a b c) = layout vp.
Proof. done. Qed.
Lemma ensure_layout vp : layout (ensure_visible vp) = layout vp.
Proof. unfold ensure_visible. by destruct (_ =? 0). Qed.
Lemma select_layout vp k : layout (select vp k).2 = layout vp.
Proof. unfold select. destruct (_ =? 0); [done|]. cbn [snd]. by rewrite ensure_layout. Qed.
Lemma total_layout vp n : layout (set_total_items vp n) = layout vp.
Proof. unfold set_total_items. destruct (_ =? 0); [done|]. by rewrite ensure_layout. Qed.

Lemma turn_layout f g menu : (forall vp, layout (g vp).2 = layout vp) ->
  layout (viewport (on_turn (A := SettingsAction) f g menu).2) = layout (viewport menu).
Proof.
  intros Hg. unfold on_turn. destruct (editing menu).
  - destruct (get _ _) as [item|]; [|done]. by destruct (f item).
  - specialize (Hg (viewport menu)). by destruct (g (viewport menu)).
Qed.
Lemma event_layout menu e : layout (viewport (handle_event (A := SettingsAction) menu e).2) = layout (viewport menu).
Proof.
  unfold handle_event. destruct (is_empty menu); [done|]. destruct e.
  - apply turn_layout. intros vp. apply select_layout.
  - apply turn_layout. intros vp. apply select_layout.
  - unfold on_select. destruct (get _ _) as [item|]; [|done]. destruct (is_editable item); [by destruct (editing menu)|]. by destruct (action_id item).
Qed.

Lemma event_face menu e : MenuWf (A := SettingsAction) menu -> Face menu -> Face (handle_event (A := SettingsAction) menu e).2.
Proof.
  intros Hwf [Ht Hl]. destruct (event_step capacity_small menu e Hwf) as (_ & Ha & _). split; [|by rewrite event_layout].
  change (vec_list (items (handle_event menu e).2)) with (entries (abs (handle_event menu e).2)). by rewrite Ha, event_tags.
Qed.
Lemma selected_face menu k : Face menu -> Face (set_selected menu k).2.
Proof.
  intros [Ht Hl]. unfold set_selected. pose proof (select_layout (viewport menu) k) as Hs. destruct (select _ k) as [[] vp];
    (split; [done | cbn [snd with_viewport viewport] in *; congruence]).
Qed.
Lemma commit_face menu : Face menu -> Face (commit_all (A := SettingsAction) menu).
Proof.
  intros [Ht Hl]. split; [|done]. cbn. rewrite vec_map_list, <- list_fmap_compose, <- Ht. apply list_fmap_ext. by intros ? [] ?.
Qed.
Lemma reset_face menu : MenuWf (A := SettingsAction) menu -> Face menu -> Face (reset_settings_menu_for_entry menu).
Proof. intros Hwf Hf. unfold reset_settings_menu_for_entry. apply selected_face. destruct (KaruMenu.is_editing menu); [by apply event_face | done]. Qed.

(** A menu under construction. *)
Lemma add_face menu e : (length (vec_list (items menu)) < SETTINGS_MENU_CAPACITY)%nat ->
  tag <$> vec_list (items (add_menu_item menu e)) = (tag <$> vec_list (items menu)) ++ [tag e] /\
  layout (viewport (add_menu_item menu e)) = layout (viewport menu).
Proof.
  intros Hl. unfold add_menu_item, add. destruct (vec_push_room e (items menu) Hl) as (v & -> & Hv).
  cbn [snd with_viewport items viewport with_items]. by rewrite Hv, fmap_app, total_layout.
Qed.
Definition Building ts menu : Prop := tag <$> vec_list (items menu) = ts /\ layout (viewport menu) = (64, 22, 10).
Lemma building_add ts menu e : Building ts menu -> (length ts < SETTINGS_MENU_CAPACITY)%nat -> Building (ts ++ [tag e]) (add_menu_item menu e).
Proof. intros [<- Hl] Hn. rewrite length_fmap in Hn. destruct (add_face menu e Hn) as [E1 E2]. split; [exact E1 | by rewrite E2]. Qed.
Lemma building_numeric ts menu menu' name v lo hi s f : add_numeric name v lo hi s f menu = Some menu' -> Building ts menu ->
  (length ts < SETTINGS_MENU_CAPACITY)%nat -> Building (ts ++ [(lit name, Some f)]) menu'.
Proof.
  unfold add_numeric, NumericItem_new. intros E Hb Hn. destruct (clamp_checked lo hi v) as [x|]; [|done]. cbn [mbind option_bind] in E.
  apply (inj Some) in E as <-. exact (building_add ts menu (Numeric _) Hb Hn).
Qed.
Lemma build_face r p menu : build_settings_menu r p = Some menu -> Face menu.
Proof.
  unfold build_settings_menu. intros E.
  assert (Building [] (Menu_new (V := V) (I := Entry) (MAX_ITEMS := SETTINGS_MENU_CAPACITY) (ScrollableViewport_new 128 64))) as Hb.
  { split; [by cbn; rewrite vec_new_list | done]. }
  cbn zeta in E. revert E Hb. generalize (Menu_new (V := V) (I := Entry) (MAX_ITEMS := SETTINGS_MENU_CAPACITY) (ScrollableViewport_new 128 64)). intros m0 E Hb.
  repeat match type of E with (add_numeric ?n ?v ?lo ?hi ?s ?f ?m ≫= _) = Some _ =>
    let E' := fresh "E" in destruct (add_numeric n v lo hi s f m) as [?|] eqn:E'; [|done]; cbn [mbind option_bind] in E;
    apply (building_numeric _ _ _ _ _ _ _ _ _ E') in Hb; [|unfold SETTINGS_MENU_CAPACITY; cbn; lia]; clear E' end.
  apply (inj Some) in E as <-. 
  destruct (building_add _ _ (Command {| action_label := lit "Save"; action_item_id := Save |}) Hb) as [Ht Hl]; [unfold SETTINGS_MENU_CAPACITY; cbn; lia | by split].
Qed.

(** *** The settings screen is drawn as meant *)

Lemma written_32 pieces : (length (written 32 [] pieces) <= 32)%nat.
Proof. pose proof (written_within 32 pieces [] ltac:(cbn; lia)). lia. Qed.
Lemma texts_short r p : Forall (fun t : bytes * bytes => (length t.1 <= 32)%nat /\ (length t.2 <= 32)%nat) (row_texts r p).
Proof. unfold row_texts. repeat apply Forall_cons_2; try apply Forall_nil_2; (split; [by apply Nat.leb_le | first [apply written_32 | cbn; lia]]). Qed.

(** Where the window of a well-formed menu is. *)
Lemma eight_rows menu r p : MenuShows menu r p -> Face menu ->
  len menu = 8 /\ max_visible (viewport menu) = 4 /\ 0 <= scroll_offset (viewport menu) <= 4 /\ 0 <= selected_index (viewport menu) < 8 /\
  scroll_offset (viewport menu) <= selected_index (viewport menu) < scroll_offset (viewport menu) + 4.
Proof.
  intros [Hwf Hr _] [_ Hl]. apply Forall2_length in Hr. injection Hl as Hh Hhd Hi.
  assert (len menu = 8) as Hlen by (unfold len; cbn in Hr; lia).
  pose proof (menu_viewport menu Hwf) as Hv. pose proof (menu_total menu Hwf) as Ht. rewrite Hlen in Ht.
  pose proof (vp_rows _ Hv) as Hm. rewrite Hh, Hhd, Hi in Hm. change (max_visible (viewport menu) = 4) in Hm.
  pose proof (vp_window _ Hv) as Hw. rewrite Ht, Hm in Hw. pose proof (vp_selected _ Hv ltac:(lia)) as Hs. rewrite Ht, Hm in Hs. lia.
Qed.

Lemma imap_mjoin {A B C} (f : nat -> A -> B) (g : B -> list C) (l : list A) : mjoin (g <$> imap f l) = mjoin (imap (fun k x => g (f k x)) l).
Proof. by rewrite fmap_imap. Qed.

(** The window of rows, drawn. *)
Lemma window_rows menu r p : MenuShows menu r p -> Face menu ->
  let offset := Z.to_nat (scroll_offset (viewport menu)) in let selected := Z.to_nat (selected_index (viewport menu)) in
  (fun i => (y i, (render_label i, render_value i), is_selected i, render_is_editing i)) <$> vec_list (render_items (A := SettingsAction) menu) =
  imap (fun k texts => (24 + 10 * Z.of_nat k, texts, (offset + k =? selected)%nat, ((offset + k =? selected)%nat && KaruMenu.is_editing menu)))
    (take 4 (drop offset (row_texts r p))).
Proof.
  intros Hm Hf offset selected. destruct (eight_rows menu r p Hm Hf) as (Hlen & Hmv & Ho & Hs & _). destruct Hm as [Hwf Hr Hv].
  rewrite (render_items_rows menu Hwf). unfold window, rows. rewrite Hmv, Hlen. change (Z.to_nat (Z.min 4 8)) with 4%nat.
  rewrite <- (entry_texts _ r p (face_tags menu Hf) Hv), fmap_imap, <- fmap_drop, <- fmap_take, imap_fmap. fold offset.
  apply imap_ext. intros k e Hk. apply lookup_lt_Some in Hk. rewrite length_take in Hk. cbn [compose]. unfold rendered, entry_text, menu_selected_index. cbn [y render_label render_value is_selected render_is_editing].
  rewrite (item_y_spec (MAX_ITEMS := 8)) by (by apply (menu_viewport menu Hwf) || lia). pose proof (face_layout menu Hf) as Hl. injection Hl as _ -> ->.
  assert ((scroll_offset (viewport menu) + Z.of_nat k =? selected_index (viewport menu)) = (offset + k =? selected)%nat) as ->.
  { unfold offset, selected. apply eq_true_iff_eq. rewrite Z.eqb_eq, Nat.eqb_eq. lia. }
  by replace (22 + 2 + Z.of_nat k * 10) with (24 + 10 * Z.of_nat k) by lia.
Qed.

Lemma settings_rows menu r p : MenuShows menu r p -> Face menu ->
  Forall (fun i => (length (render_label i) <= 32)%nat /\ (length (render_value i) <= 32)%nat /\ 0 <= y i <= 1000)
    (vec_list (render_items (A := SettingsAction) menu)).
Proof.
  intros Hm Hf. pose proof (window_rows menu r p Hm Hf) as Hw. cbn zeta in Hw. apply Forall_lookup. intros k i Hi.
  apply (f_equal (fun l => l !! k)) in Hw. rewrite list_lookup_fmap, Hi, list_lookup_imap in Hw. cbn [fmap option_fmap option_map] in Hw.
  destruct (take 4 _ !! k) as [texts|] eqn:Et; [|done]. injection Hw as -> Etexts _ _.
  apply lookup_take_Some in Et as [Et Hk]. rewrite lookup_drop in Et.
  pose proof (proj1 (Forall_lookup _ _) (texts_short r p) _ _ Et) as [H1 H2]. rewrite <- Etexts in H1, H2. cbn in H1, H2. split_and!; lia || done.
Qed.

Lemma indicator_drawn menu r p : MenuShows menu r p -> Face menu ->
  scroll_indicator menu = (if (Z.to_nat (scroll_offset (viewport menu)) + 4 <? 8)%nat then Some DownArrow
    else if (0 <? Z.to_nat (scroll_offset (viewport menu)))%nat then Some UpArrow else None).
Proof.
  intros Hm Hf. destruct (eight_rows menu r p Hm Hf) as (Hlen & Hmv & Ho & _ & _). unfold scroll_indicator, has_more_below, has_more_above.
  rewrite Hmv, (menu_total menu (ms_wf _ _ _ Hm)), Hlen, usize_add_small by (change (2 ^ 31) with 2147483648; lia).
  assert ((scroll_offset (viewport menu) + 4 <? 8) = (Z.to_nat (scroll_offset (viewport menu)) + 4 <? 8)%nat) as ->
    by (apply eq_true_iff_eq; rewrite Z.ltb_lt, Nat.ltb_lt; lia).
  assert ((0 <? scroll_offset (viewport menu)) = (0 <? Z.to_nat (scroll_offset (viewport menu)))%nat) as ->
    by (apply eq_true_iff_eq; rewrite Z.ltb_lt, Nat.ltb_lt; lia). done.
Qed.
End Faces.

(** ** The frame of a controller *)

Section Frames.
Context {P : Type} `{PanelLaws P} {V : Type -> nat -> Type} `{FixedVecLaws V}.
Local Abbreviation DisplayController := (DisplayController (V := V)).
Implicit Types (c : DisplayController) (p : P).

(** What the screen of a controller is meant to show at a time. *)
Definition picture c (secs : option Z) : option (list stroke) :=
  match state c with
  | Main =>
      match last_reading c with
      | Some reading =>
          timestamp ← match secs with None => Some None | Some s => text ← hms_text s; Some (Some text) end;
          Some (main_picture (inner reading) timestamp)
      | None => Some waiting_picture
      end
  | Radio Overview => Some (radio_picture (rssi <$> last_reading c))
  | Radio Settings =>
      let vp := viewport (settings_menu c) in
      Some (settings_picture (pending_radio_settings c) (pending_power_settings c) (Z.to_nat (scroll_offset vp))
        (Z.to_nat (selected_index vp)) (KaruMenu.is_editing (settings_menu c)))
  end.

Lemma settings_shown c : Consistent c -> Face (settings_menu c) -> Shows (P := P)
  (clear >> draw_header (lit "SETTINGS") >> draw_items (vec_list (render_items (A := SettingsAction) (settings_menu c))) >>
   match scroll_indicator (settings_menu c) with Some indicator => draw_scroll_indicator indicator | None => done_ end >> flush)
  (settings_picture (pending_radio_settings c) (pending_power_settings c) (Z.to_nat (scroll_offset (viewport (settings_menu c))))
    (Z.to_nat (selected_index (viewport (settings_menu c)))) (KaruMenu.is_editing (settings_menu c))).
Proof.
  intros [Hm _] Hf. pose proof (window_rows _ _ _ Hm Hf) as Hw. cbn zeta in Hw. rewrite (indicator_drawn _ _ _ Hm Hf).
  set (offset := Z.to_nat (scroll_offset _)) in *. set (selected := Z.to_nat (selected_index _)) in *.
  eapply shows_eq.
  - eapply shows_clear, flushes_then; [apply draws_stroke|]. eapply flushes_then; [by eapply items_shown, settings_rows|].
    eapply flushes_then; [|apply flushes_flush]. instantiate (1 := if (offset + 4 <? 8)%nat then _ else if (0 <? offset)%nat then _ else _).
    destruct (offset + 4 <? 8)%nat; [apply draws_stroke|]. destruct (0 <? offset)%nat; [apply draws_stroke | apply draws_done].
  - unfold settings_picture. cbn [app]. f_equal. rewrite app_nil_r. f_equal.
    set (pic := fun q : Z * (bytes * bytes) * bool * bool => let '(y, texts, s, e) := q in row_picture y texts s e).
    transitivity (mjoin (pic <$> ((fun i => (y i, (render_label i, render_value i), is_selected i, render_is_editing i)) <$> vec_list (render_items (A := SettingsAction) (settings_menu c))))).
    { f_equal. rewrite <- list_fmap_compose. by apply list_fmap_ext. }
    rewrite Hw, fmap_imap. by f_equal.
Qed.

(** A clock that was set in the past. *)
Definition clock_ok (t : turn) : Prop := forall r, t_time t = Some r -> (exists epoch, Exact epoch r) /\ captured_at r <= t_now t < 2 ^ 47.

(** The loop draws what the screen is meant to show, and its clock works. *)
Lemma render_shown c t : Consistent c -> Face (settings_menu c) -> clock_ok t -> exists secs l drawing,
  unix_secs_of t = Some secs /\ picture c secs = Some l /\ render (P := P) c (t_now t) (t_time t) = Some drawing /\ Shows drawing l.
Proof.
  intros Hc Hf Ht. unfold unix_secs_of, picture, render.
  assert (exists secs text, match t_time t with None => Some None | Some r => s ← now_unix_secs (t_now t) r; Some (Some s) end = Some secs /\
    match secs with None => Some None | Some s => text ← hms_text s; Some (Some text) end = Some text /\
    match t_time t with None => Some None | Some r => text ← format_time (t_now t) r []; Some (Some text) end = Some text) as (secs & text & E & E1 & E2).
  { destruct (t_time t) as [r|] eqn:Er; [|by exists None, None]. destruct (Ht r Er) as [[epoch He] Hn].
    destruct (format_time_spec epoch (t_now t) r He Hn) as (s & dst & h & m & sec & Hs & _ & Hfmt & _). rewrite Hs. cbn [mbind option_bind].
    exists (Some s). rewrite Hfmt. eexists. split; [done|]. split; [|reflexivity]. cbn [mbind option_bind]. unfold hms_text.
    unfold format_time in Hfmt. rewrite Hs in Hfmt. cbn [mbind option_bind] in Hfmt. destruct (to_local_hms TIMEZONE s) as [[[? ?] ?]|]; [|done].
    cbn [mbind option_bind] in *. by rewrite Hfmt. }
  exists secs. rewrite E. destruct (state c) as [|[]].
  - destruct (last_reading c) as [reading|].
    + rewrite E1, E2. cbn [mbind option_bind]. do 2 eexists. do 3 (split; [done|]). apply temperature_shown.
    + do 2 eexists. do 3 (split; [done|]). apply status_shown.
  - do 2 eexists. do 3 (split; [done|]). apply radio_shown.
  - do 2 eexists. do 3 (split; [done|]). by apply settings_shown.
Qed.

(** A reading as the decoder makes them. *)
Definition sensed (r : RadioReading) : Prop := exists sensor channel0 battery raw,
  -2048 <= raw < 2048 /\ inner r = reading_of sensor channel0 battery raw.

Lemma sensed_by_key r1 r2 : sensed r1 -> sensed r2 ->
  temp_to_deci (temperature_c (inner r1)) = temp_to_deci (temperature_c (inner r2)) ->
  id (inner r1) = id (inner r2) -> channel (inner r1) = channel (inner r2) -> battery_ok (inner r1) = battery_ok (inner r2) ->
  inner r1 = inner r2.
Proof.
  intros (s1 & c1 & b1 & raw1 & Hw1 & E1) (s2 & c2 & b2 & raw2 & Hw2 & E2). rewrite E1, E2. unfold reading_of. cbn [temperature_c id channel battery_ok].
  destruct (deci_exact raw1 Hw1) as [_ ->], (deci_exact raw2 Hw2) as [_ ->]. intros -> -> -> ->. done.
Qed.

Lemma nav_index_inj i j : 0 <= i < 8 -> 0 <= j < 8 -> default (umax 8) (try_from_u 8 i) = default (umax 8) (try_from_u 8 j) -> i = j.
Proof.
  intros Hi Hj. unfold try_from_u. change (umax 8) with 255. rewrite !(proj2 (Z.leb_le _ _)) by lia. done.
Qed.

(** Two controllers with the same frame key are meant to show the same, given
    that the settings screen is scrolled alike. *)
Lemma key_picture c1 c2 secs1 secs2 : Consistent c1 -> Face (settings_menu c1) -> Consistent c2 -> Face (settings_menu c2) ->
  (forall r, last_reading c1 = Some r -> sensed r) -> (forall r, last_reading c2 = Some r -> sensed r) ->
  derive_frame_key c1 secs1 = derive_frame_key c2 secs2 ->
  (in_settings (state c1) = true -> in_settings (state c2) = true ->
   selected_index (viewport (settings_menu c1)) = selected_index (viewport (settings_menu c2)) ->
   scroll_offset (viewport (settings_menu c1)) = scroll_offset (viewport (settings_menu c2))) ->
  picture c1 secs1 = picture c2 secs2.
Proof.
  intros [Hm1 _] Hf1 [Hm2 _] Hf2 Hr1 Hr2. unfold derive_frame_key, frame_key, derive_frame, picture. cbn [screen in_reading in_radio in_power time_secs settings_nav_index settings_editing].
  destruct (eight_rows _ _ _ Hm1 Hf1) as (_ & _ & _ & Hs1 & _), (eight_rows _ _ _ Hm2 Hf2) as (_ & _ & _ & Hs2 & _).
  destruct (state c1) as [|[]], (state c2) as [|[]]; cbn [to_ui_screen_state]; intros E Ho;
    try discriminate E; try (destruct (last_reading c1); discriminate E); try (destruct (last_reading c2); discriminate E).
  - destruct (last_reading c1) as [r|] eqn:E1, (last_reading c2) as [r0|] eqn:E2; try discriminate E; [|done]. injection E as Et Ei Ec Eb Es. rewrite (sensed_by_key r r0), Es; [done | by apply Hr1 | by apply Hr2 | done..].
  - injection E as E _. assert (rssi <$> last_reading c1 = rssi <$> last_reading c2) as -> by (destruct (last_reading c1), (last_reading c2); cbn in E |- *; congruence). done.
  - injection E as En Ee E1 E2 E3 E4 E5 E6 E7. apply nav_index_inj in En; [|done..]. unfold menu_selected_index in En. rewrite (Ho eq_refl eq_refl En), En, Ee.
    assert (pending_radio_settings c1 = pending_radio_settings c2) as -> by (destruct (pending_radio_settings c1), (pending_radio_settings c2); cbn in *; congruence).
    assert (pending_power_settings c1 = pending_power_settings c2) as -> by (destruct (pending_power_settings c1), (pending_power_settings c2); cbn in *; congruence). done.
Qed.

(** *** What an event leaves of the screen *)

Lemma handled_face c e : Consistent c -> Face (settings_menu c) -> Face (settings_menu (controller_handle_event c e).2).
Proof.
  intros [Hm _] Hf. pose proof (ms_wf _ _ _ Hm) as Hwf. destruct e as [r|ev| |]; try done. cbn [controller_handle_event].
  destruct (in_settings (state c)).
  - pose proof (event_face _ (menu_event_from_ui_event ev) Hwf Hf) as Hf'. destruct (handle_event _ _) as [me menu].
    unfold reduce_settings_menu. destruct (negb _); [done|]. destruct (settings_outcome_from_menu_event me); unfold apply_transition; cbn [effects reset_settings_menu sync_pending_settings save_settings NONE SYNC_PENDING SAVE_SETTINGS];
      [done | by destruct (sync_pending_from_menu _ _) | destruct (sync_pending_from_menu _ _); by apply commit_face].
  - unfold reduce_navigation, apply_transition. destruct (state c) as [|[]], ev; cbn; try done; by apply reset_face.
Qed.

Lemma synced_face c c' radio power : sync_from_watchers c radio power = Some c' -> Face (settings_menu c) -> Face (settings_menu c').
Proof.
  unfold sync_from_watchers. destruct (in_settings _); [by intros [= <-]|]. intros E Hf. revert E.
  destruct (_ || _); [|by intros [= <-]]. destruct (build_settings_menu _ _) as [menu|] eqn:Eb; [|done]. intros [= <-]. by eapply build_face.
Qed.

Lemma handled_reading c e : (forall r, last_reading c = Some r -> sensed r) -> (forall r, e = Reading r -> sensed r) ->
  forall r, last_reading (controller_handle_event c e).2 = Some r -> sensed r.
Proof.
  intros Hc He r. destruct e as [r0|ev| |]; cbn [controller_handle_event snd last_reading]; [|..|by apply Hc|by apply Hc].
  - intros [= <-]. by apply He.
  - destruct (if in_settings (state c) then _ else _) as [tr c0] eqn:E.
    assert (last_reading c0 = last_reading c) as E0.
    { destruct (in_settings (state c)); [|by injection E as _ <-]. destruct (handle_event _ _). by injection E as _ <-. }
    unfold apply_transition. destruct (if sync_pending_settings _ then _ else _). destruct (save_settings _); cbn; rewrite E0; apply Hc.
Qed.
Lemma synced_reading c c' radio power : sync_from_watchers c radio power = Some c' -> last_reading c' = last_reading c.
Proof.
  unfold sync_from_watchers. destruct (in_settings _); [by intros [= <-]|]. destruct (if _ || _ then _ else _); [|done]. by intros [= <-].
Qed.

(** The selection stays, so the window stays. *)
Lemma ensured_still vp : ViewportWf vp -> total_items vp <> 0 -> scroll_offset (ensure_visible (position vp (scroll_offset vp) (selected_index vp) (total_items vp))) = scroll_offset vp.
Proof.
  intros Hv Ht. pose proof (max_visible_bounds vp Hv) as Hm. pose proof (vp_total vp Hv). pose proof (vp_window vp Hv). pose proof (vp_selected vp Hv Ht).
  rewrite ensure_visible_spec; cbn [position total_items scroll_offset max_visible selected_index]; [|lia..]. unfold scrolled. lia.
Qed.
Lemma select_still vp k : ViewportWf vp -> 0 <= k -> selected_index (select vp k).2 = selected_index vp -> scroll_offset (select vp k).2 = scroll_offset vp.
Proof.
  intros Hv Hk. pose proof (vp_empty vp Hv) as He. pose proof (select_wf vp k Hv Hk) as (_ & _ & Hs & _). rewrite Hs. unfold select.
  destruct (total_items vp =? 0) eqn:E; bools; cbn [snd].
  - intros _. cbn. by destruct (He E) as [_ ->].
  - intros Hi. rewrite <- (ensured_still vp Hv E) at 2. rewrite <- Hi. pose proof (vp_total vp Hv).
    by replace (sat_sub (total_items vp) 1) with (total_items vp - 1) by (unfold sat_sub; lia).
Qed.
Lemma event_still (menu : SettingsMenu (V := V)) e : MenuWf (A := SettingsAction) menu ->
  selected_index (viewport (handle_event (A := SettingsAction) menu e).2) = selected_index (viewport menu) ->
  scroll_offset (viewport (handle_event (A := SettingsAction) menu e).2) = scroll_offset (viewport menu).
Proof.
  intros Hwf. pose proof (menu_viewport menu Hwf) as Hv. destruct (cursor_bounds menu Hwf) as (Hz & _ & _).
  assert (forall f g k, (forall vp : ScrollableViewport, selected_index vp = selected_index (viewport menu) -> g vp = select vp k) -> 0 <= k ->
    selected_index (viewport (on_turn (A := SettingsAction) f g menu).2) = selected_index (viewport menu) ->
    scroll_offset (viewport (on_turn (A := SettingsAction) f g menu).2) = scroll_offset (viewport menu)) as Hturn.
  { intros f g k Hg Hk. unfold on_turn. destruct (editing menu).
    - destruct (get _ _) as [item|]; [|done]. by destruct (f item).
    - rewrite (Hg _ eq_refl). pose proof (select_still (viewport menu) k Hv Hk) as Hs. by destruct (select (viewport menu) k). }
  unfold handle_event. destruct (is_empty menu); [done|]. destruct e.
  - apply (Hturn _ _ (sat_add usize_bits (selected_index (viewport menu)) 1)); [by intros vp <- | num].
  - apply (Hturn _ _ (sat_sub (selected_index (viewport menu)) 1)); [by intros vp <- | num].
  - unfold on_select. destruct (get _ _) as [item|]; [|done]. destruct (is_editable item); [by destruct (editing menu)|]. by destruct (action_id item).
Qed.

Lemma handled_still c e : Consistent c -> in_settings (state c) = true -> in_settings (state (controller_handle_event c e).2) = true ->
  selected_index (viewport (settings_menu c)) = selected_index (viewport (settings_menu (controller_handle_event c e).2)) ->
  scroll_offset (viewport (settings_menu c)) = scroll_offset (viewport (settings_menu (controller_handle_event c e).2)).
Proof.
  intros [Hm _] Hs. pose proof (ms_wf _ _ _ Hm) as Hwf. destruct e as [r|ev| |]; try done. cbn [controller_handle_event]. rewrite Hs.
  pose proof (event_still _ (menu_event_from_ui_event ev) Hwf) as Hst. destruct (handle_event _ _) as [me menu]. cbn [snd] in Hst.
  unfold reduce_settings_menu. rewrite Hs. cbn [negb]. destruct (settings_outcome_from_menu_event me); unfold apply_transition; cbn [effects next reset_settings_menu sync_pending_settings save_settings NONE SYNC_PENDING SAVE_SETTINGS].
  - cbn. intros _ E. symmetry. by apply Hst.
  - destruct (sync_pending_from_menu _ _). cbn. intros _ E. symmetry. by apply Hst.
  - destruct (sync_pending_from_menu _ _). done.
Qed.

(** *** Runs of the task with its panel *)

Definition turn_ok (t : turn) : Prop :=
  watched_ok (t_radio t) (t_power t) /\ clock_ok t /\ (forall r, next_display_loop_event (t_selected t) = Reading r -> sensed r).
Definition no_update (t : turn) : Prop := display_message (default Inactive (t_ota t)) = None.

(** The controllers and panels that the task reaches while no update is shown
    and drawing succeeds. *)
Inductive live : DisplayController -> P -> Prop :=
| live_start radio power p0 c p : watched_ok radio power -> display_start radio power p0 = Some (c, p) -> live c p
| live_turn t command drawn c p c' p' : live c p -> turn_ok t -> no_update t ->
    panel_turn t c p = Some (command, drawn, c', p') -> (forall e, drawn <> Some (Err e)) -> live c' p'.

(** The glass shows the picture of the frame that is remembered as rendered. *)
Record Live c p : Prop := {
  lv_consistent : Consistent c;
  lv_face : Face (settings_menu c);
  lv_sensed : forall r, last_reading c = Some r -> sensed r;
  lv_glass : forall frame, last_frame c = Some frame -> exists secs l,
    frame = derive_frame_key c secs /\ picture c secs = Some l /\ glass p = Some l
}.

(** The iteration as [Display] has it, with the outcome of the drawing as its
    input. *)
Definition inputs_of (t : turn) (secs : option Z) (ok : bool) : inputs := {|
  selected := t_selected t; radio_watch := t_radio t; power_watch := t_power t; ota_state := t_ota t; unix_secs := secs; render_ok := ok |}.
Lemma panel_turn_iteration t c p secs command drawn c' p' : unix_secs_of t = Some secs ->
  panel_turn t c p = Some (command, drawn, c', p') -> exists d,
  display_task_iteration c (inputs_of t secs (default true (is_ok <$> drawn))) = Some (command, d, c').
Proof.
  unfold panel_turn, display_task_iteration. cbn [selected inputs_of radio_watch power_watch ota_state unix_secs render_ok]. intros Ht.
  destruct (next_display_loop_event _) as [r|ev| |]; try (intros [= <- <- <- _]; by eexists);
    (destruct (controller_handle_event c _) as [[cmd act] c1]; destruct (sync_from_watchers c1 _ _) as [c2|]; [|done]; cbn [mbind option_bind];
     destruct (display_message _) as [message|]; [destruct (show_status message p); intros [= <- <- <- _]; by eexists|];
     rewrite Ht; cbn [mbind option_bind]; cbv zeta; destruct (negb (should_render c2 _)); [intros [= <- <- <- _]; by eexists|];
     destruct (render c2 _ _) as [drawing|]; [|done]; destruct (drawing p) as [res p1]; intros [= <- <- <- _]; cbn; by eexists).
Qed.

(** What a turn does, in the terms of the invariant. *)
Lemma turn_shows t c p : Live c p -> turn_ok t -> no_update t -> next_display_loop_event (t_selected t) <> IgnoreEvent ->
  exists command drawn c' p' secs l, panel_turn t c p = Some (command, drawn, c', p') /\ unix_secs_of t = Some secs /\ picture c' secs = Some l /\
    ((forall e, drawn <> Some (Err e)) -> glass p' = Some l /\ last_frame c' = Some (derive_frame_key c' secs) /\ Live c' p').
Proof.
  intros [Hc Hf Hr Hg] (Hw & Hclock & Hnew) Hn He. set (ev := next_display_loop_event (t_selected t)) in *.
  set (i := inputs_of t None true). assert (loop_event i <> IgnoreEvent) as Hi by done.
  destruct (iteration_spec c i Hc Hw Hi) as (cmd & c1 & c2 & Hh & E1 & Es & Hc2 & Hst & Hlf & Hin & _ & _).
  change (loop_event i) with ev in *. cbn [i inputs_of radio_watch power_watch] in Es.
  assert (Face (settings_menu c2)) as Hf2 by (eapply synced_face; [exact Es|]; rewrite E1; by apply handled_face).
  assert (forall r, last_reading c2 = Some r -> sensed r) as Hr2.
  { rewrite (synced_reading _ _ _ _ Es), E1. by apply handled_reading. }
  destruct (render_shown c2 t Hc2 Hf2 Hclock) as (secs & l & drawing & Hsecs & Hpic & Hren & Hshow).
  assert (exists command drawn c' p', panel_turn t c p = Some (command, drawn, c', p') /\
    (Some (derive_frame_key c2 secs) = last_frame c2 /\ drawn = None /\ c' = c2 /\ p' = p \/
     exists res, drawing p = (res, p') /\ drawn = Some res /\ c' = if is_ok res then mark_rendered c2 (derive_frame_key c2 secs) else c2))
    as (command & drawn & c' & p' & Eturn & Hcase).
  { unfold panel_turn. fold ev. destruct (controller_handle_event c ev) as [[cmd' act] c1'] eqn:Ec. cbn [snd] in E1. subst c1'.
    unfold no_update in Hn. clearbody ev. destruct ev; try done; rewrite Ec, Es; cbn [mbind option_bind]; rewrite Hn, Hsecs; cbn [mbind option_bind]; cbv zeta;
      unfold should_render; rewrite negb_involutive; (case_bool_decide as Hsame; [by do 4 eexists; split; [done|left] |
      rewrite Hren; destruct (drawing p) as [res p'] eqn:Ed; do 4 eexists; (split; [done|]); right; by exists res]). }
  exists command, drawn, c', p', secs, l. split; [done|]. split; [done|].
  destruct Hcase as [(Hsame & -> & -> & ->) | (res & Ed & -> & ->)].
  - split; [done|]. intros _. assert (glass p = Some l) as Hgl.
    { rewrite Hlf in Hsame. destruct (Hg _ (eq_sym Hsame)) as (secs0 & l0 & Hkey & Hp0 & ->). f_equal. apply (inj Some). rewrite <- Hp0, <- Hpic.
      apply key_picture; try done. intros Hs1 Hs2 Hsel. rewrite Hst in Hs2. rewrite (Hin Hs2), E1 in Hsel |- *. rewrite E1 in Hs2. by apply handled_still. }
    split; [done|]. split; [done|]. split; [done..|]. intros frame Hframe. exists secs, l. split; [|done]. congruence.
  - assert (picture (if is_ok res then mark_rendered c2 (derive_frame_key c2 secs) else c2) secs = Some l) as Hp' by (by destruct (is_ok res)).
    split; [done|]. intros Hok. destruct res as [[]|e]; [|by destruct (Hok e)]. specialize (Hshow _ _ Ed). cbn [is_ok].
    split; [done|]. split; [done|]. split; [by apply rendered_consistent | done | done |]. intros frame [= <-]. by exists secs, l.
Qed.

Lemma live_inv c p : live c p -> Live c p.
Proof.
  induction 1 as [radio power p0 c p Hw E | t command drawn c p c' p' _ IH Ht Hn E Hok].
  - unfold display_start in E. destruct (show_status _ p0) as [r p1]. destruct (new_consistent (V := V) radio power Hw) as (c0 & Ec & Hc). rewrite Ec in E. cbn [mbind option_bind] in E.
    injection E as <- <-. unfold DisplayController_new in Ec. destruct (build_settings_menu _ _) as [menu|] eqn:Eb; [|done]. cbn [mbind option_bind] in Ec.
    destruct (sync_pending_from_menu _ _). injection Ec as <-. split; try done. by eapply build_face.
  - destruct (decide (next_display_loop_event (t_selected t) = IgnoreEvent)) as [Hi|Hi].
    + unfold panel_turn in E. rewrite Hi in E. by injection E as _ _ <- <-.
    + destruct (turn_shows t c p IH Ht Hn Hi) as (cmd & d & c1 & p1 & secs & l & E' & _ & _ & Hl). rewrite E' in E. injection E as -> -> -> ->. by apply Hl.
Qed.

(** C40: The panel is current. Whatever the task has been through, as long as no
    update is shown and drawing succeeds, an iteration does not panic and leaves
    on the glass just the picture that its controller is meant to show at the
    time: strokes that depend on the state alone, although the task redraws only
    when a key of a few numbers changes. *)
Theorem panel_current (t : turn) c p : live c p -> turn_ok t -> no_update t -> next_display_loop_event (t_selected t) <> IgnoreEvent ->
  exists command drawn c' p' secs l, panel_turn t c p = Some (command, drawn, c', p') /\ unix_secs_of t = Some secs /\ picture c' secs = Some l /\
    ((forall e, drawn <> Some (Err e)) -> glass p' = Some l).
Proof.
  intros Hl Ht Hn Hi. destruct (turn_shows t c p (live_inv c p Hl) Ht Hn Hi) as (command & drawn & c' & p' & secs & l & E & Es & Ep & Hg).
  exists command, drawn, c', p', secs, l. split_and!; [done..|]. intros Hok. by apply Hg.
Qed.

(** No text of a screen is cut off by the string it is written to. *)
Theorem texts_whole (reading : RadioReading) (sensor channel0 raw : Z) (battery : bool) :
  inner reading = reading_of sensor channel0 battery raw -> u8 sensor -> 0 <= channel0 < 4 -> -2048 <= raw < 2048 -> sint 16 (rssi reading) ->
  temp_str (temperature_c (inner reading)) = show_raw raw ++ lit "C" /\
  info_str (id (inner reading)) (channel (inner reading)) = lit "S" ++ dec sensor ++ lit " Ch" ++ dec (channel0 + 1) /\
  rssi_str (rssi reading) = lit "RSSI: " ++ show_int (rssi reading) ++ lit "dBm" /\
  quality_str (rssi reading) = lit "Quality: " ++ as_str (from_rssi (rssi reading)).
Proof.
  intros -> Hs Hc Ht Hr. unfold reading_of. cbn [temperature_c id channel]. unfold temp_str, info_str, rssi_str, quality_str. rewrite show_tenths_exact by done.
  assert (forall cap pieces, Z.of_nat (length (mjoin pieces)) <= cap -> written cap [] pieces = mjoin pieces) as Hw by (intros cap pieces Hl; by apply (write_fits cap pieces Hl)).
  assert (length (show_raw raw) <= 9)%nat as Lraw.
  { unfold show_raw. assert (0 <= Z.abs raw / 10 < 10000) as Hq by (Z.div_mod_to_equations; lia). pose proof (dec_length 4 (Z.abs raw / 10) Hq ltac:(lia)). rewrite !length_app. cbn [length]. destruct (raw <? 0); cbn [length]; lia. }
  pose proof (dec_length 3 sensor ltac:(change (10 ^ Z.of_nat 3) with 1000; num) ltac:(lia)) as Ls. pose proof (dec_length 1 (channel0 + 1) ltac:(change (10 ^ Z.of_nat 1) with 10; lia) ltac:(lia)) as Lc. pose proof (show_int_length _ Hr) as Lr.
  rewrite !Hw; cbn [mjoin list_join]; rewrite ?app_nil_r; [done|..]; rewrite !length_app; cbn [length].
  - change (length (lit "Quality: ")) with 9%nat. destruct (from_rssi (rssi reading)); by apply Z.leb_le.
  - change (length (lit "RSSI: ")) with 6%nat. change (length (lit "dBm")) with 3%nat. lia.
  - change (length (lit "S")) with 1%nat. change (length (lit " Ch")) with 3%nat. lia.
  - change (length (lit "C")) with 1%nat. lia.
Qed.
End Frames.

(** ** An instance for witnesses *)

Module Sample.

Record sim := { drawn_on : list stroke; shown_on : option (list stroke) }.
#[export] Instance sim_panel : Panel sim := {
  panel_init p := (Ok tt, p);
  canvas_clear p := {| drawn_on := []; shown_on := shown_on p |};
  canvas_draw s p := (Ok tt, {| drawn_on := drawn_on p ++ [s]; shown_on := shown_on p |});
  canvas_flush p := (Ok tt, {| drawn_on := drawn_on p; shown_on := Some (drawn_on p) |})
}.
#[export] Instance sim_laws : PanelLaws sim.
Proof. refine {| canvas := drawn_on; glass := shown_on |}; [done | by intros s p p' [= <-] | by intros p p' [= <-]]. Defined.

Definition off : sim := {| drawn_on := []; shown_on := None |}.
Definition heard : RadioReading := {| inner := reading_of 230 0 true (-94); rssi := -70; detection_threshold := 8; received_at := 5000000 |}.
Definition arrives : turn := {| t_selected := First heard; t_radio := None; t_power := None; t_ota := None; t_time := None; t_now := 5000000 |}.
Definition shown_main : list stroke :=
  [TextAt PROFONT_24_POINT AlignCenter 64 32 (lit "-9.4C"); TextAt PROFONT_10_POINT AlignLeft 4 10 (lit "S230 Ch1");
   TextAt PROFONT_10_POINT AlignCenter 64 58 (lit "BAT OK")].

Lemma arrives_ok : turn_ok arrives.
Proof. split; [by split|]. split; [done|]. intros r [= <-]. exists 230, 0, true, (-94). done. Qed.

(** A reading arrives: the task that had shown "Waiting..." shows it. *)
Lemma panel_current_witness : exists c p command drawn c' p', display_start (V := Heapless.bounded) None None off = Some (c, p) /\
  glass p = Some waiting_picture /\ panel_turn arrives c p = Some (command, drawn, c', p') /\ glass p' = Some shown_main.
Proof.
  assert (exists c p, display_start (V := Heapless.bounded) None None off = Some (c, p)) as (c & p & E).
  { destruct (new_consistent (V := Heapless.bounded) None None ltac:(by split)) as (c & Ec & _). unfold display_start. destruct (show_status _ off) as [r p]. rewrite Ec. by exists c, p. }
  exists c, p. assert (live c p) as Hl by (by eapply (live_start None None off)).
  destruct (panel_current arrives c p Hl arrives_ok eq_refl ltac:(done)) as (command & drawn & c' & p' & secs & l & Et & _ & _ & Hg).
  exists command, drawn, c', p'. split; [exact E|].
  assert (Hrun : (fun o => match o with Some (c, p) => (glass p, match panel_turn arrives c p with Some (_, d, c', p') => Some (bool_decide (is_ok <$> d = Some true), glass p') | None => None end) | None => (None, None) end)
    (display_start (V := Heapless.bounded) None None off) = (Some waiting_picture, Some (true, Some shown_main))) by (vm_compute; reflexivity).
  rewrite E in Hrun. cbv beta iota in Hrun. rewrite Et in Hrun. injection Hrun as Hp Hd Hsh.
  split; [exact Hp|]. split; [exact Et|]. apply bool_decide_eq_true in Hd. change (glass p' = Some shown_main) in Hsh.
  assert (glass p' = Some l) as Hl' by (apply Hg; intros e ->; discriminate Hd). rewrite Hl' in Hsh |- *. exact Hsh.
Defined.

(** The settings screen, entered with the knob pressed. *)
Definition pressed : turn := {| t_selected := Second (UiInput (Navigation Select)); t_radio := None; t_power := None; t_ota := None; t_time := None; t_now := 6000000 |}.
Example settings_drawn :
  ('(c, p) ← display_start (V := Heapless.bounded) None None off; '(_, _, _, p) ← panel_turn pressed c p; glass p) =
  Some (settings_picture DEFAULT_RADIO_SETTINGS DEFAULT_POWER_SETTINGS 0 0 false).
Proof. vm_compute. reflexivity. Qed.

Lemma texts_whole_witness : temp_str (temperature_c (inner heard)) = lit "-9.4C" /\ rssi_str (rssi heard) = lit "RSSI: -70dBm".
Proof.
  destruct (texts_whole heard 230 0 (-94) true) as (Et & _ & Er & _); [reflexivity | num | lia | lia | change (sint 16 (-70)); num |].
  rewrite Et, Er. split; vm_compute; reflexivity.
Defined.
End Sample.
