(* ===== verification/Encoder.v ===== *)
(** * The rotary encoder

    [firmware/src/ui_input.rs] and [ui_input_task] of [tasks/display.rs]: the
    debouncing of the knob, await by await. Edges of the pins and timers are
    inputs, with the levels of the pins at the instant of the step. *)
From S2P Require Import Prelude OtaTasks Bus.

Definition PRESS_SETTLE_US : Z := 50 * 1000.
Definition RELEASE_SETTLE_US : Z := 50 * 1000.
Definition TURN_SETTLE_US : Z := 2 * 1000.
Definition COOLDOWN_US : Z := 200 * 1000.

Record levels := { a_high : bool; b_low : bool; sw_low : bool }.
(** What an await ends with: the falling edge of the switch, its rising edge,
    the rising edge of contact A, the timer. *)
Inductive enc_wake := SwFalls | SwRises | ARises | EncTimer.
Record enc_input := { at_us : Z; wake : enc_wake; pins : levels }.

(** The awaits of [next_event]. *)
Inductive enc_pc :=
| EncWaiting
| PressSettling (until : Z)
| HeldDown
| ReleaseSettling (until : Z)
| TurnSettling (b_at_edge : bool) (until : Z)
| Cooldown (event : UiEvent) (until : Z)
| EncReturned (event : UiEvent).

Definition timer (i : enc_input) (until : Z) (pc : enc_pc) : option enc_pc :=
  match wake i with EncTimer => if until <=? at_us i then Some pc else None | _ => None end.
Definition next_event_step (cw ccw : UiEvent) (pc : enc_pc) (i : enc_input) : option enc_pc :=
  match pc with
  | EncWaiting =>
      match wake i with
      | SwFalls => Some (PressSettling (at_us i + PRESS_SETTLE_US))
      | ARises => Some (TurnSettling (b_low (pins i)) (at_us i + TURN_SETTLE_US))
      | _ => None
      end
  | PressSettling until => timer i until (if sw_low (pins i) then HeldDown else EncWaiting)
  | HeldDown => match wake i with SwRises => Some (ReleaseSettling (at_us i + RELEASE_SETTLE_US)) | _ => None end
  | ReleaseSettling until => timer i until (EncReturned Select)
  | TurnSettling b_at_edge until =>
      timer i until (if negb (a_high (pins i)) then EncWaiting else Cooldown (if b_at_edge then cw else ccw) (at_us i + COOLDOWN_US))
  | Cooldown event until => timer i until (EncReturned event)
  | EncReturned _ => None
  end.
Fixpoint next_event_from (cw ccw : UiEvent) (pc : enc_pc) (l : list enc_input) : option enc_pc :=
  match l with [] => Some pc | i :: l => pc ← next_event_step cw ccw pc i; next_event_from cw ccw pc l end.
Definition next_event (cw ccw : UiEvent) : list enc_input -> option enc_pc := next_event_from cw ccw EncWaiting.

(** [ui_input_task]: an event is sent on unless an update forbids it. *)
Definition ui_forward (ota_state : option OtaState) (event : UiEvent) : option AppEvent :=
  if is_ui_input_allowed (default Inactive ota_state) then Some (UiInput (Navigation event)) else None.
Definition task_event : list enc_input -> option enc_pc := next_event NextScreen PrevScreen.

(** ** Gestures *)

Definition edge (w : enc_wake) (i : enc_input) : Prop := wake i = w.
(** A timer that expired no earlier than [us] after another input. *)
Definition later (us : Z) (i j : enc_input) : Prop := wake j = EncTimer /\ at_us i + us <= at_us j.

(** A contact that bounces: the level is back before it has settled. *)
Inductive bounce : list enc_input -> Prop :=
| press_bounce i j : edge SwFalls i -> later PRESS_SETTLE_US i j -> sw_low (pins j) = false -> bounce [i; j]
| turn_bounce i j : edge ARises i -> later TURN_SETTLE_US i j -> a_high (pins j) = false -> bounce [i; j].

(** The switch pushed and let go, or the knob turned by a detent; the level of
    contact B at the edge of A tells which way. *)
Inductive gesture (cw ccw : UiEvent) : UiEvent -> list enc_input -> Prop :=
| push i j k l : edge SwFalls i -> later PRESS_SETTLE_US i j -> sw_low (pins j) = true -> edge SwRises k ->
    later RELEASE_SETTLE_US k l -> gesture cw ccw Select [i; j; k; l]
| detent i j k : edge ARises i -> later TURN_SETTLE_US i j -> a_high (pins j) = true -> later COOLDOWN_US j k ->
    gesture cw ccw (if b_low (pins i) then cw else ccw) [i; j; k].

Section Encoder.
Context (cw ccw : UiEvent).
Local Abbreviation run := (next_event_from cw ccw).

Lemma timer_later us i j pc pc' : timer j (at_us i + us) pc = Some pc' <-> later us i j /\ pc' = pc.
Proof.
  unfold timer, later. destruct (wake j); try (split; [done | by intros [[? _] _]]).
  destruct (Z.leb_spec (at_us i + us) (at_us j)); naive_solver lia.
Qed.

Lemma run_app pc l1 l2 : run pc (l1 ++ l2) = pc ← run pc l1; run pc l2.
Proof. revert pc. induction l1 as [|i l1 IH]; intros pc; [done|]. cbn [app next_event_from]. by destruct (next_event_step _ _ pc i) as [pc'|]; [apply IH|]. Qed.

Lemma run_bounce l : bounce l -> run EncWaiting l = Some EncWaiting.
Proof.
  intros [i j Hi Hj Hp | i j Hi Hj Hp]; cbn [next_event_from next_event_step]; rewrite Hi; cbn [mbind option_bind next_event_step]; rewrite Hp; cbn [negb];
    by rewrite (proj2 (timer_later _ i j _ _) (conj Hj eq_refl)).
Qed.
Lemma run_gesture e l : gesture cw ccw e l -> run EncWaiting l = Some (EncReturned e).
Proof.
  intros [i j k l' Hi Hj Hp Hk Hl | i j k Hi Hj Hp Hk]; cbn [next_event_from next_event_step]; rewrite Hi; cbn [mbind option_bind next_event_step]; rewrite Hp; cbn [negb].
  - rewrite (proj2 (timer_later _ i j _ _) (conj Hj eq_refl)). cbn [mbind option_bind next_event_step]. rewrite Hk. cbn [mbind option_bind next_event_step].
    by rewrite (proj2 (timer_later _ k l' _ _) (conj Hl eq_refl)).
  - rewrite (proj2 (timer_later _ i j _ _) (conj Hj eq_refl)). cbn [mbind option_bind next_event_step].
    by rewrite (proj2 (timer_later _ j k _ _) (conj Hk eq_refl)).
Qed.

(** Nothing runs after an event. *)
Lemma returned_ends e e' l : run (EncReturned e) l = Some (EncReturned e') -> l = [] /\ e' = e.
Proof. destruct l as [|i l]; [|done]. cbn. by intros [= ->]. Qed.

(** One round of the loop: a bounce, or a gesture that ends it. *)
Lemma one_round l e : run EncWaiting l = Some (EncReturned e) ->
  gesture cw ccw e l \/ exists i j l', l = i :: j :: l' /\ bounce [i; j] /\ run EncWaiting l' = Some (EncReturned e).
Proof.
  destruct l as [|i l]; [done|]. cbn [next_event_from next_event_step]. destruct (wake i) eqn:Ei; try done; cbn [mbind option_bind]; intros E.
  - destruct l as [|j l]; [done|]. cbn [next_event_from next_event_step] in E. destruct (timer j _ _) as [pc|] eqn:Ej; [|done]. apply timer_later in Ej as [Hj ->]. cbn [mbind option_bind] in E.
    destruct (sw_low (pins j)) eqn:Ep; [left | right; exists i, j, l; split_and!; [done | by constructor | done]].
    destruct l as [|k l]; [done|]. cbn [next_event_from next_event_step] in E. destruct (wake k) eqn:Ek; try done. cbn [mbind option_bind] in E.
    destruct l as [|m l]; [done|]. cbn [next_event_from next_event_step] in E. destruct (timer m _ _) as [pc|] eqn:Em; [|done]. apply timer_later in Em as [Hm ->]. cbn [mbind option_bind] in E.
    apply returned_ends in E as [-> ->]. by constructor.
  - destruct l as [|j l]; [done|]. cbn [next_event_from next_event_step] in E. destruct (timer j _ _) as [pc|] eqn:Ej; [|done]. apply timer_later in Ej as [Hj ->]. cbn [mbind option_bind] in E.
    destruct (a_high (pins j)) eqn:Ep; cbn [negb] in E; [left | right; exists i, j, l; split_and!; [done | by constructor | done]].
    destruct l as [|k l]; [done|]. cbn [next_event_from next_event_step] in E. destruct (timer k _ _) as [pc|] eqn:Ek; [|done]. apply timer_later in Ek as [Hk ->]. cbn [mbind option_bind] in E.
    apply returned_ends in E as [-> ->]. by constructor.
Qed.

(** The debouncing returns an event for exactly those inputs that are any
    number of bounces and then the gesture of that event: nothing but a contact
    that holds its level as long as it has to is an event, and such a contact
    always is. *)
Theorem next_event_spec (l : list enc_input) (e : UiEvent) :
  next_event cw ccw l = Some (EncReturned e) <->
  exists bounces g, l = mjoin bounces ++ g /\ Forall bounce bounces /\ gesture cw ccw e g.
Proof.
  unfold next_event. split.
  - remember (length l) as n eqn:En. revert l En. induction n as [n IH] using lt_wf_ind. intros l -> E.
    destruct (one_round l e E) as [Hg | (i & j & l' & -> & Hb & E')]; [by exists [], l|].
    destruct (IH (length l') ltac:(cbn; lia) l' eq_refl E') as (bounces & g & -> & Hbs & Hg).
    exists ([i; j] :: bounces), g. split; [done|]. split; [by constructor | done].
  - intros (bounces & g & -> & Hb & Hg). rewrite run_app. induction Hb as [|b bounces Hb _ IH]; [by apply run_gesture|].
    cbn [mjoin list_join]. rewrite run_app, (run_bounce b Hb). cbn [mbind option_bind]. exact IH.
Qed.

(** Between the first edge of a gesture and its event lies at least a tenth of
    a second, so the channel of the display gets at most ten in a second. *)
Theorem gesture_takes e g i k : gesture cw ccw e g -> (forall n a b, g !! n = Some a -> g !! S n = Some b -> at_us a <= at_us b) ->
  head g = Some i -> last g = Some k -> at_us i + 100 * 1000 <= at_us k.
Proof.
  intros [i0 j k0 l Hi [_ Hj] _ _ [_ Hl] | i0 j k0 Hi [_ Hj] _ [_ Hk]] Hmono [= <-] [= <-].
  - pose proof (Hmono 1%nat j k0 eq_refl eq_refl). unfold PRESS_SETTLE_US, RELEASE_SETTLE_US in *. lia.
  - unfold TURN_SETTLE_US, COOLDOWN_US in *. lia.
Qed.
End Encoder.

(** ** An instance for witnesses *)

Module Sample.
Definition at_ (t : Z) (w : enc_wake) (a b s : bool) : enc_input := {| at_us := t; wake := w; pins := {| a_high := a; b_low := b; sw_low := s |} |}.
(** A turn to the left after a contact that bounced. *)
Definition turned : list enc_input := [at_ 0 ARises true true false; at_ 2000 EncTimer false true false;
  at_ 9000 ARises true false false; at_ 11000 EncTimer true false false; at_ 211000 EncTimer true true false].
Example turned_left : task_event turned = Some (EncReturned PrevScreen).
Proof. reflexivity. Qed.
Example kept_during_update : ui_forward (Some Downloading) PrevScreen = None /\ ui_forward None PrevScreen = Some (UiInput (Navigation PrevScreen)).
Proof. split; reflexivity. Qed.

Lemma gesture_takes_witness : at_us (at_ 9000 ARises true false false) + 100 * 1000 <= at_us (at_ 211000 EncTimer true true false).
Proof.
  apply (gesture_takes NextScreen PrevScreen PrevScreen (drop 2 turned)); [| |reflexivity|reflexivity].
  - apply (detent NextScreen PrevScreen (at_ 9000 ARises true false false)); [reflexivity | split; [reflexivity | cbn; unfold TURN_SETTLE_US; lia] | reflexivity | split; [reflexivity | cbn; unfold COOLDOWN_US; lia]].
  - intros [|[|[|n]]] a b; cbn; [intros [= <-] [= <-]; cbn; lia | intros [= <-] [= <-]; cbn; lia | done | done].
Defined.
End Sample.
